(* ===== verification/_CoqProject ===== *)
-Q . S2P
Prelude.v
RustStr.v
Types.v
Contract.v
Pricing.v
Messages.v
Samples.v
Projects.v
Secrets.v
Wallet.v
Payment.v
Execution.v
Admin.v
Ledger.v
System.v
Reachable.v
Vectors.v
AccessKeys.v
Attestation.v
TeeSamples.v
Dao.v
DaoHistory.v
Register.v
Vault.v
DaoVault.v
Calendar.v
Access.v
Door.v
Envelope.v
Statement.v
Tasks.v
TaskRun.v
TaskAnswer.v
TaskSamples.v
Masters.v
KeyCache.v
KeyNames.v
KeySafety.v
MasterSafety.v
Manifest.v
ManifestSafety.v
RunKeys.v
RunKeySafety.v
KeySamples.v
Detector.v
Monitor.v
MonitorSafety.v
MonitorChain.v
VaultAdmin.v
MonitorSamples.v
Solana.v
WalletPolicy.v
WalletSign.v
Eip712.v
Eip712Safety.v
WalletSafety.v
WalletEvm.v
WalletArtifacts.v
WalletChain.v
WalletSecrets.v
WalletSamples.v
