(* ===== verification/Prelude.v ===== *)
(** * OutLayer: its contracts, its keystore and what a run may do

    OutLayer runs code off chain for accounts on NEAR.  Its contract
    (src/contract) takes requests with a NEAR deposit and optional stablecoin,
    hands them to a worker through a promise yield, and settles them in the
    yield's callback; it keeps the projects whose code is run, the secrets the
    runs may read, payment keys and their nonces, wallet policies, price lists
    and developers' earnings.  The vault (src/vault-contract) holds a customer's
    sub-account under TEE keys until a timed recovery hands it to the parent.
    The DAO (src/keystore-dao-contract) votes on the keystores those keys belong
    to, on vault code and on cessation; the register (src/register-contract)
    takes the keys of attested workers.  The keystore (src/keystore-worker)
    judges the access conditions of a secret before it opens it, derives the
    keys a component declares from a master of its own or of a vault, and signs for
    wallets what their policy on chain or its approvers allow.  The worker
    (src/worker) runs components under the manifest their bytes carry: it admits
    callers, limits the network and hands over the declared keys; through its
    task interface a component asks the owner of a secret row for a word and acts
    on the answer.  The monitor (src/outlayer-monitor) reads the finalized blocks,
    bans the owner of a vault whose recovery races its own requests, and forwards
    what vaults announce.

    ** How code becomes Rocq

    A contract method is a computation [M W A] over a world [W] of storage and
    emitted actions: it returns [Ok (result, world)] or [Panic msg], and a panic
    undoes everything, as a failing receipt does.  A promise, a yield, a resume,
    an event and a returned value are actions in the world's output, in the order
    the code makes them.  Code outside a contract keeps what it changed when it
    fails: it is an [act S A E], a function from a state to a result and a state.
    [u32], [u64] and [u128] are [Z]; additions and products are checked as the
    release profile checks them ([add64], [mul128], ...) and saturate where the
    source saturates.  [LookupMap]s are [gmap]s, strings are byte strings with
    UTF-8 decoding where the source looks at characters.  The account, deposit,
    clock and host answers of a receipt are an [Env].

    Crates, host functions and services whose code is not in the repository are
    operations of classes and records: [Platform] and [Unicode] (JSON, hex,
    base64, SHA-256, ed25519, secp256k1 recovery, account-id syntax, Unicode tables),
    [TeeVerifier] (TDX quotes), [Regex], [Crates] and [TaskCrypto] (ciphers, key
    derivation, JSON writers), [TaskWorld] (the task store, the chain, the clock,
    randomness), [KeyCrates] and [RunCrates] (HMAC, signatures and ciphers of the
    keystore and of a run), [AccountIds], [NearClient] (the chain as the RPC
    answers it), [ManifestCrates] (serde's derived readers, wasmparser), [Web] and
    [ChainClient] (the HTTP and NEAR RPC answers the monitor and the keystore's
    administration get), [PolicyTypes] and [PolicyCrate] (the policy engine of
    shared-tee-helpers), [SignCrates], [Keccak] and [EvmCrates] (serde_json, hex,
    bs58, near-crypto, near-primitives, sha3, k256), [SignHost] and [SignClient]
    (clock, randomness, the MPC and the chain as a wallet's handlers ask them).  A
    theorem that needs one of their documented laws states it as a hypothesis or a
    class of laws ([CrateLaws], [CryptoLaws], [fills], [KeyCrateLaws],
    [RunCrateLaws], [KeyWire], [answers_at_blocks], [follows_chain], [HostAgrees],
    [answering], [KeccakLaws], [EvmLaws]); Samples, TeeSamples, TaskSamples,
    KeySamples, MonitorSamples and WalletSamples have instances on which the
    hypotheses hold.

    ** Files

    - Prelude: the monads, machine integers, record update, inversion and frame
      tactics ([minv], [prop_bool], [solve_frame], [solve_emits]), sums over maps.
    - RustStr: strings as the sources use them: bytes, chars, trimming, decimal
      and hexadecimal spelling.  Vectors: lists updated by index.
    - Types, Contract: lib.rs and types.rs of the contract: data, storage,
      actions, [Env], [Platform], the constructor.
    - Pricing: fees of lib.rs, prices, splits and plans of payment.rs.
    - Messages: wallet keys, signatures and the signed messages of wallet.rs and
      secrets.rs.
    - Samples: a concrete platform and deployment for the witnesses.
    - Projects: projects.rs.  [registry_ok] ties projects, versions, uuids and
      the owners' index together; every operation keeps it.
    - Secrets: secrets.rs and the nonce floors of payment.rs.  [secrets_ok] ties
      rows, index, vault bindings and nonce floors.
    - Wallet: wallet.rs.  [wallets_ok] ties policies, metadata, owners' index and
      beneficiaries.
    - Payment: payment.rs and the earnings of lib.rs.
    - Execution: execution.rs.  Admin: admin.rs and views.rs.
    - Ledger: what settlement pays, the invariant [money_ok] and the sum [ledger]
      of what the contract owes in stablecoin.
    - System: every external method as a [Call], every yield callback, and the
      system of receipts around the contract: outstanding yields and what they
      were resumed with, token transfers of earnings, callbacks that fail or run
      out of gas.  [step] and [trace] interleave them freely.
    - Reachable: the invariant of all components along every trace from a fresh
      deployment, and what follows.
    - AccessKeys, Vault: src/vault-contract on an account with access keys; calls,
      DAO answers, key batches and callbacks in any order.
    - Attestation, TeeSamples: quotes, collateral and measurements, shared by the
      DAO and the register.  Dao, DaoHistory: src/keystore-dao-contract and the
      history of its votes.  Register: src/register-contract.  DaoVault: the
      vault and the DAO together.
    - Calendar, Access, Door: keystore-worker's dates, access conditions with
      answers that may be unknown, and the door that judges them.
    - Envelope, Statement, Tasks: worker/src/tasks: what a task shows, what an
      owner signs, the keys of a task and the host's functions.  TaskRun: any
      sequence of calls of a run.  TaskAnswer: when a task is taken, and that what
      is opened reads back.  TaskSamples: a store, two runs and an approval.
    - Masters: keystore-worker's crypto.rs and the vault gate of mpc_ckd.rs and
      api.rs: masters, the pair cache, derivation, sealing.  KeyCache: the same
      methods one critical section at a time, on any number of threads ([step]),
      and the invariant [cache_inv] along every interleaving.
    - KeyNames: declared keys, their validation and the texts they are derived
      from (signing_keys.rs, encryption_keys.rs, task_keys.rs), the seeds callers
      spell, and the authorization of a request (api.rs).  KeySafety, MasterSafety:
      what they guarantee.
    - Manifest: worker/src/connector_manifest.rs, callers.rs, net_guard.rs and the
      declaration rules of the keys.  ManifestSafety: what they come to.
    - RunKeys: worker/src/signing_keys and encryption_keys: the rules of a
      declaration against the run, the keys of a run and their use.  RunKeySafety:
      the two sides together.  KeySamples: crates, a chain, a vault, a manifest.
    - Detector: types.rs and detector.rs of outlayer-monitor, against a detector
      that looks at all calls of the past.  Monitor: the rest of it: what is read
      from a block, the feed and its checkpoint, sinks, alerters, the check of an
      event against the chain, the main loop, restarts.  MonitorSafety: what it
      alerts and bans; MonitorChain: it and the contracts together.
    - VaultAdmin: vault_verifier.rs and the administration handlers of
      api_support.rs, which mark a vault verified and take the monitor's bans.
      MonitorSamples: a chain with a race, for the monitor's theorems.
    - Solana: solana.rs, the parser that tells a transaction from a message, and the
      grammar of transaction messages it is proved to recognise.
    - WalletPolicy: the policy on chain, the stand-in for a wallet without one, and
      the approvers' votes (api.rs, near.rs).  WalletSign: the handlers that sign
      for a wallet: an operation in its three modes, the pre-flight check, agents'
      secrets, the policy, Solana.  WalletSafety: the course of a request ([later],
      [onward], [goes_on]), who allowed what was signed, the count of a ballot.
      WalletArtifacts: what was signed.  WalletChain: the policy, the keystore and
      the contract together.  WalletSecrets: agents' secrets and the contract, and
      Solana messages.
    - Eip712: eip712.rs, the digests of typed data and messages.  Eip712Safety:
      what they come to.  WalletEvm: the EVM handlers and keys, and the address.
      WalletSamples: crates, an engine, a contract and requests of one wallet.

    ** What is shown

    Money: settlement divides the attached stablecoin without loss between
    caller, author and owner and charges NEAR at most the compute deposit; over
    every trace the stablecoin taken in equals balances, earnings, pending
    requests, transfers under way and what was stranded, and what can strand is
    named.  Requests: admission checks and debits what it says, a pending request
    has a callback that settles it, settled once and for good, and the callback
    cannot panic while the counters have room.  Secrets: a store reads back, the
    deposit is conserved, agents' stores carry a signature over an unambiguous
    message, payment-key nonces are used once.  Wallets: a policy needs the next
    version under an unexpired signature, a beneficiary changes only by itself.
    Projects: created once under a fresh uuid, moved only with both sides' word,
    always runnable.  Vault: it unlocks only by a handover of its parent after
    the full delay, full access is only ever the parent's, a running recovery is
    frozen, and the parent's exit goes through.

    DAO and register: a keystore or worker key is there only by attestation and
    by the votes of live members; a majority executes; vault code is approved by
    quorum; a vault takes only keys the DAO approved, and leaves without its word
    only for cause.  Door: the verdict is the meaning of the condition, an unknown
    answer admits nobody, the date written is the calendar's.  Tasks: a task is
    taken only on the owner's signed word by the preparer's own run; what was
    opened reads back; an approval covers one task; the report names exactly what
    the run must answer for; calls and opened tasks are limited; what is shown is
    plain; the key search ends.

    Keys: two declared keys share a derivation text only if they are one key, and
    no text a caller can spell is one of theirs; what is exported signs for no
    wallet; keys go only to a build the chain published under the project, in the
    block its owner and uuid were read from, and out of vaults of that owner.  A
    vault's master is served only while the chain, asked each time, allows it; it
    leaves memory with every pair derived from it, and no derivation running
    beside the eviction puts one back.  The worker's rules for a declaration are
    the keystore's; a run holds exactly the keys it declares; what a key seals
    opens, and a login it signs verifies.  Manifest: a run is admitted by the door
    it came through; a guest reaches what its bytes list, at the times they name,
    and every attempt is logged; reserved addresses are refused, in whichever
    spelling; the operation run is the one that was priced.

    Monitor: every race of a parent and its vault inside the window is alerted by a
    monitor that follows the chain, and a ban is sent for nothing else; the lines a
    vault or the DAO writes are read as the event they came from, what is forwarded
    is true on chain when it is checked, and the keystore takes the ban as it is
    sent.  A vault is marked verified only when what the chain answered satisfies
    the rules the vault's own key swap establishes.

    Wallets: what the keystore signs is the operation of the request, made with the
    wallet's key; it was allowed by the policy of that key, read from the chain in the
    course of the request, or by as many of the approvers it names as it asks for,
    each once and none against, and the count is exact.  The check before signing
    answers as signing does.  A policy it signs is one the contract takes, under the
    next version; a locked one is replaced by its approvers only.  A secret it signs
    for an agent passes the contract's gate and opens.  What a Solana wallet signs as
    a message is no transaction, for exactly the transactions a node takes.  An EVM
    signature recovers to the wallet's address over the digest of the request; a
    digest of typed data determines the data, integers are encoded as the numbers
    they spell, and the text of a type is its closure.

    Some theorems state behaviour the documentation does not intend: the bulk
    cancel that strands stablecoin, the NEAR top-up that spends more than it
    reserves, the policy signature that is good again after a delete, the TEE key
    that outlives a handover, the doubled member that blocks votes, the revoked
    key that returns, the retried answer that is forgotten, the text that is sealed
    and too long to open, the login made with a key of no caller, the vault that
    outruns its verification, the race a restarted monitor forgets and the events
    it skips, the signed integer that counts modulo [2 ^ 256].

    ** Bounds

    Loops of the source are folds over its lists.  [find_from] at depth 32 looks
    at all counters of a [u32]; [collect_deps] has fuel for one call per type, and
    finds every type referred to ([collect_deps_spec]).  [settlement_room] asks the u64 and u128 counters
    of the contract for room for one more settlement; the DAO's history is bounded
    by 2^31 events ([fits]).  Gas is not modelled: a callback may fail for lack of
    it at any time ([step_callback_lost], the [fails] flag of a key batch).

    ** Not modelled, and next

    Log lines other than those of vaults, NEP-297 formatting (events.rs), listing
    views, storage migrations, borsh layouts.  What a full-access key holder does to
    an account directly is outside the systems of receipts.  One chain answers one
    request of the keystore while its project and vaults are checked; each load of a
    vault reads anew.  A wallet's handler runs as one step of the keystore beside a
    chain that may answer each question differently.  The wording of a refusal is a
    constructor with the values it quotes.  The MPC transactions, the handlers that
    write a caller's own secrets, the middleware that authenticates workers, the
    worker's executor, event monitor and clients, SDK and connectors are I/O around
    what is modelled; their pure parts (call chains, the storage cell) come next. *)

From stdpp Require Export base gmap strings list fin_maps.
From Stdlib Require Export ZArith Lia.

#[global] Open Scope string_scope.
#[global] Open Scope list_scope.
#[global] Open Scope Z_scope.
#[global] Set Default Goal Selector "!".

(** * Outcomes and the contract monad

    A NEAR method either returns or panics.  A panic rolls the whole receipt
    back, so a panicking method has no state afterwards: it is [Panic msg].
    The state a method works on is a [World]: the contract's own record and the
    actions (promises, events, return values) it has issued so far. *)

Inductive outcome (A : Type) : Type :=
| Ok (a : A)
| Panic (msg : string).
Arguments Ok {A} a.
Arguments Panic {A} msg.

Definition is_ok {A} (o : outcome A) : bool :=
  match o with Ok _ => true | Panic _ => false end.

Record World (C Act : Type) : Type := mkWorld {
  st : C;            (* the contract's storage *)
  out : list Act;    (* actions issued so far, oldest first *)
}.
Arguments mkWorld {C Act} st out.
Arguments st {C Act} w : rename.
Arguments out {C Act} w : rename.

Definition M (W A : Type) : Type := W → outcome (A * W).

Section monad.
Context {W : Type}.

Definition ret {A} (a : A) : M W A := λ w, Ok (a, w).

Definition bind {A B} (m : M W A) (k : A → M W B) : M W B :=
  λ w, match m w with
       | Ok (a, w') => k a w'
       | Panic msg => Panic msg
       end.

Definition panic {A} (msg : string) : M W A := λ _, Panic msg.

(** [assert!] / [require!]. *)
Definition require (b : bool) (msg : string) : M W unit :=
  if b then ret tt else panic msg.

(** [expect] / [unwrap_or_else(|| panic_str(..))]. *)
Definition unwrap {A} (o : option A) (msg : string) : M W A :=
  match o with Some a => ret a | None => panic msg end.
End monad.

Section world.
Context {C Act : Type}.

Definition get_st : M (World C Act) C := λ w, Ok (st w, w).
Definition modify (f : C → C) : M (World C Act) unit :=
  λ w, Ok (tt, mkWorld (f (st w)) (out w)).
Definition emit (a : Act) : M (World C Act) unit :=
  λ w, Ok (tt, mkWorld (st w) (out w ++ [a])).
End world.

Declare Scope near_scope.
Delimit Scope near_scope with near.
Notation "'let!' x := m 'in' k" := (bind m (λ x, k))
  (at level 10, x name, m at level 100, k at level 200) : near_scope.
Notation "'let!' ' p := m 'in' k" := (bind m (λ p, k))
  (at level 10, p strict pattern, m at level 100, k at level 200) : near_scope.
Notation "m >>> k" := (bind m (λ _, k))
  (at level 100, k at level 200, right associativity) : near_scope.
#[global] Open Scope near_scope.

(** Loops of the source over a vector, left to right. *)
Fixpoint for_each {W A} (l : list A) (body : A → M W unit) : M W unit :=
  match l with
  | [] => ret tt
  | x :: l => body x >>> for_each l body
  end.

(** The same with a loop-carried value. *)
Fixpoint foldM {W A B} (f : B → A → M W B) (b : B) (l : list A) : M W B :=
  match l with
  | [] => ret b
  | x :: l => let! b' := f b x in foldM f b' l
  end.

(** * Machine integers

    Rust's unsigned integers are integers of [Z] in range.  The contracts are
    built with [overflow-checks = true]: [+], [-] and [*] panic when the exact
    result is out of range. *)

Definition in_width (w : Z) (z : Z) : bool := (0 <=? z) && (z <? 2 ^ w).
Abbreviation u8_ok z := (in_width 8 z = true).
Abbreviation u16_ok z := (in_width 16 z = true).
Abbreviation u32_ok z := (in_width 32 z = true).
Abbreviation u64_ok z := (in_width 64 z = true).
Abbreviation u128_ok z := (in_width 128 z = true).

Definition U64_MAX : Z := 2 ^ 64 - 1.
Definition U32_MAX : Z := 2 ^ 32 - 1.
Definition U128_MAX : Z := 2 ^ 128 - 1.

Definition checked {W} (w : Z) (z : Z) : M W Z :=
  if in_width w z then ret z else panic "attempt to compute with overflow".

Definition add128 {W} (a b : Z) : M W Z := checked 128 (a + b).
Definition sub128 {W} (a b : Z) : M W Z := checked 128 (a - b).
Definition mul128 {W} (a b : Z) : M W Z := checked 128 (a * b).
Definition add64 {W} (a b : Z) : M W Z := checked 64 (a + b).
Definition mul64 {W} (a b : Z) : M W Z := checked 64 (a * b).

Definition saturating_sub (a b : Z) : Z := Z.max 0 (a - b).
Definition saturating_add (w a b : Z) : Z := Z.min (2 ^ w - 1) (a + b).
Definition saturating_mul (w a b : Z) : Z := Z.min (2 ^ w - 1) (a * b).

(** * Record update

    [s <| f := v |>] is the record [s] with the field [f] set to [v].  The
    instance for a field is computed from the record's eta expansion. *)

Class Setter {R T : Type} (f : R → T) := set_field : T → R → R.

Ltac derive_setter eta :=
  lazymatch goal with
  | |- @Setter ?R ?T ?f =>
    let e := eval cbv delta [eta] in eta in
    lazymatch eval pattern f in e with
    | ?g _ =>
      let r := eval cbv beta in (fun (v : T) (s : R) => g (fun _ : R => v) s) in
      exact r
    end
  end.

Notation "s <| f := v |>" := (set_field (f := f) v s)
  (at level 1, left associativity, f at level 0, v at level 200,
   format "s  <| f  :=  v |>") : near_scope.

(** * Inverting a run

    [minv] takes every hypothesis saying that a composite computation returned
    apart into what its steps returned. *)

Section inversion.
Context {W : Type}.

Lemma bind_ok {A B} (m : M W A) (k : A → M W B) w r :
  bind m k w = Ok r ↔ ∃ a w', m w = Ok (a, w') ∧ k a w' = Ok r.
Proof.
  unfold bind. split.
  - destruct (m w) as [[a w']|]; [eauto | discriminate].
  - intros (a & w' & -> & H). exact H.
Qed.

Lemma ret_ok {A} (a : A) (w : W) b w' :
  ret a w = Ok (b, w') ↔ b = a ∧ w' = w.
Proof. unfold ret. split; [by intros [= -> ->] | by intros [-> ->]]. Qed.

Lemma require_ok b msg (w : W) u w' :
  require b msg w = Ok (u, w') ↔ b = true ∧ w' = w.
Proof.
  unfold require. destruct b.
  - rewrite ret_ok. destruct u. naive_solver.
  - split; [discriminate | naive_solver].
Qed.

Lemma unwrap_ok {A} (o : option A) msg (w : W) a w' :
  unwrap o msg w = Ok (a, w') ↔ o = Some a ∧ w' = w.
Proof.
  unfold unwrap. destruct o.
  - rewrite ret_ok. naive_solver.
  - split; [discriminate | naive_solver].
Qed.

Lemma checked_ok n z (w : W) r w' :
  checked n z w = Ok (r, w') ↔ in_width n z = true ∧ r = z ∧ w' = w.
Proof.
  unfold checked. destruct (in_width n z).
  - rewrite ret_ok. naive_solver.
  - split; [discriminate | naive_solver].
Qed.
End inversion.

Lemma get_st_ok {C Act} (w : World C Act) s w' :
  get_st w = Ok (s, w') ↔ s = st w ∧ w' = w.
Proof. unfold get_st. split; [by intros [= <- <-] | by intros [-> ->]]. Qed.

Lemma modify_ok {C Act} (f : C → C) (w : World C Act) u w' :
  modify f w = Ok (u, w') ↔ w' = mkWorld (f (st w)) (out w).
Proof. unfold modify. destruct u. split; [by intros [= <-] | by intros ->]. Qed.

Lemma emit_ok {C Act} (a : Act) (w : World C Act) u w' :
  emit a w = Ok (u, w') ↔ w' = mkWorld (st w) (out w ++ [a]).
Proof. unfold emit. destruct u. split; [by intros [= <-] | by intros ->]. Qed.

(** The world a run leaves behind; the old one when it panics. *)
Definition ran {W A} (m : M W A) (w : W) : W :=
  match m w with Ok (_, w') => w' | Panic _ => w end.

Lemma ran_ok {W} (m : M W unit) (w : W) : is_ok (m w) = true → m w = Ok (tt, ran m w).
Proof. unfold ran. destruct (m w) as [[[] w']|]; done. Qed.

Lemma is_ok_bind {W A B} (m : M W A) (k : A → M W B) w a w' :
  m w = Ok (a, w') → is_ok (k a w') = true → is_ok (bind m k w) = true.
Proof. unfold bind. by intros ->. Qed.

Lemma is_ok_run {W} (m : M W unit) w : is_ok (m w) = true → ∃ w', m w = Ok (tt, w').
Proof. destruct (m w) as [[[] w']|]; [eauto | done]. Qed.

(** The newer name gives way: [x] is replaced by what it is equal to. *)
Ltac subst_new x := try (is_var x; subst x).
Ltac inv_pair H r w' := destruct H as (H & ? & ?); subst_new r; subst_new w'.

Ltac minv_step :=
  match goal with
  | H : Panic _ = Ok _ |- _ => discriminate H
  | H : panic _ _ = Ok _ |- _ => discriminate H
  | H : bind _ _ _ = Ok _ |- _ =>
      let a := fresh "a" in let w := fresh "w" in
      let H1 := fresh "H" in let H2 := fresh "H" in
      apply bind_ok in H; destruct H as (a & w & H1 & H2); cbv beta in H2
  | H : ret _ _ = Ok (?r, ?w') |- _ => apply ret_ok in H; destruct H as [? ?]; subst_new r; subst_new w'
  | H : require _ _ _ = Ok (_, ?w') |- _ => apply require_ok in H; destruct H as [H ?]; subst_new w'
  | H : unwrap _ _ _ = Ok (_, ?w') |- _ => apply unwrap_ok in H; destruct H as [H ?]; subst_new w'
  | H : get_st _ = Ok (?r, ?w') |- _ => apply get_st_ok in H; destruct H as [? ?]; subst_new r; subst_new w'
  | H : modify _ _ = Ok (_, ?w') |- _ => apply modify_ok in H; subst_new w'
  | H : emit _ _ = Ok (_, ?w') |- _ => apply emit_ok in H; subst_new w'
  | H : add128 _ _ _ = Ok (?r, ?w') |- _ => apply checked_ok in H; inv_pair H r w'
  | H : sub128 _ _ _ = Ok (?r, ?w') |- _ => apply checked_ok in H; inv_pair H r w'
  | H : mul128 _ _ _ = Ok (?r, ?w') |- _ => apply checked_ok in H; inv_pair H r w'
  | H : add64 _ _ _ = Ok (?r, ?w') |- _ => apply checked_ok in H; inv_pair H r w'
  | H : mul64 _ _ _ = Ok (?r, ?w') |- _ => apply checked_ok in H; inv_pair H r w'
  | H : checked _ _ _ = Ok (?r, ?w') |- _ => apply checked_ok in H; inv_pair H r w'
  | H : Ok _ = Ok _ |- _ => injection H; clear H; intros; subst
  | x : unit |- _ => destruct x
  | H : ?x = ?x |- _ => clear H
  end.
Ltac minv := repeat (minv_step; cbn [st out] in *).

(** Booleans of the source's conditions, as propositions for [lia]. *)
Ltac prop_bool :=
  repeat match goal with
  | H : andb _ _ = true |- _ => apply andb_true_iff in H; destruct H
  | H : orb _ _ = false |- _ => apply orb_false_iff in H; destruct H
  | H : negb _ = true |- _ => apply negb_true_iff in H
  | H : negb _ = false |- _ => apply negb_false_iff in H
  | H : (_ <=? _) = true |- _ => apply Z.leb_le in H
  | H : (_ <=? _) = false |- _ => apply Z.leb_gt in H
  | H : (_ <? _) = true |- _ => apply Z.ltb_lt in H
  | H : (_ <? _) = false |- _ => apply Z.ltb_ge in H
  | H : (_ =? _)%Z = true |- _ => apply Z.eqb_eq in H
  | H : (_ =? _)%Z = false |- _ => apply Z.eqb_neq in H
  | H : bool_decide _ = true |- _ => apply bool_decide_eq_true in H
  | H : bool_decide _ = false |- _ => apply bool_decide_eq_false in H
  end.

Lemma in_width_iff w z : in_width w z = true ↔ 0 ≤ z < 2 ^ w.
Proof. unfold in_width. rewrite andb_true_iff, Z.leb_le, Z.ltb_lt. done. Qed.

Lemma in_width_intro w z : 0 ≤ z < 2 ^ w → in_width w z = true.
Proof. apply in_width_iff. Qed.

Lemma checked_run {W} n z (w : W) : 0 ≤ z < 2 ^ n → checked n z w = Ok (z, w).
Proof. intros Hz. unfold checked. by rewrite in_width_intro. Qed.

(** Turns [in_width] hypotheses into inequalities. *)
Ltac widths :=
  repeat match goal with
  | H : in_width _ _ = true |- _ => apply in_width_iff in H
  end.

Create HintDb near discriminated.
Create Rewrite HintDb near.
#[export] Hint Resolve in_width_intro : near.

(** * Sums over finite maps *)

Section map_sum.
Context {K V : Type} `{Countable K}.

Definition map_sum (f : V → Z) (m : gmap K V) : Z :=
  map_fold (λ _ v acc, f v + acc) 0 m.

Lemma map_sum_empty f : map_sum f ∅ = 0.
Proof. unfold map_sum. by rewrite map_fold_empty. Qed.

Lemma map_sum_insert_fresh f k v m :
  m !! k = None → map_sum f (<[k:=v]> m) = f v + map_sum f m.
Proof. intros Hk. unfold map_sum. rewrite map_fold_insert_L; [done | lia | done]. Qed.

Lemma map_sum_delete f k m :
  map_sum f (delete k m) = map_sum f m - from_option f 0 (m !! k).
Proof.
  destruct (m !! k) as [v|] eqn:Hk; cbn.
  - rewrite <- (insert_id m k v Hk) at 2. rewrite <- insert_delete_eq.
    rewrite map_sum_insert_fresh by apply lookup_delete_eq. lia.
  - rewrite delete_id by done. lia.
Qed.

Lemma map_sum_insert f k v m :
  map_sum f (<[k:=v]> m) = map_sum f m - from_option f 0 (m !! k) + f v.
Proof.
  rewrite <- insert_delete_eq, map_sum_insert_fresh by apply lookup_delete_eq.
  rewrite map_sum_delete. lia.
Qed.

Lemma map_sum_nonneg f m :
  (∀ k v, m !! k = Some v → 0 ≤ f v) → 0 ≤ map_sum f m.
Proof.
  induction m as [|k v m Hk IH] using map_ind; intros Hf.
  - by rewrite map_sum_empty.
  - rewrite map_sum_insert_fresh by done.
    assert (0 ≤ f v) by (apply (Hf k); apply lookup_insert_eq).
    enough (0 ≤ map_sum f m) by lia.
    apply IH. intros k' v' Hk'. apply (Hf k').
    rewrite lookup_insert_ne; [done | congruence].
Qed.

Lemma map_sum_lookup_le f m k v :
  (∀ k v, m !! k = Some v → 0 ≤ f v) → m !! k = Some v → f v ≤ map_sum f m.
Proof.
  intros Hf Hk. rewrite <- (insert_id m k v Hk), <- insert_delete_eq.
  rewrite map_sum_insert_fresh by apply lookup_delete_eq.
  enough (0 ≤ map_sum f (delete k m)) by lia.
  apply map_sum_nonneg. intros k' v' H'. apply (Hf k').
  by apply lookup_delete_Some in H' as [_ ?].
Qed.
End map_sum.

(** A balance sheet: an absent account has balance 0. *)
Definition balance {K} `{Countable K} (m : gmap K Z) (k : K) : Z := default 0 (m !! k).

Definition nonneg_map {K} `{Countable K} (m : gmap K Z) : Prop :=
  ∀ k v, m !! k = Some v → 0 ≤ v.

Section balances.
Context {K : Type} `{Countable K}.
Implicit Types m : gmap K Z.

Lemma balance_sum_insert m k v :
  map_sum (λ x, x) (<[k:=v]> m) = map_sum (λ x, x) m - balance m k + v.
Proof. rewrite map_sum_insert. unfold balance. by destruct (m !! k). Qed.

Lemma balance_sum_delete m k :
  map_sum (λ x, x) (delete k m) = map_sum (λ x, x) m - balance m k.
Proof. rewrite map_sum_delete. unfold balance. by destruct (m !! k). Qed.

Lemma balance_nonneg m k : nonneg_map m → 0 ≤ balance m k.
Proof. intros Hm. unfold balance. destruct (m !! k) eqn:E; cbn; [by apply (Hm k) | lia]. Qed.

Lemma balance_le_sum m k : nonneg_map m → balance m k ≤ map_sum (λ x, x) m.
Proof.
  intros Hm. unfold balance. destruct (m !! k) eqn:E; cbn.
  - by apply (map_sum_lookup_le (λ x, x) m k).
  - by apply map_sum_nonneg.
Qed.

Lemma nonneg_map_insert m k v : nonneg_map m → 0 ≤ v → nonneg_map (<[k:=v]> m).
Proof.
  intros Hm Hv k' v'. rewrite lookup_insert. case_decide; [naive_solver | apply Hm].
Qed.

Lemma nonneg_map_delete m k : nonneg_map m → nonneg_map (delete k m).
Proof. intros Hm k' v' [_ Hk]%lookup_delete_Some. by apply (Hm k'). Qed.

Lemma nonneg_map_empty : nonneg_map (∅ : gmap K Z).
Proof. intros k v. rewrite lookup_empty. discriminate. Qed.

Lemma balance_insert_eq m k v : balance (<[k:=v]> m) k = v.
Proof. unfold balance. by rewrite lookup_insert_eq. Qed.

Lemma balance_insert_ne m k k' v : k ≠ k' → balance (<[k:=v]> m) k' = balance m k'.
Proof. intros. unfold balance. by rewrite lookup_insert_ne. Qed.
End balances.

#[export] Hint Resolve nonneg_map_insert nonneg_map_delete nonneg_map_empty
  balance_nonneg : near.
#[export] Hint Rewrite @balance_sum_insert @balance_sum_delete @map_sum_delete
  @map_sum_insert : near.

(** * Frames

    [frame f m]: whenever [m] returns, it has left the part [f] of the contract's
    storage as it was.  [solve_frame] proves it by walking through [m]. *)

Definition frame {C Act A X} (f : C → X) (m : M (World C Act) A) : Prop :=
  ∀ w a w', m w = Ok (a, w') → f (st w') = f (st w).

Section frame.
Context {C Act X : Type} (f : C → X).

Lemma frame_ret {A} (a : A) : frame f (ret (W := World C Act) a).
Proof. intros w b w' H. by minv. Qed.
Lemma frame_panic {A} msg : frame f (panic (W := World C Act) (A := A) msg).
Proof. intros w b w' H. by minv. Qed.
Lemma frame_require b msg : frame f (require (W := World C Act) b msg).
Proof. intros w u w' H. by minv. Qed.
Lemma frame_unwrap {A} (o : option A) msg : frame f (unwrap (W := World C Act) o msg).
Proof. intros w u w' H. by minv. Qed.
Lemma frame_checked n z : frame f (checked (W := World C Act) n z).
Proof. intros w u w' H. by minv. Qed.
Lemma frame_get : frame f (get_st (C := C) (Act := Act)).
Proof. intros w u w' H. by minv. Qed.
Lemma frame_emit (a : Act) : frame f (emit (C := C) a).
Proof. intros w u w' H. by minv. Qed.
Lemma frame_modify (g : C → C) :
  (∀ c, f (g c) = f c) → frame f (modify (Act := Act) g).
Proof. intros Hg w u w' H. minv. apply Hg. Qed.
Lemma frame_bind {A B} (m : M (World C Act) A) (k : A → M (World C Act) B) :
  frame f m → (∀ a, frame f (k a)) → frame f (bind m k).
Proof.
  intros Hm Hk w b w' H. minv.
  etrans; [by eapply Hk | by eapply Hm].
Qed.
Lemma frame_if {A} (b : bool) (m n : M (World C Act) A) :
  frame f m → frame f n → frame f (if b then m else n).
Proof. by destruct b. Qed.
Lemma frame_for_each {A} (l : list A) body :
  (∀ a, frame f (body a)) → frame f (for_each (W := World C Act) l body).
Proof.
  intros Hb. induction l; cbn; [apply frame_ret | by apply frame_bind].
Qed.
Lemma frame_foldM {A B} (g : B → A → M (World C Act) B) b l :
  (∀ b a, frame f (g b a)) → frame f (foldM g b l).
Proof.
  intros Hb. revert b. induction l; intros b; cbn; [apply frame_ret | by apply frame_bind].
Qed.
End frame.

#[export] Hint Resolve frame_ret frame_panic frame_require frame_unwrap frame_checked
  frame_get frame_emit : near.

Ltac head_of t := lazymatch t with ?f _ => head_of f | _ => t end.

Ltac solve_frame_step :=
  lazymatch goal with
  | |- forall _, _ => intros ?
  | |- frame _ (bind _ _) => apply frame_bind; [|intros ?]
  | |- frame _ (ret _) => apply frame_ret
  | |- frame _ (panic _) => apply frame_panic
  | |- frame _ (require _ _) => apply frame_require
  | |- frame _ (unwrap _ _) => apply frame_unwrap
  | |- frame _ (checked _ _) => apply frame_checked
  | |- frame _ (add128 _ _) => apply frame_checked
  | |- frame _ (sub128 _ _) => apply frame_checked
  | |- frame _ (mul128 _ _) => apply frame_checked
  | |- frame _ (add64 _ _) => apply frame_checked
  | |- frame _ (mul64 _ _) => apply frame_checked
  | |- frame _ get_st => apply frame_get
  | |- frame _ (emit _) => apply frame_emit
  | |- frame _ (modify ?g) =>
      apply frame_modify; intros ?;
      first [ reflexivity
            | let h := head_of g in unfold h; repeat case_match; reflexivity ]
  | |- frame _ (for_each _ _) => apply frame_for_each
  | |- frame _ (foldM _ _ _) => apply frame_foldM
  | |- frame _ (let x := ?e in @?k x) => cbv zeta
  | |- frame _ (if ?b then _ else _) => destruct b
  | |- frame _ (match ?x with _ => _ end) => destruct x
  | |- frame _ ?m =>
      first [ solve [eauto with near]
            | let h := head_of m in progress unfold h ]
  end.
Ltac solve_frame := cbv zeta; repeat (solve_frame_step; cbv zeta beta).

(** * Emissions

    [emits P m]: whatever [m] issues satisfies [P].  [solve_emits] proves it by
    walking through [m]. *)

Definition emits {C Act A} (P : Act → Prop) (m : M (World C Act) A) : Prop :=
  ∀ w a w', m w = Ok (a, w') → ∃ l, out w' = out w ++ l ∧ Forall P l.

Section emits.
Context {C Act : Type} (P : Act → Prop).

(** A computation that leaves the list of actions alone. *)
Lemma emits_silent {A} (m : M (World C Act) A) :
  (∀ w a w', m w = Ok (a, w') → out w' = out w) → emits P m.
Proof.
  intros Hm w a w' Hr. exists []. rewrite app_nil_r. split; [by eapply Hm | constructor].
Qed.
Lemma emits_ret {A} (a : A) : emits P (ret (W := World C Act) a).
Proof. apply emits_silent. intros w b w' Hr. by minv. Qed.
Lemma emits_panic {A} msg : emits P (panic (W := World C Act) (A := A) msg).
Proof. apply emits_silent. intros w b w' Hr. by minv. Qed.
Lemma emits_require b msg : emits P (require (W := World C Act) b msg).
Proof. apply emits_silent. intros w u w' Hr. by minv. Qed.
Lemma emits_unwrap {A} (o : option A) msg : emits P (unwrap (W := World C Act) o msg).
Proof. apply emits_silent. intros w u w' Hr. by minv. Qed.
Lemma emits_checked n z : emits P (checked (W := World C Act) n z).
Proof. apply emits_silent. intros w u w' Hr. by minv. Qed.
Lemma emits_get : emits P (get_st (C := C) (Act := Act)).
Proof. apply emits_silent. intros w u w' Hr. by minv. Qed.
Lemma emits_modify (g : C → C) : emits P (modify (Act := Act) g).
Proof. apply emits_silent. intros w u w' Hr. by minv. Qed.
Lemma emits_emit (a : Act) : P a → emits P (emit (C := C) a).
Proof. intros Ha w u w' Hr. minv. exists [a]. split; [done | by repeat constructor]. Qed.
Lemma emits_bind {A B} (m : M (World C Act) A) (k : A → M (World C Act) B) :
  emits P m → (∀ a, emits P (k a)) → emits P (bind m k).
Proof.
  intros Hm Hk w b w' Hr. minv.
  destruct (Hm _ _ _ H) as (l & Hl & Fl). destruct (Hk _ _ _ _ H0) as (l' & Hl' & Fl').
  exists (l ++ l'). rewrite Hl', Hl, app_assoc. split; [done | by apply Forall_app].
Qed.
Lemma emits_for_each {A} (l : list A) body :
  (∀ a, emits P (body a)) → emits P (for_each (W := World C Act) l body).
Proof. intros Hb. induction l; cbn; [apply emits_ret | by apply emits_bind]. Qed.
Lemma emits_foldM {A B} (g : B → A → M (World C Act) B) b l :
  (∀ b a, emits P (g b a)) → emits P (foldM g b l).
Proof.
  intros Hb. revert b. induction l; intros b; cbn; [apply emits_ret | by apply emits_bind].
Qed.
End emits.

Ltac solve_emits_step :=
  lazymatch goal with
  | |- forall _, _ => intros ?
  | |- emits _ (bind _ _) => apply emits_bind; [|intros ?]
  | |- emits _ (ret _) => apply emits_ret
  | |- emits _ (panic _) => apply emits_panic
  | |- emits _ (require _ _) => apply emits_require
  | |- emits _ (unwrap _ _) => apply emits_unwrap
  | |- emits _ (checked _ _) => apply emits_checked
  | |- emits _ get_st => apply emits_get
  | |- emits _ (modify _) => apply emits_modify
  | |- emits _ (emit _) => apply emits_emit; exact I
  | |- emits _ (for_each _ _) => apply emits_for_each
  | |- emits _ (foldM _ _ _) => apply emits_foldM
  | |- emits _ (let x := ?e in @?k x) => cbv zeta
  | |- emits _ (if ?b then _ else _) => destruct b
  | |- emits _ (match ?x with _ => _ end) => destruct x
  | |- emits _ ?m => let h := head_of m in progress unfold h
  end.
Ltac solve_emits := cbv zeta; repeat (solve_emits_step; cbv zeta beta).

(** * Results

    Rust's [Result] where the error is a value the caller looks at. *)

Inductive result (A E : Type) : Type :=
| ROk (a : A)
| RErr (e : E).
Arguments ROk {A E} a.
Arguments RErr {A E} e.

Definition rbind {A B E} (m : result A E) (k : A → result B E) : result B E :=
  match m with ROk a => k a | RErr e => RErr e end.
Definition map_err {A E F} (f : E → F) (r : result A E) : result A F :=
  match r with ROk a => ROk a | RErr e => RErr (f e) end.
Definition ok_or {A E} (o : option A) (e : E) : result A E :=
  match o with Some a => ROk a | None => RErr e end.

Notation "'let?' x := m 'in' k" := (rbind m (λ x, k))
  (at level 10, x name, m at level 100, k at level 200) : near_scope.
Notation "'let?' ' p := m 'in' k" := (rbind m (λ p, k))
  (at level 10, p strict pattern, m at level 100, k at level 200) : near_scope.

Lemma rbind_ok {A B E} (m : result A E) (k : A → result B E) b :
  rbind m k = ROk b ↔ ∃ a, m = ROk a ∧ k a = ROk b.
Proof. destruct m; cbn; naive_solver. Qed.
Lemma ok_or_ok {A E} (o : option A) (e : E) a : ok_or o e = ROk a ↔ o = Some a.
Proof. destruct o; cbn; naive_solver. Qed.

(** * State that outlives a failure

    A method on [&mut self] that returns a [Result]: what it changed before it failed
    stays changed. *)

Definition act (W A E : Type) : Type := W → result A E * W.

Section act.
Context {W E : Type}.
Definition give {A} (a : A) : act W A E := λ w, (ROk a, w).
Definition stop {A} (e : E) : act W A E := λ w, (RErr e, w).
Definition after {A B} (m : act W A E) (k : A → act W B E) : act W B E := λ w,
  match m w with
  | (ROk a, w) => k a w
  | (RErr e, w) => (RErr e, w)
  end.
Definition lift {A} (r : result A E) : act W A E := λ w, (r, w).
End act.

Notation "'let^' x := m 'in' k" := (after m (λ x, k))
  (at level 10, x name, m at level 100, k at level 200) : near_scope.
Notation "'let^' ' p := m 'in' k" := (after m (λ p, k))
  (at level 10, p strict pattern, m at level 100, k at level 200) : near_scope.

Lemma after_ok {W E A B} (m : act W A E) (k : A → act W B E) w b w' :
  after m k w = (ROk b, w') ↔ ∃ a w1, m w = (ROk a, w1) ∧ k a w1 = (ROk b, w').
Proof. unfold after. destruct (m w) as [[a|e] w1]; naive_solver. Qed.
