(* ===== verification/RustStr.v ===== *)
(** The parts of Rust's [str], [String], [char] and integer formatting the
    contracts use.  A [str] is its UTF-8 bytes: a [string] of 8-bit characters.
    Functions of the standard library that need the Unicode tables on non-ASCII
    text take them as arguments (class [Unicode]). *)

From Stdlib Require Export Ascii.
From stdpp Require Export pretty.
From S2P Require Export Prelude.

#[global] Arguments String.append : simpl nomatch.

(** [str::len]: bytes. *)
Definition str_len (s : string) : Z := Z.of_nat (String.length s).

Definition str_is_empty (s : string) : bool :=
  match s with EmptyString => true | _ => false end.

Definition byte_of (c : ascii) : Z := Z.of_N (N_of_ascii c).

Fixpoint forall_bytes (p : Z → bool) (s : string) : bool :=
  match s with
  | EmptyString => true
  | String c s => p (byte_of c) && forall_bytes p s
  end.

Definition in_range (lo hi b : Z) : bool := (lo <=? b) && (b <=? hi).

Definition is_ascii_digit (b : Z) : bool := in_range 48 57 b.
Definition is_ascii_lower (b : Z) : bool := in_range 97 122 b.
Definition is_ascii_upper (b : Z) : bool := in_range 65 90 b.
Definition is_ascii_alphanumeric (b : Z) : bool :=
  is_ascii_digit b || is_ascii_lower b || is_ascii_upper b.
Definition is_lower_hex (b : Z) : bool := is_ascii_digit b || in_range 97 102 b.
Definition is_ascii_hexdigit (b : Z) : bool := is_lower_hex b || in_range 65 70 b.

Definition ch_dash : Z := 45.
Definition ch_dot : Z := 46.
Definition ch_slash : Z := 47.
Definition ch_colon : Z := 58.
Definition ch_plus : Z := 43.
Definition ch_underscore : Z := 95.

(** [str::starts_with] and [str::contains] on a string pattern. *)
Definition starts_with (s pre : string) : bool := String.prefix pre s.

Fixpoint str_contains (s pat : string) : bool :=
  String.prefix pat s ||
  match s with EmptyString => false | String _ s => str_contains s pat end.

(** [str::contains] on one ASCII character. *)
Fixpoint has_byte (b : Z) (s : string) : bool :=
  match s with
  | EmptyString => false
  | String c s => (byte_of c =? b) || has_byte b s
  end.

(** ** Unicode-aware functions *)

(** What the standard library's Unicode tables say about non-ASCII text. *)
Class Unicode := {
  unicode_alphanumeric : Z → bool;    (* code points from 128 on *)
  unicode_to_lowercase : string → string;
}.

Definition str_bytes (s : string) : list Z := map byte_of (String.list_ascii_of_string s).

(** [str::chars], as code points, of well-formed UTF-8. *)
Fixpoint decode_chars (l : list Z) : list Z :=
  match l with
  | [] => []
  | b0 :: l0 =>
    if b0 <? 128 then b0 :: decode_chars l0 else
    match l0 with
    | [] => []
    | b1 :: l1 =>
      if b0 <? 224 then (Z.land b0 31 * 64 + Z.land b1 63) :: decode_chars l1 else
      match l1 with
      | [] => []
      | b2 :: l2 =>
        if b0 <? 240 then
          (Z.land b0 15 * 4096 + Z.land b1 63 * 64 + Z.land b2 63) :: decode_chars l2
        else
        match l2 with
        | [] => []
        | b3 :: l3 =>
          (Z.land b0 7 * 262144 + Z.land b1 63 * 4096 + Z.land b2 63 * 64 + Z.land b3 63)
            :: decode_chars l3
        end
      end
    end
  end.
Definition str_chars (s : string) : list Z := decode_chars (str_bytes s).

(** [char::is_whitespace] (White_Space) and [char::is_control] (Cc). *)
Definition char_is_whitespace (c : Z) : bool :=
  in_range 9 13 c || (c =? 32) || (c =? 133) || (c =? 160) || (c =? 5760) ||
  in_range 8192 8202 c || (c =? 8232) || (c =? 8233) || (c =? 8239) ||
  (c =? 8287) || (c =? 12288).
Definition char_is_control (c : Z) : bool := in_range 0 31 c || in_range 127 159 c.

Definition char_is_alphanumeric `{Unicode} (c : Z) : bool :=
  if c <? 128 then is_ascii_alphanumeric c else unicode_alphanumeric c.

(** [str::to_lowercase]. *)
Definition lower_byte (c : ascii) : ascii :=
  if is_ascii_upper (byte_of c) then ascii_of_N (N_of_ascii c + 32) else c.
Fixpoint map_bytes (f : ascii → ascii) (s : string) : string :=
  match s with EmptyString => EmptyString | String c s => String (f c) (map_bytes f s) end.
Definition is_ascii_str (s : string) : bool := forall_bytes (λ b, b <? 128) s.
Definition to_lowercase `{Unicode} (s : string) : string :=
  if is_ascii_str s then map_bytes lower_byte s else unicode_to_lowercase s.

(** [str::trim], on the bytes: the encodings of the White_Space characters are
    [09]-[0D], [20], [C2 85], [C2 A0], [E1 9A 80], [E2 80 80]-[E2 80 8A],
    [E2 80 A8], [E2 80 A9], [E2 80 AF], [E2 81 9F] and [E3 80 80]. *)
Definition ws1 (a : Z) : bool := in_range 9 13 a || (a =? 32).
Definition ws2 (a b : Z) : bool := (a =? 194) && ((b =? 133) || (b =? 160)).
Definition ws3 (a b c : Z) : bool :=
  ((a =? 225) && (b =? 154) && (c =? 128)) ||
  ((a =? 226) && (b =? 128) &&
     (in_range 128 138 c || (c =? 168) || (c =? 169) || (c =? 175))) ||
  ((a =? 226) && (b =? 129) && (c =? 159)) ||
  ((a =? 227) && (b =? 128) && (c =? 128)).

Fixpoint trim_front (w2 : Z → Z → bool) (w3 : Z → Z → Z → bool) (l : list Z) : list Z :=
  match l with
  | a :: l0 =>
    if ws1 a then trim_front w2 w3 l0 else
    match l0 with
    | b :: l1 =>
      if w2 a b then trim_front w2 w3 l1 else
      match l1 with
      | c :: l2 => if w3 a b c then trim_front w2 w3 l2 else l
      | [] => l
      end
    | [] => l
    end
  | [] => []
  end.
Definition trim_bytes (l : list Z) : list Z :=
  reverse (trim_front (λ b a, ws2 a b) (λ c b a, ws3 a b c)
             (reverse (trim_front ws2 ws3 l))).
Definition str_of_bytes (l : list Z) : string :=
  String.string_of_list_ascii (map (λ z, ascii_of_N (Z.to_N z)) l).
Definition str_trim (s : string) : string := str_of_bytes (trim_bytes (str_bytes s)).

(** [std::str::from_utf8]: is this byte sequence well-formed UTF-8? *)
Definition cont (b : Z) : bool := in_range 128 191 b.
Fixpoint utf8_valid (l : list Z) : bool :=
  match l with
  | [] => true
  | b0 :: l0 =>
    if b0 <? 128 then utf8_valid l0 else
    match l0 with
    | [] => false
    | b1 :: l1 =>
      if in_range 194 223 b0 then cont b1 && utf8_valid l1 else
      match l1 with
      | [] => false
      | b2 :: l2 =>
        if in_range 224 239 b0 then
          (if b0 =? 224 then in_range 160 191 b1
           else if b0 =? 237 then in_range 128 159 b1 else cont b1)
          && cont b2 && utf8_valid l2
        else
        match l2 with
        | [] => false
        | b3 :: l3 =>
          if in_range 240 244 b0 then
            (if b0 =? 240 then in_range 144 191 b1
             else if b0 =? 244 then in_range 128 143 b1 else cont b1)
            && cont b2 && cont b3 && utf8_valid l3
          else false
        end
      end
    end
  end.

(** ** Numbers as text *)

(** [ToString] of an unsigned integer: decimal, no leading zeros. *)
Definition uint_to_string (n : Z) : string := pretty (Z.to_N n).

(** [str::parse] of an unsigned integer: an optional [+], then decimal digits, at
    least one; an error when the value exceeds [max]. *)
Fixpoint parse_digits (max acc : Z) (s : string) : option Z :=
  match s with
  | EmptyString => Some acc
  | String c s =>
    let b := byte_of c in
    if is_ascii_digit b then
      let acc' := acc * 10 + (b - 48) in
      if acc' <=? max then parse_digits max acc' s else None
    else None
  end.
Definition parse_uint (max : Z) (s : string) : option Z :=
  match s with
  | EmptyString => None
  | String c s' =>
    if byte_of c =? ch_plus then
      match s' with EmptyString => None | _ => parse_digits max 0 s' end
    else parse_digits max 0 s
  end.
Definition parse_u32 : string → option Z := parse_uint U32_MAX.
Definition parse_u64 : string → option Z := parse_uint U64_MAX.
Definition parse_u128 : string → option Z := parse_uint U128_MAX.

(** [format!("{:0kx}")] of a number of at most [k] hexadecimal digits. *)
Definition hex_digit (d : Z) : ascii :=
  ascii_of_N (Z.to_N (if d <? 10 then 48 + d else 87 + d)).
Fixpoint hex_fixed (k : nat) (n : Z) : string :=
  match k with
  | O => EmptyString
  | S k => hex_fixed k (n / 16) +:+ String (hex_digit (n mod 16)) EmptyString
  end.

(** * Lemmas *)

Lemma str_append_nil_r (s : string) : s +:+ "" = s.
Proof. induction s as [|c s IH]; cbn; [done | by rewrite IH]. Qed.

Lemma str_append_assoc (a b c : string) : (a +:+ b) +:+ c = a +:+ b +:+ c.
Proof. induction a as [|x a IH]; cbn; [done | by rewrite IH]. Qed.

Lemma str_append_inj_len (a b x y : string) :
  String.length a = String.length b → a +:+ x = b +:+ y → a = b ∧ x = y.
Proof.
  revert b. induction a as [|c a IH]; intros [|d b]; cbn; try discriminate; [done|].
  intros [= Hl] [= -> H]. by destruct (IH b Hl H) as [-> ->].
Qed.

Lemma str_append_inj_l (a x y : string) : a +:+ x = a +:+ y → x = y.
Proof. intros H. by apply (str_append_inj_len a a) in H as [_ ?]. Qed.

Lemma str_length_append (a b : string) :
  String.length (a +:+ b) = (String.length a + String.length b)%nat.
Proof. induction a as [|c a IH]; cbn; [done | by rewrite IH]. Qed.

Lemma str_len_append (a b : string) : str_len (a +:+ b) = str_len a + str_len b.
Proof. unfold str_len. rewrite str_length_append. lia. Qed.

Lemma str_len_nonneg s : 0 ≤ str_len s.
Proof. unfold str_len. lia. Qed.
#[export] Hint Resolve str_len_nonneg : near.

Lemma has_byte_app b x y : has_byte b (x +:+ y) = has_byte b x || has_byte b y.
Proof. induction x as [|c x IH]; cbn; [done | by rewrite IH, orb_assoc]. Qed.

Lemma byte_of_inj c d : byte_of c = byte_of d → c = d.
Proof.
  unfold byte_of. intros H. apply N2Z.inj in H.
  by rewrite <- (ascii_N_embedding c), H, ascii_N_embedding.
Qed.

Lemma byte_of_range c : 0 ≤ byte_of c < 256.
Proof.
  unfold byte_of. pose proof (N_ascii_bounded c). lia.
Qed.

Lemma byte_of_ascii_of_N n : (n < 256)%N → byte_of (ascii_of_N n) = Z.of_N n.
Proof. intros H. unfold byte_of. by rewrite N_ascii_embedding. Qed.

(** A field that holds no separator ends at the first separator. *)
Lemma field_sep_inj b c (x y u v : string) :
  byte_of c = b →
  has_byte b x = false → has_byte b y = false →
  x +:+ String c u = y +:+ String c v → x = y ∧ u = v.
Proof.
  intros Hc. revert y. induction x as [|d x IH]; intros [|e y] Hx Hy Heq;
    cbn in *; rewrite ?orb_false_iff in *.
  - by injection Heq as ->.
  - injection Heq as <- _. destruct Hy as [Hy _]. apply Z.eqb_neq in Hy. lia.
  - injection Heq as -> _. destruct Hx as [Hx _]. apply Z.eqb_neq in Hx. lia.
  - injection Heq as -> Heq. destruct (IH y) as [-> ->]; naive_solver.
Qed.

Lemma forall_bytes_no_byte p b s :
  forall_bytes p s = true → p b = false → has_byte b s = false.
Proof.
  intros Hs Hb. induction s as [|c s IH]; cbn in *; [done|].
  apply andb_true_iff in Hs as [Hc Hs].
  rewrite (IH Hs), orb_false_r. apply Z.eqb_neq. intros E. rewrite E in Hc. congruence.
Qed.

Lemma forall_bytes_impl (p q : Z → bool) s :
  (∀ b, p b = true → q b = true) → forall_bytes p s = true → forall_bytes q s = true.
Proof.
  intros Hpq. induction s as [|c s IH]; cbn; [done|].
  rewrite !andb_true_iff. naive_solver.
Qed.

Lemma forall_bytes_app p x y :
  forall_bytes p (x +:+ y) = forall_bytes p x && forall_bytes p y.
Proof. induction x as [|c x IH]; cbn; [done | by rewrite IH, andb_assoc]. Qed.

(** ** Decimal text *)

Lemma pretty_N_char_byte d : (d < 10)%N → byte_of (pretty_N_char d) = 48 + Z.of_N d.
Proof.
  intros Hd.
  assert (d = 0 ∨ d = 1 ∨ d = 2 ∨ d = 3 ∨ d = 4 ∨ d = 5 ∨ d = 6 ∨ d = 7 ∨ d = 8 ∨ d = 9)%N
    as H by lia.
  by destruct_or!; subst.
Qed.

Lemma pretty_N_go_S x s : (0 < x)%N →
  pretty_N_go x s = pretty_N_go (x / 10)%N (String (pretty_N_char (x mod 10)) s).
Proof. apply pretty_N_go_step. Qed.

Lemma pretty_N_go_digits (x : N) s :
  forall_bytes is_ascii_digit s = true →
  forall_bytes is_ascii_digit (pretty_N_go x s) = true.
Proof.
  revert s. induction (N.lt_wf_0 x) as [x _ IH]. intros s Hs.
  destruct (decide (x = 0%N)) as [->|Hx]; [by rewrite pretty_N_go_0|].
  rewrite pretty_N_go_S by lia. apply IH; [apply N.div_lt; lia|].
  cbn [forall_bytes]. rewrite Hs, andb_true_r, pretty_N_char_byte by (apply N.mod_lt; lia).
  pose proof (N.mod_lt x 10 ltac:(lia)). unfold is_ascii_digit, in_range.
  generalize dependent (x mod 10)%N. intros d Hd.
  apply andb_true_iff; split; apply Z.leb_le; lia.
Qed.

Lemma uint_to_string_digits n : forall_bytes is_ascii_digit (uint_to_string n) = true.
Proof.
  unfold uint_to_string, pretty, pretty_N. case_decide; [done | by apply pretty_N_go_digits].
Qed.

Lemma uint_to_string_no_colon n : has_byte ch_colon (uint_to_string n) = false.
Proof. apply (forall_bytes_no_byte is_ascii_digit); [apply uint_to_string_digits | done]. Qed.

Lemma uint_to_string_inj a b :
  0 ≤ a → 0 ≤ b → uint_to_string a = uint_to_string b → a = b.
Proof. unfold uint_to_string. intros Ha Hb H%(inj _). lia. Qed.

(** Reading back the digits printed in front of [s]. *)
Lemma parse_digits_go max (x : N) (s : string) :
  Z.of_N x ≤ max →
  parse_digits max 0 (pretty_N_go x s) = parse_digits max (Z.of_N x) s.
Proof.
  revert s. induction (N.lt_wf_0 x) as [x _ IH]. intros s Hx.
  destruct (decide (x = 0%N)) as [->|Hne]; [by rewrite pretty_N_go_0|].
  pose proof (N.div_mod x 10 ltac:(lia)) as Hdm. pose proof (N.mod_lt x 10 ltac:(lia)).
  rewrite pretty_N_go_S by lia. rewrite IH; [|apply N.div_lt; lia|].
  2: { pose proof (N.div_lt x 10 ltac:(lia) ltac:(lia)). lia. }
  cbn [parse_digits]. generalize dependent (x mod 10)%N. intros d Hdm Hd.
  generalize dependent (x / 10)%N. intros q Hq.
  rewrite pretty_N_char_byte by lia.
  replace (is_ascii_digit _) with true
    by (symmetry; apply andb_true_iff; split; apply Z.leb_le; lia).
  replace (Z.of_N q * 10 + (48 + Z.of_N d - 48)) with (Z.of_N x) by lia.
  by rewrite (proj2 (Z.leb_le _ _) Hx).
Qed.

Lemma pretty_N_go_nonempty (x : N) s : s ≠ "" → pretty_N_go x s ≠ "".
Proof.
  revert s. induction (N.lt_wf_0 x) as [x _ IH]. intros s Hs.
  destruct (decide (x = 0%N)) as [->|Hne]; [by rewrite pretty_N_go_0|].
  rewrite pretty_N_go_S by lia. apply IH; [apply N.div_lt; lia | done].
Qed.

Lemma uint_to_string_nonempty n : uint_to_string n ≠ "".
Proof.
  unfold uint_to_string, pretty, pretty_N. case_decide; [done|].
  rewrite pretty_N_go_S by lia. by apply pretty_N_go_nonempty.
Qed.

(** Parsing what was printed gives the number back. *)
Lemma parse_digits_to_string max n : 0 ≤ n ≤ max → parse_digits max 0 (uint_to_string n) = Some n.
Proof.
  intros Hn. unfold uint_to_string, pretty, pretty_N. case_decide as Hz.
  - assert (n = 0) as -> by lia. cbn. destruct max; [done | done | lia].
  - rewrite parse_digits_go by lia. cbn. f_equal. lia.
Qed.
Lemma parse_uint_to_string max n : 0 ≤ n ≤ max → parse_uint max (uint_to_string n) = Some n.
Proof.
  intros Hn.
  pose proof (uint_to_string_digits n) as Hd.
  pose proof (parse_digits_to_string max n Hn) as Hp.
  pose proof (uint_to_string_nonempty n).
  destruct (uint_to_string n) as [|c s]; [done|]. cbn [parse_uint].
  cbn in Hd. apply andb_true_iff in Hd as [Hc _].
  destruct (byte_of c =? ch_plus) eqn:E; [|done].
  apply Z.eqb_eq in E. rewrite E in Hc. discriminate.
Qed.

Lemma parse_u32_to_string n : u32_ok n → parse_u32 (uint_to_string n) = Some n.
Proof. intros Hn. widths. apply parse_uint_to_string. unfold U32_MAX. lia. Qed.

Lemma parse_digits_range max acc s n :
  0 ≤ acc → parse_digits max acc s = Some n → acc ≤ max → 0 ≤ n ≤ max.
Proof.
  revert acc. induction s as [|c s IH]; intros acc Hacc H Hle; cbn in H.
  - naive_solver.
  - destruct (is_ascii_digit (byte_of c)) eqn:Ed; [|discriminate].
    apply andb_true_iff in Ed as [Hlo _]. apply Z.leb_le in Hlo.
    destruct (_ <=? max) eqn:El; [|discriminate].
    apply Z.leb_le in El. eapply IH; [|exact H|exact El]. lia.
Qed.

Lemma parse_uint_range max s n : 0 ≤ max → parse_uint max s = Some n → 0 ≤ n ≤ max.
Proof.
  intros Hm H. destruct s as [|c s]; cbn [parse_uint] in H; [discriminate|].
  destruct (byte_of c =? ch_plus).
  - destruct s; [discriminate|]. by eapply (parse_digits_range max 0).
  - by eapply (parse_digits_range max 0).
Qed.
Lemma parse_u32_range s n : parse_u32 s = Some n → u32_ok n.
Proof.
  intros H. apply in_width_intro. apply parse_uint_range in H; [unfold U32_MAX in *; lia | done].
Qed.

(** ** Fixed-width hexadecimal *)

Lemma hex_fixed_length k n : String.length (hex_fixed k n) = k.
Proof.
  revert n. induction k as [|k IH]; intros n; cbn; [done|].
  rewrite str_length_append, IH. cbn. lia.
Qed.

Lemma hex_digit_inj a b : 0 ≤ a < 16 → 0 ≤ b < 16 → hex_digit a = hex_digit b → a = b.
Proof.
  intros Ha Hb H. apply (f_equal byte_of) in H. unfold hex_digit in H.
  rewrite !byte_of_ascii_of_N in H by (destruct (Z.ltb_spec a 10), (Z.ltb_spec b 10); lia).
  destruct (Z.ltb_spec a 10), (Z.ltb_spec b 10); lia.
Qed.

Lemma hex_fixed_inj k a b :
  0 ≤ a < 16 ^ Z.of_nat k → 0 ≤ b < 16 ^ Z.of_nat k →
  hex_fixed k a = hex_fixed k b → a = b.
Proof.
  revert a b. induction k as [|k IH]; intros a b Ha Hb H; cbn in *; [lia|].
  apply str_append_inj_len in H as [H [= Hd]]; [|by rewrite !hex_fixed_length].
  apply hex_digit_inj in Hd; [|apply Z.mod_pos_bound; lia..].
  rewrite Nat2Z.inj_succ, Z.pow_succ_r in Ha, Hb by lia.
  apply IH in H; [|split; [apply Z.div_pos | apply Z.div_lt_upper_bound]; lia..].
  rewrite (Z.div_mod a 16), (Z.div_mod b 16) by lia. lia.
Qed.

(** ** Lower case *)

Lemma lower_byte_not_upper c : is_ascii_upper (byte_of (lower_byte c)) = false.
Proof.
  unfold lower_byte. destruct (is_ascii_upper (byte_of c)) eqn:E; [|done].
  unfold is_ascii_upper, in_range in *. prop_bool. unfold byte_of in *.
  rewrite N_ascii_embedding by lia.
  apply andb_false_iff. right. apply Z.leb_gt. lia.
Qed.

Lemma lower_byte_idem c : lower_byte (lower_byte c) = lower_byte c.
Proof. unfold lower_byte at 1. by rewrite lower_byte_not_upper. Qed.

Lemma lower_byte_ascii c : byte_of c < 128 → byte_of (lower_byte c) < 128.
Proof.
  unfold lower_byte. destruct (is_ascii_upper (byte_of c)) eqn:E; [|done].
  unfold is_ascii_upper, in_range in E. prop_bool. unfold byte_of in *.
  rewrite N_ascii_embedding by lia. lia.
Qed.

Lemma to_lowercase_idem_ascii `{Unicode} s :
  is_ascii_str s = true → to_lowercase (to_lowercase s) = to_lowercase s.
Proof.
  intros Hs. unfold to_lowercase. rewrite Hs.
  replace (is_ascii_str (map_bytes lower_byte s)) with true.
  - clear Hs. induction s as [|c s IH]; cbn; [done|]. by rewrite lower_byte_idem, IH.
  - symmetry. unfold is_ascii_str in *. induction s as [|c s IH]; cbn in *; [done|].
    apply andb_true_iff in Hs as [Hc Hs]. rewrite IH by done. rewrite andb_true_r.
    apply Z.ltb_lt. apply lower_byte_ascii. by apply Z.ltb_lt.
Qed.

(** * Slices and searches *)

(** [s[n..]] and [s[..n]] on a character boundary. *)
Fixpoint str_drop (n : nat) (s : string) : string :=
  match n, s with
  | S n, String _ s => str_drop n s
  | _, _ => s
  end.
Fixpoint str_take (n : nat) (s : string) : string :=
  match n, s with
  | S n, String c s => String c (str_take n s)
  | _, _ => ""
  end.

(** [str::find] with a literal pattern: the first byte offset. *)
Fixpoint str_find (pat s : string) : option nat :=
  if String.prefix pat s then Some 0%nat else
  match s with
  | "" => None
  | String _ s => S <$> str_find pat s
  end.

(** The longest prefix of bytes satisfying [p]. *)
Fixpoint str_while (p : Z → bool) (s : string) : string :=
  match s with
  | "" => ""
  | String c s => if p (byte_of c) then String c (str_while p s) else ""
  end.

(** [while i < bytes.len() && p(bytes[i]) { i += 1 }]; [fuel] bounds the turns. *)
Fixpoint scan (p : Z → bool) (bytes : list Z) (i fuel : nat) : nat :=
  match fuel with
  | O => i
  | S fuel =>
    match bytes !! i with
    | Some b => if p b then scan p bytes (S i) fuel else i
    | None => i
    end
  end.

Definition eq_ignore_ascii_case (a b : string) : bool :=
  bool_decide (map_bytes lower_byte a = map_bytes lower_byte b).

Lemma str_drop_length_app a b : str_drop (String.length a) (a +:+ b) = b.
Proof. induction a; cbn; done. Qed.
Lemma str_take_length_app a b : str_take (String.length a) (a +:+ b) = a.
Proof. induction a as [|c a IH]; cbn; [by destruct b | by f_equal]. Qed.
Lemma str_take_drop n s : str_take n s +:+ str_drop n s = s.
Proof. revert s. induction n; intros [|c s]; cbn; [done | done | done | by f_equal]. Qed.
Lemma str_drop_drop n m s : str_drop n (str_drop m s) = str_drop (m + n) s.
Proof.
  revert s. induction m as [|m IH]; intros s; cbn; [done|]. destruct s; cbn; [by destruct n | apply IH].
Qed.
Lemma str_take_length n s : (n <= String.length s)%nat → String.length (str_take n s) = n.
Proof. revert s. induction n; intros [|c s]; cbn; intros; [lia | lia | lia | rewrite IHn; lia]. Qed.

Lemma str_bytes_drop n s : drop n (str_bytes s) = str_bytes (str_drop n s).
Proof. revert s. induction n; intros [|c s]; cbn; [done | done | done | apply IHn]. Qed.
Lemma str_of_bytes_str s : str_of_bytes (str_bytes s) = s.
Proof.
  unfold str_of_bytes, str_bytes. rewrite map_map. rewrite (map_ext _ id), map_id; [apply String.string_of_list_ascii_of_string|].
  intros c. unfold byte_of. by rewrite N2Z.id, ascii_N_embedding.
Qed.
#[export] Instance str_bytes_inj : Inj (=) (=) str_bytes.
Proof. intros s t E. by rewrite <-(str_of_bytes_str s), E, str_of_bytes_str. Qed.
Lemma str_bytes_length s : length (str_bytes s) = String.length s.
Proof. induction s as [|c s IH]; cbn; [done|]. f_equal. exact IH. Qed.

Lemma prefix_append pat s : String.prefix pat s = true ↔ ∃ r, s = pat +:+ r.
Proof.
  revert s. induction pat as [|c pat IH]; intros s.
  - split; [intros _; by exists s | by destruct s].
  - destruct s as [|d s]; [split; [done | by intros [? ?]]|]. simpl.
    destruct (ascii_dec c d) as [->|Hne].
    + rewrite IH. split; intros [r Hr]; exists r; [by rewrite Hr | by injection Hr].
    + split; [done | intros [r [= ? ?]]; congruence].
Qed.

Lemma starts_with_app s r : starts_with (s +:+ r) s = true.
Proof. apply prefix_append. by eexists. Qed.

(** [pre] ends where [pat] first occurs in [s]. *)
Definition first_occurrence (pat s pre rest : string) : Prop :=
  s = pre +:+ pat +:+ rest ∧
  ∀ pre' rest', s = pre' +:+ pat +:+ rest' → (String.length pre <= String.length pre')%nat.

Lemma str_find_spec pat s n :
  str_find pat s = Some n ↔ ∃ pre rest, first_occurrence pat s pre rest ∧ n = String.length pre.
Proof.
  revert n. induction s as [|c s IH]; intros n.
  - cbn [str_find]. destruct (String.prefix pat "") eqn:E.
    + apply prefix_append in E as [r Hr]. split; [intros [= <-]; exists "", r; split; [split; [done | cbn; lia] | done]|].
      intros (pre & rest & [Hs _] & ->). destruct pre; [done | discriminate].
    + split; [done|]. intros (pre & rest & [Hs _] & ->). destruct pre; [|discriminate].
      assert (String.prefix pat "" = true) by (apply prefix_append; by exists rest). congruence.
  - cbn [str_find]. destruct (String.prefix pat (String c s)) eqn:E.
    + apply prefix_append in E as [r Hr]. split.
      * intros [= <-]. exists "", r. split; [split; [done | cbn; lia] | done].
      * intros (pre & rest & [Hs Hf] & ->). specialize (Hf "" r Hr). cbn in Hf. f_equal. lia.
    + assert (∀ pre rest, String c s = pre +:+ pat +:+ rest → ∃ pre0, pre = String c pre0 ∧ s = pre0 +:+ pat +:+ rest) as Hp.
      { intros [|d pre] rest Hs.
        - assert (String.prefix pat (String c s) = true) by (apply prefix_append; by exists rest). congruence.
        - injection Hs as -> ->. by exists pre. }
      split.
      * destruct (str_find pat s) as [m|] eqn:Em; [|done]. intros [= <-].
        destruct (proj1 (IH m) eq_refl) as (pre & rest & [Hs Hf] & ->). exists (String c pre), rest.
        split; [|done]. split; [by rewrite Hs|]. intros pre' rest' Hs'.
        apply Hp in Hs' as (p0 & -> & Hs'). apply Hf in Hs'. cbn. lia.
      * intros (pre & rest & [Hs Hf] & ->). apply Hp in Hs as (p0 & -> & Hs).
        rewrite (proj2 (IH (String.length p0))); [done|]. exists p0, rest. split; [|done]. split; [done|].
        intros pre' rest' Hs'. specialize (Hf (String c pre') rest'). cbn in Hf. rewrite Hs' in Hf. specialize (Hf eq_refl). lia.
Qed.

Lemma scan_while p s i fuel : (String.length s - i <= fuel)%nat →
  scan p (str_bytes s) i fuel = (i + String.length (str_while p (str_drop i s)))%nat.
Proof.
  revert i. induction fuel as [|fuel IH]; intros i Hf; cbn.
  - assert (str_drop i s = "") as ->; [|cbn; lia].
    assert (String.length (str_drop i s) = 0)%nat as Hl.
    { clear -Hf. revert s Hf. induction i; intros [|c s]; cbn; intros; [done | lia | done | apply IHi; lia]. }
    by destruct (str_drop i s).
  - replace (str_bytes s !! i) with (str_bytes (str_drop i s) !! 0%nat)
      by (rewrite <- str_bytes_drop, lookup_drop; f_equal; lia).
    assert (str_drop (S i) s = str_drop 1 (str_drop i s)) as Hd by (rewrite str_drop_drop; f_equal; lia).
    destruct (str_drop i s) as [|c r] eqn:E; cbn; [lia|].
    destruct (p (byte_of c)) eqn:Ep; cbn; [|lia].
    rewrite IH by lia. rewrite Hd. cbn. destruct r; cbn; lia.
Qed.

Lemma str_while_split p s : ∃ r, s = str_while p s +:+ r ∧
  forall_bytes p (str_while p s) = true ∧ str_while p r = "".
Proof.
  induction s as [|c s IH]; cbn; [by exists ""|]. destruct (p (byte_of c)) eqn:E.
  - destruct IH as (r & Hs & Hf & Hr). exists r. cbn. rewrite E. split_and!; [by f_equal | done | done].
  - exists (String c s). cbn. by rewrite E.
Qed.
Lemma str_while_app p a b :
  forall_bytes p a = true → str_while p (a +:+ b) = a +:+ str_while p b.
Proof.
  induction a as [|c a IH]; cbn; [done|]. intros [-> Ha]%andb_true_iff. f_equal. by apply IH.
Qed.
Lemma str_while_stop p q a b :
  forall_bytes q a = true → a ≠ "" → (∀ z, q z = true → p z = false) → str_while p (a +:+ b) = "".
Proof.
  destruct a as [|c a]; cbn; [done|]. intros [Hc _]%andb_true_iff _ Hq. by rewrite Hq.
Qed.

(** ** A hexadecimal codec

    For the concrete instances the examples run on. *)

Fixpoint sample_hex_encode (s : string) : string :=
  match s with
  | EmptyString => EmptyString
  | String c s =>
    String (hex_digit (byte_of c / 16)) (String (hex_digit (byte_of c mod 16))
      (sample_hex_encode s))
  end.

Definition hex_value (c : ascii) : option Z :=
  let b := byte_of c in
  if is_ascii_digit b then Some (b - 48)
  else if in_range 97 102 b then Some (b - 87)
  else if in_range 65 70 b then Some (b - 55) else None.

Fixpoint sample_hex_decode (s : string) : option string :=
  match s with
  | EmptyString => Some EmptyString
  | String c EmptyString => None
  | String c (String d s) =>
    hi ← hex_value c; lo ← hex_value d; r ← sample_hex_decode s;
    Some (String (ascii_of_N (Z.to_N (hi * 16 + lo))) r)
  end.

Lemma hex_value_digit d : 0 ≤ d < 16 → hex_value (hex_digit d) = Some d.
Proof.
  intros Hd. unfold hex_value, hex_digit. rewrite byte_of_ascii_of_N by (destruct (d <? 10) eqn:E; lia).
  destruct (d <? 10) eqn:E.
  - rewrite Z2N.id by lia. unfold is_ascii_digit, in_range.
    destruct ((48 <=? 48 + d) && (48 + d <=? 57)) eqn:E'; [f_equal; lia | lia].
  - rewrite Z2N.id by lia. unfold is_ascii_digit, in_range.
    destruct ((48 <=? 87 + d) && (87 + d <=? 57)) eqn:E'; [lia|].
    destruct ((97 <=? 87 + d) && (87 + d <=? 102)) eqn:E''; [f_equal; lia | lia].
Qed.
Lemma hex_digit_lower d : 0 ≤ d < 16 → is_lower_hex (byte_of (hex_digit d)) = true.
Proof.
  intros Hd. unfold hex_digit. rewrite byte_of_ascii_of_N by (destruct (d <? 10) eqn:E; lia).
  unfold is_lower_hex, is_ascii_digit, in_range. destruct (d <? 10) eqn:E; rewrite Z2N.id by lia; lia.
Qed.
Lemma sample_hex_roundtrip s : sample_hex_decode (sample_hex_encode s) = Some s.
Proof.
  induction s as [|c s IH]; [done|]. cbn. pose proof (byte_of_range c) as Hc.
  rewrite !hex_value_digit by (Z.to_euclidean_division_equations; lia). cbn. rewrite IH. cbn. do 2 f_equal.
  replace (byte_of c / 16 * 16 + byte_of c mod 16) with (byte_of c) by (Z.to_euclidean_division_equations; lia).
  unfold byte_of. rewrite N2Z.id. apply ascii_N_embedding.
Qed.
Lemma sample_hex_digits s : forall_bytes is_lower_hex (sample_hex_encode s) = true.
Proof.
  induction s as [|c s IH]; [done|]. cbn. pose proof (byte_of_range c) as Hc.
  rewrite !hex_digit_lower by (Z.to_euclidean_division_equations; lia). exact IH.
Qed.

(** * Splitting and joining *)

(** [str::split_once] at a one-byte character. *)
Fixpoint split_once (b : Z) (s : string) : option (string * string) :=
  match s with
  | "" => None
  | String c s =>
    if byte_of c =? b then Some ("", s) else '(l, r) ← split_once b s; Some (String c l, r)
  end.
Lemma split_once_some b s l r : split_once b s = Some (l, r) →
  has_byte b l = false ∧ ∃ c, byte_of c = b ∧ s = l +:+ String c r.
Proof.
  revert l. induction s as [|d s IH]; intros l; cbn; [done|].
  destruct (byte_of d =? b) eqn:E; [intros [= <- <-]; split; [done | exists d; split; [lia | done]]|].
  intros ([l' r'] & Hs & Hl)%bind_Some. injection Hl as <- <-. destruct (IH _ Hs) as (Hn & c & Hc & ->).
  cbn. rewrite E. eauto.
Qed.

(** [slice::join]. *)
Fixpoint str_join (sep : string) (l : list string) : string :=
  match l with
  | [] => ""
  | [x] => x
  | x :: l => x +:+ sep +:+ str_join sep l
  end.

(** Fields that hold no separator and are not empty are told apart in the joined text. *)
Lemma str_join_inj (c : ascii) l l' : let sep := String c "" in
  Forall (λ x, x ≠ "" ∧ has_byte (byte_of c) x = false) l → Forall (λ x, x ≠ "" ∧ has_byte (byte_of c) x = false) l' →
  str_join sep l = str_join sep l' → l = l'.
Proof.
  intros sep Hl. revert l'. induction Hl as [|x l [Hx Hxc] Hl IH]; intros l' Hl' E.
  { destruct Hl' as [|y [|z l'] [Hy _] _]; [done| |]; cbn in E; by destruct y. }
  destruct Hl' as [|y l' [Hy Hyc] Hl'].
  { exfalso. destruct l; cbn in E; by destruct x. }
  assert (∀ a u b, has_byte (byte_of c) a = false → a = b +:+ String c u → False) as Hno.
  { intros a u b Ha ->. rewrite has_byte_app in Ha. cbn in Ha. rewrite Z.eqb_refl, orb_true_r in Ha. done. }
  destruct l as [|x2 l], l' as [|y2 l'].
  - cbn in E. by rewrite E.
  - exfalso. exact (Hno x _ y Hxc E).
  - exfalso. exact (Hno y _ x Hyc (eq_sym E)).
  - change (str_join sep (x :: x2 :: l)) with (x +:+ String c (str_join sep (x2 :: l))) in E.
    change (str_join sep (y :: y2 :: l')) with (y +:+ String c (str_join sep (y2 :: l'))) in E.
    apply field_sep_inj with (b := byte_of c) in E as [-> E]; [|done..]. by rewrite (IH _ Hl' E).
Qed.
