(* ===== verification/Types.v ===== *)
(** The data of the OutLayer contract (contract/src/lib.rs, types.rs, payment.rs,
    wallet.rs): requests, secrets, projects, wallet policies, the contract's
    storage record, the call environment and the actions a method issues. *)

From S2P Require Export RustStr.

Abbreviation AccountId := string (only parsing).
Abbreviation Balance := Z (only parsing).
Abbreviation CryptoHash := string (only parsing).   (* 32 bytes *)

(** * Constants (contract/src/lib.rs) *)

Definition TGAS : Z := 1000000000000.
Definition MIN_RESPONSE_GAS : Z := 50 * TGAS.
Definition CALLBACK_GAS_PER_INPUT_BYTE : Z := 25000000.
Definition STORAGE_PRICE_PER_BYTE : Balance := 10000000000000000000.
Definition INPUT_DATA_FREE_BYTES : Z := 32 * 1024.
Definition EXECUTION_TIMEOUT : Z := 600 * 1000000000.
Definition MAX_INSTRUCTIONS : Z := 500000000000.
Definition MAX_EXECUTION_SECONDS : Z := 180.
Definition MAX_COMPILATION_SECONDS : Z := 300.
Definition MAX_MEMORY_MB : Z := 4096.
Definition INPUT_DATA_EVENT_THRESHOLD : Z := 10000.

(** The gas the settlement callback is created with. *)
Definition response_gas (input_len : Z) : Z :=
  saturating_add 64 MIN_RESPONSE_GAS
    (saturating_mul 64 (saturating_sub input_len INPUT_DATA_FREE_BYTES)
       CALLBACK_GAS_PER_INPUT_BYTE).

(** The deposit held for the stored input.  The product cannot overflow a
    [u128] for a length that fits a [usize]. *)
Definition input_storage_deposit (len : Z) : Balance :=
  saturating_sub len INPUT_DATA_FREE_BYTES * STORAGE_PRICE_PER_BYTE.

(** * Access conditions (contract/src/types.rs) *)

Inductive LogicOperator := LogicAnd | LogicOr.
Inductive ComparisonOperator := CmpGte | CmpLte | CmpGt | CmpLt | CmpEq | CmpNe.

Inductive AccessCondition :=
| Logic (operator : LogicOperator) (conditions : list AccessCondition)
| NotCond (condition : AccessCondition)
| AllowAll
| Whitelist (accounts : list AccountId)
| AccountPattern (pattern : string)
| NearBalance (operator : ComparisonOperator) (value : Z)
| FtBalance (contract : AccountId) (operator : ComparisonOperator) (value : Z)
| NftOwned (contract : AccountId) (token_id : option string)
| DaoMember (dao_contract : AccountId) (role : string)
| ValidUntil (until_ns : Z)
| WasmHashIs (hash : string)
| Predecessor (condition : AccessCondition).

(** * Code sources and execution requests (contract/src/lib.rs) *)

Inductive ExecutionSource :=
| ESGitHub (repo commit : string) (build_target : option string)
| ESWasmUrl (url hash : string) (build_target : option string)
| ESProject (project_id : string) (version_key : option string).

Inductive CodeSource :=
| GitHub (repo commit : string) (build_target : option string)
| WasmUrl (url hash : string) (build_target : option string).

Record RequestParams := mkRequestParams {
  force_rebuild : bool;
  store_on_fastfs : bool;
  compile_only : bool;
  param_project_uuid : option string;
  param_attached_usd : option Z;
  use_bound_identity : bool;
}.
Definition default_params : RequestParams := mkRequestParams false false false None None false.

Inductive ResponseFormat := FmtBytes | FmtText | FmtJson.

Record ResourceLimits := mkLimits {
  max_instructions : option Z;        (* u64 *)
  max_memory_mb : option Z;           (* u32 *)
  max_execution_seconds : option Z;   (* u64 *)
}.
Definition default_limits : ResourceLimits :=
  mkLimits (Some 1000000000) (Some 128) (Some 60).

Inductive StoredOutput :=
| SOBytes (bytes : string)
| SOText (bytes : string)
| SOJson (bytes : string).

Record SecretsReference := mkSecretsRef { ref_profile : string; ref_account : AccountId }.

Record ExecutionRequest := mkRequest {
  req_id : Z;
  req_data_id : CryptoHash;
  req_sender_id : AccountId;
  req_execution_source : ExecutionSource;
  req_resolved_source : CodeSource;
  req_resource_limits : ResourceLimits;
  req_payment : Balance;
  req_timestamp : Z;
  req_secrets_ref : option SecretsReference;
  req_response_format : ResponseFormat;
  req_input_data : option string;
  req_payer_account_id : AccountId;
  req_attached_usd : Z;
  req_pending_output : option StoredOutput;
  req_output_submitted : bool;
}.
Definition eta_request (r : ExecutionRequest) : ExecutionRequest :=
  mkRequest (req_id r) (req_data_id r) (req_sender_id r) (req_execution_source r)
    (req_resolved_source r) (req_resource_limits r) (req_payment r) (req_timestamp r)
    (req_secrets_ref r) (req_response_format r) (req_input_data r)
    (req_payer_account_id r) (req_attached_usd r) (req_pending_output r)
    (req_output_submitted r).
#[export] Instance set_req_pending_output : Setter req_pending_output := ltac:(derive_setter eta_request).
#[export] Instance set_req_output_submitted : Setter req_output_submitted := ltac:(derive_setter eta_request).

(** [J] is the type of parsed JSON values ([serde_json::Value]). *)
Inductive ExecutionOutput {J : Type} :=
| OutBytes (bytes : string)
| OutText (text : string)
| OutJson (value : J).
Arguments ExecutionOutput : clear implicits.

Record ResourceMetrics := mkMetrics {
  instructions : Z;                (* u64 *)
  time_ms : Z;                     (* u64 *)
  compile_time_ms : option Z;      (* u64 *)
}.

Record ExecutionResponse {J : Type} := mkResponse {
  success : bool;
  output : option (ExecutionOutput J);
  error : option string;
  resources_used : ResourceMetrics;
  compilation_note : option string;
  refund_usd : option Z;           (* u64 *)
}.
Arguments ExecutionResponse : clear implicits.
Arguments mkResponse {J}.

(** The outcome of the promise a callback waited for. *)
Inductive callback_result (A : Type) := CbOk (a : A) | CbErr.
Arguments CbOk {A} a.
Arguments CbErr {A}.

(** * Secrets *)

Record SecretProfile := mkSecretProfile {
  sp_encrypted_secrets : string;
  sp_access : AccessCondition;
  sp_created_at : Z;
  sp_updated_at : Z;
  sp_storage_deposit : Balance;
}.

Inductive SystemSecretType := PaymentKey.

Inductive SecretAccessor :=
| AccRepo (repo : string) (branch : option string)
| AccWasmHash (hash : string)
| AccProject (project_id : string)
| AccSystem (kind : SystemSecretType).

Record SecretKey := mkSecretKey {
  sk_accessor : SecretAccessor;
  sk_profile : string;
  sk_owner : AccountId;
}.

(** * Projects *)

Record Project := mkProject {
  proj_uuid : string;
  proj_owner : AccountId;
  proj_name : string;
  proj_active_version : string;
  proj_created_at : Z;
  proj_storage_deposit : Balance;
}.
Definition eta_project (p : Project) : Project :=
  mkProject (proj_uuid p) (proj_owner p) (proj_name p) (proj_active_version p)
    (proj_created_at p) (proj_storage_deposit p).
#[export] Instance set_proj_owner : Setter proj_owner := ltac:(derive_setter eta_project).
#[export] Instance set_proj_active_version : Setter proj_active_version := ltac:(derive_setter eta_project).

Record VersionInfo := mkVersionInfo {
  vi_source : CodeSource;
  vi_added_at : Z;
  vi_storage_deposit : Balance;
}.

Record TransferAcceptance := mkAcceptance {
  acc_new_owner : AccountId;
  acc_from : AccountId;
  acc_name : string;
}.

(** * Prices and payments (contract/src/payment.rs) *)

Record OperationPrice := mkOperationPrice {
  op_operation : string;
  op_price_usd : Z;             (* u128 *)
  op_developer_share_bp : Z;    (* u16 *)
}.

Record ProjectPricing := mkProjectPricing {
  author_account_id : AccountId;
  operations : list OperationPrice;
}.

Record SubscriptionPlan := mkPlan {
  plan_index : Z;               (* u8 *)
  plan_name : string;
  plan_price_usd : Z;           (* u128 *)
  plan_active : bool;
}.

Inductive FtTransferAction :=
| TopUpPaymentKey (nonce : Z) (owner : option AccountId)
| DepositBalance
| BuySubscription (nonce : Z) (owner : option AccountId) (plan : Z).

Inductive TopUpResult := TopUpSuccess (new_encrypted_data : string) | TopUpError (message : string).
Inductive DeletePaymentKeyResult := DeleteSuccess | DeleteError (message : string).

(** * Wallet policies (contract/src/wallet.rs) *)

Record WalletPolicyEntry := mkPolicyEntry {
  wp_owner : AccountId;
  wp_encrypted_data : string;
  wp_frozen : bool;
  wp_updated_at : Z;
  wp_storage_deposit : Balance;
}.
Definition eta_policy (e : WalletPolicyEntry) : WalletPolicyEntry :=
  mkPolicyEntry (wp_owner e) (wp_encrypted_data e) (wp_frozen e) (wp_updated_at e)
    (wp_storage_deposit e).
#[export] Instance set_wp_frozen : Setter wp_frozen := ltac:(derive_setter eta_policy).
#[export] Instance set_wp_updated_at : Setter wp_updated_at := ltac:(derive_setter eta_policy).

Record PolicyMeta := mkPolicyMeta { pm_version : Z; pm_locked : bool }.
Definition default_meta : PolicyMeta := mkPolicyMeta 0 false.

Inductive StorageItem := WalletPolicyItem (wallet_pubkey : string).

(** * Decidable equality and countability of the map keys *)

#[export] Instance SystemSecretType_eq : EqDecision SystemSecretType.
Proof. solve_decision. Defined.
#[export] Instance SecretAccessor_eq : EqDecision SecretAccessor.
Proof. solve_decision. Defined.
#[export] Instance SecretKey_eq : EqDecision SecretKey.
Proof. solve_decision. Defined.
#[export] Instance TransferAcceptance_eq : EqDecision TransferAcceptance.
Proof. solve_decision. Defined.
#[export] Instance StorageItem_eq : EqDecision StorageItem.
Proof. solve_decision. Defined.
#[export] Instance ExecutionSource_eq : EqDecision ExecutionSource.
Proof. solve_decision. Defined.
#[export] Instance CodeSource_eq : EqDecision CodeSource.
Proof. solve_decision. Defined.

#[export] Instance SecretAccessor_countable : Countable SecretAccessor.
Proof.
  refine (inj_countable'
    (λ a, match a with
          | AccRepo r b => inl (inl (r, b))
          | AccWasmHash h => inl (inr h)
          | AccProject p => inr (inl p)
          | AccSystem PaymentKey => inr (inr ())
          end)
    (λ x, match x with
          | inl (inl (r, b)) => AccRepo r b
          | inl (inr h) => AccWasmHash h
          | inr (inl p) => AccProject p
          | inr (inr _) => AccSystem PaymentKey
          end) _).
  by intros [| | |[]].
Defined.
#[export] Instance SecretKey_countable : Countable SecretKey.
Proof.
  refine (inj_countable' (λ k, (sk_accessor k, sk_profile k, sk_owner k))
    (λ '(a, p, o), mkSecretKey a p o) _).
  by intros [].
Defined.
#[export] Instance TransferAcceptance_countable : Countable TransferAcceptance.
Proof.
  refine (inj_countable' (λ k, (acc_new_owner k, acc_from k, acc_name k))
    (λ '(a, p, o), mkAcceptance a p o) _).
  by intros [].
Defined.
#[export] Instance StorageItem_countable : Countable StorageItem.
Proof.
  refine (inj_countable' (λ k, match k with WalletPolicyItem w => w end) WalletPolicyItem _).
  by intros [].
Defined.
