(* ===== verification/Contract.v ===== *)
(** The storage record of the OutLayer contract, the environment a call runs in,
    the actions it issues, and the code outside the repository it relies on. *)

From S2P Require Export Types.

(** * The contract's storage (contract/src/lib.rs, [struct Contract])

    A [LookupMap] is a [gmap], an [UnorderedSet] a [gset]; an [UnorderedMap] is a
    [gmap] (its enumeration order is not modelled). *)

Record Contract := mkContract {
  owner_id : AccountId;
  operator_id : AccountId;
  paused : bool;
  event_standard : string;
  event_version : string;
  base_fee : Balance;
  per_million_instructions_fee : Balance;
  per_ms_fee : Balance;
  per_compile_ms_fee : Balance;
  base_fee_usd : Z;
  per_million_instructions_fee_usd : Z;
  per_sec_fee_usd : Z;
  per_compile_ms_fee_usd : Z;
  payment_token_contract : option AccountId;
  next_request_id : Z;
  pending_requests : gmap Z ExecutionRequest;
  total_executions : Z;
  total_fees_collected : Balance;
  secrets_storage : gmap SecretKey SecretProfile;
  user_secrets_index : gmap AccountId (gset SecretKey);
  projects : gmap string Project;
  project_versions : gmap string (gmap string VersionInfo);
  user_projects_index : gmap AccountId (gset string);
  next_project_id : Z;
  developer_earnings : gmap AccountId Z;
  user_stablecoin_balances : gmap AccountId Z;
  wallet_policies : gmap string WalletPolicyEntry;
  wallet_owner_index : gmap AccountId (gset string);
  secret_vault_bindings : gmap SecretKey AccountId;
  subscription_plans : list SubscriptionPlan;
  project_pricing : gmap string ProjectPricing;
  payment_key_nonce_floors : gmap AccountId Z;
  storage_refund_to : gmap StorageItem AccountId;
  project_transfer_acceptances : gmap TransferAcceptance Balance;
  policy_meta : gmap string PolicyMeta;
}.

Definition eta_contract (c : Contract) : Contract :=
  mkContract (owner_id c) (operator_id c) (paused c) (event_standard c) (event_version c)
     (base_fee c) (per_million_instructions_fee c) (per_ms_fee c) (per_compile_ms_fee c)
     (base_fee_usd c) (per_million_instructions_fee_usd c) (per_sec_fee_usd c)
     (per_compile_ms_fee_usd c) (payment_token_contract c) (next_request_id c)
     (pending_requests c) (total_executions c) (total_fees_collected c)
     (secrets_storage c) (user_secrets_index c) (projects c) (project_versions c)
     (user_projects_index c) (next_project_id c) (developer_earnings c)
     (user_stablecoin_balances c) (wallet_policies c) (wallet_owner_index c)
     (secret_vault_bindings c) (subscription_plans c) (project_pricing c)
     (payment_key_nonce_floors c) (storage_refund_to c) (project_transfer_acceptances c)
     (policy_meta c).

#[export] Instance set_owner_id : Setter owner_id := ltac:(derive_setter eta_contract).
#[export] Instance set_operator_id : Setter operator_id := ltac:(derive_setter eta_contract).
#[export] Instance set_paused : Setter paused := ltac:(derive_setter eta_contract).
#[export] Instance set_event_standard : Setter event_standard := ltac:(derive_setter eta_contract).
#[export] Instance set_event_version : Setter event_version := ltac:(derive_setter eta_contract).
#[export] Instance set_base_fee : Setter base_fee := ltac:(derive_setter eta_contract).
#[export] Instance set_per_million_instructions_fee : Setter per_million_instructions_fee := ltac:(derive_setter eta_contract).
#[export] Instance set_per_ms_fee : Setter per_ms_fee := ltac:(derive_setter eta_contract).
#[export] Instance set_per_compile_ms_fee : Setter per_compile_ms_fee := ltac:(derive_setter eta_contract).
#[export] Instance set_base_fee_usd : Setter base_fee_usd := ltac:(derive_setter eta_contract).
#[export] Instance set_per_million_instructions_fee_usd : Setter per_million_instructions_fee_usd := ltac:(derive_setter eta_contract).
#[export] Instance set_per_sec_fee_usd : Setter per_sec_fee_usd := ltac:(derive_setter eta_contract).
#[export] Instance set_per_compile_ms_fee_usd : Setter per_compile_ms_fee_usd := ltac:(derive_setter eta_contract).
#[export] Instance set_payment_token_contract : Setter payment_token_contract := ltac:(derive_setter eta_contract).
#[export] Instance set_next_request_id : Setter next_request_id := ltac:(derive_setter eta_contract).
#[export] Instance set_pending_requests : Setter pending_requests := ltac:(derive_setter eta_contract).
#[export] Instance set_total_executions : Setter total_executions := ltac:(derive_setter eta_contract).
#[export] Instance set_total_fees_collected : Setter total_fees_collected := ltac:(derive_setter eta_contract).
#[export] Instance set_secrets_storage : Setter secrets_storage := ltac:(derive_setter eta_contract).
#[export] Instance set_user_secrets_index : Setter user_secrets_index := ltac:(derive_setter eta_contract).
#[export] Instance set_projects : Setter projects := ltac:(derive_setter eta_contract).
#[export] Instance set_project_versions : Setter project_versions := ltac:(derive_setter eta_contract).
#[export] Instance set_user_projects_index : Setter user_projects_index := ltac:(derive_setter eta_contract).
#[export] Instance set_next_project_id : Setter next_project_id := ltac:(derive_setter eta_contract).
#[export] Instance set_developer_earnings : Setter developer_earnings := ltac:(derive_setter eta_contract).
#[export] Instance set_user_stablecoin_balances : Setter user_stablecoin_balances := ltac:(derive_setter eta_contract).
#[export] Instance set_wallet_policies : Setter wallet_policies := ltac:(derive_setter eta_contract).
#[export] Instance set_wallet_owner_index : Setter wallet_owner_index := ltac:(derive_setter eta_contract).
#[export] Instance set_secret_vault_bindings : Setter secret_vault_bindings := ltac:(derive_setter eta_contract).
#[export] Instance set_subscription_plans : Setter subscription_plans := ltac:(derive_setter eta_contract).
#[export] Instance set_project_pricing : Setter project_pricing := ltac:(derive_setter eta_contract).
#[export] Instance set_payment_key_nonce_floors : Setter payment_key_nonce_floors := ltac:(derive_setter eta_contract).
#[export] Instance set_storage_refund_to : Setter storage_refund_to := ltac:(derive_setter eta_contract).
#[export] Instance set_project_transfer_acceptances : Setter project_transfer_acceptances := ltac:(derive_setter eta_contract).
#[export] Instance set_policy_meta : Setter policy_meta := ltac:(derive_setter eta_contract).

(** The state a deployment starts in. *)
Definition new (owner : AccountId) (operator : option AccountId)
    (standard version : option string) : Contract := {|
  owner_id := owner;
  operator_id := default owner operator;
  paused := false;
  event_standard := default "near-outlayer" standard;
  event_version := default "1.0.0" version;
  base_fee := 1000000000000000000000;
  per_million_instructions_fee := 100000000000000;
  per_ms_fee := 100000000000000000;
  per_compile_ms_fee := 100000000000000000;
  base_fee_usd := 1000;
  per_million_instructions_fee_usd := 1;
  per_sec_fee_usd := 1;
  per_compile_ms_fee_usd := 10;
  payment_token_contract := None;
  next_request_id := 0;
  pending_requests := ∅;
  total_executions := 0;
  total_fees_collected := 0;
  secrets_storage := ∅;
  user_secrets_index := ∅;
  projects := ∅;
  project_versions := ∅;
  user_projects_index := ∅;
  next_project_id := 0;
  developer_earnings := ∅;
  user_stablecoin_balances := ∅;
  wallet_policies := ∅;
  wallet_owner_index := ∅;
  secret_vault_bindings := ∅;
  subscription_plans := [];
  project_pricing := ∅;
  payment_key_nonce_floors := ∅;
  storage_refund_to := ∅;
  project_transfer_acceptances := ∅;
  policy_meta := ∅;
|}.

(** * The call environment ([near_sdk::env]) *)

Record Env := mkEnv {
  predecessor_account_id : AccountId;
  signer_account_id : AccountId;
  current_account_id : AccountId;
  attached_deposit : Balance;
  block_timestamp : Z;                          (* nanoseconds, u64 *)
  (* the data id [promise_yield_create] puts in [DATA_ID_REGISTER] *)
  yield_data_id : CryptoHash;
  (* what [promise_yield_resume] answers for a data id *)
  yield_resumable : CryptoHash → bool;
  (* growth of [storage_usage] when this acceptance record is written *)
  acceptance_record_bytes : TransferAcceptance → Z;
}.

(** * Actions issued by a method *)

Inductive SystemEvent :=
| EvTopUpPaymentKey (data_id : CryptoHash) (owner : AccountId) (nonce amount : Z)
    (encrypted_data : string)
| EvDeletePaymentKey (data_id : CryptoHash) (owner : AccountId) (nonce : Z)
| EvSubscriptionPurchased (owner : AccountId) (nonce plan paid_usd : Z) (payer : AccountId)
| EvWalletPolicyUpdated (wallet_pubkey : string) (owner : AccountId) (encrypted_data : string)
    (frozen : bool) (version : Z) (locked : bool)
| EvWalletPolicyDeleted (wallet_pubkey : string) (owner refunded_to : AccountId)
| EvStorageRefundToChanged (item : StorageItem) (storage_refund_to : AccountId)
| EvWalletFrozenChanged (wallet_pubkey : string) (owner : AccountId) (frozen : bool)
| EvProjectTransferred (old_project_id new_project_id project_uuid : string)
    (old_owner new_owner : AccountId)
| EvProjectTransferAccepted (new_owner from : AccountId) (name : string)
| EvProjectTransferRevoked (new_owner from : AccountId) (name : string).

(** The JSON object handed to the yield callback and, as text, to the worker. *)
Record RequestData := mkRequestData {
  rd_request_id : Z;
  rd_sender_id : AccountId;          (* the signer *)
  rd_predecessor_id : AccountId;
  rd_code_source : CodeSource;
  rd_resource_limits : ResourceLimits;
  rd_input_data : string;
  rd_input_data_in_state : bool;
  rd_secrets_ref : option SecretsReference;
  rd_response_format : ResponseFormat;
  rd_payment : Balance;
  rd_attached_usd : Z;
  rd_timestamp : Z;
  rd_compile_only : bool;
  rd_force_rebuild : bool;
  rd_store_on_fastfs : bool;
  rd_use_bound_identity : bool;
  rd_project_uuid : option string;
  rd_project_id : option string;
}.

(** Arguments of the cross-contract calls the contract makes. *)
Inductive CallArgs :=
| NoArgs
| FtTransferArgs (receiver_id : AccountId) (amount : Z)
| RequestExecutionArgs (project_id : string) (limits : ResourceLimits)
    (owner : AccountId) (nonce : Z) (token_id : string) (amount : string)
    (swap_contract_id : AccountId) (secrets : SecretsReference).

Inductive Action {J : Type} :=
(* [Promise::new(to).transfer(amount)] *)
| Transfer (to : AccountId) (amount : Balance)
(* [Promise::new(receiver).function_call(method, args, deposit, gas)] *)
| FunctionCall (receiver method : string) (args : CallArgs) (deposit : Balance)
(* the same, chained with the [on_withdraw_developer_earnings] callback *)
| WithdrawCall (token developer : AccountId) (amount : Z)
(* [promise_yield_create] towards each of the three callbacks *)
| YieldExecution (data_id : CryptoHash) (data : RequestData) (gas : Z)
| YieldTopUp (data_id : CryptoHash) (owner : AccountId) (nonce amount : Z)
| YieldDelete (data_id : CryptoHash) (owner : AccountId) (nonce : Z)
(* [promise_yield_resume] that found its yield *)
| ResumeExecution (data_id : CryptoHash) (response : ExecutionResponse J)
| ResumeTopUp (data_id : CryptoHash) (result : TopUpResult)
| ResumeDelete (data_id : CryptoHash) (result : DeletePaymentKeyResult)
(* NEP-297 events *)
| System (event : SystemEvent)
| ExecutionRequested (data : RequestData) (data_id : CryptoHash)
| ExecutionCompleted (sender_id : AccountId) (source : CodeSource) (resources : ResourceMetrics)
    (ok : bool) (error_message : option string) (charged refunded : Balance)
    (compilation_note : option string)
| ProjectStorageCleanup (project_id project_uuid : string)
(* [env::value_return] *)
| ValueReturn (bytes : string)
| ValueReturnU128 (amount : Z).
Arguments Action : clear implicits.

(** * Code outside the repository

    The crates the contract calls and the chain's host functions, as operations
    of a class.  A property that relies on one of their documented laws names
    the law as a hypothesis. *)

Class Platform := {
  platform_unicode :: Unicode;
  (* serde_json *)
  json : Type;
  json_from_str : string → option json;
  json_to_string : json → string;                    (* "" when it cannot be serialised *)
  json_get_str : json → string → option string;      (* value.get(k).and_then(as_str) *)
  json_null : json;
  json_quote : string → string;                      (* a string as a JSON string *)
  json_of_access : AccessCondition → string;
  json_ft_action : string → option FtTransferAction;
  (* base64, hex, sha2 *)
  base64_encode : string → string;
  hex_encode : string → string;
  hex_decode : string → option string;
  sha256 : string → string;
  (* host functions: signature, message, key *)
  ed25519_verify : string → string → string → bool;
  ecrecover : string → string → Z → option string;   (* hash, signature, v *)
  (* [AccountId]'s parser *)
  account_id_valid : string → bool;
}.

Abbreviation CWorld := (World Contract (Action json)).
Abbreviation CM := (M (World Contract (Action json))).

(** [#[private]]: only the contract itself may call. *)
Definition assert_private `{Platform} (e : Env) : CM unit :=
  require (bool_decide (predecessor_account_id e = current_account_id e)) "Method is private".

(** A method without [#[payable]] refuses an attached deposit. *)
Definition assert_no_deposit `{Platform} (e : Env) : CM unit :=
  require (attached_deposit e =? 0) "Method doesn't accept deposit".

Lemma assert_private_ok `{Platform} e (w : CWorld) u w' :
  assert_private e w = Ok (u, w') →
  predecessor_account_id e = current_account_id e ∧ w' = w.
Proof. intros H0. apply require_ok in H0 as [? ?]. prop_bool. done. Qed.

Lemma assert_no_deposit_ok `{Platform} e (w : CWorld) u w' :
  assert_no_deposit e w = Ok (u, w') → attached_deposit e = 0 ∧ w' = w.
Proof. intros H0. apply require_ok in H0 as [? ?]. prop_bool. done. Qed.

(** [Promise::new(to).transfer(amount)] under [if amount > 0]. *)
Definition transfer_if_positive `{Platform} (to : AccountId) (amount : Balance) : CM unit :=
  if 0 <? amount then emit (Transfer to amount) else ret tt.

(** What a list of actions pays out in yoctoNEAR transfers. *)
Definition action_transfer {J} (a : Action J) : Balance :=
  match a with Transfer _ amount => amount | _ => 0 end.
Definition transferred {J} (l : list (Action J)) : Balance :=
  foldr (λ a acc, action_transfer a + acc) 0 l.
Definition action_transfer_to {J} (who : AccountId) (a : Action J) : Balance :=
  match a with Transfer to amount => if decide (to = who) then amount else 0 | _ => 0 end.
Definition transferred_to {J} (who : AccountId) (l : list (Action J)) : Balance :=
  foldr (λ a acc, action_transfer_to who a + acc) 0 l.

Lemma transferred_app {J} (l k : list (Action J)) :
  transferred (l ++ k) = transferred l + transferred k.
Proof. unfold transferred. induction l as [|a l IH]; cbn; [done | rewrite IH; lia]. Qed.

Lemma transferred_to_app {J} who (l k : list (Action J)) :
  transferred_to who (l ++ k) = transferred_to who l + transferred_to who k.
Proof. unfold transferred_to. induction l as [|a l IH]; cbn; [done | rewrite IH; lia]. Qed.
#[export] Hint Rewrite @transferred_app @transferred_to_app : near.

(** The transfers of [transfer_if_positive]. *)
Lemma transferred_refund {J} who amount :
  0 ≤ amount →
  transferred (J := J) (if 0 <? amount then [Transfer who amount] else []) = amount.
Proof. intros Ha. destruct (0 <? amount) eqn:E; prop_bool; cbn; lia. Qed.

Lemma transferred_to_refund {J} who amount :
  0 ≤ amount →
  transferred_to (J := J) who (if 0 <? amount then [Transfer who amount] else []) = amount.
Proof.
  intros Ha. destruct (0 <? amount) eqn:E; prop_bool; cbn; [rewrite decide_True by done|]; lia.
Qed.

Lemma transfer_if_positive_ok `{Platform} to amount (w : CWorld) u w' :
  transfer_if_positive to amount w = Ok (u, w') →
  w' = mkWorld (st w) (out w ++ (if 0 <? amount then [Transfer to amount] else [])).
Proof.
  unfold transfer_if_positive. destruct (0 <? amount); intros H0; minv; [done|].
  rewrite app_nil_r. by destruct w.
Qed.

Lemma frame_private `{Platform} {X} (f : Contract → X) e : frame f (assert_private e).
Proof. unfold assert_private. solve_frame. Qed.
Lemma frame_no_deposit `{Platform} {X} (f : Contract → X) e : frame f (assert_no_deposit e).
Proof. unfold assert_no_deposit. solve_frame. Qed.
Lemma frame_transfer `{Platform} {X} (f : Contract → X) to amount :
  frame f (transfer_if_positive to amount).
Proof. unfold transfer_if_positive. solve_frame. Qed.
#[export] Hint Resolve frame_private frame_no_deposit frame_transfer : near.

(** [minv], with the contract's own guards. *)
Ltac cinv_step :=
  match goal with
  | H : assert_private _ _ = Ok (_, ?w') |- _ =>
      apply assert_private_ok in H; destruct H as [H ?]; subst_new w'
  | H : assert_no_deposit _ _ = Ok (_, ?w') |- _ =>
      apply assert_no_deposit_ok in H; destruct H as [H ?]; subst_new w'
  | H : transfer_if_positive _ _ _ = Ok (_, ?w') |- _ =>
      apply transfer_if_positive_ok in H; subst_new w'
  end.
