(* ===== verification/Pricing.v ===== *)
(** What a run costs and how money attached to it is divided: the pure functions
    of contract/src/payment.rs and the cost formulas of contract/src/lib.rs. *)

From S2P Require Export Contract.

(** * NEAR cost of a run (contract/src/lib.rs) *)

Definition calculate_cost {W} (c : Contract) (metrics : ResourceMetrics) : M W Balance :=
  let! instruction_cost :=
    mul128 (instructions metrics / 1000000) (per_million_instructions_fee c) in
  let! time_cost := mul128 (time_ms metrics) (per_ms_fee c) in
  let! compile_cost :=
    match compile_time_ms metrics with
    | Some ms => mul128 ms (per_compile_ms_fee c)
    | None => ret 0
    end in
  let! a := add128 (base_fee c) instruction_cost in
  let! b := add128 a time_cost in
  add128 b compile_cost.

Definition estimate_cost {W} (c : Contract) (limits : ResourceLimits) : M W Balance :=
  let max_instr := default 1000000000 (max_instructions limits) in
  let max_seconds := default 60 (max_execution_seconds limits) in
  let! max_time_ms := mul64 max_seconds 1000 in
  let! instruction_cost := mul128 (max_instr / 1000000) (per_million_instructions_fee c) in
  let! time_cost := mul128 max_time_ms (per_ms_fee c) in
  let! a := add128 (base_fee c) instruction_cost in
  add128 a time_cost.

(** * Operation prices (contract/src/payment.rs) *)

Definition max_price (pricing : ProjectPricing) : Z :=
  foldr (λ o acc, Z.max (op_price_usd o) acc) 0 (operations pricing).

Definition OPERATION_FIELD : string := "operation".
Definition MAX_PRICED_INPUT_BYTES : Z := INPUT_DATA_EVENT_THRESHOLD.

Inductive OperationError := TooLarge (len : Z) | NotJson | Missing.

Definition operation_from_input `{Platform} (input_data : option string)
    : string + OperationError :=
  let body := default "" input_data in
  if MAX_PRICED_INPUT_BYTES <? str_len body then inr (TooLarge (str_len body)) else
  match json_from_str body with
  | None => inr NotJson
  | Some parsed =>
    match json_get_str parsed OPERATION_FIELD with
    | None => inr Missing
    | Some v => let t := str_trim v in if str_is_empty t then inr Missing else inl t
    end
  end.

Record Split := mkSplit { author_usd : Z; owner_usd : Z }.

Definition split_payment {W} (paid_usd developer_share_bp : Z) : M W Split :=
  let bp := Z.min developer_share_bp 10000 in
  let! product := mul128 paid_usd bp in
  let author := product / 10000 in
  let! owner := sub128 paid_usd author in
  ret (mkSplit author owner).

(** The subtractions cannot underflow and the sum cannot overflow: see
    [settle_attached_bounds]. *)
Definition settle_attached (attached_usd price_usd guest_refund_usd : Z) : Z * Z :=
  let overpaid := saturating_sub attached_usd price_usd in
  let chargeable := attached_usd - overpaid in
  let guest_refund := Z.min guest_refund_usd chargeable in
  (overpaid + guest_refund, chargeable - guest_refund).

Definition find_operation (pricing : ProjectPricing) (operation : string)
    : option OperationPrice :=
  list_find (λ o, op_operation o = operation) (operations pricing) ≫= λ x, Some x.2.

Definition price_for_operation (pricing : ProjectPricing) (operation : string) : option Z :=
  op_price_usd <$> find_operation pricing operation.

Definition plan_for_sale (plans : list SubscriptionPlan) (index amount_usd : Z)
    : option SubscriptionPlan :=
  match list_find (λ p, plan_index p = index ∧ plan_active p = true) plans with
  | Some (_, p) => if plan_price_usd p <=? amount_usd then Some p else None
  | None => None
  end.

(** * Lemmas *)

(** The exact value of the cost formula, without widths. *)
Definition cost_formula (c : Contract) (metrics : ResourceMetrics) : Z :=
  base_fee c + instructions metrics / 1000000 * per_million_instructions_fee c
  + time_ms metrics * per_ms_fee c
  + from_option (λ ms, ms * per_compile_ms_fee c) 0 (compile_time_ms metrics).

Definition estimate_formula (c : Contract) (limits : ResourceLimits) : Z :=
  base_fee c
  + default 1000000000 (max_instructions limits) / 1000000 * per_million_instructions_fee c
  + default 60 (max_execution_seconds limits) * 1000 * per_ms_fee c.

Lemma calculate_cost_ok {W} c m (w : W) r w' :
  calculate_cost c m w = Ok (r, w') → r = cost_formula c m ∧ u128_ok r ∧ w' = w.
Proof.
  unfold calculate_cost, cost_formula. intros H.
  destruct (compile_time_ms m); minv; cbn; split_and!; try done; lia.
Qed.

Lemma estimate_cost_ok {W} c l (w : W) r w' :
  estimate_cost c l w = Ok (r, w') → r = estimate_formula c l ∧ u128_ok r ∧ w' = w.
Proof. unfold estimate_cost, estimate_formula. intros H. minv. split_and!; try done; lia. Qed.

(** ** Sufficient bounds for the cost formulas not to overflow *)

(** Fees up to 10^24 yoctoNEAR (one NEAR) per unit. *)
Definition FEE_BOUND : Z := 10 ^ 24.

Definition fees_bounded (c : Contract) : Prop :=
  0 ≤ base_fee c ≤ FEE_BOUND ∧ 0 ≤ per_million_instructions_fee c ≤ 10 ^ 15 ∧
  0 ≤ per_ms_fee c ≤ 10 ^ 18 ∧ 0 ≤ per_compile_ms_fee c ≤ 10 ^ 18.

Definition metrics_ok (m : ResourceMetrics) : Prop :=
  u64_ok (instructions m) ∧ u64_ok (time_ms m) ∧
  from_option (λ ms, u64_ok ms) True (compile_time_ms m).

Lemma calculate_cost_total {W} c m (w : W) :
  fees_bounded c → metrics_ok m →
  calculate_cost c m w = Ok (cost_formula c m, w) ∧ 0 ≤ cost_formula c m.
Proof.
  intros (Hb & Hi & Ht & Hc) (Mi & Mt & Mc).
  unfold FEE_BOUND in *. widths.
  set (q := instructions m / 1000000).
  assert (0 ≤ q ≤ 2 ^ 64 / 1000000) as Hq.
  { split; [apply Z.div_pos; lia | apply Z.div_le_mono; lia]. }
  change (2 ^ 64 / 1000000) with 18446744073709 in Hq.
  change (2 ^ 64) with 18446744073709551616 in *.
  change (10 ^ 24) with 1000000000000000000000000 in *.
  change (10 ^ 15) with 1000000000000000 in *.
  change (10 ^ 18) with 1000000000000000000 in *.
  assert (0 ≤ q * per_million_instructions_fee c ≤ 18446744073709 * 1000000000000000) by nia.
  assert (0 ≤ time_ms m * per_ms_fee c ≤ 18446744073709551616 * 1000000000000000000) by nia.
  unfold calculate_cost, cost_formula, bind, mul128, add128, checked. fold q.
  destruct (compile_time_ms m) as [ms|]; cbn in Mc |- *.
  - widths. change (2 ^ 64) with 18446744073709551616 in *.
    assert (0 ≤ ms * per_compile_ms_fee c ≤ 18446744073709551616 * 1000000000000000000) by nia.
    repeat (rewrite in_width_intro by (change (2 ^ 128) with
      340282366920938463463374607431768211456; lia); cbn).
    split; [done | lia].
  - repeat (rewrite in_width_intro by (change (2 ^ 128) with
      340282366920938463463374607431768211456; lia); cbn).
    split; [do 3 f_equal; lia | lia].
Qed.
