(* ===== verification/Messages.v ===== *)
(** Wallet keys and the messages a wallet signs: key parsing and signature
    verification (contract/src/wallet.rs) and the exact strings
    [store_agent_secret], [delete_agent_secret] (contract/src/secrets.rs) and
    [store_wallet_policy] (contract/src/wallet.rs) require a signature over. *)

From S2P Require Export Contract.

(** * Wallet keys *)

(** [splitn(2, ':')], when there is a colon. *)
Fixpoint split_colon (s : string) : option (string * string) :=
  match s with
  | EmptyString => None
  | String c s =>
    if byte_of c =? ch_colon then Some (EmptyString, s)
    else match split_colon s with
         | Some (a, b) => Some (String c a, b)
         | None => None
         end
  end.

Definition first_byte (s : string) : Z :=
  match s with EmptyString => 0 | String c _ => byte_of c end.

Definition nth_byte (n : nat) (s : string) : Z := from_option byte_of 0 (String.get n s).

Section keys.
Context `{Platform} {W : Type}.

Definition parse_wallet_pubkey (wallet_pubkey : string) : M W (string * string) :=
  let! '(key_type, hex_str) :=
    unwrap (split_colon wallet_pubkey) "Invalid public key format" in
  require (bool_decide (key_type = "ed25519") || bool_decide (key_type = "secp256k1"))
    "Unsupported key type" >>>
  let! raw_bytes := unwrap (hex_decode hex_str) "Invalid hex encoding in the public key" in
  (if bool_decide (key_type = "ed25519") then
     require (str_len raw_bytes =? 32) "Ed25519 public key must be 32 bytes"
   else
     require (str_len raw_bytes =? 33) "Secp256k1 compressed public key must be 33 bytes" >>>
     require ((first_byte raw_bytes =? 2) || (first_byte raw_bytes =? 3))
       "Secp256k1 compressed key must start with 0x02 or 0x03") >>>
  ret (key_type, raw_bytes).

Definition canonical_wallet_pubkey (wallet_pubkey : string) : M W string :=
  let! '(key_type, raw_bytes) := parse_wallet_pubkey wallet_pubkey in
  ret (key_type +:+ ":" +:+ hex_encode raw_bytes).

Definition lookup_wallet_pubkey (wallet_pubkey : string) : string :=
  match split_colon wallet_pubkey with
  | Some (key_type, hex_str) =>
    if bool_decide (key_type = "ed25519") || bool_decide (key_type = "secp256k1") then
      match hex_decode hex_str with
      | Some raw => key_type +:+ ":" +:+ hex_encode raw
      | None => wallet_pubkey
      end
    else wallet_pubkey
  | None => wallet_pubkey
  end.

Definition implicit_account_of (wallet_pubkey : string) : M W AccountId :=
  let! '(key_type, raw_bytes) := parse_wallet_pubkey wallet_pubkey in
  require (bool_decide (key_type = "ed25519"))
    "Only an ed25519 wallet key has a NEAR account" >>>
  let account := hex_encode raw_bytes in
  require (account_id_valid account) "Wallet key does not form a valid implicit account" >>>
  ret account.

Definition verify_wallet_signature (wallet_pubkey message_hash wallet_signature : string)
    : M W unit :=
  let! '(key_type, pubkey_bytes) := parse_wallet_pubkey wallet_pubkey in
  let! sig_bytes := unwrap (hex_decode wallet_signature)
                      "Invalid hex encoding in wallet_signature" in
  if bool_decide (key_type = "ed25519") then
    require (str_len sig_bytes =? 64) "Ed25519 signature must be 64 bytes" >>>
    require (ed25519_verify sig_bytes message_hash pubkey_bytes)
      "Invalid Ed25519 wallet signature"
  else
    require (str_len sig_bytes =? 65) "Secp256k1 signature must be 65 bytes" >>>
    let sig := String.substring 0 64 sig_bytes in
    let v := nth_byte 64 sig_bytes in
    require (v <=? 1) "Recovery id (v) must be 0 or 1" >>>
    let! recovered := unwrap (ecrecover message_hash sig v)
                        "Secp256k1 signature recovery failed" in
    let x := String.substring 0 32 recovered in
    let prefix := if Z.even (nth_byte 63 recovered) then 2 else 3 in
    require (bool_decide (String (ascii_of_N (Z.to_N prefix)) x = pubkey_bytes))
      "Recovered secp256k1 public key does not match wallet_pubkey".
End keys.

(** * Signed messages *)

Definition system_binding (kind : SystemSecretType) : string :=
  match kind with PaymentKey => "PaymentKey" end.

Definition accessor_binding (accessor : SecretAccessor) : string :=
  match accessor with
  | AccProject project_id => project_id
  | AccRepo repo branch => "repo:" +:+ repo +:+ ":" +:+ default "" branch
  | AccWasmHash hash => "wasm:" +:+ hash
  | AccSystem kind => "system:" +:+ system_binding kind
  end.

Definition secret_delete_message (agent_pubkey : string) (accessor : SecretAccessor)
    (profile : string) (payer : AccountId) : string :=
  let binding := accessor_binding accessor in
  "delete_agent_secret:v1:" +:+ agent_pubkey +:+ ":" +:+ uint_to_string (str_len binding)
  +:+ ":" +:+ binding +:+ ":" +:+ profile +:+ ":" +:+ payer.

Definition secret_store_message `{Platform} (agent_pubkey : string) (accessor : SecretAccessor)
    (profile encrypted_secrets_base64 : string) (payer : AccountId)
    (vault_id : option AccountId) (access : AccessCondition) : string :=
  let binding := accessor_binding accessor in
  "store_secrets_for:v1:" +:+ agent_pubkey +:+ ":" +:+ uint_to_string (str_len binding)
  +:+ ":" +:+ binding +:+ ":" +:+ profile +:+ ":" +:+ encrypted_secrets_base64
  +:+ ":" +:+ payer +:+ ":" +:+ default "" vault_id +:+ ":" +:+ json_of_access access.

Definition policy_store_message (wallet_pubkey : string) (version : Z) (locked : bool)
    (valid_until : Z) (encrypted_data : string) (caller : AccountId) : string :=
  "store_wallet_policy:v2:" +:+ wallet_pubkey +:+ ":" +:+ uint_to_string version
  +:+ ":" +:+ (if locked then "1" else "0") +:+ ":" +:+ uint_to_string valid_until
  +:+ ":" +:+ uint_to_string (str_len encrypted_data) +:+ ":" +:+ encrypted_data
  +:+ ":" +:+ caller.

(** * What a signature can mean *)

(** A wallet key as the parser admits it: one colon, between type and hex. *)
Definition one_colon (key : string) : Prop :=
  ∃ t h, key = t +:+ ":" +:+ h ∧ has_byte ch_colon t = false ∧ has_byte ch_colon h = false.

Lemma colon_sep_inj (x y u v : string) :
  has_byte ch_colon x = false → has_byte ch_colon y = false →
  x +:+ ":" +:+ u = y +:+ ":" +:+ v → x = y ∧ u = v.
Proof. intros Hx Hy Heq. by apply (field_sep_inj ch_colon ":"%char) in Heq. Qed.

Lemma key_sep_inj (k k' u v : string) :
  one_colon k → one_colon k' → k +:+ ":" +:+ u = k' +:+ ":" +:+ v → k = k' ∧ u = v.
Proof.
  intros (t & h & -> & Ht & Hh) (t' & h' & -> & Ht' & Hh') Heq.
  rewrite !str_append_assoc in Heq.
  apply colon_sep_inj in Heq as [-> Heq]; [|done..].
  by apply colon_sep_inj in Heq as [-> ->].
Qed.

(** A length-prefixed field may hold anything. *)
Lemma length_prefixed_inj (b b' u v : string) :
  uint_to_string (str_len b) +:+ ":" +:+ b +:+ u =
  uint_to_string (str_len b') +:+ ":" +:+ b' +:+ v → b = b' ∧ u = v.
Proof.
  intros Heq.
  apply colon_sep_inj in Heq as [Hlen Heq]; [|apply uint_to_string_no_colon..].
  apply uint_to_string_inj in Hlen; [|auto with near..].
  apply str_append_inj_len in Heq; [done|]. unfold str_len in Hlen. lia.
Qed.

Lemma split_colon_spec s a b :
  split_colon s = Some (a, b) → s = a +:+ ":" +:+ b ∧ has_byte ch_colon a = false.
Proof.
  revert a. induction s as [|c s IH]; intros a Hs; cbn in Hs; [discriminate|].
  destruct (byte_of c =? ch_colon) eqn:E.
  - injection Hs as <- <-. apply Z.eqb_eq in E.
    replace c with ":"%char by (by apply byte_of_inj; rewrite E). done.
  - destruct (split_colon s) as [[a' b']|]; [|discriminate].
    injection Hs as <- <-. destruct (IH a' eq_refl) as [-> Ha].
    cbn. rewrite E, Ha. done.
Qed.

(** What [parse_wallet_pubkey] returns, and of what. *)
Lemma parse_wallet_pubkey_ok `{Platform} {W} key (w : W) t raw w' :
  parse_wallet_pubkey key w = Ok ((t, raw), w') →
  w' = w ∧ (t = "ed25519" ∨ t = "secp256k1") ∧
  ∃ h, key = t +:+ ":" +:+ h ∧ hex_decode h = Some raw.
Proof.
  unfold parse_wallet_pubkey. intros Hr. minv. destruct a as [t0 h]. minv.
  injection H4 as -> ->.
  assert (w2 = w) as -> by (destruct (bool_decide (t0 = "ed25519")); by minv).
  destruct (split_colon_spec _ _ _ H0) as [-> _].
  split; [done|]. split; [|eauto].
  apply orb_true_iff in H2 as [?|?]; prop_bool; auto.
Qed.

(** The key [key] signed [hash]: with ed25519 the host verifies it, with
    secp256k1 the host recovers the compressed key from the signature. *)
Definition wallet_signed `{Platform} (key hash signature : string) : Prop :=
  ∃ sig h raw, hex_decode signature = Some sig ∧ hex_decode h = Some raw ∧
    ((key = "ed25519:" +:+ h ∧ ed25519_verify sig hash raw = true) ∨
     (key = "secp256k1:" +:+ h ∧ ∃ recovered,
        ecrecover hash (String.substring 0 64 sig) (nth_byte 64 sig) = Some recovered ∧
        String.substring 0 32 recovered = String.substring 1 32 raw)).

Lemma substring_tail c s n : String.substring 1 n (String c s) = String.substring 0 n s.
Proof. done. Qed.

Lemma substring_0_32_idem s :
  String.substring 0 32 (String.substring 0 32 s) = String.substring 0 32 s.
Proof.
  generalize 32%nat. intros n. revert s.
  induction n as [|n IH]; intros [|c s]; cbn; try done. by rewrite IH.
Qed.

Lemma verify_wallet_signature_ok `{Platform} {W} key hash signature (w : W) u w' :
  verify_wallet_signature key hash signature w = Ok (u, w') →
  wallet_signed key hash signature ∧ w' = w.
Proof.
  unfold verify_wallet_signature. intros Hr. minv. destruct a as [t raw].
  apply parse_wallet_pubkey_ok in H0 as (-> & Ht & h & -> & Hh). minv.
  destruct (bool_decide (t = "ed25519")) eqn:E; minv; prop_bool; subst.
  - split; [|done]. exists a, h, raw. auto.
  - destruct Ht as [->| ->]; [done|]. split; [|done].
    exists a, h. eexists. split_and!; [done|done|]. right. split; [done|].
    eexists. split; [eassumption|]. by rewrite substring_tail, substring_0_32_idem.
Qed.

Lemma implicit_account_of_ok `{Platform} {W} key (w : W) account w' :
  implicit_account_of key w = Ok (account, w') →
  w' = w ∧ ∃ h raw, key = "ed25519:" +:+ h ∧ hex_decode h = Some raw ∧ account = hex_encode raw.
Proof.
  unfold implicit_account_of. intros Hr. minv. destruct a as [t raw]. minv.
  apply parse_wallet_pubkey_ok in H0 as (-> & _ & h & -> & Hh). prop_bool. subst.
  split; [done|]. eauto.
Qed.

Lemma canonical_wallet_pubkey_ok `{Platform} {W} key (w : W) k w' :
  canonical_wallet_pubkey key w = Ok (k, w') →
  w' = w ∧ k = lookup_wallet_pubkey key ∧
  ∃ t h raw, key = t +:+ ":" +:+ h ∧ (t = "ed25519" ∨ t = "secp256k1") ∧
    hex_decode h = Some raw ∧ k = t +:+ ":" +:+ hex_encode raw.
Proof.
  unfold canonical_wallet_pubkey. intros Hr. minv. destruct a as [t raw]. minv.
  unfold parse_wallet_pubkey in H0. minv. destruct a as [t0 h]. minv. injection H4 as -> ->.
  assert (w3 = w) as -> by (destruct (bool_decide (t0 = "ed25519")); by minv).
  unfold lookup_wallet_pubkey. rewrite H1. cbv iota. rewrite H0, H2.
  destruct (split_colon_spec _ _ _ H1) as [-> _].
  split_and!; try done. exists t0, h, a0. split_and!; try done.
  apply orb_true_iff in H0 as [?|?]; prop_bool; auto.
Qed.

(** [minv], with the key and signature checks. *)
Ltac kinv_step :=
  match goal with
  | H : implicit_account_of _ _ = Ok (?a, ?w') |- _ =>
      let h := fresh "h" in let raw := fresh "raw" in let E := fresh "E" in
      apply implicit_account_of_ok in H; destruct H as (? & h & raw & E & H & ?);
      subst_new w'; subst_new a
  | H : verify_wallet_signature _ _ _ _ = Ok (_, ?w') |- _ =>
      apply verify_wallet_signature_ok in H; destruct H as [H ?]; subst_new w'
  | H : canonical_wallet_pubkey _ _ = Ok (?k, ?w') |- _ =>
      let Ek := fresh "Ek" in
      apply canonical_wallet_pubkey_ok in H; destruct H as (? & Ek & H);
      subst_new w'; subst_new k
  end.

Lemma frame_parse_key `{Platform} {C Act X} (f : C → X) key :
  frame f (parse_wallet_pubkey (W := World C Act) key).
Proof. unfold parse_wallet_pubkey. solve_frame. Qed.
#[export] Hint Resolve frame_parse_key : near.
Lemma frame_canonical_key `{Platform} {C Act X} (f : C → X) key :
  frame f (canonical_wallet_pubkey (W := World C Act) key).
Proof. unfold canonical_wallet_pubkey. solve_frame. Qed.
Lemma frame_implicit_account `{Platform} {C Act X} (f : C → X) key :
  frame f (implicit_account_of (W := World C Act) key).
Proof. unfold implicit_account_of. solve_frame. Qed.
Lemma frame_verify `{Platform} {C Act X} (f : C → X) key h sig :
  frame f (verify_wallet_signature (W := World C Act) key h sig).
Proof. unfold verify_wallet_signature. solve_frame. Qed.
#[export] Hint Resolve frame_canonical_key frame_implicit_account frame_verify : near.

(** The message [store_wallet_policy] wants signed names exactly one
    (key, version, lock, deadline, ciphertext, caller): two calls whose messages
    are equal agree on all six, whatever bytes the ciphertext holds. *)
Theorem policy_store_message_unambiguous k v l u d a k' v' l' u' d' a' :
  one_colon k → one_colon k' → 0 ≤ v → 0 ≤ v' → 0 ≤ u → 0 ≤ u' →
  policy_store_message k v l u d a = policy_store_message k' v' l' u' d' a' →
  (k, v, l, u, d, a) = (k', v', l', u', d', a').
Proof.
  intros Hk Hk' Hv Hv' Hu Hu' Heq. unfold policy_store_message in Heq.
  apply str_append_inj_l in Heq.
  apply key_sep_inj in Heq as [-> Heq]; [|done..].
  apply colon_sep_inj in Heq as [E Heq]; [|apply uint_to_string_no_colon..].
  apply uint_to_string_inj in E as ->; [|done..].
  apply colon_sep_inj in Heq as [E Heq]; [|by destruct l, l'..].
  replace l' with l by (by destruct l, l'). clear E.
  apply colon_sep_inj in Heq as [E Heq]; [|apply uint_to_string_no_colon..].
  apply uint_to_string_inj in E as ->; [|done..].
  apply length_prefixed_inj in Heq as [-> Heq].
  by apply str_append_inj_l in Heq as ->.
Qed.

Lemma policy_store_message_unambiguous_witness :
  (("ed25519:ab", 1, true, 7, "blob", "a.near") : string * Z * bool * Z * string * string)
  = ("ed25519:ab", 1, true, 7, "blob", "a.near").
Proof.
  assert (one_colon "ed25519:ab") by (exists "ed25519", "ab"; done).
  by apply policy_store_message_unambiguous.
Defined.

(** The accessors an agent secret may have: a project (whose id, an account, a
    slash and a name, has no colon) or a WASM hash. *)
Definition agent_accessor (a : SecretAccessor) : Prop :=
  match a with
  | AccProject project_id => has_byte ch_colon project_id = false
  | AccWasmHash _ => True
  | _ => False
  end.

Lemma accessor_binding_inj a b :
  agent_accessor a → agent_accessor b → accessor_binding a = accessor_binding b → a = b.
Proof.
  destruct a as [?|h|p|?], b as [?|h'|p'|?]; cbn; try done.
  - by intros _ _ [= ->].
  - intros _ Hp <-. discriminate Hp.
  - intros Hp _ ->. discriminate Hp.
  - by intros _ _ ->.
Qed.

Definition vault_field_ok (v : option AccountId) : Prop :=
  match v with Some a => a ≠ "" ∧ has_byte ch_colon a = false | None => True end.

Lemma vault_field_inj v v' :
  vault_field_ok v → vault_field_ok v' → default "" v = default "" v' → v = v'.
Proof. destruct v, v'; cbn; naive_solver. Qed.

Lemma vault_field_no_colon v : vault_field_ok v → has_byte ch_colon (default "" v) = false.
Proof. destruct v; cbn; [by intros [_ ?] | done]. Qed.

(** The message [store_agent_secret] wants signed names exactly one (key,
    accessor, profile, ciphertext, payer, vault, condition text), for the
    accessors that door admits, a colon-free profile and a base64 ciphertext:
    no second reading of one signature exists. *)
Theorem secret_store_message_unambiguous `{Platform}
    k a p e y v c k' a' p' e' y' v' c' :
  one_colon k → one_colon k' → agent_accessor a → agent_accessor a' →
  has_byte ch_colon p = false → has_byte ch_colon p' = false →
  has_byte ch_colon e = false → has_byte ch_colon e' = false →
  has_byte ch_colon y = false → has_byte ch_colon y' = false →
  vault_field_ok v → vault_field_ok v' →
  secret_store_message k a p e y v c = secret_store_message k' a' p' e' y' v' c' →
  (k, a, p, e, y, v) = (k', a', p', e', y', v') ∧ json_of_access c = json_of_access c'.
Proof.
  intros Hk Hk' Ha Ha' Hp Hp' He He' Hy Hy' Hv Hv' Heq. unfold secret_store_message in Heq.
  apply str_append_inj_l in Heq.
  apply key_sep_inj in Heq as [-> Heq]; [|done..].
  apply length_prefixed_inj in Heq as [Hb Heq].
  apply accessor_binding_inj in Hb as ->; [|done..].
  apply (str_append_inj_l ":") in Heq.
  apply colon_sep_inj in Heq as [-> Heq]; [|done..].
  apply colon_sep_inj in Heq as [-> Heq]; [|done..].
  apply colon_sep_inj in Heq as [-> Heq]; [|done..].
  apply colon_sep_inj in Heq as [E Heq]; [|by apply vault_field_no_colon..].
  by apply vault_field_inj in E as ->.
Qed.

Lemma delete_message_unambiguous k a p y k' a' p' y' :
  one_colon k → one_colon k' → agent_accessor a → agent_accessor a' →
  has_byte ch_colon p = false → has_byte ch_colon p' = false →
  secret_delete_message k a p y = secret_delete_message k' a' p' y' →
  (k, a, p, y) = (k', a', p', y').
Proof.
  intros Hk Hk' Ha Ha' Hp Hp' Heq. unfold secret_delete_message in Heq.
  apply str_append_inj_l in Heq.
  apply key_sep_inj in Heq as [-> Heq]; [|done..].
  apply length_prefixed_inj in Heq as [Hb Heq].
  apply accessor_binding_inj in Hb as ->; [|done..].
  apply (str_append_inj_l ":") in Heq.
  by apply colon_sep_inj in Heq as [-> ->].
Qed.

(** A signature made for one verb is worthless for another: no store, delete
    and policy messages are ever equal. *)
Theorem message_domains_disjoint `{Platform} k a p e y v c k' a' p' y' k'' n l u d b :
  secret_store_message k a p e y v c ≠ secret_delete_message k' a' p' y' ∧
  secret_store_message k a p e y v c ≠ policy_store_message k'' n l u d b ∧
  secret_delete_message k' a' p' y' ≠ policy_store_message k'' n l u d b.
Proof.
  unfold secret_store_message, secret_delete_message, policy_store_message.
  split_and!; cbn; congruence.
Qed.
