(* ===== verification/Samples.v ===== *)
(** A concrete [Platform] the witnesses run on.  It has a real hexadecimal codec
    and stand-ins for the JSON, hashing and signature code: a request body
    [op:NAME] is the object whose operation is NAME, and a signature is valid
    when it begins with the key. *)

From S2P Require Export Messages.

Definition sample_json_from_str (s : string) : option string :=
  if starts_with s "op:" then Some (String.substring 3 (String.length s - 3) s) else None.

Definition sample_ft_action (msg : string) : option FtTransferAction :=
  if decide (msg = "deposit_balance") then Some DepositBalance
  else if decide (msg = "top_up_1") then Some (TopUpPaymentKey 1 None)
  else if decide (msg = "subscribe_1") then Some (BuySubscription 1 None 1)
  else None.

Definition sample_unicode : Unicode := {|
  unicode_alphanumeric := λ _, false;
  unicode_to_lowercase := λ s, s;
|}.

Definition sample_platform : Platform := {|
  platform_unicode := sample_unicode;
  json := string;
  json_from_str := sample_json_from_str;
  json_to_string := λ v, v;
  json_get_str := λ v k, if decide (k = "operation") then Some v else None;
  json_null := "null";
  json_quote := λ s, "'" +:+ s +:+ "'";
  json_of_access := λ c, match c with AllowAll => "AllowAll" | _ => "other" end;
  json_ft_action := sample_ft_action;
  base64_encode := λ s, s;
  hex_encode := sample_hex_encode;
  hex_decode := sample_hex_decode;
  sha256 := λ s, s;
  ed25519_verify := λ sig _ pk, String.prefix pk sig;
  ecrecover := λ _ _ _, None;
  account_id_valid := λ s, negb (has_byte ch_colon s) && (2 <=? str_len s);
|}.

(** A call by [who] with [deposit] attached, [t] nanoseconds into the epoch. *)
Definition sample_env (who : AccountId) (deposit t : Z) : Env :=
  mkEnv who who "outlayer.near" deposit t "yield-1" (λ _, true) (λ _, 100).

#[local] Existing Instance sample_platform.

(** A fresh deployment that takes payments in [usdt.near]. *)
Definition sample_contract : Contract :=
  (new "owner.near" (Some "operator.near") None None)
    <| payment_token_contract := Some "usdt.near" |>.
Definition start (c : Contract) : CWorld := mkWorld c [].

Definition ONE_NEAR : Z := 1000000000000000000000000.

Lemma secret_store_message_unambiguous_witness :
  (("ed25519:ab", AccWasmHash "ff", "main", "QQ==", "a.near", None)
    : string * SecretAccessor * string * string * string * option string)
  = ("ed25519:ab", AccWasmHash "ff", "main", "QQ==", "a.near", None)
  ∧ json_of_access AllowAll = json_of_access AllowAll.
Proof.
  assert (one_colon "ed25519:ab") by (exists "ed25519", "ab"; done).
  by apply secret_store_message_unambiguous.
Defined.
