(* ===== verification/Projects.v ===== *)
(** Projects (contract/src/projects.rs): the shape of names and code sources, the
    project and version operations, ownership transfer, and the registry
    invariant they keep. *)

From S2P Require Export Pricing Samples.

(** * Validation *)

Definition PROJECT_BASE_STORAGE : Z := 200.
Definition VERSION_BASE_STORAGE : Z := 150.
Definition MAX_WASM_URL_LEN : Z := 2048.
Definition MAX_REPO_LEN : Z := 512.
Definition MAX_COMMIT_LEN : Z := 256.
Definition MAX_BUILD_TARGET_LEN : Z := 64.

Definition names_an_event (field value : string) : option string :=
  if str_contains value "EVENT_JSON"
  then Some (field +:+ " must not contain 'EVENT_JSON'") else None.

Definition repo_byte (b : Z) : bool :=
  is_ascii_alphanumeric b || (b =? ch_dot) || (b =? ch_underscore) || (b =? ch_dash)
  || (b =? ch_slash) || (b =? ch_colon).
Definition commit_byte (b : Z) : bool :=
  is_ascii_alphanumeric b || (b =? ch_dot) || (b =? ch_underscore) || (b =? ch_slash)
  || (b =? ch_dash) || (b =? ch_plus).
Definition build_target_byte (b : Z) : bool :=
  is_ascii_alphanumeric b || (b =? ch_dot) || (b =? ch_underscore) || (b =? ch_dash).

Definition or_else {A} (a b : option A) : option A :=
  match a with Some _ => a | None => b end.

Definition build_target_error (build_target : option string) : option string :=
  match build_target with
  | None => None
  | Some t =>
    if str_is_empty t || (MAX_BUILD_TARGET_LEN <? str_len t)
       || negb (forall_bytes build_target_byte t)
    then Some "source.build_target must be 1-64 bytes of letters, digits, '.', '_' or '-'"
    else None
  end.

Definition code_source_error (source : CodeSource) : option string :=
  match source with
  | WasmUrl url hash build_target =>
    let err :=
      if negb (str_len hash =? 64) || negb (forall_bytes is_lower_hex hash) then
        Some "source.hash must be the SHA-256 of the WASM as 64 lowercase hex characters"
      else if negb (starts_with url "https://") || (str_len url <=? str_len "https://") then
        Some "source.url must be an https:// URL"
      else if MAX_WASM_URL_LEN <? str_len url then
        Some "source.url is longer than 2048 bytes"
      else if existsb (λ c, char_is_whitespace c || char_is_control c) (str_chars url) then
        Some "source.url must not contain whitespace or control characters"
      else None in
    or_else (or_else err (names_an_event "source.url" url)) (build_target_error build_target)
  | GitHub repo commit build_target =>
    let err :=
      if str_is_empty repo || (MAX_REPO_LEN <? str_len repo) then
        Some "source.repo must be 1-512 bytes"
      else if starts_with repo "-" || str_contains repo ".."
              || negb (forall_bytes repo_byte repo) then
        Some "source.repo must be a GitHub repository"
      else if str_is_empty commit || (MAX_COMMIT_LEN <? str_len commit) then
        Some "source.commit must be 1-256 bytes"
      else if starts_with commit "-" || str_contains commit ".."
              || negb (forall_bytes commit_byte commit) then
        Some "source.commit must be a commit hash, branch or tag"
      else None in
    or_else (or_else (or_else err (names_an_event "source.repo" repo))
                     (names_an_event "source.commit" commit))
            (build_target_error build_target)
  end.

Definition assert_code_source {W} (source : CodeSource) : M W unit :=
  match code_source_error source with Some why => panic why | None => ret tt end.

Definition name_byte (b : Z) : bool :=
  is_ascii_alphanumeric b || (b =? ch_dash) || (b =? ch_underscore).

Definition assert_project_name {W} (name : string) : M W unit :=
  require (negb (str_is_empty name)) "Project name cannot be empty" >>>
  require (str_len name <=? 64) "Project name too long (max 64 chars)" >>>
  require (forall_bytes name_byte name)
    "Project name must contain only ASCII letters, digits, dash, or underscore".

(** * Keys and sizes *)

Definition get_version_key (source : CodeSource) : string :=
  match source with
  | WasmUrl _ hash _ => hash
  | GitHub repo commit _ => repo +:+ "@" +:+ commit
  end.

Definition project_id_of (owner : AccountId) (name : string) : string :=
  owner +:+ "/" +:+ name.

(** [format!("p{:016x}", n)]. *)
Definition uuid_of (n : Z) : string := "p" +:+ hex_fixed 16 n.

Definition calculate_project_storage_size (project_id uuid : string) : Z :=
  PROJECT_BASE_STORAGE + str_len project_id + str_len uuid + 8 + 16.

Definition calculate_version_storage_size (source : CodeSource) : Z :=
  let source_size :=
    match source with
    | GitHub repo commit t => str_len repo + str_len commit + from_option str_len 0 t
    | WasmUrl url hash t => str_len url + str_len hash + from_option str_len 0 t
    end in
  VERSION_BASE_STORAGE + source_size + 64 + 8 + 16.

(** * Index of a user's projects *)

Definition index_add {K} `{Countable K} (idx : gmap AccountId (gset K)) (who : AccountId) (k : K)
    : gmap AccountId (gset K) :=
  <[who := {[k]} ∪ default ∅ (idx !! who)]> idx.

(** An index whose set becomes empty is removed. *)
Definition index_remove {K} `{Countable K} (idx : gmap AccountId (gset K)) (who : AccountId) (k : K)
    : gmap AccountId (gset K) :=
  match idx !! who with
  | None => idx
  | Some s =>
    let s' := s ∖ {[k]} in
    if decide (s' = ∅) then delete who idx else <[who := s']> idx
  end.

(** * Operations *)

Section operations.
Context `{Platform}.

Definition assert_not_paused : CM unit :=
  let! c := get_st in require (negb (paused c)) "Contract is paused".

Definition create_project (e : Env) (name : string) (source : CodeSource) : CM unit :=
  assert_not_paused >>>
  let caller := predecessor_account_id e in
  let project_id := project_id_of caller name in
  assert_project_name name >>>
  let! c := get_st in
  require (bool_decide (projects c !! project_id = None)) "Project already exists" >>>
  let! next := add64 (next_project_id c) 1 in
  modify (λ c, c <| next_project_id := next |>) >>>
  let uuid := uuid_of next in
  assert_code_source source >>>
  let version_key := get_version_key source in
  let project_storage := calculate_project_storage_size project_id uuid in
  let version_storage := calculate_version_storage_size source in
  let required_deposit := (project_storage + version_storage) * STORAGE_PRICE_PER_BYTE in
  require (required_deposit <=? attached_deposit e) "Insufficient storage deposit" >>>
  let project := mkProject uuid caller name version_key (block_timestamp e)
                   (project_storage * STORAGE_PRICE_PER_BYTE) in
  modify (λ c, c <| projects := <[project_id := project]> (projects c) |>) >>>
  let version_info := mkVersionInfo source (block_timestamp e)
                        (version_storage * STORAGE_PRICE_PER_BYTE) in
  modify (λ c, c <| project_versions :=
    <[uuid := <[version_key := version_info]> ∅]> (project_versions c) |>) >>>
  modify (λ c, c <| user_projects_index :=
    index_add (user_projects_index c) caller project_id |>) >>>
  transfer_if_positive caller (attached_deposit e - required_deposit).

Definition add_version (e : Env) (project_name : string) (source : CodeSource)
    (set_active : bool) : CM unit :=
  assert_not_paused >>>
  let caller := predecessor_account_id e in
  let project_id := project_id_of caller project_name in
  let! c := get_st in
  let! project := unwrap (projects c !! project_id) "Project not found" in
  require (bool_decide (proj_owner project = caller)) "Only project owner can add versions" >>>
  assert_code_source source >>>
  let version_key := get_version_key source in
  let required_deposit := calculate_version_storage_size source * STORAGE_PRICE_PER_BYTE in
  require (required_deposit <=? attached_deposit e) "Insufficient storage deposit" >>>
  let! versions := unwrap (project_versions c !! proj_uuid project) "Project versions not found" in
  require (bool_decide (versions !! version_key = None)) "Version already exists in project" >>>
  let version_info := mkVersionInfo source (block_timestamp e) required_deposit in
  modify (λ c, c <| project_versions :=
    <[proj_uuid project := <[version_key := version_info]> versions]> (project_versions c) |>) >>>
  (if set_active then
     modify (λ c, c <| projects :=
       <[project_id := project <| proj_active_version := version_key |>]> (projects c) |>)
   else ret tt) >>>
  transfer_if_positive caller (attached_deposit e - required_deposit).

Definition set_active_version (e : Env) (project_name version_key : string) : CM unit :=
  assert_no_deposit e >>>
  let caller := predecessor_account_id e in
  let project_id := project_id_of caller project_name in
  let! c := get_st in
  let! project := unwrap (projects c !! project_id) "Project not found" in
  require (bool_decide (proj_owner project = caller))
    "Only project owner can change active version" >>>
  let! versions := unwrap (project_versions c !! proj_uuid project) "Project versions not found" in
  require (bool_decide (is_Some (versions !! version_key))) "Version not found in project" >>>
  modify (λ c, c <| projects :=
    <[project_id := project <| proj_active_version := version_key |>]> (projects c) |>).

Definition remove_version (e : Env) (project_name version_key : string) : CM unit :=
  assert_no_deposit e >>>
  let caller := predecessor_account_id e in
  let project_id := project_id_of caller project_name in
  let! c := get_st in
  let! project := unwrap (projects c !! project_id) "Project not found" in
  require (bool_decide (proj_owner project = caller)) "Only project owner can remove versions" >>>
  require (bool_decide (proj_active_version project ≠ version_key))
    "Cannot remove active version. Switch to another version first." >>>
  let! versions := unwrap (project_versions c !! proj_uuid project) "Project versions not found" in
  let! version_info := unwrap (versions !! version_key) "Version not found" in
  modify (λ c, c <| project_versions :=
    <[proj_uuid project := delete version_key versions]> (project_versions c) |>) >>>
  transfer_if_positive caller (vi_storage_deposit version_info).

Definition delete_project (e : Env) (project_name : string) : CM unit :=
  assert_no_deposit e >>>
  let caller := predecessor_account_id e in
  let project_id := project_id_of caller project_name in
  let! c := get_st in
  let! project := unwrap (projects c !! project_id) "Project not found" in
  modify (λ c, c <| projects := delete project_id (projects c) |>) >>>
  require (bool_decide (proj_owner project = caller)) "Only project owner can delete project" >>>
  modify (λ c, c <| project_versions := delete (proj_uuid project) (project_versions c) |>) >>>
  modify (λ c, c <| user_projects_index :=
    index_remove (user_projects_index c) caller project_id |>) >>>
  transfer_if_positive caller (proj_storage_deposit project) >>>
  emit (ProjectStorageCleanup project_id (proj_uuid project)).

(** ** Transfer of ownership *)

(** The record is first written with a placeholder of the same size, so that
    the host can measure it, and then with the deposit. *)
Definition accept_project_transfer (e : Env) (from : AccountId) (name : string) : CM unit :=
  assert_not_paused >>>
  let caller := predecessor_account_id e in
  assert_project_name name >>>
  let! c := get_st in
  require (bool_decide (projects c !! project_id_of caller name = None))
    "Project already exists; a transfer onto that name would be refused" >>>
  let acceptance := mkAcceptance caller from name in
  require (bool_decide (project_transfer_acceptances c !! acceptance = None))
    "already accepted" >>>
  modify (λ c, c <| project_transfer_acceptances :=
    <[acceptance := 0]> (project_transfer_acceptances c) |>) >>>
  let bytes := acceptance_record_bytes e acceptance in
  let! required_deposit := mul128 bytes STORAGE_PRICE_PER_BYTE in
  require (required_deposit <=? attached_deposit e)
    "Insufficient storage deposit for the acceptance record" >>>
  modify (λ c, c <| project_transfer_acceptances :=
    <[acceptance := required_deposit]> (project_transfer_acceptances c) |>) >>>
  transfer_if_positive caller (attached_deposit e - required_deposit) >>>
  emit (System (EvProjectTransferAccepted caller from name)).

Definition revoke_project_transfer (e : Env) (from : AccountId) (name : string) : CM unit :=
  assert_no_deposit e >>>
  let caller := predecessor_account_id e in
  let acceptance := mkAcceptance caller from name in
  let! c := get_st in
  let! deposit := unwrap (project_transfer_acceptances c !! acceptance) "no acceptance" in
  modify (λ c, c <| project_transfer_acceptances :=
    delete acceptance (project_transfer_acceptances c) |>) >>>
  transfer_if_positive caller deposit >>>
  emit (System (EvProjectTransferRevoked caller from name)).

Definition transfer_project (e : Env) (project_name : string) (new_owner : AccountId) : CM unit :=
  assert_no_deposit e >>>
  let caller := predecessor_account_id e in
  let old_project_id := project_id_of caller project_name in
  let! c := get_st in
  require (bool_decide (project_pricing c !! old_project_id = None))
    "a priced project does not move" >>>
  let acceptance := mkAcceptance new_owner caller project_name in
  let! acceptance_deposit :=
    unwrap (project_transfer_acceptances c !! acceptance) "has not accepted project" in
  modify (λ c, c <| project_transfer_acceptances :=
    delete acceptance (project_transfer_acceptances c) |>) >>>
  let! project := unwrap (projects c !! old_project_id) "Project not found" in
  modify (λ c, c <| projects := delete old_project_id (projects c) |>) >>>
  require (bool_decide (proj_owner project = caller)) "Only project owner can transfer project" >>>
  let new_project_id := project_id_of new_owner project_name in
  let! c := get_st in
  require (bool_decide (projects c !! new_project_id = None)) "Project already exists" >>>
  let project := project <| proj_owner := new_owner |> in
  modify (λ c, c <| projects := <[new_project_id := project]> (projects c) |>) >>>
  modify (λ c, c <| user_projects_index :=
    index_remove (user_projects_index c) caller old_project_id |>) >>>
  modify (λ c, c <| user_projects_index :=
    index_add (user_projects_index c) new_owner new_project_id |>) >>>
  transfer_if_positive new_owner acceptance_deposit >>>
  emit (System (EvProjectTransferred old_project_id new_project_id (proj_uuid project)
                  caller new_owner)).

(** ** Views *)

Definition get_project (c : Contract) (project_id : string) : option Project :=
  projects c !! project_id.

Definition get_version (c : Contract) (project_id version_key : string)
    : option (CodeSource * Z * bool) :=
  project ← projects c !! project_id;
  versions ← project_versions c !! proj_uuid project;
  version ← versions !! version_key;
  Some (vi_source version, vi_added_at version,
        bool_decide (proj_active_version project = version_key)).

Definition has_project_uuid (c : Contract) (project_uuid : string) : bool :=
  bool_decide (is_Some (project_versions c !! project_uuid)).

Definition get_version_count (c : Contract) (project_id : string) : Z :=
  match projects c !! project_id with
  | None => 0
  | Some project =>
    from_option (λ vs, Z.of_nat (size vs)) 0 (project_versions c !! proj_uuid project)
  end.

Definition get_project_transfer_acceptance (c : Contract) (new_owner from : AccountId)
    (name : string) : option Z :=
  project_transfer_acceptances c !! mkAcceptance new_owner from name.

(** Record overhead (40), the map prefix (1), the borsh key (each field
    length-prefixed by four bytes) and the [u128] value (16). *)
Definition estimate_transfer_acceptance_cost (new_owner from : AccountId) (name : string) : Z :=
  let key_len := (4 + str_len new_owner) + (4 + str_len from) + (4 + str_len name) in
  (40 + 1 + key_len + 16) * STORAGE_PRICE_PER_BYTE.
End operations.

Lemma frame_not_paused `{Platform} {X} (f : Contract → X) : frame f assert_not_paused.
Proof. unfold assert_not_paused. solve_frame. Qed.
Lemma frame_code_source {C Act X} (f : C → X) source :
  frame f (assert_code_source (W := World C Act) source).
Proof. unfold assert_code_source. solve_frame. Qed.
Lemma frame_project_name {C Act X} (f : C → X) name :
  frame f (assert_project_name (W := World C Act) name).
Proof. unfold assert_project_name. solve_frame. Qed.
#[export] Hint Resolve frame_not_paused frame_code_source frame_project_name : near.

Lemma assert_not_paused_ok `{Platform} (w : CWorld) u w' :
  assert_not_paused w = Ok (u, w') → paused (st w) = false ∧ w' = w.
Proof. unfold assert_not_paused. intros Hr. minv. prop_bool. done. Qed.

Lemma assert_code_source_ok {W} source (w : W) u w' :
  assert_code_source source w = Ok (u, w') → code_source_error source = None ∧ w' = w.
Proof. unfold assert_code_source. destruct code_source_error; intros Hr; by minv. Qed.

Lemma assert_project_name_ok {W} name (w : W) u w' :
  assert_project_name name w = Ok (u, w') →
  (name ≠ "" ∧ str_len name ≤ 64 ∧ forall_bytes name_byte name = true) ∧ w' = w.
Proof.
  unfold assert_project_name. intros Hr. minv. prop_bool.
  split_and!; try done. by destruct name.
Qed.

Ltac pinv_step :=
  match goal with
  | H : assert_not_paused _ = Ok (_, ?w') |- _ =>
      apply assert_not_paused_ok in H; destruct H as [H ?]; subst_new w'
  | H : assert_code_source _ _ = Ok (_, ?w') |- _ =>
      apply assert_code_source_ok in H; destruct H as [H ?]; subst_new w'
  | H : assert_project_name _ _ = Ok (_, ?w') |- _ =>
      apply assert_project_name_ok in H; destruct H as [H ?]; subst_new w'
  end.
Ltac pinv := repeat first [minv_step | cinv_step | pinv_step]; cbn [st out] in *; prop_bool.

(** * Identifiers *)

Lemma uuid_of_inj a b :
  u64_ok a → u64_ok b → uuid_of a = uuid_of b → a = b.
Proof.
  intros Ha Hb H. widths. apply str_append_inj_l in H.
  by apply (hex_fixed_inj 16) in H.
Qed.

Lemma project_id_inj_name a n m : project_id_of a n = project_id_of a m → n = m.
Proof. unfold project_id_of. intros Hi. by do 2 apply str_append_inj_l in Hi. Qed.

(** * Index lemmas *)

Section index.
Context {K : Type} `{Countable K}.
Implicit Types idx : gmap AccountId (gset K).

Lemma elem_index_add idx who (k k' : K) a :
  k' ∈ default ∅ (index_add idx who k !! a) ↔
  (a = who ∧ k' = k) ∨ k' ∈ default ∅ (idx !! a).
Proof.
  unfold index_add. rewrite lookup_insert. case_decide; cbn; subst; set_solver.
Qed.

Lemma elem_index_remove idx who (k k' : K) a :
  k' ∈ default ∅ (index_remove idx who k !! a) ↔
  k' ∈ default ∅ (idx !! a) ∧ ¬ (a = who ∧ k' = k).
Proof.
  unfold index_remove. destruct (idx !! who) as [s|] eqn:E.
  - destruct (decide (a = who)) as [->|Hne].
    + rewrite E. cbn. case_decide as Hs.
      * rewrite lookup_delete_eq. cbn. set_solver.
      * rewrite lookup_insert_eq. cbn. set_solver.
    + case_decide; rewrite ?lookup_delete_ne, ?lookup_insert_ne by done; set_solver.
  - split; [|tauto]. intros Hk. split; [done|]. intros [-> ->].
    rewrite E in Hk. set_solver.
Qed.
End index.

(** * The registry invariant *)

Record reg_ok (ps : gmap string Project) (vs : gmap string (gmap string VersionInfo))
    (idx : gmap AccountId (gset string)) (next : Z) : Prop := {
  (* a project is filed under its owner's name and its own *)
  reg_id : ∀ pid p, ps !! pid = Some p → pid = project_id_of (proj_owner p) (proj_name p);
  (* its versions exist, the active one among them *)
  reg_active : ∀ pid p, ps !! pid = Some p →
    ∃ v, vs !! proj_uuid p = Some v ∧ is_Some (v !! proj_active_version p);
  (* a uuid belongs to one project *)
  reg_inj : ∀ pid pid' p p', ps !! pid = Some p → ps !! pid' = Some p' →
    proj_uuid p = proj_uuid p' → pid = pid';
  (* a version table belongs to a live project, and its uuid was handed out *)
  reg_live : ∀ u, is_Some (vs !! u) → ∃ pid p, ps !! pid = Some p ∧ proj_uuid p = u;
  reg_uuid : ∀ pid p, ps !! pid = Some p → ∃ n, 0 < n ≤ next ∧ proj_uuid p = uuid_of n;
  (* the index lists each owner's projects, and only those *)
  reg_index : ∀ a pid, pid ∈ default ∅ (idx !! a) ↔ ∃ p, ps !! pid = Some p ∧ proj_owner p = a;
  reg_next : 0 ≤ next < 2 ^ 64;
  (* no version is filed under an empty key *)
  reg_keys : ∀ u v, vs !! u = Some v → v !! "" = None;
}.

Definition registry (c : Contract) :=
  (projects c, project_versions c, user_projects_index c, next_project_id c).
Definition registry_ok (c : Contract) : Prop :=
  reg_ok (projects c) (project_versions c) (user_projects_index c) (next_project_id c).

Lemma registry_ok_frame c c' : registry c' = registry c → registry_ok c → registry_ok c'.
Proof. unfold registry, registry_ok. by intros [= -> -> -> ->]. Qed.

Section registry.
Implicit Types ps : gmap string Project.
Implicit Types vs : gmap string (gmap string VersionInfo).
Implicit Types idx : gmap AccountId (gset string).

Lemma reg_fresh_uuid ps vs idx next :
  reg_ok ps vs idx next → u64_ok (next + 1) →
  (∀ pid p, ps !! pid = Some p → proj_uuid p ≠ uuid_of (next + 1)) ∧
  vs !! uuid_of (next + 1) = None.
Proof.
  intros R Hn.
  assert (∀ pid p, ps !! pid = Some p → proj_uuid p ≠ uuid_of (next + 1)) as Hp.
  { intros pid p Hp. destruct (reg_uuid _ _ _ _ R pid p Hp) as (n & Hb & ->).
    intros Heq. apply uuid_of_inj in Heq; [lia| |done].
    widths. apply in_width_intro. lia. }
  split; [done|]. apply eq_None_not_Some. intros Hs.
  destruct (reg_live _ _ _ _ R _ Hs) as (pid & p & Hlk & Hu). by apply (Hp pid p).
Qed.

Lemma reg_create ps vs idx next p v :
  reg_ok ps vs idx next → u64_ok (next + 1) →
  ps !! project_id_of (proj_owner p) (proj_name p) = None →
  proj_uuid p = uuid_of (next + 1) → is_Some (v !! proj_active_version p) → v !! "" = None →
  reg_ok (<[project_id_of (proj_owner p) (proj_name p) := p]> ps)
    (<[uuid_of (next + 1) := v]> vs)
    (index_add idx (proj_owner p) (project_id_of (proj_owner p) (proj_name p)))
    (next + 1).
Proof.
  intros R Hn Hfree Hu Hv Hkey. destruct (reg_fresh_uuid _ _ _ _ R Hn) as [Hfp Hfv].
  set (pid := project_id_of _ _) in *.
  assert (∀ q p', <[pid:=p]> ps !! q = Some p' → (q = pid ∧ p' = p) ∨ (q ≠ pid ∧ ps !! q = Some p'))
    as Hcase.
  { intros q p'. rewrite lookup_insert. case_decide; naive_solver. }
  constructor.
  - intros q p' [[-> ->]|[_ Hq]]%Hcase; [done | by apply (reg_id _ _ _ _ R)].
  - intros q p' [[-> ->]|[_ Hq]]%Hcase.
    + exists v. rewrite Hu, lookup_insert_eq. done.
    + rewrite lookup_insert_ne by (intros E; by apply (Hfp q p')).
      by apply (reg_active _ _ _ _ R q).
  - intros q q' p1 p2 [[-> ->]|[_ Hq]]%Hcase [[-> ->]|[_ Hq']]%Hcase He; try done.
    + exfalso. apply (Hfp q' p2 Hq'). congruence.
    + exfalso. apply (Hfp q p1 Hq). congruence.
    + by eapply (reg_inj _ _ _ _ R).
  - intros u. rewrite lookup_insert. case_decide as Hd.
    + intros _. exists pid, p. rewrite lookup_insert_eq. subst. done.
    + intros Hs. destruct (reg_live _ _ _ _ R u Hs) as (q & p' & Hq & Hu').
      exists q, p'. rewrite lookup_insert_ne by congruence. done.
  - intros q p' [[-> ->]|[_ Hq]]%Hcase.
    + exists (next + 1). pose proof (reg_next _ _ _ _ R). split; [lia | done].
    + destruct (reg_uuid _ _ _ _ R q p' Hq) as (n & ? & ?). exists n. split; [lia | done].
  - intros a q. rewrite elem_index_add, (reg_index _ _ _ _ R). rewrite lookup_insert.
    case_decide as Hd; [subst q | naive_solver]. rewrite Hfree. naive_solver.
  - widths. pose proof (reg_next _ _ _ _ R). lia.
  - intros u x. rewrite lookup_insert. case_decide; [naive_solver | apply (reg_keys _ _ _ _ R)].
Qed.

(** Replacing a project by one of the same owner, name and uuid. *)
Lemma reg_update ps vs idx next pid p p' v :
  reg_ok ps vs idx next → ps !! pid = Some p →
  proj_uuid p' = proj_uuid p → proj_owner p' = proj_owner p → proj_name p' = proj_name p →
  is_Some (v !! proj_active_version p') → v !! "" = None →
  reg_ok (<[pid := p']> ps) (<[proj_uuid p := v]> vs) idx next.
Proof.
  intros R Hp Hu Ho Hna Hv Hkey.
  assert (∀ q q', <[pid:=p']> ps !! q = Some q' →
    (q = pid ∧ q' = p') ∨ (q ≠ pid ∧ ps !! q = Some q')) as Hcase.
  { intros q q'. rewrite lookup_insert. case_decide; naive_solver. }
  assert (∀ q q', <[pid:=p']> ps !! q = Some q' → ∃ r, ps !! q = Some r ∧
    proj_uuid q' = proj_uuid r ∧ proj_owner q' = proj_owner r ∧ proj_name q' = proj_name r)
    as Hold.
  { intros q q' [[-> ->]|[_ Hq]]%Hcase; [by exists p | by exists q']. }
  constructor.
  - intros q q' (r & Hr & _ & -> & ->)%Hold. by apply (reg_id _ _ _ _ R).
  - intros q q' [[-> ->]|[Hne Hq]]%Hcase.
    + exists v. rewrite Hu, lookup_insert_eq. done.
    + rewrite lookup_insert_ne; [by apply (reg_active _ _ _ _ R q)|].
      intros E. apply Hne. by apply (reg_inj _ _ _ _ R q pid q' p).
  - intros q1 q2 p1 p2 (r1 & Hr1 & -> & _)%Hold (r2 & Hr2 & -> & _)%Hold.
    by apply (reg_inj _ _ _ _ R).
  - intros u. rewrite lookup_insert. case_decide as Hd.
    + intros _. exists pid, p'. rewrite lookup_insert_eq. split; congruence.
    + intros Hs. destruct (reg_live _ _ _ _ R u Hs) as (q & q' & Hq & Hu').
      exists q, q'. rewrite lookup_insert_ne by congruence. done.
  - intros q q' (r & Hr & -> & _)%Hold. by apply (reg_uuid _ _ _ _ R q).
  - intros a q. rewrite (reg_index _ _ _ _ R). rewrite lookup_insert.
    case_decide as Hd; [subst q | done]. rewrite Hp. naive_solver.
  - apply (reg_next _ _ _ _ R).
  - intros u x. rewrite lookup_insert. case_decide; [naive_solver | apply (reg_keys _ _ _ _ R)].
Qed.

Lemma reg_delete ps vs idx next pid p :
  reg_ok ps vs idx next → ps !! pid = Some p →
  reg_ok (delete pid ps) (delete (proj_uuid p) vs) (index_remove idx (proj_owner p) pid) next.
Proof.
  intros R Hp.
  assert (∀ q q', delete pid ps !! q = Some q' → q ≠ pid ∧ ps !! q = Some q') as Hcase.
  { intros q q' [? ?]%lookup_delete_Some. done. }
  constructor.
  - intros q q' [_ Hq]%Hcase. by apply (reg_id _ _ _ _ R).
  - intros q q' [Hne Hq]%Hcase.
    rewrite lookup_delete_ne; [by apply (reg_active _ _ _ _ R q)|].
    intros E. apply Hne. by apply (reg_inj _ _ _ _ R q pid q' p).
  - intros q1 q2 p1 p2 [_ H1]%Hcase [_ H2]%Hcase. by apply (reg_inj _ _ _ _ R).
  - intros u [v [Hne Hs]%lookup_delete_Some].
    destruct (reg_live _ _ _ _ R u ltac:(by eexists)) as (q & q' & Hq & Hu').
    exists q, q'. rewrite lookup_delete_ne by congruence. done.
  - intros q q' [_ Hq]%Hcase. by apply (reg_uuid _ _ _ _ R q).
  - intros a q. rewrite elem_index_remove, (reg_index _ _ _ _ R).
    destruct (decide (q = pid)) as [->|Hne].
    + rewrite lookup_delete_eq, Hp. naive_solver.
    + rewrite lookup_delete_ne by done. naive_solver.
  - apply (reg_next _ _ _ _ R).
  - intros u x [_ Hx]%lookup_delete_Some. by apply (reg_keys _ _ _ _ R u).
Qed.

(** Moving a project to a free name of a new owner. *)
Lemma reg_move ps vs idx next p a :
  let old := project_id_of (proj_owner p) (proj_name p) in
  let new := project_id_of a (proj_name p) in
  let p' := p <| proj_owner := a |> in
  reg_ok ps vs idx next → ps !! old = Some p → delete old ps !! new = None →
  reg_ok (<[new := p']> (delete old ps)) vs
    (index_add (index_remove idx (proj_owner p) old) a new) next.
Proof.
  intros old new p' R Hp Hfree.
  assert (∀ q q', <[new:=p']> (delete old ps) !! q = Some q' →
    (q = new ∧ q' = p') ∨ (q ≠ new ∧ q ≠ old ∧ ps !! q = Some q')) as Hcase.
  { intros q q'. rewrite lookup_insert. case_decide; [naive_solver|].
    intros [? ?]%lookup_delete_Some. naive_solver. }
  constructor.
  - intros q q' [[-> ->]|(_ & _ & Hq)]%Hcase; [done | by apply (reg_id _ _ _ _ R)].
  - intros q q' [[-> ->]|(_ & _ & Hq)]%Hcase; [exact (reg_active _ _ _ _ R old p Hp) |].
    by apply (reg_active _ _ _ _ R q).
  - intros q1 q2 p1 p2 [[-> ->]|(Hn1 & Ho1 & H1)]%Hcase [[-> ->]|(Hn2 & Ho2 & H2)]%Hcase He;
      try done.
    + exfalso. apply Ho2. by apply (reg_inj _ _ _ _ R q2 old p2 p).
    + exfalso. apply Ho1. by apply (reg_inj _ _ _ _ R q1 old p1 p).
    + by eapply (reg_inj _ _ _ _ R).
  - intros u Hs. destruct (reg_live _ _ _ _ R u Hs) as (q & q' & Hq & Hu).
    destruct (decide (q = old)) as [->|Hne].
    + exists new, p'. rewrite lookup_insert_eq. split; [done|]. cbn. congruence.
    + exists q, q'. rewrite lookup_insert_ne, lookup_delete_ne; [done | done |].
      intros ->. rewrite lookup_delete_ne in Hfree by done. congruence.
  - intros q q' [[-> ->]|(_ & _ & Hq)]%Hcase; [exact (reg_uuid _ _ _ _ R old p Hp) |].
    by apply (reg_uuid _ _ _ _ R q).
  - intros b q. rewrite elem_index_add, elem_index_remove, (reg_index _ _ _ _ R).
    rewrite lookup_insert. case_decide as Hd.
    + subst q. destruct (decide (new = old)) as [E|Hne].
      * rewrite E, Hp. naive_solver.
      * rewrite lookup_delete_ne in Hfree by done. rewrite Hfree. naive_solver.
    + destruct (decide (q = old)) as [->|Hne].
      * rewrite lookup_delete_eq, Hp. naive_solver.
      * rewrite lookup_delete_ne by done. naive_solver.
  - apply (reg_next _ _ _ _ R).
  - apply (reg_keys _ _ _ _ R).
Qed.
End registry.

(** * Every operation keeps the registry *)

Section preservation.
Context `{Platform}.

(** A source that passes the rule is filed under a key that is not empty. *)
Lemma version_key_nonempty source :
  code_source_error source = None → get_version_key source ≠ "".
Proof.
  destruct source as [repo commit t|url hash t]; cbn [get_version_key].
  - intros _ Hk. apply (f_equal str_len) in Hk. rewrite !str_len_append in Hk. cbn in Hk.
    pose proof (str_len_nonneg repo). pose proof (str_len_nonneg commit).
    change (str_len "@") with 1 in Hk. change (str_len "") with 0 in Hk. lia.
  - intros Hc ->. discriminate Hc.
Qed.

Lemma create_project_registry e name source w u w' :
  registry_ok (st w) → create_project e name source w = Ok (u, w') → registry_ok (st w').
Proof.
  unfold create_project. intros R Hr. pinv.
  apply (reg_create _ _ _ _ (mkProject _ _ name _ _ _)); try done.
  - cbn. by rewrite lookup_insert_eq.
  - rewrite lookup_insert_ne; [apply lookup_empty | by apply version_key_nonempty].
Qed.

Lemma add_version_registry e name source b w u w' :
  registry_ok (st w) → add_version e name source b w = Ok (u, w') → registry_ok (st w').
Proof.
  unfold add_version. intros R Hr. pinv.
  match goal with Hs : code_source_error _ = None, Hv : project_versions _ !! _ = Some ?v |- _ =>
    assert (∀ x, <[get_version_key source := x]> v !! "" = None) as Hkey
      by (intros; rewrite lookup_insert_ne; [by apply (reg_keys _ _ _ _ R _ _ Hv) | by apply version_key_nonempty])
  end.
  destruct b; pinv.
  - apply (reg_update _ _ _ _ _ a1); try done. cbn. by rewrite lookup_insert_eq.
  - unfold registry_ok. cbn. rewrite <- (insert_id (projects (st w)) _ a1) by done.
    apply (reg_update _ _ _ _ _ a1); try done.
    destruct (reg_active _ _ _ _ R _ _ H1) as (v & Hv & Ha).
    assert (v = a5) as -> by congruence.
    rewrite lookup_insert. case_decide; done.
Qed.

(** A project replaced, its version table untouched. *)
Lemma registry_update c pid p p' v :
  registry_ok c → projects c !! pid = Some p →
  project_versions c !! proj_uuid p = Some v →
  proj_uuid p' = proj_uuid p → proj_owner p' = proj_owner p → proj_name p' = proj_name p →
  is_Some (v !! proj_active_version p') →
  registry_ok (c <| projects := <[pid := p']> (projects c) |>).
Proof.
  intros R Hp Hv Hu Ho Hn Ha. unfold registry_ok. cbn.
  rewrite <- (insert_id (project_versions c) (proj_uuid p) v) by done.
  apply (reg_update _ _ _ _ _ p); try done. by apply (reg_keys _ _ _ _ R _ _ Hv).
Qed.

Lemma set_active_version_registry e name key w u w' :
  registry_ok (st w) → set_active_version e name key w = Ok (u, w') → registry_ok (st w').
Proof.
  unfold set_active_version. intros R Hr. pinv. by eapply registry_update.
Qed.

Lemma remove_version_registry e name key w u w' :
  registry_ok (st w) → remove_version e name key w = Ok (u, w') → registry_ok (st w').
Proof.
  unfold remove_version. intros R Hr. pinv.
  destruct (reg_active _ _ _ _ R _ _ H1) as (v & Hv & Ha).
  unfold registry_ok. cbn. rewrite <- (insert_id (projects (st w)) _ a1) by done.
  apply (reg_update _ _ _ _ _ a1); try done.
  - rewrite lookup_delete_ne by done. congruence.
  - rewrite lookup_delete. case_decide; [done|]. by eapply (reg_keys _ _ _ _ R).
Qed.

Lemma delete_project_registry e name w u w' :
  registry_ok (st w) → delete_project e name w = Ok (u, w') → registry_ok (st w').
Proof.
  unfold delete_project. intros R Hr. pinv. unfold registry_ok; cbn.
  pose proof (reg_delete _ _ _ _ _ _ R H1) as R'. by rewrite H4 in R'.
Qed.

Lemma accept_project_transfer_frame e from name :
  frame registry (accept_project_transfer e from name).
Proof. unfold accept_project_transfer. solve_frame. Qed.

Lemma revoke_project_transfer_frame e from name :
  frame registry (revoke_project_transfer e from name).
Proof. unfold revoke_project_transfer. solve_frame. Qed.

Lemma transfer_project_registry e name new_owner w u w' :
  registry_ok (st w) → transfer_project e name new_owner w = Ok (u, w') → registry_ok (st w').
Proof.
  unfold transfer_project. intros R Hr. pinv. unfold registry_ok; cbn in *.
  pose proof (reg_id _ _ _ _ R _ _ H5) as Hid. rewrite H7 in Hid.
  apply project_id_inj_name in Hid. subst name.
  pose proof (reg_move _ _ _ _ a4 new_owner R) as Hmv. cbv zeta in Hmv.
  rewrite H7 in Hmv. by apply Hmv.
Qed.
End preservation.

(** * Claims *)

Section claims.
Context `{Platform}.
#[local] Arguments uuid_of : simpl never.
#[local] Arguments calculate_project_storage_size : simpl never.
#[local] Arguments calculate_version_storage_size : simpl never.
#[local] Arguments Z.mul : simpl never.

(** A project is created once, under a fresh uuid, from a source that passes
    the rule, with its first version active; what was attached is the deposits
    of the project and the version plus what goes back to the caller. *)
Theorem create_project_exact e name source w u w' :
  registry_ok (st w) → create_project e name source w = Ok (u, w') →
  let caller := predecessor_account_id e in
  let pid := project_id_of caller name in
  ∃ p v, projects (st w) !! pid = None ∧ get_project (st w') pid = Some p ∧
    has_project_uuid (st w) (proj_uuid p) = false ∧
    proj_owner p = caller ∧ proj_name p = name ∧
    project_versions (st w') !! proj_uuid p = Some {[ proj_active_version p := v ]} ∧
    vi_source v = source ∧ code_source_error source = None ∧
    transferred_to caller (out w') = transferred_to caller (out w)
      + (attached_deposit e - proj_storage_deposit p - vi_storage_deposit v).
Proof.
  unfold create_project. intros R Hr. pinv. cbv zeta.
  destruct (reg_fresh_uuid _ _ _ _ R H4) as [_ Hfv].
  assert (has_project_uuid (st w) (uuid_of (next_project_id (st w) + 1)) = false)
    by (unfold has_project_uuid; by rewrite Hfv).
  eexists _, _. split_and!; [done | apply lookup_insert_eq | | done | done | | | done |]; cbn.
  - done.
  - apply lookup_insert_eq.
  - done.
  - rewrite transferred_to_app, transferred_to_refund by lia.
    cbn [vi_storage_deposit]. lia.
Qed.

(** A project changes hands only when its owner sends it and the receiver
    accepted exactly that name from that owner; a priced one does not move.  It
    arrives with its uuid, versions and active version unchanged, the old id is
    free, the acceptance is spent and its deposit goes to the receiver. *)
Theorem transfer_needs_both_sides e name new_owner w u w' :
  registry_ok (st w) → transfer_project e name new_owner w = Ok (u, w') →
  let caller := predecessor_account_id e in
  let old := project_id_of caller name in
  let new := project_id_of new_owner name in
  ∃ p d, projects (st w) !! old = Some p ∧ proj_owner p = caller ∧
    project_pricing (st w) !! old = None ∧
    get_project_transfer_acceptance (st w) new_owner caller name = Some d ∧
    get_project_transfer_acceptance (st w') new_owner caller name = None ∧
    get_project (st w') new = Some (p <| proj_owner := new_owner |>) ∧
    (new ≠ old → get_project (st w') old = None) ∧
    project_versions (st w') = project_versions (st w) ∧
    (∀ i, i ≠ old → i ≠ new → projects (st w') !! i = projects (st w) !! i).
Proof.
  unfold transfer_project. intros R Hr. pinv. cbv zeta.
  eexists _, _. split_and!; try eassumption; try done; cbn.
  - apply lookup_delete_eq.
  - apply lookup_insert_eq.
  - intros Hne. unfold get_project. cbn. rewrite lookup_insert_ne by done. apply lookup_delete_eq.
  - intros i Hi Hi'. rewrite lookup_insert_ne, lookup_delete_ne by done. done.
Qed.

(** Deleting a project removes it, all its versions and its index entry, and
    pays back the project's own deposit only: the deposits its versions hold
    are not returned. *)
Theorem delete_project_effect e name w u w' :
  registry_ok (st w) → delete_project e name w = Ok (u, w') →
  let caller := predecessor_account_id e in
  let pid := project_id_of caller name in
  ∃ p, projects (st w) !! pid = Some p ∧ proj_owner p = caller ∧
    get_project (st w') pid = None ∧ has_project_uuid (st w') (proj_uuid p) = false ∧
    ¬ (pid ∈ default ∅ (user_projects_index (st w') !! caller)) ∧
    (0 ≤ proj_storage_deposit p →
     transferred (out w') = transferred (out w) + proj_storage_deposit p).
Proof.
  unfold delete_project. intros R Hr. pinv. cbv zeta.
  eexists. split_and!; try eassumption; cbn.
  - apply lookup_delete_eq.
  - unfold has_project_uuid. cbn. rewrite lookup_delete_eq. apply bool_decide_eq_false. by intros [].
  - rewrite elem_index_remove. naive_solver.
  - intros Hd. rewrite !transferred_app, transferred_refund by done. cbn. lia.
Qed.
End claims.

Lemma reg_empty : reg_ok ∅ ∅ ∅ 0.
Proof.
  constructor; intros *; rewrite ?lookup_empty; cbn; try done; try (by intros []).
  split; [set_solver | by intros (p & ? & _)].
Qed.

(** * The claims on a concrete deployment *)

#[local] Existing Instance sample_platform.

Definition app_source : CodeSource := GitHub "github.com/acme/app" "main" None.
Definition with_app : CWorld :=
  ran (create_project (sample_env "acme.near" ONE_NEAR 5) "app" app_source) (start sample_contract).
Definition with_offer : CWorld :=
  ran (accept_project_transfer (sample_env "bob.near" ONE_NEAR 6) "acme.near" "app") with_app.

Lemma with_app_registry : registry_ok (st with_app).
Proof.
  eapply (create_project_registry _ _ _ (start sample_contract)); [exact reg_empty|].
  apply ran_ok. vm_compute. reflexivity.
Qed.

Lemma with_offer_registry : registry_ok (st with_offer).
Proof.
  apply (registry_ok_frame (st with_app)); [|exact with_app_registry].
  apply (accept_project_transfer_frame (sample_env "bob.near" ONE_NEAR 6) "acme.near" "app"
    with_app tt). apply ran_ok. vm_compute. reflexivity.
Qed.

Lemma create_project_exact_witness :
  ∃ p, get_project (st with_app) "acme.near/app" = Some p ∧ proj_name p = "app".
Proof.
  destruct (create_project_exact (sample_env "acme.near" ONE_NEAR 5) "app" app_source
    (start sample_contract) tt with_app) as (p & v & _ & Hp & _ & _ & Hn & _).
  - exact reg_empty.
  - apply ran_ok. vm_compute. reflexivity.
  - by exists p.
Defined.

Lemma transfer_needs_both_sides_witness :
  let send := transfer_project (sample_env "acme.near" 0 7) "app" "bob.near" in
  ∃ p, get_project (st (ran send with_offer)) "bob.near/app" = Some p ∧ proj_owner p = "bob.near".
Proof.
  cbv zeta.
  destruct (transfer_needs_both_sides (sample_env "acme.near" 0 7) "app" "bob.near" with_offer tt
    (ran (transfer_project (sample_env "acme.near" 0 7) "app" "bob.near") with_offer))
    as (p & d & _ & _ & _ & _ & _ & Hp & _).
  - exact with_offer_registry.
  - apply ran_ok. vm_compute. reflexivity.
  - by eexists.
Defined.

Lemma delete_project_effect_witness :
  get_project (st (ran (delete_project (sample_env "acme.near" 0 8) "app") with_app))
    "acme.near/app" = None.
Proof.
  destruct (delete_project_effect (sample_env "acme.near" 0 8) "app" with_app tt
    (ran (delete_project (sample_env "acme.near" 0 8) "app") with_app)) as (p & _ & _ & Hn & _).
  - exact with_app_registry.
  - apply ran_ok. vm_compute. reflexivity.
  - exact Hn.
Defined.
