(* ===== verification/Secrets.v ===== *)
(** Secrets (contract/src/secrets.rs) and the payment-key nonce floor
    (contract/src/payment.rs): the bounds on an access condition, the one spelling
    a secret is stored under, the store, delete and update doors with their
    deposits, and the views the keystore reads. *)

From S2P Require Export Projects Messages Samples.

(** * Bounds on a condition *)

Definition MAX_ACCOUNT_PATTERNS : Z := 16.
Definition MAX_ACCOUNT_PATTERN_BYTES : Z := 4096.
Definition MAX_CHAIN_READ_LEAVES : Z := 5.

Definition add3 (x y : Z * Z * Z) : Z * Z * Z :=
  let '(a, b, c) := x in let '(a', b', c') := y in (a + a', b + b', c + c').

(** (AccountPattern leaves, bytes of pattern text, leaves that ask the chain). *)
Fixpoint condition_leaf_count (access : AccessCondition) : Z * Z * Z :=
  match access with
  | AccountPattern pattern => (1, str_len pattern, 0)
  | NearBalance _ _ | FtBalance _ _ _ | NftOwned _ _ | DaoMember _ _ => (0, 0, 1)
  | Logic _ conditions => fold_left add3 (map condition_leaf_count conditions) (0, 0, 0)
  | NotCond condition | Predecessor condition => condition_leaf_count condition
  | AllowAll | Whitelist _ | ValidUntil _ | WasmHashIs _ => (0, 0, 0)
  end.

Definition is_wasm_hash (hash : string) : bool :=
  (str_len hash =? 64) && forall_bytes is_lower_hex hash.

Fixpoint wasm_hash_leaves_ok (access : AccessCondition) : bool :=
  match access with
  | WasmHashIs hash => is_wasm_hash hash
  | Logic _ conditions => forallb wasm_hash_leaves_ok conditions
  | NotCond condition | Predecessor condition => wasm_hash_leaves_ok condition
  | _ => true
  end.

Fixpoint logic_is_not_empty (access : AccessCondition) : bool :=
  match access with
  | Logic _ conditions =>
    match conditions with [] => false | _ => forallb logic_is_not_empty conditions end
  | NotCond condition | Predecessor condition => logic_is_not_empty condition
  | _ => true
  end.

Definition assert_condition_bounds {W} (access : AccessCondition) : M W unit :=
  let '(leaves, bytes, chain_reads) := condition_leaf_count access in
  require (leaves <=? MAX_ACCOUNT_PATTERNS) "too many AccountPattern leaves" >>>
  require (bytes <=? MAX_ACCOUNT_PATTERN_BYTES) "too much AccountPattern text" >>>
  require (chain_reads <=? MAX_CHAIN_READ_LEAVES) "the condition asks the chain too often" >>>
  require (wasm_hash_leaves_ok access)
    "a WasmHash condition must be the SHA-256 of the build as 64 lowercase hex characters" >>>
  require (logic_is_not_empty access) "a Logic condition must hold at least one condition".

(** * Spelling *)

Definition is_implicit_account_name (name : string) : bool :=
  (str_len name =? 64) && forall_bytes is_lower_hex name.

Definition canonical_accessor `{Unicode} (accessor : SecretAccessor) : SecretAccessor :=
  match accessor with
  | AccWasmHash hash => AccWasmHash (to_lowercase hash)
  | other => other
  end.

Definition canonical_profile (accessor : SecretAccessor) (profile : string) : string :=
  match accessor with
  | AccSystem PaymentKey =>
    match parse_u32 profile with
    | Some nonce => uint_to_string nonce
    | None => profile
    end
  | _ => profile
  end.

Definition PROFILE_MAX_BYTES : Z := 64.

Definition profile_shape_error `{Unicode} (profile : string) : option string :=
  let n := str_len profile in
  if negb ((1 <=? n) && (n <=? PROFILE_MAX_BYTES)) then
    Some ("got " +:+ uint_to_string n +:+ " bytes")
  else if forallb (λ c, char_is_alphanumeric c || (c =? ch_dash) || (c =? ch_underscore))
            (str_chars profile)
  then None else Some "it contains another character".

Definition assert_profile_is_unambiguous {W} (profile : string) : M W unit :=
  require (negb (has_byte ch_colon profile)) "profile must not contain ':'".

Definition assert_profile_shape {W} `{Unicode} (profile : string) : M W unit :=
  match profile_shape_error profile with
  | Some why => panic ("profile must be 1-64 bytes of letters, digits, '-' or '_' (" +:+ why +:+ ")")
  | None => ret tt
  end.

(** * The payment-key nonce floor (contract/src/payment.rs) *)

Definition nonce_floor_entry_bytes (owner : AccountId) : Z := 40 + 1 + 4 + str_len owner + 4.

Definition payment_key_nonce_floor (c : Contract) (owner : AccountId) : Z :=
  default 0 (payment_key_nonce_floors c !! owner).

Definition raise_payment_key_nonce_floor (owner : AccountId) (nonce : Z) (c : Contract) : Contract :=
  if match payment_key_nonce_floors c !! owner with Some floor => floor <? nonce | None => true end
  then c <| payment_key_nonce_floors := <[owner := nonce]> (payment_key_nonce_floors c) |>
  else c.

Definition nonce_floor_deposit (c : Contract) (owner : AccountId) : Z :=
  match payment_key_nonce_floors c !! owner with
  | Some _ => 0
  | None => nonce_floor_entry_bytes owner * STORAGE_PRICE_PER_BYTE
  end.

(** * Storage size of a secret *)

Definition accessor_size (a : SecretAccessor) : Z :=
  match a with
  | AccRepo repo branch => 1 + (4 + str_len repo) + 1 + from_option (λ b, 4 + str_len b) 0 branch
  | AccWasmHash hash => 1 + (4 + str_len hash)
  | AccProject project_id => 1 + (4 + str_len project_id)
  | AccSystem _ => 1 + 1
  end.

Definition calculate_secret_storage_size `{Platform} (key : SecretKey) (encrypted_secrets : string)
    (access : AccessCondition) (vault_bound : bool) : Z :=
  let key_size := accessor_size (sk_accessor key) + (4 + str_len (sk_profile key))
                  + (4 + str_len (sk_owner key)) in
  let encrypted_size := 4 + str_len encrypted_secrets in
  let access_size := str_len (json_of_access access) + 10 in
  let value_size := encrypted_size + access_size + (8 + 8 + 16) in
  let binding_overhead := if vault_bound then 40 + key_size + 4 + 64 else 0 in
  40 + key_size + value_size + 64 + binding_overhead.

Definition is_payment_key (a : SecretAccessor) : bool :=
  match a with AccSystem PaymentKey => true | _ => false end.

(** * Doors *)

Section doors.
Context `{Platform}.

Definition check_accessor (c : Contract) (accessor : SecretAccessor) (profile : string) : CM unit :=
  match accessor with
  | AccRepo repo branch =>
    require (negb (str_is_empty repo)) "Repository cannot be empty" >>>
    match branch with
    | Some b =>
      require (negb (str_is_empty b)) "Branch name cannot be empty if provided" >>>
      require (str_len b <=? 255) "Branch name too long (max 255 chars)"
    | None => ret tt
    end
  | AccWasmHash hash =>
    require (negb (str_is_empty hash)) "WASM hash cannot be empty" >>>
    require (str_len hash =? 64) "WASM hash must be 64 hex characters (SHA256)" >>>
    require (forall_bytes is_ascii_hexdigit hash) "WASM hash must be hex encoded"
  | AccProject project_id =>
    require (negb (str_is_empty project_id)) "Project ID cannot be empty" >>>
    require (has_byte ch_slash project_id) "Project ID must be in format 'owner.near/name'" >>>
    require (bool_decide (is_Some (projects c !! project_id))) "Project does not exist"
  | AccSystem PaymentKey =>
    let! nonce := unwrap (parse_u32 profile)
      "A payment key's profile is its nonce and must be a number" in
    require (1 <=? nonce) "Payment key nonce 0 is reserved" >>>
    require (nonce <=? 2147483647) "Payment key nonce is too large (maximum 2147483647)"
  end.

(** The deposit taken for a payment key's floor entry, after the nonce is
    checked against the floor. *)
Definition check_nonce_floor (c : Contract) (owner : AccountId) (accessor : SecretAccessor)
    (profile : string) : CM Z :=
  if is_payment_key accessor then
    let! nonce := unwrap (parse_u32 profile) "PaymentKey profile must be a valid u32 nonce" in
    require (payment_key_nonce_floor c owner <? nonce)
      "Payment key nonce has already been used by this account" >>>
    ret (nonce_floor_deposit c owner)
  else ret 0.

(** Deposit arithmetic of a store: an update counts what the row already holds. *)
Definition settle_store_deposit (e : Env) (payer : AccountId) (existing : option SecretProfile)
    (required_deposit floor_deposit : Z) : CM unit :=
  match existing with
  | Some existing =>
    let! total_available := add128 (attached_deposit e) (sp_storage_deposit existing) in
    require (required_deposit <=? total_available) "Insufficient deposit for update" >>>
    transfer_if_positive payer (total_available - required_deposit)
  | None =>
    let! charged := add128 required_deposit floor_deposit in
    require (charged <=? attached_deposit e) "Insufficient storage deposit" >>>
    transfer_if_positive payer (attached_deposit e - charged)
  end.

(** The row, its vault binding, and the owner's index when the row is new. *)
Definition write_row (key : SecretKey) (profile_data : SecretProfile)
    (vault_id : option AccountId) (is_new : bool) : CM unit :=
  modify (λ c, c <| secrets_storage := <[key := profile_data]> (secrets_storage c) |>) >>>
  (match vault_id with
   | Some v => modify (λ c, c <| secret_vault_bindings := <[key := v]> (secret_vault_bindings c) |>)
   | None => ret tt
   end) >>>
  if is_new then
    modify (λ c, c <| user_secrets_index :=
      index_add (user_secrets_index c) (sk_owner key) key |>)
  else ret tt.

Definition store_secrets_internal (e : Env) (owner payer : AccountId) (accessor : SecretAccessor)
    (profile encrypted_secrets_base64 : string) (access : AccessCondition)
    (vault_id : option AccountId) : CM unit :=
  let accessor := canonical_accessor accessor in
  let profile := canonical_profile accessor profile in
  assert_condition_bounds access >>>
  let! c := get_st in
  check_accessor c accessor profile >>>
  assert_profile_shape profile >>>
  require (negb (str_is_empty encrypted_secrets_base64)) "Encrypted secrets cannot be empty" >>>
  require (negb (is_implicit_account_name profile) || bool_decide (profile = owner))
    "A profile of 64 hex characters names an AGENT" >>>
  let key := mkSecretKey accessor profile owner in
  let vault_bound_after_call :=
    bool_decide (is_Some vault_id) || bool_decide (is_Some (secret_vault_bindings c !! key)) in
  let required_deposit :=
    calculate_secret_storage_size key encrypted_secrets_base64 access vault_bound_after_call
    * STORAGE_PRICE_PER_BYTE in
  let is_new := bool_decide (secrets_storage c !! key = None) in
  require (is_new || negb (is_payment_key accessor))
    "Payment key already exists for this nonce" >>>
  let! floor_deposit := check_nonce_floor c owner accessor profile in
  settle_store_deposit e payer (secrets_storage c !! key) required_deposit floor_deposit >>>
  let profile_data := mkSecretProfile encrypted_secrets_base64 access
    (block_timestamp e) (block_timestamp e) required_deposit in
  write_row key profile_data vault_id is_new >>>
  if is_payment_key accessor then
    let! nonce := unwrap (parse_u32 profile) "PaymentKey profile must be a valid u32 nonce" in
    modify (raise_payment_key_nonce_floor owner nonce) >>>
    emit (System (EvTopUpPaymentKey "" owner nonce 0 encrypted_secrets_base64))
  else ret tt.

Definition delete_secrets_internal (key : SecretKey) (owner refund_to : AccountId) : CM unit :=
  let! c := get_st in
  let! profile_data := unwrap (secrets_storage c !! key) "Secrets not found" in
  modify (λ c, c <| secrets_storage := delete key (secrets_storage c) |>) >>>
  modify (λ c, c <| secret_vault_bindings := delete key (secret_vault_bindings c) |>) >>>
  modify (λ c, c <| user_secrets_index := index_remove (user_secrets_index c) owner key |>) >>>
  transfer_if_positive refund_to (sp_storage_deposit profile_data).

Definition store_secrets (e : Env) (accessor : SecretAccessor)
    (profile encrypted_secrets_base64 : string) (access : AccessCondition)
    (vault_id : option AccountId) : CM unit :=
  let caller := predecessor_account_id e in
  store_secrets_internal e caller caller accessor profile encrypted_secrets_base64 access vault_id.

Definition store_agent_secret (e : Env) (agent_pubkey : string) (accessor : SecretAccessor)
    (profile encrypted_secrets_base64 : string) (access : AccessCondition)
    (vault_id : option AccountId) (wallet_signature : string) : CM unit :=
  let payer := predecessor_account_id e in
  let! owner := implicit_account_of agent_pubkey in
  let accessor := canonical_accessor accessor in
  let profile := canonical_profile accessor profile in
  assert_profile_shape profile >>>
  assert_profile_is_unambiguous profile >>>
  require (match accessor with AccRepo _ _ => false | _ => true end)
    "GitHub repositories are not supported for agent secrets" >>>
  require (match accessor with AccSystem _ => false | _ => true end)
    "A payment key is not an agent secret" >>>
  let message := secret_store_message agent_pubkey accessor profile encrypted_secrets_base64
                   payer vault_id access in
  verify_wallet_signature agent_pubkey (sha256 message) wallet_signature >>>
  store_secrets_internal e owner payer accessor profile encrypted_secrets_base64 access vault_id.

Definition delete_agent_secret (e : Env) (agent_pubkey : string) (accessor : SecretAccessor)
    (profile wallet_signature : string) : CM unit :=
  assert_no_deposit e >>>
  let payer := predecessor_account_id e in
  let! owner := implicit_account_of agent_pubkey in
  let accessor := canonical_accessor accessor in
  let profile := canonical_profile accessor profile in
  assert_profile_is_unambiguous profile >>>
  require (match accessor with AccProject _ | AccWasmHash _ => true | _ => false end)
    "delete_agent_secret removes an agent SECRET" >>>
  let message := secret_delete_message agent_pubkey accessor profile payer in
  verify_wallet_signature agent_pubkey (sha256 message) wallet_signature >>>
  delete_secrets_internal (mkSecretKey accessor profile owner) owner payer.

Definition delete_secrets (e : Env) (accessor : SecretAccessor) (profile : string) : CM unit :=
  assert_no_deposit e >>>
  let caller := predecessor_account_id e in
  let accessor := canonical_accessor accessor in
  let profile := canonical_profile accessor profile in
  delete_secrets_internal (mkSecretKey accessor profile caller) caller caller.

Definition unbind_secret_vault (e : Env) (accessor : SecretAccessor) (profile : string) : CM unit :=
  assert_no_deposit e >>>
  let accessor := canonical_accessor accessor in
  let profile := canonical_profile accessor profile in
  let key := mkSecretKey accessor profile (predecessor_account_id e) in
  let! c := get_st in
  require (bool_decide (is_Some (secrets_storage c !! key)))
    "secret not found or not owned by caller" >>>
  modify (λ c, c <| secret_vault_bindings := delete key (secret_vault_bindings c) |>).

Definition update_access (e : Env) (accessor : SecretAccessor) (profile : string)
    (new_access : AccessCondition) : CM unit :=
  let caller := predecessor_account_id e in
  let accessor := canonical_accessor accessor in
  let profile := canonical_profile accessor profile in
  let key := mkSecretKey accessor profile caller in
  let! c := get_st in
  let! profile_data := unwrap (secrets_storage c !! key) "Secrets not found" in
  assert_condition_bounds new_access >>>
  let vault_bound := bool_decide (is_Some (secret_vault_bindings c !! key)) in
  let required_deposit :=
    calculate_secret_storage_size key (sp_encrypted_secrets profile_data) new_access vault_bound
    * STORAGE_PRICE_PER_BYTE in
  let! total_available := add128 (attached_deposit e) (sp_storage_deposit profile_data) in
  require (required_deposit <=? total_available) "Insufficient deposit for this condition" >>>
  transfer_if_positive caller (total_available - required_deposit) >>>
  modify (λ c, c <| secrets_storage :=
    <[key := mkSecretProfile (sp_encrypted_secrets profile_data) new_access
               (sp_created_at profile_data) (block_timestamp e) required_deposit]>
    (secrets_storage c) |>).

(** ** Views *)

Definition estimate_storage_cost (c : Contract) (accessor : SecretAccessor) (profile : string)
    (owner : AccountId) (encrypted_secrets_base64 : string) (access : AccessCondition)
    (vault_id : option AccountId) : CM Z :=
  assert_condition_bounds access >>>
  let accessor := canonical_accessor accessor in
  let profile := canonical_profile accessor profile in
  let key := mkSecretKey accessor profile owner in
  let bound :=
    bool_decide (is_Some vault_id) || bool_decide (is_Some (secret_vault_bindings c !! key)) in
  let storage_bytes := calculate_secret_storage_size key encrypted_secrets_base64 access bound in
  let floor_deposit :=
    if is_payment_key accessor && bool_decide (secrets_storage c !! key = None)
    then nonce_floor_deposit c owner else 0 in
  add128 (storage_bytes * STORAGE_PRICE_PER_BYTE) floor_deposit.

(** The row a read answers with and the accessor it was found under: the exact
    one, else the wildcard branch of a repository. *)
Definition get_secrets (c : Contract) (accessor : SecretAccessor) (profile : string)
    (owner : AccountId) : option (SecretProfile * SecretAccessor) :=
  let accessor := canonical_accessor accessor in
  let profile := canonical_profile accessor profile in
  match secrets_storage c !! mkSecretKey accessor profile owner with
  | Some p => Some (p, accessor)
  | None =>
    match accessor with
    | AccRepo repo (Some _) =>
      let wildcard := AccRepo repo None in
      p ← secrets_storage c !! mkSecretKey wildcard profile owner; Some (p, wildcard)
    | _ => None
    end
  end.

Definition get_secret_vault (c : Contract) (accessor : SecretAccessor) (profile : string)
    (owner : AccountId) : option AccountId :=
  let accessor := canonical_accessor accessor in
  secret_vault_bindings c !! mkSecretKey accessor (canonical_profile accessor profile) owner.

Definition get_secret_with_vault (c : Contract) (accessor : SecretAccessor) (profile : string)
    (owner : AccountId) : option SecretProfile * option AccountId :=
  let accessor := canonical_accessor accessor in
  let profile := canonical_profile accessor profile in
  match get_secrets c accessor profile owner with
  | Some (p, resolved) => (Some p, secret_vault_bindings c !! mkSecretKey resolved profile owner)
  | None => (None, None)
  end.

Definition secrets_exist (c : Contract) (accessor : SecretAccessor) (profile : string)
    (owner : AccountId) : bool :=
  let accessor := canonical_accessor accessor in
  bool_decide (is_Some (secrets_storage c !!
    mkSecretKey accessor (canonical_profile accessor profile) owner)).

(** contract/src/views.rs *)
Definition get_next_payment_key_nonce (c : Contract) (account_id : AccountId) : Z :=
  let floor := payment_key_nonce_floor c account_id in
  let live :=
    foldr (λ key acc,
      if is_payment_key (sk_accessor key)
      then Z.max (default 0 (parse_u32 (sk_profile key))) acc else acc)
      0 (elements (default ∅ (user_secrets_index c !! account_id))) in
  saturating_add 32 (Z.max live floor) 1.
End doors.

(** * Inverting the doors *)

Lemma condition_bounds_ok {W} access (w : W) u w' :
  assert_condition_bounds access w = Ok (u, w') →
  (∃ l b r, condition_leaf_count access = (l, b, r) ∧ l ≤ MAX_ACCOUNT_PATTERNS ∧
     b ≤ MAX_ACCOUNT_PATTERN_BYTES ∧ r ≤ MAX_CHAIN_READ_LEAVES ∧
     wasm_hash_leaves_ok access = true ∧ logic_is_not_empty access = true) ∧ w' = w.
Proof.
  unfold assert_condition_bounds. destruct condition_leaf_count as [[l b] r].
  intros Hr. minv. prop_bool. split; [|done]. by exists l, b, r.
Qed.

Lemma profile_shape_ok {W} `{Unicode} profile (w : W) u w' :
  assert_profile_shape profile w = Ok (u, w') → profile_shape_error profile = None ∧ w' = w.
Proof. unfold assert_profile_shape. destruct profile_shape_error; intros Hr; by minv. Qed.

(** What the checks on an accessor leave true of it. *)
Definition accessor_ok (c : Contract) (accessor : SecretAccessor) (profile : string) : Prop :=
  match accessor with
  | AccRepo repo branch => repo ≠ "" ∧ branch ≠ Some ""
  | AccWasmHash hash => str_len hash = 64 ∧ forall_bytes is_ascii_hexdigit hash = true
  | AccProject project_id => is_Some (projects c !! project_id)
  | AccSystem PaymentKey => ∃ n, parse_u32 profile = Some n ∧ 1 ≤ n ≤ 2147483647
  end.

Lemma check_accessor_ok `{Platform} c accessor profile (w : CWorld) u w' :
  check_accessor c accessor profile w = Ok (u, w') → accessor_ok c accessor profile ∧ w' = w.
Proof.
  unfold check_accessor, accessor_ok. intros Hr.
  destruct accessor as [repo [b|]| | |[]]; minv; prop_bool; split; try done.
  - split; [by destruct repo | intros [= ->]; done].
  - split; [by destruct repo | done].
  - eauto.
Qed.

Lemma check_nonce_floor_ok `{Platform} c owner accessor profile (w : CWorld) d w' :
  check_nonce_floor c owner accessor profile w = Ok (d, w') →
  (if is_payment_key accessor then
     (∃ n, parse_u32 profile = Some n ∧ payment_key_nonce_floor c owner < n) ∧
     d = nonce_floor_deposit c owner
   else d = 0) ∧ w' = w.
Proof.
  unfold check_nonce_floor. destruct is_payment_key; intros Hr; minv; prop_bool; eauto 10.
Qed.

Definition held_deposit (existing : option SecretProfile) (floor_deposit required : Z) : Z :=
  match existing with
  | Some p => required - sp_storage_deposit p
  | None => required + floor_deposit
  end.

Lemma settle_store_deposit_ok `{Platform} e payer existing required floor_deposit (w : CWorld) u w' :
  settle_store_deposit e payer existing required floor_deposit w = Ok (u, w') →
  ∃ refund, 0 ≤ refund ∧
    attached_deposit e = held_deposit existing floor_deposit required + refund ∧
    w' = mkWorld (st w) (out w ++ (if 0 <? refund then [Transfer payer refund] else [])).
Proof.
  unfold settle_store_deposit, held_deposit. intros Hr.
  destruct existing; repeat first [minv_step | cinv_step]; prop_bool; cbn in *;
    eexists; (split_and!; [| |reflexivity]; lia).
Qed.

Lemma frame_condition_bounds {C Act X} (f : C → X) access :
  frame f (assert_condition_bounds (W := World C Act) access).
Proof. unfold assert_condition_bounds. solve_frame. Qed.
Lemma frame_profile_shape {C Act X} `{Unicode} (f : C → X) profile :
  frame f (assert_profile_shape (W := World C Act) profile).
Proof. unfold assert_profile_shape. solve_frame. Qed.
Lemma frame_check_accessor `{Platform} {X} (f : Contract → X) c a p : frame f (check_accessor c a p).
Proof. unfold check_accessor. solve_frame. Qed.
Lemma frame_check_floor `{Platform} {X} (f : Contract → X) c o a p :
  frame f (check_nonce_floor c o a p).
Proof. unfold check_nonce_floor. solve_frame. Qed.
Lemma frame_settle_store `{Platform} {X} (f : Contract → X) e p o r d :
  frame f (settle_store_deposit e p o r d).
Proof. unfold settle_store_deposit. solve_frame. Qed.
#[export] Hint Resolve frame_condition_bounds frame_profile_shape frame_check_accessor
  frame_check_floor frame_settle_store : near.

Ltac sinv_step :=
  match goal with
  | H : assert_condition_bounds _ _ = Ok (_, ?w') |- _ =>
      apply condition_bounds_ok in H; destruct H as [H ?]; subst_new w'
  | H : assert_profile_shape _ _ = Ok (_, ?w') |- _ =>
      apply profile_shape_ok in H; destruct H as [H ?]; subst_new w'
  | H : check_accessor _ _ _ _ = Ok (_, ?w') |- _ =>
      apply check_accessor_ok in H; destruct H as [H ?]; subst_new w'
  | H : check_nonce_floor _ _ _ _ _ = Ok (_, ?w') |- _ =>
      apply check_nonce_floor_ok in H; destruct H as [H ?]; subst_new w'
  | H : assert_profile_is_unambiguous _ _ = Ok (_, ?w') |- _ =>
      apply require_ok in H; destruct H as [H ?]; subst_new w'
  | H : settle_store_deposit _ _ _ _ _ _ = Ok (_, ?w') |- _ =>
      apply settle_store_deposit_ok in H; destruct H as (? & ? & H & ?); subst_new w'
  end.
Ltac sinv :=
  repeat first [minv_step | cinv_step | kinv_step | sinv_step]; cbn [st out] in *; prop_bool.

(** * One spelling *)

Lemma hexdigit_ascii s : forall_bytes is_ascii_hexdigit s = true → is_ascii_str s = true.
Proof.
  apply forall_bytes_impl. unfold is_ascii_hexdigit, is_lower_hex, is_ascii_digit, in_range.
  intros b Hb. apply Z.ltb_lt.
  repeat (apply orb_true_iff in Hb as [Hb|Hb]); prop_bool; lia.
Qed.

Lemma canonical_profile_idem a p :
  canonical_profile a (canonical_profile a p) = canonical_profile a p.
Proof.
  destruct a as [| | |[]]; cbn; try done.
  destruct (parse_u32 p) as [n|] eqn:E; [|by rewrite E].
  by rewrite parse_u32_to_string by by eapply parse_u32_range.
Qed.

(** Lowercasing a lowercased string changes nothing (documented of Unicode's
    full lowercase mapping; proved of ASCII in RustStr.v). *)
Definition lowercase_stable `{Unicode} : Prop :=
  ∀ s, to_lowercase (to_lowercase s) = to_lowercase s.

Lemma canonical_accessor_idem `{Unicode} a :
  lowercase_stable → canonical_accessor (canonical_accessor a) = canonical_accessor a.
Proof. intros Hl. destruct a; cbn; by rewrite ?Hl. Qed.

(** * The invariant of the secrets store *)

Record sec_ok (ss : gmap SecretKey SecretProfile) (idx : gmap AccountId (gset SecretKey))
    (vb : gmap SecretKey AccountId) (fl : gmap AccountId Z) : Prop := {
  (* the index lists each owner's secrets, and only those *)
  sec_index : ∀ a k, k ∈ default ∅ (idx !! a) ↔ is_Some (ss !! k) ∧ sk_owner k = a;
  (* a vault binding belongs to a stored secret *)
  sec_bound : ∀ k, is_Some (vb !! k) → is_Some (ss !! k);
  (* a payment key is filed under the decimal spelling of a nonce the floor covers *)
  sec_floor : ∀ k, is_Some (ss !! k) → is_payment_key (sk_accessor k) = true →
    ∃ n, sk_profile k = uint_to_string n ∧ 1 ≤ n ≤ 2147483647 ∧
         n ≤ default 0 (fl !! sk_owner k);
  sec_floor_width : ∀ a n, fl !! a = Some n → 1 ≤ n ≤ 2147483647;
  (* every held deposit is a positive amount *)
  sec_deposit : ∀ k p, ss !! k = Some p → 0 < sp_storage_deposit p;
}.

Definition secrets_part (c : Contract) :=
  (secrets_storage c, user_secrets_index c, secret_vault_bindings c, payment_key_nonce_floors c).
Definition secrets_ok (c : Contract) : Prop :=
  sec_ok (secrets_storage c) (user_secrets_index c) (secret_vault_bindings c)
    (payment_key_nonce_floors c).

Lemma secrets_ok_frame c c' : secrets_part c' = secrets_part c → secrets_ok c → secrets_ok c'.
Proof. unfold secrets_part, secrets_ok. by intros [= -> -> -> ->]. Qed.

Section sec_lemmas.
Implicit Types ss : gmap SecretKey SecretProfile.
Implicit Types idx : gmap AccountId (gset SecretKey).
Implicit Types vb : gmap SecretKey AccountId.
Implicit Types fl : gmap AccountId Z.

Lemma is_Some_insert {K V} `{Countable K} (m : gmap K V) k v k' :
  is_Some (<[k:=v]> m !! k') ↔ k' = k ∨ is_Some (m !! k').
Proof. rewrite lookup_insert. case_decide; naive_solver. Qed.

Lemma sec_empty : sec_ok ∅ ∅ ∅ ∅.
Proof.
  constructor; intros *; rewrite ?lookup_empty; cbn; try (by intros []); try done.
  split; [set_solver | by intros [[] _]].
Qed.

(** Writing a row under [key]: an existing one is replaced, a new one indexed. *)
Lemma sec_write ss idx vb fl key p vb' :
  sec_ok ss idx vb fl →
  (is_payment_key (sk_accessor key) = true → is_Some (ss !! key)) →
  0 < sp_storage_deposit p →
  (∀ k, is_Some (vb' !! k) → k = key ∨ is_Some (vb !! k)) →
  sec_ok (<[key := p]> ss)
    (if decide (ss !! key = None) then index_add idx (sk_owner key) key else idx) vb' fl.
Proof.
  intros S Hpk Hd Hvb. constructor.
  - intros a k. rewrite is_Some_insert. case_decide as Hn.
    + rewrite elem_index_add, (sec_index _ _ _ _ S). naive_solver.
    + rewrite (sec_index _ _ _ _ S). apply not_eq_None_Some in Hn. naive_solver.
  - intros k Hk. rewrite is_Some_insert. destruct (Hvb k Hk); [by left | right].
    by apply (sec_bound _ _ _ _ S).
  - intros k Hk Hp. apply (sec_floor _ _ _ _ S); [|done].
    apply is_Some_insert in Hk as [->|Hk]; auto.
  - apply (sec_floor_width _ _ _ _ S).
  - intros k q. rewrite lookup_insert. case_decide; [naive_solver | apply (sec_deposit _ _ _ _ S)].
Qed.

(** Filing a payment key whose nonce is above the owner's floor. *)
Lemma sec_file_payment_key ss idx vb fl key p vb' n :
  sec_ok ss idx vb fl → ss !! key = None →
  sk_profile key = uint_to_string n → 1 ≤ n ≤ 2147483647 →
  default 0 (fl !! sk_owner key) < n → 0 < sp_storage_deposit p →
  (∀ k, is_Some (vb' !! k) → k = key ∨ is_Some (vb !! k)) →
  sec_ok (<[key := p]> ss) (index_add idx (sk_owner key) key) vb'
    (<[sk_owner key := n]> fl).
Proof.
  intros S Hfree Hprof Hn Hfl Hd Hvb. constructor.
  - intros a k. rewrite is_Some_insert, elem_index_add, (sec_index _ _ _ _ S). naive_solver.
  - intros k Hk. rewrite is_Some_insert. destruct (Hvb k Hk); [by left | right].
    by apply (sec_bound _ _ _ _ S).
  - intros k Hk Hp. rewrite lookup_insert. apply is_Some_insert in Hk as [->|Hk].
    + rewrite decide_True by done. cbn. exists n. split_and!; [done | lia..].
    + destruct (sec_floor _ _ _ _ S k Hk Hp) as (m & ? & ? & ?).
      exists m. case_decide as Hd'; cbn; [rewrite Hd' in Hfl|]; split_and!; try done; lia.
  - intros a m. rewrite lookup_insert. case_decide; [naive_solver | apply (sec_floor_width _ _ _ _ S)].
  - intros k q. rewrite lookup_insert. case_decide; [naive_solver | apply (sec_deposit _ _ _ _ S)].
Qed.

Lemma sec_remove ss idx vb fl key :
  sec_ok ss idx vb fl →
  sec_ok (delete key ss) (index_remove idx (sk_owner key) key) (delete key vb) fl.
Proof.
  intros S.
  assert (∀ k, is_Some (delete key ss !! k) ↔ is_Some (ss !! k) ∧ k ≠ key) as Hdel.
  { intros k. rewrite lookup_delete. case_decide; naive_solver. }
  constructor.
  - intros a k. rewrite Hdel, elem_index_remove, (sec_index _ _ _ _ S). naive_solver.
  - intros k. rewrite lookup_delete. case_decide; [by intros []|].
    intros Hk. apply Hdel. split; [by apply (sec_bound _ _ _ _ S) | done].
  - intros k [Hk _]%Hdel. by apply (sec_floor _ _ _ _ S).
  - apply (sec_floor_width _ _ _ _ S).
  - intros k q [_ Hk]%lookup_delete_Some. by apply (sec_deposit _ _ _ _ S k).
Qed.

Lemma sec_unbind ss idx vb fl key :
  sec_ok ss idx vb fl → sec_ok ss idx (delete key vb) fl.
Proof.
  intros [? Hb ? ? ?]. constructor; try done.
  intros k. rewrite lookup_delete. case_decide; [by intros [] | apply Hb].
Qed.
End sec_lemmas.

(** * What a store does

    The row written, and the state after it. *)

Section store.
Context `{Platform}.

Definition secret_key_of (accessor : SecretAccessor) (profile : string) (owner : AccountId)
    : SecretKey :=
  let a := canonical_accessor accessor in mkSecretKey a (canonical_profile a profile) owner.

Definition secret_deposit (c : Contract) (key : SecretKey) (enc : string)
    (access : AccessCondition) (vault_id : option AccountId) : Z :=
  calculate_secret_storage_size key enc access
    (bool_decide (is_Some vault_id) || bool_decide (is_Some (secret_vault_bindings c !! key)))
  * STORAGE_PRICE_PER_BYTE.

Definition bind_vault (vb : gmap SecretKey AccountId) (key : SecretKey)
    (vault_id : option AccountId) : gmap SecretKey AccountId :=
  match vault_id with Some v => <[key := v]> vb | None => vb end.

Definition with_row (c : Contract) (key : SecretKey) (data : SecretProfile)
    (vault_id : option AccountId) : Contract :=
  c <| secrets_storage := <[key := data]> (secrets_storage c) |>
    <| secret_vault_bindings := bind_vault (secret_vault_bindings c) key vault_id |>
    <| user_secrets_index :=
         if decide (secrets_storage c !! key = None)
         then index_add (user_secrets_index c) (sk_owner key) key else user_secrets_index c |>.

Definition store_effect (c : Contract) (key : SecretKey) (data : SecretProfile)
    (vault_id : option AccountId) : Contract :=
  if is_payment_key (sk_accessor key) then
    (with_row c key data vault_id)
      <| payment_key_nonce_floors :=
           <[sk_owner key := default 0 (parse_u32 (sk_profile key))]> (payment_key_nonce_floors c) |>
  else with_row c key data vault_id.

(** A payment key may be filed only where none is, under a nonce above the floor. *)
Definition store_allowed (c : Contract) (key : SecretKey) : Prop :=
  accessor_ok c (sk_accessor key) (sk_profile key) ∧
  (is_payment_key (sk_accessor key) = true →
     secrets_storage c !! key = None ∧
     ∃ n, parse_u32 (sk_profile key) = Some n ∧ payment_key_nonce_floor c (sk_owner key) < n).

Lemma write_row_ok key data vault_id is_new w u w' :
  is_new = bool_decide (secrets_storage (st w) !! key = None) →
  write_row key data vault_id is_new w = Ok (u, w') →
  st w' = with_row (st w) key data vault_id ∧ out w' = out w.
Proof.
  intros Hnew Hr. unfold write_row, with_row in *.
  destruct is_new; destruct vault_id; minv; symmetry in Hnew; prop_bool;
    (split; [|done]); case_decide; done.
Qed.

Lemma raise_floor_above owner n c :
  payment_key_nonce_floor c owner < n →
  raise_payment_key_nonce_floor owner n c
  = c <| payment_key_nonce_floors := <[owner := n]> (payment_key_nonce_floors c) |>.
Proof.
  unfold payment_key_nonce_floor, raise_payment_key_nonce_floor.
  destruct (payment_key_nonce_floors c !! owner); cbn; intros Hn; [|done].
  by rewrite (proj2 (Z.ltb_lt _ _)).
Qed.

Lemma store_secrets_internal_ok e owner payer accessor profile enc access vault_id w u w' :
  store_secrets_internal e owner payer accessor profile enc access vault_id w = Ok (u, w') →
  let key := secret_key_of accessor profile owner in
  let required := secret_deposit (st w) key enc access vault_id in
  let floor_deposit :=
    if is_payment_key (sk_accessor key) then nonce_floor_deposit (st w) owner else 0 in
  store_allowed (st w) key ∧ profile_shape_error (sk_profile key) = None ∧ enc ≠ "" ∧
  st w' = store_effect (st w) key
            (mkSecretProfile enc access (block_timestamp e) (block_timestamp e) required) vault_id ∧
  ∃ refund, 0 ≤ refund ∧
    attached_deposit e
      = held_deposit (secrets_storage (st w) !! key) floor_deposit required + refund ∧
    out w' = out w ++ (if 0 <? refund then [Transfer payer refund] else []) ++
      (if is_payment_key (sk_accessor key)
       then [System (EvTopUpPaymentKey "" owner (default 0 (parse_u32 (sk_profile key))) 0 enc)]
       else []).
Proof.
  unfold store_secrets_internal. intros Hr. sinv. cbv zeta.
  fold (secret_key_of accessor profile owner) in *.
  set (key := secret_key_of accessor profile owner) in *.
  change (canonical_accessor accessor) with (sk_accessor key) in *.
  change (canonical_profile (sk_accessor key) profile) with (sk_profile key) in *.
  fold (secret_deposit (st w) key enc access vault_id) in *.
  set (required := secret_deposit (st w) key enc access vault_id) in *.
  unfold store_effect, store_allowed.
  assert (sk_owner key = owner) as Ho by done. clearbody key required.
  subst owner. destruct (is_payment_key (sk_accessor key)) eqn:Hpk; sinv.
  - cbn in H6. rewrite orb_false_r in H6. prop_bool.
    destruct H7 as [(n & Hn & Hf) ->].
    apply write_row_ok in H9; [|by apply bool_decide_ext].
    destruct H9 as [H9 Hout]. cbn [st] in H9. rewrite H9.
    simplify_eq. cbn [st out].
    split_and!; eauto; [by destruct enc | |].
    + rewrite raise_floor_above; [|done]. by rewrite Hn.
    + exists x. rewrite Hout, Hn. cbn [out]. by rewrite app_assoc.
  - subst.
    apply write_row_ok in H9 as [H9 Hout]; [|by apply bool_decide_ext].
    split_and!; try done; [by destruct enc |].
    exists x. rewrite Hout. cbn [out]. by rewrite app_nil_r.
Qed.
End store.

(** * Every door keeps the invariant *)

Section preservation.
Context `{Platform}.

Lemma secret_size_pos key enc access b : 0 < calculate_secret_storage_size key enc access b.
Proof.
  unfold calculate_secret_storage_size, accessor_size.
  pose proof (str_len_nonneg (sk_profile key)). pose proof (str_len_nonneg (sk_owner key)).
  pose proof (str_len_nonneg enc). pose proof (str_len_nonneg (json_of_access access)).
  destruct (sk_accessor key) as [r [br|]|h|p|]; cbn;
    try pose proof (str_len_nonneg r); try pose proof (str_len_nonneg br);
    try pose proof (str_len_nonneg h); try pose proof (str_len_nonneg p); destruct b; lia.
Qed.

Lemma secret_deposit_pos c key enc access v : 0 < secret_deposit c key enc access v.
Proof.
  unfold secret_deposit, STORAGE_PRICE_PER_BYTE.
  match goal with |- 0 < ?s * _ => assert (0 < s) by apply secret_size_pos end. lia.
Qed.

Lemma bind_vault_dom vb key v k :
  is_Some (bind_vault vb key v !! k) → k = key ∨ is_Some (vb !! k).
Proof. destruct v; cbn; [rewrite is_Some_insert|]; tauto. Qed.

(** The profile of a payment key is the canonical decimal of its nonce. *)
Lemma payment_key_profile accessor profile owner n :
  is_payment_key (sk_accessor (secret_key_of accessor profile owner)) = true →
  parse_u32 (sk_profile (secret_key_of accessor profile owner)) = Some n →
  sk_profile (secret_key_of accessor profile owner) = uint_to_string n.
Proof.
  unfold secret_key_of. cbn. destruct accessor as [| | |[]]; cbn; try done. intros _.
  destruct (parse_u32 profile) as [m|] eqn:E; [|congruence].
  rewrite parse_u32_to_string by by eapply parse_u32_range. congruence.
Qed.

Lemma store_secrets_internal_inv e owner payer accessor profile enc access v w u w' :
  secrets_ok (st w) →
  store_secrets_internal e owner payer accessor profile enc access v w = Ok (u, w') →
  secrets_ok (st w').
Proof.
  intros S Hr. apply store_secrets_internal_ok in Hr as ([Ha Hpk] & _ & _ & -> & _).
  unfold store_effect, secrets_ok.
  destruct (is_payment_key _) eqn:E.
  - destruct (Hpk eq_refl) as (Hfree & n & Hn & Hf). cbn -[secret_key_of].
    rewrite Hn, decide_True by done. cbn -[secret_key_of].
    assert (1 ≤ n ≤ 2147483647).
    { unfold accessor_ok in Ha. destruct (sk_accessor _) as [| | |[]]; try done.
      destruct Ha as (m & Hm & ?). congruence. }
    eapply sec_file_payment_key; [exact S | done | by apply payment_key_profile | done | done
      | apply secret_deposit_pos | apply bind_vault_dom].
  - cbn -[secret_key_of]. eapply sec_write; [exact S | by rewrite E | apply secret_deposit_pos
      | apply bind_vault_dom].
Qed.

Lemma delete_secrets_internal_ok key owner refund_to w u w' :
  delete_secrets_internal key owner refund_to w = Ok (u, w') →
  ∃ p, secrets_storage (st w) !! key = Some p ∧
    st w' = (st w) <| secrets_storage := delete key (secrets_storage (st w)) |>
              <| secret_vault_bindings := delete key (secret_vault_bindings (st w)) |>
              <| user_secrets_index := index_remove (user_secrets_index (st w)) owner key |> ∧
    out w' = out w ++ (if 0 <? sp_storage_deposit p
                       then [Transfer refund_to (sp_storage_deposit p)] else []).
Proof. unfold delete_secrets_internal. intros Hr. sinv. eauto. Qed.

Lemma delete_secrets_internal_inv key refund_to w u w' :
  secrets_ok (st w) →
  delete_secrets_internal key (sk_owner key) refund_to w = Ok (u, w') → secrets_ok (st w').
Proof.
  intros S (p & _ & -> & _)%delete_secrets_internal_ok. by apply sec_remove.
Qed.

Lemma unbind_secret_vault_inv e accessor profile w u w' :
  secrets_ok (st w) →
  unbind_secret_vault e accessor profile w = Ok (u, w') → secrets_ok (st w').
Proof.
  unfold unbind_secret_vault. intros S Hr. sinv. by apply sec_unbind.
Qed.

Lemma update_access_ok e accessor profile access w u w' :
  update_access e accessor profile access w = Ok (u, w') →
  let key := secret_key_of accessor profile (predecessor_account_id e) in
  ∃ p refund, secrets_storage (st w) !! key = Some p ∧ 0 ≤ refund ∧
    let required := secret_deposit (st w) key (sp_encrypted_secrets p) access None in
    st w' = (st w) <| secrets_storage :=
      <[key := mkSecretProfile (sp_encrypted_secrets p) access (sp_created_at p)
                 (block_timestamp e) required]> (secrets_storage (st w)) |> ∧
    attached_deposit e + sp_storage_deposit p = required + refund ∧
    out w' = out w ++ (if 0 <? refund then [Transfer (predecessor_account_id e) refund] else []).
Proof.
  unfold update_access. intros Hr. sinv. cbv zeta.
  fold (secret_key_of accessor profile (predecessor_account_id e)) in *.
  exists a0. eexists. split_and!; [done| |done| |reflexivity].
  - lia.
  - unfold secret_deposit. rewrite (bool_decide_eq_false_2 (is_Some None)) by by intros [].
    cbn -[secret_key_of]. lia.
Qed.

Lemma update_access_inv e accessor profile access w u w' :
  secrets_ok (st w) →
  update_access e accessor profile access w = Ok (u, w') → secrets_ok (st w').
Proof.
  intros S (p & r & Hp & _ & -> & _)%update_access_ok. unfold secrets_ok. cbn -[secret_key_of].
  pose proof (λ q, sec_write _ _ _ _ (secret_key_of accessor profile (predecessor_account_id e))
    q (secret_vault_bindings (st w)) S) as Hw.
  rewrite decide_False in Hw by congruence.
  apply Hw; [by rewrite Hp | apply secret_deposit_pos | by right].
Qed.

(** The four doors. *)
Lemma store_secrets_inv e accessor profile enc access v w u w' :
  secrets_ok (st w) → store_secrets e accessor profile enc access v w = Ok (u, w') →
  secrets_ok (st w').
Proof. apply store_secrets_internal_inv. Qed.

Lemma delete_secrets_inv e accessor profile w u w' :
  secrets_ok (st w) → delete_secrets e accessor profile w = Ok (u, w') → secrets_ok (st w').
Proof.
  unfold delete_secrets. intros S Hr. sinv.
  eapply (delete_secrets_internal_inv (mkSecretKey _ _ _)); done.
Qed.
End preservation.

Section agent_doors.
Context `{Platform}.

Lemma store_agent_secret_ok e pubkey accessor profile enc access v sig w u w' :
  store_agent_secret e pubkey accessor profile enc access v sig w = Ok (u, w') →
  ∃ owner h raw, pubkey = "ed25519:" +:+ h ∧ hex_decode h = Some raw ∧ owner = hex_encode raw ∧
    let a := canonical_accessor accessor in
    let p := canonical_profile a profile in
    match a with AccWasmHash _ | AccProject _ => True | _ => False end ∧
    has_byte ch_colon p = false ∧
    wallet_signed pubkey
      (sha256 (secret_store_message pubkey a p enc (predecessor_account_id e) v access)) sig ∧
    store_secrets_internal e owner (predecessor_account_id e) a p enc access v w = Ok (u, w').
Proof.
  unfold store_agent_secret. intros Hr. sinv.
  eexists _, h, raw. cbv zeta. split_and!; try done.
  by destruct (canonical_accessor accessor).
Qed.

Lemma delete_agent_secret_ok e pubkey accessor profile sig w u w' :
  delete_agent_secret e pubkey accessor profile sig w = Ok (u, w') →
  ∃ h raw, pubkey = "ed25519:" +:+ h ∧ hex_decode h = Some raw ∧
    let key := secret_key_of accessor profile (hex_encode raw) in
    match sk_accessor key with AccWasmHash _ | AccProject _ => True | _ => False end ∧
    wallet_signed pubkey
      (sha256 (secret_delete_message pubkey (sk_accessor key) (sk_profile key)
                 (predecessor_account_id e))) sig ∧
    delete_secrets_internal key (sk_owner key) (predecessor_account_id e) w = Ok (u, w').
Proof.
  unfold delete_agent_secret. intros Hr. sinv.
  exists h, raw. cbv zeta. split_and!; try done. cbn.
  by destruct (canonical_accessor accessor).
Qed.

Lemma store_agent_secret_inv e pubkey accessor profile enc access v sig w u w' :
  secrets_ok (st w) →
  store_agent_secret e pubkey accessor profile enc access v sig w = Ok (u, w') →
  secrets_ok (st w').
Proof.
  intros S (o & h & raw & _ & _ & _ & _ & _ & _ & Hr)%store_agent_secret_ok.
  by eapply store_secrets_internal_inv.
Qed.

Lemma delete_agent_secret_inv e pubkey accessor profile sig w u w' :
  secrets_ok (st w) → delete_agent_secret e pubkey accessor profile sig w = Ok (u, w') →
  secrets_ok (st w').
Proof.
  intros S (h & raw & _ & _ & _ & _ & Hr)%delete_agent_secret_ok.
  by eapply delete_secrets_internal_inv.
Qed.
End agent_doors.

(** * Claims *)

Section claims.
Context `{Platform}.

(** A secret reads back.  After a store, the keystore's read of the same
    spelling answers the ciphertext and condition just written, and the vault
    the call named or, when it named none, the binding the row already had. *)
Theorem store_then_read e owner payer accessor profile enc access v w u w' :
  lowercase_stable →
  store_secrets_internal e owner payer accessor profile enc access v w = Ok (u, w') →
  ∃ deposit, get_secret_with_vault (st w') accessor profile owner =
    (Some (mkSecretProfile enc access (block_timestamp e) (block_timestamp e) deposit),
     match v with Some v => Some v | None => get_secret_vault (st w) accessor profile owner end).
Proof.
  intros Hl Hr. apply store_secrets_internal_ok in Hr as (_ & _ & _ & -> & _).
  set (key := secret_key_of accessor profile owner).
  exists (secret_deposit (st w) key enc access v).
  unfold get_secret_with_vault, get_secrets, get_secret_vault.
  rewrite canonical_accessor_idem, canonical_profile_idem by done.
  fold (secret_key_of accessor profile owner). fold key.
  unfold store_effect. destruct (is_payment_key _); cbn -[key];
    rewrite lookup_insert_eq; fold (secret_key_of accessor profile owner); fold key;
    destruct v; cbn; by rewrite ?lookup_insert_eq.
Qed.

(** The deposit of a store is conserved: what was attached and what the row
    already held is what the row now holds, plus the floor entry's price when a
    first payment key is filed, plus what goes back, all of it to the payer. *)
Theorem store_deposit_conserved e owner payer accessor profile enc access v w u w' :
  store_secrets_internal e owner payer accessor profile enc access v w = Ok (u, w') →
  let key := secret_key_of accessor profile owner in
  ∃ row ev, secrets_storage (st w') !! key = Some row ∧ out w' = out w ++ ev ∧
    attached_deposit e + from_option sp_storage_deposit 0 (secrets_storage (st w) !! key)
    = sp_storage_deposit row
      + (if is_payment_key (sk_accessor key) then nonce_floor_deposit (st w) owner else 0)
      + transferred_to payer ev ∧
    transferred ev = transferred_to payer ev.
Proof.
  intros Hr. apply store_secrets_internal_ok in Hr
    as ([_ Hpk] & _ & _ & -> & refund & Hpos & Hatt & ->).
  set (key := secret_key_of accessor profile owner) in *.
  eexists _, _. split_and!; [|reflexivity| |].
  - unfold store_effect. destruct (is_payment_key _); cbn -[key]; apply lookup_insert_eq.
  - cbn -[key]. rewrite transferred_to_app, transferred_to_refund by done.
    unfold held_deposit in Hatt.
    destruct (is_payment_key _) eqn:E.
    + destruct (Hpk eq_refl) as [Hn _]. rewrite Hn in *. cbn in *. lia.
    + destruct (secrets_storage (st w) !! key); cbn in *; lia.
  - rewrite transferred_app, transferred_to_app, transferred_refund, transferred_to_refund by done.
    by destruct (is_payment_key _).
Qed.
End claims.

(** * Conditions against a reference reading

    [subconditions] lists a condition and everything inside it; the bounds are
    bounds on that list. *)

Fixpoint subconditions (a : AccessCondition) : list AccessCondition :=
  a :: match a with
       | Logic _ cs => concat (map subconditions cs)
       | NotCond c | Predecessor c => subconditions c
       | _ => []
       end.

Definition sum_over (f : AccessCondition → Z) (l : list AccessCondition) : Z :=
  foldr (λ a acc, f a + acc) 0 l.
Definition pattern_leaf (a : AccessCondition) : Z :=
  match a with AccountPattern _ => 1 | _ => 0 end.
Definition pattern_text (a : AccessCondition) : Z :=
  match a with AccountPattern p => str_len p | _ => 0 end.
Definition chain_leaf (a : AccessCondition) : Z :=
  match a with NearBalance _ _ | FtBalance _ _ _ | NftOwned _ _ | DaoMember _ _ => 1 | _ => 0 end.
Definition well_shaped (a : AccessCondition) : Prop :=
  match a with
  | WasmHashIs hash => is_wasm_hash hash = true
  | Logic _ cs => cs ≠ []
  | _ => True
  end.

Section condition_ind.
Variable P : AccessCondition → Prop.
Hypothesis HLogic : ∀ op cs, Forall P cs → P (Logic op cs).
Hypothesis HNot : ∀ c, P c → P (NotCond c).
Hypothesis HPred : ∀ c, P c → P (Predecessor c).
Hypothesis HLeaf : ∀ a,
  match a with Logic _ _ | NotCond _ | Predecessor _ => False | _ => True end → P a.

Fixpoint condition_ind' (a : AccessCondition) : P a.
Proof using HLeaf HLogic HNot HPred.
  destruct a; try (apply HLeaf; exact I).
  - apply HLogic. induction conditions as [|c cs IH]; constructor; [apply condition_ind' | exact IH].
  - apply HNot, condition_ind'.
  - apply HPred, condition_ind'.
Defined.
End condition_ind.

Lemma sum_over_app f l k : sum_over f (l ++ k) = sum_over f l + sum_over f k.
Proof. unfold sum_over. induction l as [|a l IH]; cbn; [done | rewrite IH; lia]. Qed.

Definition leaf_sums (l : list AccessCondition) : Z * Z * Z :=
  (sum_over pattern_leaf l, sum_over pattern_text l, sum_over chain_leaf l).

Lemma fold_add3 (l : list (Z * Z * Z)) acc :
  fold_left add3 l acc = add3 acc (foldr add3 (0, 0, 0) l).
Proof.
  revert acc. induction l as [|x l IH]; intros acc; cbn.
  - destruct acc as [[a b] c]. cbn. by rewrite !Z.add_0_r.
  - rewrite IH. destruct acc as [[a b] c], x as [[a' b'] c'].
    destruct (foldr add3 (0, 0, 0) l) as [[? ?] ?]. cbn. by rewrite !Z.add_assoc.
Qed.

Lemma leaf_count_spec a : condition_leaf_count a = leaf_sums (subconditions a).
Proof.
  induction a using condition_ind'; try (destruct a; try done; unfold leaf_sums; cbn; by rewrite ?Z.add_0_r).
  - cbn [condition_leaf_count subconditions]. rewrite fold_add3.
    transitivity (leaf_sums (concat (map subconditions cs))); [|done].
    induction H as [|c cs Hc _ IH]; [done|]. cbn [map concat foldr].
    rewrite Hc. unfold leaf_sums in *. rewrite !sum_over_app.
    destruct (foldr add3 (0, 0, 0) (map condition_leaf_count cs)) as [[x y] z].
    cbn in IH |- *. by injection IH as <- <- <-.
Qed.

Lemma shape_list_spec cs :
  Forall (λ a, wasm_hash_leaves_ok a && logic_is_not_empty a = true ↔
               Forall well_shaped (subconditions a)) cs →
  forallb wasm_hash_leaves_ok cs && forallb logic_is_not_empty cs = true ↔
  Forall well_shaped (concat (map subconditions cs)).
Proof.
  induction 1 as [|c cs Hc _ IH]; cbn; [done|].
  rewrite Forall_app, <- Hc, <- IH, !andb_true_iff. tauto.
Qed.

Lemma shape_spec a :
  wasm_hash_leaves_ok a && logic_is_not_empty a = true ↔ Forall well_shaped (subconditions a).
Proof.
  induction a using condition_ind'.
  - apply shape_list_spec in H. cbn [wasm_hash_leaves_ok logic_is_not_empty subconditions].
    rewrite Forall_cons, <- H. cbn [well_shaped].
    destruct cs as [|c cs]; [naive_solver|]. split; [by intros -> | by intros [_ ->]].
  - cbn. rewrite Forall_cons, <- IHa. naive_solver.
  - cbn. rewrite Forall_cons, <- IHa. naive_solver.
  - destruct a; try done; cbn; rewrite ?andb_true_r, Forall_singleton; naive_solver.
Qed.

(** A condition is accepted exactly when, over everything inside it, there are
    at most 16 account patterns with at most 4096 bytes of text, at most 5 leaves
    that ask the chain, every WASM hash is 64 lowercase hex digits and no Logic
    node is empty. *)
Theorem condition_bounds_exact {W} access (w : W) :
  assert_condition_bounds access w = Ok (tt, w) ↔
  sum_over pattern_leaf (subconditions access) ≤ MAX_ACCOUNT_PATTERNS ∧
  sum_over pattern_text (subconditions access) ≤ MAX_ACCOUNT_PATTERN_BYTES ∧
  sum_over chain_leaf (subconditions access) ≤ MAX_CHAIN_READ_LEAVES ∧
  Forall well_shaped (subconditions access).
Proof.
  rewrite <- shape_spec, andb_true_iff. unfold assert_condition_bounds.
  rewrite leaf_count_spec. unfold leaf_sums. split.
  - intros Hr. minv. prop_bool. done.
  - intros (H1 & H2 & H3 & H4 & H5). unfold bind, require.
    by rewrite (proj2 (Z.leb_le _ _) H1), (proj2 (Z.leb_le _ _) H2),
      (proj2 (Z.leb_le _ _) H3), H4, H5.
Qed.

(** * Payment keys and agent secrets: claims *)

Section payment_keys.
Context `{Platform}.

(** A payment key is written once and its nonce is never used again: a store
    that succeeds found no key there and a nonce above everything the account
    ever used, and raises the floor to it. *)
Theorem payment_key_write_once e owner payer profile enc access v w u w' :
  store_secrets_internal e owner payer (AccSystem PaymentKey) profile enc access v w
    = Ok (u, w') →
  ∃ n, parse_u32 profile = Some n ∧ 1 ≤ n ≤ 2147483647 ∧
    payment_key_nonce_floor (st w) owner < n ∧
    secrets_storage (st w) !! mkSecretKey (AccSystem PaymentKey) (uint_to_string n) owner = None ∧
    payment_key_nonce_floor (st w') owner = n ∧
    secrets_exist (st w') (AccSystem PaymentKey) profile owner = true.
Proof.
  intros Hr. apply store_secrets_internal_ok in Hr as ([Ha Hpk] & _ & _ & -> & _).
  destruct (Hpk eq_refl) as (Hfree & n & Hn & Hf). destruct Ha as (m & Hm & Hb). cbn in *.
  destruct (parse_u32 profile) as [k|] eqn:E; [|congruence].
  pose proof (parse_u32_range _ _ E) as Hk. rewrite parse_u32_to_string in Hn, Hm by done.
  simplify_eq. exists m. split_and!; try done; try lia.
  - revert Hfree. unfold secret_key_of. cbn. by rewrite E.
  - unfold payment_key_nonce_floor. cbn. rewrite lookup_insert_eq. cbn.
    by rewrite parse_u32_to_string.
  - unfold secrets_exist, secret_key_of. cbn. rewrite E. apply bool_decide_eq_true.
    by rewrite lookup_insert_eq.
Qed.

Lemma live_nonce_le l k n :
  k ∈ l → is_payment_key (sk_accessor k) = true → parse_u32 (sk_profile k) = Some n →
  n ≤ foldr (λ key acc, if is_payment_key (sk_accessor key)
                        then Z.max (default 0 (parse_u32 (sk_profile key))) acc else acc) 0 l.
Proof.
  intros Hk Hp Hn. induction l as [|x l IH]; [set_solver|]. cbn.
  apply elem_of_cons in Hk as [->|Hk].
  - rewrite Hp, Hn. cbn. lia.
  - specialize (IH Hk). destruct (is_payment_key (sk_accessor x)); lia.
Qed.

Lemma live_nonce_nonneg l :
  0 ≤ foldr (λ key acc, if is_payment_key (sk_accessor key)
                        then Z.max (default 0 (parse_u32 (sk_profile key))) acc else acc) 0 l.
Proof.
  induction l as [|x l IH]; cbn; [lia|]. destruct (is_payment_key (sk_accessor x)); lia.
Qed.

(** The nonce the view suggests can be used: as long as it is in range, the
    checks on a payment key's profile and on the floor pass for it and no key is
    filed under it, also for keys older than the floor table. *)
Theorem next_nonce_accepted c account w :
  (∀ k, is_Some (secrets_storage c !! k) → k ∈ default ∅ (user_secrets_index c !! sk_owner k)) →
  get_next_payment_key_nonce c account ≤ 2147483647 →
  let profile := uint_to_string (get_next_payment_key_nonce c account) in
  check_accessor c (AccSystem PaymentKey) profile w = Ok (tt, w) ∧
  check_nonce_floor c account (AccSystem PaymentKey) profile w
    = Ok (nonce_floor_deposit c account, w) ∧
  secrets_storage c !! mkSecretKey (AccSystem PaymentKey) profile account = None.
Proof.
  intros Hidx. unfold get_next_payment_key_nonce, saturating_add.
  set (l := elements _). pose proof (live_nonce_nonneg l) as Hnn.
  set (live := foldr _ _ _) in *. set (floor := payment_key_nonce_floor c account).
  change (2 ^ 32 - 1) with 4294967295. intros Hle.
  set (n := Z.min _ _) in *. assert (n = Z.max live floor + 1) as En by lia.
  assert (parse_u32 (uint_to_string n) = Some n) as Hp.
  { apply parse_u32_to_string, in_width_intro. change (2 ^ 32) with 4294967296. lia. }
  cbv zeta. unfold check_accessor, check_nonce_floor, bind, unwrap, require. cbn [is_payment_key].
  rewrite Hp. cbn. fold floor.
  rewrite (proj2 (Z.leb_le 1 n)), (proj2 (Z.leb_le n _)), (proj2 (Z.ltb_lt floor n)) by lia.
  split_and!; [done..|]. apply eq_None_not_Some. intros Hs.
  apply Hidx in Hs. cbn in Hs. apply elem_of_elements in Hs.
  apply (live_nonce_le l _ n) in Hs; [|done..]. fold live in Hs. lia.
Qed.

(** An agent's secret is filed only on the agent's word.  A store through
    [store_agent_secret] that succeeds carries the wallet's signature over this
    accessor, profile, ciphertext, payer, vault and condition; the row it writes
    belongs to that key's implicit account, every other row is as it was, and a
    repository or payment key never goes through this door. *)
Theorem agent_store_authorised e pubkey accessor profile enc access v sig w u w' :
  store_agent_secret e pubkey accessor profile enc access v sig w = Ok (u, w') →
  let a := canonical_accessor accessor in
  let p := canonical_profile a profile in
  ∃ h raw, pubkey = "ed25519:" +:+ h ∧ hex_decode h = Some raw ∧
    wallet_signed pubkey
      (sha256 (secret_store_message pubkey a p enc (predecessor_account_id e) v access)) sig ∧
    match a with AccWasmHash _ | AccProject _ => True | _ => False end ∧
    (∀ k, sk_owner k ≠ hex_encode raw →
       secrets_storage (st w') !! k = secrets_storage (st w) !! k ∧
       secret_vault_bindings (st w') !! k = secret_vault_bindings (st w) !! k) ∧
    payment_key_nonce_floors (st w') = payment_key_nonce_floors (st w).
Proof.
  intros (o & h & raw & -> & Hh & -> & Ha & Hc & Hs & Hr)%store_agent_secret_ok.
  apply store_secrets_internal_ok in Hr as (_ & _ & _ & Hst & _). cbv zeta.
  exists h, raw. split_and!; try done.
  - intros k Hk. rewrite Hst. unfold store_effect.
    destruct (is_payment_key _); cbn; rewrite lookup_insert_ne by (intros <-; done);
      (split; [done|]); destruct v; cbn; [rewrite lookup_insert_ne by (intros <-; done)| |
        rewrite lookup_insert_ne by (intros <-; done)|]; done.
  - rewrite Hst. unfold store_effect. cbn -[secret_key_of].
    destruct (canonical_accessor accessor); try done.
Qed.

(** Changing a condition changes nothing else: the ciphertext, the creation
    time, the vault binding and every other row stay, and the deposit is
    recomputed with the difference settled with the caller. *)
Theorem update_access_keeps_ciphertext e accessor profile access w u w' :
  update_access e accessor profile access w = Ok (u, w') →
  let key := secret_key_of accessor profile (predecessor_account_id e) in
  ∃ old new refund,
    secrets_storage (st w) !! key = Some old ∧
    st w' = (st w) <| secrets_storage := <[key := new]> (secrets_storage (st w)) |> ∧
    sp_encrypted_secrets new = sp_encrypted_secrets old ∧
    sp_created_at new = sp_created_at old ∧ sp_access new = access ∧
    attached_deposit e + sp_storage_deposit old = sp_storage_deposit new + refund ∧
    transferred_to (predecessor_account_id e) (out w')
      = transferred_to (predecessor_account_id e) (out w) + refund.
Proof.
  intros (p & r & Hp & Hr & Hst & Ha & Hout)%update_access_ok.
  eexists p, _, r. split_and!; [done | exact Hst | done | done | done | exact Ha |].
  by rewrite Hout, transferred_to_app, transferred_to_refund.
Qed.
End payment_keys.

(** * Witnesses *)

#[local] Existing Instance sample_platform.

Definition sample_store : CM unit :=
  store_secrets_internal (sample_env "alice.near" ONE_NEAR 7) "alice.near" "alice.near"
    (AccRepo "github.com/alice/app" None) "default" "QQ==" AllowAll None.

Definition sample_payment_key : CM unit :=
  store_secrets_internal (sample_env "alice.near" ONE_NEAR 7) "alice.near" "alice.near"
    (AccSystem PaymentKey) "1" "QQ==" AllowAll None.

Lemma sample_lowercase : lowercase_stable.
Proof.
  intros s. destruct (is_ascii_str s) eqn:E; [by apply to_lowercase_idem_ascii|].
  unfold to_lowercase. rewrite E. change (unicode_to_lowercase s) with s. by rewrite E.
Qed.

Lemma store_then_read_witness :
  ∃ deposit, get_secret_with_vault (st (ran sample_store (start sample_contract)))
    (AccRepo "github.com/alice/app" None) "default" "alice.near" =
    (Some (mkSecretProfile "QQ==" AllowAll 7 7 deposit), None).
Proof.
  apply (store_then_read (sample_env "alice.near" ONE_NEAR 7) "alice.near" "alice.near"
    (AccRepo "github.com/alice/app" None) "default" "QQ==" AllowAll None
    (start sample_contract) tt).
  - exact sample_lowercase.
  - apply ran_ok. vm_compute. reflexivity.
Defined.

Lemma store_deposit_conserved_witness :
  let w' := ran sample_payment_key (start sample_contract) in
  ∃ row ev, secrets_storage (st w') !! mkSecretKey (AccSystem PaymentKey) "1" "alice.near" = Some row
    ∧ out w' = ev ∧
    ONE_NEAR = sp_storage_deposit row + nonce_floor_deposit sample_contract "alice.near"
               + transferred_to "alice.near" ev.
Proof.
  destruct (store_deposit_conserved (sample_env "alice.near" ONE_NEAR 7) "alice.near" "alice.near"
    (AccSystem PaymentKey) "1" "QQ==" AllowAll None (start sample_contract) tt
    (ran sample_payment_key (start sample_contract))) as (row & ev & Hrow & Hout & Hsum & _).
  - apply ran_ok. vm_compute. reflexivity.
  - exists row, ev. split; [exact Hrow|]. split; [exact Hout|]. exact Hsum.
Defined.

Lemma payment_key_write_once_witness :
  payment_key_nonce_floor (st (ran sample_payment_key (start sample_contract))) "alice.near" = 1.
Proof.
  destruct (payment_key_write_once (sample_env "alice.near" ONE_NEAR 7) "alice.near" "alice.near"
    "1" "QQ==" AllowAll None (start sample_contract) tt
    (ran sample_payment_key (start sample_contract))) as (n & Hn & _ & _ & _ & Hf & _).
  - apply ran_ok. vm_compute. reflexivity.
  - vm_compute in Hn. congruence.
Defined.

Lemma next_nonce_accepted_witness :
  check_accessor sample_contract (AccSystem PaymentKey) "1" (start sample_contract)
    = Ok (tt, start sample_contract).
Proof.
  apply (next_nonce_accepted sample_contract "alice.near" (start sample_contract)).
  - intros k [x Hx]. vm_compute in Hx. discriminate Hx.
  - vm_compute. discriminate.
Defined.

Lemma update_access_keeps_ciphertext_witness :
  let w := ran sample_store (start sample_contract) in
  let op := update_access (sample_env "alice.near" 0 9) (AccRepo "github.com/alice/app" None)
              "default" AllowAll in
  ∃ old new,
    secrets_storage (st w) !! mkSecretKey (AccRepo "github.com/alice/app" None) "default" "alice.near"
      = Some old ∧
    secrets_storage (st (ran op w))
      !! mkSecretKey (AccRepo "github.com/alice/app" None) "default" "alice.near" = Some new ∧
    sp_encrypted_secrets new = sp_encrypted_secrets old.
Proof.
  cbv zeta.
  set (op := update_access (sample_env "alice.near" 0 9) (AccRepo "github.com/alice/app" None)
              "default" AllowAll).
  set (w := ran sample_store (start sample_contract)).
  destruct (update_access_keeps_ciphertext (sample_env "alice.near" 0 9)
    (AccRepo "github.com/alice/app" None) "default" AllowAll w tt (ran op w))
    as (old & new & r & Ho & Hst & He & _).
  - apply ran_ok. vm_compute. reflexivity.
  - exists old, new. split; [exact Ho|]. split; [|exact He].
    rewrite Hst. apply lookup_insert_eq.
Defined.

Definition sample_hex32 : string :=
  "00112233445566778899aabbccddeeff00112233445566778899aabbccddeeff".
Definition sample_agent_store : CM unit :=
  store_agent_secret (sample_env "payer.near" ONE_NEAR 7) ("ed25519:" +:+ sample_hex32)
    (AccWasmHash sample_hex32) "default" "QQ==" AllowAll None (sample_hex32 +:+ sample_hex32).

Lemma agent_store_authorised_witness :
  ∃ h raw, "ed25519:" +:+ sample_hex32 = "ed25519:" +:+ h ∧ hex_decode h = Some raw ∧
    payment_key_nonce_floors (st (ran sample_agent_store (start sample_contract))) = ∅.
Proof.
  destruct (agent_store_authorised (sample_env "payer.near" ONE_NEAR 7) ("ed25519:" +:+ sample_hex32)
    (AccWasmHash sample_hex32) "default" "QQ==" AllowAll None (sample_hex32 +:+ sample_hex32)
    (start sample_contract) tt (ran sample_agent_store (start sample_contract)))
    as (h & raw & Hk & Hd & _ & _ & _ & Hf).
  - apply ran_ok. vm_compute. reflexivity.
  - exists h, raw. split; [exact Hk|]. split; [exact Hd | exact Hf].
Defined.
