(* ===== verification/Wallet.v ===== *)
(** Wallet policies (contract/src/wallet.rs): storing a policy under the wallet's
    signature, freezing, deleting, the storage beneficiary, and the views. *)

From S2P Require Export Secrets.

(** * Storage size *)

Definition calculate_wallet_policy_storage_size (wallet_pubkey encrypted_data : string)
    (with_beneficiary : bool) : Z :=
  let BASE_OVERHEAD := 40 in
  let key_size := 4 + str_len wallet_pubkey in
  let owner_estimate := 4 + 64 in
  let value_size := owner_estimate + 4 + str_len encrypted_data + 1 + 8 + 16 in
  let beneficiary :=
    if with_beneficiary then BASE_OVERHEAD + (1 + 4 + str_len wallet_pubkey) + (4 + 64) else 0 in
  let meta := BASE_OVERHEAD + key_size + 8 + 1 in
  BASE_OVERHEAD + key_size + value_size + meta + beneficiary.

(** [policy_meta.get(..).unwrap_or_default()]. *)
Definition meta_of (c : Contract) (wallet_pubkey : string) : PolicyMeta :=
  default default_meta (policy_meta c !! wallet_pubkey).

(** * Operations *)

Section operations.
Context `{Platform}.

(** [StorageItem::canonical]. *)
Definition canonical_item (item : StorageItem) : CM StorageItem :=
  match item with
  | WalletPolicyItem wallet_pubkey =>
    let! k := canonical_wallet_pubkey wallet_pubkey in ret (WalletPolicyItem k)
  end.

Definition check_policy_inputs (wallet_pubkey encrypted_data wallet_signature : string) : CM unit :=
  require (negb (str_is_empty wallet_pubkey)) "wallet_pubkey cannot be empty" >>>
  require (negb (str_is_empty encrypted_data)) "encrypted_data cannot be empty" >>>
  require (str_len encrypted_data <=? 100000) "encrypted_data too large (max 100KB)" >>>
  require (negb (str_is_empty wallet_signature)) "wallet_signature is required".

(** The beneficiary of the deposit: named at creation, kept by an update. *)
Definition policy_beneficiary (c : Contract) (item : StorageItem)
    (existing : option WalletPolicyEntry) (requested : option AccountId)
    : CM (option AccountId) :=
  match existing with
  | Some _ =>
    require (bool_decide (requested = None))
      "storage_refund_to is set when the policy is created" >>>
    ret (storage_refund_to c !! item)
  | None =>
    (match requested with
     | Some b => modify (λ c, c <| storage_refund_to := <[item := b]> (storage_refund_to c) |>)
     | None => ret tt
     end) >>>
    ret requested
  end.

(** Ownership and deposit; answers (is_new, was_frozen). *)
Definition settle_policy_deposit (e : Env) (caller refund_to : AccountId)
    (existing : option WalletPolicyEntry) (required_deposit : Z) : CM (bool * bool) :=
  match existing with
  | Some existing =>
    require (bool_decide (wp_owner existing = caller))
      "Only the original controller can update this wallet policy" >>>
    let! total_available := add128 (attached_deposit e) (wp_storage_deposit existing) in
    require (required_deposit <=? total_available) "Insufficient deposit for update" >>>
    transfer_if_positive refund_to (total_available - required_deposit) >>>
    ret (false, wp_frozen existing)
  | None =>
    require (required_deposit <=? attached_deposit e) "Insufficient storage deposit" >>>
    transfer_if_positive refund_to (attached_deposit e - required_deposit) >>>
    ret (true, false)
  end.

Definition store_wallet_policy (e : Env) (wallet_pubkey encrypted_data wallet_signature : string)
    (version : Z) (locked : bool) (valid_until : Z) (requested : option AccountId) : CM unit :=
  assert_not_paused >>>
  let caller := predecessor_account_id e in
  check_policy_inputs wallet_pubkey encrypted_data wallet_signature >>>
  let! wallet_pubkey := canonical_wallet_pubkey wallet_pubkey in
  let! c := get_st in
  let! expected := add64 (pm_version (meta_of c wallet_pubkey)) 1 in
  require (version =? expected) "policy version: sign the policy again" >>>
  let now := block_timestamp e / 1000000000 in
  require (now <=? valid_until) "this policy signature expired: sign the policy again" >>>
  let message := policy_store_message wallet_pubkey version locked valid_until encrypted_data caller in
  verify_wallet_signature wallet_pubkey (sha256 message) wallet_signature >>>
  let item := WalletPolicyItem wallet_pubkey in
  let existing := wallet_policies c !! wallet_pubkey in
  let! beneficiary := policy_beneficiary c item existing requested in
  let storage_size := calculate_wallet_policy_storage_size wallet_pubkey encrypted_data
                        (bool_decide (is_Some beneficiary)) in
  let required_deposit := storage_size * STORAGE_PRICE_PER_BYTE in
  let refund_to := default caller beneficiary in
  let! '(is_new, was_frozen) := settle_policy_deposit e caller refund_to existing required_deposit in
  let entry := mkPolicyEntry caller encrypted_data was_frozen (block_timestamp e) required_deposit in
  modify (λ c, c <| wallet_policies := <[wallet_pubkey := entry]> (wallet_policies c) |>) >>>
  modify (λ c, c <| policy_meta :=
    <[wallet_pubkey := mkPolicyMeta version locked]> (policy_meta c) |>) >>>
  (if is_new then
     modify (λ c, c <| wallet_owner_index :=
       index_add (wallet_owner_index c) caller wallet_pubkey |>)
   else ret tt) >>>
  emit (System (EvWalletPolicyUpdated wallet_pubkey caller encrypted_data was_frozen version locked)).

Definition freeze_wallet (e : Env) (wallet_pubkey : string) : CM unit :=
  assert_no_deposit e >>>
  assert_not_paused >>>
  let caller := predecessor_account_id e in
  let! wallet_pubkey := canonical_wallet_pubkey wallet_pubkey in
  let! c := get_st in
  let! entry := unwrap (wallet_policies c !! wallet_pubkey) "Wallet policy not found" in
  require (bool_decide (wp_owner entry = caller)) "Only the controller can freeze this wallet" >>>
  require (negb (wp_frozen entry)) "Wallet is already frozen" >>>
  let entry := entry <| wp_frozen := true |> <| wp_updated_at := block_timestamp e |> in
  modify (λ c, c <| wallet_policies := <[wallet_pubkey := entry]> (wallet_policies c) |>) >>>
  emit (System (EvWalletFrozenChanged wallet_pubkey caller true)).

Definition unfreeze_wallet (e : Env) (wallet_pubkey : string) : CM unit :=
  assert_no_deposit e >>>
  assert_not_paused >>>
  let caller := predecessor_account_id e in
  let! wallet_pubkey := canonical_wallet_pubkey wallet_pubkey in
  let! c := get_st in
  let! entry := unwrap (wallet_policies c !! wallet_pubkey) "Wallet policy not found" in
  require (bool_decide (wp_owner entry = caller)) "Only the controller can unfreeze this wallet" >>>
  require (wp_frozen entry) "Wallet is not frozen" >>>
  let entry := entry <| wp_frozen := false |> <| wp_updated_at := block_timestamp e |> in
  modify (λ c, c <| wallet_policies := <[wallet_pubkey := entry]> (wallet_policies c) |>) >>>
  emit (System (EvWalletFrozenChanged wallet_pubkey caller false)).

Definition delete_wallet_policy (e : Env) (wallet_pubkey : string) : CM unit :=
  assert_no_deposit e >>>
  let! wallet_pubkey := canonical_wallet_pubkey wallet_pubkey in
  let caller := predecessor_account_id e in
  let! c := get_st in
  let! entry := unwrap (wallet_policies c !! wallet_pubkey) "Wallet policy not found" in
  require (bool_decide (wp_owner entry = caller))
    "Only the controller can delete this wallet policy" >>>
  require (negb (pm_locked (meta_of c wallet_pubkey)))
    "policy is locked: store an unlocked policy with the approvers' quorum first" >>>
  modify (λ c, c <| wallet_policies := delete wallet_pubkey (wallet_policies c) |>) >>>
  modify (λ c, c <| policy_meta := delete wallet_pubkey (policy_meta c) |>) >>>
  modify (λ c, c <| wallet_owner_index :=
    index_remove (wallet_owner_index c) caller wallet_pubkey |>) >>>
  let item := WalletPolicyItem wallet_pubkey in
  modify (λ c, c <| storage_refund_to := delete item (storage_refund_to c) |>) >>>
  let refunded_to := default caller (storage_refund_to c !! item) in
  transfer_if_positive refunded_to (wp_storage_deposit entry) >>>
  emit (System (EvWalletPolicyDeleted wallet_pubkey caller refunded_to)).

Definition set_storage_refund_to (e : Env) (item : StorageItem) (to : AccountId) : CM unit :=
  assert_no_deposit e >>>
  assert_not_paused >>>
  let caller := predecessor_account_id e in
  let! item := canonical_item item in
  let! c := get_st in
  let! current := unwrap (storage_refund_to c !! item)
    "No storage beneficiary is set for this item" in
  require (bool_decide (caller = current)) "Only the storage beneficiary can change this" >>>
  modify (λ c, c <| storage_refund_to := <[item := to]> (storage_refund_to c) |>) >>>
  emit (System (EvStorageRefundToChanged item to)).

(** ** Views *)

Definition has_wallet_policy (c : Contract) (wallet_pubkey : string) : bool :=
  bool_decide (is_Some (wallet_policies c !! lookup_wallet_pubkey wallet_pubkey)).

(** Entry, version record and beneficiary, as the view joins them. *)
Definition get_wallet_policy (c : Contract) (wallet_pubkey : string)
    : option (WalletPolicyEntry * PolicyMeta * option AccountId) :=
  let wallet_pubkey := lookup_wallet_pubkey wallet_pubkey in
  entry ← wallet_policies c !! wallet_pubkey;
  Some (entry, meta_of c wallet_pubkey, storage_refund_to c !! WalletPolicyItem wallet_pubkey).

Definition get_wallet_policies_by_owner (c : Contract) (owner : AccountId)
    : list (string * WalletPolicyEntry) :=
  omap (λ k, entry ← wallet_policies c !! k; Some (k, entry))
    (elements (default ∅ (wallet_owner_index c !! owner))).

Definition estimate_wallet_policy_cost (wallet_pubkey encrypted_data : string)
    (refund_to : option AccountId) : Z :=
  calculate_wallet_policy_storage_size wallet_pubkey encrypted_data
    (bool_decide (is_Some refund_to)) * STORAGE_PRICE_PER_BYTE.
End operations.

(** * Inverting the doors *)

Section inversion.
Context `{Platform}.

Definition policy_deposit (key data : string) (beneficiary : option AccountId) : Z :=
  calculate_wallet_policy_storage_size key data (bool_decide (is_Some beneficiary))
  * STORAGE_PRICE_PER_BYTE.

(** The beneficiary after a store. *)
Definition beneficiary_after (c : Contract) (key : string) (requested : option AccountId)
    : option AccountId :=
  match wallet_policies c !! key with
  | Some _ => storage_refund_to c !! WalletPolicyItem key
  | None => requested
  end.

Definition store_policy_effect (c : Contract) (caller : AccountId) (key data : string)
    (version : Z) (locked : bool) (requested : option AccountId) (now : Z) : Contract :=
  let b := beneficiary_after c key requested in
  let entry := mkPolicyEntry caller data (from_option wp_frozen false (wallet_policies c !! key))
                 now (policy_deposit key data b) in
  c <| wallet_policies := <[key := entry]> (wallet_policies c) |>
    <| policy_meta := <[key := mkPolicyMeta version locked]> (policy_meta c) |>
    <| wallet_owner_index :=
         match wallet_policies c !! key with
         | Some _ => wallet_owner_index c
         | None => index_add (wallet_owner_index c) caller key
         end |>
    <| storage_refund_to :=
         match wallet_policies c !! key, requested with
         | None, Some b => <[WalletPolicyItem key := b]> (storage_refund_to c)
         | _, _ => storage_refund_to c
         end |>.

Lemma policy_beneficiary_ok c item existing requested (w : CWorld) b w' :
  policy_beneficiary c item existing requested w = Ok (b, w') →
  out w' = out w ∧
  match existing with
  | Some _ => requested = None ∧ b = storage_refund_to c !! item ∧ st w' = st w
  | None => b = requested ∧
      st w' = match requested with
              | Some b => (st w) <| storage_refund_to := <[item := b]> (storage_refund_to (st w)) |>
              | None => st w
              end
  end.
Proof.
  unfold policy_beneficiary. destruct existing; intros Hr; minv; prop_bool; [done|].
  destruct requested; minv; done.
Qed.

Lemma settle_policy_deposit_ok e caller refund_to existing required (w : CWorld) r w' :
  settle_policy_deposit e caller refund_to existing required w = Ok (r, w') →
  ∃ refund, 0 ≤ refund ∧
    attached_deposit e + from_option wp_storage_deposit 0 existing = required + refund ∧
    w' = mkWorld (st w) (out w ++ (if 0 <? refund then [Transfer refund_to refund] else [])) ∧
    match existing with
    | Some x => wp_owner x = caller ∧ r = (false, wp_frozen x)
    | None => r = (true, false)
    end.
Proof.
  unfold settle_policy_deposit. destruct existing; intros Hr; sinv; subst; eexists;
    (split_and!; [| |reflexivity|done..]; cbn; lia).
Qed.

Lemma store_wallet_policy_ok e key data sig version locked until requested w u w' :
  store_wallet_policy e key data sig version locked until requested w = Ok (u, w') →
  let k := lookup_wallet_pubkey key in
  let caller := predecessor_account_id e in
  let b := beneficiary_after (st w) k requested in
  version = pm_version (meta_of (st w) k) + 1 ∧ u64_ok version ∧
  block_timestamp e / 1000000000 ≤ until ∧
  wallet_signed k (sha256 (policy_store_message k version locked until data caller)) sig ∧
  (∀ x, wallet_policies (st w) !! k = Some x → wp_owner x = caller ∧ requested = None) ∧
  st w' = store_policy_effect (st w) caller k data version locked requested (block_timestamp e) ∧
  ∃ refund, 0 ≤ refund ∧
    attached_deposit e + from_option wp_storage_deposit 0 (wallet_policies (st w) !! k)
      = policy_deposit k data b + refund ∧
    out w' = out w ++ (if 0 <? refund then [Transfer (default caller b) refund] else []) ++
      [System (EvWalletPolicyUpdated k caller data
         (from_option wp_frozen false (wallet_policies (st w) !! k)) version locked)].
Proof.
  unfold store_wallet_policy, check_policy_inputs. intros Hr. cbv zeta.
  repeat first [minv_step | cinv_step | kinv_step | pinv_step]; cbn [st out] in *; prop_bool.
  set (k := lookup_wallet_pubkey key) in *. clearbody k.
  apply policy_beneficiary_ok in H8 as [Hout8 Hb].
  apply settle_policy_deposit_ok in H9 as (refund & Hpos & Hsum & -> & Hr).
  fold (policy_deposit k data a7) in *.
  unfold beneficiary_after, store_policy_effect, beneficiary_after. rewrite Hout8 in *.
  subst version. destruct (wallet_policies (st w) !! k) as [x|] eqn:E.
  - destruct Hb as (-> & -> & Hst). destruct Hr as [Ho ->]. minv.
    rewrite Hst in *. split_and!; try done; [naive_solver|].
    exists refund. by rewrite app_assoc.
  - destruct Hb as (-> & Hst). subst a8. minv. rewrite Hst.
    split_and!; try done; [by destruct requested|].
    exists refund. by rewrite app_assoc.
Qed.
End inversion.

(** * The invariant of the policy store *)

Record pol_ok (ps : gmap string WalletPolicyEntry) (ms : gmap string PolicyMeta)
    (idx : gmap AccountId (gset string)) (rf : gmap StorageItem AccountId) : Prop := {
  (* the index lists each controller's policies, and only those *)
  pol_index : ∀ a k, k ∈ default ∅ (idx !! a) ↔ ∃ x, ps !! k = Some x ∧ wp_owner x = a;
  (* a version record lives as long as its policy, and counts from one *)
  pol_meta : ∀ k, is_Some (ms !! k) ↔ is_Some (ps !! k);
  pol_version : ∀ k m, ms !! k = Some m → 1 ≤ pm_version m;
  (* a beneficiary lives no longer than its policy *)
  pol_refund : ∀ k, is_Some (rf !! WalletPolicyItem k) → is_Some (ps !! k);
  pol_deposit : ∀ k x, ps !! k = Some x → 0 < wp_storage_deposit x;
}.

Definition wallets_part (c : Contract) :=
  (wallet_policies c, policy_meta c, wallet_owner_index c, storage_refund_to c).
Definition wallets_ok (c : Contract) : Prop :=
  pol_ok (wallet_policies c) (policy_meta c) (wallet_owner_index c) (storage_refund_to c).

Lemma wallets_ok_frame c c' : wallets_part c' = wallets_part c → wallets_ok c → wallets_ok c'.
Proof. unfold wallets_part, wallets_ok. by intros [= -> -> -> ->]. Qed.

Lemma pol_empty : pol_ok ∅ ∅ ∅ ∅.
Proof.
  constructor; intros *; rewrite ?lookup_empty; cbn; try (by intros []); try done.
  split; [set_solver | by intros (x & ? & _)].
Qed.

Section preservation.
Context `{Platform}.

Lemma policy_deposit_pos k d b : 0 < policy_deposit k d b.
Proof.
  unfold policy_deposit, calculate_wallet_policy_storage_size, STORAGE_PRICE_PER_BYTE.
  pose proof (str_len_nonneg k). pose proof (str_len_nonneg d).
  destruct (bool_decide (is_Some b)); lia.
Qed.

(** Replacing an entry by one with the same owner and a positive deposit. *)
Lemma pol_update ps ms idx rf k x y :
  pol_ok ps ms idx rf → ps !! k = Some x → wp_owner y = wp_owner x → 0 < wp_storage_deposit y →
  pol_ok (<[k := y]> ps) ms idx rf.
Proof.
  intros [Hi Hm Hv Hr Hd] Hx Ho Hy. constructor.
  - intros a k'. rewrite Hi, lookup_insert. case_decide as E; [subst; rewrite Hx|]; naive_solver.
  - intros k'. rewrite Hm, is_Some_insert. naive_solver.
  - done.
  - intros k' Hk. apply is_Some_insert. auto.
  - intros k' z. rewrite lookup_insert. case_decide; naive_solver.
Qed.

Lemma pol_bump ps ms idx rf k m :
  pol_ok ps ms idx rf → is_Some (ps !! k) → 1 ≤ pm_version m →
  pol_ok ps (<[k := m]> ms) idx rf.
Proof.
  intros [Hi Hm Hv Hr Hd] Hx Hm1. constructor; try done.
  - intros k'. rewrite is_Some_insert, Hm. naive_solver.
  - intros k' z. rewrite lookup_insert. case_decide; naive_solver.
Qed.

Lemma pol_create ps ms idx rf k x m b :
  pol_ok ps ms idx rf → ps !! k = None → 1 ≤ pm_version m → 0 < wp_storage_deposit x →
  pol_ok (<[k := x]> ps) (<[k := m]> ms) (index_add idx (wp_owner x) k)
    (match b with Some b => <[WalletPolicyItem k := b]> rf | None => rf end).
Proof.
  intros [Hi Hm Hv Hr Hd] Hx Hm1 Hx1. constructor.
  - intros a k'. rewrite elem_index_add, Hi, lookup_insert.
    case_decide as E; [subst; rewrite Hx|]; naive_solver.
  - intros k'. rewrite !is_Some_insert, Hm. done.
  - intros k' z. rewrite lookup_insert. case_decide; naive_solver.
  - intros k' Hk. rewrite is_Some_insert. destruct b; [apply is_Some_insert in Hk|]; naive_solver.
  - intros k' z. rewrite lookup_insert. case_decide; naive_solver.
Qed.

Lemma pol_delete ps ms idx rf k x :
  pol_ok ps ms idx rf → ps !! k = Some x →
  pol_ok (delete k ps) (delete k ms) (index_remove idx (wp_owner x) k)
    (delete (WalletPolicyItem k) rf).
Proof.
  intros [Hi Hm Hv Hr Hd] Hx.
  assert (∀ {V} (m : gmap string V) k', is_Some (delete k m !! k') ↔ k' ≠ k ∧ is_Some (m !! k'))
    as Hdel by (intros; rewrite lookup_delete; case_decide; naive_solver).
  constructor.
  - intros a k'. rewrite elem_index_remove, Hi, lookup_delete.
    case_decide as E; [subst; rewrite Hx|]; naive_solver.
  - intros k'. rewrite !Hdel, Hm. done.
  - intros k' m [_ ?]%lookup_delete_Some. naive_solver.
  - intros k'. rewrite lookup_delete, Hdel. case_decide; naive_solver.
  - intros k' m [_ ?]%lookup_delete_Some. naive_solver.
Qed.

Lemma store_wallet_policy_inv e key data sig version locked until requested w u w' :
  wallets_ok (st w) →
  store_wallet_policy e key data sig version locked until requested w = Ok (u, w') →
  wallets_ok (st w').
Proof.
  intros I (Hv & _ & _ & _ & Ho & -> & _)%store_wallet_policy_ok.
  set (k := lookup_wallet_pubkey key) in *. clearbody k.
  assert (1 ≤ version).
  { unfold meta_of in Hv. destruct (policy_meta (st w) !! k) eqn:E; cbn in *; [|lia].
    apply (pol_version _ _ _ _ I) in E. lia. }
  unfold store_policy_effect, wallets_ok. cbn.
  destruct (wallet_policies (st w) !! k) as [x|] eqn:E.
  - destruct (Ho x eq_refl) as [Ho' ->]. 
    apply pol_bump; [| rewrite lookup_insert_eq; done | done].
    eapply pol_update; [exact I | done | done | apply policy_deposit_pos].
  - apply (pol_create _ _ _ _ k (mkPolicyEntry _ _ _ _ _)); try done. apply policy_deposit_pos.
Qed.

Lemma freeze_wallet_inv e key w u w' :
  wallets_ok (st w) → freeze_wallet e key w = Ok (u, w') → wallets_ok (st w').
Proof.
  unfold freeze_wallet. intros I Hr. repeat first [pinv_step|kinv_step|progress sinv].
  eapply pol_update; [exact I|done|done|]. cbn. eauto using pol_deposit.
Qed.

Lemma unfreeze_wallet_inv e key w u w' :
  wallets_ok (st w) → unfreeze_wallet e key w = Ok (u, w') → wallets_ok (st w').
Proof.
  unfold unfreeze_wallet. intros I Hr. repeat first [pinv_step|kinv_step|progress sinv].
  eapply pol_update; [exact I|done|done|]. cbn. eauto using pol_deposit.
Qed.

Lemma delete_wallet_policy_ok e key w u w' :
  delete_wallet_policy e key w = Ok (u, w') →
  let k := lookup_wallet_pubkey key in
  let caller := predecessor_account_id e in
  ∃ x, wallet_policies (st w) !! k = Some x ∧ wp_owner x = caller ∧
    pm_locked (meta_of (st w) k) = false ∧
    st w' = (st w) <| wallet_policies := delete k (wallet_policies (st w)) |>
      <| policy_meta := delete k (policy_meta (st w)) |>
      <| wallet_owner_index := index_remove (wallet_owner_index (st w)) caller k |>
      <| storage_refund_to := delete (WalletPolicyItem k) (storage_refund_to (st w)) |> ∧
    let to := default caller (storage_refund_to (st w) !! WalletPolicyItem k) in
    out w' = out w ++ (if 0 <? wp_storage_deposit x then [Transfer to (wp_storage_deposit x)] else [])
               ++ [System (EvWalletPolicyDeleted k caller to)].
Proof.
  unfold delete_wallet_policy. intros Hr. sinv. cbv zeta. eexists.
  split_and!; try done. by rewrite app_assoc.
Qed.

Lemma delete_wallet_policy_inv e key w u w' :
  wallets_ok (st w) → delete_wallet_policy e key w = Ok (u, w') → wallets_ok (st w').
Proof.
  intros I (x & Hx & Ho & _ & -> & _)%delete_wallet_policy_ok.
  unfold wallets_ok. cbn. rewrite <- Ho. by apply pol_delete.
Qed.

Lemma set_storage_refund_to_inv e item to w u w' :
  wallets_ok (st w) → set_storage_refund_to e item to w = Ok (u, w') → wallets_ok (st w').
Proof.
  unfold set_storage_refund_to, canonical_item. intros I Hr. destruct item as [k].
  repeat first [pinv_step|kinv_step|progress sinv]. destruct I as [? ? ? Hf ?].
  constructor; try done. intros k'. cbn. rewrite is_Some_insert. naive_solver.
Qed.
End preservation.

(** * Claims *)

Inductive WalletCall :=
| CallStorePolicy (key data sig : string) (version : Z) (locked : bool) (until : Z)
    (requested : option AccountId)
| CallFreeze (key : string)
| CallUnfreeze (key : string)
| CallDeletePolicy (key : string)
| CallSetRefundTo (item : StorageItem) (to : AccountId).

Definition run_wallet_call `{Platform} (e : Env) (call : WalletCall) : CM unit :=
  match call with
  | CallStorePolicy key data sig version locked until requested =>
    store_wallet_policy e key data sig version locked until requested
  | CallFreeze key => freeze_wallet e key
  | CallUnfreeze key => unfreeze_wallet e key
  | CallDeletePolicy key => delete_wallet_policy e key
  | CallSetRefundTo item to => set_storage_refund_to e item to
  end.

Section claims.
Context `{Platform}.

Lemma run_wallet_call_inv e call w u w' :
  wallets_ok (st w) → run_wallet_call e call w = Ok (u, w') → wallets_ok (st w').
Proof.
  destruct call; cbn; eauto using store_wallet_policy_inv, freeze_wallet_inv,
    unfreeze_wallet_inv, delete_wallet_policy_inv, set_storage_refund_to_inv.
Qed.

(** A policy write is exactly the one the wallet signed for: the signature
    covers this key, the next version, the lock, the deadline, the ciphertext
    and this caller; the view then shows precisely that, a freeze survives the
    edit, and an update leaves the beneficiary alone. *)
Theorem policy_store_exact e key data sig version locked until requested w u w' :
  store_wallet_policy e key data sig version locked until requested w = Ok (u, w') →
  let k := lookup_wallet_pubkey key in
  let caller := predecessor_account_id e in
  let old := get_wallet_policy (st w) key in
  version = pm_version (meta_of (st w) k) + 1 ∧
  block_timestamp e / 1000000000 ≤ until ∧
  wallet_signed k (sha256 (policy_store_message k version locked until data caller)) sig ∧
  (∀ x m b, old = Some (x, m, b) → wp_owner x = caller) ∧
  ∃ deposit, get_wallet_policy (st w') key =
    Some (mkPolicyEntry caller data
            (match old with Some (x, _, _) => wp_frozen x | None => false end)
            (block_timestamp e) deposit,
          mkPolicyMeta version locked,
          match old with
          | Some (_, _, b) => b
          | None => or_else requested (storage_refund_to (st w) !! WalletPolicyItem k)
          end).
Proof.
  intros (Hv & _ & Hu & Hs & Ho & -> & _)%store_wallet_policy_ok.
  unfold get_wallet_policy, store_policy_effect, beneficiary_after, meta_of in *.
  set (k := lookup_wallet_pubkey key) in *. clearbody k. cbn in *.
  split_and!; [done..| |].
  - destruct (wallet_policies (st w) !! k) as [x|]; cbn; [|done].
    intros ? ? ? [= <- _ _]. by apply Ho.
  - rewrite !lookup_insert_eq. cbn. eexists. repeat f_equal;
      destruct (wallet_policies (st w) !! k) as [x|]; cbn; try done.
    destruct requested; cbn; [by rewrite lookup_insert_eq | done].
Qed.

(** A version is written once: after a store, no call stores the same
    version under any spelling of that key while the policy is not deleted. *)
Theorem policy_replay_refused e key data sig version locked until requested w u w' :
  store_wallet_policy e key data sig version locked until requested w = Ok (u, w') →
  ∀ e2 key2 data2 sig2 locked2 until2 requested2 (w2 : CWorld),
    lookup_wallet_pubkey key2 = lookup_wallet_pubkey key →
    policy_meta (st w2) !! lookup_wallet_pubkey key
      = policy_meta (st w') !! lookup_wallet_pubkey key →
    is_ok (store_wallet_policy e2 key2 data2 sig2 version locked2 until2 requested2 w2) = false.
Proof.
  intros (Hv & _ & _ & _ & _ & -> & _)%store_wallet_policy_ok. intros * Hk Hm.
  destruct (store_wallet_policy e2 _ _ _ _ _ _ _ w2) as [[u2 w3]|] eqn:E; [|done].
  apply store_wallet_policy_ok in E as (Hv2 & _). exfalso.
  rewrite Hk in Hv2. unfold meta_of in Hv2. rewrite Hm in Hv2.
  unfold store_policy_effect in Hv2. cbn in Hv2. rewrite lookup_insert_eq in Hv2. cbn in Hv2. lia.
Qed.

(** Only the controller deletes a policy, and never a locked one; a delete
    clears the entry, the version record, the index and the beneficiary, and
    pays the whole deposit to the beneficiary, or to the controller when there
    is none. *)
Theorem policy_delete_effect e key w u w' :
  wallets_ok (st w) → delete_wallet_policy e key w = Ok (u, w') →
  let k := lookup_wallet_pubkey key in
  let caller := predecessor_account_id e in
  let to := default caller (storage_refund_to (st w) !! WalletPolicyItem k) in
  ∃ x, wallet_policies (st w) !! k = Some x ∧ wp_owner x = caller ∧
    pm_locked (meta_of (st w) k) = false ∧
    get_wallet_policy (st w') key = None ∧
    policy_meta (st w') !! k = None ∧ storage_refund_to (st w') !! WalletPolicyItem k = None ∧
    (∀ a, k ∉ default ∅ (wallet_owner_index (st w') !! a)) ∧
    transferred_to to (out w') = transferred_to to (out w) + wp_storage_deposit x ∧
    transferred (out w') = transferred (out w) + wp_storage_deposit x.
Proof.
  intros I Hd. pose proof (delete_wallet_policy_inv _ _ _ _ _ I Hd) as I'.
  apply delete_wallet_policy_ok in Hd as (x & Hx & Ho & Hl & Hst & Hout).
  pose proof (pol_deposit _ _ _ _ I _ _ Hx) as Hpos.
  assert (wallet_policies (st w') !! lookup_wallet_pubkey key = None) as Hnone
    by (rewrite Hst; apply lookup_delete_eq).
  exists x. cbv zeta. split_and!; try done.
  - unfold get_wallet_policy. by rewrite Hnone.
  - rewrite Hst. apply lookup_delete_eq.
  - rewrite Hst. apply lookup_delete_eq.
  - intros a. rewrite (pol_index _ _ _ _ I'), Hnone. naive_solver.
  - rewrite Hout, !transferred_to_app, transferred_to_refund by lia. cbn. lia.
  - rewrite Hout, !transferred_app, transferred_refund by lia. cbn. lia.
Qed.

(** The storage beneficiary of a policy changes only by its own call, or
    goes with the policy when that is deleted. *)
Theorem beneficiary_only_by_itself e call w u w' k b :
  run_wallet_call e call w = Ok (u, w') → wallets_ok (st w) →
  storage_refund_to (st w) !! WalletPolicyItem k = Some b →
  storage_refund_to (st w') !! WalletPolicyItem k = Some b ∨
  predecessor_account_id e = b ∨ wallet_policies (st w') !! k = None.
Proof.
  intros Hr I Hb. destruct call; cbn in Hr.
  - apply store_wallet_policy_ok in Hr as (_ & _ & _ & _ & _ & -> & _).
    left. unfold store_policy_effect. cbn. set (k' := lookup_wallet_pubkey key).
    destruct (wallet_policies (st w) !! k') eqn:E; [done|].
    destruct requested; [|done]. rewrite lookup_insert_ne; [done|]. intros [= ->].
    destruct (pol_refund _ _ _ _ I k ltac:(by eexists)). congruence.
  - left. unfold freeze_wallet in Hr. repeat first [pinv_step|kinv_step|progress sinv]. done.
  - left. unfold unfreeze_wallet in Hr. repeat first [pinv_step|kinv_step|progress sinv]. done.
  - apply delete_wallet_policy_ok in Hr as (x & _ & _ & _ & -> & _). cbn.
    rewrite !lookup_delete. case_decide; [right; right; by case_decide; naive_solver | by left].
  - unfold set_storage_refund_to, canonical_item in Hr. destruct item as [k'].
    repeat first [pinv_step|kinv_step|progress sinv]. cbn. rewrite lookup_insert.
    case_decide; [|by left]. right. left. simplify_eq. congruence.
Qed.
End claims.

(** * Witnesses *)

#[local] Existing Instance sample_platform.

Definition sample_key : string := "ed25519:" +:+ sample_hex32.
Definition sample_policy (version t : Z) : CM unit :=
  store_wallet_policy (sample_env "alice.near" ONE_NEAR t) sample_key "policy"
    (sample_hex32 +:+ sample_hex32) version false 100 (Some "sponsor.near").
Definition with_policy : CWorld := ran (sample_policy 1 0) (start sample_contract).

Lemma policy_store_exact_witness :
  ∃ deposit, get_wallet_policy (st with_policy) sample_key =
    Some (mkPolicyEntry "alice.near" "policy" false 0 deposit, mkPolicyMeta 1 false,
          Some "sponsor.near").
Proof.
  destruct (policy_store_exact (sample_env "alice.near" ONE_NEAR 0) sample_key "policy"
    (sample_hex32 +:+ sample_hex32) 1 false 100 (Some "sponsor.near") (start sample_contract) tt
    with_policy) as (_ & _ & _ & _ & d & Hd).
  - apply ran_ok. vm_compute. reflexivity.
  - exists d. exact Hd.
Defined.

Lemma policy_replay_refused_witness :
  is_ok (sample_policy 1 0 with_policy) = false.
Proof.
  refine (policy_replay_refused (sample_env "alice.near" ONE_NEAR 0) sample_key "policy"
    (sample_hex32 +:+ sample_hex32) 1 false 100 (Some "sponsor.near") (start sample_contract) tt
    with_policy _ _ _ _ _ _ _ _ _ eq_refl eq_refl).
  apply ran_ok. vm_compute. reflexivity.
Defined.

Lemma sample_wallets_ok : wallets_ok sample_contract.
Proof. exact pol_empty. Qed.

Lemma with_policy_ok : wallets_ok (st with_policy).
Proof.
  eapply (store_wallet_policy_inv _ _ _ _ _ _ _ _ (start sample_contract));
    [exact sample_wallets_ok|].
  apply (ran_ok (sample_policy 1 0)). vm_compute. reflexivity.
Qed.

Definition sample_delete_policy : CM unit :=
  delete_wallet_policy (sample_env "alice.near" 0 5) sample_key.

Lemma policy_delete_effect_witness :
  get_wallet_policy (st (ran sample_delete_policy with_policy)) sample_key = None.
Proof.
  destruct (policy_delete_effect (sample_env "alice.near" 0 5) sample_key with_policy tt
    (ran sample_delete_policy with_policy)) as (x & _ & _ & _ & Hn & _).
  - exact with_policy_ok.
  - apply ran_ok. vm_compute. reflexivity.
  - exact Hn.
Defined.

Lemma beneficiary_only_by_itself_witness :
  let call := CallSetRefundTo (WalletPolicyItem sample_key) "carol.near" in
  storage_refund_to (st (ran (run_wallet_call (sample_env "sponsor.near" 0 5) call) with_policy))
    !! WalletPolicyItem sample_key = Some "sponsor.near" ∨
  "sponsor.near" = "sponsor.near" ∨
  wallet_policies (st (ran (run_wallet_call (sample_env "sponsor.near" 0 5) call) with_policy))
    !! sample_key = None.
Proof.
  cbv zeta. eapply (beneficiary_only_by_itself (sample_env "sponsor.near" 0 5) _ with_policy tt).
  - apply ran_ok. vm_compute. reflexivity.
  - exact with_policy_ok.
  - vm_compute. reflexivity.
Defined.

(** Deleting a policy restarts its version count, so a signature already
    used for version 1 can be filed again afterwards while its deadline lasts. *)
Theorem policy_signature_reusable_after_delete :
  is_ok (sample_policy 1 0 (start sample_contract)) = true ∧
  is_ok (sample_delete_policy with_policy) = true ∧
  is_ok (sample_policy 1 6 (ran sample_delete_policy with_policy)) = true.
Proof. vm_compute. auto. Qed.
