(* ===== verification/Payment.v ===== *)
(** Money that arrives as tokens (contract/src/payment.rs) and leaves as
    developer earnings (contract/src/lib.rs): the NEP-141 receiver with its three
    actions, the top-up and delete yields of a payment key with their callbacks,
    the top-up with NEAR, and the withdrawal of earnings. *)

From S2P Require Export Wallet.

Definition MIN_TOP_UP_AMOUNT : Z := 10000.
Definition MIN_NEAR_DEPOSIT : Balance := 10000000000000000000000.
Definition WNEAR_CONTRACT : string := "wrap.near".
Definition EXECUTION_COST : Balance := 10000000000000000000000.
(** The deposit [internal_request_token_swap] attaches to its own call. *)
Definition SWAP_REQUEST_DEPOSIT : Balance := 15000000000000000000000.

Definition payment_key (owner : AccountId) (nonce : Z) : SecretKey :=
  mkSecretKey (AccSystem PaymentKey) (uint_to_string nonce) owner.

Section payment.
Context `{Platform}.

Definition assert_operator (e : Env) : CM unit :=
  let! c := get_st in
  require (bool_decide (predecessor_account_id e = operator_id c)) "Only operator can call this".

(** NEP-141: nothing of the transfer goes back. *)
Definition keep_everything : CM unit := emit (ValueReturnU128 0).

Definition emit_system_event (event : SystemEvent) : CM unit := emit (System event).

(** * The three actions of [ft_on_transfer] *)

Definition handle_buy_subscription (owner payer : AccountId) (amount nonce plan_index : Z)
    : CM unit :=
  let! c := get_st in
  let! plan := unwrap (plan_for_sale (subscription_plans c) plan_index amount)
    "No plan on sale that the amount covers" in
  require (bool_decide (is_Some (secrets_storage c !! payment_key owner nonce)))
    "No payment key. Create it before buying a subscription for it." >>>
  emit_system_event (EvSubscriptionPurchased owner nonce (Types.plan_index plan) amount payer) >>>
  keep_everything.

Definition handle_deposit_balance (sender_id : AccountId) (amount : Z) : CM unit :=
  let! c := get_st in
  let! credited := add128 (balance (user_stablecoin_balances c) sender_id) amount in
  modify (λ c, c <| user_stablecoin_balances :=
    <[sender_id := credited]> (user_stablecoin_balances c) |>) >>>
  keep_everything.

Definition handle_top_up (e : Env) (sender_id : AccountId) (amount nonce : Z) : CM unit :=
  require (MIN_TOP_UP_AMOUNT <=? amount) "Minimum top-up is $0.01" >>>
  let! c := get_st in
  let! secret_profile := unwrap (secrets_storage c !! payment_key sender_id nonce)
    "Payment key not found. Create it first with store_secrets()" in
  emit (YieldTopUp (yield_data_id e) sender_id nonce amount) >>>
  emit_system_event (EvTopUpPaymentKey (yield_data_id e) sender_id nonce amount
                       (sp_encrypted_secrets secret_profile)).

Definition ft_on_transfer (e : Env) (sender_id : AccountId) (amount : Z) (msg : string) : CM unit :=
  assert_no_deposit e >>>
  let token_contract := predecessor_account_id e in
  let! c := get_st in
  let! configured_token := unwrap (payment_token_contract c)
    "Payment token contract not configured" in
  require (bool_decide (token_contract = configured_token)) "Invalid token contract" >>>
  let! action := unwrap (json_ft_action msg) "Invalid msg format" in
  match action with
  | TopUpPaymentKey nonce owner => handle_top_up e (default sender_id owner) amount nonce
  | DepositBalance => handle_deposit_balance sender_id amount
  | BuySubscription nonce owner plan =>
    handle_buy_subscription (default sender_id owner) sender_id amount nonce plan
  end.

(** * Top-up: the yield's callback and its resume *)

(** What goes back to the token contract: 0 keeps everything. *)
Definition on_top_up_response (e : Env) (owner : AccountId) (nonce amount : Z)
    (result : callback_result TopUpResult) : CM unit :=
  assert_private e >>>
  match result with
  | CbOk (TopUpSuccess new_encrypted_data) =>
    let! c := get_st in
    match secrets_storage c !! payment_key owner nonce with
    | Some p =>
      let p := mkSecretProfile new_encrypted_data (sp_access p) (sp_created_at p)
                 (block_timestamp e) (sp_storage_deposit p) in
      modify (λ c, c <| secrets_storage :=
        <[payment_key owner nonce := p]> (secrets_storage c) |>) >>>
      emit (ValueReturnU128 0)
    | None => emit (ValueReturnU128 amount)
    end
  | CbOk (TopUpError _) => emit (ValueReturnU128 amount)
  | CbErr => emit (ValueReturnU128 amount)
  end.

(** Hex text of a 32-byte data id. *)
Definition decode_data_id (data_id : string) : CM CryptoHash :=
  let! bytes := unwrap (hex_decode data_id) "Invalid data_id hex" in
  require (str_len bytes =? 32) "Invalid data_id length" >>>
  ret bytes.

Definition resume_topup (e : Env) (data_id : string) (result : TopUpResult) : CM unit :=
  assert_no_deposit e >>>
  assert_operator e >>>
  let! data_id_hash := decode_data_id data_id in
  require (yield_resumable e data_id_hash) "TopUp yield resume failed: no yield" >>>
  emit (ResumeTopUp data_id_hash result).

(** * Deleting a payment key *)

Definition delete_payment_key (e : Env) (nonce : Z) : CM unit :=
  let caller := predecessor_account_id e in
  require (1 <=? attached_deposit e) "Requires attached deposit of at least 1 yoctoNEAR" >>>
  let! c := get_st in
  require (bool_decide (is_Some (secrets_storage c !! payment_key caller nonce)))
    "Payment key not found" >>>
  emit (YieldDelete (yield_data_id e) caller nonce) >>>
  emit_system_event (EvDeletePaymentKey (yield_data_id e) caller nonce).

Definition on_delete_payment_key_response (e : Env) (owner : AccountId) (nonce : Z)
    (result : callback_result DeletePaymentKeyResult) : CM unit :=
  assert_private e >>>
  match result with
  | CbOk DeleteSuccess =>
    delete_secrets_internal (payment_key owner nonce) owner owner >>>
    modify (raise_payment_key_nonce_floor owner nonce)
  | CbOk (DeleteError _) => ret tt
  | CbErr => ret tt
  end.

Definition resume_delete_payment_key (e : Env) (data_id : string)
    (result : DeletePaymentKeyResult) : CM unit :=
  assert_no_deposit e >>>
  assert_operator e >>>
  let! data_id_hash := decode_data_id data_id in
  require (yield_resumable e data_id_hash) "DeletePaymentKey yield resume failed: no yield" >>>
  emit (ResumeDelete data_id_hash result).

(** * Top-up with NEAR *)

Definition internal_request_token_swap (e : Env) (owner : AccountId) (nonce : Z)
    (token_id amount swap_contract_id : string) : CM unit :=
  emit (FunctionCall (current_account_id e) "request_execution"
    (RequestExecutionArgs "publishintent.near/payment-keys-with-intents"
       (mkLimits (Some 10000000000) (Some 256) (Some 120))
       owner nonce token_id amount swap_contract_id
       (mkSecretsRef "intents-swap" "publishintent.near"))
    SWAP_REQUEST_DEPOSIT).

Definition top_up_payment_key_with_near (e : Env) (nonce : Z) (swap_contract_id : AccountId)
    : CM unit :=
  assert_not_paused >>>
  let caller := predecessor_account_id e in
  let wrap_amount := saturating_sub (attached_deposit e) EXECUTION_COST in
  require (MIN_NEAR_DEPOSIT <=? wrap_amount) "Minimum deposit is 0.01 NEAR + execution cost" >>>
  let! c := get_st in
  require (bool_decide (is_Some (secrets_storage c !! payment_key caller nonce)))
    "Payment key not found. Create it first with store_secrets()" >>>
  let! fee := add128 (base_fee c) 1 in
  require (fee <=? EXECUTION_COST) "EXECUTION_COST must cover base_fee + ft_transfer deposit" >>>
  emit (FunctionCall WNEAR_CONTRACT "near_deposit" NoArgs wrap_amount) >>>
  emit (FunctionCall WNEAR_CONTRACT "ft_transfer"
          (FtTransferArgs swap_contract_id wrap_amount) 1) >>>
  internal_request_token_swap e caller nonce WNEAR_CONTRACT (uint_to_string wrap_amount)
    swap_contract_id.

Definition top_up_payment_key_with_token (e : Env) (nonce : Z) (token_id : AccountId)
    (amount : Z) (swap_contract_id : AccountId) : CM unit :=
  assert_no_deposit e >>>
  panic "top_up_payment_key_with_token is disabled (naive, front-runnable design).".

(** * Developer earnings (contract/src/lib.rs) *)

Definition withdraw_developer_earnings (e : Env) : CM unit :=
  require (1 <=? attached_deposit e) "Requires attached deposit of at least 1 yoctoNEAR" >>>
  let caller := predecessor_account_id e in
  let! c := get_st in
  let amount := balance (developer_earnings c) caller in
  require (0 <? amount) "No earnings to withdraw" >>>
  let! token_contract := unwrap (payment_token_contract c)
    "Payment token contract not configured" in
  modify (λ c, c <| developer_earnings := delete caller (developer_earnings c) |>) >>>
  emit (WithdrawCall token_contract caller amount).

Definition on_withdraw_developer_earnings (e : Env) (developer : AccountId) (amount : Z)
    (transfer_result : callback_result unit) : CM unit :=
  assert_private e >>>
  match transfer_result with
  | CbOk _ => ret tt
  | CbErr =>
    let! c := get_st in
    let! restored := add128 (balance (developer_earnings c) developer) amount in
    modify (λ c, c <| developer_earnings := <[developer := restored]> (developer_earnings c) |>)
  end.
End payment.

(** * Claims *)

(** The deposits a list of actions attaches to cross-contract calls. *)
Definition promised {J} (l : list (Action J)) : Z :=
  foldr (λ a acc, (match a with FunctionCall _ _ _ d => d | Transfer _ d => d | _ => 0 end) + acc) 0 l.

Lemma promised_app {J} (l k : list (Action J)) : promised (l ++ k) = promised l + promised k.
Proof. unfold promised. induction l as [|a l IH]; cbn; [done | rewrite IH; lia]. Qed.

Section claims.
Context `{Platform}.

Lemma on_top_up_response_ok e owner nonce amount result w u w' :
  on_top_up_response e owner nonce amount result w = Ok (u, w') →
  predecessor_account_id e = current_account_id e ∧
  ((∃ data p, result = CbOk (TopUpSuccess data) ∧
      secrets_storage (st w) !! payment_key owner nonce = Some p ∧
      w' = mkWorld ((st w) <| secrets_storage := <[payment_key owner nonce :=
             mkSecretProfile data (sp_access p) (sp_created_at p) (block_timestamp e)
               (sp_storage_deposit p)]> (secrets_storage (st w)) |>) (out w ++ [ValueReturnU128 0]))
   ∨ ((∀ data, result = CbOk (TopUpSuccess data) →
         secrets_storage (st w) !! payment_key owner nonce = None) ∧
      w' = mkWorld (st w) (out w ++ [ValueReturnU128 amount]))).
Proof.
  unfold on_top_up_response. intros Hr. sinv. split; [done|].
  destruct result as [[data|m]|]; sinv; [|right; split; done..].
  destruct (secrets_storage (st w) !! payment_key owner nonce) as [p|] eqn:E; sinv.
  - left. exists data, p. done.
  - right. split; [done|]. done.
Qed.

(** A top-up is all or nothing.  The tokens are kept (0 is returned) exactly
    when the key still exists and now holds the re-encrypted balance, with its
    condition, creation time and deposit as they were; in every other case the
    whole amount goes back and nothing is written. *)
Theorem top_up_all_or_nothing e owner nonce amount result w u w' :
  on_top_up_response e owner nonce amount result w = Ok (u, w') →
  (∃ data old new, result = CbOk (TopUpSuccess data) ∧
     secrets_storage (st w) !! payment_key owner nonce = Some old ∧
     secrets_storage (st w') = <[payment_key owner nonce := new]> (secrets_storage (st w)) ∧
     sp_encrypted_secrets new = data ∧ sp_access new = sp_access old ∧
     sp_created_at new = sp_created_at old ∧ sp_storage_deposit new = sp_storage_deposit old ∧
     out w' = out w ++ [ValueReturnU128 0])
  ∨ (st w' = st w ∧ out w' = out w ++ [ValueReturnU128 amount] ∧
     ∀ data, result = CbOk (TopUpSuccess data) →
       secrets_storage (st w) !! payment_key owner nonce = None).
Proof.
  intros [_ [(data & p & -> & Hp & ->)|[Hn ->]]]%on_top_up_response_ok.
  - left. eexists data, p, _. split_and!; [done | done | reflexivity | done..].
  - right. done.
Qed.

(** Tokens are taken only from the configured contract, and only for what
    they buy: a deposit credits the sender by exactly the amount, a
    subscription needs an active plan the amount covers and an existing key and
    reports the whole amount, and a top-up keeps nothing before the worker's
    answer. *)
Theorem token_receipt_effect e sender amount msg w u w' :
  ft_on_transfer e sender amount msg w = Ok (u, w') →
  payment_token_contract (st w) = Some (predecessor_account_id e) ∧
  ∃ action, json_ft_action msg = Some action ∧
  match action with
  | DepositBalance =>
    (∀ a, balance (user_stablecoin_balances (st w')) a
       = balance (user_stablecoin_balances (st w)) a + if decide (a = sender) then amount else 0) ∧
    out w' = out w ++ [ValueReturnU128 0]
  | BuySubscription nonce owner plan =>
    let who := default sender owner in
    st w' = st w ∧ is_Some (secrets_storage (st w) !! payment_key who nonce) ∧
    (∃ p, p ∈ subscription_plans (st w) ∧ plan_index p = plan ∧ plan_active p = true ∧
       plan_price_usd p ≤ amount) ∧
    out w' = out w ++ [System (EvSubscriptionPurchased who nonce plan amount sender);
                       ValueReturnU128 0]
  | TopUpPaymentKey nonce owner =>
    let who := default sender owner in
    st w' = st w ∧ MIN_TOP_UP_AMOUNT ≤ amount ∧
    ∃ p, secrets_storage (st w) !! payment_key who nonce = Some p ∧
      out w' = out w ++ [YieldTopUp (yield_data_id e) who nonce amount;
        System (EvTopUpPaymentKey (yield_data_id e) who nonce amount (sp_encrypted_secrets p))]
  end.
Proof.
  unfold ft_on_transfer. intros Hr. sinv. subst. split; [done|]. eexists. split; [eassumption|].
  match goal with Hj : json_ft_action msg = Some ?x |- _ => destruct x as [n o| |n o pl] end.
  - unfold handle_top_up, emit_system_event in *. sinv. split_and!; try done.
    eexists. split; [eassumption|]. by rewrite <- app_assoc.
  - unfold handle_deposit_balance, keep_everything in *. sinv. split; [|done]. intros a.
    unfold balance. cbn. rewrite lookup_insert. repeat case_decide; subst; try done; cbn; lia.
  - unfold handle_buy_subscription, emit_system_event, keep_everything in *. sinv.
    match goal with Hp : plan_for_sale _ _ _ = Some ?p |- _ => unfold plan_for_sale in Hp; rename p into q;
      destruct (list_find _ _) as [[i x]|] eqn:F; [|done]; destruct (plan_price_usd x <=? amount) eqn:G; [|done];
      injection Hp as -> end.
    apply list_find_Some in F as (Hi & [<- Ha] & _). prop_bool. split_and!; try done.
    + exists q. split_and!; try done. by eapply list_elem_of_lookup_2.
    + by rewrite <- app_assoc.
Qed.

(** Deleting a payment key removes it, pays its deposit to its owner and
    leaves its nonce used; a failure or timeout of the worker changes nothing. *)
Theorem payment_key_delete_effect e owner nonce result w u w' :
  on_delete_payment_key_response e owner nonce result w = Ok (u, w') → secrets_ok (st w) →
  match result with
  | CbOk DeleteSuccess =>
    ∃ p, secrets_storage (st w) !! payment_key owner nonce = Some p ∧
      secrets_storage (st w') = delete (payment_key owner nonce) (secrets_storage (st w)) ∧
      transferred_to owner (out w') = transferred_to owner (out w) + sp_storage_deposit p ∧
      nonce ≤ payment_key_nonce_floor (st w') owner ∧
      payment_key_nonce_floor (st w) owner ≤ payment_key_nonce_floor (st w') owner
  | _ => w' = w
  end.
Proof.
  unfold on_delete_payment_key_response. intros Hr S. sinv.
  destruct result as [[|m]|]; sinv; try done.
  match goal with Hd : delete_secrets_internal _ _ _ _ = _ |- _ =>
    apply delete_secrets_internal_ok in Hd as (p & Hp & Hst & Hout) end.
  pose proof (sec_deposit _ _ _ _ S _ _ Hp). exists p.
  unfold raise_payment_key_nonce_floor, payment_key_nonce_floor. rewrite Hst. cbn.
  split_and!; [done | | by rewrite Hout, transferred_to_app, transferred_to_refund by lia | |];
    destruct (payment_key_nonce_floors (st w) !! owner) as [f|] eqn:Ef; cbn;
    try destruct (f <? nonce) eqn:G; prop_bool; cbn; rewrite ?lookup_insert_eq, ?Ef; cbn;
    try done; try lia.
  destruct (sec_floor _ _ _ _ S (payment_key owner nonce)) as (k & Hk & Hb & Hf); [by eexists|done|].
  cbn in Hk, Hf. rewrite Ef in Hf. cbn in Hf. lia.
Qed.

(** The top-up with NEAR promises more than it was given: what it attaches to
    its three calls exceeds the caller's deposit by 0.005 NEAR and one yocto,
    paid by the contract. *)
Theorem near_top_up_overspends e nonce swap w u w' :
  top_up_payment_key_with_near e nonce swap w = Ok (u, w') →
  promised (out w') = promised (out w) + attached_deposit e + 5000000000000000000001.
Proof.
  unfold top_up_payment_key_with_near, internal_request_token_swap. intros Hr.
  repeat first [minv_step | cinv_step | pinv_step]; cbn [st out] in *; prop_bool.
  rewrite !promised_app. cbn. unfold MIN_NEAR_DEPOSIT, EXECUTION_COST, SWAP_REQUEST_DEPOSIT, saturating_sub in *. lia.
Qed.
End claims.

(** * Witnesses *)

#[local] Existing Instance sample_platform.

Definition with_key : CWorld := ran sample_payment_key (start sample_contract).

Lemma with_key_ok : secrets_ok (st with_key).
Proof.
  refine (store_secrets_internal_inv _ _ _ _ _ _ _ _ (start sample_contract) tt _ sec_empty _).
  unfold with_key. apply (ran_ok sample_payment_key). vm_compute. reflexivity.
Qed.

Lemma top_up_all_or_nothing_witness :
  let op := on_top_up_response (sample_env "outlayer.near" 0 9) "alice.near" 1 20000
              (CbOk (TopUpSuccess "Qg==")) in
  ∃ new, secrets_storage (st (ran op with_key)) !! payment_key "alice.near" 1 = Some new ∧
    sp_encrypted_secrets new = "Qg==".
Proof.
  cbv zeta. set (op := on_top_up_response _ _ _ _ _).
  destruct (top_up_all_or_nothing (sample_env "outlayer.near" 0 9) "alice.near" 1 20000
    (CbOk (TopUpSuccess "Qg==")) with_key tt (ran op with_key))
    as [(d & old & new & Hr & _ & Hs & He & _)|(_ & _ & Hn)].
  - apply (ran_ok op). vm_compute. reflexivity.
  - exists new. split; [rewrite Hs; apply lookup_insert_eq|]. rewrite He. congruence.
  - specialize (Hn _ eq_refl). vm_compute in Hn. discriminate Hn.
Defined.

Lemma token_receipt_effect_witness :
  let op := ft_on_transfer (sample_env "usdt.near" 0 9) "alice.near" 500 "deposit_balance" in
  balance (user_stablecoin_balances (st (ran op (start sample_contract)))) "alice.near" = 500.
Proof.
  cbv zeta. set (op := ft_on_transfer _ _ _ _).
  destruct (token_receipt_effect (sample_env "usdt.near" 0 9) "alice.near" 500 "deposit_balance"
    (start sample_contract) tt (ran op (start sample_contract))) as (_ & a & Ha & Hb).
  - apply (ran_ok op). vm_compute. reflexivity.
  - vm_compute in Ha. injection Ha as <-. destruct Hb as [Hb _]. rewrite Hb. vm_compute. reflexivity.
Defined.

Lemma payment_key_delete_effect_witness :
  let op := on_delete_payment_key_response (sample_env "outlayer.near" 0 9) "alice.near" 1
              (CbOk DeleteSuccess) in
  1 ≤ payment_key_nonce_floor (st (ran op with_key)) "alice.near".
Proof.
  cbv zeta. set (op := on_delete_payment_key_response _ _ _ _).
  destruct (payment_key_delete_effect (sample_env "outlayer.near" 0 9) "alice.near" 1
    (CbOk DeleteSuccess) with_key tt (ran op with_key)) as (p & _ & _ & _ & Hf & _).
  - apply (ran_ok op). vm_compute. reflexivity.
  - exact with_key_ok.
  - exact Hf.
Defined.

Lemma near_top_up_overspends_witness :
  let op := top_up_payment_key_with_near (sample_env "alice.near" ONE_NEAR 9) 1 "swap.near" in
  promised (out (ran op with_key)) = promised (out with_key) + ONE_NEAR + 5000000000000000000001.
Proof.
  cbv zeta. set (op := top_up_payment_key_with_near _ _ _).
  apply (near_top_up_overspends (sample_env "alice.near" ONE_NEAR 9) 1 "swap.near" with_key tt).
  apply (ran_ok op). vm_compute. reflexivity.
Defined.
