(* ===== verification/Execution.v ===== *)
(** Execution requests (contract/src/execution.rs): admission with its prices and
    deposits, the worker's output and resolution, the settlement callback on its
    three branches, and the sender's cancel of a stale request. *)

From S2P Require Export Payment.

(** * Output conversions (contract/src/lib.rs) *)

Section outputs.
Context `{Platform}.

Definition stored_of_output (output : ExecutionOutput json) : StoredOutput :=
  match output with
  | OutBytes bytes => SOBytes bytes
  | OutText text => SOText text
  | OutJson value => SOJson (json_to_string value)
  end.

Definition output_of_stored (stored : StoredOutput) : ExecutionOutput json :=
  match stored with
  | SOBytes bytes => OutBytes bytes
  | SOText bytes => OutText (if utf8_valid (str_bytes bytes) then bytes else "[invalid UTF-8]")
  | SOJson bytes =>
    let json_str := if utf8_valid (str_bytes bytes) then bytes else "" in
    OutJson (default json_null (json_from_str json_str))
  end.

(** The bytes the settlement callback answers with. *)
Definition output_return_bytes (output : option StoredOutput) : string :=
  match output with
  | None => "null"
  | Some (SOJson bytes) => if str_is_empty bytes then "null" else bytes
  | Some (SOText bytes) =>
    json_quote (if utf8_valid (str_bytes bytes) then bytes else "[invalid UTF-8]")
  | Some (SOBytes bytes) => json_quote (base64_encode bytes)
  end.
End outputs.

Section execution.
Context `{Platform}.

(** * Money of a request *)

Definition return_attached_usd (account : AccountId) (amount : Z) : CM unit :=
  if amount =? 0 then ret tt else
  let! c := get_st in
  let! credited := add128 (balance (user_stablecoin_balances c) account) amount in
  modify (λ c, c <| user_stablecoin_balances :=
    <[account := credited]> (user_stablecoin_balances c) |>).

Definition credit_earnings (account : AccountId) (amount : Z) : CM unit :=
  let! c := get_st in
  let! credited := add128 (balance (developer_earnings c) account) amount in
  modify (λ c, c <| developer_earnings := <[account := credited]> (developer_earnings c) |>).

(** * Admission *)

Definition resolve_execution_source (c : Contract) (source : ExecutionSource)
    : CM (CodeSource * option string) :=
  match source with
  | ESGitHub repo commit build_target => ret (GitHub repo commit build_target, None)
  | ESWasmUrl url hash build_target => ret (WasmUrl url hash build_target, None)
  | ESProject project_id version_key =>
    let! project := unwrap (projects c !! project_id) "Project not found" in
    let! version_to_use :=
      match version_key with
      | Some v => ret v
      | None =>
        require (negb (str_is_empty (proj_active_version project)))
          "Project has no active version" >>>
        ret (proj_active_version project)
      end in
    let! versions := unwrap (project_versions c !! proj_uuid project)
      "Project versions not found" in
    let! version_info := unwrap (versions !! version_to_use) "Version not found" in
    ret (vi_source version_info, Some (proj_uuid project))
  end.

Definition project_of_source (source : ExecutionSource) : option string :=
  match source with ESProject project_id _ => Some project_id | _ => None end.

Definition is_wasm_url (source : CodeSource) : bool :=
  match source with WasmUrl _ _ _ => true | _ => false end.

(** The checks on the request's parameters and limits. *)
Definition check_request (resolved : CodeSource) (params : RequestParams) (compile : bool)
    (limits : ResourceLimits) (input_data : option string) : CM unit :=
  require (negb (is_wasm_url resolved && force_rebuild params))
    "force_rebuild is not applicable for WasmUrl code source" >>>
  require (negb (store_on_fastfs params && negb (force_rebuild params)))
    "store_on_fastfs requires force_rebuild to ensure fresh compilation and upload" >>>
  require (negb (compile && negb (str_is_empty (default "" input_data))))
    "input_data must be empty for compile_only mode" >>>
  if compile then ret tt else
  require (default 0 (max_instructions limits) <=? MAX_INSTRUCTIONS)
    "Requested max_instructions exceeds hard limit" >>>
  require (default 0 (max_execution_seconds limits) <=? MAX_EXECUTION_SECONDS)
    "Requested max_execution_seconds exceeds hard limit" >>>
  require (default 0 (max_memory_mb limits) <=? MAX_MEMORY_MB)
    "Requested max_memory_mb exceeds hard limit".

(** A priced project is charged at least the price of the operation its input
    names. *)
Definition check_operation_price (c : Contract) (project_id : option string)
    (input_data : option string) (attached_usd : Z) : CM unit :=
  match project_id ≫= λ id, project_pricing c !! id with
  | None => ret tt
  | Some pricing =>
    match operation_from_input input_data with
    | inr _ => panic "Project is priced per operation"
    | inl operation =>
      let! price := unwrap (price_for_operation pricing operation)
        "Project does not sell this operation" in
      require (price <=? attached_usd) "attach at least the price as attached_usd"
    end
  end.

Definition debit_attached_usd (e : Env) (source : ExecutionSource) (attached_usd : Z) : CM unit :=
  if 0 <? attached_usd then
    require (bool_decide (is_Some (project_of_source source)))
      "attached_usd is only valid for Project execution source" >>>
    let! c := get_st in
    let caller := predecessor_account_id e in
    let user_balance := balance (user_stablecoin_balances c) caller in
    require (attached_usd <=? user_balance) "Insufficient stablecoin balance" >>>
    modify (λ c, c <| user_stablecoin_balances :=
      <[caller := user_balance - attached_usd]> (user_stablecoin_balances c) |>)
  else ret tt.

Definition str_opt_len (o : option string) : Z := from_option str_len 0 o.

(** Files the request: the yield, the stored request and the worker's event. *)
Definition file_request (e : Env) (source : ExecutionSource) (resolved : CodeSource)
    (limits : ResourceLimits) (input_data : option string)
    (secrets_ref : option SecretsReference) (format : ResponseFormat)
    (payer : option AccountId) (params : RequestParams) (compile : bool)
    (attached_usd : Z) : CM unit :=
  let! c := get_st in
  let request_id := next_request_id c in
  let! next := add64 request_id 1 in
  modify (λ c, c <| next_request_id := next |>) >>>
  let payment := attached_deposit e in
  let predecessor_id := predecessor_account_id e in
  let in_state := from_option (λ d, INPUT_DATA_EVENT_THRESHOLD <=? str_len d) false input_data in
  let request_data := mkRequestData request_id (signer_account_id e) predecessor_id resolved
    limits (if in_state then "" else default "" input_data) in_state secrets_ref format payment
    attached_usd (block_timestamp e) compile (force_rebuild params) (store_on_fastfs params)
    (use_bound_identity params) (param_project_uuid params) (project_of_source source) in
  emit (YieldExecution (yield_data_id e) request_data (response_gas (str_opt_len input_data))) >>>
  let request := mkRequest request_id (yield_data_id e) predecessor_id source resolved limits
    payment (block_timestamp e) secrets_ref format input_data (default predecessor_id payer)
    attached_usd None false in
  modify (λ c, c <| pending_requests := <[request_id := request]> (pending_requests c) |>) >>>
  emit (ExecutionRequested request_data (yield_data_id e)).

Definition request_execution (e : Env) (source : ExecutionSource)
    (resource_limits : option ResourceLimits) (input_data : option string)
    (secrets_ref : option SecretsReference) (response_format : option ResponseFormat)
    (payer_account_id : option AccountId) (params : option RequestParams) : CM unit :=
  assert_not_paused >>>
  require (bool_decide ((secrets_ref ≫= λ r, profile_shape_error (ref_profile r)) = None))
    "secrets_ref.profile: the contract stores no such profile" >>>
  let! c := get_st in
  let! '(resolved_source, project_uuid) := resolve_execution_source c source in
  (if bool_decide (is_Some (project_of_source source)) then ret tt
   else assert_code_source resolved_source) >>>
  let limits := default default_limits resource_limits in
  let given := default default_params params in
  let request_params := mkRequestParams (force_rebuild given) (store_on_fastfs given)
    (compile_only given) project_uuid (param_attached_usd given) (use_bound_identity given) in
  let compile := compile_only request_params || bool_decide (resource_limits = None) in
  check_request resolved_source request_params compile limits input_data >>>
  let! estimated_cost := if compile then ret (base_fee c) else estimate_cost c limits in
  let attached_usd := default 0 (param_attached_usd request_params) in
  (if compile then ret tt
   else check_operation_price c (project_of_source source) input_data attached_usd) >>>
  debit_attached_usd e source attached_usd >>>
  let input_storage := input_storage_deposit (str_opt_len input_data) in
  let! required_payment := add128 estimated_cost input_storage in
  require (required_payment <=? attached_deposit e) "Insufficient payment" >>>
  file_request e source resolved_source limits input_data secrets_ref
    (default FmtText response_format) payer_account_id request_params compile attached_usd.

(** * The worker's side *)

Definition submit_execution_output_internal (request_id : Z) (output : ExecutionOutput json)
    : CM unit :=
  let! c := get_st in
  let! request := unwrap (pending_requests c !! request_id) "Execution request not found" in
  require (negb (req_output_submitted request)) "Output already submitted for this request" >>>
  let request := request <| req_pending_output := Some (stored_of_output output) |>
                         <| req_output_submitted := true |> in
  modify (λ c, c <| pending_requests := <[request_id := request]> (pending_requests c) |>).

Definition resolve_execution_internal (e : Env) (request_id : Z)
    (response : ExecutionResponse json) : CM unit :=
  let! c := get_st in
  let! request := unwrap (pending_requests c !! request_id) "Execution request not found" in
  let! estimated_cost := calculate_cost c (resources_used response) in
  require (yield_resumable e (req_data_id request)) "Unable to resume execution promise" >>>
  emit (ResumeExecution (req_data_id request) response).

Definition submit_execution_output (e : Env) (request_id : Z) (output : ExecutionOutput json)
    : CM unit :=
  assert_no_deposit e >>>
  assert_operator e >>>
  submit_execution_output_internal request_id output.

Definition submit_execution_output_and_resolve (e : Env) (request_id : Z)
    (output : ExecutionOutput json) (success : bool) (error : option string)
    (resources_used : ResourceMetrics) (compilation_note : option string) : CM unit :=
  assert_no_deposit e >>>
  assert_operator e >>>
  submit_execution_output_internal request_id output >>>
  let response := mkResponse success None error resources_used compilation_note None in
  resolve_execution_internal e request_id response.

Definition resolve_execution (e : Env) (request_id : Z) (response : ExecutionResponse json)
    : CM unit :=
  assert_no_deposit e >>>
  assert_operator e >>>
  resolve_execution_internal e request_id response.

(** * Settlement *)

(** Author, price and share of the operation a priced request bought. *)
Definition priced_of (c : Contract) (request : ExecutionRequest)
    : option (AccountId * Z * Z) :=
  match req_execution_source request with
  | ESProject project_id _ =>
    pricing ← project_pricing c !! project_id;
    match operation_from_input (req_input_data request) with
    | inl operation =>
      op ← find_operation pricing operation;
      Some (author_account_id pricing, op_price_usd op, op_developer_share_bp op)
    | inr _ => None
    end
  | _ => None
  end.

(** The project that is left to pay. *)
Definition payee_of (c : Contract) (request : ExecutionRequest) : option Project :=
  project_of_source (req_execution_source request) ≫= λ id, projects c !! id.

Definition credit_developers (priced : option (AccountId * Z * Z)) (project : Project)
    (developer_amount : Z) : CM unit :=
  let! split :=
    match priced with
    | Some (author, _, share) =>
      let! s := split_payment developer_amount share in ret (Some (author, s))
    | None => ret None
    end in
  match split with
  | Some (author, s) =>
    if 0 <? author_usd s then
      credit_earnings author (author_usd s) >>>
      credit_earnings (proj_owner project) (owner_usd s)
    else credit_earnings (proj_owner project) developer_amount
  | None => credit_earnings (proj_owner project) developer_amount
  end.

Definition settle_stablecoin (request : ExecutionRequest) (guest_refund : Z) : CM unit :=
  if 0 <? req_attached_usd request then
    let! c := get_st in
    let priced := priced_of c request in
    let price := from_option (λ p, p.1.2) (req_attached_usd request) priced in
    let '(refund_usd, developer_amount) :=
      settle_attached (req_attached_usd request) price guest_refund in
    return_attached_usd (req_sender_id request) refund_usd >>>
    if 0 <? developer_amount then
      match payee_of c request with
      | Some project => credit_developers priced project developer_amount
      | None => return_attached_usd (req_sender_id request) developer_amount
      end
    else ret tt
  else ret tt.

(** What the run cost, capped at what was attached for compute. *)
Definition charged_cost (request : ExecutionRequest) (payment : Z) (metrics : ResourceMetrics)
    : CM Z :=
  let storage_part := input_storage_deposit (str_opt_len (req_input_data request)) in
  let chargeable := saturating_sub payment storage_part in
  let! c := get_st in
  let! full := calculate_cost c metrics in
  ret (Z.min full chargeable).

Definition collect_fee (fee : Z) : CM unit :=
  let! c := get_st in
  let! total := add128 (total_fees_collected c) fee in
  modify (λ c, c <| total_fees_collected := total |>).

Definition settle_success (request : ExecutionRequest) (sender_id : AccountId)
    (code_source : CodeSource) (payment : Z) (stored_output : option StoredOutput)
    (response : ExecutionResponse json) : CM unit :=
  let! cost := charged_cost request payment (resources_used response) in
  settle_stablecoin request (default 0 (refund_usd response)) >>>
  let refund := saturating_sub payment cost in
  transfer_if_positive (req_payer_account_id request) refund >>>
  collect_fee cost >>>
  emit (ExecutionCompleted sender_id code_source (resources_used response) true None cost refund
          (compilation_note response)) >>>
  emit (ValueReturn (output_return_bytes stored_output)).

Definition settle_failure (request : ExecutionRequest) (sender_id : AccountId)
    (code_source : CodeSource) (payment : Z) (response : ExecutionResponse json) : CM unit :=
  let! cost := charged_cost request payment (resources_used response) in
  let refund := saturating_sub payment cost in
  transfer_if_positive (req_payer_account_id request) refund >>>
  return_attached_usd (req_sender_id request) (req_attached_usd request) >>>
  collect_fee cost >>>
  let error_msg := default "Unknown error" (error response) in
  emit (ExecutionCompleted sender_id code_source (resources_used response) false (Some error_msg)
          cost refund (compilation_note response)) >>>
  emit (ValueReturn (output_return_bytes None)).

Definition settle_promise_error (request : ExecutionRequest) (payment : Z) : CM unit :=
  let! c := get_st in
  let refund := saturating_sub payment (base_fee c) in
  transfer_if_positive (req_payer_account_id request) refund >>>
  return_attached_usd (req_sender_id request) (req_attached_usd request) >>>
  collect_fee (base_fee c) >>>
  emit (ValueReturn (output_return_bytes None)).

Definition on_execution_response (e : Env) (request_id : Z) (sender_id : AccountId)
    (code_source : CodeSource) (resource_limits : ResourceLimits) (payment : Z)
    (response : callback_result (ExecutionResponse json)) : CM unit :=
  assert_private e >>>
  let! c := get_st in
  match pending_requests c !! request_id with
  | Some request =>
    modify (λ c, c <| pending_requests := delete request_id (pending_requests c) |>) >>>
    let! total := add64 (total_executions c) 1 in
    modify (λ c, c <| total_executions := total |>) >>>
    match response with
    | CbOk exec_response =>
      let stored_output :=
        if req_output_submitted request && success exec_response
        then req_pending_output request
        else stored_of_output <$> output exec_response in
      if success exec_response
      then settle_success request sender_id code_source payment stored_output exec_response
      else settle_failure request sender_id code_source payment exec_response
    | CbErr => settle_promise_error request payment
    end
  | None => emit (ValueReturn (output_return_bytes None))
  end.

Definition cancel_stale_execution (e : Env) (request_id : Z) : CM unit :=
  assert_no_deposit e >>>
  let! c := get_st in
  let! request := unwrap (pending_requests c !! request_id) "Execution request not found" in
  require (bool_decide (predecessor_account_id e = req_sender_id request))
    "Only the sender can cancel this execution" >>>
  let! deadline := add64 (req_timestamp request) EXECUTION_TIMEOUT in
  require (deadline <? block_timestamp e) "Execution is not yet stale, please wait" >>>
  modify (λ c, c <| pending_requests := delete request_id (pending_requests c) |>) >>>
  let! charge :=
    if req_output_submitted request then estimate_cost c (req_resource_limits request)
    else ret (base_fee c) in
  let kept := Z.min (req_payment request) charge in
  let refund := req_payment request - kept in
  transfer_if_positive (req_payer_account_id request) refund >>>
  collect_fee kept >>>
  return_attached_usd (req_sender_id request) (req_attached_usd request).
End execution.

(** * The stablecoin ledger *)

(** What the contract owes in stablecoin: users' balances, developers' earnings,
    and what pending requests carry. *)
Definition ledger (c : Contract) : Z :=
  map_sum (λ x, x) (user_stablecoin_balances c) + map_sum (λ x, x) (developer_earnings c)
  + map_sum req_attached_usd (pending_requests c).

(** The effect of a credit on a balance sheet. *)
Definition credited {K} `{Countable K} (m : gmap K Z) (k : K) (amount : Z) (m' : gmap K Z) : Prop :=
  (∀ a, balance m' a = balance m a + (if decide (a = k) then amount else 0)) ∧
  map_sum (λ x, x) m' = map_sum (λ x, x) m + amount ∧
  (nonneg_map m → 0 ≤ amount → nonneg_map m').

Lemma credited_insert {K} `{Countable K} (m : gmap K Z) k amount :
  credited m k amount (<[k := balance m k + amount]> m).
Proof.
  split_and!.
  - intros a. case_decide; [subst; apply balance_insert_eq | rewrite balance_insert_ne by done; lia].
  - rewrite balance_sum_insert. lia.
  - intros Hm Ha. apply nonneg_map_insert; [done|]. pose proof (balance_nonneg m k Hm). lia.
Qed.

Lemma credited_zero {K} `{Countable K} (m : gmap K Z) k : credited m k 0 m.
Proof. split_and!; [intros a; case_decide; lia | lia | done]. Qed.

Section ledger.
Context `{Platform}.

Lemma return_attached_usd_ok who amount (w : CWorld) u w' :
  return_attached_usd who amount w = Ok (u, w') →
  ∃ ub, w' = mkWorld ((st w) <| user_stablecoin_balances := ub |>) (out w) ∧
    credited (user_stablecoin_balances (st w)) who amount ub.
Proof.
  unfold return_attached_usd. destruct (amount =? 0) eqn:E; intros Hr; minv; prop_bool.
  - exists (user_stablecoin_balances (st w)). subst. split; [by destruct w as [[]] | apply credited_zero].
  - eexists. split; [reflexivity | apply credited_insert].
Qed.

Lemma credit_earnings_ok who amount (w : CWorld) u w' :
  credit_earnings who amount w = Ok (u, w') →
  ∃ de, w' = mkWorld ((st w) <| developer_earnings := de |>) (out w) ∧
    credited (developer_earnings (st w)) who amount de.
Proof.
  unfold credit_earnings. intros Hr. minv. eexists. split; [reflexivity | apply credited_insert].
Qed.

Lemma collect_fee_ok fee (w : CWorld) u w' :
  collect_fee fee w = Ok (u, w') →
  w' = mkWorld ((st w) <| total_fees_collected := total_fees_collected (st w) + fee |>) (out w).
Proof. unfold collect_fee. intros Hr. by minv. Qed.

Lemma split_payment_ok {W} paid share (w : W) s w' :
  split_payment paid share w = Ok (s, w') →
  author_usd s = paid * Z.min share 10000 / 10000 ∧ author_usd s + owner_usd s = paid ∧ w' = w.
Proof. unfold split_payment. intros Hr. minv. cbn. split_and!; [done | lia | done]. Qed.

Lemma split_payment_bounds paid share :
  0 ≤ paid → 0 ≤ share → 0 ≤ paid * Z.min share 10000 / 10000 ≤ paid.
Proof.
  intros Hp Hs. split; [apply Z.div_pos; nia|].
  apply Z.div_le_upper_bound; [lia | nia].
Qed.

Lemma settle_attached_bounds attached price guest :
  0 ≤ attached → 0 ≤ price → 0 ≤ guest →
  let '(refund, dev) := settle_attached attached price guest in
  0 ≤ refund ∧ 0 ≤ dev ∧ refund + dev = attached ∧ dev ≤ price ∧
  saturating_sub attached price ≤ refund ∧ refund ≤ saturating_sub attached price + guest.
Proof. unfold settle_attached, saturating_sub. cbn. lia. Qed.
End ledger.

(** ** Who a settlement pays *)

(** The shares of a payment: the author's cut first, the rest to the owner. *)
Definition developer_parts (priced : option (AccountId * Z * Z)) (owner : AccountId) (amount : Z)
    : list (AccountId * Z) :=
  match priced with
  | Some (author, _, share) =>
    let cut := amount * Z.min share 10000 / 10000 in
    if 0 <? cut then [(author, cut); (owner, amount - cut)] else [(owner, amount)]
  | None => [(owner, amount)]
  end.

Definition paid_to (a : AccountId) (parts : list (AccountId * Z)) : Z :=
  foldr (λ p acc, (if decide (a = p.1) then p.2 else 0) + acc) 0 parts.
Definition parts_total (parts : list (AccountId * Z)) : Z := foldr (λ p acc, p.2 + acc) 0 parts.

(** A balance sheet after a list of credits. *)
Definition credits (m : gmap AccountId Z) (parts : list (AccountId * Z)) (m' : gmap AccountId Z)
    : Prop :=
  (∀ a, balance m' a = balance m a + paid_to a parts) ∧
  map_sum (λ x, x) m' = map_sum (λ x, x) m + parts_total parts ∧
  (nonneg_map m → Forall (λ p, 0 ≤ p.2) parts → nonneg_map m').

Lemma credits_nil m : credits m [] m.
Proof. split_and!; cbn; [intros; lia | lia | done]. Qed.

Lemma credits_cons m k amount m' parts m'' :
  credited m k amount m' → credits m' parts m'' → credits m ((k, amount) :: parts) m''.
Proof.
  intros (Hb & Hs & Hn) (Hb' & Hs' & Hn'). split_and!; cbn.
  - intros a. rewrite Hb', Hb. fold (paid_to a parts). rewrite Z.add_assoc. done.
  - fold (parts_total parts). lia.
  - intros Hm Hf. apply Forall_cons in Hf as [? ?]. auto.
Qed.

Lemma credits_one m k amount m' : credited m k amount m' → credits m [(k, amount)] m'.
Proof. intros. eauto using credits_cons, credits_nil. Qed.

Lemma parts_total_developer priced owner amount :
  parts_total (developer_parts priced owner amount) = amount.
Proof.
  unfold developer_parts. destruct priced as [[[a p] s]|]; cbv zeta; [destruct (0 <? _)|];
    unfold parts_total; cbn [foldr snd]; lia.
Qed.

Lemma developer_parts_nonneg priced owner amount :
  0 ≤ amount → from_option (λ p, 0 ≤ p.2) True priced →
  Forall (λ p, 0 ≤ p.2) (developer_parts priced owner amount).
Proof.
  unfold developer_parts. destruct priced as [[[a p] s]|]; cbn; intros Ha Hs; [|by repeat constructor].
  pose proof (split_payment_bounds amount s Ha Hs).
  destruct (0 <? _); repeat constructor; cbn; lia.
Qed.

(** What settling a successful run pays: (back to the sender, to developers). *)
Definition settlement_parts `{Platform} (c : Contract) (r : ExecutionRequest) (guest : Z)
    : Z * list (AccountId * Z) :=
  let priced := priced_of c r in
  let price := from_option (λ p, p.1.2) (req_attached_usd r) priced in
  let '(refund, dev) := settle_attached (req_attached_usd r) price guest in
  if 0 <? dev then
    match payee_of c r with
    | Some project => (refund, developer_parts priced (proj_owner project) dev)
    | None => (refund + dev, [])
    end
  else (refund, []).

(** [minv], with the steps of a settlement. *)
Ltac xinv_step :=
  match goal with
  | H : return_attached_usd _ _ _ = Ok (_, ?w') |- _ =>
      let ub := fresh "ub" in let Hc := fresh "Hc" in
      apply return_attached_usd_ok in H; destruct H as (ub & ? & Hc); subst_new w'
  | H : credit_earnings _ _ _ = Ok (_, ?w') |- _ =>
      let de := fresh "de" in let Hc := fresh "Hc" in
      apply credit_earnings_ok in H; destruct H as (de & ? & Hc); subst_new w'
  | H : collect_fee _ _ = Ok (_, ?w') |- _ => apply collect_fee_ok in H; subst_new w'
  | H : calculate_cost _ _ _ = Ok (?r, ?w') |- _ =>
      apply calculate_cost_ok in H; destruct H as (? & H & ?); subst_new w'; subst_new r
  | H : estimate_cost _ _ _ = Ok (?r, ?w') |- _ =>
      apply estimate_cost_ok in H; destruct H as (? & H & ?); subst_new w'; subst_new r
  end.
Ltac xinv :=
  repeat first [minv_step | cinv_step | pinv_step | kinv_step | sinv_step | xinv_step];
  cbn [st out] in *; prop_bool.

Section settlement.
Context `{Platform}.

Lemma credit_developers_ok priced project amount (w : CWorld) u w' :
  credit_developers priced project amount w = Ok (u, w') →
  ∃ de, w' = mkWorld ((st w) <| developer_earnings := de |>) (out w) ∧
    credits (developer_earnings (st w)) (developer_parts priced (proj_owner project) amount) de.
Proof.
  unfold credit_developers, developer_parts. intros Hr.
  destruct priced as [[[author p] share]|]; xinv; [|by eauto using credits_one].
  apply split_payment_ok in H2 as (Ha & Ho & ->). rewrite <- Ha.
  destruct (0 <? author_usd a0); xinv; [|by eauto using credits_one].
  exists de. split; [done|]. replace (amount - author_usd a0) with (owner_usd a0) by lia.
  eauto using credits_cons, credits_one.
Qed.

Lemma credited_twice (m m' m'' : gmap AccountId Z) k a b :
  credited m k a m' → credited m' k b m'' → 0 ≤ a → 0 ≤ b → credited m k (a + b) m''.
Proof.
  intros (Hb & Hs & Hn) (Hb' & Hs' & Hn') Ha Hb0. split_and!; [|lia|auto].
  intros x. rewrite Hb', Hb. case_decide; lia.
Qed.

(** A successful run's stablecoin, exactly. *)
Lemma settle_stablecoin_ok r guest (w : CWorld) u w' :
  settle_stablecoin r guest w = Ok (u, w') →
  0 ≤ req_attached_usd r → 0 ≤ guest →
  from_option (λ p, 0 ≤ p.1.2 ∧ 0 ≤ p.2) True (priced_of (st w) r) →
  ∃ ub de back parts,
    w' = mkWorld ((st w) <| user_stablecoin_balances := ub |> <| developer_earnings := de |>) (out w) ∧
    (if 0 <? req_attached_usd r then settlement_parts (st w) r guest else (0, [])) = (back, parts) ∧
    credited (user_stablecoin_balances (st w)) (req_sender_id r) back ub ∧
    credits (developer_earnings (st w)) parts de ∧
    back + parts_total parts = req_attached_usd r ∧ 0 ≤ back ∧ Forall (λ p, 0 ≤ p.2) parts.
Proof.
  unfold settle_stablecoin. intros Hr Hatt Hg Hp.
  destruct (0 <? req_attached_usd r) eqn:E; xinv.
  2: { exists (user_stablecoin_balances (st w)), (developer_earnings (st w)), 0, [].
       split_and!; try done; [by destruct w as [[]] | apply credited_zero | apply credits_nil
         | cbn; lia]. }
  unfold settlement_parts. set (price := from_option _ _ (priced_of (st w) r)) in *.
  assert (0 ≤ price) as Hpr.
  { unfold price. destruct (priced_of (st w) r) as [[[? ?] ?]|]; cbn in *; lia. }
  pose proof (settle_attached_bounds (req_attached_usd r) price guest Hatt Hpr Hg) as Hb.
  destruct (settle_attached _ _ _) as [refund dev]. destruct Hb as (Hb1 & Hb2 & Hb3 & _).
  xinv. destruct (0 <? dev) eqn:Ed; xinv.
  - destruct (payee_of (st w) r) as [project|] eqn:Ep; xinv.
    + match goal with Hd : credit_developers _ _ _ _ = _ |- _ =>
        apply credit_developers_ok in Hd as (de & -> & Hd) end. cbn in *.
      eexists _, _, _, _. split_and!; [reflexivity | reflexivity | done | done | | done |].
      * rewrite parts_total_developer. lia.
      * apply developer_parts_nonneg; [lia|].
        destruct (priced_of (st w) r) as [[[? ?] ?]|]; cbn in *; [tauto | done].
    + eexists ub0, (developer_earnings (st w)), _, _.
      split_and!; [by destruct w as [[]] | reflexivity | by eapply credited_twice | apply credits_nil | cbn; lia | lia | done].
  - eexists ub, (developer_earnings (st w)), _, _.
    split_and!; [by destruct w as [[]] | reflexivity | done | apply credits_nil | cbn; lia | lia | done].
Qed.
End settlement.

(** * What a settlement does *)

(** From [w], the request [r] was settled: [back] of its stablecoin to the sender
    and [parts] to developers, [fee] collected, [refund] yoctoNEAR to the payer. *)
Definition settled {J} (w w' : World Contract (Action J)) (r : ExecutionRequest)
    (back : Z) (parts : list (AccountId * Z)) (fee refund : Z) : Prop :=
  ∃ ub de tail,
    st w' = (st w) <| user_stablecoin_balances := ub |> <| developer_earnings := de |>
                   <| total_fees_collected := total_fees_collected (st w) + fee |> ∧
    credited (user_stablecoin_balances (st w)) (req_sender_id r) back ub ∧
    credits (developer_earnings (st w)) parts de ∧
    back + parts_total parts = req_attached_usd r ∧ 0 ≤ back ∧ Forall (λ p, 0 ≤ p.2) parts ∧
    out w' = out w ++ (if 0 <? refund then [Transfer (req_payer_account_id r) refund] else []) ++ tail ∧
    Forall (λ a, match a with ExecutionCompleted _ _ _ _ _ _ _ _ | ValueReturn _ => True | _ => False end)
      tail.

Section branches.
Context `{Platform}.

Definition pricing_typed (c : Contract) : Prop :=
  ∀ pid p, project_pricing c !! pid = Some p →
    Forall (λ o, 0 ≤ op_price_usd o ∧ 0 ≤ op_developer_share_bp o) (operations p).

Lemma priced_of_typed c r :
  pricing_typed c → from_option (λ p, 0 ≤ p.1.2 ∧ 0 ≤ p.2) True (priced_of c r).
Proof.
  intros Hp. unfold priced_of. destruct (req_execution_source r) as [| |pid v]; cbn; try done.
  destruct (project_pricing c !! pid) as [p|] eqn:E; cbn; [|done].
  destruct (operation_from_input _) as [op|]; cbn; [|done].
  unfold find_operation. destruct (list_find _ _) as [[i o]|] eqn:F; cbn; [|done].
  apply list_find_Some in F as (Hi & _). apply (Hp _ _) in E.
  rewrite Forall_lookup in E. exact (E _ _ Hi).
Qed.

Lemma charged_cost_ok r payment metrics (w : CWorld) cost w' :
  charged_cost r payment metrics w = Ok (cost, w') →
  w' = w ∧ 0 ≤ cost ∧
  cost = Z.min (cost_formula (st w) metrics)
           (saturating_sub payment (input_storage_deposit (str_opt_len (req_input_data r)))).
Proof. unfold charged_cost. intros Hr. xinv. widths. unfold saturating_sub. split_and!; lia || done. Qed.

Lemma settle_success_ok r sender src payment stored resp (w : CWorld) u w' :
  settle_success r sender src payment stored resp w = Ok (u, w') →
  0 ≤ req_attached_usd r → 0 ≤ default 0 (refund_usd resp) → pricing_typed (st w) →
  ∃ back parts fee,
    (if 0 <? req_attached_usd r then settlement_parts (st w) r (default 0 (refund_usd resp))
     else (0, [])) = (back, parts) ∧
    fee = Z.min (cost_formula (st w) (resources_used resp))
            (saturating_sub payment (input_storage_deposit (str_opt_len (req_input_data r)))) ∧
    0 ≤ fee ∧ settled w w' r back parts fee (saturating_sub payment fee).
Proof.
  unfold settle_success. intros Hr Ha Hg Hp. xinv.
  apply charged_cost_ok in H0 as (-> & Hpos & Hcost).
  apply settle_stablecoin_ok in H2 as (ub & de & back & parts & -> & He & Hu & Hd & Hsum & Hb & Hf);
    [|done|done|by apply priced_of_typed].
  exists back, parts, a. split_and!; try done.
  eexists ub, de, [_; _]. split_and!; try done; cbn [out].
  - by rewrite <- !app_assoc.
  - by repeat constructor.
Qed.

Lemma settle_failure_ok r sender src payment resp (w : CWorld) u w' :
  settle_failure r sender src payment resp w = Ok (u, w') → 0 ≤ req_attached_usd r →
  let fee := Z.min (cost_formula (st w) (resources_used resp))
            (saturating_sub payment (input_storage_deposit (str_opt_len (req_input_data r)))) in
  0 ≤ fee ∧ settled w w' r (req_attached_usd r) [] fee (saturating_sub payment fee).
Proof.
  unfold settle_failure. intros Hr Ha. xinv.
  apply charged_cost_ok in H0 as (-> & Hpos & Hcost). cbv zeta. rewrite <- Hcost. split; [done|].
  eexists ub, (developer_earnings (st w)), [_; _]. split_and!; [| done | apply credits_nil | cbn; lia | done | done | |].
  - by destruct w as [[]].
  - cbn. by rewrite <- !app_assoc.
  - by repeat constructor.
Qed.

Lemma settle_promise_error_ok r payment (w : CWorld) u w' :
  settle_promise_error r payment w = Ok (u, w') → 0 ≤ req_attached_usd r →
  settled w w' r (req_attached_usd r) [] (base_fee (st w)) (saturating_sub payment (base_fee (st w))).
Proof.
  unfold settle_promise_error. intros Hr Ha. xinv.
  eexists ub, (developer_earnings (st w)), [_]. split_and!; [| done | apply credits_nil | cbn; lia | done | done | |].
  - by destruct w as [[]].
  - cbn. by rewrite <- !app_assoc.
  - by repeat constructor.
Qed.
End branches.
