(* ===== verification/Admin.v ===== *)
(** The owner's methods (contract/src/admin.rs) and the plain views
    (contract/src/views.rs). *)

From S2P Require Export Execution.

Definition MAX_SUBSCRIPTION_PLANS : Z := 16.
Definition MAX_PROJECT_OPERATIONS : Z := 32.
Definition FULL_SHARE_BP : Z := 10000.

Section admin.
Context `{Platform}.

Definition assert_owner (e : Env) : CM unit :=
  let! c := get_st in
  require (bool_decide (predecessor_account_id e = owner_id c)) "Only owner can call this method".

Definition set_owner (e : Env) (new_owner_id : AccountId) : CM unit :=
  assert_no_deposit e >>>
  assert_owner e >>>
  modify (λ c, c <| owner_id := new_owner_id |>).

Definition set_operator (e : Env) (new_operator_id : AccountId) : CM unit :=
  assert_no_deposit e >>>
  assert_owner e >>>
  modify (λ c, c <| operator_id := new_operator_id |>).

Definition set_paused (e : Env) (b : bool) : CM unit :=
  assert_no_deposit e >>>
  assert_owner e >>>
  modify (λ c, c <| paused := b |>).

Definition when_some {A} (o : option A) (f : A → Contract → Contract) : CM unit :=
  match o with Some a => modify (f a) | None => ret tt end.

Definition set_pricing (e : Env) (base instr ms compile base_usd instr_usd sec_usd compile_usd
    : option Z) : CM unit :=
  assert_no_deposit e >>>
  assert_owner e >>>
  when_some base (λ v c, c <| base_fee := v |>) >>>
  when_some instr (λ v c, c <| per_million_instructions_fee := v |>) >>>
  when_some ms (λ v c, c <| per_ms_fee := v |>) >>>
  when_some compile (λ v c, c <| per_compile_ms_fee := v |>) >>>
  when_some base_usd (λ v c, c <| base_fee_usd := v |>) >>>
  when_some instr_usd (λ v c, c <| per_million_instructions_fee_usd := v |>) >>>
  when_some sec_usd (λ v c, c <| per_sec_fee_usd := v |>) >>>
  when_some compile_usd (λ v c, c <| per_compile_ms_fee_usd := v |>).

(** One row of the new price list, against the indices seen before it. *)
Definition check_plan (seen : list Z) (plan : SubscriptionPlan) : CM (list Z) :=
  require (negb (bool_decide (plan_index plan ∈ seen))) "duplicate plan index" >>>
  require (negb (str_is_empty (str_trim (plan_name plan)))) "a plan needs a name" >>>
  require (0 <? plan_price_usd plan) "a free plan is granted, not sold" >>>
  ret (seen ++ [plan_index plan]).

(** An index that stays keeps its name. *)
Definition check_not_repointed (plans : list SubscriptionPlan) (existing : SubscriptionPlan)
    : CM unit :=
  match list_find (λ p, plan_index p = plan_index existing) plans with
  | Some (_, new) =>
    require (bool_decide (plan_name new = plan_name existing)) "an index may not be repointed"
  | None => ret tt
  end.

Definition set_subscription_plans (e : Env) (plans : list SubscriptionPlan) : CM unit :=
  assert_no_deposit e >>>
  assert_owner e >>>
  require (Z.of_nat (length plans) <=? MAX_SUBSCRIPTION_PLANS) "too many plans" >>>
  let! seen := foldM check_plan [] plans in
  let! c := get_st in
  for_each (subscription_plans c) (check_not_repointed plans) >>>
  modify (λ c, c <| subscription_plans := plans |>).

Definition check_operation (seen : list string) (op : OperationPrice) : CM (list string) :=
  require (negb (str_is_empty (str_trim (op_operation op)))) "an operation needs a name" >>>
  require (op_developer_share_bp op <=? FULL_SHARE_BP) "developer_share_bp exceeds 10000" >>>
  require (negb (bool_decide (op_operation op ∈ seen))) "one operation has one price" >>>
  ret (seen ++ [op_operation op]).

Definition set_project_pricing (e : Env) (project_id : string) (pricing : ProjectPricing)
    : CM unit :=
  assert_no_deposit e >>>
  assert_owner e >>>
  let! c := get_st in
  require (bool_decide (is_Some (projects c !! project_id)))
    "Project does not exist; register it before pricing it" >>>
  require (negb (bool_decide (operations pricing = []))) "no operations priced" >>>
  require (Z.of_nat (length (operations pricing)) <=? MAX_PROJECT_OPERATIONS)
    "too many operations" >>>
  let! seen := foldM check_operation [] (operations pricing) in
  modify (λ c, c <| project_pricing := <[project_id := pricing]> (project_pricing c) |>).

Definition remove_project_pricing (e : Env) (project_id : string) : CM unit :=
  assert_no_deposit e >>>
  assert_owner e >>>
  modify (λ c, c <| project_pricing := delete project_id (project_pricing c) |>).

Definition set_payment_token_contract (e : Env) (token : option AccountId) : CM unit :=
  assert_no_deposit e >>>
  assert_owner e >>>
  modify (λ c, c <| payment_token_contract := token |>).

Definition set_event_metadata (e : Env) (standard version : option string) : CM unit :=
  assert_no_deposit e >>>
  assert_owner e >>>
  when_some standard (λ v c, c <| event_standard := v |>) >>>
  when_some version (λ v c, c <| event_version := v |>).

(** * Cancelling requests for their senders *)

(** Removes a request and refunds its NEAR in full. *)
Definition drop_request (request_id : Z) (request : ExecutionRequest) : CM unit :=
  modify (λ c, c <| pending_requests := delete request_id (pending_requests c) |>) >>>
  emit (Transfer (req_payer_account_id request) (req_payment request)).

Definition emergency_cancel_execution (e : Env) (request_id : Z) : CM unit :=
  assert_no_deposit e >>>
  assert_owner e >>>
  let! c := get_st in
  let! request := unwrap (pending_requests c !! request_id) "Execution request not found" in
  drop_request request_id request >>>
  return_attached_usd (req_sender_id request) (req_attached_usd request).

(** The loop body of [cancel_pending_requests], with the count so far. *)
Definition cancel_one (cancelled request_id : Z) : CM Z :=
  let! c := get_st in
  match pending_requests c !! request_id with
  | Some request => drop_request request_id request >>> ret (cancelled + 1)
  | None => ret cancelled
  end.

Definition cancel_pending_requests (e : Env) (request_ids : list Z) : CM Z :=
  assert_no_deposit e >>>
  assert_owner e >>>
  foldM cancel_one 0 request_ids.

(** The loop body of [clear_all_pending_requests]; past the limit it only
    runs out the range. *)
Definition clear_one (max_limit cleared request_id : Z) : CM Z :=
  if max_limit <=? cleared then ret cleared else
  let! c := get_st in
  match pending_requests c !! request_id with
  | Some request =>
    drop_request request_id request >>>
    return_attached_usd (req_sender_id request) (req_attached_usd request) >>>
    ret (cleared + 1)
  | None => ret cleared
  end.

Definition clear_all_pending_requests (e : Env) (limit : option Z) : CM Z :=
  assert_no_deposit e >>>
  assert_owner e >>>
  let max_limit := default 100 limit in
  let! c := get_st in
  foldM (clear_one max_limit) 0 (seqZ 0 (next_request_id c)).

(** * Views *)

Definition get_request (c : Contract) (request_id : Z) : option ExecutionRequest :=
  pending_requests c !! request_id.
Definition get_stats (c : Contract) : Z * Z := (total_executions c, total_fees_collected c).
Definition get_pricing (c : Contract) : Z * Z * Z * Z :=
  (base_fee c, per_million_instructions_fee c, per_ms_fee c, per_compile_ms_fee c).
Definition get_project_max_price (c : Contract) (project_id : string) : Z :=
  from_option max_price 0 (project_pricing c !! project_id).
Definition estimate_execution_cost (c : Contract) (resource_limits : option ResourceLimits)
    (input_len : option Z) : CM Z :=
  let! cost := estimate_cost c (default default_limits resource_limits) in
  add128 cost (input_storage_deposit (default 0 input_len)).
Definition get_pending_output (c : Contract) (request_id : Z) : option (ExecutionOutput json) :=
  request ← pending_requests c !! request_id;
  output_of_stored <$> req_pending_output request.
Definition has_pending_output (c : Contract) (request_id : Z) : bool :=
  from_option req_output_submitted false (pending_requests c !! request_id).
Definition get_developer_earnings (c : Contract) (account_id : AccountId) : Z :=
  balance (developer_earnings c) account_id.
Definition get_user_stablecoin_balance (c : Contract) (account_id : AccountId) : Z :=
  balance (user_stablecoin_balances c) account_id.

(** The scan of [get_pending_request_ids]: (skipped, collected). *)
Fixpoint scan_pending (c : Contract) (from max_limit skipped : Z) (collected ids : list Z)
    : list Z :=
  match ids with
  | [] => collected
  | id :: ids =>
    if bool_decide (is_Some (pending_requests c !! id)) then
      if skipped <? from then scan_pending c from max_limit (skipped + 1) collected ids
      else
        let collected := collected ++ [id] in
        if max_limit <=? Z.of_nat (length collected) then collected
        else scan_pending c from max_limit skipped collected ids
    else scan_pending c from max_limit skipped collected ids
  end.

Definition get_pending_request_ids (c : Contract) (from_index limit : option Z) : list Z :=
  scan_pending c (default 0 from_index) (default 100 limit) 0 [] (seqZ 0 (next_request_id c)).
End admin.
