(* ===== verification/Ledger.v ===== *)
(** The money of the contract: the invariant of balances, earnings and pending
    requests, the effect of every operation on what the contract owes, and the
    properties of a settlement. *)

From S2P Require Export Admin.

(** * The invariant *)

Record money_ok (c : Contract) : Prop := {
  mo_users : nonneg_map (user_stablecoin_balances c);
  mo_earnings : nonneg_map (developer_earnings c);
  (* a pending request is filed under its own id, which was handed out *)
  mo_requests : ∀ id r, pending_requests c !! id = Some r →
    req_id r = id ∧ 0 ≤ id < next_request_id c ∧ 0 ≤ req_attached_usd r ∧ 0 ≤ req_payment r;
  mo_next : 0 ≤ next_request_id c < 2 ^ 64;
  mo_pricing : pricing_typed c;
}.

(** The part of the storage the invariant and the ledger read. *)
Definition money_part (c : Contract) :=
  (user_stablecoin_balances c, developer_earnings c, pending_requests c, next_request_id c,
   project_pricing c).

Lemma money_ok_frame c c' : money_part c' = money_part c → money_ok c → money_ok c'.
Proof.
  unfold money_part. intros [= E1 E2 E3 E4 E5] [? ? Hr ? Hp].
  constructor; unfold pricing_typed; by rewrite ?E1, ?E2, ?E3, ?E4, ?E5.
Qed.

Lemma ledger_frame c c' : money_part c' = money_part c → ledger c' = ledger c.
Proof. unfold money_part, ledger. by intros [= -> -> -> _ _]. Qed.

Lemma money_removed c id :
  money_ok c → money_ok (c <| pending_requests := delete id (pending_requests c) |>).
Proof.
  intros [? ? Hr ? ?]. constructor; try done.
  cbn. intros id' r [_ Hl]%lookup_delete_Some. by apply Hr.
Qed.

Lemma ledger_removed c id r :
  pending_requests c !! id = Some r →
  ledger (c <| pending_requests := delete id (pending_requests c) |>)
  = ledger c - req_attached_usd r.
Proof. intros Hr. unfold ledger. cbn. rewrite map_sum_delete, Hr. cbn. lia. Qed.

(** A settled request's money is where [settled] says. *)
Lemma settled_money {J} (w w' : World Contract (Action J)) r back parts fee refund :
  settled w w' r back parts fee refund → money_ok (st w) →
  money_ok (st w') ∧ ledger (st w') = ledger (st w) + req_attached_usd r ∧
  pending_requests (st w') = pending_requests (st w) ∧
  next_request_id (st w') = next_request_id (st w).
Proof.
  intros (ub & de & tail & -> & (_ & Hs & Hn) & (_ & Hs' & Hn') & Hsum & Hb & Hf & _) [? ? ? ? ?].
  split_and!; try done.
  - constructor; try done; cbn; auto.
  - unfold ledger. cbn. lia.
Qed.

Section settlement.
Context `{Platform}.

Definition response_typed (resp : callback_result (ExecutionResponse json)) : Prop :=
  match resp with
  | CbOk resp => metrics_ok (resources_used resp) ∧ 0 ≤ default 0 (refund_usd resp)
  | CbErr => True
  end.

(** What the callback pays for each answer: (sender, developers, fee). *)
Definition settlement_of (c : Contract) (r : ExecutionRequest) (payment : Z)
    (resp : callback_result (ExecutionResponse json)) : Z * list (AccountId * Z) * Z :=
  match resp with
  | CbOk resp =>
    let fee := Z.min (cost_formula c (resources_used resp))
      (saturating_sub payment (input_storage_deposit (str_opt_len (req_input_data r)))) in
    if success resp then
      ((if 0 <? req_attached_usd r then settlement_parts c r (default 0 (refund_usd resp))
        else (0, [])), fee)
    else (req_attached_usd r, [], fee)
  | CbErr => (req_attached_usd r, [], base_fee c)
  end.

Lemma on_execution_response_ok e id sender src limits payment resp w u w' :
  on_execution_response e id sender src limits payment resp w = Ok (u, w') →
  money_ok (st w) → response_typed resp →
  predecessor_account_id e = current_account_id e ∧
  match pending_requests (st w) !! id with
  | None => w' = mkWorld (st w) (out w ++ [ValueReturn "null"])
  | Some r =>
    ∃ back parts fee, settlement_of (st w) r payment resp = (back, parts, fee) ∧
      settled (mkWorld ((st w) <| pending_requests := delete id (pending_requests (st w)) |>
                 <| total_executions := total_executions (st w) + 1 |>) (out w))
        w' r back parts fee (saturating_sub payment fee)
  end.
Proof.
  unfold on_execution_response. intros Hr M Ht. xinv. split; [done|].
  destruct (pending_requests (st w) !! id) as [r|] eqn:E; xinv; [|done].
  destruct (mo_requests _ M _ _ E) as (_ & _ & Ha & _).
  unfold settlement_of. destruct resp as [resp|].
  - destruct Ht as [_ Hg]. destruct (success resp).
    + match goal with Hs : settle_success _ _ _ _ _ _ _ = _ |- _ =>
        apply settle_success_ok in Hs as (back & parts & fee & Hb & Hf & _ & Hs); [|done..|apply (mo_pricing _ M)]
      end.
      exists back, parts, fee. split; [|done].
      exact (f_equal2 pair Hb (eq_sym Hf)).
    + match goal with Hs : settle_failure _ _ _ _ _ _ = _ |- _ =>
        apply settle_failure_ok in Hs as [_ Hs]; [|done] end.
      by eexists _, _, _.
  - match goal with Hs : settle_promise_error _ _ _ = _ |- _ =>
      apply settle_promise_error_ok in Hs; [|done] end.
    by eexists _, _, _.
Qed.

Lemma on_execution_response_money e id sender src limits payment resp w u w' :
  on_execution_response e id sender src limits payment resp w = Ok (u, w') →
  money_ok (st w) → response_typed resp →
  money_ok (st w') ∧ ledger (st w') = ledger (st w) ∧
  pending_requests (st w') = delete id (pending_requests (st w)) ∧
  next_request_id (st w') = next_request_id (st w).
Proof.
  intros Hr M Ht. pose proof (on_execution_response_ok _ _ _ _ _ _ _ _ _ _ Hr M Ht) as [_ Hc].
  destruct (pending_requests (st w) !! id) as [r|] eqn:E.
  - destruct Hc as (back & parts & fee & _ & Hs).
    apply settled_money in Hs as (M' & Hl & Hp & Hn).
    + split_and!; [done | | done | done]. rewrite Hl.
      pose proof (ledger_removed _ _ _ E). unfold ledger in *. cbn in *. lia.
    + eapply money_ok_frame; [|by eapply (money_removed _ id)]. done.
  - subst. cbn. split_and!; try done. by rewrite delete_id.
Qed.
End settlement.

(** * Admission *)

Section admission.
Context `{Platform}.

Lemma debit_attached_usd_ok e source amount (w : CWorld) u w' :
  debit_attached_usd e source amount w = Ok (u, w') →
  ∃ ub, w' = mkWorld ((st w) <| user_stablecoin_balances := ub |>) (out w) ∧
    (0 < amount → is_Some (project_of_source source) ∧
       amount ≤ balance (user_stablecoin_balances (st w)) (predecessor_account_id e)) ∧
    (0 ≤ amount → map_sum (λ x, x) ub
       = map_sum (λ x, x) (user_stablecoin_balances (st w)) - amount ∧
       (∀ a, balance ub a = balance (user_stablecoin_balances (st w)) a
          - if decide (a = predecessor_account_id e) then amount else 0) ∧
       (nonneg_map (user_stablecoin_balances (st w)) → nonneg_map ub)).
Proof.
  unfold debit_attached_usd. destruct (0 <? amount) eqn:E; intros Hr; xinv.
  - eexists. split; [reflexivity|]. split; [done|]. intros _. split_and!.
    + rewrite balance_sum_insert. lia.
    + intros a. case_decide; [subst; rewrite balance_insert_eq | rewrite balance_insert_ne by done];
        lia.
    + intros Hn. apply nonneg_map_insert; [done | lia].
  - exists (user_stablecoin_balances (st w)). split; [by destruct w as [[]]|].
    split; [lia|]. intros. assert (amount = 0) as -> by lia.
    split_and!; [lia | intros a; case_decide; lia | done].
Qed.

Definition new_request (e : Env) (c : Contract) (source : ExecutionSource) (resolved : CodeSource)
    (limits : ResourceLimits) (input : option string) (secrets : option SecretsReference)
    (fmt : ResponseFormat) (payer : option AccountId) (attached : Z) : ExecutionRequest :=
  mkRequest (next_request_id c) (yield_data_id e) (predecessor_account_id e) source resolved
    limits (attached_deposit e) (block_timestamp e) secrets fmt input
    (default (predecessor_account_id e) payer) attached None false.

Lemma file_request_ok e source resolved limits input secrets fmt payer params compile attached
    (w : CWorld) u w' :
  file_request e source resolved limits input secrets fmt payer params compile attached w
    = Ok (u, w') →
  u64_ok (next_request_id (st w) + 1) ∧
  st w' = (st w) <| next_request_id := next_request_id (st w) + 1 |>
    <| pending_requests := <[next_request_id (st w) :=
         new_request e (st w) source resolved limits input secrets fmt payer attached]>
         (pending_requests (st w)) |> ∧
  ∃ data,
    out w' = out w ++ [YieldExecution (yield_data_id e) data (response_gas (str_opt_len input));
                       ExecutionRequested data (yield_data_id e)] ∧
    rd_request_id data = next_request_id (st w) ∧ rd_payment data = attached_deposit e ∧
    rd_sender_id data = signer_account_id e ∧ rd_code_source data = resolved ∧
    rd_project_uuid data = param_project_uuid params ∧
    rd_project_id data = project_of_source source.
Proof.
  unfold file_request. intros Hr. xinv. split_and!; try done.
  eexists. split; [cbn; rewrite <- app_assoc; reflexivity|]. done.
Qed.

Lemma check_operation_price_ok c pid input attached (w : CWorld) u w' :
  check_operation_price c pid input attached w = Ok (u, w') →
  w' = w ∧ ∀ id pricing, pid = Some id → project_pricing c !! id = Some pricing →
    ∃ op price, operation_from_input input = inl op ∧
      price_for_operation pricing op = Some price ∧ price ≤ attached.
Proof.
  unfold check_operation_price. intros Hr.
  destruct pid as [id|]; cbn in Hr; [|xinv; naive_solver].
  destruct (project_pricing c !! id) as [p|] eqn:E; [|xinv; naive_solver].
  destruct (operation_from_input input) as [op|]; xinv.
  split; [done|]. intros ? ? [= <-] ?. simplify_eq. eauto.
Qed.

(** What an admitted source resolved to. *)
Definition resolves (c : Contract) (source : ExecutionSource) (resolved : CodeSource)
    (uuid : option string) : Prop :=
  match source with
  | ESGitHub repo commit t => resolved = GitHub repo commit t ∧ uuid = None
  | ESWasmUrl url hash t => resolved = WasmUrl url hash t ∧ uuid = None
  | ESProject pid v => ∃ p vs vi, projects c !! pid = Some p ∧ uuid = Some (proj_uuid p) ∧
      project_versions c !! proj_uuid p = Some vs ∧
      vs !! default (proj_active_version p) v = Some vi ∧ resolved = vi_source vi
  end.

Lemma resolve_execution_source_ok c source (w : CWorld) r w' :
  resolve_execution_source c source w = Ok (r, w') → w' = w ∧ resolves c source r.1 r.2.
Proof.
  unfold resolve_execution_source. destruct source as [| |pid [v|]]; intros Hr; xinv; try done.
  - split; [done|]. by eexists _, _, _.
  - split; [done|]. by eexists _, _, _.
Qed.

Lemma check_request_ok resolved params compile limits input (w : CWorld) u w' :
  check_request resolved params compile limits input w = Ok (u, w') → w' = w ∧
  (compile = false → default 0 (max_instructions limits) ≤ MAX_INSTRUCTIONS ∧
     default 0 (max_execution_seconds limits) ≤ MAX_EXECUTION_SECONDS ∧
     default 0 (max_memory_mb limits) ≤ MAX_MEMORY_MB).
Proof. unfold check_request. intros Hr. destruct compile; xinv; done. Qed.
End admission.

(** [minv], with the steps of an admission. *)
Ltac rinv_step :=
  match goal with
  | H : resolve_execution_source _ _ _ = Ok (?r, ?w') |- _ =>
      apply resolve_execution_source_ok in H; destruct H as [? H]; subst_new w';
      destruct r as [? ?]; cbn [fst snd] in H
  | H : check_request _ _ _ _ _ _ = Ok (_, ?w') |- _ =>
      apply check_request_ok in H; destruct H as [? H]; subst_new w'
  | H : check_operation_price _ _ _ _ _ = Ok (_, ?w') |- _ =>
      apply check_operation_price_ok in H; destruct H as [? H]; subst_new w'
  | H : debit_attached_usd _ _ _ _ = Ok (_, ?w') |- _ =>
      let ub := fresh "ub" in
      apply debit_attached_usd_ok in H; destruct H as (ub & ? & ? & ?); subst_new w'
  | H : file_request _ _ _ _ _ _ _ _ _ _ _ _ = Ok (_, ?w') |- _ =>
      let data := fresh "data" in
      apply file_request_ok in H; destruct H as (? & ? & data & ? & ? & ? & ? & ? & ? & ?)
  end.
Ltac rinv := repeat first [minv_step | cinv_step | pinv_step | sinv_step | xinv_step | rinv_step];
  cbn [st out] in *; prop_bool.

Section request.
Context `{Platform}.

Definition compile_mode (limits : option ResourceLimits) (params : option RequestParams) : bool :=
  compile_only (default default_params params) || bool_decide (limits = None).
Definition attached_of (params : option RequestParams) : Z :=
  default 0 (param_attached_usd (default default_params params)).

(** The compute part of what admission requires. *)
Definition admission_cost (c : Contract) (limits : option ResourceLimits) (compile : bool) : Z :=
  if compile then base_fee c else estimate_formula c (default default_limits limits).

Lemma request_execution_ok e source limits input secrets fmt payer params w u w' :
  request_execution e source limits input secrets fmt payer params w = Ok (u, w') →
  let attached := attached_of params in
  let compile := compile_mode limits params in
  let pid := project_of_source source in
  ∃ resolved uuid ub data,
    paused (st w) = false ∧ resolves (st w) source resolved uuid ∧
    (pid = None → code_source_error resolved = None) ∧
    (compile = false → ∀ id pricing, pid = Some id → project_pricing (st w) !! id = Some pricing →
       ∃ op price, operation_from_input input = inl op ∧
         price_for_operation pricing op = Some price ∧ price ≤ attached) ∧
    (compile = false → let l := default default_limits limits in
       default 0 (max_instructions l) ≤ MAX_INSTRUCTIONS ∧
       default 0 (max_execution_seconds l) ≤ MAX_EXECUTION_SECONDS ∧
       default 0 (max_memory_mb l) ≤ MAX_MEMORY_MB) ∧
    (0 < attached → is_Some pid ∧
       attached ≤ balance (user_stablecoin_balances (st w)) (predecessor_account_id e)) ∧
    admission_cost (st w) limits compile + input_storage_deposit (str_opt_len input)
      ≤ attached_deposit e ∧
    (0 ≤ attached → map_sum (λ x, x) ub
       = map_sum (λ x, x) (user_stablecoin_balances (st w)) - attached ∧
       (∀ a, balance ub a = balance (user_stablecoin_balances (st w)) a
          - if decide (a = predecessor_account_id e) then attached else 0) ∧
       (nonneg_map (user_stablecoin_balances (st w)) → nonneg_map ub)) ∧
    u64_ok (next_request_id (st w) + 1) ∧
    st w' = (st w) <| user_stablecoin_balances := ub |>
      <| next_request_id := next_request_id (st w) + 1 |>
      <| pending_requests := <[next_request_id (st w) :=
           new_request e (st w) source resolved (default default_limits limits) input secrets
             (default FmtText fmt) payer attached]> (pending_requests (st w)) |> ∧
    rd_request_id data = next_request_id (st w) ∧ rd_payment data = attached_deposit e ∧
    rd_sender_id data = signer_account_id e ∧ rd_code_source data = resolved ∧
    rd_project_uuid data = uuid ∧ rd_project_id data = pid ∧
    out w' = out w ++ [YieldExecution (yield_data_id e) data (response_gas (str_opt_len input));
                       ExecutionRequested data (yield_data_id e)].
Proof.
  unfold request_execution. intros Hr. rinv. cbv zeta in *.
  cbn [compile_only param_attached_usd param_project_uuid] in *.
  fold (compile_mode limits params) in *. fold (attached_of params) in *.
  set (compile := compile_mode limits params) in *. set (attached := attached_of params) in *.
  clearbody compile attached.
  assert (w0 = w ∧ (project_of_source source = None → code_source_error c = None)) as [-> Hsrc].
  { destruct (project_of_source source); cbn in H1; rinv; naive_solver. }
  assert (w2 = w ∧ a1 = admission_cost (st w) limits compile) as [-> ->].
  { unfold admission_cost. destruct compile; rinv; done. }
  assert (w3 = w ∧ (compile = false → ∀ id pricing, project_of_source source = Some id →
    project_pricing (st w) !! id = Some pricing → ∃ op price, operation_from_input input = inl op ∧
      price_for_operation pricing op = Some price ∧ price ≤ attached)) as [-> Hop].
  { destruct compile; rinv; done. }
  exists c, o, ub, data. split_and!; done.
Qed.

Lemma money_filed c ub r attached :
  money_ok c → req_id r = next_request_id c → req_attached_usd r = attached → 0 ≤ attached →
  0 ≤ req_payment r → u64_ok (next_request_id c + 1) → nonneg_map ub →
  map_sum (λ x, x) ub = map_sum (λ x, x) (user_stablecoin_balances c) - attached →
  let c' := c <| user_stablecoin_balances := ub |>
    <| next_request_id := next_request_id c + 1 |>
    <| pending_requests := <[next_request_id c := r]> (pending_requests c) |> in
  money_ok c' ∧ ledger c' = ledger c.
Proof.
  intros [? ? Hr Hn Hp] Hid <- Hatt Hpay Hw Hub Hsum c'. widths. split.
  - constructor; cbn; try done.
    intros id x. rewrite lookup_insert. case_decide as E.
    + intros [= <-]. split_and!; [congruence|lia..].
    + intros Hx. apply Hr in Hx. intuition lia.
  - assert (pending_requests c !! next_request_id c = None) as Hfresh.
    { apply eq_None_not_Some. intros [x Hx]. apply Hr in Hx. lia. }
    unfold ledger, c'. cbn. rewrite map_sum_insert, Hfresh. cbn. lia.
Qed.

Lemma request_execution_money e source limits input secrets fmt payer params w u w' :
  request_execution e source limits input secrets fmt payer params w = Ok (u, w') →
  money_ok (st w) → 0 ≤ attached_of params → 0 ≤ attached_deposit e →
  money_ok (st w') ∧ ledger (st w') = ledger (st w).
Proof.
  intros Hr M Ha Hd.
  apply request_execution_ok in Hr as (resolved & uuid & ub & data & _ & _ & _ & _ & _ & _ & _
    & Hub & Hw & -> & _).
  destruct (Hub Ha) as (Hsum & _ & Hnn).
  apply (money_filed (st w) ub (new_request e (st w) source resolved _ input secrets _ payer _)
    (attached_of params)); try done. apply Hnn, (mo_users _ M).
Qed.
End request.

(** * The other operations *)

Section operations.
Context `{Platform}.

(** Keeping the invariant and changing what is owed by [d]. *)
Definition owes (d : Z) (w w' : CWorld) : Prop :=
  money_ok (st w) → money_ok (st w') ∧ ledger (st w') = ledger (st w) + d.

Lemma owes_trans d d' w w' w'' : owes d w w' → owes d' w' w'' → owes (d + d') w w''.
Proof. intros H1 H2 M. destruct (H1 M) as [M' E]. destruct (H2 M') as [? ->]. split; [done|lia]. Qed.

Lemma owes_frame w w' : money_part (st w') = money_part (st w) → owes 0 w w'.
Proof.
  intros Hf M. split; [by eapply money_ok_frame | rewrite (ledger_frame _ _ Hf); lia].
Qed.

Lemma owes_users (w : CWorld) ub who amount o :
  0 ≤ amount → credited (user_stablecoin_balances (st w)) who amount ub →
  owes amount w (mkWorld ((st w) <| user_stablecoin_balances := ub |>) o).
Proof.
  intros Ha (_ & Hs & Hn) [? ? ? ? ?]. split.
  - constructor; cbn; auto.
  - unfold ledger. cbn. lia.
Qed.

Lemma return_attached_usd_owes who amount w u w' :
  0 ≤ amount → return_attached_usd who amount w = Ok (u, w') → owes amount w w'.
Proof. intros Ha (ub & -> & Hc)%return_attached_usd_ok. by eapply owes_users. Qed.

Lemma handle_deposit_balance_owes who amount w u w' :
  0 ≤ amount → handle_deposit_balance who amount w = Ok (u, w') → owes amount w w'.
Proof.
  unfold handle_deposit_balance, keep_everything. intros Ha Hr. xinv.
  apply (owes_users _ _ who); [done | apply credited_insert].
Qed.

Lemma withdraw_developer_earnings_owes e w u w' :
  withdraw_developer_earnings e w = Ok (u, w') →
  let amount := balance (developer_earnings (st w)) (predecessor_account_id e) in
  0 < amount ∧ owes (- amount) w w' ∧
  ∃ token, payment_token_contract (st w) = Some token ∧
    out w' = out w ++ [WithdrawCall token (predecessor_account_id e) amount].
Proof.
  unfold withdraw_developer_earnings. intros Hr. xinv. split; [done|]. split; [|eauto].
  intros [? ? ? ? ?]. split.
  - constructor; cbn; auto using nonneg_map_delete.
  - unfold ledger. cbn. rewrite balance_sum_delete. lia.
Qed.

Lemma on_withdraw_developer_earnings_owes e developer amount result w u w' :
  0 ≤ amount → on_withdraw_developer_earnings e developer amount result w = Ok (u, w') →
  owes (match result with CbOk _ => 0 | CbErr => amount end) w w'.
Proof.
  unfold on_withdraw_developer_earnings. intros Ha Hr. xinv.
  destruct result; xinv; [by apply owes_frame|].
  pose proof (credited_insert (developer_earnings (st w)) developer amount) as (_ & Hs & Hn).
  intros [? ? ? ? ?]. split; [constructor; cbn; auto|]. unfold ledger. cbn. lia.
Qed.

Definition pricing_arg_typed (p : ProjectPricing) : Prop :=
  Forall (λ o, 0 ≤ op_price_usd o ∧ 0 ≤ op_developer_share_bp o) (operations p).

Lemma check_operations_frame ops seen (w : CWorld) r w' :
  foldM check_operation seen ops w = Ok (r, w') → w' = w.
Proof.
  revert seen w. induction ops as [|o ops IH]; intros seen w Hr; cbn in Hr; minv; [done|].
  unfold check_operation in *. minv. eauto.
Qed.

Lemma set_project_pricing_owes e pid p w u w' :
  pricing_arg_typed p → set_project_pricing e pid p w = Ok (u, w') → owes 0 w w'.
Proof.
  unfold set_project_pricing, assert_owner. intros Hp Hr [? ? ? ? Hty]. minv. repeat (cinv_step; minv).
  match goal with Hc : foldM check_operation _ _ _ = _ |- _ =>
    apply check_operations_frame in Hc; subst end.
  split; [|unfold ledger; cbn; lia]. constructor; try done.
  intros q x. cbn. rewrite lookup_insert. destruct (decide (pid = q)); [|apply Hty].
  intros ?. by simplify_eq.
Qed.

Lemma ft_on_transfer_owes e sender amount msg w u w' :
  0 ≤ amount → ft_on_transfer e sender amount msg w = Ok (u, w') →
  owes (match json_ft_action msg with Some DepositBalance => amount | _ => 0 end) w w'.
Proof.
  unfold ft_on_transfer. intros Ha Hr. minv. repeat (cinv_step; minv).
  match goal with Hj : json_ft_action msg = Some ?x |- _ => rewrite Hj; destruct x end.
  - apply owes_frame. unfold handle_top_up, emit_system_event in *. by xinv.
  - by eapply handle_deposit_balance_owes.
  - apply owes_frame. unfold handle_buy_subscription, emit_system_event, keep_everything in *. by xinv.
Qed.

Lemma create_project_owes e name source w u w' :
  create_project e name source w = Ok (u, w') → owes 0 w w'.
Proof.
  intros Hr. apply owes_frame. assert (frame money_part (create_project e name source)) as Hf.
  { unfold create_project. solve_frame. }
  by eapply Hf.
Qed.

Lemma submit_output_owes id output w u w' :
  submit_execution_output_internal id output w = Ok (u, w') → owes 0 w w'.
Proof.
  unfold submit_execution_output_internal. intros Hr [? ? Hq ? ?]. xinv.
  match goal with Hp : pending_requests _ !! id = Some ?r |- _ =>
    pose proof (Hq _ _ Hp) as Hr; rename Hp into E end. split.
  - constructor; cbn; try done.
    intros id' r. rewrite lookup_insert. case_decide; [|apply Hq].
    subst. intros [= <-]. cbn. done.
  - unfold ledger. cbn. rewrite map_sum_insert, E. cbn. lia.
Qed.

Lemma drop_request_owes id r w u w' :
  pending_requests (st w) !! id = Some r → drop_request id r w = Ok (u, w') →
  owes (- req_attached_usd r) w w' ∧
  out w' = out w ++ [Transfer (req_payer_account_id r) (req_payment r)].
Proof.
  unfold drop_request. intros Hp Hr. xinv. split; [|done]. intros M.
  split; [by apply (money_removed _ id)|]. cbn. rewrite (ledger_removed _ _ _ Hp). lia.
Qed.

Lemma drop_and_return_owes id r w u w' u' w'' :
  pending_requests (st w) !! id = Some r → drop_request id r w = Ok (u, w') →
  return_attached_usd (req_sender_id r) (req_attached_usd r) w' = Ok (u', w'') → owes 0 w w''.
Proof.
  intros Hp Hd Hu M. destruct (mo_requests _ M _ _ Hp) as (_ & _ & Ha & _).
  apply drop_request_owes in Hd as [Hd _]; [|done].
  apply return_attached_usd_owes in Hu; [|done].
  destruct (owes_trans _ _ _ _ _ Hd Hu M) as [? ->]. split; [done | lia].
Qed.

Lemma emergency_cancel_owes e id w u w' :
  emergency_cancel_execution e id w = Ok (u, w') → owes 0 w w'.
Proof.
  unfold emergency_cancel_execution, assert_owner. intros Hr M. minv. repeat (cinv_step; minv).
  prop_bool. match goal with
    Hp : pending_requests _ !! id = Some _, Hd : drop_request _ _ _ = _,
    Hu : return_attached_usd _ _ _ = _ |- _ => by apply (drop_and_return_owes _ _ _ _ _ _ _ Hp Hd Hu) end.
Qed.

(** The requests a bulk cancel drops keep their stablecoin: it is stranded. *)
Definition stranded_by (w w' : CWorld) : Z :=
  map_sum req_attached_usd (pending_requests (st w))
  - map_sum req_attached_usd (pending_requests (st w')).

Lemma cancel_one_owes n id w m w' :
  cancel_one n id w = Ok (m, w') → owes (- stranded_by w w') w w'.
Proof.
  unfold cancel_one. intros Hr. minv. destruct (pending_requests (st w) !! id) as [r|] eqn:E; minv.
  - unfold drop_request in *. xinv. unfold stranded_by. intros M. cbn [st].
    split; [by apply (money_removed _ id)|]. rewrite (ledger_removed _ _ _ E).
    cbn. rewrite map_sum_delete, E. cbn. lia.
  - unfold stranded_by. rewrite Z.sub_diag. by apply owes_frame.
Qed.

Lemma cancel_fold_owes ids n w m w' :
  foldM cancel_one n ids w = Ok (m, w') → owes (- stranded_by w w') w w'.
Proof.
  revert n w. induction ids as [|id ids IH]; intros n w Hr; cbn in Hr; minv.
  - unfold stranded_by. rewrite Z.sub_diag. by apply owes_frame.
  - apply cancel_one_owes in H0. apply IH in H1. intros M.
    destruct (owes_trans _ _ _ _ _ H0 H1 M) as [? ->]. split; [done|]. unfold stranded_by. lia.
Qed.

Lemma clear_one_owes limit n id w m w' :
  clear_one limit n id w = Ok (m, w') → owes 0 w w'.
Proof.
  unfold clear_one. destruct (limit <=? n); intros Hr M; minv; [by apply owes_frame|].
  destruct (pending_requests (st w) !! id) as [r|] eqn:E; minv; [|by apply owes_frame].
  match goal with Hd : drop_request _ _ _ = _, Hu : return_attached_usd _ _ _ = _ |- _ =>
    by apply (drop_and_return_owes _ _ _ _ _ _ _ E Hd Hu) end.
Qed.

Lemma clear_fold_owes limit ids n w m w' :
  foldM (clear_one limit) n ids w = Ok (m, w') → owes 0 w w'.
Proof.
  revert n w. induction ids as [|id ids IH]; intros n w Hr; cbn in Hr; minv.
  - by apply owes_frame.
  - apply clear_one_owes in H0. apply IH in H1. intros M.
    destruct (owes_trans _ _ _ _ _ H0 H1 M) as [? ->]. split; [done | lia].
Qed.

(** The sender's cancel: what it keeps, what it gives back. *)
Lemma cancel_stale_execution_ok e id w u w' :
  cancel_stale_execution e id w = Ok (u, w') →
  ∃ r, pending_requests (st w) !! id = Some r ∧ predecessor_account_id e = req_sender_id r ∧
    req_timestamp r + EXECUTION_TIMEOUT < block_timestamp e ∧
    let charge := if req_output_submitted r then estimate_formula (st w) (req_resource_limits r)
                  else base_fee (st w) in
    let kept := Z.min (req_payment r) charge in
    (0 ≤ req_attached_usd r →
     settled (mkWorld ((st w) <| pending_requests := delete id (pending_requests (st w)) |>) (out w))
       w' r (req_attached_usd r) [] kept (req_payment r - kept)).
Proof.
  unfold cancel_stale_execution. intros Hr. minv. repeat (cinv_step; minv). prop_bool.
  exists a1. split_and!; try done. intros Ha.
  assert (w7 = mkWorld ((st w) <| pending_requests := delete id (pending_requests (st w)) |>) (out w) ∧
    a6 = if req_output_submitted a1 then estimate_formula (st w) (req_resource_limits a1)
         else base_fee (st w)) as [-> ->] by (destruct (req_output_submitted a1); xinv; done).
  xinv. exists ub, (developer_earnings (st w)), []. split_and!; try done.
  - apply credits_nil.
  - cbn. lia.
  - by rewrite app_nil_r.
Qed.

Lemma cancel_stale_owes e id w u w' :
  cancel_stale_execution e id w = Ok (u, w') → owes 0 w w'.
Proof.
  intros (r & Hp & _ & _ & Hs)%cancel_stale_execution_ok M.
  destruct (mo_requests _ M _ _ Hp) as (_ & _ & Ha & _).
  apply Hs in Ha. apply settled_money in Ha as (M' & Hl & _); [|by apply (money_removed _ id)].
  split; [done|]. rewrite Hl. cbn. rewrite (ledger_removed _ _ _ Hp). lia.
Qed.
End operations.

(** * The settlement callback returns

    A panic in the callback would lose the request's refund, so what matters is
    that it cannot happen: not on any answer of the worker, not on a timeout. *)

Section totality.
Context `{Platform}.

Lemma return_attached_usd_runs who amount (w : CWorld) :
  0 ≤ balance (user_stablecoin_balances (st w)) who + amount < 2 ^ 128 →
  is_ok (return_attached_usd who amount w) = true.
Proof.
  intros Hb. unfold return_attached_usd. destruct (amount =? 0); [done|].
  unfold bind, get_st, add128. by rewrite checked_run.
Qed.

Lemma credit_earnings_runs who amount (w : CWorld) :
  0 ≤ balance (developer_earnings (st w)) who + amount < 2 ^ 128 →
  is_ok (credit_earnings who amount w) = true.
Proof. intros Hb. unfold credit_earnings, bind, get_st, add128. by rewrite checked_run. Qed.

Lemma collect_fee_runs fee (w : CWorld) :
  0 ≤ total_fees_collected (st w) + fee < 2 ^ 128 → is_ok (collect_fee fee w) = true.
Proof. intros Hb. unfold collect_fee, bind, get_st, add128. by rewrite checked_run. Qed.

Lemma credit_developers_runs priced project amount (w : CWorld) :
  nonneg_map (developer_earnings (st w)) → 0 ≤ amount →
  from_option (λ p, 0 ≤ p.2) True priced →
  (map_sum (λ x, x) (developer_earnings (st w)) + amount) * 10000 < 2 ^ 128 →
  is_ok (credit_developers priced project amount w) = true.
Proof.
  intros Hn Ha Hs Hsum.
  assert (∀ k, balance (developer_earnings (st w)) k
    ≤ map_sum (λ x, x) (developer_earnings (st w))) as Hle by (intros; by apply balance_le_sum).
  assert (∀ k, 0 ≤ balance (developer_earnings (st w)) k) as Hge by (intros; by apply balance_nonneg).
  unfold credit_developers. destruct priced as [[[author p] share]|].
  - cbn in Hs. pose proof (split_payment_bounds amount share Ha Hs) as Hb.
    eapply is_ok_bind.
    { unfold split_payment, bind, mul128, sub128.
      pose proof (map_sum_nonneg (λ x, x) _ Hn).
      rewrite !checked_run; [reflexivity | lia | nia]. }
    cbn [author_usd]. destruct (0 <? _); [|apply credit_earnings_runs; specialize (Hle (proj_owner project)); specialize (Hge (proj_owner project)); lia].
    destruct (is_ok_run (credit_earnings author (amount * Z.min share 10000 / 10000)) w) as [w1 Hw1].
    { apply credit_earnings_runs. specialize (Hle author); specialize (Hge author); lia. }
    eapply is_ok_bind; [exact Hw1|].
    apply credit_earnings_ok in Hw1 as (de & -> & _ & Hs1 & Hn1). cbn [owner_usd].
    apply credit_earnings_runs. cbn.
    assert (nonneg_map de) as Hde by (apply Hn1; [done|lia]).
    pose proof (balance_le_sum de (proj_owner project) Hde).
    pose proof (balance_nonneg de (proj_owner project) Hde). lia.
  - eapply is_ok_bind; [reflexivity|]. apply credit_earnings_runs.
    specialize (Hle (proj_owner project)); specialize (Hge (proj_owner project)); lia.
Qed.

Lemma settle_stablecoin_runs r guest (w : CWorld) :
  nonneg_map (user_stablecoin_balances (st w)) → nonneg_map (developer_earnings (st w)) →
  0 ≤ req_attached_usd r → 0 ≤ guest → pricing_typed (st w) →
  (map_sum (λ x, x) (user_stablecoin_balances (st w))
   + map_sum (λ x, x) (developer_earnings (st w)) + req_attached_usd r) * 10000 < 2 ^ 128 →
  is_ok (settle_stablecoin r guest w) = true.
Proof.
  intros Hu Hd Ha Hg Hp Hsum. pose proof (priced_of_typed (st w) r Hp) as Hpr.
  pose proof (map_sum_nonneg (λ x, x) _ Hu). pose proof (map_sum_nonneg (λ x, x) _ Hd).
  unfold settle_stablecoin. destruct (0 <? req_attached_usd r); [|done].
  eapply is_ok_bind; [reflexivity|]. cbv zeta.
  set (price := from_option _ _ (priced_of (st w) r)).
  assert (0 ≤ price) as Hprice.
  { unfold price. destruct (priced_of (st w) r) as [[[? ?] ?]|]; cbn in *; lia. }
  pose proof (settle_attached_bounds (req_attached_usd r) price guest Ha Hprice Hg) as Hb.
  destruct (settle_attached _ _ _) as [refund dev]. destruct Hb as (Hb1 & Hb2 & Hb3 & _).
  destruct (is_ok_run (return_attached_usd (req_sender_id r) refund) w) as [w1 Hw1].
  { apply return_attached_usd_runs. pose proof (balance_le_sum _ (req_sender_id r) Hu).
    pose proof (balance_nonneg _ (req_sender_id r) Hu). lia. }
  eapply is_ok_bind; [exact Hw1|].
  apply return_attached_usd_ok in Hw1 as (ub & -> & _ & Hs1 & Hn1).
  destruct (0 <? dev); [|done]. destruct (payee_of (st w) r) as [project|].
  - apply credit_developers_runs; cbn; [done | done | | lia].
    destruct (priced_of (st w) r) as [[[? ?] ?]|]; cbn in *; [tauto | done].
  - apply return_attached_usd_runs. cbn. assert (nonneg_map ub) as Hub by auto.
    pose proof (balance_le_sum ub (req_sender_id r) Hub).
    pose proof (balance_nonneg ub (req_sender_id r) Hub). lia.
Qed.
End totality.

Section callback.
Context `{Platform}.

Lemma charged_cost_runs r payment metrics (w : CWorld) :
  fees_bounded (st w) → metrics_ok metrics → 0 ≤ payment →
  ∃ cost, charged_cost r payment metrics w = Ok (cost, w) ∧ 0 ≤ cost ≤ payment.
Proof.
  intros Hf Hm Hp. unfold charged_cost, bind, get_st.
  destruct (calculate_cost_total (st w) metrics w Hf Hm) as [-> Hc].
  eexists. split; [reflexivity|]. unfold saturating_sub, input_storage_deposit, STORAGE_PRICE_PER_BYTE,
    saturating_sub. lia.
Qed.

Lemma transfer_runs to amount (w : CWorld) :
  transfer_if_positive to amount w
  = Ok (tt, mkWorld (st w) (out w ++ (if 0 <? amount then [Transfer to amount] else []))).
Proof.
  unfold transfer_if_positive. destruct (0 <? amount); [done|].
  unfold ret. rewrite app_nil_r. by destruct w.
Qed.

(** The tail of the two branches that earn nothing. *)
Lemma refund_tail_runs to refund who amount fee (k : CM unit) (w : CWorld) :
  0 ≤ balance (user_stablecoin_balances (st w)) who + amount < 2 ^ 128 →
  0 ≤ total_fees_collected (st w) + fee < 2 ^ 128 → (∀ w', is_ok (k w') = true) →
  is_ok ((transfer_if_positive to refund >>> return_attached_usd who amount >>>
          collect_fee fee >>> k) w) = true.
Proof.
  intros Hb Hf Hk. eapply is_ok_bind; [apply transfer_runs|].
  match goal with |- is_ok (bind ?m _ ?w1) = true =>
    destruct (is_ok_run m w1) as [w2 Hw2]; [by apply return_attached_usd_runs|] end.
  eapply is_ok_bind; [exact Hw2|].
  apply return_attached_usd_ok in Hw2 as (ub & -> & _).
  match goal with |- is_ok (bind ?m _ ?w1) = true =>
    destruct (is_ok_run m w1) as [w2 Hw2]; [by apply collect_fee_runs|] end.
  eapply is_ok_bind; [exact Hw2 | apply Hk].
Qed.

(** Room left in the counters and the ledger for one more settlement. *)
Definition settlement_room (c : Contract) (payment : Z) : Prop :=
  0 ≤ total_executions c < 2 ^ 64 - 1 ∧ 0 ≤ total_fees_collected c ∧
  total_fees_collected c + payment + base_fee c < 2 ^ 128 ∧ ledger c * 10000 < 2 ^ 128.

(** The same once the request [r] is out of the pending table. *)
Record room (c : Contract) (r : ExecutionRequest) (payment : Z) : Prop := {
  room_users : nonneg_map (user_stablecoin_balances c);
  room_earnings : nonneg_map (developer_earnings c);
  room_pricing : pricing_typed c;
  room_fees : fees_bounded c;
  room_attached : 0 ≤ req_attached_usd r;
  room_payment : 0 ≤ payment;
  room_total : 0 ≤ total_fees_collected c ∧
    total_fees_collected c + payment + base_fee c < 2 ^ 128;
  room_ledger : (map_sum (λ x, x) (user_stablecoin_balances c)
    + map_sum (λ x, x) (developer_earnings c) + req_attached_usd r) * 10000 < 2 ^ 128;
}.

Lemma room_sender c r payment :
  room c r payment →
  0 ≤ balance (user_stablecoin_balances c) (req_sender_id r) + req_attached_usd r < 2 ^ 128.
Proof.
  intros [Hu Hd _ _ Ha _ _ Hl].
  pose proof (balance_le_sum _ (req_sender_id r) Hu).
  pose proof (balance_nonneg _ (req_sender_id r) Hu).
  pose proof (map_sum_nonneg (λ x, x) _ Hd). lia.
Qed.

Lemma settle_success_runs r sender src payment stored resp (w : CWorld) :
  room (st w) r payment → response_typed (CbOk resp) →
  is_ok (settle_success r sender src payment stored resp w) = true.
Proof.
  intros R [Hm Hg]. pose proof R as [Hu Hd Hp Hf Ha Hpay [Ht0 Ht] Hl].
  destruct (charged_cost_runs r payment (resources_used resp) w) as (cost & Hcost & Hc); try done.
  unfold settle_success. eapply is_ok_bind; [exact Hcost|].
  destruct (is_ok_run (settle_stablecoin r (default 0 (refund_usd resp))) w) as [w1 Hw1];
    [by apply settle_stablecoin_runs|].
  eapply is_ok_bind; [exact Hw1|]. cbv zeta.
  apply settle_stablecoin_ok in Hw1 as (ub & de & b & ps & -> & _);
    [|done|done|by apply priced_of_typed].
  eapply is_ok_bind; [apply transfer_runs|].
  assert (0 ≤ base_fee (st w)) by (destruct Hf as [? _]; lia).
  match goal with |- is_ok (bind ?m _ ?w1) = true =>
    destruct (is_ok_run m w1) as [w2 Hw2]; [apply collect_fee_runs; cbn; lia|] end.
  eapply is_ok_bind; [exact Hw2 | done].
Qed.

Lemma settle_failure_runs r sender src payment resp (w : CWorld) :
  room (st w) r payment → response_typed (CbOk resp) →
  is_ok (settle_failure r sender src payment resp w) = true.
Proof.
  intros R [Hm Hg]. pose proof R as [Hu Hd Hp Hf Ha Hpay [Ht0 Ht] Hl].
  destruct (charged_cost_runs r payment (resources_used resp) w) as (cost & Hcost & Hc); try done.
  assert (0 ≤ base_fee (st w)) by (destruct Hf as [? _]; lia).
  unfold settle_failure. eapply is_ok_bind; [exact Hcost|].
  apply refund_tail_runs; [by eapply room_sender | lia | done].
Qed.

Lemma settle_promise_error_runs r payment (w : CWorld) :
  room (st w) r payment → is_ok (settle_promise_error r payment w) = true.
Proof.
  intros R. pose proof R as [Hu Hd Hp Hf Ha Hpay [Ht0 Ht] Hl].
  assert (0 ≤ base_fee (st w)) by (destruct Hf as [? _]; lia).
  unfold settle_promise_error. eapply is_ok_bind; [reflexivity|].
  apply refund_tail_runs; [by eapply room_sender | lia | done].
Qed.

(** Taking the request out leaves room for its settlement. *)
Lemma room_intro c id r payment n :
  money_ok c → fees_bounded c → 0 ≤ payment → settlement_room c payment →
  pending_requests c !! id = Some r →
  room (c <| pending_requests := delete id (pending_requests c) |> <| total_executions := n |>)
    r payment.
Proof.
  intros M Hf Hpay (Hte & Hfe & Htot & Hled) E.
  destruct (mo_requests _ M _ _ E) as (_ & _ & Ha & _).
  pose proof (ledger_removed _ _ _ E) as Hrem. destruct M as [Hu Hd Hreq _ Hp].
  assert (0 ≤ map_sum req_attached_usd (delete id (pending_requests c))).
  { apply map_sum_nonneg. intros k v [_ Hk]%lookup_delete_Some. by apply Hreq in Hk as (_&_&?&_). }
  unfold ledger in *. cbn in Hrem. constructor; cbn; try done. lia.
Qed.

Lemma on_execution_response_runs e id sender src limits payment resp (w : CWorld) :
  predecessor_account_id e = current_account_id e →
  money_ok (st w) → fees_bounded (st w) → response_typed resp → 0 ≤ payment →
  settlement_room (st w) payment →
  is_ok (on_execution_response e id sender src limits payment resp w) = true.
Proof.
  intros Hpriv M Hf Ht Hpay Hroom. unfold on_execution_response. eapply is_ok_bind.
  { unfold assert_private, require. by rewrite bool_decide_eq_true_2. }
  eapply is_ok_bind; [reflexivity|].
  destruct (pending_requests (st w) !! id) as [r|] eqn:E; [|done].
  eapply is_ok_bind; [reflexivity|].
  eapply is_ok_bind; [unfold add64; rewrite checked_run; [done | destruct Hroom; lia]|].
  eapply is_ok_bind; [reflexivity|].
  pose proof (room_intro _ _ r payment (total_executions (st w) + 1) M Hf Hpay Hroom E) as R.
  destruct resp as [resp|]; [destruct (success resp)|].
  - by apply settle_success_runs.
  - by apply settle_failure_runs.
  - by apply settle_promise_error_runs.
Qed.
End callback.

(** * Claims *)

Section claims.
Context `{Platform}.

(** C2: A settlement pays out a request's stablecoin exactly: the sender's part
    and the developers' parts are non-negative and add up to what was attached,
    every balance and earning moves by its part and no other, the request is
    gone, and what the contract owes is unchanged. *)
Theorem settlement_pays_exactly e id sender src limits payment resp w u w' r :
  on_execution_response e id sender src limits payment resp w = Ok (u, w') →
  money_ok (st w) → response_typed resp → pending_requests (st w) !! id = Some r →
  ∃ back parts fee, settlement_of (st w) r payment resp = (back, parts, fee) ∧
    back + parts_total parts = req_attached_usd r ∧ 0 ≤ back ∧ Forall (λ p, 0 ≤ p.2) parts ∧
    (∀ a, get_user_stablecoin_balance (st w') a = get_user_stablecoin_balance (st w) a
            + if decide (a = req_sender_id r) then back else 0) ∧
    (∀ a, get_developer_earnings (st w') a = get_developer_earnings (st w) a + paid_to a parts) ∧
    pending_requests (st w') = delete id (pending_requests (st w)) ∧
    ledger (st w') = ledger (st w).
Proof.
  intros Hr M Ht E.
  destruct (on_execution_response_money _ _ _ _ _ _ _ _ _ _ Hr M Ht) as (_ & Hl & Hp & _).
  apply on_execution_response_ok in Hr as [_ Hr]; [|done..]. rewrite E in Hr.
  destruct Hr as (back & parts & fee & Hs & ub & de & tail & Hst & Hc & Hd & Hsum & Hb & Hf & _).
  exists back, parts, fee. split_and!; try done.
  - rewrite Hst. apply Hc.
  - rewrite Hst. apply Hd.
Qed.

(** The NEAR of a settled request is split into the fee and a refund to the
    payer, with nothing left over.  Whenever the worker answered, the fee is
    the run's cost capped so that the deposit held for the input always comes
    back; on a timeout it is the base fee. *)
Theorem settlement_near_refund e id sender src limits payment resp w u w' r :
  on_execution_response e id sender src limits payment resp w = Ok (u, w') →
  money_ok (st w) → response_typed resp → pending_requests (st w) !! id = Some r →
  0 ≤ payment → 0 ≤ base_fee (st w) →
  let storage := input_storage_deposit (str_opt_len (req_input_data r)) in
  ∃ kept, 0 ≤ kept ≤ payment ∧
    transferred_to (req_payer_account_id r) (out w')
      = transferred_to (req_payer_account_id r) (out w) + (payment - kept) ∧
    transferred (out w') = transferred (out w) + (payment - kept) ∧
    match resp with
    | CbOk resp =>
      kept = Z.min (cost_formula (st w) (resources_used resp)) (saturating_sub payment storage) ∧
      Z.min payment storage ≤ payment - kept ∧
      total_fees_collected (st w') = total_fees_collected (st w) + kept
    | CbErr => kept = Z.min payment (base_fee (st w))
    end.
Proof.
  intros Hr M Ht E Hp Hbf storage.
  assert (0 ≤ storage) by (unfold storage, input_storage_deposit, saturating_sub, STORAGE_PRICE_PER_BYTE; lia).
  assert (Hcost : ∀ resp', resp = CbOk resp' → 0 ≤ Z.min (cost_formula (st w) (resources_used resp'))
    (saturating_sub payment storage)).
  { intros resp' ->. revert Hr. unfold on_execution_response. intros Hr. xinv. rewrite E in *. xinv.
    destruct (success resp'); [unfold settle_success in *|unfold settle_failure in *]; minv;
      match goal with Hcc : charged_cost _ _ _ _ = Ok _ |- _ =>
        apply charged_cost_ok in Hcc as (_ & ? & ->) end; done. }
  apply on_execution_response_ok in Hr as [_ Hr]; [|done..]. rewrite E in Hr.
  destruct Hr as (back & parts & fee & Hs & ub & de & tail & Hst & _ & _ & _ & _ & _ & Hout & Htail).
  exists (payment - saturating_sub payment fee).
  assert (transferred tail = 0 ∧ ∀ a, transferred_to a tail = 0) as [Ht0 Ht1].
  { clear -Htail. induction Htail as [|x l Hx _ [IH1 IH2]]; [done|].
    destruct x; try done; cbn; split; intros; rewrite ?IH1, ?IH2; done. }
  rewrite Hout, !transferred_app, !transferred_to_app, transferred_refund, transferred_to_refund,
    Ht0, Ht1 by (unfold saturating_sub; lia). cbn [out].
  destruct resp as [resp|]; cbn in Hs.
  - specialize (Hcost resp eq_refl). fold storage in Hs.
    assert (fee = Z.min (cost_formula (st w) (resources_used resp)) (saturating_sub payment storage))
      as -> by (destruct (success resp); congruence).
    rewrite Hst. cbn [total_fees_collected set_field set_total_fees_collected].
    unfold saturating_sub in *. split_and!; try lia. cbn. lia.
  - injection Hs as _ _ <-. unfold saturating_sub. split_and!; lia.
Qed.

(** The settlement callback returns: with fees in range and room in the
    counters, no answer of the worker and no timeout makes it panic, so a
    request's refund cannot be lost to it. *)
Theorem settlement_never_panics e id sender src limits payment resp (w : CWorld) :
  predecessor_account_id e = current_account_id e →
  money_ok (st w) → fees_bounded (st w) → response_typed resp → 0 ≤ payment →
  settlement_room (st w) payment →
  ∃ w', on_execution_response e id sender src limits payment resp w = Ok (tt, w') ∧
    pending_requests (st w') !! id = None.
Proof.
  intros Hpriv M Hf Ht Hp Hroom.
  destruct (is_ok_run (on_execution_response e id sender src limits payment resp) w) as [w' Hw];
    [by apply on_execution_response_runs|].
  exists w'. split; [done|].
  apply on_execution_response_money in Hw as (_ & _ & -> & _); [apply lookup_delete_eq | done | done].
Qed.

(** Money attached to a run is divided without loss: the caller gets back
    everything above the price and what the guest returns of it, the guest
    cannot reach past the price, and developers get the rest, at most the
    price. *)
Theorem settle_attached_exact attached price guest :
  0 ≤ attached → 0 ≤ price → 0 ≤ guest →
  let '(back, dev) := settle_attached attached price guest in
  back + dev = attached ∧ dev = Z.max 0 (Z.min attached price - guest) ∧
  Z.max 0 (attached - price) ≤ back.
Proof. unfold settle_attached, saturating_sub. cbn. lia. Qed.

(** A developer payment is split to the unit: whenever the product fits, the
    author gets the share rounded down and the owner all the rest. *)
Theorem split_payment_exact {W} paid share (w : W) :
  0 ≤ paid → 0 ≤ share → paid * 10000 < 2 ^ 128 →
  ∃ s, split_payment paid share w = Ok (s, w) ∧ author_usd s + owner_usd s = paid ∧
    0 ≤ author_usd s ∧ 0 ≤ owner_usd s ∧
    author_usd s * 10000 ≤ paid * Z.min share 10000 < (author_usd s + 1) * 10000.
Proof.
  intros Hp Hs Hw. pose proof (split_payment_bounds paid share Hp Hs) as Hb.
  unfold split_payment, bind, mul128, sub128. rewrite checked_run by nia.
  rewrite checked_run by nia. eexists. split; [reflexivity|]. cbn.
  pose proof (Z.div_mod (paid * Z.min share 10000) 10000).
  pose proof (Z.mod_pos_bound (paid * Z.min share 10000) 10000). lia.
Qed.
End claims.

Section admission_claims.
Context `{Platform}.

(** What admission guarantees of a filed request: the contract was not
    paused, the code resolved to a stored version or passed the inline rule,
    the limits are under the hard caps, a priced project got at least the price
    of the operation its input names, the deposit covers the estimate and the
    stored input, and exactly the attached stablecoin left the caller's
    balance and is now on the request. *)
Theorem admission_guarantees e source limits input secrets fmt payer params w u w' :
  request_execution e source limits input secrets fmt payer params w = Ok (u, w') →
  money_ok (st w) → 0 ≤ attached_of params → 0 ≤ attached_deposit e →
  let compile := compile_mode limits params in
  let id := next_request_id (st w) in
  ∃ resolved uuid r, paused (st w) = false ∧ resolves (st w) source resolved uuid ∧
    (project_of_source source = None → code_source_error resolved = None) ∧
    (compile = false → ∀ pid pricing, project_of_source source = Some pid →
       project_pricing (st w) !! pid = Some pricing →
       ∃ op price, operation_from_input input = inl op ∧
         price_for_operation pricing op = Some price ∧ price ≤ req_attached_usd r) ∧
    admission_cost (st w) limits compile + input_storage_deposit (str_opt_len input)
      ≤ req_payment r ∧
    get_request (st w) id = None ∧ get_request (st w') id = Some r ∧
    next_request_id (st w') = id + 1 ∧
    req_sender_id r = predecessor_account_id e ∧ req_payment r = attached_deposit e ∧
    req_attached_usd r = attached_of params ∧ req_input_data r = input ∧
    (∀ a, get_user_stablecoin_balance (st w') a = get_user_stablecoin_balance (st w) a
       - if decide (a = predecessor_account_id e) then attached_of params else 0) ∧
    ledger (st w') = ledger (st w).
Proof.
  intros Hr M Ha Hd.
  destruct (request_execution_money _ _ _ _ _ _ _ _ _ _ _ Hr M Ha Hd) as [_ Hl].
  apply request_execution_ok in Hr as (resolved & uuid & ub & data & Hpa & Hres & Hsrc & Hop & _ &
    _ & Hpay & Hub & _ & Hst & _).
  destruct (Hub Ha) as (_ & Hbal & _).
  exists resolved, uuid, (new_request e (st w) source resolved (default default_limits limits) input
    secrets (default FmtText fmt) payer (attached_of params)).
  split_and!; try done.
  - unfold get_request. apply eq_None_not_Some. intros [r Hr]. apply (mo_requests _ M) in Hr. lia.
  - rewrite Hst. apply lookup_insert_eq.
  - by rewrite Hst.
  - by rewrite Hst.
Qed.

(** Only the sender cancels a stale request, and only after the timeout.
    The payment splits into what is kept, at most the base fee when no output
    was delivered and at most the current estimate when it was, and a refund to
    the payer; the stablecoin goes back to the sender whole. *)
Theorem stale_cancel_refunds e id w u w' :
  cancel_stale_execution e id w = Ok (u, w') → money_ok (st w) → 0 ≤ base_fee (st w) →
  ∃ r kept, pending_requests (st w) !! id = Some r ∧ req_sender_id r = predecessor_account_id e ∧
    req_timestamp r + EXECUTION_TIMEOUT < block_timestamp e ∧
    pending_requests (st w') = delete id (pending_requests (st w)) ∧
    kept = Z.min (req_payment r)
      (if req_output_submitted r then estimate_formula (st w) (req_resource_limits r)
       else base_fee (st w)) ∧
    transferred_to (req_payer_account_id r) (out w')
      = transferred_to (req_payer_account_id r) (out w) + (req_payment r - kept) ∧
    total_fees_collected (st w') = total_fees_collected (st w) + kept ∧
    (∀ a, get_user_stablecoin_balance (st w') a = get_user_stablecoin_balance (st w) a
       + if decide (a = req_sender_id r) then req_attached_usd r else 0).
Proof.
  intros (r & Hp & Hs & Ht & Hset)%cancel_stale_execution_ok M Hb.
  destruct (mo_requests _ M _ _ Hp) as (_ & _ & Ha & Hpay).
  destruct (Hset Ha) as (ub & de & tail & Hst & Hc & _ & _ & _ & _ & Hout & Htail).
  exists r. eexists. split_and!; [done | done | done | by rewrite Hst | reflexivity | | by rewrite Hst |].
  - rewrite Hout, !transferred_to_app, transferred_to_refund by lia. cbn [out].
    assert (transferred_to (req_payer_account_id r) tail = 0) as ->; [|lia].
    clear -Htail. induction Htail as [|x l Hx _ IH]; [done|]. destruct x; try done; cbn; by rewrite IH.
  - rewrite Hst. apply Hc.
Qed.

(** The bulk cancel [cancel_pending_requests] refunds NEAR only: no balance
    and no earning changes, and the stablecoin of the dropped requests leaves
    what the contract owes without reaching anyone. *)
Theorem bulk_cancel_strands_stablecoin e ids w n w' :
  cancel_pending_requests e ids w = Ok (n, w') → money_ok (st w) →
  user_stablecoin_balances (st w') = user_stablecoin_balances (st w) ∧
  developer_earnings (st w') = developer_earnings (st w) ∧
  ledger (st w') = ledger (st w) - stranded_by w w'.
Proof.
  unfold cancel_pending_requests, assert_owner. intros Hr M. minv. repeat (cinv_step; minv).
  match goal with Hc : foldM cancel_one _ _ _ = _ |- _ => rename Hc into Hfold end.
  pose proof (cancel_fold_owes _ _ _ _ _ Hfold M) as [_ Hl].
  assert (∀ {X} (f : Contract → X), (∀ c v, f (c <| pending_requests := v |>) = f c) →
    f (st w') = f (st w)) as Hfr.
  { intros X f Hf. eapply (frame_foldM f cancel_one); [|exact Hfold]. intros b a.
    unfold cancel_one. apply frame_bind; [apply frame_get|]. intros c.
    destruct (_ !! _); [|apply frame_ret]. apply frame_bind; [|intros; apply frame_ret].
    apply frame_bind; [|intros; apply frame_emit]. apply frame_modify. intros. apply Hf. }
  split_and!; [by apply (Hfr _ user_stablecoin_balances) | by apply (Hfr _ developer_earnings) | lia].
Qed.
End admission_claims.

(** * Witnesses: one paid run *)

#[local] Existing Instance sample_platform.

Definition sample_code : CodeSource := WasmUrl "https://dev.near/app.wasm" sample_hex32 None.
Definition sample_pricing : ProjectPricing :=
  mkProjectPricing "author.near" [mkOperationPrice "run" 1000 7000].
Definition sample_params : RequestParams := mkRequestParams false false false None (Some 1500) false.
Definition sample_metrics : ResourceMetrics := mkMetrics 5000000 200 None.

Definition shop1 : CWorld :=
  ran (create_project (sample_env "dev.near" ONE_NEAR 1) "app" sample_code) (start sample_contract).
Definition shop2 : CWorld :=
  ran (set_project_pricing (sample_env "owner.near" 0 2) "dev.near/app" sample_pricing) shop1.
Definition shop : CWorld :=
  ran (ft_on_transfer (sample_env "usdt.near" 0 3) "alice.near" 5000 "deposit_balance") shop2.
Definition sample_request : CM unit :=
  request_execution (sample_env "alice.near" ONE_NEAR 4) (ESProject "dev.near/app" None)
    (Some default_limits) (Some "op:run") None None None (Some sample_params).
Definition waiting : CWorld := ran sample_request shop.
Definition sample_answer : callback_result (ExecutionResponse json) :=
  CbOk (mkResponse true (Some (OutText "done")) None sample_metrics None (Some 100)).
Definition sample_settle (resp : callback_result (ExecutionResponse json)) : CM unit :=
  on_execution_response (sample_env "outlayer.near" 0 9) 0 "alice.near" sample_code default_limits
    ONE_NEAR resp.

Lemma money_ok_start : money_ok sample_contract.
Proof. constructor; try apply nonneg_map_empty; done. Qed.

Lemma shop1_money : money_ok (st shop1).
Proof.
  assert (Hr : create_project (sample_env "dev.near" ONE_NEAR 1) "app" sample_code
    (start sample_contract) = Ok (tt, shop1)) by (apply ran_ok; vm_compute; reflexivity).
  exact (proj1 (create_project_owes _ _ _ _ _ _ Hr money_ok_start)).
Qed.

Lemma shop2_money : money_ok (st shop2).
Proof.
  assert (Hr : set_project_pricing (sample_env "owner.near" 0 2) "dev.near/app" sample_pricing shop1
    = Ok (tt, shop2)) by (apply ran_ok; vm_compute; reflexivity).
  refine (proj1 (set_project_pricing_owes _ _ _ _ _ _ _ Hr shop1_money)).
  repeat constructor; discriminate.
Qed.

Lemma shop_money : money_ok (st shop).
Proof.
  assert (Hr : ft_on_transfer (sample_env "usdt.near" 0 3) "alice.near" 5000 "deposit_balance" shop2
    = Ok (tt, shop)) by (apply ran_ok; vm_compute; reflexivity).
  refine (proj1 (ft_on_transfer_owes _ _ _ _ _ _ _ _ Hr shop2_money)). discriminate.
Qed.

Lemma sample_request_runs : sample_request shop = Ok (tt, waiting).
Proof. unfold waiting. apply (ran_ok sample_request shop). vm_compute. reflexivity. Qed.

Lemma waiting_money : money_ok (st waiting).
Proof. by apply (request_execution_money _ _ _ _ _ _ _ _ _ _ _ sample_request_runs shop_money). Qed.

Lemma sample_answer_typed : response_typed sample_answer.
Proof. vm_compute. repeat split; discriminate. Qed.

Definition waiting_request : ExecutionRequest :=
  new_request (sample_env "alice.near" ONE_NEAR 4) (st shop) (ESProject "dev.near/app" None)
    sample_code default_limits (Some "op:run") None FmtText None 1500.

Lemma settlement_pays_exactly_witness :
  let w' := ran (sample_settle sample_answer) waiting in
  get_user_stablecoin_balance (st w') "alice.near" = 3500 + 600 ∧
  get_developer_earnings (st w') "author.near" = 630 ∧ ledger (st w') = ledger (st waiting).
Proof.
  destruct (settlement_pays_exactly (sample_env "outlayer.near" 0 9) 0 "alice.near" sample_code
    default_limits ONE_NEAR sample_answer waiting tt (ran (sample_settle sample_answer) waiting)
    waiting_request) as (back & parts & fee & Hs & _ & _ & _ & Hu & Hd & _ & Hl).
  - apply ran_ok. vm_compute. reflexivity.
  - exact waiting_money.
  - exact sample_answer_typed.
  - vm_compute. reflexivity.
  - vm_compute in Hs. injection Hs as <- <- _. split; [rewrite Hu; vm_compute; reflexivity|].
    split; [rewrite Hd; vm_compute; reflexivity | exact Hl].
Defined.

Lemma settlement_near_refund_witness :
  let w' := ran (sample_settle sample_answer) waiting in
  ∃ kept, 0 ≤ kept ≤ ONE_NEAR ∧ transferred (out w') = transferred (out waiting) + (ONE_NEAR - kept).
Proof.
  destruct (settlement_near_refund (sample_env "outlayer.near" 0 9) 0 "alice.near" sample_code
    default_limits ONE_NEAR sample_answer waiting tt (ran (sample_settle sample_answer) waiting)
    waiting_request) as (kept & Hk & _ & Ht & _).
  - apply ran_ok. vm_compute. reflexivity.
  - exact waiting_money.
  - exact sample_answer_typed.
  - vm_compute. reflexivity.
  - vm_compute. discriminate.
  - vm_compute. discriminate.
  - exists kept. split; [exact Hk | exact Ht].
Defined.

Lemma settlement_never_panics_witness :
  ∃ w', sample_settle CbErr waiting = Ok (tt, w') ∧ pending_requests (st w') !! 0 = None.
Proof.
  apply settlement_never_panics.
  - reflexivity.
  - exact waiting_money.
  - vm_compute. repeat split; discriminate.
  - exact I.
  - vm_compute. discriminate.
  - vm_compute. repeat split; try discriminate; reflexivity.
Defined.

Lemma settle_attached_exact_witness : settle_attached 1500 1000 100 = (600, 900) ∧ 600 + 900 = 1500.
Proof.
  split; [reflexivity|].
  destruct (settle_attached_exact 1500 1000 100) as [Hs _]; [discriminate..|]. exact Hs.
Defined.

Lemma split_payment_exact_witness :
  ∃ s, split_payment 900 7000 tt = Ok (s, tt) ∧ author_usd s + owner_usd s = 900.
Proof.
  destruct (split_payment_exact 900 7000 tt) as (s & Hs & Ht & _); [discriminate | discriminate |
    reflexivity |]. exists s. split; [exact Hs | exact Ht].
Defined.

Lemma admission_guarantees_witness :
  get_request (st waiting) 0 = Some waiting_request ∧ next_request_id (st waiting) = 1.
Proof.
  destruct (admission_guarantees (sample_env "alice.near" ONE_NEAR 4) (ESProject "dev.near/app" None)
    (Some default_limits) (Some "op:run") None None None (Some sample_params) shop tt waiting)
    as (rs & uu & r & _ & _ & _ & _ & _ & _ & Hg & Hn & _).
  - exact sample_request_runs.
  - exact shop_money.
  - vm_compute. discriminate.
  - vm_compute. discriminate.
  - split; [vm_compute; reflexivity | exact Hn].
Defined.

Definition sample_cancel : CM unit :=
  cancel_stale_execution (sample_env "alice.near" 0 (EXECUTION_TIMEOUT + 5)) 0.

Lemma stale_cancel_refunds_witness :
  get_user_stablecoin_balance (st (ran sample_cancel waiting)) "alice.near" = 5000.
Proof.
  destruct (stale_cancel_refunds (sample_env "alice.near" 0 (EXECUTION_TIMEOUT + 5)) 0 waiting tt
    (ran sample_cancel waiting)) as (r & kept & Hp & _ & _ & _ & _ & _ & _ & Hb).
  - apply ran_ok. vm_compute. reflexivity.
  - exact waiting_money.
  - vm_compute. discriminate.
  - vm_compute in Hp. injection Hp as <-. rewrite Hb. vm_compute. reflexivity.
Defined.

Definition sample_bulk : outcome (Z * CWorld) :=
  cancel_pending_requests (sample_env "owner.near" 0 9) [0] waiting.
Definition after_bulk : CWorld := match sample_bulk with Ok (_, w) => w | Panic _ => waiting end.

Lemma bulk_cancel_strands_stablecoin_witness :
  ledger (st after_bulk) = ledger (st waiting) - 1500.
Proof.
  destruct (bulk_cancel_strands_stablecoin (sample_env "owner.near" 0 9) [0] waiting 1 after_bulk)
    as (_ & _ & Hl).
  - vm_compute. reflexivity.
  - exact waiting_money.
  - rewrite Hl. vm_compute. reflexivity.
Defined.
