(* ===== verification/System.v ===== *)
(** The contract as a system of receipts: every public method as a call, the
    yields and withdrawals it leaves outstanding with their callbacks, and what
    holds in every reachable state. *)

From S2P Require Export Ledger.

(** Closes [part (st w') = part (st w)] from a run [Hr] that leaves [part] alone. *)
Ltac by_frame part Hr :=
  lazymatch type of Hr with
  | ?m _ = Ok _ =>
    let F := fresh "F" in
    assert (frame part m) as F by solve_frame; exact (F _ _ _ Hr)
  end.

Section system.
Context `{Platform}.

(** * Calls *)

Inductive Call :=
(* execution.rs *)
| CRequestExecution (source : ExecutionSource) (limits : option ResourceLimits)
    (input : option string) (secrets : option SecretsReference) (format : option ResponseFormat)
    (payer : option AccountId) (params : option RequestParams)
| CSubmitOutput (id : Z) (output : ExecutionOutput json)
| CSubmitAndResolve (id : Z) (output : ExecutionOutput json) (success : bool)
    (error : option string) (used : ResourceMetrics) (note : option string)
| CResolve (id : Z) (response : ExecutionResponse json)
| CCancelStale (id : Z)
(* payment.rs, lib.rs *)
| CFtOnTransfer (sender : AccountId) (amount : Z) (msg : string)
| CResumeTopUp (data_id : string) (result : TopUpResult)
| CDeletePaymentKey (nonce : Z)
| CResumeDelete (data_id : string) (result : DeletePaymentKeyResult)
| CTopUpWithNear (nonce : Z) (swap : AccountId)
| CTopUpWithToken (nonce : Z) (token : AccountId) (amount : Z) (swap : AccountId)
| CWithdrawEarnings
(* secrets.rs *)
| CStoreSecrets (accessor : SecretAccessor) (profile enc : string) (access : AccessCondition)
    (vault : option AccountId)
| CStoreAgentSecret (pubkey : string) (accessor : SecretAccessor) (profile enc : string)
    (access : AccessCondition) (vault : option AccountId) (sig : string)
| CDeleteAgentSecret (pubkey : string) (accessor : SecretAccessor) (profile sig : string)
| CDeleteSecrets (accessor : SecretAccessor) (profile : string)
| CUnbindVault (accessor : SecretAccessor) (profile : string)
| CUpdateAccess (accessor : SecretAccessor) (profile : string) (access : AccessCondition)
(* projects.rs *)
| CCreateProject (name : string) (source : CodeSource)
| CAddVersion (name : string) (source : CodeSource) (set_active : bool)
| CSetActiveVersion (name key : string)
| CRemoveVersion (name key : string)
| CDeleteProject (name : string)
| CAcceptTransfer (from : AccountId) (name : string)
| CRevokeTransfer (from : AccountId) (name : string)
| CTransferProject (name : string) (to : AccountId)
(* wallet.rs *)
| CWallet (call : WalletCall)
(* admin.rs *)
| CSetOwner (who : AccountId)
| CSetOperator (who : AccountId)
| CSetPaused (b : bool)
| CSetPricing (base instr ms compile base_usd instr_usd sec_usd compile_usd : option Z)
| CSetPlans (plans : list SubscriptionPlan)
| CSetProjectPricing (project_id : string) (pricing : ProjectPricing)
| CRemovePricing (project_id : string)
| CSetToken (token : option AccountId)
| CSetEventMetadata (standard version : option string)
| CEmergencyCancel (id : Z)
| CCancelPending (ids : list Z)
| CClearAll (limit : option Z).

Definition run_call (e : Env) (call : Call) : CM unit :=
  match call with
  | CRequestExecution source limits input secrets format payer params =>
    request_execution e source limits input secrets format payer params
  | CSubmitOutput id output => submit_execution_output e id output
  | CSubmitAndResolve id output success error used note =>
    submit_execution_output_and_resolve e id output success error used note
  | CResolve id response => resolve_execution e id response
  | CCancelStale id => cancel_stale_execution e id
  | CFtOnTransfer sender amount msg => ft_on_transfer e sender amount msg
  | CResumeTopUp data_id result => resume_topup e data_id result
  | CDeletePaymentKey nonce => delete_payment_key e nonce
  | CResumeDelete data_id result => resume_delete_payment_key e data_id result
  | CTopUpWithNear nonce swap => top_up_payment_key_with_near e nonce swap
  | CTopUpWithToken nonce token amount swap =>
    top_up_payment_key_with_token e nonce token amount swap
  | CWithdrawEarnings => withdraw_developer_earnings e
  | CStoreSecrets accessor profile enc access vault =>
    store_secrets e accessor profile enc access vault
  | CStoreAgentSecret pubkey accessor profile enc access vault sig =>
    store_agent_secret e pubkey accessor profile enc access vault sig
  | CDeleteAgentSecret pubkey accessor profile sig =>
    delete_agent_secret e pubkey accessor profile sig
  | CDeleteSecrets accessor profile => delete_secrets e accessor profile
  | CUnbindVault accessor profile => unbind_secret_vault e accessor profile
  | CUpdateAccess accessor profile access => update_access e accessor profile access
  | CCreateProject name source => create_project e name source
  | CAddVersion name source b => add_version e name source b
  | CSetActiveVersion name key => set_active_version e name key
  | CRemoveVersion name key => remove_version e name key
  | CDeleteProject name => delete_project e name
  | CAcceptTransfer from name => accept_project_transfer e from name
  | CRevokeTransfer from name => revoke_project_transfer e from name
  | CTransferProject name to => transfer_project e name to
  | CWallet call => run_wallet_call e call
  | CSetOwner who => set_owner e who
  | CSetOperator who => set_operator e who
  | CSetPaused b => set_paused e b
  | CSetPricing a b c d e' f g h => set_pricing e a b c d e' f g h
  | CSetPlans plans => set_subscription_plans e plans
  | CSetProjectPricing pid pricing => set_project_pricing e pid pricing
  | CRemovePricing pid => remove_project_pricing e pid
  | CSetToken token => set_payment_token_contract e token
  | CSetEventMetadata standard version => set_event_metadata e standard version
  | CEmergencyCancel id => emergency_cancel_execution e id
  | CCancelPending ids => cancel_pending_requests e ids >>> ret tt
  | CClearAll limit => clear_all_pending_requests e limit >>> ret tt
  end.

(** Arguments and deposit are unsigned integers. *)
Definition call_typed (call : Call) : Prop :=
  match call with
  | CRequestExecution _ _ _ _ _ _ params => 0 ≤ attached_of params
  | CSubmitAndResolve _ _ _ _ used _ => metrics_ok used
  | CResolve _ response => response_typed (CbOk response)
  | CFtOnTransfer _ amount _ => 0 ≤ amount
  | CDeletePaymentKey nonce => 0 ≤ nonce
  | CSetProjectPricing _ pricing => pricing_arg_typed pricing
  | _ => True
  end.

(** * Frames of the calls, one line per part of the storage *)

Lemma run_call_registry e call w u w' :
  registry_ok (st w) → run_call e call w = Ok (u, w') → registry_ok (st w').
Proof.
  intros R Hr. destruct call; cbn [run_call] in Hr;
    try (eapply create_project_registry; eassumption);
    try (eapply add_version_registry; eassumption);
    try (eapply set_active_version_registry; eassumption);
    try (eapply remove_version_registry; eassumption);
    try (eapply delete_project_registry; eassumption);
    try (eapply transfer_project_registry; eassumption);
    refine (registry_ok_frame _ _ _ R); by_frame registry Hr.
Qed.

Lemma run_call_secrets e call w u w' :
  secrets_ok (st w) → run_call e call w = Ok (u, w') → secrets_ok (st w').
Proof.
  intros S Hr. destruct call; cbn [run_call] in Hr;
    try (eapply store_secrets_inv; eassumption);
    try (eapply store_agent_secret_inv; eassumption);
    try (eapply delete_agent_secret_inv; eassumption);
    try (eapply delete_secrets_inv; eassumption);
    try (eapply unbind_secret_vault_inv; eassumption);
    try (eapply update_access_inv; eassumption);
    refine (secrets_ok_frame _ _ _ S); by_frame secrets_part Hr.
Qed.

Lemma run_call_wallets e call w u w' :
  wallets_ok (st w) → run_call e call w = Ok (u, w') → wallets_ok (st w').
Proof.
  intros I Hr. destruct call; cbn [run_call] in Hr;
    try (eapply run_wallet_call_inv; eassumption);
    refine (wallets_ok_frame _ _ _ I); by_frame wallets_part Hr.
Qed.

(** What a call adds to the ledger. *)
Definition call_delta (call : Call) (w w' : CWorld) (who : AccountId) : Z :=
  match call with
  | CFtOnTransfer _ amount msg =>
    match json_ft_action msg with Some DepositBalance => amount | _ => 0 end
  | CWithdrawEarnings => - balance (developer_earnings (st w)) who
  | CCancelPending _ => - stranded_by w w'
  | _ => 0
  end.

Lemma remove_pricing_owes e pid w u w' :
  remove_project_pricing e pid w = Ok (u, w') → owes 0 w w'.
Proof.
  unfold remove_project_pricing, assert_owner. intros Hr [? ? ? ? Hp]. minv. repeat (cinv_step; minv).
  split; [|unfold ledger; cbn; lia]. constructor; try done.
  intros q x Hx. cbn in Hx. apply lookup_delete_Some in Hx as [_ Hx]. by apply (Hp q).
Qed.

Lemma run_call_money e call w u w' :
  run_call e call w = Ok (u, w') → call_typed call → 0 ≤ attached_deposit e →
  owes (call_delta call w w' (predecessor_account_id e)) w w'.
Proof.
  intros Hr Ht Hd.
  destruct call; cbn [run_call call_delta call_typed] in *;
    try (apply owes_frame; by_frame money_part Hr).
  - intros M. rewrite Z.add_0_r. by eapply request_execution_money.
  - unfold submit_execution_output, assert_operator in Hr. minv. repeat (cinv_step; minv).
    by eapply submit_output_owes.
  - unfold submit_execution_output_and_resolve, assert_operator in Hr. minv. repeat (cinv_step; minv).
    match goal with
      Hs : submit_execution_output_internal _ _ _ = _, Hv : resolve_execution_internal _ _ _ _ = _ |- _ =>
      apply submit_output_owes in Hs;
      assert (owes 0 w2 w') as Hv' by (apply owes_frame; by_frame money_part Hv)
    end.
    rewrite <- (Z.add_0_r 0). by eapply owes_trans.
  - by eapply cancel_stale_owes.
  - by eapply ft_on_transfer_owes.
  - by apply withdraw_developer_earnings_owes in Hr as (_ & ? & _).
  - by eapply set_project_pricing_owes.
  - by eapply remove_pricing_owes.
  - by eapply emergency_cancel_owes.
  - unfold cancel_pending_requests, assert_owner in Hr. minv. repeat (cinv_step; minv).
    by eapply cancel_fold_owes.
  - unfold clear_all_pending_requests, assert_owner in Hr. minv. repeat (cinv_step; minv).
    by eapply clear_fold_owes.
Qed.

(** * Outstanding callbacks *)

Inductive Yielded :=
| YExecution (data : RequestData)
| YTopUp (owner : AccountId) (nonce amount : Z)
| YDelete (owner : AccountId) (nonce : Z).

Inductive Payload :=
| PExecution (response : ExecutionResponse json)
| PTopUp (result : TopUpResult)
| PDelete (result : DeletePaymentKeyResult).

(** The callback of a yield: with what it was resumed with, or, unresumed, as
    the runtime's timeout runs it.  A payload of another kind does not
    deserialise. *)
Definition run_callback (e : Env) (y : Yielded) (p : option Payload) : CM unit :=
  match y with
  | YExecution d =>
    let callback := on_execution_response e (rd_request_id d) (rd_sender_id d) (rd_code_source d)
                      (rd_resource_limits d) (rd_payment d) in
    match p with
    | None => callback CbErr
    | Some (PExecution r) => callback (CbOk r)
    | Some _ => panic "Failed to deserialize callback"
    end
  | YTopUp owner nonce amount =>
    match p with
    | None => on_top_up_response e owner nonce amount CbErr
    | Some (PTopUp r) => on_top_up_response e owner nonce amount (CbOk r)
    | Some _ => panic "Failed to deserialize callback"
    end
  | YDelete owner nonce =>
    match p with
    | None => on_delete_payment_key_response e owner nonce CbErr
    | Some (PDelete r) => on_delete_payment_key_response e owner nonce (CbOk r)
    | Some _ => panic "Failed to deserialize callback"
    end
  end.

Definition payload_typed (p : option Payload) : Prop :=
  match p with Some (PExecution r) => response_typed (CbOk r) | _ => True end.
Definition yielded_typed (y : Yielded) : Prop :=
  match y with
  | YExecution d => 0 ≤ rd_payment d
  | YTopUp _ _ amount => 0 ≤ amount
  | YDelete _ nonce => 0 ≤ nonce
  end.

Lemma run_callback_registry e y p w u w' :
  registry_ok (st w) → run_callback e y p w = Ok (u, w') → registry_ok (st w').
Proof. intros R Hr. refine (registry_ok_frame _ _ _ R). by_frame registry Hr. Qed.

Lemma run_callback_wallets e y p w u w' :
  wallets_ok (st w) → run_callback e y p w = Ok (u, w') → wallets_ok (st w').
Proof. intros R Hr. refine (wallets_ok_frame _ _ _ R). by_frame wallets_part Hr. Qed.

Lemma on_top_up_response_inv e owner nonce amount result w u w' :
  secrets_ok (st w) → on_top_up_response e owner nonce amount result w = Ok (u, w') →
  secrets_ok (st w').
Proof.
  intros S [_ [(data & p & _ & Hp & ->)|[_ ->]]]%on_top_up_response_ok; [|done].
  pose proof (λ q, sec_write _ _ _ _ (payment_key owner nonce) q (secret_vault_bindings (st w)) S) as Hw.
  rewrite decide_False in Hw by congruence.
  apply Hw; [by rewrite Hp | by apply (sec_deposit _ _ _ _ S _ _ Hp) | by right].
Qed.

Lemma on_delete_response_inv e owner nonce result w u w' :
  secrets_ok (st w) → 0 ≤ nonce → on_delete_payment_key_response e owner nonce result w = Ok (u, w') →
  secrets_ok (st w').
Proof.
  unfold on_delete_payment_key_response. intros S H0n Hr. sinv. destruct result as [[|m]|]; sinv; try done.
  match goal with Hd : delete_secrets_internal _ _ _ _ = _ |- _ =>
    pose proof (delete_secrets_internal_ok _ _ _ _ _ _ Hd) as (p & Hp & Hst & _);
    apply (delete_secrets_internal_inv (payment_key owner nonce)) in Hd; [|done] end.
  destruct (sec_floor _ _ _ _ S (payment_key owner nonce)) as (n & Hn & Hb & Hf); [by eexists|done|].
  cbn in Hn. unfold raise_payment_key_nonce_floor. rewrite Hst in *. cbn in *.
  destruct (payment_key_nonce_floors (st w) !! owner) as [f|] eqn:Ef; [|cbn in Hf; lia].
  destruct (f <? nonce) eqn:G; [|done]. prop_bool.
  apply uint_to_string_inj in Hn; cbn in Hf; lia.
Qed.

Lemma run_callback_secrets e y p w u w' :
  secrets_ok (st w) → yielded_typed y → run_callback e y p w = Ok (u, w') → secrets_ok (st w').
Proof.
  intros S Ht Hr. destruct y as [d|owner nonce amount|owner nonce]; cbn in Hr.
  - refine (secrets_ok_frame _ _ _ S). by_frame secrets_part Hr.
  - destruct p as [[]|]; try done; by eapply on_top_up_response_inv.
  - destruct p as [[]|]; try done; by eapply on_delete_response_inv.
Qed.

(** The request a yield's callback settles. *)
Definition settles (y : Yielded) (id : Z) : Prop :=
  match y with YExecution d => rd_request_id d = id | _ => False end.

Lemma run_callback_money e y p w u w' :
  money_ok (st w) → payload_typed p → run_callback e y p w = Ok (u, w') →
  money_ok (st w') ∧ ledger (st w') = ledger (st w) ∧
  next_request_id (st w') = next_request_id (st w) ∧
  pending_requests (st w')
    = match y with
      | YExecution d => delete (rd_request_id d) (pending_requests (st w))
      | _ => pending_requests (st w)
      end.
Proof.
  intros M Ht Hr. destruct y as [d|owner nonce amount|owner nonce].
  - destruct p as [[]|]; cbn in Hr; try done;
      apply on_execution_response_money in Hr as (? & ? & ? & ?); done.
  - assert (money_part (st w') = money_part (st w)) as Hf by (cbn in Hr; by_frame money_part Hr).
    split_and!; [by eapply money_ok_frame | by apply ledger_frame | by injection Hf | by injection Hf].
  - assert (money_part (st w') = money_part (st w)) as Hf by (cbn in Hr; by_frame money_part Hr).
    split_and!; [by eapply money_ok_frame | by apply ledger_frame | by injection Hf | by injection Hf].
Qed.

(** * What calls leave outstanding *)

(** Actions that register no callback and resume none. *)
Definition quiet (a : Action json) : Prop :=
  match a with
  | WithdrawCall _ _ _ | YieldExecution _ _ _ | YieldTopUp _ _ _ _ | YieldDelete _ _ _
  | ResumeExecution _ _ | ResumeTopUp _ _ | ResumeDelete _ _ => False
  | _ => True
  end.

Definition may_yield (call : Call) : bool :=
  match call with
  | CRequestExecution _ _ _ _ _ _ _ | CSubmitAndResolve _ _ _ _ _ _ | CResolve _ _
  | CFtOnTransfer _ _ _ | CResumeTopUp _ _ | CDeletePaymentKey _ | CResumeDelete _ _
  | CWithdrawEarnings => true
  | _ => false
  end.

Lemma run_call_quiet e call : may_yield call = false → emits quiet (run_call e call).
Proof. destruct call; intros Hm; try discriminate Hm; cbn [run_call]; clear Hm; solve_emits. Qed.

Lemma run_callback_quiet e y p : emits quiet (run_callback e y p).
Proof. unfold run_callback. solve_emits. Qed.

(** ** Pending requests only go away, except for the one a request files *)

Definition shrinks (c c' : Contract) : Prop :=
  next_request_id c' = next_request_id c ∧
  ∀ id r', pending_requests c' !! id = Some r' →
    ∃ r, pending_requests c !! id = Some r ∧ req_data_id r' = req_data_id r ∧
      req_payment r' = req_payment r.

Lemma shrinks_refl c : shrinks c c.
Proof. split; [done|]. eauto. Qed.

Lemma shrinks_trans c c' c'' : shrinks c c' → shrinks c' c'' → shrinks c c''.
Proof.
  intros [N1 H1] [N2 H2]. split; [congruence|]. intros id r'' Hr.
  destruct (H2 _ _ Hr) as (r' & Hr' & ? & ?). destruct (H1 _ _ Hr') as (r & ? & ? & ?).
  exists r. split_and!; congruence.
Qed.

Definition queue_part (c : Contract) := (pending_requests c, next_request_id c).
Lemma shrinks_frame c c' : queue_part c' = queue_part c → shrinks c c'.
Proof. unfold queue_part. intros [= Hp Hn]. split; [done|]. rewrite Hp. eauto. Qed.

Lemma shrinks_delete c c' id :
  next_request_id c' = next_request_id c →
  pending_requests c' = delete id (pending_requests c) → shrinks c c'.
Proof.
  intros Hn Hp. split; [done|]. rewrite Hp. intros i r [_ ?]%lookup_delete_Some. eauto.
Qed.

Lemma shrinks_foldM {A B} (g : B → A → CM B) l b w r w' :
  (∀ b a w r w', g b a w = Ok (r, w') → shrinks (st w) (st w')) →
  foldM g b l w = Ok (r, w') → shrinks (st w) (st w').
Proof.
  intros Hg. revert b w. induction l as [|x l IH]; intros b w Hr; cbn in Hr; minv.
  - apply shrinks_refl.
  - eapply shrinks_trans; [by eapply Hg | by eapply IH].
Qed.

Lemma return_attached_shrinks who amount w u w' :
  return_attached_usd who amount w = Ok (u, w') → shrinks (st w) (st w').
Proof. intros (ub & -> & _)%return_attached_usd_ok. split; [done|]. cbn. eauto. Qed.

Lemma drop_shrinks id r w u w' : drop_request id r w = Ok (u, w') → shrinks (st w) (st w').
Proof. unfold drop_request. intros Hr. minv. by eapply (shrinks_delete _ _ id). Qed.

Lemma submit_shrinks id output w u w' :
  submit_execution_output_internal id output w = Ok (u, w') → shrinks (st w) (st w').
Proof.
  unfold submit_execution_output_internal. intros Hr. xinv. split; [done|]. cbn.
  intros i r'. rewrite lookup_insert. destruct (decide (id = i)); [|eauto].
  intros [= <-]. subst. eexists. split_and!; [eassumption | done..].
Qed.

Lemma cancel_one_shrinks n id w m w' : cancel_one n id w = Ok (m, w') → shrinks (st w) (st w').
Proof.
  unfold cancel_one. intros Hr. minv. destruct (_ !! _); minv; [|apply shrinks_refl].
  by eapply drop_shrinks.
Qed.

Lemma clear_one_shrinks l n id w m w' : clear_one l n id w = Ok (m, w') → shrinks (st w) (st w').
Proof.
  unfold clear_one. intros Hr. destruct (l <=? n); minv; [apply shrinks_refl|].
  destruct (_ !! _); minv; [|apply shrinks_refl].
  eapply shrinks_trans; [by eapply drop_shrinks | by eapply return_attached_shrinks].
Qed.

Definition files_request (call : Call) : bool :=
  match call with CRequestExecution _ _ _ _ _ _ _ => true | _ => false end.

Lemma cancel_stale_shrinks e id w u w' :
  cancel_stale_execution e id w = Ok (u, w') → money_ok (st w) → shrinks (st w) (st w').
Proof.
  intros (r & Hp & _ & _ & Hs)%cancel_stale_execution_ok M.
  destruct (mo_requests _ M _ _ Hp) as (_ & _ & Ha & _).
  destruct (Hs Ha) as (ub & de & tail & -> & _). by eapply (shrinks_delete _ _ id).
Qed.

Lemma run_call_shrinks e call w u w' :
  run_call e call w = Ok (u, w') → money_ok (st w) → files_request call = false →
  shrinks (st w) (st w').
Proof.
  intros Hr M Hf. destruct call; try discriminate Hf; cbn [run_call] in Hr;
    try (apply shrinks_frame; by_frame queue_part Hr);
    try (by eapply cancel_stale_shrinks);
    unfold submit_execution_output, submit_execution_output_and_resolve,
      emergency_cancel_execution, cancel_pending_requests, clear_all_pending_requests,
      assert_operator, assert_owner in Hr; minv; repeat (cinv_step; minv);
    try (by eapply submit_shrinks);
    try (eapply shrinks_foldM; [|eassumption]; intros;
         (by eapply cancel_one_shrinks) || (by eapply clear_one_shrinks)).
  - match goal with
      Hs : submit_execution_output_internal _ _ _ = _, Hv : resolve_execution_internal _ _ _ _ = _ |- _ =>
      eapply shrinks_trans; [by eapply submit_shrinks|]; apply shrinks_frame; by_frame queue_part Hv end.
  - eapply shrinks_trans; [by eapply drop_shrinks | by eapply return_attached_shrinks].
Qed.

(** * The system *)

Record Sys := mkSys {
  core : Contract;
  (* what each registered yield runs, and what it was resumed with *)
  yields : gmap CryptoHash (Yielded * option Payload);
  (* token transfers of earnings that have not reported back *)
  withdrawals : list (AccountId * Z);
  (* stablecoin taken in for balances and not paid out *)
  held : Z;
  (* of it, what no account is owed any more *)
  stranded : Z;
  (* requests whose settlement callback failed *)
  lost : gset Z;
}.

Definition resume_with (p : Payload) (id : CryptoHash)
    (ys : gmap CryptoHash (Yielded * option Payload)) : gmap CryptoHash (Yielded * option Payload) :=
  alter (λ yp, (yp.1, Some p)) id ys.

(** What the runtime does with an action a receipt issued. *)
Definition absorb_action (s : Sys) (a : Action json) : Sys :=
  let with_yields ys := mkSys (core s) ys (withdrawals s) (held s) (stranded s) (lost s) in
  match a with
  | YieldExecution id d _ => with_yields (<[id := (YExecution d, None)]> (yields s))
  | YieldTopUp id owner nonce amount =>
    with_yields (<[id := (YTopUp owner nonce amount, None)]> (yields s))
  | YieldDelete id owner nonce => with_yields (<[id := (YDelete owner nonce, None)]> (yields s))
  | ResumeExecution id r => with_yields (resume_with (PExecution r) id (yields s))
  | ResumeTopUp id r => with_yields (resume_with (PTopUp r) id (yields s))
  | ResumeDelete id r => with_yields (resume_with (PDelete r) id (yields s))
  | WithdrawCall _ developer amount =>
    mkSys (core s) (yields s) (withdrawals s ++ [(developer, amount)]) (held s) (stranded s) (lost s)
  | _ => s
  end.
Definition absorb (s : Sys) (l : list (Action json)) : Sys := fold_left absorb_action l s.

Definition deposit_of (call : Call) : Z :=
  match call with
  | CFtOnTransfer _ amount msg =>
    match json_ft_action msg with Some DepositBalance => amount | _ => 0 end
  | _ => 0
  end.
Definition strands (call : Call) (w w' : CWorld) : Z :=
  match call with CCancelPending _ => stranded_by w w' | _ => 0 end.

(** The host's side of a call: a fresh data id, and resumes that find their
    yield exactly when it is registered and unresumed. *)
Definition host_ok (s : Sys) (e : Env) : Prop :=
  yields s !! yield_data_id e = None ∧
  (∀ id, yield_resumable e id = match yields s !! id with Some (_, None) => true | _ => false end) ∧
  0 ≤ attached_deposit e.

Inductive Event :=
| ECall (e : Env) (call : Call)
| ECallback (e : Env) (id : CryptoHash)
| ECallbackLost (id : CryptoHash)
| EWithdrawDone (e : Env) (i : nat) (ok : bool).

Definition request_of (y : Yielded) : gset Z :=
  match y with YExecution d => {[rd_request_id d]} | _ => ∅ end.

Inductive step : Sys → Event → Sys → Prop :=
| step_call s e call w' :
    host_ok s e → call_typed call → run_call e call (mkWorld (core s) []) = Ok (tt, w') →
    step s (ECall e call)
      (absorb (mkSys (st w') (yields s) (withdrawals s) (held s + deposit_of call)
                 (stranded s + strands call (mkWorld (core s) []) w') (lost s)) (out w'))
(* a panicking receipt is rolled back *)
| step_refused s e call msg :
    run_call e call (mkWorld (core s) []) = Panic msg → step s (ECall e call) s
| step_callback s e id y p w' :
    yields s !! id = Some (y, p) → predecessor_account_id e = current_account_id e →
    run_callback e y p (mkWorld (core s) []) = Ok (tt, w') →
    step s (ECallback e id)
      (mkSys (st w') (delete id (yields s)) (withdrawals s) (held s) (stranded s) (lost s))
(* the yield is spent also when its callback panics or runs out of gas *)
| step_callback_panic s e id y p msg :
    yields s !! id = Some (y, p) → predecessor_account_id e = current_account_id e →
    run_callback e y p (mkWorld (core s) []) = Panic msg →
    step s (ECallback e id)
      (mkSys (core s) (delete id (yields s)) (withdrawals s) (held s) (stranded s)
         (request_of y ∪ lost s))
| step_callback_lost s id y p :
    yields s !! id = Some (y, p) →
    step s (ECallbackLost id)
      (mkSys (core s) (delete id (yields s)) (withdrawals s) (held s) (stranded s)
         (request_of y ∪ lost s))
| step_withdraw_done s e i ok developer amount w' :
    withdrawals s !! i = Some (developer, amount) →
    predecessor_account_id e = current_account_id e →
    on_withdraw_developer_earnings e developer amount (if ok : bool then CbOk tt else CbErr)
      (mkWorld (core s) []) = Ok (tt, w') →
    step s (EWithdrawDone e i ok)
      (mkSys (st w') (yields s) (delete i (withdrawals s))
         (held s - if ok then amount else 0) (stranded s) (lost s))
| step_withdraw_panic s e i ok developer amount msg :
    withdrawals s !! i = Some (developer, amount) →
    predecessor_account_id e = current_account_id e →
    on_withdraw_developer_earnings e developer amount (if ok : bool then CbOk tt else CbErr)
      (mkWorld (core s) []) = Panic msg →
    step s (EWithdrawDone e i ok)
      (mkSys (core s) (yields s) (delete i (withdrawals s)) (held s) (stranded s + amount) (lost s)).

Inductive trace : Sys → list Event → Sys → Prop :=
| trace_nil s : trace s [] s
| trace_cons s ev s' evs s'' : step s ev s' → trace s' evs s'' → trace s (ev :: evs) s''.

Definition in_flight (s : Sys) : Z := parts_total (withdrawals s).

Record sys_ok (s : Sys) : Prop := {
  so_registry : registry_ok (core s);
  so_secrets : secrets_ok (core s);
  so_wallets : wallets_ok (core s);
  so_money : money_ok (core s);
  so_typed : ∀ id y p, yields s !! id = Some (y, p) → yielded_typed y ∧ payload_typed p;
  (* a settlement callback is for the request that registered it *)
  so_link : ∀ id d p, yields s !! id = Some (YExecution d, p) →
    0 ≤ rd_request_id d < next_request_id (core s) ∧
    ∀ r, pending_requests (core s) !! rd_request_id d = Some r →
      req_data_id r = id ∧ req_payment r = rd_payment d;
  (* a pending request has its callback outstanding, unless that was lost *)
  so_live : ∀ id r, pending_requests (core s) !! id = Some r → id ∉ lost s →
    ∃ d p, yields s !! req_data_id r = Some (YExecution d, p) ∧ rd_request_id d = id;
  so_withdrawals : Forall (λ p, 0 ≤ p.2) (withdrawals s);
  so_ledger : held s = ledger (core s) + in_flight s + stranded s;
  so_stranded : 0 ≤ stranded s;
}.
End system.
