(* ===== verification/Reachable.v ===== *)
(** What holds in every state the system of receipts can reach: the invariants of
    all components, the conservation of stablecoin, the life of a request, and the
    payment-key nonces. *)

From S2P Require Export System.

Section reachable.
Context `{Platform}.

(** * Absorbing actions *)

Lemma absorb_quiet s l : Forall quiet l → absorb s l = s.
Proof.
  induction 1 as [|a l Ha _ IH]; [done|]. unfold absorb in *. cbn.
  destruct a; try done; exact IH.
Qed.

Lemma absorb_one s a l : Forall quiet l → absorb s (a :: l) = absorb_action s a.
Proof. apply (absorb_quiet (absorb_action s a)). Qed.

Lemma quiet_outs (m : CM unit) c w' :
  emits quiet m → m (mkWorld c []) = Ok (tt, w') → Forall quiet (out w').
Proof. intros Hm Hr. by destruct (Hm _ _ _ Hr) as (l & -> & Hl). Qed.

(** Yields after a receipt that files no request. *)
Definition light (ys ys' : gmap CryptoHash (Yielded * option Payload)) : Prop :=
  (∀ id y p, ys' !! id = Some (y, p) →
     (∃ p0, ys !! id = Some (y, p0) ∧ (payload_typed p0 → payload_typed p)) ∨
     (request_of y = ∅ ∧ yielded_typed y ∧ payload_typed p)) ∧
  (∀ id y p, ys !! id = Some (y, p) → ∃ p', ys' !! id = Some (y, p')).

Lemma light_refl ys : light ys ys.
Proof. split; eauto. Qed.

Lemma light_fresh ys id y :
  ys !! id = None → request_of y = ∅ → yielded_typed y → light ys (<[id := (y, None)]> ys).
Proof.
  intros Hf Hr Ht. split.
  - intros i z p. rewrite lookup_insert. case_decide.
    + intros [= <- <-]. by right.
    + intros Hz. left. eauto.
  - intros i z p Hz. exists p. rewrite lookup_insert_ne; [done | congruence].
Qed.

Lemma light_resume ys id pl : payload_typed (Some pl) → light ys (resume_with pl id ys).
Proof.
  intros Ht. unfold resume_with. split.
  - intros i z p. rewrite lookup_alter. case_decide as E.
    + subst. destruct (ys !! i) as [[z0 p0]|]; [|done]. cbn. intros [= <- <-]. left. eauto.
    + intros Hz. left. eauto.
  - intros i z p Hz. rewrite lookup_alter. case_decide as E; [subst; rewrite Hz; eauto | eauto].
Qed.

(** The actions of a call that files no request, and their effect. *)
Lemma call_absorb_light s e call w' (s0 : Sys) :
  host_ok s e → call_typed call → files_request call = false →
  run_call e call (mkWorld (core s) []) = Ok (tt, w') →
  yields s0 = yields s →
  let s' := absorb s0 (out w') in
  light (yields s) (yields s') ∧ core s' = core s0 ∧ held s' = held s0 ∧
  stranded s' = stranded s0 ∧ lost s' = lost s0 ∧
  withdrawals s' = withdrawals s0 ++
    match call with
    | CWithdrawEarnings => [(predecessor_account_id e,
        balance (developer_earnings (core s)) (predecessor_account_id e))]
    | _ => []
    end.
Proof.
  intros (Hfresh & _ & _) Ht Hf Hr Hy s'.
  destruct (may_yield call) eqn:Hm.
  2: { apply (quiet_outs _ _ _ (run_call_quiet e call Hm)) in Hr. subst s'. rewrite absorb_quiet by done.
       rewrite Hy. split_and!; try done; [apply light_refl|].
       destruct call; try discriminate Hm; by rewrite app_nil_r. }
  destruct call; try discriminate Hm; try discriminate Hf; cbn [run_call] in Hr; subst s'.
  - unfold submit_execution_output_and_resolve, assert_operator, submit_execution_output_internal,
      resolve_execution_internal in Hr. xinv. cbn. rewrite Hy, app_nil_r.
    split_and!; try done. by apply light_resume.
  - unfold resolve_execution, assert_operator, resolve_execution_internal in Hr. xinv. cbn.
    rewrite Hy, app_nil_r. split_and!; try done. by apply light_resume.
  - unfold ft_on_transfer in Hr. xinv.
    match goal with Hj : json_ft_action msg = Some ?x |- _ => destruct x as [n o| |n o pl] end.
    + unfold handle_top_up, emit_system_event in *. xinv. cbn. rewrite Hy, app_nil_r.
      split_and!; try done. by apply light_fresh.
    + unfold handle_deposit_balance, keep_everything in *. xinv. cbn. rewrite Hy, app_nil_r.
      split_and!; try done. apply light_refl.
    + unfold handle_buy_subscription, emit_system_event, keep_everything in *. xinv. cbn.
      rewrite Hy, app_nil_r. split_and!; try done. apply light_refl.
  - unfold resume_topup, assert_operator, decode_data_id in Hr. xinv. cbn. rewrite Hy, app_nil_r.
    split_and!; try done. by apply light_resume.
  - unfold delete_payment_key, emit_system_event in Hr. xinv. cbn. rewrite Hy, app_nil_r.
    split_and!; try done. by apply light_fresh.
  - unfold resume_delete_payment_key, assert_operator, decode_data_id in Hr. xinv. cbn.
    rewrite Hy, app_nil_r. split_and!; try done. by apply light_resume.
  - unfold withdraw_developer_earnings in Hr. xinv. cbn. rewrite Hy.
    split_and!; try done. apply light_refl.
Qed.

(** * Every step keeps the invariant *)

Lemma cancel_fold_nonneg ids n w m w' :
  foldM cancel_one n ids w = Ok (m, w') → money_ok (st w) → 0 ≤ stranded_by w w'.
Proof.
  revert n w. induction ids as [|id ids IH]; intros n w Hr M; cbn in Hr; minv.
  - unfold stranded_by. lia.
  - match goal with H1 : cancel_one _ _ _ = Ok (_, ?w1), H2 : foldM _ _ _ _ = _ |- _ =>
      destruct (cancel_one_owes _ _ _ _ _ H1 M) as [M1 _]; specialize (IH _ _ H2 M1);
      assert (0 ≤ stranded_by w w1); [|unfold stranded_by in *; lia]; clear H2 IH M1; rename H1 into Hc end.
    unfold cancel_one in Hc. minv. destruct (pending_requests (st w) !! id) as [r|] eqn:E; minv.
    + unfold drop_request in *. minv. unfold stranded_by. cbn. rewrite map_sum_delete, E. cbn.
      apply (mo_requests _ M) in E as (_ & _ & ? & _). lia.
    + unfold stranded_by. lia.
Qed.

Lemma strands_nonneg e call c w' :
  run_call e call (mkWorld c []) = Ok (tt, w') → money_ok c → 0 ≤ strands call (mkWorld c []) w'.
Proof.
  intros Hr M. destruct call; try done. cbn [run_call] in Hr.
  unfold cancel_pending_requests, assert_owner in Hr. minv. repeat (cinv_step; minv).
  by eapply cancel_fold_nonneg.
Qed.

Lemma in_flight_app l k : parts_total (l ++ k) = parts_total l + parts_total k.
Proof. unfold parts_total. induction l as [|x l IH]; cbn; [done | rewrite IH; lia]. Qed.

Lemma parts_total_nonneg l : Forall (λ p : AccountId * Z, 0 ≤ p.2) l → 0 ≤ parts_total l.
Proof. unfold parts_total. induction 1; cbn; lia. Qed.

Lemma in_flight_delete l i developer amount :
  l !! i = Some (developer, amount) →
  parts_total l = amount + parts_total (delete i l).
Proof.
  intros Hi. rewrite <- (take_drop_middle l i _ Hi) at 1. rewrite delete_take_drop.
  rewrite !in_flight_app. unfold parts_total at 2. cbn. fold (parts_total (drop (S i) l)). lia.
Qed.

(** Links and lives carry over a receipt that files no request. *)
Lemma queue_light s (s' : Sys) :
  sys_ok s → light (yields s) (yields s') → shrinks (core s) (core s') → lost s' = lost s →
  (∀ id y p, yields s' !! id = Some (y, p) → yielded_typed y ∧ payload_typed p) ∧
  (∀ id d p, yields s' !! id = Some (YExecution d, p) →
    0 ≤ rd_request_id d < next_request_id (core s') ∧
    ∀ r, pending_requests (core s') !! rd_request_id d = Some r →
      req_data_id r = id ∧ req_payment r = rd_payment d) ∧
  (∀ id r, pending_requests (core s') !! id = Some r → id ∉ lost s' →
    ∃ d p, yields s' !! req_data_id r = Some (YExecution d, p) ∧ rd_request_id d = id).
Proof.
  intros S [L1 L2] [Hn Hs] Hl. split_and!.
  - intros id y p Hy. destruct (L1 _ _ _ Hy) as [(p0 & Hy0 & Hp)|(_ & ? & ?)]; [|done].
    destruct (so_typed _ S _ _ _ Hy0). auto.
  - intros id d p Hy. destruct (L1 _ _ _ Hy) as [(p0 & Hy0 & _)|(He & _)].
    + destruct (so_link _ S _ _ _ Hy0) as [Hb Hk]. rewrite Hn. split; [done|].
      intros r' Hr'. destruct (Hs _ _ Hr') as (r & Hr & -> & ->). by apply Hk.
    + cbn in He. set_solver.
  - intros id r' Hr' Hlost. destruct (Hs _ _ Hr') as (r & Hr & -> & _). rewrite Hl in Hlost.
    destruct (so_live _ S _ _ Hr Hlost) as (d & p & Hy & Hd).
    destruct (L2 _ _ _ Hy) as [p' Hy']. eauto.
Qed.

Lemma step_call_light s e call w' :
  sys_ok s → host_ok s e → call_typed call → files_request call = false →
  run_call e call (mkWorld (core s) []) = Ok (tt, w') →
  sys_ok (absorb (mkSys (st w') (yields s) (withdrawals s) (held s + deposit_of call)
            (stranded s + strands call (mkWorld (core s) []) w') (lost s)) (out w')).
Proof.
  intros S Hh Ht Hf Hr. set (s0 := mkSys _ _ _ _ _ _).
  pose proof (call_absorb_light s e call w' s0 Hh Ht Hf Hr eq_refl) as (Hl & Hc & Hhe & Hst & Hlo & Hw).
  pose proof S as [Rg Se Wa Mo _ _ _ Wd Le Sn].
  pose proof (run_call_money _ _ _ _ _ Hr Ht (proj2 (proj2 Hh)) Mo) as [M' HL]. cbn [st] in HL.
  pose proof (run_call_shrinks _ _ _ _ _ Hr Mo Hf) as Hsh. cbn [st] in Hsh.
  pose proof (strands_nonneg _ _ _ _ Hr Mo) as Hsn.
  set (s' := absorb s0 (out w')) in *.
  assert (core s' = st w') as Hcore by (by rewrite Hc).
  assert (lost s' = lost s) as Hlost by (by rewrite Hlo).
  rewrite <- Hcore in *.
  destruct (queue_light s s' S Hl Hsh Hlost) as (Q1 & Q2 & Q3).
  assert (0 ≤ balance (developer_earnings (core s)) (predecessor_account_id e))
    by (apply balance_nonneg, (mo_earnings _ Mo)).
  assert (in_flight s' = in_flight s - match call with CWithdrawEarnings =>
    call_delta call (mkWorld (core s) []) w' (predecessor_account_id e) | _ => 0 end) as Hfl.
  { unfold in_flight. rewrite Hw, in_flight_app. cbn [withdrawals s0].
    destruct call; cbn; lia. }
  constructor; try done.
  - rewrite Hcore. exact (run_call_registry _ _ (mkWorld (core s) []) _ _ Rg Hr).
  - rewrite Hcore. exact (run_call_secrets _ _ (mkWorld (core s) []) _ _ Se Hr).
  - rewrite Hcore. exact (run_call_wallets _ _ (mkWorld (core s) []) _ _ Wa Hr).
  - rewrite Hw. apply Forall_app. split; [done|]. destruct call; repeat constructor; done.
  - rewrite Hhe, Hst, HL, Hfl. cbn [held stranded s0]. rewrite Le.
    destruct call; cbn [call_delta deposit_of strands]; lia.
  - rewrite Hst. cbn [stranded s0]. lia.
Qed.

Lemma step_call_request s e call w' :
  sys_ok s → host_ok s e → call_typed call → files_request call = true →
  run_call e call (mkWorld (core s) []) = Ok (tt, w') →
  sys_ok (absorb (mkSys (st w') (yields s) (withdrawals s) (held s + deposit_of call)
            (stranded s + strands call (mkWorld (core s) []) w') (lost s)) (out w')).
Proof.
  intros S (Hfresh & Hres & Hd) Ht Hf Hr. pose proof S as [Rg Se Wa Mo Ty Li Lv Wd Le Sn].
  pose proof (run_call_money _ _ _ _ _ Hr Ht Hd Mo) as [M' HL]. cbn [st] in HL.
  pose proof (run_call_registry _ _ (mkWorld (core s) []) _ _ Rg Hr) as Rg'.
  pose proof (run_call_secrets _ _ (mkWorld (core s) []) _ _ Se Hr) as Se'.
  pose proof (run_call_wallets _ _ (mkWorld (core s) []) _ _ Wa Hr) as Wa'.
  destruct call; try discriminate Hf. cbn [run_call] in Hr.
  apply request_execution_ok in Hr as (resolved & uuid & ub & data & _ & _ & _ & _ & _ & _ & _ &
    _ & _ & Hst & Hid & Hpay & _ & _ & _ & _ & Hout).
  rewrite Hout, app_nil_l, absorb_one by by repeat constructor.
  set (r := new_request _ _ _ _ _ _ _ _ _ _) in Hst. cbn [st] in *.
  assert (next_request_id (st w') = next_request_id (core s) + 1) as Hn by by rewrite Hst.
  assert (pending_requests (st w') = <[next_request_id (core s) := r]> (pending_requests (core s)))
    as Hp by by rewrite Hst.
  cbn [absorb_action]. constructor; cbn; try done.
  - intros id y p. rewrite lookup_insert. case_decide; [|apply Ty].
    intros [= <- <-]. cbn. split; [lia | done].
  - intros id d p. rewrite Hn, Hp, lookup_insert. case_decide as E.
    + intros [= <- <-]. rewrite Hid. pose proof (mo_next _ Mo). split; [lia|].
      intros r'. rewrite lookup_insert_eq. intros [= <-]. subst. by rewrite Hpay.
    + intros Hy. destruct (Li _ _ _ Hy) as [Hb Hk]. split; [lia|].
      intros r'. rewrite lookup_insert_ne by lia. apply Hk.
  - intros id r'. rewrite Hp, lookup_insert. case_decide as E.
    + intros [= <-] _. exists data, None. rewrite lookup_insert_eq. split; [done | congruence].
    + intros Hr' Hl. destruct (Lv _ _ Hr' Hl) as (d & p & Hy & Hd').
      exists d, p. rewrite lookup_insert_ne; [done|]. congruence.
  - fold (parts_total (withdrawals s)). fold (in_flight s). cbn in HL. lia.
  - lia.
Qed.

(** A yield is spent: the queue of the rest. *)
Lemma queue_spent s id y p c' (lo' : gset Z) :
  sys_ok s → yields s !! id = Some (y, p) → shrinks (core s) c' →
  (∀ i, i ∈ lost s → i ∈ lo') →
  (∀ i r, i ∈ request_of y → pending_requests c' !! i = Some r → i ∈ lo') →
  (∀ i z q, delete id (yields s) !! i = Some (z, q) → yielded_typed z ∧ payload_typed q) ∧
  (∀ i d q, delete id (yields s) !! i = Some (YExecution d, q) →
    0 ≤ rd_request_id d < next_request_id c' ∧
    ∀ r, pending_requests c' !! rd_request_id d = Some r →
      req_data_id r = i ∧ req_payment r = rd_payment d) ∧
  (∀ i r, pending_requests c' !! i = Some r → i ∉ lo' →
    ∃ d q, delete id (yields s) !! req_data_id r = Some (YExecution d, q) ∧ rd_request_id d = i).
Proof.
  intros S Hy [Hn Hs] Hlo Hreq. split_and!.
  - intros i z q [_ Hz]%lookup_delete_Some. by eapply (so_typed _ S).
  - intros i d q [_ Hz]%lookup_delete_Some. destruct (so_link _ S _ _ _ Hz) as [Hb Hk].
    rewrite Hn. split; [done|]. intros r' Hr'.
    destruct (Hs _ _ Hr') as (r & Hr & -> & ->). by apply Hk.
  - intros i r' Hr' Hl. destruct (Hs _ _ Hr') as (r & Hr & -> & _).
    destruct (so_live _ S _ _ Hr) as (d & q & Hz & Hd); [by intros ?%Hlo|].
    exists d, q. rewrite lookup_delete_ne; [done|]. intros ->. rewrite Hz in Hy. injection Hy as <- <-.
    apply Hl. eapply Hreq; [|exact Hr']. cbn. set_solver.
Qed.

Lemma step_callback_ok s e id y p w' :
  sys_ok s → yields s !! id = Some (y, p) →
  run_callback e y p (mkWorld (core s) []) = Ok (tt, w') →
  sys_ok (mkSys (st w') (delete id (yields s)) (withdrawals s) (held s) (stranded s) (lost s)).
Proof.
  intros S Hy Hr. pose proof S as [Rg Se Wa Mo Ty Li Lv Wd Le Sn].
  destruct (Ty _ _ _ Hy) as [Hty Htp].
  destruct (run_callback_money _ _ _ (mkWorld (core s) []) _ _ Mo Htp Hr) as (M' & HL & Hn & Hp). cbn [st] in *.
  assert (shrinks (core s) (st w')) as Hsh.
  { destruct y; [by eapply shrinks_delete | apply shrinks_frame; unfold queue_part; congruence..]. }
  destruct (queue_spent s id y p (st w') (lost s) S Hy Hsh) as (Q1 & Q2 & Q3); [done| |].
  { intros i r Hi Hr'. destruct y as [d| |]; cbn in Hi; [|set_solver..].
    apply elem_of_singleton in Hi as ->. rewrite Hp, lookup_delete_eq in Hr'. discriminate. }
  constructor; cbn; try done.
  - exact (run_callback_registry _ _ _ (mkWorld (core s) []) _ _ Rg Hr).
  - exact (run_callback_secrets _ _ _ (mkWorld (core s) []) _ _ Se Hty Hr).
  - exact (run_callback_wallets _ _ _ (mkWorld (core s) []) _ _ Wa Hr).
  - by rewrite HL.
Qed.

Lemma step_lost_ok s id y p :
  sys_ok s → yields s !! id = Some (y, p) →
  sys_ok (mkSys (core s) (delete id (yields s)) (withdrawals s) (held s) (stranded s)
            (request_of y ∪ lost s)).
Proof.
  intros S Hy. pose proof S as [Rg Se Wa Mo Ty Li Lv Wd Le Sn].
  destruct (queue_spent s id y p (core s) (request_of y ∪ lost s) S Hy (shrinks_refl _))
    as (Q1 & Q2 & Q3); [set_solver | set_solver |]. by constructor.
Qed.

Lemma step_withdraw_ok s e i ok developer amount w' :
  sys_ok s → withdrawals s !! i = Some (developer, amount) →
  on_withdraw_developer_earnings e developer amount (if ok : bool then CbOk tt else CbErr)
    (mkWorld (core s) []) = Ok (tt, w') →
  sys_ok (mkSys (st w') (yields s) (delete i (withdrawals s))
            (held s - if ok then amount else 0) (stranded s) (lost s)).
Proof.
  intros S Hi Hr. pose proof S as [Rg Se Wa Mo Ty Li Lv Wd Le Sn].
  pose proof (in_flight_delete _ _ _ _ Hi) as Hfl.
  assert (0 ≤ amount) as Ha by (rewrite Forall_lookup in Wd; apply (Wd _ _ Hi)).
  destruct (on_withdraw_developer_earnings_owes _ _ _ _ (mkWorld (core s) []) _ _ Ha Hr Mo) as [M' HL]. cbn [st] in *.
  assert (shrinks (core s) (st w')) as Hsh by (apply shrinks_frame; by_frame queue_part Hr).
  destruct (queue_light s (mkSys (st w') (yields s) (delete i (withdrawals s)) 0 0 (lost s)) S
    (light_refl _) Hsh eq_refl) as (Q1 & Q2 & Q3).
  constructor; cbn -[in_flight ledger]; try done.
  - refine (registry_ok_frame _ _ _ Rg). by_frame registry Hr.
  - refine (secrets_ok_frame _ _ _ Se). by_frame secrets_part Hr.
  - refine (wallets_ok_frame _ _ _ Wa). by_frame wallets_part Hr.
  - by apply Forall_delete.
  - unfold in_flight in *. cbn [withdrawals]. destruct ok; cbv iota in HL |- *; lia.
Qed.

Lemma step_withdraw_panic_ok s i developer amount :
  sys_ok s → withdrawals s !! i = Some (developer, amount) →
  sys_ok (mkSys (core s) (yields s) (delete i (withdrawals s)) (held s) (stranded s + amount) (lost s)).
Proof.
  intros [Rg Se Wa Mo Ty Li Lv Wd Le Sn] Hi.
  pose proof (in_flight_delete _ _ _ _ Hi) as Hfl.
  assert (0 ≤ amount) as Ha by (rewrite Forall_lookup in Wd; apply (Wd _ _ Hi)).
  constructor; cbn -[in_flight ledger]; try done; [by apply Forall_delete | | lia].
  rewrite Le. unfold in_flight. cbn [withdrawals]. lia.
Qed.

Lemma step_ok s ev s' : sys_ok s → step s ev s' → sys_ok s'.
Proof.
  intros S Hst. destruct Hst.
  - destruct (files_request call) eqn:E; [by eapply step_call_request | by eapply step_call_light].
  - done.
  - by eapply step_callback_ok.
  - by eapply step_lost_ok.
  - by eapply step_lost_ok.
  - by eapply step_withdraw_ok.
  - by eapply step_withdraw_panic_ok.
Qed.

Lemma trace_ok s evs s' : sys_ok s → trace s evs s' → sys_ok s'.
Proof. intros S Ht. induction Ht; eauto using step_ok. Qed.

(** A fresh deployment. *)
Definition initial (owner : AccountId) (operator : option AccountId)
    (standard version : option string) : Sys :=
  mkSys (new owner operator standard version) ∅ [] 0 0 ∅.

Lemma initial_ok owner operator standard version : sys_ok (initial owner operator standard version).
Proof.
  constructor; cbn;
    first [exact reg_empty | exact sec_empty | exact pol_empty
          | (constructor; try apply nonneg_map_empty; done) | done].
Qed.

Definition reachable (s : Sys) : Prop :=
  ∃ owner operator standard version evs, trace (initial owner operator standard version) evs s.

Lemma reachable_ok s : reachable s → sys_ok s.
Proof. intros (o & op & sd & v & evs & Ht). eapply trace_ok; [apply initial_ok | exact Ht]. Qed.

(** * Requests leave the queue for good *)

(** Ids only grow, and an id handed out can only lose its request. *)
Definition drains (c c' : Contract) : Prop :=
  next_request_id c ≤ next_request_id c' ∧
  ∀ id, id < next_request_id c → pending_requests c !! id = None →
    pending_requests c' !! id = None.

Lemma drains_refl c : drains c c.
Proof. split; [lia | done]. Qed.

Lemma drains_trans c c' c'' : drains c c' → drains c' c'' → drains c c''.
Proof. intros [L1 D1] [L2 D2]. split; [lia|]. intros id Hi Hn. apply D2; [lia | by apply D1]. Qed.

Lemma shrinks_drains c c' : shrinks c c' → drains c c'.
Proof.
  intros [Hn Hs]. split; [lia|]. intros id _ Hp. apply eq_None_not_Some. intros [r' Hr'].
  destruct (Hs _ _ Hr') as (r & Hr & _). congruence.
Qed.

Lemma absorb_core s l : core (absorb s l) = core s.
Proof. revert s. induction l as [|a l IH]; intros s; [done|]. etransitivity; [apply IH|]. by destruct a. Qed.

Lemma request_drains e call c w' :
  files_request call = true → run_call e call (mkWorld c []) = Ok (tt, w') → drains c (st w').
Proof.
  intros Hf Hr. destruct call; try discriminate Hf. cbn [run_call] in Hr.
  apply request_execution_ok in Hr as (resolved & uuid & ub & data & _ & _ & _ & _ & _ & _ & _ &
    _ & _ & Hst & _). rewrite Hst. split; cbn; [lia|].
  intros id Hi Hn. by rewrite lookup_insert_ne by lia.
Qed.

Lemma callback_drains e y p c w' :
  money_ok c → payload_typed p → run_callback e y p (mkWorld c []) = Ok (tt, w') →
  drains c (st w').
Proof.
  intros M Ht Hr. apply (run_callback_money _ _ _ (mkWorld c [])) in Hr as (_ & _ & Hn & Hp); [|done..].
  cbn [st] in *. apply shrinks_drains.
  destruct y; [by eapply shrinks_delete | apply shrinks_frame; unfold queue_part; congruence..].
Qed.

Lemma step_drains s ev s' : sys_ok s → step s ev s' → drains (core s) (core s').
Proof.
  intros S Hst. destruct Hst as [s e call w' _ _ Hr| | s e id y p w' Hy _ Hr| | |
    s e i ok d a w' _ _ Hr|]; try apply drains_refl.
  - rewrite absorb_core. cbn [core]. destruct (files_request call) eqn:E; [by eapply request_drains|].
    apply shrinks_drains. exact (run_call_shrinks _ _ (mkWorld (core s) []) _ _ Hr (so_money _ S) E).
  - eapply callback_drains; [apply S | by eapply (so_typed _ S) | exact Hr].
  - cbn [core]. apply shrinks_drains, shrinks_frame. by_frame queue_part Hr.
Qed.

Lemma trace_drains s evs s' : sys_ok s → trace s evs s' → drains (core s) (core s').
Proof.
  intros S Ht. induction Ht as [|s ev s' evs s'' Hst _ IH]; [apply drains_refl|].
  eapply drains_trans; [by eapply step_drains | by eapply IH, step_ok].
Qed.

(** * Payment-key nonces only move forward *)

Definition forward (c c' : Contract) : Prop :=
  (∀ a, payment_key_nonce_floor c a ≤ payment_key_nonce_floor c' a) ∧
  ∀ a n, 0 ≤ n ≤ payment_key_nonce_floor c a → secrets_storage c !! payment_key a n = None →
    secrets_storage c' !! payment_key a n = None.

Lemma forward_refl c : forward c c.
Proof. split; [lia | done]. Qed.

Lemma forward_trans c c' c'' : forward c c' → forward c' c'' → forward c c''.
Proof.
  intros [F1 G1] [F2 G2]. split; [intros a; specialize (F1 a); specialize (F2 a); lia|].
  intros a n Hn Hs. apply G2; [specialize (F1 a); lia | by apply G1].
Qed.

Lemma forward_frame c c' : secrets_part c' = secrets_part c → forward c c'.
Proof.
  unfold secrets_part. intros [= Hs _ _ Hf]. unfold forward, payment_key_nonce_floor.
  rewrite Hs, Hf. split; [lia | done].
Qed.

(** No new payment-key row, and the floors as they were. *)
Lemma forward_rows c c' :
  payment_key_nonce_floors c' = payment_key_nonce_floors c →
  (∀ k, is_payment_key (sk_accessor k) = true → secrets_storage c !! k = None →
    secrets_storage c' !! k = None) → forward c c'.
Proof.
  unfold forward, payment_key_nonce_floor. intros -> Hk. split; [lia|]. intros a n _. by apply Hk.
Qed.

Lemma store_internal_forward e owner payer accessor profile enc access v w u w' :
  store_secrets_internal e owner payer accessor profile enc access v w = Ok (u, w') →
  forward (st w) (st w').
Proof.
  intros ([Ha Hpk] & _ & _ & -> & _)%store_secrets_internal_ok.
  set (key := secret_key_of accessor profile owner) in *. unfold store_effect.
  destruct (is_payment_key (sk_accessor key)) eqn:E.
  - destruct (Hpk eq_refl) as (Hfree & n & Hn & Hf). rewrite Hn.
    assert (sk_profile key = uint_to_string n) as Hprof by by apply payment_key_profile.
    clearbody key. split.
    + intros a. unfold payment_key_nonce_floor. cbn. rewrite lookup_insert. case_decide as Ea; [|done].
      subst a. unfold payment_key_nonce_floor in Hf. cbn. lia.
    + intros a m Hm Hs. unfold with_row. cbn. rewrite lookup_insert_ne; [done|]. intros Hk.
      rewrite Hk in *. cbn in *. apply parse_u32_range in Hn as Hr.
      apply uint_to_string_inj in Hprof; lia.
  - apply forward_rows; [done|]. intros k Hk Hs. unfold with_row. cbn.
    rewrite lookup_insert_ne; [done|]. congruence.
Qed.

Lemma delete_internal_forward key owner to w u w' :
  delete_secrets_internal key owner to w = Ok (u, w') → forward (st w) (st w').
Proof.
  intros (p & _ & -> & _)%delete_secrets_internal_ok. apply forward_rows; [done|]. cbn.
  intros k _ Hk. rewrite lookup_delete. by case_decide.
Qed.

Lemma update_access_forward e accessor profile access w u w' :
  update_access e accessor profile access w = Ok (u, w') → forward (st w) (st w').
Proof.
  intros (p & r & Hp & _ & -> & _)%update_access_ok. apply forward_rows; [done|].
  intros k _ Hk. cbn -[secret_key_of]. rewrite lookup_insert_ne; [done | congruence].
Qed.

Lemma run_call_forward e call w u w' :
  run_call e call w = Ok (u, w') → forward (st w) (st w').
Proof.
  intros Hr. destruct call; cbn [run_call] in Hr;
    try (apply forward_frame; by_frame secrets_part Hr).
  - by eapply store_internal_forward.
  - apply store_agent_secret_ok in Hr as (o & h & raw & _ & _ & _ & _ & _ & _ & Hr).
    by eapply store_internal_forward.
  - apply delete_agent_secret_ok in Hr as (h & raw & _ & _ & _ & _ & Hr).
    by eapply delete_internal_forward.
  - unfold delete_secrets in Hr. sinv. by eapply delete_internal_forward.
  - unfold unbind_secret_vault in Hr. sinv. by apply forward_rows.
  - by eapply update_access_forward.
Qed.

Lemma raise_floor_forward owner nonce c :
  0 ≤ nonce → forward c (raise_payment_key_nonce_floor owner nonce c).
Proof.
  intros Hn. unfold raise_payment_key_nonce_floor.
  destruct (payment_key_nonce_floors c !! owner) as [f|] eqn:E; [destruct (f <? nonce) eqn:G; prop_bool|].
  2: apply forward_refl.
  all: split; [|done]; intros a; unfold payment_key_nonce_floor; cbn; rewrite lookup_insert;
    case_decide; [subst; rewrite E; cbn; lia | done].
Qed.

Lemma run_callback_forward e y p w u w' :
  yielded_typed y → run_callback e y p w = Ok (u, w') → forward (st w) (st w').
Proof.
  intros Ht Hr. destruct y as [d|owner nonce amount|owner nonce]; cbn in Hr.
  - apply forward_frame. by_frame secrets_part Hr.
  - destruct p as [[]|]; try done;
      apply on_top_up_response_ok in Hr as [_ [(data & q & _ & Hq & ->)|[_ ->]]];
      first [apply forward_refl | apply forward_rows; [done|]; intros k _ Hk; cbn;
        rewrite lookup_insert_ne; [done | congruence]].
  - destruct p as [[]|]; try done; unfold on_delete_payment_key_response in Hr; sinv;
      try apply forward_refl.
    destruct result; sinv; try apply forward_refl.
    eapply forward_trans; [by eapply delete_internal_forward | by apply raise_floor_forward].
Qed.

Lemma step_forward s ev s' : sys_ok s → step s ev s' → forward (core s) (core s').
Proof.
  intros S Hst. destruct Hst as [s e call w' _ _ Hr| | s e id y p w' Hy _ Hr| | |
    s e i ok d a w' _ _ Hr|]; try apply forward_refl.
  - rewrite absorb_core. exact (run_call_forward _ _ (mkWorld (core s) []) _ _ Hr).
  - refine (run_callback_forward _ _ _ (mkWorld (core s) []) _ _ _ Hr). by eapply (so_typed _ S).
  - cbn [core]. apply forward_frame. by_frame secrets_part Hr.
Qed.

Lemma trace_forward s evs s' : sys_ok s → trace s evs s' → forward (core s) (core s').
Proof.
  intros S Ht. induction Ht as [|s ev s' evs s'' Hst _ IH]; [apply forward_refl|].
  eapply forward_trans; [by eapply step_forward | by eapply IH, step_ok].
Qed.

(** * Stranding *)

Lemma absorb_stranded s l : stranded (absorb s l) = stranded s.
Proof. revert s. induction l as [|a l IH]; intros s; [done|]. etransitivity; [apply IH|]. by destruct a. Qed.

Lemma ledger_covers c a : money_ok c → balance (developer_earnings c) a ≤ ledger c.
Proof.
  intros M. unfold ledger. pose proof (balance_le_sum _ a (mo_earnings _ M)).
  assert (0 ≤ map_sum (λ x, x) (user_stablecoin_balances c))
    by (apply map_sum_nonneg; intros k x Hk; by apply (mo_users _ M k)).
  assert (0 ≤ map_sum req_attached_usd (pending_requests c)); [|lia].
  apply map_sum_nonneg. intros k r Hk. by apply (mo_requests _ M k).
Qed.

Lemma withdraw_panics e developer amount ok c msg :
  predecessor_account_id e = current_account_id e → money_ok c → 0 ≤ amount →
  on_withdraw_developer_earnings e developer amount (if ok : bool then CbOk tt else CbErr)
    (mkWorld c []) = Panic msg →
  ok = false ∧ 2 ^ 128 ≤ balance (developer_earnings c) developer + amount.
Proof.
  intros Hpriv M Ha Hp. pose proof (balance_nonneg _ developer (mo_earnings _ M)).
  assert (is_ok (on_withdraw_developer_earnings e developer amount
    (if ok then CbOk tt else CbErr) (mkWorld c [])) = false) as Hf by by rewrite Hp.
  destruct (decide (ok = true ∨ balance (developer_earnings c) developer + amount < 2 ^ 128))
    as [Hd|Hd]; [|destruct ok; [naive_solver | split; [done | lia]]].
  exfalso. rewrite <- not_true_iff_false in Hf. apply Hf.
  unfold on_withdraw_developer_earnings. eapply is_ok_bind.
  { unfold assert_private, require. by rewrite bool_decide_eq_true_2. }
  destruct ok; [done|]. eapply is_ok_bind; [reflexivity|].
  eapply is_ok_bind; [unfold add128; rewrite checked_run; [done | cbn; destruct Hd; [done | lia]]|done].
Qed.

(** * Claims *)

(** C39: In every reachable state all components are consistent at once: the
    project registry and its index, the secrets with their index, bindings and
    nonce floors, the wallet policies with their metadata, and the accounts with
    the pending requests. *)
Theorem components_stay_consistent s :
  reachable s →
  registry_ok (core s) ∧ secrets_ok (core s) ∧ wallets_ok (core s) ∧ money_ok (core s).
Proof. intros [? ? ? ?]%reachable_ok. done. Qed.

(** C1: Stablecoin is conserved: in every reachable state what the contract took
    in for balances and has not paid out is users' balances, developers'
    earnings, money on pending requests, withdrawals under way and what was
    stranded, so the contract always covers what it owes. *)
Theorem stablecoin_conserved s :
  reachable s →
  held s = ledger (core s) + in_flight s + stranded s ∧
  ledger (core s) ≤ held s ∧
  ∀ a, 0 ≤ balance (user_stablecoin_balances (core s)) a ∧
       0 ≤ balance (developer_earnings (core s)) a.
Proof.
  intros S%reachable_ok. pose proof (so_ledger _ S). pose proof (so_stranded _ S).
  assert (0 ≤ in_flight s) by (apply parts_total_nonneg, (so_withdrawals _ S)).
  split_and!; [done | lia |]. intros a.
  split; apply balance_nonneg; [apply (mo_users _ (so_money _ S)) | apply (mo_earnings _ (so_money _ S))].
Qed.

(** Only two things strand stablecoin: the owner's bulk cancel, and a failed
    withdrawal whose money would push the developer's balance past 128 bits,
    which needs at least that much in the contract. *)
Theorem stranding_is_named s ev s' :
  reachable s → step s ev s' →
  stranded s' = stranded s ∨ (∃ e ids, ev = ECall e (CCancelPending ids)) ∨
  (∃ e i, ev = EWithdrawDone e i false) ∧ 2 ^ 128 ≤ held s.
Proof.
  intros S%reachable_ok Hst. destruct Hst as [s e call w' _ _ Hr| | | | | |
    s e i ok d a msg Hi Hpriv Hp]; try (by left).
  - rewrite absorb_stranded. cbn [stranded]. destruct call; cbn [strands]; try (left; lia). eauto.
  - right; right. pose proof (so_withdrawals _ S) as Wd. rewrite Forall_lookup in Wd.
    pose proof (Wd _ _ Hi) as Ha. cbn in Ha.
    apply withdraw_panics in Hp as [-> Hb]; [|done|apply S|done]. split; [by exists e, i|].
    pose proof (ledger_covers _ d (so_money _ S)). pose proof (so_stranded _ S).
    rewrite (so_ledger _ S). unfold in_flight. rewrite (in_flight_delete _ _ _ _ Hi).
    assert (0 ≤ parts_total (delete i (withdrawals s)))
      by (by apply parts_total_nonneg, Forall_delete, (so_withdrawals _ S)). lia.
Qed.

(** A request is settled once: when an id that was handed out is not pending,
    no sequence of calls, callbacks and timeouts makes it pending again. *)
Theorem request_settles_once s evs s' id :
  reachable s → trace s evs s' → id < next_request_id (core s) →
  get_request (core s) id = None → get_request (core s') id = None.
Proof. intros S%reachable_ok Ht. by apply (trace_drains _ _ _ S Ht). Qed.



(** A project can always be run: in every reachable state a request that
    names an existing project without a version resolves to the source of its
    active version, under the project's own uuid. *)
Theorem active_version_resolves s pid p w :
  reachable s → get_project (core s) pid = Some p →
  ∃ versions v, project_versions (core s) !! proj_uuid p = Some versions ∧
    versions !! proj_active_version p = Some v ∧
    resolve_execution_source (core s) (ESProject pid None) w
      = Ok ((vi_source v, Some (proj_uuid p)), w).
Proof.
  intros S%reachable_ok Hp. unfold get_project in Hp.
  destruct (reg_active _ _ _ _ (so_registry _ S) _ _ Hp) as (vs & Hvs & [v Hv]).
  exists vs, v. split_and!; [done..|]. unfold resolve_execution_source.
  unfold bind, unwrap. rewrite Hp. cbn.
  assert (proj_active_version p ≠ "") as Hne.
  { intros E. rewrite E, (reg_keys _ _ _ _ (so_registry _ S) _ _ Hvs) in Hv. discriminate. }
  destruct (proj_active_version p) eqn:E; [done|]. cbn. rewrite Hvs. cbn. by rewrite Hv.
Qed.
End reachable.

(** * A run of the system *)

Section play.
Context `{Platform}.

(** The receipt's environment as the host answers it in state [s]. *)
Definition hosted (s : Sys) (e : Env) : Env :=
  mkEnv (predecessor_account_id e) (signer_account_id e) (current_account_id e)
    (attached_deposit e) (block_timestamp e) (yield_data_id e)
    (λ id, match yields s !! id with Some (_, None) => true | _ => false end) (acceptance_record_bytes e).

Definition play (s : Sys) (e : Env) (call : Call) : Sys :=
  let w := mkWorld (core s) [] in
  match run_call (hosted s e) call w with
  | Ok (_, w') =>
    absorb (mkSys (st w') (yields s) (withdrawals s) (held s + deposit_of call)
              (stranded s + strands call w w') (lost s)) (out w')
  | Panic _ => s
  end.

Lemma play_step s e call :
  yields s !! yield_data_id e = None → 0 ≤ attached_deposit e → call_typed call →
  step s (ECall (hosted s e) call) (play s e call).
Proof.
  intros Hf Hd Ht. unfold play. destruct (run_call _ _ _) as [[[] w']|m] eqn:E.
  - apply step_call; [split_and!; done | done | done].
  - by eapply step_refused.
Qed.

Lemma trace_snoc s0 evs s ev s' : trace s0 evs s → step s ev s' → trace s0 (evs ++ [ev]) s'.
Proof.
  intros Ht Hs. induction Ht as [s|s ev0 s1 evs s2 H1 _ IH].
  - eapply trace_cons; [exact Hs | constructor].
  - eapply trace_cons; [exact H1 | by apply IH].
Qed.

Lemma trace_one s ev s' : step s ev s' → trace s [ev] s'.
Proof. intros Hs. eapply trace_cons; [exact Hs | constructor]. Qed.

(** Receipts one after the other; [playable] is what the host grants each. *)
Definition playable (s : Sys) (e : Env) : bool :=
  bool_decide (yields s !! yield_data_id e = None) && (0 <=? attached_deposit e).
Fixpoint plays (s : Sys) (l : list (Env * Call)) : Sys :=
  match l with [] => s | (e, call) :: l => plays (play s e call) l end.
Fixpoint all_playable (s : Sys) (l : list (Env * Call)) : bool :=
  match l with [] => true | (e, call) :: l => playable s e && all_playable (play s e call) l end.

Lemma play_event s e call :
  playable s e = true → call_typed call → step s (ECall (hosted s e) call) (play s e call).
Proof. unfold playable. intros Hp Ht. prop_bool. by apply play_step. Qed.

Lemma reachable_play s e call :
  playable s e = true → call_typed call → reachable s → reachable (play s e call).
Proof.
  intros Hp Ht (o & op & sd & v & evs & Hr). exists o, op, sd, v, (evs ++ [ECall (hosted s e) call]).
  eapply trace_snoc; [exact Hr | by apply play_event].
Qed.

Lemma reachable_plays l : ∀ s,
  all_playable s l = true → Forall (λ p, call_typed p.2) l → reachable s → reachable (plays s l).
Proof.
  induction l as [|[e call] l IH]; intros s Hp Ht Hr; [done|]. cbn in Hp |- *. prop_bool.
  inversion Ht as [|? ? Hc Hl]; subst. apply IH; [done | done | by apply reachable_play].
Qed.
End play.

#[local] Existing Instance sample_platform.

(** A market of one project, one customer and one request, built by receipts. *)
Definition market0 : Sys := initial "owner.near" (Some "operator.near") None None.
Definition market_receipts : list (Env * Call) :=
  [(sample_env "owner.near" 0 1, CSetToken (Some "usdt.near"));
   (sample_env "dev.near" ONE_NEAR 1, CCreateProject "app" sample_code);
   (sample_env "owner.near" 0 2, CSetProjectPricing "dev.near/app" sample_pricing);
   (sample_env "usdt.near" 0 3, CFtOnTransfer "alice.near" 5000 "deposit_balance");
   (sample_env "alice.near" ONE_NEAR 4,
      CRequestExecution (ESProject "dev.near/app" None) (Some default_limits) (Some "op:run")
        None None None (Some sample_params))].
Definition market : Sys := plays market0 market_receipts.

Lemma market0_reachable : reachable market0.
Proof. exists "owner.near", (Some "operator.near"), None, None, []. constructor. Qed.

Lemma market_reachable : reachable market.
Proof.
  apply reachable_plays; [vm_compute; reflexivity | | exact market0_reachable].
  repeat constructor; cbn; try discriminate.
Qed.

Lemma components_stay_consistent_witness : registry_ok (core market) ∧ money_ok (core market).
Proof. destruct (components_stay_consistent market market_reachable) as (? & _ & _ & ?). done. Defined.

Lemma stablecoin_conserved_witness :
  held market = 5000 ∧ ledger (core market) + in_flight market + stranded market = 5000.
Proof.
  destruct (stablecoin_conserved market market_reachable) as [Hl _].
  assert (held market = 5000) as Hh by (vm_compute; reflexivity).
  split; [exact Hh | rewrite <- Hl; exact Hh].
Defined.

(** The owner clears the queue the hard way. *)
Definition bulk_cancel : Call := CCancelPending [0].
Definition by_owner : Env :=
  mkEnv "owner.near" "owner.near" "outlayer.near" 0 10 "yield-2" (λ _, true) (λ _, 100).
Definition cleared : Sys := play market by_owner bulk_cancel.

Lemma cleared_reachable : reachable cleared.
Proof.
  refine (reachable_play market by_owner bulk_cancel _ I market_reachable). vm_compute. reflexivity.
Qed.

Lemma stranding_is_named_witness :
  stranded cleared = 1500 ∧
  (stranded cleared = stranded market ∨
   (∃ e ids, ECall (hosted market by_owner) bulk_cancel = ECall e (CCancelPending ids)) ∨
   (∃ e i, ECall (hosted market by_owner) bulk_cancel = EWithdrawDone e i false) ∧
   2 ^ 128 ≤ held market).
Proof.
  split; [vm_compute; reflexivity|].
  refine (stranding_is_named market _ cleared market_reachable (play_event market by_owner bulk_cancel _ I)).
  vm_compute. reflexivity.
Defined.

Lemma request_settles_once_witness :
  get_request (core (play cleared by_owner (CSetPaused true))) 0 = None.
Proof.
  refine (request_settles_once cleared [ECall (hosted cleared by_owner) (CSetPaused true)] _ 0
    cleared_reachable (trace_one _ _ _ (play_event cleared by_owner (CSetPaused true) _ I)) _ _);
    vm_compute; reflexivity.
Defined.

Definition market_request : ExecutionRequest :=
  default (new_request by_owner (core market) (ESGitHub "" "" None) sample_code default_limits None
             None FmtText None 0) (get_request (core market) 0).


Definition key_call : Call := CStoreSecrets (AccSystem PaymentKey) "1" "QQ==" AllowAll None.
Definition unkey_call : Call := CDeleteSecrets (AccSystem PaymentKey) "1".
Definition keyed : Sys := play market0 (sample_env "alice.near" ONE_NEAR 1) key_call.
Definition unkeyed : Sys := play keyed (sample_env "alice.near" 0 2) unkey_call.
Definition rekeyed : Sys := play unkeyed (sample_env "alice.near" ONE_NEAR 3) key_call.


Lemma active_version_resolves_witness :
  ∃ uuid v, resolve_execution_source (core market) (ESProject "dev.near/app" None) (start (core market))
    = Ok ((vi_source v, Some uuid), start (core market)).
Proof.
  destruct (get_project (core market) "dev.near/app") as [p|] eqn:E.
  - destruct (active_version_resolves market "dev.near/app" p (start (core market))
      market_reachable E) as (vs & v & _ & _ & Hr).
    exists (proj_uuid p), v. exact Hr.
  - assert (bool_decide (is_Some (get_project (core market) "dev.near/app")) = true) as Hs
      by (vm_compute; reflexivity).
    rewrite E in Hs. discriminate Hs.
Defined.
