(* ===== verification/Vectors.v ===== *)
(** Rust's [Vec::swap_remove], and near-sdk's [UnorderedSet]: a vector of distinct
    elements, which removes by moving the last element into the hole. *)

From S2P Require Export Prelude.

Section vectors.
Context {A : Type} `{EqDecision A}.
Implicit Types (l : list A) (x : A).

(** [iter().position(|k| k == x)]. *)
Fixpoint position (x : A) (l : list A) : option nat :=
  match l with
  | [] => None
  | y :: rest => if bool_decide (y = x) then Some 0%nat else S <$> position x rest
  end.

(** [Vec::swap_remove]: the last element takes the hole. *)
Definition swap_remove (i : nat) (l : list A) : list A :=
  match l !! i, last l with
  | Some _, Some z => removelast (<[i := z]> l)
  | _, _ => l
  end.

Definition set_insert (x : A) (l : list A) : list A :=
  if bool_decide (x ∈ l) then l else l ++ [x].
Definition set_remove (x : A) (l : list A) : list A :=
  match position x l with Some i => swap_remove i l | None => l end.
Definition set_from (l : list A) : list A := foldl (λ s x, set_insert x s) [] l.
End vectors.

Section lemmas.
Context {A : Type} `{EqDecision A}.
Implicit Types (l : list A) (x : A).

Lemma position_lookup x l i : position x l = Some i → l !! i = Some x.
Proof.
  revert i. induction l as [|k l IH]; intros i; cbn; [done|]. case_bool_decide as E.
  - intros [= <-]. by subst.
  - destruct (position x l) as [j|]; [|done]. cbn. intros [= <-]. cbn. by apply IH.
Qed.

Lemma position_none x l : position x l = None → x ∉ l.
Proof.
  induction l as [|k l IH]; cbn; [set_solver|]. case_bool_decide as E; [done|].
  destruct (position x l); [done|]. intros _ [->|Hin]%elem_of_cons; [done | by apply IH].
Qed.

(** [swap_remove] removes exactly the element at its index. *)
Lemma swap_remove_perm i l x : l !! i = Some x → l ≡ₚ x :: swap_remove i l.
Proof.
  intros Hi. unfold swap_remove. rewrite Hi.
  destruct l as [|z l' _] using rev_ind; [done|]. rewrite last_snoc.
  apply lookup_snoc_Some in Hi as [[Hlt Hi]|[-> <-]].
  - rewrite insert_app_l by done. rewrite removelast_last.
    rewrite <- (take_drop_middle l' i x Hi) at 1. rewrite insert_take_drop by done.
    solve_Permutation.
  - rewrite insert_app_r_alt, Nat.sub_diag by lia. cbn. rewrite removelast_last. solve_Permutation.
Qed.

Lemma set_remove_perm x l : x ∈ l → l ≡ₚ x :: set_remove x l.
Proof.
  intros Hx. unfold set_remove. destruct (position x l) as [i|] eqn:E.
  - by apply swap_remove_perm, position_lookup.
  - by apply position_none in E.
Qed.
Lemma set_remove_id x l : x ∉ l → set_remove x l = l.
Proof.
  intros Hx. unfold set_remove. destruct (position x l) as [i|] eqn:E; [|done].
  by apply position_lookup, list_elem_of_lookup_2 in E.
Qed.

Lemma set_remove_nodup x l : NoDup l → NoDup (set_remove x l).
Proof.
  intros Hn. destruct (decide (x ∈ l)) as [Hx|Hx]; [|by rewrite set_remove_id].
  rewrite (set_remove_perm x l Hx) in Hn. by apply NoDup_cons in Hn as [_ ?].
Qed.
Lemma elem_of_set_remove x y l : NoDup l → y ∈ set_remove x l ↔ y ∈ l ∧ y ≠ x.
Proof.
  intros Hn. destruct (decide (x ∈ l)) as [Hx|Hx]; [|rewrite set_remove_id by done; naive_solver].
  pose proof (set_remove_perm x l Hx) as Hp. rewrite Hp in Hn. apply NoDup_cons in Hn as [Hn _].
  rewrite Hp at 2. set_solver.
Qed.
Lemma elem_of_set_remove_1 x y l : y ∈ set_remove x l → y ∈ l.
Proof.
  destruct (decide (x ∈ l)) as [Hx|Hx]; [|by rewrite set_remove_id].
  rewrite (set_remove_perm x l Hx) at 2. set_solver.
Qed.
Lemma set_remove_length x l : NoDup l →
  length (set_remove x l) = (length l - if bool_decide (x ∈ l) then 1 else 0)%nat.
Proof.
  intros Hn. case_bool_decide as Hx; [|rewrite set_remove_id by done; lia].
  rewrite (set_remove_perm x l Hx) at 2. cbn. lia.
Qed.

Lemma elem_of_set_insert x y l : y ∈ set_insert x l ↔ y = x ∨ y ∈ l.
Proof. unfold set_insert. case_bool_decide; set_solver. Qed.
Lemma set_insert_nodup x l : NoDup l → NoDup (set_insert x l).
Proof.
  intros Hn. unfold set_insert. case_bool_decide; [done|].
  apply NoDup_app. split_and!; [done | set_solver | apply NoDup_singleton].
Qed.
Lemma set_insert_length x l : (length (set_insert x l) <= S (length l))%nat.
Proof. unfold set_insert. case_bool_decide; [lia|]. rewrite length_app. cbn. lia. Qed.

Lemma set_from_acc l s : NoDup s →
  let r := foldl (λ s x, set_insert x s) s l in
  NoDup r ∧ (length r <= length s + length l)%nat ∧ ∀ x, x ∈ r ↔ x ∈ s ∨ x ∈ l.
Proof.
  revert s. induction l as [|y l IH]; intros s Hs; cbn; [split_and!; [done | lia | set_solver]|].
  destruct (IH (set_insert y s)) as (? & Hl & He); [by apply set_insert_nodup|].
  split_and!; [done | pose proof (set_insert_length y s); lia |].
  intros x. rewrite He, elem_of_set_insert. set_solver.
Qed.
Lemma set_from_spec l :
  NoDup (set_from l) ∧ (length (set_from l) <= length l)%nat ∧ ∀ x, x ∈ set_from l ↔ x ∈ l.
Proof. destruct (set_from_acc l [] ltac:(constructor)) as (? & ? & He). split_and!; [done | done | set_solver]. Qed.
Lemma set_from_id l : NoDup l → length (set_from l) = length l.
Proof.
  intros Hn. destruct (set_from_spec l) as (Hs & Hl & He).
  apply Nat.le_antisymm; [done|]. by apply NoDup_incl_length; [apply NoDup_ListNoDup|intros x Hx%list_elem_of_In; apply list_elem_of_In, He].
Qed.
End lemmas.
