(* ===== verification/AccessKeys.v ===== *)
(** Public keys and the access keys of an account, as the vault, the keystore DAO
    and the registration contract use them: a batch of key actions is applied as a
    whole or not at all. *)

From S2P Require Export Contract Vectors.

Inductive CurveType := ED25519 | SECP256K1 | MLDSA65.

(** near-sdk's [PublicKey]: the curve and the key's bytes without the curve tag. *)
Record PublicKey := mkKey { curve_type : CurveType; key_data : string }.

#[export] Instance curve_type_eq : EqDecision CurveType.
Proof. solve_decision. Defined.
#[export] Instance public_key_eq : EqDecision PublicKey.
Proof. solve_decision. Defined.
#[export] Instance curve_type_countable : Countable CurveType.
Proof.
  refine (inj_countable' (λ c, match c with ED25519 => None | SECP256K1 => Some false | MLDSA65 => Some true end)
    (λ o, match o with None => ED25519 | Some false => SECP256K1 | Some true => MLDSA65 end) _).
  by intros [].
Defined.
#[export] Instance public_key_countable : Countable PublicKey.
Proof.
  refine (inj_countable' (λ k, (curve_type k, key_data k)) (λ p, mkKey p.1 p.2) _). by intros [].
Defined.

Inductive KeyScope :=
| FullAccess
| FunctionCallKey (allowance : option Z) (receiver : AccountId) (methods : string).

Inductive KeyAction :=
| DeleteKey (key : PublicKey)
| AddKey (key : PublicKey) (scope : KeyScope).

Abbreviation Keys := (gmap PublicKey KeyScope).

(** One action of a batch; [None] when the runtime refuses it. *)
Definition apply_key_action (keys : Keys) (a : KeyAction) : option Keys :=
  match a with
  | DeleteKey k => if bool_decide (is_Some (keys !! k)) then Some (delete k keys) else None
  | AddKey k scope => if bool_decide (keys !! k = None) then Some (<[k := scope]> keys) else None
  end.

(** A batch is all or nothing. *)
Fixpoint apply_batch (keys : Keys) (l : list KeyAction) : option Keys :=
  match l with
  | [] => Some keys
  | a :: l => keys' ← apply_key_action keys a; apply_batch keys' l
  end.

Lemma apply_batch_app keys l l' :
  apply_batch keys (l ++ l') = apply_batch keys l ≫= λ keys', apply_batch keys' l'.
Proof.
  revert keys. induction l as [|a l IH]; intros keys; cbn; [done|].
  destruct (apply_key_action keys a); cbn; [apply IH | done].
Qed.

(** A key in the account after a batch was there before or was added by it. *)
Lemma apply_batch_origin l : ∀ keys keys' k scope,
  apply_batch keys l = Some keys' → keys' !! k = Some scope →
  keys !! k = Some scope ∨ AddKey k scope ∈ l.
Proof.
  induction l as [|a l IH]; intros keys keys' k scope; cbn; [intros [= ->]; auto|].
  destruct a as [d|d sc]; cbn; case_bool_decide as Hb; cbn; try done; intros Ha Hk;
    destruct (IH _ _ _ _ Ha Hk) as [Hl|Hl]; try (right; by right).
  - apply lookup_delete_Some in Hl as [_ Hl]. auto.
  - apply lookup_insert_Some in Hl as [[-> ->]|[_ Hl]]; [right; left | auto].
Qed.

Lemma apply_deletes l : ∀ keys keys',
  apply_batch keys (map DeleteKey l) = Some keys' → ∀ k, k ∈ l → keys' !! k = None.
Proof.
  induction l as [|d l IH]; intros keys keys'; cbn; [set_solver|].
  case_bool_decide; cbn; [|done]. intros Ha k Hk.
  destruct (keys' !! k) as [sc|] eqn:E; [|done]. exfalso.
  destruct (decide (k ∈ l)) as [Hl|Hl]; [by rewrite (IH _ _ Ha _ Hl) in E|].
  apply elem_of_cons in Hk as [->|]; [|done].
  destruct (apply_batch_origin _ _ _ _ _ Ha E) as [Hd|Hd]; [by rewrite lookup_delete_eq in Hd|].
  by apply list_elem_of_In, in_map_iff in Hd as (? & ? & _).
Qed.

Lemma deletes_run l : ∀ keys, NoDup l → (∀ k, k ∈ l → is_Some (keys !! k)) →
  ∃ keys', apply_batch keys (map DeleteKey l) = Some keys' ∧
    (∀ k, k ∈ l → keys' !! k = None) ∧ (∀ k, ¬ k ∈ l → keys' !! k = keys !! k).
Proof.
  induction l as [|x l IH]; intros keys Hn Hk; cbn.
  - exists keys. split_and!; [done | set_solver | done].
  - apply NoDup_cons in Hn as [Hx Hn].
    rewrite bool_decide_eq_true_2 by (apply Hk; set_solver). cbn.
    destruct (IH (delete x keys)) as (keys' & Ha & Hd & Hs); [done| |].
    { intros k Hin. rewrite lookup_delete_ne by set_solver. apply Hk. set_solver. }
    exists keys'. split_and!; [done| |].
    + intros k [->|Hin]%elem_of_cons; [|by apply Hd]. rewrite Hs by done. apply lookup_delete_eq.
    + intros k Hni. rewrite Hs by set_solver. rewrite lookup_delete_ne; [done | set_solver].
Qed.

(** * What an access key may call

    The runtime accepts a transaction of the account signed by one of its keys: any
    for a full-access key, for a function-call key a call without deposit to its
    receiver and, unless its list is empty, to a method of its list. *)

Fixpoint split_commas (cur s : string) : list string :=
  match s with
  | "" => [cur]
  | String c s => if bool_decide (c = ","%char) then cur :: split_commas "" s
                  else split_commas (cur +:+ String c "") s
  end.

Definition scope_permits (scope : KeyScope) (receiver method : string) (deposit : Z) : bool :=
  match scope with
  | FullAccess => true
  | FunctionCallKey _ r methods =>
    bool_decide (r = receiver) && (deposit =? 0) &&
    (str_is_empty methods || bool_decide (method ∈ split_commas "" methods))
  end.

Definition key_permits (keys : Keys) (signed_with : option PublicKey) (receiver method : string)
    (deposit : Z) : bool :=
  match signed_with ≫= λ k, keys !! k with
  | Some scope => scope_permits scope receiver method deposit
  | None => false
  end.
