(* ===== verification/Attestation.v ===== *)
(** TDX attestation as both registration contracts use it
    (keystore-dao-contract/src/lib.rs, keystore-dao-contract/src/collateral.rs and
    their copies in register-contract): collaterals and the choice of a slot by
    FMSPC, the checks on a verified quote, the binding of a public key to a quote,
    and the lists of approved measurements. *)

From S2P Require Export AccessKeys.

(** * Collateral *)

(** The structure [dcap_qvl] takes. *)
Record QuoteCollateralV3 := mkCollateral {
  tcb_info_issuer_chain : string;
  tcb_info : string;
  tcb_info_signature : string;
  qe_identity_issuer_chain : string;
  qe_identity : string;
  qe_identity_signature : string;
  pck_crl_issuer_chain : string;
  root_ca_crl : string;
  pck_crl : string;
  pck_certificate_chain : option string;
}.

Inductive CollateralError :=
| MissingField (field : string)
| HexDecode (field : string).

Section collateral.
Context `{Platform}.

Definition get_str (v : json) (key : string) : result string CollateralError :=
  ok_or (json_get_str v key) (MissingField key).
Definition get_hex (v : json) (key : string) : result string CollateralError :=
  let? hex_str := get_str v key in
  ok_or (hex_decode hex_str) (HexDecode key).
Definition get_str_optional (v : json) (key : string) : option string := json_get_str v key.

Definition try_from_json (v : json) : result QuoteCollateralV3 CollateralError :=
  let? tcb_info_issuer_chain := get_str v "tcb_info_issuer_chain" in
  let? tcb_info := get_str v "tcb_info" in
  let? tcb_info_signature := get_hex v "tcb_info_signature" in
  let? qe_identity_issuer_chain := get_str v "qe_identity_issuer_chain" in
  let? qe_identity := get_str v "qe_identity" in
  let? qe_identity_signature := get_hex v "qe_identity_signature" in
  let? pck_crl_issuer_chain := get_str v "pck_crl_issuer_chain" in
  let? root_ca_crl := get_hex v "root_ca_crl" in
  let? pck_crl := get_hex v "pck_crl" in
  ROk (mkCollateral tcb_info_issuer_chain tcb_info tcb_info_signature qe_identity_issuer_chain
         qe_identity qe_identity_signature pck_crl_issuer_chain root_ca_crl pck_crl
         (get_str_optional v "pck_certificate_chain")).
End collateral.

(** The byte scan for the platform's FMSPC.  Both ends of the slice are next to
    ASCII bytes or at the end, so [str::get] never refuses it. *)
Definition collateral_fmspc (collateral_str : string) : option string :=
  let bytes := str_bytes collateral_str in
  found ← str_find "fmspc" collateral_str;
  let start := scan (λ b, negb (is_ascii_hexdigit b)) bytes (found + 5) (length bytes) in
  let stop := scan is_ascii_hexdigit bytes start (length bytes) in
  let hex := str_take (stop - start) (str_drop start collateral_str) in
  if 12 <=? str_len hex then Some (str_take 12 hex) else None.

(** * Quotes *)

Record Td10Report := mkTd10 {
  mr_td : string; rt_mr0 : string; rt_mr1 : string; rt_mr2 : string; rt_mr3 : string;
  report_data : string;
}.
Record VerifiedReport := mkReport {
  status : string;
  advisory_ids : list string;
  as_td10 : option Td10Report;     (* [None] for a quote of another kind *)
}.

(** The dcap-qvl crate: parsing a quote, its FMSPC, and the verification against a
    collateral at a time in seconds ([None] for every error). *)
Class TeeVerifier := {
  Quote : Type;
  quote_parse : string → option Quote;
  quote_fmspc : Quote → option string;
  verify_quote : string → QuoteCollateralV3 → Z → option VerifiedReport;
}.

Record ApprovedMeasurements := mkMeasurements {
  mrtd : string; rtmr0 : string; rtmr1 : string; rtmr2 : string; rtmr3 : string;
}.
#[export] Instance measurements_eq : EqDecision ApprovedMeasurements.
Proof. solve_decision. Defined.

Inductive TdxError :=
| InvalidHex
| CollateralJson
| CollateralFields (e : CollateralError)
| QuoteVerification
| TcbStatus (status : string)
| OutstandingAdvisories (ids : list string)
| NotTd10.

Section quotes.
Context `{Platform} `{TeeVerifier}.

Definition hex_measurements (t : Td10Report) : ApprovedMeasurements :=
  mkMeasurements (hex_encode (mr_td t)) (hex_encode (rt_mr0 t)) (hex_encode (rt_mr1 t))
    (hex_encode (rt_mr2 t)) (hex_encode (rt_mr3 t)).


(** The measurements of a quote and the first 32 bytes of its report data. *)
Definition verify_tdx_quote (block_timestamp : Z) (tdx_quote_hex collateral_json : string)
    : result (ApprovedMeasurements * string) TdxError :=
  let? quote_bytes := ok_or (hex_decode tdx_quote_hex) InvalidHex in
  let? collateral_value := ok_or (json_from_str collateral_json) CollateralJson in
  let? collateral := map_err CollateralFields (try_from_json collateral_value) in
  let now := block_timestamp / 1000000000 in
  let? result := ok_or (verify_quote quote_bytes collateral now) QuoteVerification in
  if negb (bool_decide (status result = "UpToDate")) then RErr (TcbStatus (status result)) else
  if negb (bool_decide (advisory_ids result = [])) then RErr (OutstandingAdvisories (advisory_ids result)) else
  let? td10 := ok_or (as_td10 result) NotTd10 in
  ROk (hex_measurements td10, str_take 32 (report_data td10)).

Context {W : Type}.

(** The slot whose FMSPC is the quote's. *)
Definition slot_matches (quote_fmspc c : string) : bool :=
  match collateral_fmspc c with
  | Some f => eq_ignore_ascii_case f quote_fmspc
  | None => false
  end.

Definition select_collateral (collaterals : list string) (tdx_quote_hex : string) : M W string :=
  require (negb (bool_decide (collaterals = [])))
    "No quote collateral cached (owner must call update_collateral)" >>>
  let! quote_bytes := unwrap (hex_decode tdx_quote_hex) "Invalid quote hex encoding" in
  let! quote := unwrap (quote_parse quote_bytes) "Failed to parse TDX quote" in
  let! fmspc := unwrap (quote_fmspc quote) "No FMSPC in TDX quote" in
  unwrap (head (filter (λ c, slot_matches (hex_encode fmspc) c = true) collaterals))
    "No cached collateral for quote FMSPC (owner must update_collateral for this platform)".

(** The 32 bytes a quote's report data must start with for a key to be its own. *)
Definition expected_binding (public_key : PublicKey) : M W string :=
  match curve_type public_key with
  | ED25519 =>
    require (32 <=? str_len (key_data public_key)) "range end index 33 out of range" >>>
    ret (str_take 32 (key_data public_key))
  | MLDSA65 => ret (sha256 (key_data public_key))
  | SECP256K1 => panic "Unsupported key curve (use ed25519 or ml-dsa-65)"
  end.

(** The part of a registration both contracts share: the quote verifies against the
    cached collateral of its platform, its measurements are approved, and its
    report data binds the submitted key. *)
Definition check_attestation (now : Z) (collaterals : list string)
    (approved_measurements : list ApprovedMeasurements)
    (public_key : PublicKey) (tdx_quote_hex : string) : M W ApprovedMeasurements :=
  let! collateral := select_collateral collaterals tdx_quote_hex in
  let! '(measurements, report_data_prefix) :=
    match verify_tdx_quote now tdx_quote_hex collateral with
    | ROk r => ret r
    | RErr _ => panic "TDX quote verification failed"
    end in
  require (bool_decide (measurements ∈ approved_measurements)) "Worker measurements not approved" >>>
  let! binding := expected_binding public_key in
  require (bool_decide (report_data_prefix = binding))
    "Public key mismatch: provided key doesn't match TDX quote" >>>
  ret measurements.

(** * Approved measurements and cached collaterals *)

Definition validate_measurement_field (name value : string) : M W unit :=
  require (str_len value =? 96) ("Invalid " +:+ name +:+ " format: expected 96 hex characters") >>>
  require (forall_bytes is_ascii_hexdigit value) ("Invalid " +:+ name +:+ " format: must be hex string").

Definition validate_measurements (m : ApprovedMeasurements) : M W unit :=
  validate_measurement_field "mrtd" (mrtd m) >>>
  validate_measurement_field "rtmr0" (rtmr0 m) >>>
  validate_measurement_field "rtmr1" (rtmr1 m) >>>
  validate_measurement_field "rtmr2" (rtmr2 m) >>>
  validate_measurement_field "rtmr3" (rtmr3 m).
End quotes.

Definition with_measurements (l : list ApprovedMeasurements) (m : ApprovedMeasurements)
    (clear_others : option bool) : list ApprovedMeasurements :=
  let l := if default false clear_others then [] else l in
  if bool_decide (m ∈ l) then l else l ++ [m].
Definition without_measurements (l : list ApprovedMeasurements) (m : ApprovedMeasurements)
    : list ApprovedMeasurements := filter (λ m', m' ≠ m) l.

Definition MAX_COLLATERALS : Z := 2.

Definition put_collateral {W} (l : list string) (collateral : string) (index : Z) : M W (list string) :=
  require (index <? MAX_COLLATERALS) "index must be < 2 (MAX_COLLATERALS)" >>>
  let i := Z.to_nat index in
  if index <? Z.of_nat (length l) then ret (<[i := collateral]> l)
  else if index =? Z.of_nat (length l) then ret (l ++ [collateral])
  else panic "Fill lower collateral indices first (no gaps allowed)".

(** * What the checks establish *)

(** The FMSPC of a collateral: twelve hex digits, the first ones after the first
    occurrence of the key. *)
Lemma collateral_fmspc_rest s pre rest :
  first_occurrence "fmspc" s pre rest →
  collateral_fmspc s =
    let gap := str_while (λ b, negb (is_ascii_hexdigit b)) rest in
    let hex := str_while is_ascii_hexdigit (str_drop (String.length gap) rest) in
    if 12 <=? str_len hex then Some (str_take 12 hex) else None.
Proof.
  intros Hf. pose proof (proj2 (str_find_spec "fmspc" s (String.length pre))
    (ex_intro _ pre (ex_intro _ rest (conj Hf eq_refl)))) as Hfind.
  destruct Hf as [Hs _]. unfold collateral_fmspc. rewrite Hfind. cbn [mbind option_bind].
  rewrite str_bytes_length.
  assert (str_drop (String.length pre + 5) s = rest) as Hrest.
  { rewrite Hs, <- str_drop_drop, str_drop_length_app. done. }
  rewrite (scan_while (λ b, negb (is_ascii_hexdigit b))) by lia. rewrite Hrest.
  set (gap := str_while _ rest). set (start := (_ + 5 + _)%nat).
  rewrite scan_while by lia.
  assert (str_drop start s = str_drop (String.length gap) rest) as ->.
  { unfold start. by rewrite <- str_drop_drop, Hrest. }
  destruct (str_while_split is_ascii_hexdigit (str_drop (String.length gap) rest)) as (post & Hd & _ & _).
  set (hex := str_while _ (str_drop _ rest)) in *. rewrite Hd.
  replace (start + String.length hex - start)%nat with (String.length hex) by lia.
  by rewrite str_take_length_app.
Qed.

Lemma first_occurrence_unique pat s pre rest pre' rest' :
  first_occurrence pat s pre rest → first_occurrence pat s pre' rest' → pre' = pre ∧ rest' = rest.
Proof.
  intros [Hs Hf] [Hs' Hf'].
  assert (String.length pre = String.length pre') as Hl.
  { apply Nat.le_antisymm; [by eapply Hf | by eapply Hf']. }
  rewrite Hs in Hs'. apply str_append_inj_len in Hs' as [-> Ht]; [|done].
  by apply str_append_inj_l in Ht as ->.
Qed.

Definition is_hex12 (f : string) : Prop :=
  String.length f = 12%nat ∧ forall_bytes is_ascii_hexdigit f = true.

Lemma hex12_take hex :
  forall_bytes is_ascii_hexdigit hex = true → (12 <= String.length hex)%nat → is_hex12 (str_take 12 hex).
Proof.
  intros Hh Hl. rewrite <- (str_take_drop 12 hex), forall_bytes_app in Hh. prop_bool.
  split; [|done]. by apply (str_take_length 12 hex).
Qed.

Section attested.
Context `{Platform} `{TeeVerifier}.

(** The quote's report data is the key's own: the key itself, or its hash. *)
Definition binds (t : Td10Report) (pk : PublicKey) : Prop :=
  match curve_type pk with
  | ED25519 => 32 ≤ str_len (key_data pk) ∧ str_take 32 (report_data t) = str_take 32 (key_data pk)
  | MLDSA65 => str_take 32 (report_data t) = sha256 (key_data pk)
  | SECP256K1 => False
  end.

Definition verifies (now : Z) (collateral quote_hex : string) (t : Td10Report) : Prop :=
  ∃ quote v col r, hex_decode quote_hex = Some quote ∧ json_from_str collateral = Some v ∧
    try_from_json v = ROk col ∧ verify_quote quote col (now / 1000000000) = Some r ∧
    status r = "UpToDate" ∧ advisory_ids r = [] ∧ as_td10 r = Some t.

(** The first cached slot of the quote's platform. *)
Definition slot_of (collaterals : list string) (quote_hex collateral : string) : Prop :=
  ∃ bytes quote fmspc, hex_decode quote_hex = Some bytes ∧ quote_parse bytes = Some quote ∧
    quote_fmspc quote = Some fmspc ∧
    head (filter (λ c, slot_matches (hex_encode fmspc) c = true) collaterals) = Some collateral.

Definition attested (now : Z) (collaterals : list string) (approved : list ApprovedMeasurements)
    (pk : PublicKey) (quote_hex : string) (m : ApprovedMeasurements) : Prop :=
  ∃ collateral t, slot_of collaterals quote_hex collateral ∧
    verifies now collateral quote_hex t ∧ m = hex_measurements t ∧ m ∈ approved ∧ binds t pk.

Lemma verify_tdx_quote_ok now quote_hex collateral m d :
  verify_tdx_quote now quote_hex collateral = ROk (m, d) ↔
  ∃ t, verifies now collateral quote_hex t ∧ m = hex_measurements t ∧ d = str_take 32 (report_data t).
Proof.
  unfold verify_tdx_quote, verifies. split.
  - intros (q & Hq%ok_or_ok & (v & Hv%ok_or_ok & (c & Hc & (r & Hr%ok_or_ok & Hk)%rbind_ok)%rbind_ok)%rbind_ok)%rbind_ok.
    destruct (try_from_json v) as [c'|] eqn:Et; [|done]. injection Hc as ->.
    case_bool_decide; [|done]. case_bool_decide; [|done]. cbn [negb] in Hk.
    apply rbind_ok in Hk as (t & Ht%ok_or_ok & [= <- <-]). exists t. split; [|done].
    exists q, v, c, r. done.
  - intros (t & (q & v & c & r & -> & Hv & Hc & Hr & Hs & Ha & Ht) & -> & ->). cbn. rewrite Hv. cbn.
    rewrite Hc. cbn. rewrite Hr. cbn. rewrite Hs, Ha, !bool_decide_eq_true_2 by done. cbn. by rewrite Ht.
Qed.

Lemma select_collateral_ok {W} collaterals quote_hex (w : W) c w' :
  select_collateral collaterals quote_hex w = Ok (c, w') ↔ slot_of collaterals quote_hex c ∧ w' = w.
Proof.
  unfold select_collateral, slot_of. split.
  - intros Hr. minv. split; [|done]. eauto 10.
  - intros [(b & q & f & Hb & Hq & Hf & Hh) ->]. unfold bind, require.
    rewrite bool_decide_eq_false_2 by (by intros ->). cbn. rewrite Hb. cbn. rewrite Hq. cbn. rewrite Hf. cbn.
    by rewrite Hh.
Qed.

(** The checks pass exactly for an attested key, and return its measurements. *)
Lemma check_attestation_ok {W} now collaterals approved pk quote_hex (w : W) m w' :
  check_attestation now collaterals approved pk quote_hex w = Ok (m, w') ↔
  attested now collaterals approved pk quote_hex m ∧ w' = w.
Proof.
  unfold check_attestation, attested, expected_binding, binds. split.
  - intros Hr. minv. apply select_collateral_ok in H1 as [Hs ->].
    destruct (verify_tdx_quote now quote_hex a) as [[m' d]|] eqn:E; minv.
    apply verify_tdx_quote_ok in E as (t & Hv & -> & ->).
    destruct (curve_type pk); minv; prop_bool; (split; [|done]); exists a, t; subst; by split_and!.
  - intros [(c & t & Hs & Hv & -> & Hm & Hb) ->]. unfold bind.
    rewrite (proj2 (select_collateral_ok _ _ _ _ _) (conj Hs eq_refl)).
    rewrite (proj2 (verify_tdx_quote_ok _ _ _ _ _) (ex_intro _ t (conj Hv (conj eq_refl eq_refl)))).
    cbn. rewrite bool_decide_eq_true_2 by done. cbn.
    destruct (curve_type pk); [|done|]; cbn.
    + destruct Hb as [Hl Hb]. rewrite (proj2 (Z.leb_le _ _)) by done. cbn. by rewrite bool_decide_eq_true_2.
    + by rewrite bool_decide_eq_true_2.
Qed.

Lemma attested_weaken now collaterals l l' pk q m :
  (∀ x, x ∈ l → x ∈ l') →
  attested now collaterals l pk q m → attested now collaterals l' pk q m.
Proof. intros Hl (c & t & Hs & Hv & Hm & Hin & Hb). exists c, t. split_and!; auto. Qed.

(** ** Collateral fields *)

Definition collateral_fields : list (string * bool) :=
  [("tcb_info_issuer_chain", false); ("tcb_info", false); ("tcb_info_signature", true);
   ("qe_identity_issuer_chain", false); ("qe_identity", false); ("qe_identity_signature", true);
   ("pck_crl_issuer_chain", false); ("root_ca_crl", true); ("pck_crl", true)].

(** What is wrong with one field, [true] marking the hex ones. *)
Definition field_error (v : json) (f : string * bool) : option CollateralError :=
  match json_get_str v f.1 with
  | None => Some (MissingField f.1)
  | Some s => if f.2 : bool then match hex_decode s with None => Some (HexDecode f.1) | Some _ => None end
              else None
  end.
End attested.

Section claims.
Context `{Platform} `{TeeVerifier}.

(** The byte scan that reads a cached collateral's FMSPC returns the twelve hex
    digits that come first after the first occurrence of the key, skipping whatever
    stands between, and nothing otherwise; its loops always end. *)
Theorem fmspc_scan_exact s f :
  collateral_fmspc s = Some f ↔
  ∃ pre gap post, first_occurrence "fmspc" s pre (gap +:+ f +:+ post) ∧
    forall_bytes (λ b, negb (is_ascii_hexdigit b)) gap = true ∧ is_hex12 f.
Proof.
  split.
  - intros Hc. destruct (str_find "fmspc" s) as [n|] eqn:E;
      [|by unfold collateral_fmspc in Hc; rewrite E in Hc].
    apply str_find_spec in E as (pre & rest & Hf & ->). rewrite (collateral_fmspc_rest _ _ _ Hf) in Hc.
    cbv zeta in Hc. destruct (str_while_split (λ b, negb (is_ascii_hexdigit b)) rest) as (r & Hr & Hg & _).
    set (gap := str_while _ rest) in *. rewrite Hr, str_drop_length_app in Hc.
    destruct (str_while_split is_ascii_hexdigit r) as (post & Hp & Hh & _).
    set (hex := str_while _ r) in *. destruct (12 <=? str_len hex) eqn:El; [|done]. injection Hc as <-.
    prop_bool. unfold str_len in El. exists pre, gap, (str_drop 12 hex +:+ post).
    rewrite <- (str_append_assoc (str_take 12 hex)), str_take_drop, <- Hp, <- Hr.
    split; [done|]. split; [done|]. apply hex12_take; [done | lia].
  - intros (pre & gap & post & Hf & Hg & Hl & Hh). rewrite (collateral_fmspc_rest _ _ _ Hf). cbv zeta.
    rewrite (str_while_app _ gap) by done.
    rewrite (str_while_stop _ is_ascii_hexdigit f post Hh);
      [|intros ->; discriminate|intros z Hz; by rewrite Hz].
    rewrite str_append_nil_r, str_drop_length_app, (str_while_app _ f) by done.
    rewrite (proj2 (Z.leb_le _ _)) by (rewrite str_len_append; unfold str_len; lia).
    by rewrite <- Hl, str_take_length_app.
Qed.

(** Parsing a collateral fails exactly when a required field is missing, is not
    a string or is not hex where hex is expected, and the error names the first
    such field; the certificate chain is optional. *)
Theorem collateral_error_exact v e :
  try_from_json v = RErr e ↔ head (omap (field_error v) collateral_fields) = Some e.
Proof.
  unfold try_from_json, collateral_fields, get_hex, get_str. cbn [omap list_omap].
  unfold field_error. cbn [fst snd].
  repeat (match goal with |- context [json_get_str v ?k] => destruct (json_get_str v k) eqn:?; cbn; [|naive_solver] end;
    repeat match goal with |- context [ok_or (hex_decode ?h)] => destruct (hex_decode h); cbn; [|naive_solver] end);
  done.
Qed.
End claims.
