(* ===== verification/TeeSamples.v ===== *)
(** A concrete platform and quote verifier the witnesses of the registration
    contracts run on. *)

From S2P Require Export Attestation Samples.

(** A platform whose JSON objects have every field empty, and a verifier that
    accepts a quote and reports its bytes as report data. *)
Definition tee_platform : Platform := {|
  platform_unicode := sample_unicode;
  json := string;
  json_from_str := Some;
  json_to_string := λ v, v;
  json_get_str := λ _ _, Some "";
  json_null := "null";
  json_quote := λ s, s;
  json_of_access := λ _, "access";
  json_ft_action := λ _, None;
  base64_encode := λ s, s;
  hex_encode := sample_hex_encode;
  hex_decode := sample_hex_decode;
  sha256 := λ s, str_take 32 s;
  ed25519_verify := λ _ _ _, false;
  ecrecover := λ _ _ _, None;
  account_id_valid := λ _, true;
|}.
Definition sample_register : string := "AAAAAAAAAAAAAAAAAAAAAAAAAAAAAAAAAAAAAAAAAAAAAAAA".
Definition tee_verifier : TeeVerifier := {|
  Quote := string;
  quote_parse := Some;
  quote_fmspc := λ _, Some "FMSPC1";
  verify_quote := λ q _ _, Some (mkReport "UpToDate" []
    (Some (mkTd10 sample_register sample_register sample_register sample_register sample_register q)));
|}.

Definition sample_measurements : ApprovedMeasurements :=
  let h := sample_hex_encode sample_register in mkMeasurements h h h h h.
Definition keystore_data : string := "0123456789abcdef0123456789abcdef".
Definition keystore_key : PublicKey := mkKey ED25519 keystore_data.
Definition keystore_quote : string := sample_hex_encode keystore_data.
