(* ===== verification/Dao.v ===== *)
(** The keystore DAO (keystore-dao-contract/src/lib.rs): registration of attested
    keystores by vote, revocation of their keys, cessation, the whitelist of vault
    code with its multisig, verified and banned vaults; and the account the
    contract runs on, whose access keys it manages. *)

From S2P Require Export Attestation.

(** * Data *)

Inductive ProposalStatus := Pending | Approved | Rejected | Executed.
#[export] Instance proposal_status_eq : EqDecision ProposalStatus.
Proof. solve_decision. Defined.

Record KeystoreProposal := mkProposal {
  kp_id : Z;
  kp_public_key : PublicKey;
  kp_measurements : ApprovedMeasurements;
  kp_submitter : AccountId;
  kp_created_at : Z;
  kp_votes_for : Z;
  kp_votes_against : Z;
  kp_status : ProposalStatus;
}.

Record RevokeKeysProposal := mkRevoke {
  rp_id : Z;
  rp_public_keys : list PublicKey;
  rp_proposer : AccountId;
  rp_created_at : Z;
  rp_votes_for : Z;
  rp_votes_against : Z;
  rp_status : ProposalStatus;
}.

Record VaultVersionInfo := mkVersionInfo {
  label : string;
  audit_url : option string;
  deprecated : bool;
  approved_at : Z;
}.

Record ApprovalArgs := mkArgs { args_label : string; args_audit_url : option string }.
#[export] Instance approval_args_eq : EqDecision ApprovalArgs.
Proof. solve_decision. Defined.

Inductive VaultVersionAction :=
| Approve (hash : CryptoHash)
| Revoke (hash : CryptoHash).
#[export] Instance vault_version_action_eq : EqDecision VaultVersionAction.
Proof. solve_decision. Defined.
#[export] Instance vault_version_action_countable : Countable VaultVersionAction.
Proof.
  refine (inj_countable' (λ a, match a with Approve h => inl h | Revoke h => inr h end)
    (λ s, match s with inl h => Approve h | inr h => Revoke h end) _). by intros [].
Defined.

Definition MAX_REVOKE_BATCH : Z := 16.
Definition KEYSTORE_METHODS : string := "request_key,mark_vault_verified,ban_vault".

(** An [UnorderedSet] is the vector of its elements. *)
Record KeystoreDao := mkDao {
  dao_members : list AccountId;
  approval_threshold : Z;
  dao_owner_id : AccountId;
  init_account_id : AccountId;
  mpc_contract_id : AccountId;
  proposals : gmap Z KeystoreProposal;
  next_proposal_id : Z;
  votes : gmap (Z * AccountId) bool;
  approved_keystores : list PublicKey;
  approved_measurements : list ApprovedMeasurements;
  collaterals : list string;
  ceased_operations : bool;
  approved_vault_code_hashes : list CryptoHash;
  vault_versions : gmap CryptoHash VaultVersionInfo;
  verified_vaults : list AccountId;
  banned_vaults : list AccountId;
  vault_version_votes : gmap VaultVersionAction (list AccountId);
  vault_version_approval_args : gmap CryptoHash ApprovalArgs;
  revoke_proposals : gmap Z RevokeKeysProposal;
}.

Definition eta_dao (d : KeystoreDao) : KeystoreDao :=
  mkDao (dao_members d) (approval_threshold d) (dao_owner_id d) (init_account_id d)
    (mpc_contract_id d) (proposals d) (next_proposal_id d) (votes d) (approved_keystores d)
    (approved_measurements d) (collaterals d) (ceased_operations d) (approved_vault_code_hashes d)
    (vault_versions d) (verified_vaults d) (banned_vaults d) (vault_version_votes d)
    (vault_version_approval_args d) (revoke_proposals d).
#[export] Instance set_dao_members : Setter dao_members := ltac:(derive_setter eta_dao).
#[export] Instance set_approval_threshold : Setter approval_threshold := ltac:(derive_setter eta_dao).
#[export] Instance set_proposals : Setter proposals := ltac:(derive_setter eta_dao).
#[export] Instance set_next_proposal_id : Setter next_proposal_id := ltac:(derive_setter eta_dao).
#[export] Instance set_votes : Setter votes := ltac:(derive_setter eta_dao).
#[export] Instance set_approved_keystores : Setter approved_keystores := ltac:(derive_setter eta_dao).
#[export] Instance set_approved_measurements : Setter approved_measurements :=
  ltac:(derive_setter eta_dao).
#[export] Instance set_collaterals : Setter collaterals := ltac:(derive_setter eta_dao).
#[export] Instance set_ceased_operations : Setter ceased_operations := ltac:(derive_setter eta_dao).
#[export] Instance set_approved_vault_code_hashes : Setter approved_vault_code_hashes :=
  ltac:(derive_setter eta_dao).
#[export] Instance set_vault_versions : Setter vault_versions := ltac:(derive_setter eta_dao).
#[export] Instance set_verified_vaults : Setter verified_vaults := ltac:(derive_setter eta_dao).
#[export] Instance set_banned_vaults : Setter banned_vaults := ltac:(derive_setter eta_dao).
#[export] Instance set_vault_version_votes : Setter vault_version_votes := ltac:(derive_setter eta_dao).
#[export] Instance set_vault_version_approval_args : Setter vault_version_approval_args :=
  ltac:(derive_setter eta_dao).
#[export] Instance set_revoke_proposals : Setter revoke_proposals := ltac:(derive_setter eta_dao).

(** The request of [request_key], with the key and the path it carries. *)
Record CKDRequestArgs := mkCKD {
  derivation_path : string;
  app_public_key : string;
  domain_id : Z;
}.

Inductive DaoAction :=
| DaoKeys (batch : list KeyAction)
| CallMpc (mpc : AccountId) (request : CKDRequestArgs) (deposit : Z)
| DaoLog (msg : string).

Abbreviation DW := (World KeystoreDao DaoAction).
Abbreviation DM := (M (World KeystoreDao DaoAction)).

(** [x as u32]. *)
Definition as_u32 (z : Z) : Z := z mod 2 ^ 32.

(** * Methods *)

Definition dao_no_deposit (e : Env) : DM unit :=
  require (attached_deposit e =? 0) "Method doesn't accept deposit".
Definition assert_owner (e : Env) : DM unit :=
  let! d := get_st in
  require (bool_decide (predecessor_account_id e = dao_owner_id d)) "Only owner can call this method".
Definition assert_dao_member (e : Env) : DM unit :=
  let! d := get_st in
  require (bool_decide (predecessor_account_id e ∈ dao_members d))
    "only DAO members can call this method".

Definition majority (n : Z) : Z := as_u32 n / 2 + 1.
Definition set_length {A} (l : list A) : Z := Z.of_nat (length l).

Definition new_dao (e : Env) (owner_id init_account_id : AccountId) (members : list AccountId)
    (mpc_contract_id : AccountId) : option KeystoreDao :=
  if (attached_deposit e =? 0) && negb (bool_decide (members = [])) then
    Some {| dao_members := set_from members;
            approval_threshold := majority (set_length members);
            dao_owner_id := owner_id;
            init_account_id := init_account_id;
            mpc_contract_id := mpc_contract_id;
            proposals := ∅; next_proposal_id := 1; votes := ∅;
            approved_keystores := []; approved_measurements := []; collaterals := [];
            ceased_operations := false; approved_vault_code_hashes := []; vault_versions := ∅;
            verified_vaults := []; banned_vaults := []; vault_version_votes := ∅;
            vault_version_approval_args := ∅; revoke_proposals := ∅ |}
  else None.

Section methods.
Context `{Platform} `{TeeVerifier}.

Definition submit_keystore_registration (e : Env) (public_key : PublicKey) (tdx_quote_hex : string)
    (app_id : option string) : DM Z :=
  dao_no_deposit e >>>
  let! d := get_st in
  require (bool_decide (predecessor_account_id e = init_account_id d))
    "Only the init account can submit registrations" >>>
  require (negb (bool_decide (public_key ∈ approved_keystores d))) "Keystore already approved" >>>
  let! measurements := check_attestation (block_timestamp e) (collaterals d)
    (approved_measurements d) public_key tdx_quote_hex in
  let proposal_id := next_proposal_id d in
  let proposal := mkProposal proposal_id public_key measurements (predecessor_account_id e)
    (block_timestamp e) 0 0 Pending in
  let! next := add64 proposal_id 1 in
  modify (λ d, d <| proposals := <[proposal_id := proposal]> (proposals d) |>
                 <| next_proposal_id := next |>) >>>
  emit (DaoLog "Created proposal for keystore registration") >>>
  ret proposal_id.

(** The votes of the current members on a proposal. *)
Definition voted (d : KeystoreDao) (proposal_id : Z) (b : bool) (member : AccountId) : bool :=
  bool_decide (votes d !! (proposal_id, member) = Some b).
Definition live_count (d : KeystoreDao) (proposal_id : Z) (b : bool) : Z :=
  set_length (filter (λ m, voted d proposal_id b m = true) (dao_members d)).

Definition execute_proposal (e : Env) (proposal_id : Z) (proposal : KeystoreProposal) : DM unit :=
  require (bool_decide (kp_status proposal = Approved)) "Proposal is not approved" >>>
  emit (DaoKeys [AddKey (kp_public_key proposal)
          (FunctionCallKey None (current_account_id e) KEYSTORE_METHODS)]) >>>
  let executed := mkProposal (kp_id proposal) (kp_public_key proposal) (kp_measurements proposal)
    (kp_submitter proposal) (kp_created_at proposal) (kp_votes_for proposal)
    (kp_votes_against proposal) Executed in
  modify (λ d, d <| proposals := <[proposal_id := executed]> (proposals d) |>
                 <| approved_keystores := set_insert (kp_public_key proposal) (approved_keystores d) |>) >>>
  emit (DaoLog "Executed proposal: Added keystore access key").

(** One key of a revocation: a key that is gone already is skipped. *)
Definition revoke_one (public_key : PublicKey) : DM unit :=
  let! d := get_st in
  if negb (bool_decide (public_key ∈ approved_keystores d)) then ret tt else
  modify (λ d, d <| approved_keystores := set_remove public_key (approved_keystores d) |>) >>>
  emit (DaoKeys [DeleteKey public_key]) >>>
  emit (DaoLog "Revoked keystore key").

Definition execute_revoke (proposal_id : Z) (proposal : RevokeKeysProposal) : DM unit :=
  for_each (rp_public_keys proposal) revoke_one >>>
  modify (λ d, d <| revoke_proposals := <[proposal_id := proposal]> (revoke_proposals d) |>) >>>
  emit (DaoLog "Executed revoke proposal").

(** Records a vote, once per member and proposal. *)
Definition record_vote (proposal_id : Z) (voter : AccountId) (approve : bool) : DM unit :=
  let! d := get_st in
  require (bool_decide (votes d !! (proposal_id, voter) = None)) "Already voted on this proposal" >>>
  modify (λ d, d <| votes := <[(proposal_id, voter) := approve]> (votes d) |>).

Definition count_vote (approve : bool) (for_ against : Z) : DM (Z * Z) :=
  if approve then let! f := checked 32 (for_ + 1) in ret (f, against)
  else let! a := checked 32 (against + 1) in ret (for_, a).

(** Whether the recorded votes decide a proposal: [Some true] for, [Some false] against. *)
Definition decision (proposal_id : Z) : DM (option bool) :=
  let! d := get_st in
  if approval_threshold d <=? live_count d proposal_id true then ret (Some true) else
  let! slack := checked 32 (as_u32 (set_length (dao_members d)) - approval_threshold d) in
  if slack <? live_count d proposal_id false then ret (Some false) else ret None.

Definition internal_vote_revoke (e : Env) (proposal_id : Z) (approve : bool) : DM unit :=
  let! d := get_st in
  let! p := unwrap (revoke_proposals d !! proposal_id) "Revoke proposal not found" in
  require (bool_decide (rp_status p = Pending)) "Proposal is not pending" >>>
  record_vote proposal_id (predecessor_account_id e) approve >>>
  let! '(f, a) := count_vote approve (rp_votes_for p) (rp_votes_against p) in
  let with_status s := mkRevoke (rp_id p) (rp_public_keys p) (rp_proposer p) (rp_created_at p) f a s in
  let! outcome := decision proposal_id in
  match outcome with
  | Some true => execute_revoke proposal_id (with_status Executed)
  | Some false =>
    modify (λ d, d <| revoke_proposals := <[proposal_id := with_status Rejected]> (revoke_proposals d) |>) >>>
    emit (DaoLog "Revoke proposal rejected")
  | None =>
    modify (λ d, d <| revoke_proposals := <[proposal_id := with_status Pending]> (revoke_proposals d) |>) >>>
    emit (DaoLog "revoke_vote")
  end.

Definition vote (e : Env) (proposal_id : Z) (approve : bool) : DM unit :=
  dao_no_deposit e >>>
  let! d := get_st in
  require (bool_decide (predecessor_account_id e ∈ dao_members d)) "Only DAO members can vote" >>>
  if bool_decide (is_Some (revoke_proposals d !! proposal_id))
  then internal_vote_revoke e proposal_id approve else
  let! p := unwrap (proposals d !! proposal_id) "Proposal not found" in
  require (bool_decide (kp_status p = Pending)) "Proposal is not pending" >>>
  record_vote proposal_id (predecessor_account_id e) approve >>>
  let! '(f, a) := count_vote approve (kp_votes_for p) (kp_votes_against p) in
  let with_status s := mkProposal (kp_id p) (kp_public_key p) (kp_measurements p) (kp_submitter p)
    (kp_created_at p) f a s in
  let! outcome := decision proposal_id in
  match outcome with
  | Some true =>
    emit (DaoLog "Proposal approved") >>>
    execute_proposal e proposal_id (with_status Approved)
  | Some false =>
    modify (λ d, d <| proposals := <[proposal_id := with_status Rejected]> (proposals d) |>) >>>
    emit (DaoLog "Proposal rejected")
  | None =>
    modify (λ d, d <| proposals := <[proposal_id := with_status Pending]> (proposals d) |>)
  end.

(** Each key approved and none twice, checked in order. *)
Fixpoint check_revocable (d : KeystoreDao) (seen keys : list PublicKey) : DM unit :=
  match keys with
  | [] => ret tt
  | k :: keys =>
    require (bool_decide (k ∈ approved_keystores d))
      "Key not in approved_keystores: only DAO-installed keystore keys can be revoked" >>>
    require (negb (bool_decide (k ∈ seen))) "Duplicate key in public_keys" >>>
    check_revocable d (seen ++ [k]) keys
  end.

Definition propose_revoke_keystore_keys (e : Env) (public_keys : list PublicKey) : DM Z :=
  dao_no_deposit e >>>
  assert_dao_member e >>>
  require (negb (bool_decide (public_keys = []))) "public_keys must not be empty" >>>
  require (set_length public_keys <=? MAX_REVOKE_BATCH) "Too many keys in one proposal" >>>
  let! d := get_st in
  check_revocable d [] public_keys >>>
  let proposal_id := next_proposal_id d in
  let! next := add64 proposal_id 1 in
  let proposal := mkRevoke proposal_id public_keys (predecessor_account_id e) (block_timestamp e)
    0 0 Pending in
  modify (λ d, d <| next_proposal_id := next |>
                 <| revoke_proposals := <[proposal_id := proposal]> (revoke_proposals d) |>) >>>
  emit (DaoLog "Created revoke proposal") >>>
  internal_vote_revoke e proposal_id true >>>
  ret proposal_id.

(** ** The owner's methods *)

Definition add_approved_measurements (e : Env) (m : ApprovedMeasurements) (clear_others : option bool)
    : DM unit :=
  dao_no_deposit e >>> assert_owner e >>>
  validate_measurements m >>>
  modify (λ d, d <| approved_measurements := with_measurements (approved_measurements d) m clear_others |>) >>>
  emit (DaoLog "Approved measurements added").
Definition clear_all_approved_measurements (e : Env) : DM unit :=
  dao_no_deposit e >>> assert_owner e >>>
  modify (λ d, d <| approved_measurements := [] |>) >>>
  emit (DaoLog "Cleared all measurement entries").
Definition remove_approved_measurements (e : Env) (m : ApprovedMeasurements) : DM unit :=
  dao_no_deposit e >>> assert_owner e >>>
  modify (λ d, d <| approved_measurements := without_measurements (approved_measurements d) m |>) >>>
  emit (DaoLog "Approved measurements removed").

Definition add_dao_member (e : Env) (member : AccountId) : DM unit :=
  dao_no_deposit e >>> assert_owner e >>>
  modify (λ d, d <| dao_members := set_insert member (dao_members d) |>) >>>
  modify (λ d, d <| approval_threshold := majority (set_length (dao_members d)) |>) >>>
  emit (DaoLog "Added DAO member").
Definition remove_dao_member (e : Env) (member : AccountId) : DM unit :=
  dao_no_deposit e >>> assert_owner e >>>
  let! d := get_st in
  require (1 <? set_length (dao_members d)) "Cannot remove last DAO member" >>>
  modify (λ d, d <| dao_members := set_remove member (dao_members d) |>) >>>
  modify (λ d, d <| approval_threshold := majority (set_length (dao_members d)) |>) >>>
  emit (DaoLog "Removed DAO member").

Definition update_collateral (e : Env) (collateral : string) (index : Z) : DM unit :=
  dao_no_deposit e >>> assert_owner e >>>
  let! d := get_st in
  let! l := put_collateral (collaterals d) collateral index in
  modify (λ d, d <| collaterals := l |>) >>>
  emit (DaoLog "Quote collateral updated").

(** ** Keys, cessation, vault versions *)

Definition self_call (e : Env) : DM unit :=
  require (bool_decide (predecessor_account_id e = current_account_id e))
    "must be called via an approved-keystore access key on this contract".

Definition request_key (e : Env) (request : CKDRequestArgs) : DM unit :=
  self_call e >>>
  let! d := get_st in
  emit (CallMpc (mpc_contract_id d) request 1).

Definition declare_cessation (e : Env) : DM unit :=
  dao_no_deposit e >>> assert_dao_member e >>>
  let! d := get_st in
  require (negb (ceased_operations d)) "already ceased" >>>
  modify (λ d, d <| ceased_operations := true |>) >>>
  emit (DaoLog "cessation_declared").
Definition revoke_cessation (e : Env) : DM unit :=
  dao_no_deposit e >>> assert_dao_member e >>>
  let! d := get_st in
  require (ceased_operations d) "not currently ceased" >>>
  modify (λ d, d <| ceased_operations := false |>) >>>
  emit (DaoLog "cessation_revoked").

Definition internal_approve_vault_version (e : Env) (hash : CryptoHash) (label : string)
    (audit_url : option string) : DM unit :=
  modify (λ d, d <| approved_vault_code_hashes := set_insert hash (approved_vault_code_hashes d) |>
                 <| vault_versions :=
                      <[hash := mkVersionInfo label audit_url false (block_timestamp e)]> (vault_versions d) |>) >>>
  emit (DaoLog "vault_version_approved").
Definition internal_revoke_vault_version (hash : CryptoHash) : DM unit :=
  modify (λ d, d <| approved_vault_code_hashes := set_remove hash (approved_vault_code_hashes d) |>
                 <| vault_versions := delete hash (vault_versions d) |>) >>>
  emit (DaoLog "vault_version_revoked").

(** The ledger of an action with the stale votes dropped and the voter's added. *)
Definition tally (d : KeystoreDao) (action : VaultVersionAction) (voter : AccountId) : list AccountId :=
  let voters := filter (λ v, v ∈ dao_members d) (default [] (vault_version_votes d !! action)) in
  if bool_decide (voter ∈ voters) then voters else voters ++ [voter].

(** The first proposer's metadata binds the later voters. *)
Definition lock_args (hash : CryptoHash) (proposed : ApprovalArgs) : DM unit :=
  let! d := get_st in
  match vault_version_approval_args d !! hash with
  | Some existing =>
    require (bool_decide (existing = proposed))
      "approve_vault_version: a proposal for hash is already in flight"
  | None =>
    modify (λ d, d <| vault_version_approval_args := <[hash := proposed]> (vault_version_approval_args d) |>)
  end.

Definition approve_vault_version (e : Env) (hash : CryptoHash) (label : string)
    (audit_url : option string) : DM Z :=
  dao_no_deposit e >>>
  assert_dao_member e >>>
  require (str_len label <=? 64) "label must be at most 64 bytes" >>>
  require (from_option (λ url, str_len url <=? 256) true audit_url) "audit_url must be at most 256 bytes" >>>
  let proposed := mkArgs label audit_url in
  lock_args hash proposed >>>
  let! d := get_st in
  let voters := tally d (Approve hash) (predecessor_account_id e) in
  let count := as_u32 (set_length voters) in
  (if approval_threshold d <=? count then
     modify (λ d, d <| vault_version_votes := delete (Approve hash) (vault_version_votes d) |>
                    <| vault_version_approval_args := delete hash (vault_version_approval_args d) |>) >>>
     internal_approve_vault_version e hash label audit_url
   else
     modify (λ d, d <| vault_version_votes := <[Approve hash := voters]> (vault_version_votes d) |>) >>>
     emit (DaoLog "vault_version_approval_vote")) >>>
  ret count.

Definition deprecate_vault_version (e : Env) (hash : CryptoHash) : DM unit :=
  dao_no_deposit e >>> assert_dao_member e >>>
  let! d := get_st in
  let! info := unwrap (vault_versions d !! hash) "vault version not found" in
  modify (λ d, d <| vault_versions :=
    <[hash := mkVersionInfo (label info) (audit_url info) true (approved_at info)]> (vault_versions d) |>) >>>
  emit (DaoLog "vault_version_deprecated").

Definition revoke_vault_version (e : Env) (hash : CryptoHash) : DM Z :=
  dao_no_deposit e >>>
  assert_dao_member e >>>
  let! d := get_st in
  let voters := tally d (Revoke hash) (predecessor_account_id e) in
  let count := as_u32 (set_length voters) in
  (if approval_threshold d <=? count then
     modify (λ d, d <| vault_version_votes := delete (Revoke hash) (vault_version_votes d) |>) >>>
     internal_revoke_vault_version hash
   else
     modify (λ d, d <| vault_version_votes := <[Revoke hash := voters]> (vault_version_votes d) |>) >>>
     emit (DaoLog "vault_version_revoke_vote")) >>>
  ret count.

(** ** Verified and banned vaults *)

Definition mark_vault_verified (e : Env) (vault_id : AccountId) : DM unit :=
  dao_no_deposit e >>>
  self_call e >>>
  let! d := get_st in
  require (negb (bool_decide (vault_id ∈ banned_vaults d))) "vault is banned" >>>
  modify (λ d, d <| verified_vaults := set_insert vault_id (verified_vaults d) |>) >>>
  emit (DaoLog ("vault_verified " +:+ vault_id)).
(** The double quote. *)
Definition QUOTE : string := String "034" EmptyString.
Definition ban_vault (e : Env) (vault_id : AccountId) (reason : string) : DM unit :=
  dao_no_deposit e >>>
  let! d := get_st in
  require (bool_decide (predecessor_account_id e = current_account_id e)
           || bool_decide (predecessor_account_id e ∈ dao_members d))
    "ban_vault: only an approved keystore or a DAO member can ban a vault" >>>
  require (str_len reason <=? 256) "ban reason must be at most 256 bytes" >>>
  modify (λ d, d <| banned_vaults := set_insert vault_id (banned_vaults d) |>) >>>
  emit (DaoLog ("vault_banned " +:+ vault_id +:+ " reason=" +:+ QUOTE +:+ reason +:+ QUOTE)).
Definition unban_vault (e : Env) (vault_id : AccountId) : DM unit :=
  dao_no_deposit e >>> assert_dao_member e >>>
  modify (λ d, d <| banned_vaults := set_remove vault_id (banned_vaults d) |>) >>>
  emit (DaoLog ("vault_unbanned " +:+ vault_id)).

(** ** Views *)

Definition get_proposal (d : KeystoreDao) (id : Z) : option KeystoreProposal := proposals d !! id.
Definition get_revoke_proposal (d : KeystoreDao) (id : Z) : option RevokeKeysProposal :=
  revoke_proposals d !! id.
Definition get_proposals (d : KeystoreDao) (from_index limit : Z) : list KeystoreProposal :=
  let until := Z.min (saturating_add 64 from_index limit) (next_proposal_id d) in
  omap (λ i, proposals d !! i) (seqZ from_index (until - from_index)).
Definition get_dao_members (d : KeystoreDao) : list AccountId := dao_members d.
Definition get_approved_keystores (d : KeystoreDao) (from_index limit : Z) : list PublicKey :=
  take (Z.to_nat limit) (drop (Z.to_nat from_index) (approved_keystores d)).
Definition is_measurements_approved (d : KeystoreDao) (m : ApprovedMeasurements) : bool :=
  bool_decide (m ∈ approved_measurements d).
Definition is_ceased (d : KeystoreDao) : bool := ceased_operations d.
Definition get_vault_version_votes (d : KeystoreDao) (action : VaultVersionAction) : Z :=
  from_option (λ v, as_u32 (set_length v)) 0 (vault_version_votes d !! action).
Definition is_vault_code_approved (d : KeystoreDao) (hash : CryptoHash) : bool :=
  bool_decide (hash ∈ approved_vault_code_hashes d).
Definition list_approved_vault_versions (d : KeystoreDao) : list (CryptoHash * VaultVersionInfo) :=
  omap (λ h, (λ info, (h, info)) <$> vault_versions d !! h) (approved_vault_code_hashes d).
Definition is_vault_verified (d : KeystoreDao) (vault_id : AccountId) : bool :=
  bool_decide (vault_id ∈ verified_vaults d) && negb (bool_decide (vault_id ∈ banned_vaults d)).
Definition is_vault_banned (d : KeystoreDao) (vault_id : AccountId) : bool :=
  bool_decide (vault_id ∈ banned_vaults d).
End methods.

(** near-sdk's parser of a key's text form. *)
Class KeyText := {
  parse_public_key : string → option PublicKey;
  print_public_key : PublicKey → string;
}.
Definition is_keystore_approved `{KeyText} (d : KeystoreDao) (public_key : string) : bool :=
  match parse_public_key public_key with
  | Some parsed_key => bool_decide (parsed_key ∈ approved_keystores d)
  | None => false
  end.

(** * The account: calls, keys and outstanding key batches *)

Inductive DaoCall :=
| SubmitRegistration (key : PublicKey) (tdx_quote_hex : string) (app_id : option string)
| Vote (proposal_id : Z) (approve : bool)
| ProposeRevoke (keys : list PublicKey)
| AddMeasurements (m : ApprovedMeasurements) (clear_others : option bool)
| ClearMeasurements
| RemoveMeasurements (m : ApprovedMeasurements)
| AddMember (member : AccountId)
| RemoveMember (member : AccountId)
| UpdateCollateral (collateral : string) (index : Z)
| RequestKey (request : CKDRequestArgs)
| DeclareCessation
| RevokeCessation
| ApproveVersion (hash : CryptoHash) (label : string) (audit_url : option string)
| DeprecateVersion (hash : CryptoHash)
| RevokeVersion (hash : CryptoHash)
| MarkVerified (vault_id : AccountId)
| BanVault (vault_id : AccountId) (reason : string)
| UnbanVault (vault_id : AccountId).

Definition method_name (call : DaoCall) : string :=
  match call with
  | SubmitRegistration _ _ _ => "submit_keystore_registration"
  | Vote _ _ => "vote"
  | ProposeRevoke _ => "propose_revoke_keystore_keys"
  | AddMeasurements _ _ => "add_approved_measurements"
  | ClearMeasurements => "clear_all_approved_measurements"
  | RemoveMeasurements _ => "remove_approved_measurements"
  | AddMember _ => "add_dao_member"
  | RemoveMember _ => "remove_dao_member"
  | UpdateCollateral _ _ => "update_collateral"
  | RequestKey _ => "request_key"
  | DeclareCessation => "declare_cessation"
  | RevokeCessation => "revoke_cessation"
  | ApproveVersion _ _ _ => "approve_vault_version"
  | DeprecateVersion _ => "deprecate_vault_version"
  | RevokeVersion _ => "revoke_vault_version"
  | MarkVerified _ => "mark_vault_verified"
  | BanVault _ _ => "ban_vault"
  | UnbanVault _ => "unban_vault"
  end.

Record DaoSys := mkDaoSys {
  dao : KeystoreDao;
  dao_account : AccountId;
  dao_keys : Keys;
  key_batches : list (list KeyAction);
}.

(** A call, signed with one of the account's own keys when it is the account that
    calls; or the execution of a key batch, which may fail. *)
Inductive DaoEvent :=
| DCall (signed_with : option PublicKey) (e : Env) (call : DaoCall)
| DKeys (i : nat) (fails : bool).

Section account.
Context `{Platform} `{TeeVerifier}.

Definition run_dao_call (e : Env) (call : DaoCall) : DM unit :=
  match call with
  | SubmitRegistration k q app => submit_keystore_registration e k q app >>> ret tt
  | Vote id b => vote e id b
  | ProposeRevoke l => propose_revoke_keystore_keys e l >>> ret tt
  | AddMeasurements m c => add_approved_measurements e m c
  | ClearMeasurements => clear_all_approved_measurements e
  | RemoveMeasurements m => remove_approved_measurements e m
  | AddMember a => add_dao_member e a
  | RemoveMember a => remove_dao_member e a
  | UpdateCollateral c i => update_collateral e c i
  | RequestKey r => request_key e r
  | DeclareCessation => declare_cessation e
  | RevokeCessation => revoke_cessation e
  | ApproveVersion h l u => approve_vault_version e h l u >>> ret tt
  | DeprecateVersion h => deprecate_vault_version e h
  | RevokeVersion h => revoke_vault_version e h >>> ret tt
  | MarkVerified v => mark_vault_verified e v
  | BanVault v r => ban_vault e v r
  | UnbanVault v => unban_vault e v
  end.

Definition batches_of (a : DaoAction) : list (list KeyAction) :=
  match a with DaoKeys b => [b] | _ => [] end.

(** The contract issues no call to itself, so a call of its own account is signed
    with one of its keys. *)
Definition admissible (s : DaoSys) (signed_with : option PublicKey) (e : Env) (call : DaoCall) : bool :=
  bool_decide (current_account_id e = dao_account s) &&
  (negb (bool_decide (predecessor_account_id e = dao_account s)) ||
   key_permits (dao_keys s) signed_with (dao_account s) (method_name call) (attached_deposit e)).

Definition dao_step (s : DaoSys) (ev : DaoEvent) : DaoSys :=
  match ev with
  | DCall k e call =>
    if negb (admissible s k e call) then s else
    match run_dao_call e call (mkWorld (dao s) []) with
    | Ok (_, w') => mkDaoSys (st w') (dao_account s) (dao_keys s) (key_batches s ++ (out w' ≫= batches_of))
    | Panic _ => s
    end
  | DKeys i fails =>
    match key_batches s !! i with
    | Some batch =>
      let done := if fails : bool then None else apply_batch (dao_keys s) batch in
      mkDaoSys (dao s) (dao_account s) (default (dao_keys s) done) (delete i (key_batches s))
    | None => s
    end
  end.

Definition dao_run (s : DaoSys) (evs : list DaoEvent) : DaoSys := foldl dao_step s evs.
End account.
