(* ===== verification/DaoHistory.v ===== *)
(** What the keystore DAO guarantees over any sequence of calls and key batches:
    who was approved by whom, which keys its account carries and which vault code
    is whitelisted, each with the calls that must have led there. *)

From S2P Require Export Dao TeeSamples.

(** * What must have happened *)

Section history.
Context `{Platform} `{TeeVerifier}.
Abbreviation Events := (list DaoEvent).
Implicit Types (evs pre post : Events) (a : AccountId).

(** The freshly deployed account. *)
Variable s0 : DaoSys.

Definition dao_at (evs : Events) : DaoSys := dao_run s0 evs.

(** [a], a member at the time, made the call. *)
Definition member_called (evs : Events) (a : AccountId) (P : KeystoreDao → DaoCall → Prop) : Prop :=
  ∃ pre k e call post, evs = pre ++ DCall k e call :: post ∧ predecessor_account_id e = a ∧
    a ∈ dao_members (dao (dao_at pre)) ∧ P (dao (dao_at pre)) call.

(** [a] voted [b] on proposal [id], or opened it as a revocation. *)
Definition cast (id : Z) (b : bool) (evs : Events) (a : AccountId) : Prop :=
  member_called evs a (λ d call, call = Vote id b ∨
    b = true ∧ id = next_proposal_id d ∧ ∃ keys, call = ProposeRevoke keys).

(** [a] called for a vault-version action; approvals carry their metadata. *)
Definition version_call (action : VaultVersionAction) (g : ApprovalArgs) : DaoCall :=
  match action with
  | Approve h => ApproveVersion h (args_label g) (args_audit_url g)
  | Revoke h => RevokeVersion h
  end.
Definition backed (action : VaultVersionAction) (g : ApprovalArgs) (evs : Events) (a : AccountId) : Prop :=
  member_called evs a (λ _ call, call = version_call action g).

(** More than half of the members of a moment had done [P] by the end of it. *)
Definition elected (evs : Events) (P : Events → AccountId → Prop) : Prop :=
  ∃ pre ev post l, evs = pre ++ ev :: post ∧ NoDup l ∧
    (∀ a, a ∈ l → a ∈ dao_members (dao (dao_at pre)) ∧ P (pre ++ [ev]) a) ∧
    set_length (dao_members (dao (dao_at pre))) < 2 * set_length l.

(** The init account registered [pk] with a quote that verified at the time, with
    measurements approved at the time, and got proposal [id]. *)
Definition submitted (evs : Events) (id : Z) (pk : PublicKey) (m : ApprovedMeasurements) : Prop :=
  ∃ pre k e quote app post, evs = pre ++ DCall k e (SubmitRegistration pk quote app) :: post ∧
    predecessor_account_id e = init_account_id (dao s0) ∧
    id = next_proposal_id (dao (dao_at pre)) ∧
    attested (block_timestamp e) (collaterals (dao (dao_at pre)))
      (approved_measurements (dao (dao_at pre))) pk quote m.

Definition approved_by_vote (evs : Events) (pk : PublicKey) : Prop :=
  ∃ id m, submitted evs id pk m ∧ elected evs (cast id true).

Lemma member_called_app evs more a P : member_called evs a P → member_called (evs ++ more) a P.
Proof.
  intros (pre & k & e & call & post & -> & Hr). exists pre, k, e, call, (post ++ more).
  split; [by rewrite <- app_assoc | done].
Qed.
Lemma cast_app id b evs more a : cast id b evs a → cast id b (evs ++ more) a.
Proof. apply member_called_app. Qed.
Lemma backed_app action g evs more a : backed action g evs a → backed action g (evs ++ more) a.
Proof. apply member_called_app. Qed.
Lemma elected_app evs more P : elected evs P → elected (evs ++ more) P.
Proof.
  intros (pre & ev & post & l & -> & Hr). exists pre, ev, (post ++ more), l.
  split; [by rewrite <- app_assoc | done].
Qed.
Lemma submitted_app evs more id pk m : submitted evs id pk m → submitted (evs ++ more) id pk m.
Proof.
  intros (pre & k & e & q & app & post & -> & Hr). exists pre, k, e, q, app, (post ++ more).
  split; [by rewrite <- app_assoc | done].
Qed.
Lemma approved_by_vote_app evs more pk : approved_by_vote evs pk → approved_by_vote (evs ++ more) pk.
Proof. intros (id & m & Hs & He). exists id, m. auto using submitted_app, elected_app. Qed.

(** ** The invariant *)

(** A quorum is more than half of the members. *)
Record quorum_ok (d : KeystoreDao) : Prop := {
  qo_nodup : NoDup (dao_members d);
  qo_majority : set_length (dao_members d) < 2 * approval_threshold d;
}.

Record registry_ok (evs : Events) (d : KeystoreDao) : Prop := {
  ro_init : init_account_id d = init_account_id (dao s0);
  ro_fresh : ∀ id, next_proposal_id d ≤ id →
    proposals d !! id = None ∧ revoke_proposals d !! id = None ∧ ∀ a, votes d !! (id, a) = None;
  ro_kind : ∀ id, is_Some (proposals d !! id) → revoke_proposals d !! id = None;
  ro_votes : ∀ id a b, votes d !! (id, a) = Some b → cast id b evs a;
  ro_proposals : ∀ id p, proposals d !! id = Some p →
    kp_id p = id ∧ submitted evs id (kp_public_key p) (kp_measurements p);
  ro_revocations : ∀ id p, revoke_proposals d !! id = Some p → rp_id p = id;
  ro_nodup : NoDup (approved_keystores d);
  ro_approved : ∀ pk, pk ∈ approved_keystores d → approved_by_vote evs pk;
}.

Record versions_ok (evs : Events) (d : KeystoreDao) : Prop := {
  vo_ledger : ∀ action voters, vault_version_votes d !! action = Some voters →
    NoDup voters ∧ ∃ g, (∀ a, a ∈ voters → backed action g evs a) ∧
      ∀ h, action = Approve h → vault_version_approval_args d !! h = Some g;
  vo_hashes : NoDup (approved_vault_code_hashes d);
  vo_elected : ∀ h, h ∈ approved_vault_code_hashes d → ∃ info, vault_versions d !! h = Some info ∧
    elected evs (backed (Approve h) (mkArgs (label info) (audit_url info)));
}.

Definition batch_ok (evs : Events) (batch : list KeyAction) : Prop :=
  ∃ pk, approved_by_vote evs pk ∧
    (batch = [AddKey pk (FunctionCallKey None (dao_account s0) KEYSTORE_METHODS)] ∨
     batch = [DeleteKey pk]).

Record dao_history_ok (evs : Events) (s : DaoSys) : Prop := {
  dh_account : dao_account s = dao_account s0;
  dh_quorum : quorum_ok (dao s);
  dh_registry : registry_ok evs (dao s);
  dh_versions : versions_ok evs (dao s);
  dh_batches : Forall (batch_ok evs) (key_batches s);
  dh_keys : ∀ k scope, dao_keys s !! k = Some scope → dao_keys s0 !! k = Some scope ∨
    scope = FunctionCallKey None (dao_account s0) KEYSTORE_METHODS ∧ approved_by_vote evs k;
}.

Lemma registry_app evs more d : registry_ok evs d → registry_ok (evs ++ more) d.
Proof.
  intros [? ? ? Hv Hp ? ? Ha]. constructor; try done.
  - intros id a b Hb. by apply cast_app, Hv.
  - intros id p Hpi. destruct (Hp _ _ Hpi). auto using submitted_app.
  - intros pk Hpk. by apply approved_by_vote_app, Ha.
Qed.
Lemma versions_app evs more d : versions_ok evs d → versions_ok (evs ++ more) d.
Proof.
  intros [Hl ? He]. constructor; try done.
  - intros action voters Hv. destruct (Hl _ _ Hv) as (? & g & Hg & ?). split; [done|].
    exists g. split; [|done]. intros a Ha. by apply backed_app, Hg.
  - intros h Hh. destruct (He _ Hh) as (info & ? & ?). exists info. auto using elected_app.
Qed.
Lemma batch_app evs more b : batch_ok evs b → batch_ok (evs ++ more) b.
Proof. intros (pk & Hpk & Hb). exists pk. auto using approved_by_vote_app. Qed.

Definition registry (d : KeystoreDao) :=
  (init_account_id d, proposals d, next_proposal_id d, votes d, approved_keystores d, revoke_proposals d).
Definition versions (d : KeystoreDao) :=
  (vault_version_votes d, vault_version_approval_args d, approved_vault_code_hashes d, vault_versions d).
Definition electorate (d : KeystoreDao) := (dao_members d, approval_threshold d).

Lemma registry_same evs d d' : registry d' = registry d → registry_ok evs d → registry_ok evs d'.
Proof.
  unfold registry. intros [= E1 E2 E3 E4 E5 E6] [? ? ? ? ? ? ? ?].
  constructor; rewrite ?E1, ?E2, ?E3, ?E4, ?E5, ?E6; done.
Qed.
Lemma versions_same evs d d' : versions d' = versions d → versions_ok evs d → versions_ok evs d'.
Proof.
  unfold versions. intros [= E1 E2 E3 E4] [? ? ?]. constructor; rewrite ?E1, ?E2, ?E3, ?E4; done.
Qed.
Lemma quorum_same d d' : electorate d' = electorate d → quorum_ok d → quorum_ok d'.
Proof. unfold electorate. intros [= E1 E2] [? ?]. constructor; rewrite ?E1, ?E2; done. Qed.
End history.

(** * What each call leaves alone *)

Section frames.
Context `{Platform} `{TeeVerifier}.

Definition on_registry (call : DaoCall) : bool :=
  match call with SubmitRegistration _ _ _ | Vote _ _ | ProposeRevoke _ => true | _ => false end.
Definition on_versions (call : DaoCall) : bool :=
  match call with ApproveVersion _ _ _ | DeprecateVersion _ | RevokeVersion _ => true | _ => false end.
Definition on_members (call : DaoCall) : bool :=
  match call with AddMember _ | RemoveMember _ => true | _ => false end.
Definition on_keys (call : DaoCall) : bool :=
  match call with Vote _ _ | ProposeRevoke _ => true | _ => false end.

Lemma frame_assert_owner {X} (f : KeystoreDao → X) e : frame f (assert_owner e).
Proof. unfold assert_owner. solve_frame. Qed.
Lemma frame_assert_member {X} (f : KeystoreDao → X) e : frame f (assert_dao_member e).
Proof. unfold assert_dao_member. solve_frame. Qed.
Lemma frame_attestation {X} (f : KeystoreDao → X) now cs ms pk q :
  frame f (check_attestation (W := DW) now cs ms pk q).
Proof. intros w a w' Hr. by apply check_attestation_ok in Hr as [_ ->]. Qed.
Lemma frame_revocable {X} (f : KeystoreDao → X) d seen keys : frame f (check_revocable d seen keys).
Proof. revert seen. induction keys; intros seen; cbn; [apply frame_ret|]. solve_frame. Qed.
#[local] Hint Resolve frame_assert_owner frame_assert_member frame_attestation frame_revocable : near.

Lemma frame_registry e call : on_registry call = false → frame registry (run_dao_call e call).
Proof. destruct call; try done; intros _; unfold run_dao_call; solve_frame. Qed.
Lemma frame_versions e call : on_versions call = false → frame versions (run_dao_call e call).
Proof. destruct call; try done; intros _; unfold run_dao_call; solve_frame. Qed.
Lemma frame_electorate e call : on_members call = false → frame electorate (run_dao_call e call).
Proof. destruct call; try done; intros _; unfold run_dao_call; solve_frame. Qed.

(** Only the votes on proposals touch the account's keys. *)
Lemma silent_keys e call :
  on_keys call = false → emits (λ a, batches_of a = []) (run_dao_call e call).
Proof.
  assert (∀ now cs ms pk q, emits (λ a, batches_of a = []) (check_attestation (W := DW) now cs ms pk q)).
  { intros. apply emits_silent. intros w a w' Hr. by apply check_attestation_ok in Hr as [_ ->]. }
  destruct call; try done; intros _; unfold run_dao_call;
    repeat (first [progress solve_emits | apply emits_emit; reflexivity | auto]).
Qed.

Lemma silent_batches {A} (m : DM A) w a w' :
  emits (λ a, batches_of a = []) m → m w = Ok (a, w') →
  out w' ≫= batches_of = out w ≫= batches_of.
Proof.
  intros Hm Hr. destruct (Hm _ _ _ Hr) as (l & -> & Hl). rewrite bind_app.
  assert (l ≫= batches_of = []) as ->; [|by rewrite app_nil_r].
  clear Hr. induction Hl as [|x l Hx _ IH]; cbn; [done | by rewrite Hx, IH].
Qed.
End frames.

(** * Members and quorum *)

Ltac dinv :=
  repeat match goal with
  | _ => progress minv
  | H : dao_no_deposit _ _ = Ok (_, ?w') |- _ => apply require_ok in H; destruct H as [H ?]; subst_new w'
  | H : self_call _ _ = Ok (_, ?w') |- _ => apply require_ok in H; destruct H as [H ?]; subst_new w'
  | H : assert_owner _ _ = Ok (_, _) |- _ => unfold assert_owner in H
  | H : assert_dao_member _ _ = Ok (_, _) |- _ => unfold assert_dao_member in H
  | H : put_collateral _ _ _ _ = Ok (_, _) |- _ => unfold put_collateral in H
  end; cbn [st out] in *; prop_bool.

Lemma majority_of_members (l : list AccountId) :
  set_length l < 2 ^ 32 → set_length l < 2 * majority (set_length l).
Proof.
  intros Hl. unfold majority, as_u32, set_length in *. rewrite Z.mod_small by lia.
  pose proof (Z.div_mod (Z.of_nat (length l)) 2). pose proof (Z.mod_pos_bound (Z.of_nat (length l)) 2). lia.
Qed.

Section electorate.
Context `{Platform} `{TeeVerifier}.

Lemma call_quorum e call (w : DW) u w' :
  set_length (dao_members (st w)) + 1 < 2 ^ 32 →
  quorum_ok (st w) → run_dao_call e call w = Ok (u, w') →
  quorum_ok (st w') ∧ set_length (dao_members (st w')) ≤ set_length (dao_members (st w)) + 1.
Proof.
  intros Hs Hq Hr. destruct (on_members call) eqn:E.
  - unfold set_length in *. destruct call; try done; cbn [run_dao_call] in Hr.
    + unfold add_dao_member in Hr. dinv. cbn.
      pose proof (set_insert_length member (dao_members (st w))). split; [|lia].
      constructor; cbn; [by apply set_insert_nodup, Hq | apply majority_of_members; unfold set_length; lia].
    + unfold remove_dao_member in Hr. dinv. cbn.
      pose proof (set_remove_length member (dao_members (st w)) (qo_nodup _ Hq)). split; [|lia].
      constructor; cbn; [by apply set_remove_nodup, Hq | apply majority_of_members; unfold set_length; lia].
  - assert (Hf := frame_electorate e call E _ _ _ Hr).
    split; [by eapply quorum_same|]. injection Hf as -> _. lia.
Qed.
End electorate.

(** * Votes *)

Section votes.
Context `{Platform} `{TeeVerifier}.

Lemma record_vote_ok id a b (w : DW) u w' :
  record_vote id a b w = Ok (u, w') →
  votes (st w) !! (id, a) = None ∧
  w' = mkWorld ((st w) <| votes := <[(id, a) := b]> (votes (st w)) |>) (out w).
Proof. unfold record_vote. intros Hr. dinv. done. Qed.

Lemma count_vote_ok b f a (w : DW) r w' :
  count_vote b f a w = Ok (r, w') → w' = w ∧ r = if b then (f + 1, a) else (f, a + 1).
Proof. unfold count_vote. intros Hr. destruct b; dinv; subst; done. Qed.

Lemma decision_ok id (w : DW) o w' :
  decision id w = Ok (o, w') → w' = w ∧
  match o with
  | Some true => approval_threshold (st w) ≤ live_count (st w) id true
  | Some false => live_count (st w) id true < approval_threshold (st w) ∧
      as_u32 (set_length (dao_members (st w))) - approval_threshold (st w) < live_count (st w) id false
  | None => live_count (st w) id true < approval_threshold (st w) ∧
      live_count (st w) id false ≤ as_u32 (set_length (dao_members (st w))) - approval_threshold (st w)
  end.
Proof.
  unfold decision. intros Hr. dinv. destruct (_ <=? _) eqn:E; dinv; [subst; done|].
  destruct (_ <? _) eqn:E'; dinv; subst; done.
Qed.

Lemma check_revocable_ok d keys : ∀ seen (w : DW) u w',
  NoDup seen → check_revocable d seen keys w = Ok (u, w') →
  w' = w ∧ (∀ k, k ∈ keys → k ∈ approved_keystores d) ∧ NoDup (seen ++ keys).
Proof.
  induction keys as [|k keys IH]; intros seen w u w' Hn Hr; cbn in Hr; dinv.
  - rewrite app_nil_r. split_and!; [done | set_solver | done].
  - match goal with Hx : check_revocable _ _ _ _ = _ |- _ => apply IH in Hx as (-> & Ha & Hd) end.
    + rewrite <- app_assoc in Hd. split_and!; [done | set_solver | done].
    + apply NoDup_app. split_and!; [done | set_solver | apply NoDup_singleton].
Qed.

(** The keys still approved after a revocation, and the batches it schedules. *)
Definition revoked (keys approved : list PublicKey) : list PublicKey :=
  foldl (λ l k, set_remove k l) approved keys.
Fixpoint revocations (keys approved : list PublicKey) : list (list KeyAction) :=
  match keys with
  | [] => []
  | k :: keys =>
    (if bool_decide (k ∈ approved) then [[DeleteKey k]] else []) ++ revocations keys (set_remove k approved)
  end.

Lemma revoke_all_ok keys : ∀ (w : DW) u w',
  for_each keys revoke_one w = Ok (u, w') →
  st w' = (st w) <| approved_keystores := revoked keys (approved_keystores (st w)) |> ∧
  out w' ≫= batches_of = (out w ≫= batches_of) ++ revocations keys (approved_keystores (st w)).
Proof.
  induction keys as [|k keys IH]; intros w u w' Hr; cbn in Hr; dinv.
  - split; [by destruct w as [[]] | by rewrite app_nil_r].
  - unfold revoke_one in *. dinv. cbn. case_bool_decide as E; cbn in *; dinv;
      match goal with Hf : for_each _ _ _ = _ |- _ => apply IH in Hf as [-> ->] end; cbn.
    + split; [done|]. rewrite !bind_app. cbn. by rewrite app_nil_r, <- app_assoc.
    + rewrite set_remove_id by done. done.
Qed.

Lemma revoked_spec keys : ∀ approved k, NoDup approved →
  k ∈ revoked keys approved ↔ k ∈ approved ∧ k ∉ keys.
Proof.
  induction keys as [|x keys IH]; intros approved k Hn; cbn; [set_solver|].
  fold (revoked keys (set_remove x approved)).
  rewrite IH by by apply set_remove_nodup. rewrite elem_of_set_remove by done. set_solver.
Qed.
Lemma revoked_nodup keys : ∀ approved, NoDup approved → NoDup (revoked keys approved).
Proof.
  induction keys as [|x keys IH]; intros approved Hn; cbn; [done|]. by apply IH, set_remove_nodup.
Qed.
Lemma revocations_spec keys : ∀ approved b, b ∈ revocations keys approved →
  ∃ k, k ∈ keys ∧ k ∈ approved ∧ b = [DeleteKey k].
Proof.
  induction keys as [|x keys IH]; intros approved b; cbn; [set_solver|].
  intros [Hb|Hb]%elem_of_app.
  - case_bool_decide; [|set_solver]. apply list_elem_of_singleton in Hb as ->. exists x. set_solver.
  - destruct (IH _ _ Hb) as (k & Hk & Ha & ->). exists k. apply elem_of_set_remove_1 in Ha. set_solver.
Qed.
End votes.

(** * Every call keeps the registry *)

Section registry.
Context `{Platform} `{TeeVerifier}.
Variable s0 : DaoSys.
Abbreviation Events := (list DaoEvent).
Abbreviation at_ := (dao_at s0).

(** A proposal that is kept with new counts and status. *)
Lemma dao_registry_update evs d id p p' :
  registry_ok s0 evs d → proposals d !! id = Some p →
  kp_id p' = kp_id p → kp_public_key p' = kp_public_key p → kp_measurements p' = kp_measurements p →
  registry_ok s0 evs (d <| proposals := <[id := p']> (proposals d) |>).
Proof.
  intros [? Hf Hk Hv Hp ? ? ?] Hid E1 E2 E3. constructor; cbn; try done.
  - intros i Hi. destruct (Hf i Hi) as (Hn & ? & ?). split_and!; try done.
    rewrite lookup_insert_ne; [done|]. intros ->. congruence.
  - intros i Hs. apply Hk. destruct (decide (i = id)) as [->|Hne]; [by eauto|].
    by rewrite lookup_insert_ne in Hs.
  - intros i q. rewrite lookup_insert. case_decide as Hd; [|apply Hp].
    intros [= <-]. subst i. rewrite E1, E2, E3. by apply Hp.
Qed.
Lemma registry_update_revoke evs d id p p' :
  registry_ok s0 evs d → revoke_proposals d !! id = Some p → rp_id p' = rp_id p →
  registry_ok s0 evs (d <| revoke_proposals := <[id := p']> (revoke_proposals d) |>).
Proof.
  intros [? Hf Hk ? Hp Hr ? ?] Hid E1. constructor; cbn; try done.
  - intros i Hi. destruct (Hf i Hi) as (? & Hn & ?). split_and!; try done.
    rewrite lookup_insert_ne; [done|]. intros ->. congruence.
  - intros i Hs. rewrite lookup_insert_ne; [by apply Hk|]. intros ->. apply Hk in Hs. congruence.
  - intros i q. rewrite lookup_insert. case_decide as Hd; [|apply Hr].
    intros [= <-]. subst i. rewrite E1. by eapply Hr.
Qed.

Lemma registry_vote evs d id a b :
  registry_ok s0 evs d → id < next_proposal_id d → cast s0 id b evs a →
  registry_ok s0 evs (d <| votes := <[(id, a) := b]> (votes d) |>).
Proof.
  intros [? Hf ? Hv ? ? ? ?] Hid Hc. constructor; cbn; try done.
  - intros i Hi. destruct (Hf i Hi) as (? & ? & Hn). split_and!; try done.
    intros a'. rewrite lookup_insert_ne; [apply Hn|]. intros [= -> ->]. lia.
  - intros i a' b'. rewrite lookup_insert. case_decide as Hd; [|apply Hv].
    intros [= <-]. injection Hd as <- <-. done.
Qed.

Lemma registry_known evs d id :
  registry_ok s0 evs d → is_Some (proposals d !! id) ∨ is_Some (revoke_proposals d !! id) →
  id < next_proposal_id d.
Proof.
  intros Hr Hs. destruct (Z.lt_ge_cases id (next_proposal_id d)) as [|Hge]; [done|].
  destruct (ro_fresh _ _ _ Hr id Hge) as (Hp & Hv & _). rewrite Hp, Hv in Hs. by destruct Hs as [[]|[]].
Qed.

(** A proposal past the threshold has been voted for by more than half. *)
Lemma elected_now evs ev d id :
  quorum_ok d → registry_ok s0 (evs ++ [ev]) d → dao_members d = dao_members (dao (at_ evs)) →
  approval_threshold d ≤ live_count d id true → elected s0 (evs ++ [ev]) (cast s0 id true).
Proof.
  intros Hq Hr Hm Hl. exists evs, ev, [], (filter (λ m, voted d id true m = true) (dao_members d)).
  split_and!; [done | by apply NoDup_filter, Hq | |].
  - intros a [Hv Ha]%list_elem_of_filter. rewrite <- Hm. split; [done|].
    unfold voted in Hv. prop_bool. by apply (ro_votes _ _ _ Hr).
  - rewrite <- Hm. pose proof (qo_majority _ Hq). unfold live_count in Hl. lia.
Qed.

Lemma registry_execute evs d id p f a :
  registry_ok s0 evs d → proposals d !! id = Some p → elected s0 evs (cast s0 id true) →
  approved_by_vote s0 evs (kp_public_key p) ∧
  registry_ok s0 evs
    (d <| proposals := <[id := mkProposal (kp_id p) (kp_public_key p) (kp_measurements p) (kp_submitter p)
            (kp_created_at p) f a Executed]> (proposals d) |>
       <| approved_keystores := set_insert (kp_public_key p) (approved_keystores d) |>).
Proof.
  intros Hr Hid He.
  assert (approved_by_vote s0 evs (kp_public_key p)) as Hap.
  { exists id, (kp_measurements p). split; [by apply (ro_proposals _ _ _ Hr) | done]. }
  split; [done|]. set (p' := mkProposal _ _ _ _ _ f a Executed).
  destruct (dao_registry_update evs d id p p' Hr Hid eq_refl eq_refl eq_refl) as [? ? ? ? ? ? Hn Ha].
  constructor; try done; cbn in *.
  - by apply set_insert_nodup.
  - intros pk [->|Hin]%elem_of_set_insert; [done | by apply Ha].
Qed.

Lemma registry_revoke evs d keys :
  registry_ok s0 evs d →
  registry_ok s0 evs (d <| approved_keystores := revoked keys (approved_keystores d) |>) ∧
  Forall (batch_ok s0 evs) (revocations keys (approved_keystores d)).
Proof.
  intros [? ? ? ? ? ? Hn Ha]. split.
  - constructor; cbn; try done; [by apply revoked_nodup|].
    intros pk Hin. apply revoked_spec in Hin as [? _]; [|done]. by apply Ha.
  - apply Forall_forall. intros b Hb. destruct (revocations_spec _ _ _ Hb) as (k & _ & Hk & ->).
    exists k. auto.
Qed.

(** What a call owes: [evs] ends with the event that made it. *)
Definition registry_good (evs : Events) (w' : DW) : Prop :=
  registry_ok s0 evs (st w') ∧ Forall (batch_ok s0 evs) (out w' ≫= batches_of).

Lemma registry_good_log evs d l msg :
  registry_good evs (mkWorld d l) → registry_good evs (mkWorld d (l ++ [DaoLog msg])).
Proof. unfold registry_good. cbn. rewrite bind_app. cbn. by rewrite app_nil_r. Qed.

Lemma vote_revoke_good evs ev e id b (w : DW) u w' :
  quorum_ok (st w) → registry_good (evs ++ [ev]) w →
  dao_members (st w) = dao_members (dao (at_ evs)) →
  cast s0 id b (evs ++ [ev]) (predecessor_account_id e) →
  internal_vote_revoke e id b w = Ok (u, w') → registry_good (evs ++ [ev]) w'.
Proof.
  intros Hq [Hr Hb] Hm Hc Hrun. unfold internal_vote_revoke in Hrun. dinv.
  match goal with Hx : record_vote _ _ _ _ = _ |- _ => apply record_vote_ok in Hx as [_ ->] end.
  match goal with Hx : count_vote _ _ _ _ = _ |- _ => apply count_vote_ok in Hx as [-> ->] end.
  match goal with Hx : revoke_proposals _ !! _ = Some ?x |- _ => rename Hx into Hid; rename x into p end.
  set (d1 := (st w) <| votes := _ |>) in *.
  assert (registry_ok s0 (evs ++ [ev]) d1) as Hreg1.
  { apply registry_vote; [done | | done]. eapply registry_known; [done | by right; eauto]. }
  destruct b; dinv; match goal with Hx : decision _ _ = Ok (?o, _) |- _ =>
    apply decision_ok in Hx as [-> Hdec]; cbn [st] in Hdec; destruct o as [[]|] end; dinv.
  all: try (apply registry_good_log; split; cbn; [by eapply (registry_update_revoke _ d1) | done]).
  all: unfold execute_revoke in *; dinv;
    match goal with Hx : for_each _ _ _ = _ |- _ => apply revoke_all_ok in Hx as [Est Eout] end;
    apply registry_good_log; unfold registry_good; cbn [st out] in *; rewrite Est, Eout;
    destruct (registry_revoke _ _ (rp_public_keys p) Hreg1) as [Hreg2 Hrev];
    (split; [|by apply Forall_app]); by eapply (registry_update_revoke _ _ id p _ Hreg2).
Qed.

Lemma vote_good evs k e id b u w' :
  quorum_ok (dao (at_ evs)) → registry_ok s0 evs (dao (at_ evs)) →
  current_account_id e = dao_account s0 →
  vote e id b (mkWorld (dao (at_ evs)) []) = Ok (u, w') →
  registry_good (evs ++ [DCall k e (Vote id b)]) w'.
Proof.
  intros Hq Hr Hacc Hrun. unfold vote in Hrun. dinv. set (d := dao (at_ evs)) in *.
  set (ev := DCall k e (Vote id b)).
  assert (cast s0 id b (evs ++ [ev]) (predecessor_account_id e)) as Hc.
  { exists evs, k, e, (Vote id b), []. auto. }
  apply (registry_app s0 evs [ev]) in Hr. case_bool_decide as Hk.
  { eapply (vote_revoke_good _ _ _ _ _ (mkWorld d [])); [done | by split | done | done | done]. }
  dinv.
  match goal with Hx : record_vote _ _ _ _ = _ |- _ => apply record_vote_ok in Hx as [_ ->] end.
  match goal with Hx : count_vote _ _ _ _ = _ |- _ => apply count_vote_ok in Hx as [-> ->] end.
  match goal with Hx : proposals _ !! _ = Some ?x |- _ => rename Hx into Hid; rename x into p end. cbn [st out] in *.
  set (d1 := d <| votes := _ |>) in *.
  assert (registry_ok s0 (evs ++ [ev]) d1) as Hreg1.
  { apply registry_vote; [done | | done]. eapply registry_known; [done | by left; eauto]. }
  destruct b; dinv; match goal with Hx : decision _ _ = Ok (?o, _) |- _ =>
    apply decision_ok in Hx as [-> Hdec]; cbn [st] in Hdec; destruct o as [[]|] end; dinv.
  all: try (apply registry_good_log).
  all: try (split; cbn; [by eapply (dao_registry_update _ d1) | done]).
  all: unfold execute_proposal in *; dinv; apply registry_good_log; unfold registry_good; cbn [st out].
  all: assert (elected s0 (evs ++ [ev]) (cast s0 id true)) as He by
    (by eapply (elected_now _ _ d1); [eapply quorum_same; [|exact Hq] | | |]).
  all: cbn [kp_id kp_public_key kp_measurements kp_submitter kp_created_at kp_votes_for kp_votes_against];
    match goal with |- context [mkProposal _ _ _ _ _ ?f ?a Executed] =>
      destruct (registry_execute _ d1 id p f a Hreg1 Hid He) as [Hap Hreg2] end.
  all: split; [exact Hreg2|]; cbn; rewrite Hacc; repeat constructor; exists (kp_public_key p); auto.
Qed.

Lemma propose_revoke_good evs k e keys u w' :
  quorum_ok (dao (at_ evs)) → registry_ok s0 evs (dao (at_ evs)) →
  propose_revoke_keystore_keys e keys (mkWorld (dao (at_ evs)) []) = Ok (u, w') →
  registry_good (evs ++ [DCall k e (ProposeRevoke keys)]) w'.
Proof.
  intros Hq Hr Hrun. unfold propose_revoke_keystore_keys in Hrun. dinv. set (d := dao (at_ evs)) in *.
  match goal with Hx : check_revocable _ _ _ _ = _ |- _ => rename Hx into Hck end.
  set (ev := DCall k e (ProposeRevoke keys)).
  apply (registry_app s0 evs [ev]) in Hr.
  apply check_revocable_ok in Hck as [-> _]; [|constructor]. cbn [st out] in *.
  eapply vote_revoke_good; [| | | |done].
  - by eapply quorum_same; [|exact Hq].
  - apply registry_good_log. split; [|done]. cbn. destruct Hr as [? Hf Hk Hv Hp Hrv ? ?].
    constructor; cbn; try done.
    + intros i Hi. destruct (Hf i ltac:(lia)) as (? & ? & ?). split_and!; try done.
      rewrite lookup_insert_ne; [done | lia].
    + intros i Hs. rewrite lookup_insert_ne; [by apply Hk|]. intros <-.
      destruct (Hf (next_proposal_id d) ltac:(lia)) as (Hn & _). rewrite Hn in Hs. by destruct Hs.
    + intros i q. rewrite lookup_insert. case_decide; [by intros [= <-] | apply Hrv].
  - done.
  - exists evs, k, e, (ProposeRevoke keys), []. split_and!; try done. right. eauto.
Qed.

Lemma submit_good evs k e pk q app u w' :
  registry_ok s0 evs (dao (at_ evs)) →
  submit_keystore_registration e pk q app (mkWorld (dao (at_ evs)) []) = Ok (u, w') →
  registry_good (evs ++ [DCall k e (SubmitRegistration pk q app)]) w'.
Proof.
  intros Hr Hrun. unfold submit_keystore_registration in Hrun. dinv. set (d := dao (at_ evs)) in *.
  match goal with Hx : check_attestation _ _ _ _ _ _ = _ |- _ => apply check_attestation_ok in Hx as [Hatt ->] end.
  set (ev := DCall k e (SubmitRegistration pk q app)). cbn [st out] in *.
  pose proof (registry_app s0 evs [ev] _ Hr) as Hr'. apply registry_good_log. split; [|done]. cbn.
  destruct Hr' as [Hi Hf Hk Hv Hp ? ? ?]. constructor; cbn; try done.
  - intros i Hle. destruct (Hf i ltac:(lia)) as (? & ? & ?). split_and!; try done.
    rewrite lookup_insert_ne; [done | lia].
  - intros i Hs. destruct (decide (i = next_proposal_id d)) as [->|]; [by apply Hf|].
    apply Hk. by rewrite lookup_insert_ne in Hs.
  - intros i p. rewrite lookup_insert. case_decide as Hd; [|apply Hp]. intros [= <-]. subst i. cbn.
    split; [done|]. exists evs, k, e, q, app, []. split_and!; try done. congruence.
Qed.
End registry.

(** * Every call keeps the version registry *)

Section versions.
Context `{Platform} `{TeeVerifier}.
Variable s0 : DaoSys.
Abbreviation at_ := (dao_at s0).

Lemma as_u32_le z : 0 ≤ z → as_u32 z ≤ z.
Proof. intros Hz. unfold as_u32. apply Z.mod_le; lia. Qed.

Lemma tally_spec d action voter l :
  vault_version_votes d !! action = Some l ∧ NoDup l ∨ vault_version_votes d !! action = None ∧ l = [] →
  NoDup (tally d action voter) ∧
  ∀ a, a ∈ tally d action voter → a = voter ∨ a ∈ l ∧ a ∈ dao_members d.
Proof.
  intros Hl. assert (default [] (vault_version_votes d !! action) = l ∧ NoDup l) as [El Hn].
  { destruct Hl as [[-> ?]|[-> ->]]; cbn; [done | split; [done | constructor]]. }
  unfold tally. rewrite El. set (f := filter _ l). assert (NoDup f) by by apply NoDup_filter.
  assert (∀ a, a ∈ f → a ∈ l ∧ a ∈ dao_members d) as Hf by (intros a [? ?]%list_elem_of_filter; done).
  case_bool_decide; [by split; auto|]. split.
  - apply NoDup_app. split_and!; [done | set_solver | apply NoDup_singleton].
  - intros a [Ha|Ha]%elem_of_app; [by right; apply Hf | left; by apply list_elem_of_singleton].
Qed.

(** The ledger after a call, all of it behind the same action and metadata. *)
Lemma tally_backed evs k e action g :
  versions_ok s0 evs (dao (at_ evs)) →
  predecessor_account_id e ∈ dao_members (dao (at_ evs)) →
  (∀ h, action = Approve h → vault_version_approval_args (dao (at_ evs)) !! h = Some g ∨
     vault_version_approval_args (dao (at_ evs)) !! h = None) →
  let voters := tally (dao (at_ evs)) action (predecessor_account_id e) in
  let evs' := evs ++ [DCall k e (version_call action g)] in
  NoDup voters ∧ ∀ a, a ∈ voters → a ∈ dao_members (dao (at_ evs)) ∧ backed s0 action g evs' a.
Proof.
  intros Hv Hm Hg. set (d := dao (at_ evs)) in *. cbv zeta.
  assert (backed s0 action g (evs ++ [DCall k e (version_call action g)]) (predecessor_account_id e)) as Hme.
  { exists evs, k, e, (version_call action g), []. auto. }
  destruct (vault_version_votes d !! action) as [l|] eqn:El.
  - destruct (vo_ledger _ _ _ Hv _ _ El) as (Hn & g' & Hb & Ha).
    destruct (tally_spec d action (predecessor_account_id e) l) as [Ht Hin]; [by left|].
    split; [done|]. intros a [->|[Hl Hd]]%Hin; [done|]. split; [done|].
    assert (version_call action g' = version_call action g) as Heq.
    { destruct action as [h|h]; [|done]. specialize (Ha h eq_refl).
      destruct (Hg h eq_refl); [congruence|]. congruence. }
    apply backed_app. unfold backed. rewrite <- Heq. by apply Hb.
  - destruct (tally_spec d action (predecessor_account_id e) []) as [Ht Hin]; [by right|].
    split; [done|]. intros a [->|[Hl _]]%Hin; [done | set_solver].
Qed.

Lemma elected_by_tally evs k e action g :
  quorum_ok (dao (at_ evs)) → versions_ok s0 evs (dao (at_ evs)) →
  predecessor_account_id e ∈ dao_members (dao (at_ evs)) →
  (∀ h, action = Approve h → vault_version_approval_args (dao (at_ evs)) !! h = Some g ∨
     vault_version_approval_args (dao (at_ evs)) !! h = None) →
  approval_threshold (dao (at_ evs)) ≤
    as_u32 (set_length (tally (dao (at_ evs)) action (predecessor_account_id e))) →
  elected s0 (evs ++ [DCall k e (version_call action g)]) (backed s0 action g).
Proof.
  intros Hq Hv Hm Hg Ht. destruct (tally_backed evs k e action g Hv Hm Hg) as [Hn Hb].
  exists evs, (DCall k e (version_call action g)), [], (tally (dao (at_ evs)) action (predecessor_account_id e)).
  split_and!; [done | done | done |].
  pose proof (qo_majority _ Hq).
  pose proof (as_u32_le (set_length (tally (dao (at_ evs)) action (predecessor_account_id e)))
    ltac:(unfold set_length; lia)). lia.
Qed.

Lemma lock_args_ok h g (w : DW) u w' :
  lock_args h g w = Ok (u, w') →
  (vault_version_approval_args (st w) !! h = Some g ∨ vault_version_approval_args (st w) !! h = None) ∧
  ∃ args, w' = mkWorld ((st w) <| vault_version_approval_args := args |>) (out w) ∧ args !! h = Some g ∧
    ∀ h', h' ≠ h → args !! h' = vault_version_approval_args (st w) !! h'.
Proof.
  unfold lock_args. intros Hr. dinv.
  destruct (vault_version_approval_args (st w) !! h) as [g'|] eqn:E; dinv.
  - subst g'. split; [auto|]. exists (vault_version_approval_args (st w)).
    split_and!; [by destruct w as [[]] | done | done].
  - split; [auto|]. eexists. split_and!; [reflexivity | apply lookup_insert_eq |].
    intros h' Hne. by rewrite lookup_insert_ne.
Qed.

Lemma approve_good evs k e h lbl url u w' :
  quorum_ok (dao (at_ evs)) → versions_ok s0 evs (dao (at_ evs)) →
  approve_vault_version e h lbl url (mkWorld (dao (at_ evs)) []) = Ok (u, w') →
  versions_ok s0 (evs ++ [DCall k e (ApproveVersion h lbl url)]) (st w').
Proof.
  intros Hq Hv Hr. unfold approve_vault_version in Hr. dinv. set (d := dao (at_ evs)) in *.
  set (g := mkArgs lbl url) in *. set (ev := DCall k e (version_call (Approve h) g)).
  change (DCall k e (ApproveVersion h lbl url)) with ev.
  match goal with Hx : predecessor_account_id e ∈ _ |- _ => rename Hx into Hm end.
  match goal with Hx : lock_args _ _ _ = _ |- _ => apply lock_args_ok in Hx as [Hg (args & -> & Hargs & Hother)] end.
  assert (∀ h', Approve h = Approve h' → vault_version_approval_args d !! h' = Some g ∨
    vault_version_approval_args d !! h' = None) as Hg' by (by intros h' [= <-]).
  cbn [st out] in *.
  change (tally (d <| vault_version_approval_args := args |>) (Approve h) (predecessor_account_id e))
    with (tally d (Approve h) (predecessor_account_id e)) in *.
  pose proof (versions_app s0 evs [ev] _ Hv) as [Hl Hh He].
  destruct (_ <=? _) eqn:Et; dinv; cbn in *.
  - unfold internal_approve_vault_version in *. dinv. cbn.
    pose proof (elected_by_tally evs k e (Approve h) g Hq Hv Hm Hg' Et) as Hel.
    constructor; cbn.
    + intros action voters [Hne Hva]%lookup_delete_Some. destruct (Hl _ _ Hva) as (? & g' & ? & Hag).
      split; [done|]. exists g'. split; [done|]. intros h' ->.
      assert (h' ≠ h) by congruence. rewrite lookup_delete_ne, Hother by done. by apply Hag.
    + by apply set_insert_nodup.
    + intros h' Hin. rewrite lookup_insert. case_decide as Hd; [subst h'; eauto|].
      apply elem_of_set_insert in Hin as [->|Hin]; [done | by apply He].
  - destruct (tally_backed evs k e (Approve h) g Hv Hm Hg') as [Hn Hb].
    constructor; cbn; [|done|done].
    intros action voters. rewrite lookup_insert. case_decide as Hd.
    + intros [= <-]. subst action. split; [done|]. exists g. split; [by apply Hb|].
      by intros h' [= <-].
    + intros Hva. destruct (Hl _ _ Hva) as (? & g' & ? & Hag). split; [done|]. exists g'. split; [done|].
      intros h' ->. assert (h' ≠ h) by congruence. rewrite Hother by done. by apply Hag.
Qed.

Lemma deprecate_good evs ev e h u w' :
  versions_ok s0 evs (dao (at_ evs)) →
  deprecate_vault_version e h (mkWorld (dao (at_ evs)) []) = Ok (u, w') →
  versions_ok s0 (evs ++ [ev]) (st w').
Proof.
  intros Hv Hr. unfold deprecate_vault_version in Hr. dinv. cbn.
  pose proof (versions_app s0 evs [ev] _ Hv) as [Hl Hh He]. constructor; cbn; try done.
  intros h' Hin. destruct (He _ Hin) as (info & Hi & Hel). rewrite lookup_insert. case_decide; [|eauto].
  eexists. split; [done|]. cbn. congruence.
Qed.

Lemma revoke_version_good evs k e h u w' :
  quorum_ok (dao (at_ evs)) → versions_ok s0 evs (dao (at_ evs)) →
  revoke_vault_version e h (mkWorld (dao (at_ evs)) []) = Ok (u, w') →
  versions_ok s0 (evs ++ [DCall k e (RevokeVersion h)]) (st w') ∧
  (h ∈ approved_vault_code_hashes (dao (at_ evs)) → h ∉ approved_vault_code_hashes (st w') →
   ∀ g, elected s0 (evs ++ [DCall k e (RevokeVersion h)]) (backed s0 (Revoke h) g)).
Proof.
  intros Hq Hv Hr. unfold revoke_vault_version in Hr. dinv. set (d := dao (at_ evs)) in *.
  match goal with Hx : predecessor_account_id e ∈ _ |- _ => rename Hx into Hm end.
  assert (∀ g h', Revoke h = Approve h' → vault_version_approval_args d !! h' = Some g ∨
    vault_version_approval_args d !! h' = None) as Hg by done.
  set (ev := DCall k e (RevokeVersion h)). pose proof (versions_app s0 evs [ev] _ Hv) as [Hl Hh He].
  destruct (_ <=? _) eqn:Et; dinv; cbn in *.
  - unfold internal_revoke_vault_version in *. dinv. cbn. split.
    + constructor; cbn.
      * intros action voters [_ Hva]%lookup_delete_Some. by apply Hl.
      * by apply set_remove_nodup.
      * intros h' [Hin Hne]%elem_of_set_remove; [|done]. rewrite lookup_delete_ne by done. by apply He.
    + intros _ _ g. by apply (elected_by_tally evs k e (Revoke h) g Hq Hv Hm (Hg g)).
  - split; [|done]. constructor; cbn; [|done|done].
    intros action voters. rewrite lookup_insert. case_decide as Hd; [|by apply Hl].
    intros [= <-]. subst action.
    destruct (tally_backed evs k e (Revoke h) (mkArgs "" None) Hv Hm (Hg _)) as [Hn Hb].
    split; [done|]. exists (mkArgs "" None). split; [by apply Hb | done].
Qed.

Lemma call_versions evs k e call u w' :
  quorum_ok (dao (at_ evs)) → versions_ok s0 evs (dao (at_ evs)) →
  run_dao_call e call (mkWorld (dao (at_ evs)) []) = Ok (u, w') →
  versions_ok s0 (evs ++ [DCall k e call]) (st w').
Proof.
  intros Hq Hv Hr. destruct (on_versions call) eqn:E.
  - destruct call; try done; cbn [run_dao_call] in Hr; dinv.
    + by eapply approve_good.
    + by eapply deprecate_good.
    + by eapply revoke_version_good.
  - eapply versions_same; [exact (frame_versions e call E _ _ _ Hr) | by apply versions_app].
Qed.
End versions.

(** * Every event keeps the history *)

Section run.
Context `{Platform} `{TeeVerifier}.
Variable s0 : DaoSys.
Abbreviation at_ := (dao_at s0).

Lemma dao_at_snoc evs ev : at_ (evs ++ [ev]) = dao_step (at_ evs) ev.
Proof. unfold dao_at, dao_run. by rewrite foldl_app. Qed.

Definition members_at (evs : list DaoEvent) : Z := set_length (dao_members (dao (at_ evs))).

Lemma history_keep evs ev s : dao_history_ok s0 evs s → dao_history_ok s0 (evs ++ [ev]) s.
Proof.
  intros [? ? Hr Hv Hb Hk]. constructor; auto using registry_app, versions_app.
  - eapply Forall_impl; [exact Hb | intros; by apply batch_app].
  - intros k scope Hs. destruct (Hk _ _ Hs) as [|[? ?]]; auto using approved_by_vote_app.
Qed.

Lemma call_registry evs k e call u w' :
  quorum_ok (dao (at_ evs)) → registry_ok s0 evs (dao (at_ evs)) →
  current_account_id e = dao_account s0 →
  run_dao_call e call (mkWorld (dao (at_ evs)) []) = Ok (u, w') →
  registry_good s0 (evs ++ [DCall k e call]) w'.
Proof.
  intros Hq Hr Hacc Hrun. destruct (on_registry call) eqn:E.
  - destruct call; try done; cbn [run_dao_call] in Hrun; dinv.
    + by eapply submit_good.
    + by eapply vote_good.
    + by eapply propose_revoke_good.
  - assert (on_keys call = false) as Ek by by destruct call.
    split.
    + eapply registry_same; [exact (frame_registry e call E _ _ _ Hrun) | by apply registry_app].
    + rewrite (silent_batches _ _ _ _ (silent_keys e call Ek) Hrun). constructor.
Qed.

Lemma dao_step_ok evs ev :
  members_at evs + 1 < 2 ^ 32 → dao_history_ok s0 evs (at_ evs) →
  dao_history_ok s0 (evs ++ [ev]) (at_ (evs ++ [ev])) ∧ members_at (evs ++ [ev]) ≤ members_at evs + 1.
Proof.
  intros Hs Hh. rewrite dao_at_snoc. unfold members_at in *. rewrite dao_at_snoc.
  destruct ev as [k e call|i fails]; cbn [dao_step].
  - destruct (admissible _ _ _ _) eqn:Ea; cbn [negb]; [|split; [by apply history_keep | lia]].
    unfold admissible in Ea. prop_bool.
    match goal with Hx : current_account_id e = _ |- _ => rename Hx into Hacc end.
    destruct (run_dao_call e call _) as [[u w']|] eqn:Er; [|split; [by apply history_keep | lia]].
    destruct (history_keep _ (DCall k e call) _ Hh) as [Ha ? _ _ Hb Hk]. destruct Hh as [Ha' Hq Hr Hv _ _].
    destruct (call_quorum e call (mkWorld (dao (at_ evs)) []) u w' Hs Hq Er) as [Hq' Hsz].
    destruct (call_registry evs k e call u w' Hq Hr ltac:(congruence) Er) as [Hr' Hb'].
    split; [|done]. constructor; cbn; try done; [by eapply call_versions | by apply Forall_app].
  - destruct (key_batches (at_ evs) !! i) as [batch|] eqn:Ei; [|split; [by apply history_keep | lia]].
    split; [|cbn; lia]. apply (history_keep _ (DKeys i fails)) in Hh as [? ? ? ? Hb Hk].
    constructor; cbn; try done.
    + by apply Forall_delete.
    + destruct fails; [done|]. destruct (apply_batch _ batch) as [keys'|] eqn:Eb; [|done]. cbn.
      intros k scope Hs'. destruct (apply_batch_origin _ _ _ _ _ Eb Hs') as [Hold|Hin]; [by apply Hk|].
      destruct (proj1 (Forall_lookup _ _) Hb i batch Ei) as (pk & Hpk & [->| ->]);
        apply list_elem_of_singleton in Hin; [|done].
      injection Hin as -> ->. auto.
Qed.

(** Deployed with a member list that fits a transaction; every event adds one member
    at most. *)
Definition dao_deployed : Prop :=
  (∃ e owner init members mpc, new_dao e owner init members mpc = Some (dao s0) ∧
     set_length members < 2 ^ 31) ∧ key_batches s0 = [].
Definition fits (evs : list DaoEvent) : Prop := Z.of_nat (length evs) < 2 ^ 31.

Lemma dao_deployed_ok : dao_deployed → dao_history_ok s0 [] s0 ∧ set_length (dao_members (dao s0)) < 2 ^ 31.
Proof.
  intros ((e & owner & init & members & mpc & Hn & Hl) & Hb). unfold new_dao in Hn.
  destruct (_ && _) eqn:E; [|done]. injection Hn as Hn.
  destruct (set_from_spec members) as (Hnd & Hlen & _).
  assert (set_length (set_from members) ≤ set_length members) as Hle by (unfold set_length; lia).
  split; [|rewrite <- Hn; cbn; lia]. constructor; [done| | | |by rewrite Hb|by left].
  - rewrite <- Hn. constructor; cbn; [done|]. pose proof (majority_of_members members ltac:(lia)). lia.
  - rewrite <- Hn. constructor; cbn; try set_solver.
    + by rewrite <- Hn.
    + constructor.
  - rewrite <- Hn. constructor; cbn; [done | constructor | set_solver].
Qed.

Lemma dao_run_ok evs : dao_deployed → fits evs →
  dao_history_ok s0 evs (at_ evs) ∧
  members_at evs ≤ set_length (dao_members (dao s0)) + Z.of_nat (length evs).
Proof.
  intros Hd%dao_deployed_ok. unfold fits. destruct Hd as [Hd Hl].
  induction evs as [|ev evs IH] using rev_ind; intros Hf.
  - split; [done|]. unfold members_at. cbn. lia.
  - rewrite length_app in Hf. cbn in Hf. destruct (IH ltac:(lia)) as [Hh Hm].
    destruct (dao_step_ok evs ev ltac:(lia) Hh) as [Hh' Hm']. split; [done|].
    rewrite length_app. cbn. lia.
Qed.

Lemma fits_app evs evs' : fits (evs ++ evs') → fits evs.
Proof. unfold fits. rewrite length_app. lia. Qed.
End run.

(** * Keys and verified vaults *)

Section account_facts.
Context `{Platform} `{TeeVerifier}.
Variable s0 : DaoSys.
Abbreviation at_ := (dao_at s0).

(** A batch leaves alone a key that is on the account and was never registered. *)
Lemma batch_keeps evs keys keys' batch k scope :
  batch_ok s0 evs batch → (∀ id m, ¬ submitted s0 evs id k m) →
  apply_batch keys batch = Some keys' → keys !! k = Some scope → keys' !! k = Some scope.
Proof.
  intros (pk & (id & m & Hs & _) & Hb) Hn Ha Hk.
  assert (pk ≠ k) by (intros ->; by eapply Hn).
  destruct Hb as [->| ->]; cbn in Ha; case_bool_decide; cbn in Ha; try done; injection Ha as <-.
  - by rewrite lookup_insert_ne.
  - by rewrite lookup_delete_ne.
Qed.

Lemma step_account s ev : dao_account (dao_step s ev) = dao_account s.
Proof.
  destruct ev as [k e call|i fails]; cbn.
  - destruct (negb _); [done|]. by destruct (run_dao_call _ _ _) as [[]|].
  - by destruct (key_batches s !! i).
Qed.
Lemma at_account evs : dao_account (at_ evs) = dao_account s0.
Proof.
  induction evs as [|ev evs IH] using rev_ind; [done|]. by rewrite dao_at_snoc, step_account.
Qed.

(** A holder of an access key that allows it marked the vault. *)
Definition marked (evs : list DaoEvent) (v : AccountId) : Prop :=
  ∃ pre k e post scope, evs = pre ++ DCall (Some k) e (MarkVerified v) :: post ∧
    predecessor_account_id e = dao_account s0 ∧ dao_keys (at_ pre) !! k = Some scope ∧
    scope_permits scope (dao_account s0) "mark_vault_verified" 0 = true.

Lemma marked_app evs more v : marked evs v → marked (evs ++ more) v.
Proof.
  intros (pre & k & e & post & sc & -> & Hr). exists pre, k, e, (post ++ more), sc.
  split; [by rewrite <- app_assoc | done].
Qed.

Definition on_verified (call : DaoCall) : bool :=
  match call with MarkVerified _ => true | _ => false end.
Lemma frame_verified e call : on_verified call = false → frame verified_vaults (run_dao_call e call).
Proof.
  pose proof (@frame_assert_owner (list AccountId)). pose proof (@frame_assert_member (list AccountId)).
  pose proof (@frame_attestation _ _ (list AccountId)). pose proof (@frame_revocable (list AccountId)).
  destruct call; try done; intros _; unfold run_dao_call; solve_frame.
Qed.

Lemma verified_marked evs v :
  v ∈ verified_vaults (dao (at_ evs)) → v ∈ verified_vaults (dao s0) ∨ marked evs v.
Proof.
  induction evs as [|ev evs IH] using rev_ind; [by left|]. rewrite dao_at_snoc. intros Hv.
  enough (v ∈ verified_vaults (dao (at_ evs)) ∨ marked (evs ++ [ev]) v) as [Ho|]; [|by right|].
  { destruct (IH Ho); auto using marked_app. }
  destruct ev as [k e call|i fails]; cbn in Hv; [|by destruct (key_batches (at_ evs) !! i); left].
  destruct (admissible _ _ _ _) eqn:Ea; cbn in Hv; [|by left].
  destruct (run_dao_call e call _) as [[u w']|] eqn:Er; [|by left]. cbn in Hv.
  destruct (on_verified call) eqn:Ec; [|left; pose proof (frame_verified e call Ec _ _ _ Er) as Hf; cbn in Hf; congruence].
  destruct call; try done. cbn in Er. unfold mark_vault_verified in Er. dinv. cbn in Hv.
  apply elem_of_set_insert in Hv as [->|Hv]; [|by left]. right.
  unfold admissible in Ea. prop_bool. unfold key_permits in *. rewrite at_account in *.
  match goal with Hx : _ || _ = true |- _ => apply orb_true_iff in Hx as [Hx|Hx]; [prop_bool; congruence|] end.
  destruct k as [k|]; [|done]. cbn in *. destruct (dao_keys (at_ evs) !! k) as [scope|] eqn:Ek; [|done].
  exists evs, k, e, [], scope. split_and!; try done; congruence.
Qed.
End account_facts.

(** * The threshold *)

Section threshold.
Context `{Platform} `{TeeVerifier}.

Definition exact_threshold (d : KeystoreDao) : Prop :=
  approval_threshold d = majority (set_length (dao_members d)) ∧ 0 < set_length (dao_members d).

Lemma call_threshold e call (w : DW) u w' :
  NoDup (dao_members (st w)) → exact_threshold (st w) → run_dao_call e call w = Ok (u, w') →
  exact_threshold (st w') ∧ NoDup (dao_members (st w')).
Proof.
  intros Hn Ht Hr. destruct (on_members call) eqn:E.
  - destruct call; try done; cbn [run_dao_call] in Hr; unfold exact_threshold, set_length in *.
    + unfold add_dao_member in Hr. dinv. cbn. split; [|by apply set_insert_nodup]. split; [done|].
      enough (member ∈ set_insert member (dao_members (st w))) as Hin by (destruct (set_insert _ _); [set_solver | cbn; lia]).
      apply elem_of_set_insert. by left.
    + unfold remove_dao_member in Hr. dinv. cbn. split; [|by apply set_remove_nodup]. split; [done|].
      rewrite set_remove_length by done. unfold set_length in *. case_bool_decide; lia.
  - assert (Hf := frame_electorate e call E _ _ _ Hr). unfold exact_threshold. injection Hf as -> ->. done.
Qed.

(** A majority is never more than all, so nothing is subtracted below zero. *)
Lemma exact_slack d : exact_threshold d → set_length (dao_members d) < 2 ^ 32 →
  0 < approval_threshold d ≤ set_length (dao_members d) ∧ approval_threshold d < 2 ^ 32.
Proof.
  intros [-> Hp] Hl. unfold majority, as_u32. rewrite Z.mod_small by (unfold set_length in *; lia).
  pose proof (Z.div_mod (set_length (dao_members d)) 2).
  pose proof (Z.mod_pos_bound (set_length (dao_members d)) 2). lia.
Qed.
End threshold.

(** * A majority decides *)

Section liveness.
Context `{Platform} `{TeeVerifier}.

Lemma filter_agree (f g : AccountId → bool) (l : list AccountId) :
  (∀ x, x ∈ l → g x = f x) → filter (λ x, g x = true) l = filter (λ x, f x = true) l.
Proof.
  induction l as [|y l IH]; intros Hx; [done|]. rewrite !filter_cons, (Hx y), IH by set_solver. done.
Qed.

(** One more element satisfies the predicate. *)
Lemma filter_one_more (f g : AccountId → bool) (l : list AccountId) a :
  NoDup l → a ∈ l → f a = false → (∀ x, g x = if decide (x = a) then true else f x) →
  length (filter (λ x, g x = true) l) = S (length (filter (λ x, f x = true) l)).
Proof.
  intros Hn Ha Hf Hg. apply list_elem_of_split in Ha as (l1 & l2 & ->).
  assert (∀ k : list AccountId, a ∉ k → filter (λ x, g x = true) k = filter (λ x, f x = true) k) as Hk.
  { intros k Hk. apply filter_agree. intros x Hx. rewrite Hg. rewrite decide_False; [done|]. congruence. }
  apply NoDup_app in Hn as (_ & H1 & Hn). apply NoDup_cons in Hn as [H2 _].
  assert (g a = true) as Hga by (rewrite Hg; by rewrite decide_True).
  rewrite !filter_app, !filter_cons, Hga, Hf. cbn.
  rewrite (Hk l1), (Hk l2) by (done || set_solver).
  rewrite (decide_True (P := true = true)), (decide_False (P := false = true)) by done.
  rewrite !length_app. cbn. lia.
Qed.

Lemma live_count_vote d id a b c :
  NoDup (dao_members d) → a ∈ dao_members d → votes d !! (id, a) = None →
  live_count (d <| votes := <[(id, a) := b]> (votes d) |>) id c =
  live_count d id c + (if bool_decide (b = c) then 1 else 0).
Proof.
  intros Hn Ha Hv. unfold live_count, set_length. cbn.
  set (d1 := d <| votes := _ |>).
  assert (∀ x, voted d1 id c x = if decide (x = a) then bool_decide (b = c) else voted d id c x) as Hx.
  { intros x. unfold voted. cbn. rewrite lookup_insert. destruct (decide (x = a)) as [->|Hne].
    - rewrite decide_True by done. apply bool_decide_ext. naive_solver.
    - rewrite decide_False; [done|]. congruence. }
  assert (voted d id c a = false) as Hfa by (unfold voted; rewrite Hv; done).
  case_bool_decide as Hb.
  - rewrite (filter_one_more (voted d id c) (voted d1 id c) _ a); [lia | done | done | done |].
    intros x. rewrite Hx. by case_decide.
  - rewrite Z.add_0_r. f_equal. f_equal. apply filter_agree. intros x _. rewrite Hx.
    case_decide; [subst; by rewrite Hfa | done].
Qed.

(** The members who have not voted, those for and those against are different people. *)
Lemma votes_disjoint d id l :
  NoDup (dao_members d) → NoDup l →
  (∀ a, a ∈ l → a ∈ dao_members d ∧ votes d !! (id, a) = None) →
  live_count d id true + live_count d id false + set_length l ≤ set_length (dao_members d).
Proof.
  intros Hn Hl Ha. unfold live_count, set_length.
  assert (∀ x b, x ∈ filter (λ m, voted d id b m = true) (dao_members d) →
    x ∈ dao_members d ∧ votes d !! (id, x) = Some b) as Hf.
  { intros x b [Hv Hx]%list_elem_of_filter. unfold voted in Hv. by prop_bool. }
  rewrite <- !Nat2Z.inj_add, <- !length_app. apply inj_le, NoDup_incl_length.
  - apply NoDup_ListNoDup, NoDup_app. split_and!; [|intros x [Hx|Hx]%elem_of_app Hin; apply Hf in Hx as [_ Hx];
      apply Ha in Hin as [_ Hin]; congruence|done].
    apply NoDup_app. split_and!; [by apply NoDup_filter | | by apply NoDup_filter].
    intros x [_ Hx]%Hf [_ Hy]%Hf. congruence.
  - intros x Hx%list_elem_of_In. apply list_elem_of_In.
    apply elem_of_app in Hx as [Hx|Hx]; [|by apply Ha].
    by apply elem_of_app in Hx as [Hx|Hx]; apply Hf in Hx as [? _].
Qed.

Definition with_ballot (p : KeystoreProposal) (st : ProposalStatus) : KeystoreProposal :=
  mkProposal (kp_id p) (kp_public_key p) (kp_measurements p) (kp_submitter p) (kp_created_at p)
    (kp_votes_for p + 1) (kp_votes_against p) st.

(** A member who can vote on a registration proposal, and that the sums hold. *)
Record ballot_ready (s : DaoSys) (e : Env) (id : Z) (p : KeystoreProposal) : Prop := {
  br_account : current_account_id e = dao_account s;
  br_outside : predecessor_account_id e ≠ dao_account s;
  br_deposit : attached_deposit e = 0;
  br_member : predecessor_account_id e ∈ dao_members (dao s);
  br_unvoted : votes (dao s) !! (id, predecessor_account_id e) = None;
  br_proposal : proposals (dao s) !! id = Some p;
  br_kind : revoke_proposals (dao s) !! id = None;
  br_pending : kp_status p = Pending;
  br_width : 0 ≤ kp_votes_for p ∧ kp_votes_for p + 1 < 2 ^ 32;
  br_nodup : NoDup (dao_members (dao s));
  br_threshold : exact_threshold (dao s);
  br_size : set_length (dao_members (dao s)) < 2 ^ 32;
  br_slack : live_count (dao s) id false ≤ set_length (dao_members (dao s)) - approval_threshold (dao s);
}.

(** What a vote in favour does. *)
Lemma ballot_step s e id p :
  ballot_ready s e id p →
  let d1 := (dao s) <| votes := <[(id, predecessor_account_id e) := true]> (votes (dao s)) |> in
  dao_step s (DCall None e (Vote id true)) =
  if approval_threshold (dao s) <=? live_count (dao s) id true + 1 then
    mkDaoSys (d1 <| proposals := <[id := with_ballot p Executed]> (proposals (dao s)) |>
                 <| approved_keystores := set_insert (kp_public_key p) (approved_keystores (dao s)) |>)
      (dao_account s) (dao_keys s)
      (key_batches s ++ [[AddKey (kp_public_key p) (FunctionCallKey None (dao_account s) KEYSTORE_METHODS)]])
  else
    mkDaoSys (d1 <| proposals := <[id := with_ballot p Pending]> (proposals (dao s)) |>)
      (dao_account s) (dao_keys s) (key_batches s).
Proof.
  intros [Ha Ho Hd Hm Hu Hp Hk Hs Hw Hn Ht Hz Hl]. destruct (exact_slack _ Ht Hz) as [Hth Hth'].
  intros d1. cbn [dao_step]. unfold admissible. rewrite Ha, bool_decide_eq_true_2 by done.
  rewrite bool_decide_eq_false_2 by done. cbn [negb andb orb run_dao_call].
  unfold vote, dao_no_deposit, record_vote, count_vote, decision, bind, require, unwrap, get_st, modify, emit, ret.
  cbn [st out]. rewrite Hd. cbn [Z.eqb]. rewrite bool_decide_eq_true_2 by done. cbn [st out].
  rewrite bool_decide_eq_false_2 by (rewrite Hk; by intros []). cbn [st out]. rewrite Hp. cbn [st out].
  rewrite bool_decide_eq_true_2 by done. cbn [st out]. rewrite bool_decide_eq_true_2 by done. cbn [st out].
  unfold checked. rewrite in_width_intro by lia. cbn [st out]. unfold ret. cbn [st out]. fold d1.
  change (approval_threshold d1) with (approval_threshold (dao s)).
  change (dao_members d1) with (dao_members (dao s)).
  assert (live_count d1 id true = live_count (dao s) id true + 1) as -> by exact (live_count_vote _ _ _ true true Hn Hm Hu).
  assert (live_count d1 id false = live_count (dao s) id false + 0) as -> by exact (live_count_vote _ _ _ true false Hn Hm Hu).
  unfold as_u32. rewrite Z.mod_small by (unfold set_length in *; lia).
  destruct (_ <=? _); [unfold execute_proposal, bind, require, emit, modify, ret; cbn; by rewrite Ha|].
  rewrite in_width_intro by lia. cbn. rewrite Z.add_0_r, (proj2 (Z.ltb_ge _ _)) by lia. cbn.
  by rewrite app_nil_r.
Qed.

(** A decided proposal takes no more votes. *)
Lemma ballot_closed s e id p :
  proposals (dao s) !! id = Some p → revoke_proposals (dao s) !! id = None → kp_status p ≠ Pending →
  dao_step s (DCall None e (Vote id true)) = s.
Proof.
  intros Hp Hk Hs. cbn [dao_step]. destruct (admissible _ _ _ _); [|done]. cbn [negb run_dao_call].
  destruct (vote e id true _) as [[u w']|] eqn:E; [|done]. exfalso. unfold vote in E. dinv.
  rewrite Hk, Hp in *. case_bool_decide as Hb; [by destruct Hb|]. dinv. congruence.
Qed.
Lemma ballots_closed s id p (env_of : AccountId → Env) l :
  proposals (dao s) !! id = Some p → revoke_proposals (dao s) !! id = None → kp_status p ≠ Pending →
  dao_run s (map (λ a, DCall None (env_of a) (Vote id true)) l) = s.
Proof.
  intros Hp Hk Hs. induction l as [|a l IH]; [done|]. unfold dao_run in *. cbn [map foldl].
  by erewrite ballot_closed.
Qed.

(** One deletion for each key of the proposal that is still approved. *)
Lemma revocations_exact keys : ∀ approved, NoDup keys → NoDup approved →
  revocations keys approved = map (λ k, [DeleteKey k]) (filter (λ k, k ∈ approved) keys).
Proof.
  induction keys as [|x keys IH]; intros approved Hk Hn; [done|]. cbn [revocations].
  apply NoDup_cons in Hk as [Hx Hk]. rewrite IH by (done || by apply set_remove_nodup).
  rewrite filter_cons.
  assert (filter (λ k, k ∈ set_remove x approved) keys = filter (λ k, k ∈ approved) keys) as ->.
  { clear -Hx Hn. induction keys as [|y keys IH]; [done|]. rewrite !filter_cons.
    rewrite IH by set_solver. assert (y ≠ x) by set_solver.
    destruct (decide (y ∈ approved)) as [Hy|Hy].
    - by rewrite decide_True by by apply elem_of_set_remove.
    - rewrite decide_False; [done|]. by intros [? _]%elem_of_set_remove. }
  case_bool_decide; [by rewrite decide_True | by rewrite decide_False].
Qed.
End liveness.

(** * Claims *)

Section claims.
Context `{Platform} `{TeeVerifier}.

(** C7: A keystore key is approved only after the init account registered it with a
    quote that verified against the cached collateral of its platform, up to date
    and without advisories, with measurements approved at that moment and report
    data bound to that very key, and after more than half of the members of some
    moment had each voted for that registration. *)
Theorem keystore_approved_by_vote s evs pk :
  dao_deployed s → fits evs →
  pk ∈ approved_keystores (dao (dao_run s evs)) → approved_by_vote s evs pk.
Proof.
  intros Hd Hf Hpk. destruct (dao_run_ok s evs Hd Hf) as [Hh _].
  exact (ro_approved _ _ _ (dh_registry _ _ _ Hh) _ Hpk).
Qed.

(** Every access key of the DAO's account was there at deployment or is a
    function-call key limited to [request_key], [mark_vault_verified] and
    [ban_vault], of a keystore approved by vote; the contract never adds a
    full-access key. *)
Theorem dao_keys_accounted s evs k scope :
  dao_deployed s → fits evs →
  dao_keys (dao_run s evs) !! k = Some scope →
  dao_keys s !! k = Some scope ∨
  scope = FunctionCallKey None (dao_account s) KEYSTORE_METHODS ∧ approved_by_vote s evs k.
Proof.
  intros Hd Hf Hk. destruct (dao_run_ok s evs Hd Hf) as [Hh _]. exact (dh_keys _ _ _ Hh _ _ Hk).
Qed.

(** A revocation never takes away a key the account was deployed with: as long
    as nobody attested that key in a registration, it keeps its scope whatever the
    members vote. *)
Theorem deployed_key_survives s evs k scope :
  dao_deployed s → fits evs → dao_keys s !! k = Some scope →
  (∀ id m, ¬ submitted s evs id k m) → dao_keys (dao_run s evs) !! k = Some scope.
Proof.
  intros Hd. induction evs as [|ev evs IH] using rev_ind; intros Hf Hk Hn; [done|].
  destruct (dao_run_ok s evs Hd (fits_app _ _ Hf)) as [Hh _]. change (dao_run s evs) with (dao_at s evs) in *.
  assert (dao_keys (dao_at s evs) !! k = Some scope) as Hold.
  { apply IH; [by eapply fits_app | done|]. intros id m Hs. by eapply Hn, submitted_app. }
  change (dao_run s (evs ++ [ev])) with (dao_at s (evs ++ [ev])). rewrite dao_at_snoc.
  destruct ev as [sk e call|i fails]; cbn.
  - destruct (negb _); [done|]. by destruct (run_dao_call _ _ _) as [[]|].
  - destruct (key_batches (dao_at s evs) !! i) as [batch|] eqn:Ei; [|done]. cbn.
    destruct fails; [done|]. destruct (apply_batch _ batch) as [keys'|] eqn:Eb; [|done]. cbn.
    eapply batch_keeps; [|by intros id m Hs; eapply Hn, submitted_app|done|done].
    exact (proj1 (Forall_lookup _ _) (dh_batches _ _ _ Hh) i batch Ei).
Qed.

(** Vault code is whitelisted only after more than half of the members of some
    moment each called for that hash, all with the label and audit link it is
    recorded with. *)
Theorem vault_code_by_quorum s evs h :
  dao_deployed s → fits evs → is_vault_code_approved (dao (dao_run s evs)) h = true →
  ∃ info, vault_versions (dao (dao_run s evs)) !! h = Some info ∧
    elected s evs (backed s (Approve h) (mkArgs (label info) (audit_url info))).
Proof.
  unfold is_vault_code_approved. intros Hd Hf Hh. prop_bool.
  destruct (dao_run_ok s evs Hd Hf) as [Hi _]. exact (vo_elected _ _ _ (dh_versions _ _ _ Hi) _ Hh).
Qed.

(** Whitelisted vault code leaves the list only by a revocation more than half
    of the members called for. *)
Theorem vault_code_revoked_by_quorum s evs ev h :
  dao_deployed s → fits (evs ++ [ev]) →
  is_vault_code_approved (dao (dao_run s evs)) h = true →
  is_vault_code_approved (dao (dao_run s (evs ++ [ev]))) h = false →
  ∀ g, elected s (evs ++ [ev]) (backed s (Revoke h) g).
Proof.
  unfold is_vault_code_approved. intros Hd Hf Hin Hout. prop_bool.
  destruct (dao_run_ok s evs Hd (fits_app _ _ Hf)) as [[_ Hq _ Hv _ _] _].
  change (dao_run s (evs ++ [ev])) with (dao_at s (evs ++ [ev])) in Hout. rewrite dao_at_snoc in Hout.
  change (dao_run s evs) with (dao_at s evs) in Hin.
  destruct ev as [k e call|i fails]; cbn in Hout; [|by destruct (key_batches (dao_at s evs) !! i)].
  destruct (negb _); [done|]. destruct (run_dao_call _ _ _) as [[u w']|] eqn:Er; [|done]. cbn in Hout.
  destruct (on_versions call) eqn:Ec.
  - destruct call; try done; cbn in Er; dinv.
    + exfalso. unfold approve_vault_version in *. dinv.
      match goal with Hx : lock_args _ _ _ = _ |- _ => apply lock_args_ok in Hx as [_ (args & -> & _)] end.
      destruct (_ <=? _); unfold internal_approve_vault_version in *; dinv; cbn in Hout; [|done].
      apply Hout, elem_of_set_insert. by right.
    + exfalso. unfold deprecate_vault_version in *. dinv. done.
    + match goal with Hx : revoke_vault_version _ _ _ = _ |- _ =>
        destruct (revoke_version_good s evs k e hash _ _ Hq Hv Hx) as [_ He];
        assert (h = hash) as -> end; [|by apply He].
      unfold revoke_vault_version in *. dinv. destruct (decide (h = hash)); [done|]. exfalso.
      destruct (_ <=? _); unfold internal_revoke_vault_version in *; dinv; cbn in Hout; [|done].
      apply Hout, elem_of_set_remove; [apply Hv | done].
  - exfalso. pose proof (frame_versions e call Ec _ _ _ Er) as Hx. injection Hx as _ _ Hx _.
    cbn in Hx. rewrite Hx in Hout. done.
Qed.

(** A vault counts as verified only if somebody holding a key of the DAO's
    account that allows it, a deployed key or that of a keystore approved by vote,
    marked it, and only while it is not banned. *)
Theorem verified_vault_was_marked s evs v :
  dao_deployed s → fits evs → is_vault_verified (dao (dao_run s evs)) v = true →
  is_vault_banned (dao (dao_run s evs)) v = false ∧
  ∃ pre k e post scope, evs = pre ++ DCall (Some k) e (MarkVerified v) :: post ∧
    dao_keys (dao_run s pre) !! k = Some scope ∧
    scope_permits scope (dao_account s) "mark_vault_verified" 0 = true ∧
    (dao_keys s !! k = Some scope ∨ approved_by_vote s pre k).
Proof.
  unfold is_vault_verified, is_vault_banned. intros Hd Hf Hv. apply andb_true_iff in Hv as [Hv Hb].
  apply negb_true_iff in Hb. split; [done|]. prop_bool.
  change (dao_run s evs) with (dao_at s evs) in Hv.
  destruct (verified_marked s evs v Hv) as [H0'|(pre & k & e & post & sc & -> & Hp & Hk & Hs)].
  - exfalso. destruct Hd as [(e & o & i & m & mpc & Hn & _) _]. unfold new_dao in Hn.
    destruct (_ && _); [|done]. injection Hn as Hn. rewrite <- Hn in H0'. cbn in H0'. set_solver.
  - exists pre, k, e, post, sc. split_and!; try done.
    destruct (dao_run_ok s pre Hd (fits_app _ _ Hf)) as [Hh _].
    destruct (dh_keys _ _ _ Hh _ _ Hk) as [|[_ ?]]; auto.
Qed.

(** A majority is enough.  With distinct members the threshold is one more than
    half of them, rounded down; when that many members, counting the ones already
    for it, are left to vote for a pending registration and do so in any order, it
    is executed: the key is approved and its access key scheduled. *)
Theorem majority_executes s id p l (env_of : AccountId → Env) :
  NoDup (dao_members (dao s)) → exact_threshold (dao s) → set_length (dao_members (dao s)) < 2 ^ 32 →
  get_proposal (dao s) id = Some p → get_revoke_proposal (dao s) id = None → kp_status p = Pending →
  0 ≤ kp_votes_for p → kp_votes_for p + set_length l < 2 ^ 32 →
  l ≠ [] → NoDup l →
  (∀ a, a ∈ l → a ∈ dao_members (dao s) ∧ votes (dao s) !! (id, a) = None ∧
     predecessor_account_id (env_of a) = a ∧ a ≠ dao_account s ∧
     attached_deposit (env_of a) = 0 ∧ current_account_id (env_of a) = dao_account s) →
  approval_threshold (dao s) ≤ live_count (dao s) id true + set_length l →
  let s' := dao_run s (map (λ a, DCall None (env_of a) (Vote id true)) l) in
  kp_public_key p ∈ approved_keystores (dao s') ∧
  (∃ p', get_proposal (dao s') id = Some p' ∧ kp_status p' = Executed) ∧
  [AddKey (kp_public_key p) (FunctionCallKey None (dao_account s) KEYSTORE_METHODS)] ∈ key_batches s'.
Proof.
  unfold get_proposal, get_revoke_proposal.
  revert s p. induction l as [|a l IH]; intros s p Hn Ht Hz Hp Hk Hs Hv0 Hw Hne Hnd Hl Hth; [done|].
  cbv zeta. cbn [map dao_run foldl]. fold (dao_run (dao_step s (DCall None (env_of a) (Vote id true)))
    (map (λ a, DCall None (env_of a) (Vote id true)) l)).
  pose proof (votes_disjoint (dao s) id (a :: l) Hn Hnd ltac:(intros x Hx; split; by apply Hl)) as Hdis.
  destruct (Hl a ltac:(left)) as (Ham & Hau & Hpre & Hao & Had & Hac).
  unfold set_length in Hw, Hdis, Hth. cbn [length] in *.
  assert (ballot_ready s (env_of a) id p) as Hready.
  { constructor; try done; rewrite ?Hpre; try done; unfold set_length in *; lia. }
  rewrite (ballot_step _ _ _ _ Hready). rewrite Hpre. destruct (_ <=? _) eqn:Ed; prop_bool.
  - erewrite (ballots_closed _ id (with_ballot p Executed)); [|apply lookup_insert_eq|done|done]. cbn.
    split_and!; [apply elem_of_set_insert; by left | eexists; split; [apply lookup_insert_eq | done] | apply elem_of_app; right; left].
  - match goal with |- context [dao_run ?s1 _] => refine (IH s1 (with_ballot p Pending) _ _ _ _ _ _ _ _ _ _ _ _) end;
      cbn; try done; try lia.
    + apply lookup_insert_eq.
    + unfold set_length. lia.
    + intros ->. cbn in *. lia.
    + by apply NoDup_cons in Hnd as [_ ?].
    + intros x Hx. destruct (Hl x ltac:(by right)) as (? & ? & ? & ? & ? & ?). split_and!; try done.
      rewrite lookup_insert_ne; [done|]. apply NoDup_cons in Hnd as [Hax _]. congruence.
    + match goal with |- _ ≤ live_count ?d1 _ _ + _ =>
        change (live_count d1 id true) with
          (live_count ((dao s) <| votes := <[(id, a) := true]> (votes (dao s)) |>) id true) end.
      rewrite live_count_vote by done. rewrite bool_decide_eq_true_2 by done. unfold set_length. lia.
Qed.

(** With distinct members at deployment the threshold is always one more than
    half of the current members, rounded down, whoever joins or leaves; so it never
    exceeds their number and a count of votes never panics. *)
Theorem threshold_is_majority s evs e owner init members mpc :
  new_dao e owner init members mpc = Some (dao s) → NoDup members →
  let d := dao (dao_run s evs) in
  approval_threshold d = majority (set_length (get_dao_members d)) ∧ 0 < set_length (get_dao_members d).
Proof.
  intros Hnew Hnd. cbv zeta. unfold get_dao_members.
  enough (exact_threshold (dao (dao_at s evs)) ∧ NoDup (dao_members (dao (dao_at s evs)))) as [Ht _] by exact Ht.
  induction evs as [|ev evs [IHt IHn]] using rev_ind.
  - unfold new_dao in Hnew. destruct (_ && _) eqn:E; [|done]. injection Hnew as Hnew. prop_bool.
    change (dao_at s []) with s. rewrite <- Hnew. unfold exact_threshold, set_length. cbn.
    rewrite set_from_id by done. split_and!; [done | destruct members; [done | cbn; lia] | apply set_from_spec].
  - rewrite dao_at_snoc. destruct ev as [k c call|i fails]; cbn.
    + destruct (negb _); [done|]. destruct (run_dao_call _ _ _) as [[u w']|] eqn:Er; [|done].
      by apply (call_threshold c call (mkWorld (dao (dao_at s evs)) []) u w').
    + by destruct (key_batches (dao_at s evs) !! i).
Qed.

(** The vote that completes a revocation takes every key of the proposal off the
    approved set and no other, and schedules one deletion for each of them that was
    still approved; the proposal is then executed. *)
Theorem revocation_exact e id p (w : DW) :
  attached_deposit e = 0 → predecessor_account_id e ∈ dao_members (st w) →
  NoDup (dao_members (st w)) → NoDup (approved_keystores (st w)) → NoDup (rp_public_keys p) →
  get_revoke_proposal (st w) id = Some p → rp_status p = Pending →
  votes (st w) !! (id, predecessor_account_id e) = None →
  0 ≤ rp_votes_for p < U32_MAX →
  approval_threshold (st w) ≤ live_count (st w) id true + 1 →
  ∃ w', vote e id true w = Ok (tt, w') ∧
    (∀ k, k ∈ approved_keystores (st w') ↔ k ∈ approved_keystores (st w) ∧ k ∉ rp_public_keys p) ∧
    out w' ≫= batches_of = (out w ≫= batches_of) ++
      map (λ k, [DeleteKey k]) (filter (λ k, k ∈ approved_keystores (st w)) (rp_public_keys p)) ∧
    ∃ p', get_revoke_proposal (st w') id = Some p' ∧ rp_status p' = Executed.
Proof.
  unfold get_revoke_proposal. intros Hd Hm Hn Hna Hnk Hp Hs Hv Hw Ht.
  set (d1 := (st w) <| votes := <[(id, predecessor_account_id e) := true]> (votes (st w)) |>).
  set (p' := mkRevoke (rp_id p) (rp_public_keys p) (rp_proposer p) (rp_created_at p)
               (rp_votes_for p + 1) (rp_votes_against p) Executed).
  assert (vote e id true w = execute_revoke id p' (mkWorld d1 (out w))) as ->.
  { unfold vote, dao_no_deposit, bind, require, get_st, ret. rewrite Hd. cbn [Z.eqb].
    rewrite bool_decide_eq_true_2 by done. rewrite bool_decide_eq_true_2 by (rewrite Hp; eauto).
    unfold internal_vote_revoke, record_vote, count_vote, decision, bind, require, unwrap, get_st, modify, ret.
    rewrite Hp. cbn. rewrite bool_decide_eq_true_2 by done. cbn. rewrite bool_decide_eq_true_2 by done. cbn. unfold checked.
    rewrite in_width_intro by (unfold U32_MAX in *; lia). cbn. fold d1.
    assert (live_count d1 id true = live_count (st w) id true + 1) as -> by exact (live_count_vote _ _ _ true true Hn Hm Hv).
    by rewrite (proj2 (Z.leb_le _ _)) by done. }
  unfold execute_revoke, bind, modify, emit.
  destruct (for_each (rp_public_keys p') revoke_one (mkWorld d1 (out w))) as [[[] w1]|msg] eqn:E.
  - apply revoke_all_ok in E as [Est Eout]. cbn [st out rp_public_keys p'] in *.
    eexists. split; [done|]. cbn. rewrite Est. cbn. split_and!.
    + intros k. by apply revoked_spec.
    + rewrite bind_app, Eout, revocations_exact by done. cbn. by rewrite app_nil_r.
    + exists p'. split; [apply lookup_insert_eq | done].
  - exfalso. revert E. generalize (mkWorld d1 (out w)) (rp_public_keys p').
    intros w0 l. revert w0. induction l as [|k l IH]; intros w0; cbn; [done|].
    unfold revoke_one, bind, get_st, modify, emit, ret. cbn. destruct (bool_decide _); cbn; apply IH.
Qed.
End claims.

(** * One DAO *)

#[local] Existing Instance tee_platform.
#[local] Existing Instance tee_verifier.

Definition dao_env (who : AccountId) : Env :=
  mkEnv who who "dao.near" 0 1000000000 "yield-1" (λ _, false) (λ _, 0).
Definition by_ (who : AccountId) (call : DaoCall) : DaoEvent := DCall None (dao_env who) call.
Definition owner_key : PublicKey := mkKey ED25519 "owner".

Definition dao_of (members : list AccountId) : option DaoSys :=
  (λ d, mkDaoSys d "dao.near" {[owner_key := FullAccess]} []) <$>
    new_dao (dao_env "owner.near") "owner.near" "init.near" members "mpc.near".
Definition three_members : list AccountId := ["a.near"; "b.near"; "c.near"].
Definition empty_dao : KeystoreDao :=
  mkDao [] 0 "" "" "" ∅ 0 ∅ [] [] [] false [] ∅ [] [] ∅ ∅ ∅.
Definition dao_start : DaoSys :=
  default (mkDaoSys empty_dao "" ∅ []) (dao_of three_members).

(** The owner allows the measurements and caches a collateral; the keystore is
    registered, two of the three members vote for it, and its key is added. *)
Definition setup : list DaoEvent :=
  [by_ "owner.near" (AddMeasurements sample_measurements None);
   by_ "owner.near" (UpdateCollateral "fmspc: 464d53504331" 0);
   by_ "init.near" (SubmitRegistration keystore_key keystore_quote None)].
Definition elect : list DaoEvent :=
  setup ++ [by_ "a.near" (Vote 1 true); by_ "b.near" (Vote 1 true); DKeys 0 false].

Lemma dao_start_deployed : dao_deployed dao_start.
Proof.
  split; [|done]. exists (dao_env "owner.near"), "owner.near", "init.near", three_members, "mpc.near".
  split; [reflexivity | vm_compute; reflexivity].
Qed.

Lemma keystore_approved_by_vote_witness : approved_by_vote dao_start elect keystore_key.
Proof.
  apply keystore_approved_by_vote; [exact dao_start_deployed | vm_compute; reflexivity|].
  vm_compute. left.
Defined.

Lemma dao_keys_accounted_witness :
  dao_keys dao_start !! keystore_key = Some (FunctionCallKey None "dao.near" KEYSTORE_METHODS) ∨
  FunctionCallKey None "dao.near" KEYSTORE_METHODS = FunctionCallKey None "dao.near" KEYSTORE_METHODS ∧
  approved_by_vote dao_start elect keystore_key.
Proof.
  apply (dao_keys_accounted dao_start elect);
    [exact dao_start_deployed | vm_compute; reflexivity | vm_compute; reflexivity].
Defined.

(** Nobody registers anything in [governance]. *)
Definition governance : list DaoEvent :=
  [by_ "a.near" DeclareCessation; by_ "b.near" RevokeCessation].
Lemma deployed_key_survives_witness :
  dao_keys (dao_run dao_start governance) !! owner_key = Some FullAccess.
Proof.
  apply deployed_key_survives; [exact dao_start_deployed | vm_compute; reflexivity | reflexivity |].
  intros id m (pre & k & e & q & app & post & Hev & _).
  assert (DCall k e (SubmitRegistration owner_key q app) ∈ governance) as Hin by (rewrite Hev; set_solver).
  unfold governance, by_ in Hin. set_solver.
Defined.

Definition whitelist : list DaoEvent :=
  [by_ "a.near" (ApproveVersion "hash-1" "v1.0" None); by_ "c.near" (ApproveVersion "hash-1" "v1.0" None)].
Lemma vault_code_by_quorum_witness :
  ∃ info, vault_versions (dao (dao_run dao_start whitelist)) !! "hash-1" = Some info ∧
    elected dao_start whitelist (backed dao_start (Approve "hash-1") (mkArgs (label info) (audit_url info))).
Proof.
  apply vault_code_by_quorum; [exact dao_start_deployed | vm_compute; reflexivity | vm_compute; reflexivity].
Defined.

Lemma vault_code_revoked_by_quorum_witness :
  elected dao_start (whitelist ++ [by_ "a.near" (RevokeVersion "hash-1")] ++ [by_ "b.near" (RevokeVersion "hash-1")])
    (backed dao_start (Revoke "hash-1") (mkArgs "" None)).
Proof.
  rewrite app_assoc. apply vault_code_revoked_by_quorum;
    [exact dao_start_deployed | vm_compute; reflexivity | vm_compute; reflexivity | vm_compute; reflexivity].
Defined.

Definition verification : list DaoEvent :=
  elect ++ [DCall (Some keystore_key) (dao_env "dao.near") (MarkVerified "vault.near")].
Lemma verified_vault_was_marked_witness :
  is_vault_banned (dao (dao_run dao_start verification)) "vault.near" = false.
Proof.
  refine (proj1 (verified_vault_was_marked dao_start verification "vault.near" _ _ _));
    [exact dao_start_deployed | vm_compute; reflexivity | vm_compute; reflexivity].
Defined.

Definition registered : DaoSys := dao_run dao_start setup.
Definition registration : KeystoreProposal :=
  mkProposal 1 keystore_key sample_measurements "init.near" 1000000000 0 0 Pending.
Lemma majority_executes_witness :
  keystore_key ∈ approved_keystores (dao (dao_run registered
    (map (λ a, DCall None (dao_env a) (Vote 1 true)) ["c.near"; "b.near"]))).
Proof.
  apply (majority_executes registered 1 registration ["c.near"; "b.near"] dao_env).
  - apply (bool_decide_unpack _). vm_compute. exact I.
  - split; vm_compute; reflexivity.
  - vm_compute. reflexivity.
  - vm_compute. reflexivity.
  - vm_compute. reflexivity.
  - reflexivity.
  - vm_compute. discriminate.
  - vm_compute. reflexivity.
  - discriminate.
  - apply (bool_decide_unpack _). vm_compute. exact I.
  - intros a Ha. apply elem_of_cons in Ha as [->|Ha%list_elem_of_singleton]; [|subst a];
      (split_and!; [apply (bool_decide_unpack _); vm_compute; exact I | vm_compute; reflexivity
        | reflexivity | vm_compute; discriminate | reflexivity | vm_compute; reflexivity]).
  - vm_compute. discriminate.
Defined.

Lemma threshold_is_majority_witness :
  approval_threshold (dao (dao_run dao_start [by_ "owner.near" (AddMember "d.near")])) = 3.
Proof.
  rewrite (proj1 (threshold_is_majority dao_start [by_ "owner.near" (AddMember "d.near")]
    (dao_env "owner.near") "owner.near" "init.near" three_members "mpc.near" eq_refl ltac:(by apply (bool_decide_unpack _)))).
  vm_compute. reflexivity.
Defined.

Definition revoking : DaoSys := dao_run dao_start (elect ++ [by_ "a.near" (ProposeRevoke [keystore_key])]).
Lemma revocation_exact_witness :
  ∃ w', vote (dao_env "b.near") 2 true (mkWorld (dao revoking) []) = Ok (tt, w') ∧
    approved_keystores (st w') = [] .
Proof.
  destruct (revocation_exact (dao_env "b.near") 2
    (mkRevoke 2 [keystore_key] "a.near" 1000000000 1 0 Pending) (mkWorld (dao revoking) []))
    as (w' & Hr & Hk & _).
  1, 6, 7, 8: vm_compute; reflexivity.
  1, 2, 3, 4: apply (bool_decide_unpack _); vm_compute; exact I.
  1: split; vm_compute; [discriminate | reflexivity].
  1: vm_compute; discriminate.
  exists w'. split; [exact Hr|]. destruct (approved_keystores (st w')) as [|k l]; [done|]. exfalso.
  destruct (proj1 (Hk k) ltac:(left)) as [Ha Hb]. vm_compute in Ha.
  apply list_elem_of_singleton in Ha. apply Hb. rewrite Ha. left.
Defined.

(** A member named twice at deployment counts twice in the threshold and once in
    the set: with one member listed three times the threshold is two, no proposal
    can pass, and the check against rejection subtracts below zero, so every vote
    panics until the owner changes the members. *)
Theorem duplicate_members_block_votes :
  ∃ s, dao_of ["a.near"; "a.near"; "a.near"] = Some s ∧
    get_dao_members (dao s) = ["a.near"] ∧ approval_threshold (dao s) = 2 ∧
    let d := dao (dao_run s setup) in
    is_Some (get_proposal d 1) ∧
    is_ok (vote (dao_env "a.near") 1 true (mkWorld d [])) = false ∧
    is_ok (vote (dao_env "a.near") 1 false (mkWorld d [])) = false.
Proof. eexists. split; [reflexivity|]. vm_compute. split_and!; eauto. Qed.

(** A revoked key can come back: two registrations of the same key may be pending
    together, and voting for the second after the key was approved and revoked
    approves it again and puts its access key back. *)
Theorem revoked_key_returns :
  let again := setup ++ [by_ "init.near" (SubmitRegistration keystore_key keystore_quote None);
    by_ "a.near" (Vote 1 true); by_ "b.near" (Vote 1 true); DKeys 0 false;
    by_ "a.near" (ProposeRevoke [keystore_key]); by_ "b.near" (Vote 3 true); DKeys 0 false] in
  let later := again ++ [by_ "a.near" (Vote 2 true); by_ "b.near" (Vote 2 true); DKeys 0 false] in
  approved_keystores (dao (dao_run dao_start again)) = [] ∧
  dao_keys (dao_run dao_start again) !! keystore_key = None ∧
  approved_keystores (dao (dao_run dao_start later)) = [keystore_key] ∧
  dao_keys (dao_run dao_start later) !! keystore_key =
    Some (FunctionCallKey None "dao.near" KEYSTORE_METHODS).
Proof. vm_compute. done. Qed.
