(* ===== verification/Register.v ===== *)
(** Worker registration (register-contract/src/lib.rs): the contract that lives on the
    worker account and adds an access key to it for a key whose TDX quote verifies. *)

From S2P Require Export TeeSamples.

Record RegisterContract := mkRegister {
  register_owner_id : AccountId;
  init_worker_account : AccountId;
  approved_measurements : list ApprovedMeasurements;
  collaterals : list string;
  outlayer_contract_id : AccountId;
}.
Definition eta_register (c : RegisterContract) : RegisterContract :=
  mkRegister (register_owner_id c) (init_worker_account c) (approved_measurements c) (collaterals c)
    (outlayer_contract_id c).
#[export] Instance set_register_owner : Setter register_owner_id := ltac:(derive_setter eta_register).
#[export] Instance set_register_measurements : Setter approved_measurements :=
  ltac:(derive_setter eta_register).
#[export] Instance set_register_collaterals : Setter collaterals := ltac:(derive_setter eta_register).

Inductive RegisterAction :=
| WorkerKeys (batch : list KeyAction)
| RegisterLog (msg : string).

Abbreviation RW := (World RegisterContract RegisterAction).
Abbreviation RM := (M (World RegisterContract RegisterAction)).

Definition WORKER_METHODS : string :=
  "resolve_execution,submit_execution_output_and_resolve,resume_topup,resume_delete_payment_key".
Definition WORKER_ALLOWANCE : Z := 10 * 10 ^ 24.

Definition register_no_deposit (e : Env) : RM unit :=
  require (attached_deposit e =? 0) "Method doesn't accept deposit".
Definition assert_owner (e : Env) : RM unit :=
  let! c := get_st in
  require (bool_decide (predecessor_account_id e = register_owner_id c)) "Only owner can call this method".

Definition new_register (e : Env) (owner_id init_worker_account outlayer_contract_id : AccountId)
    : option RegisterContract :=
  if attached_deposit e =? 0
  then Some (mkRegister owner_id init_worker_account [] [] outlayer_contract_id) else None.

Section methods.
Context `{Platform} `{TeeVerifier}.

Definition register_worker_key (e : Env) (public_key : PublicKey) (tdx_quote_hex : string) : RM unit :=
  register_no_deposit e >>>
  let! c := get_st in
  require (bool_decide (predecessor_account_id e = init_worker_account c))
    "Only the init worker account can call register_worker_key" >>>
  let! _ := check_attestation (block_timestamp e) (collaterals c) (approved_measurements c)
    public_key tdx_quote_hex in
  emit (RegisterLog "TEE verification passed") >>>
  emit (WorkerKeys [AddKey public_key
          (FunctionCallKey (Some WORKER_ALLOWANCE) (outlayer_contract_id c) WORKER_METHODS)]).

Definition update_collateral (e : Env) (collateral : string) (index : Z) : RM unit :=
  register_no_deposit e >>> assert_owner e >>>
  let! c := get_st in
  let! l := put_collateral (collaterals c) collateral index in
  modify (λ c, c <| collaterals := l |>) >>>
  emit (RegisterLog "Quote collateral updated").
Definition add_approved_measurements (e : Env) (m : ApprovedMeasurements) (clear_others : option bool)
    : RM unit :=
  register_no_deposit e >>> assert_owner e >>>
  validate_measurements m >>>
  modify (λ c, c <| approved_measurements := with_measurements (approved_measurements c) m clear_others |>) >>>
  emit (RegisterLog "Approved measurements added").
Definition remove_approved_measurements (e : Env) (m : ApprovedMeasurements) : RM unit :=
  register_no_deposit e >>> assert_owner e >>>
  modify (λ c, c <| approved_measurements := without_measurements (approved_measurements c) m |>) >>>
  emit (RegisterLog "Approved measurements removed").
Definition clear_all_approved_measurements (e : Env) : RM unit :=
  register_no_deposit e >>> assert_owner e >>>
  modify (λ c, c <| approved_measurements := [] |>) >>>
  emit (RegisterLog "Cleared all measurement entries").

(** One promise per key. *)
Definition remove_worker_keys (e : Env) (public_keys : list PublicKey) : RM unit :=
  register_no_deposit e >>> assert_owner e >>>
  for_each public_keys (λ key,
    emit (RegisterLog "Removing worker key") >>> emit (WorkerKeys [DeleteKey key])) >>>
  emit (RegisterLog "Scheduled removal of worker keys").

Definition transfer_ownership (e : Env) (new_owner : AccountId) : RM unit :=
  register_no_deposit e >>> assert_owner e >>>
  emit (RegisterLog "Ownership transferred") >>>
  modify (λ c, c <| register_owner_id := new_owner |>).

Definition get_approved_measurements (c : RegisterContract) : list ApprovedMeasurements :=
  approved_measurements c.
Definition is_measurements_approved (c : RegisterContract) (m : ApprovedMeasurements) : bool :=
  bool_decide (m ∈ approved_measurements c).
Definition get_collateral (c : RegisterContract) : option string := head (collaterals c).
Definition get_collaterals (c : RegisterContract) : list string := collaterals c.
Definition get_init_worker_account (c : RegisterContract) : AccountId := init_worker_account c.
End methods.

(** * The worker account *)

Inductive RegisterCall :=
| RegisterWorkerKey (key : PublicKey) (tdx_quote_hex : string)
| UpdateCollateral (collateral : string) (index : Z)
| AddMeasurements (m : ApprovedMeasurements) (clear_others : option bool)
| RemoveMeasurements (m : ApprovedMeasurements)
| ClearMeasurements
| RemoveWorkerKeys (keys : list PublicKey)
| TransferOwnership (new_owner : AccountId).

Record RegisterSys := mkRegisterSys {
  register : RegisterContract;
  worker_keys : Keys;
  worker_batches : list (list KeyAction);
}.

Inductive RegisterEvent :=
| RCall (e : Env) (call : RegisterCall)
| RKeys (i : nat) (fails : bool).

Section account.
Context `{Platform} `{TeeVerifier}.

Definition run_register_call (e : Env) (call : RegisterCall) : RM unit :=
  match call with
  | RegisterWorkerKey k q => register_worker_key e k q
  | UpdateCollateral c i => update_collateral e c i
  | AddMeasurements m c => add_approved_measurements e m c
  | RemoveMeasurements m => remove_approved_measurements e m
  | ClearMeasurements => clear_all_approved_measurements e
  | RemoveWorkerKeys l => remove_worker_keys e l
  | TransferOwnership a => transfer_ownership e a
  end.

Definition worker_batches_of (a : RegisterAction) : list (list KeyAction) :=
  match a with WorkerKeys b => [b] | _ => [] end.

Definition register_step (s : RegisterSys) (ev : RegisterEvent) : RegisterSys :=
  match ev with
  | RCall e call =>
    match run_register_call e call (mkWorld (register s) []) with
    | Ok (_, w') => mkRegisterSys (st w') (worker_keys s) (worker_batches s ++ (out w' ≫= worker_batches_of))
    | Panic _ => s
    end
  | RKeys i fails =>
    match worker_batches s !! i with
    | Some batch =>
      let done := if fails : bool then None else apply_batch (worker_keys s) batch in
      mkRegisterSys (register s) (default (worker_keys s) done) (delete i (worker_batches s))
    | None => s
    end
  end.
Definition register_run (s : RegisterSys) (evs : list RegisterEvent) : RegisterSys :=
  foldl register_step s evs.
End account.

Section history.
Context `{Platform} `{TeeVerifier}.
Variable s0 : RegisterSys.
Abbreviation at_ := (register_run s0).

Definition worker_scope : KeyScope :=
  FunctionCallKey (Some WORKER_ALLOWANCE) (outlayer_contract_id (register s0)) WORKER_METHODS.

(** The init account registered the key while its quote verified and its
    measurements were approved. *)
Definition worker_attested (evs : list RegisterEvent) (pk : PublicKey) : Prop :=
  ∃ pre e quote post m, evs = pre ++ RCall e (RegisterWorkerKey pk quote) :: post ∧
    predecessor_account_id e = init_worker_account (register s0) ∧
    attested (block_timestamp e) (collaterals (register (at_ pre)))
      (approved_measurements (register (at_ pre))) pk quote m.

Lemma worker_attested_app evs more pk : worker_attested evs pk → worker_attested (evs ++ more) pk.
Proof.
  intros (pre & e & q & post & m & -> & Hr). exists pre, e, q, (post ++ more), m.
  split; [by rewrite <- app_assoc | done].
Qed.

Definition worker_batch_ok (evs : list RegisterEvent) (batch : list KeyAction) : Prop :=
  ∃ pk, batch = [AddKey pk worker_scope] ∧ worker_attested evs pk ∨ batch = [DeleteKey pk].

Record register_ok (evs : list RegisterEvent) (s : RegisterSys) : Prop := {
  rk_init : init_worker_account (register s) = init_worker_account (register s0);
  rk_outlayer : outlayer_contract_id (register s) = outlayer_contract_id (register s0);
  rk_batches : Forall (worker_batch_ok evs) (worker_batches s);
  rk_keys : ∀ k scope, worker_keys s !! k = Some scope → worker_keys s0 !! k = Some scope ∨
    scope = worker_scope ∧ worker_attested evs k;
}.

Lemma register_keep evs ev s : register_ok evs s → register_ok (evs ++ [ev]) s.
Proof.
  intros [? ? Hb Hk]. constructor; try done.
  - eapply Forall_impl; [exact Hb|]. intros b (pk & [[? ?]|?]); exists pk; auto using worker_attested_app.
  - intros k scope Hs. destruct (Hk _ _ Hs) as [|[? ?]]; auto using worker_attested_app.
Qed.

Definition fixed (c : RegisterContract) := (init_worker_account c, outlayer_contract_id c).
Lemma frame_fixed e call : frame fixed (run_register_call e call).
Proof.
  assert (∀ now cs ms pk q, frame fixed (check_attestation (W := RW) now cs ms pk q)).
  { intros now cs ms pk q w a w' Hr. by apply check_attestation_ok in Hr as [_ ->]. }
  destruct call; unfold run_register_call; solve_frame.
Qed.

Lemma remove_each_ok keys : ∀ (w : RW) u w',
  for_each keys (λ key, emit (RegisterLog "Removing worker key") >>> emit (WorkerKeys [DeleteKey key])) w
    = Ok (u, w') →
  st w' = st w ∧ out w' ≫= worker_batches_of =
    (out w ≫= worker_batches_of) ++ map (λ k, [DeleteKey k]) keys.
Proof.
  induction keys as [|k keys IH]; intros w u w' Hr; cbn in Hr; minv; [by rewrite app_nil_r|].
  match goal with Hf : for_each _ _ _ = _ |- _ => apply IH in Hf as [-> ->] end. cbn. split; [done|].
  rewrite !bind_app. cbn. by rewrite app_nil_r, <- app_assoc.
Qed.

(** The batches of a call. *)
Lemma call_batches evs e call u w' :
  register_ok evs (at_ evs) →
  run_register_call e call (mkWorld (register (at_ evs)) []) = Ok (u, w') →
  Forall (worker_batch_ok (evs ++ [RCall e call])) (out w' ≫= worker_batches_of).
Proof.
  intros Hok Hr. destruct call; cbn [run_register_call] in Hr;
    unfold register_worker_key, update_collateral, add_approved_measurements, remove_approved_measurements,
      clear_all_approved_measurements, remove_worker_keys, transfer_ownership, validate_measurements,
      validate_measurement_field, register_no_deposit, assert_owner, put_collateral in Hr;
    minv; cbn [st out] in *; prop_bool.
  - match goal with Hx : check_attestation _ _ _ _ _ _ = _ |- _ => apply check_attestation_ok in Hx as [Hatt ->] end.
    cbn. repeat constructor. exists key. left. unfold worker_scope. rewrite (rk_outlayer _ _ Hok). split; [done|].
    eexists evs, e, tdx_quote_hex, [], _. split_and!; [done | | done].
    rewrite <- (rk_init _ _ Hok). done.
  - destruct (_ <? _); [|destruct (_ =? _)]; minv; constructor.
  - constructor.
  - constructor.
  - constructor.
  - match goal with Hf : for_each _ _ _ = _ |- _ => apply remove_each_ok in Hf as [_ Eo] end.
    rewrite bind_app, Eo. cbn. rewrite app_nil_r. apply Forall_forall. intros b Hb.
    apply list_elem_of_In, in_map_iff in Hb as (k & <- & _). exists k. by right.
  - constructor.
Qed.

Lemma register_step_ok evs ev :
  register_ok evs (at_ evs) → register_ok (evs ++ [ev]) (at_ (evs ++ [ev])).
Proof.
  intros Hok. unfold register_run in *. rewrite foldl_app. cbn [foldl]. fold (register_run s0 evs) in *.
  pose proof (register_keep _ ev _ Hok) as [Hi Ho Hb Hk].
  destruct ev as [e call|i fails]; cbn.
  - destruct (run_register_call _ _ _) as [[u w']|] eqn:Er; [|done].
    pose proof (frame_fixed e call _ _ _ Er) as Hf. injection Hf as Hf1 Hf2. cbn in *.
    constructor; cbn; try congruence; [|done]. apply Forall_app. split; [done|]. by eapply call_batches.
  - destruct (worker_batches (at_ evs) !! i) as [batch|] eqn:Ei; [|done].
    constructor; cbn; try done; [by apply Forall_delete|].
    destruct fails; [done|]. destruct (apply_batch _ batch) as [keys'|] eqn:Eb; [|done]. cbn.
    intros k scope Hs. destruct (apply_batch_origin _ _ _ _ _ Eb Hs) as [Hold|Hin]; [by apply Hk|].
    destruct (proj1 (Forall_lookup _ _) Hb i batch Ei) as (pk & [[-> Ha]| ->]);
      apply list_elem_of_singleton in Hin; [|done].
    injection Hin as -> ->. auto.
Qed.

Lemma register_run_ok evs : worker_batches s0 = [] → register_ok evs (at_ evs).
Proof.
  intros Hb. induction evs as [|ev evs IH] using rev_ind; [|by apply register_step_ok].
  change (at_ []) with s0. constructor; [done | done | by rewrite Hb | by left].
Qed.
End history.

(** * Claims *)

Section claims.
Context `{Platform} `{TeeVerifier}.

(** What a worker's key may do: call one of the four settlement methods of the
    OutLayer contract, without a deposit. *)
Lemma worker_scope_permits s receiver method deposit :
  scope_permits (worker_scope s) receiver method deposit = true ↔
  receiver = outlayer_contract_id (register s) ∧ deposit = 0 ∧
  method ∈ ["resolve_execution"; "submit_execution_output_and_resolve"; "resume_topup";
            "resume_delete_payment_key"].
Proof.
  unfold worker_scope, scope_permits, WORKER_METHODS. cbn [str_is_empty orb].
  set (l := split_commas _ _). vm_compute in l. subst l.
  rewrite !andb_true_iff, !bool_decide_eq_true, Z.eqb_eq. naive_solver.
Qed.

(** C10: A key on the worker account that was not there at deployment was registered
    by the init account with a quote that verified at that time, measurements
    approved at that time and report data bound to it; and it can do nothing but
    call the four settlement methods of the OutLayer contract without a deposit. *)
Theorem worker_key_attested s evs k scope :
  worker_batches s = [] → worker_keys s !! k = None →
  worker_keys (register_run s evs) !! k = Some scope →
  worker_attested s evs k ∧
  ∀ receiver method deposit, scope_permits scope receiver method deposit = true →
    receiver = outlayer_contract_id (register s) ∧ deposit = 0 ∧
    method ∈ ["resolve_execution"; "submit_execution_output_and_resolve"; "resume_topup";
              "resume_delete_payment_key"].
Proof.
  intros Hb Hn Hk. destruct (rk_keys _ _ _ (register_run_ok s evs Hb) _ _ Hk) as [|[-> Ha]]; [congruence|].
  split; [done|]. intros r m d. apply worker_scope_permits.
Qed.

(** Registering a worker key succeeds exactly for the init account, without a
    deposit, and an attested key; every other call panics and changes nothing. *)
Theorem worker_registration_exact e pk q (w : RW) :
  is_ok (register_worker_key e pk q w) = true ↔
  attached_deposit e = 0 ∧ predecessor_account_id e = init_worker_account (st w) ∧
  ∃ m, attested (block_timestamp e) (collaterals (st w)) (approved_measurements (st w)) pk q m.
Proof.
  split.
  - intros Hr. unfold is_ok in Hr. destruct (register_worker_key e pk q w) as [[u w']|] eqn:E; [|done].
    unfold register_worker_key, register_no_deposit in E. minv. prop_bool.
    match goal with Hx : check_attestation _ _ _ _ _ _ = _ |- _ => apply check_attestation_ok in Hx as [Hatt ->] end.
    eauto.
  - intros (Hd & Hp & m & Ha). unfold register_worker_key, register_no_deposit, bind, require, get_st, emit.
    rewrite Hd. cbn. rewrite bool_decide_eq_true_2 by done. cbn.
    by rewrite (proj2 (check_attestation_ok _ _ _ _ _ w m w) (conj Ha eq_refl)).
Qed.
End claims.

(** * One worker account *)

#[local] Existing Instance tee_platform.
#[local] Existing Instance tee_verifier.

Definition worker_env (who : AccountId) : Env :=
  mkEnv who who "worker.near" 0 1000000000 "yield-1" (λ _, false) (λ _, 0).
Definition register_start : RegisterSys :=
  mkRegisterSys (mkRegister "owner.near" "init.near" [] [] "outlayer.near") ∅ [].
Definition enrol : list RegisterEvent :=
  [RCall (worker_env "owner.near") (AddMeasurements sample_measurements None);
   RCall (worker_env "owner.near") (UpdateCollateral "fmspc: 464d53504331" 0);
   RCall (worker_env "init.near") (RegisterWorkerKey keystore_key keystore_quote); RKeys 0 false].

Lemma worker_key_attested_witness : worker_attested register_start enrol keystore_key.
Proof.
  refine (proj1 (worker_key_attested register_start enrol keystore_key
    (FunctionCallKey (Some WORKER_ALLOWANCE) "outlayer.near" WORKER_METHODS) _ _ _));
    [reflexivity | reflexivity | vm_compute; reflexivity].
Defined.
