(* ===== verification/Vault.v ===== *)
(** The vault (vault-contract/src/lib.rs): a customer's sub-account held by TEE
    keys until a timed recovery hands it to the parent.  The methods with their
    callbacks, and the account they run on: its access keys and the receipts
    outstanding between a method and its callback, in any order. *)

From S2P Require Export AccessKeys.

(** * Constants (mainnet timing) *)

Definition SECOND_NS : Z := 1000000000.
Definition DAY_SECS : Z := 24 * 60 * 60.
Definition CESSATION_DELAY_NS : Z := 7 * DAY_SECS * SECOND_NS.
Definition FINALIZE_WINDOW_NS : Z := 7 * DAY_SECS * SECOND_NS.
Definition DEFAULT_UNILATERAL_EXIT_WINDOW_SECS : Z := DAY_SECS.
Definition MIN_UNILATERAL_EXIT_WINDOW_SECS : Z := DAY_SECS.
Definition MAX_UNILATERAL_EXIT_WINDOW_SECS : Z := 30 * DAY_SECS.
Definition MAX_REGISTERED_TEE_KEYS : Z := 32.
Definition DEFAULT_PARENT_FCAK_ALLOWANCE_NEAR : Z := 1.
Definition YOCTO_PER_NEAR : Z := 10 ^ 24.

(** * State *)

Inductive RecoveryTrigger := Cessation | Unilateral.

Record RecoveryState := mkRecovery {
  initiated_at : Z;
  finalize_after : Z;
  finalize_before : Z;
  trigger : RecoveryTrigger;
}.

Record Vault := mkVault {
  parent : AccountId;
  keystore_dao : AccountId;
  mpc_contract : AccountId;
  initial_tee_key : option PublicKey;
  registered_tee_keys : list PublicKey;
  recovery : option RecoveryState;
  unlocked : bool;
  unilateral_exit_window_secs : Z;
}.

Definition eta_vault (v : Vault) : Vault :=
  mkVault (parent v) (keystore_dao v) (mpc_contract v) (initial_tee_key v) (registered_tee_keys v)
    (recovery v) (unlocked v) (unilateral_exit_window_secs v).
#[export] Instance set_registered_tee_keys : Setter registered_tee_keys := ltac:(derive_setter eta_vault).
#[export] Instance set_initial_tee_key : Setter initial_tee_key := ltac:(derive_setter eta_vault).
#[export] Instance set_recovery : Setter recovery := ltac:(derive_setter eta_vault).
#[export] Instance set_unlocked : Setter unlocked := ltac:(derive_setter eta_vault).
#[export] Instance set_exit_window_secs : Setter unilateral_exit_window_secs :=
  ltac:(derive_setter eta_vault).

#[export] Instance recovery_trigger_eq : EqDecision RecoveryTrigger.
Proof. solve_decision. Defined.

(** * Actions *)

Inductive DaoQuery := IsKeystoreApproved (key : PublicKey) | IsCeased.

(** What a promise resolves into. *)
Inductive VaultCallback :=
| CallbackAddTeeKey (key : PublicKey)
| CallbackInitiate
| CallbackFinalize (new_parent_pubkey : PublicKey)
| CallbackAfterSwap (cessation : bool).

Inductive VaultAction (J : Type) :=
| AskDao (dao : AccountId) (query : DaoQuery) (callback : VaultCallback)
| ChangeKeys (batch : list KeyAction) (callback : option VaultCallback)
| AskMpc (mpc : AccountId) (request : J) (deposit : Z)
| VaultLog (msg : string)
| VaultReturn (b : bool).
Arguments AskDao {_}.
Arguments ChangeKeys {_}.
Arguments AskMpc {_}.
Arguments VaultLog {_}.
Arguments VaultReturn {_}.

Section vault.
(** The JSON type, and near-sdk's account naming. *)
Context {J : Type} (is_sub_account_of : AccountId → AccountId → bool).

Abbreviation VW := (World Vault (VaultAction J)).
Abbreviation VM := (M VW).

Definition no_deposit (e : Env) : VM unit :=
  require (attached_deposit e =? 0) "Method doesn't accept deposit".
Definition private_call (e : Env) : VM unit :=
  require (bool_decide (predecessor_account_id e = current_account_id e)) "Method is private".

Definition exit_window_in_range (secs : Z) : bool :=
  (MIN_UNILATERAL_EXIT_WINDOW_SECS <=? secs) && (secs <=? MAX_UNILATERAL_EXIT_WINDOW_SECS).
Definition assert_exit_window_in_range (secs : Z) : VM unit :=
  require (exit_window_in_range secs) "exit window out of range".

Definition new_vault (e : Env) (parent keystore_dao mpc_contract : AccountId)
    (initial_tee_pubkey : option PublicKey) (initial_exit_window : option Z) : option Vault :=
  let window := default DEFAULT_UNILATERAL_EXIT_WINDOW_SECS initial_exit_window in
  if (attached_deposit e =? 0) && is_sub_account_of (current_account_id e) parent
     && exit_window_in_range window
  then Some (mkVault parent keystore_dao mpc_contract initial_tee_pubkey [] None false window)
  else None.

(** ** TEE keys *)

Definition key_is_free (v : Vault) (public_key : PublicKey) : VM unit :=
  require (negb (bool_decide (initial_tee_key v = Some public_key)))
    "public key is already the initial TEE key" >>>
  require (negb (bool_decide (public_key ∈ registered_tee_keys v)))
    "public key already registered" >>>
  require (Z.of_nat (length (registered_tee_keys v)) <? MAX_REGISTERED_TEE_KEYS)
    "TEE key limit reached (max 32)".

Definition propose_tee_key (e : Env) (public_key : PublicKey) : VM unit :=
  no_deposit e >>>
  let! v := get_st in
  require (negb (unlocked v)) "vault is unlocked — use unlocked_add_key instead" >>>
  key_is_free v public_key >>>
  emit (AskDao (keystore_dao v) (IsKeystoreApproved public_key) (CallbackAddTeeKey public_key)).

Definition callback_add_tee_key (e : Env) (public_key : PublicKey)
    (result : callback_result bool) : VM unit :=
  private_call e >>>
  let! approved :=
    match result with
    | CbOk v => ret v
    | CbErr => panic "keystore-dao cross-contract call failed"
    end in
  require approved "public key is not approved by the keystore DAO" >>>
  let! v := get_st in
  key_is_free v public_key >>>
  modify (λ v, v <| registered_tee_keys := registered_tee_keys v ++ [public_key] |>) >>>
  emit (VaultLog "vault_tee_key_added") >>>
  emit (ChangeKeys [AddKey public_key
          (FunctionCallKey None (current_account_id e) "request_master")] None).

Definition request_master (e : Env) (request : J) : VM unit :=
  require (bool_decide (predecessor_account_id e = current_account_id e))
    "request_master is callable only via the vault's own access key" >>>
  let! v := get_st in
  require (negb (unlocked v)) "vault is unlocked" >>>
  emit (AskMpc (mpc_contract v) request 1).

Fixpoint no_duplicates (l : list PublicKey) : bool :=
  match l with
  | [] => true
  | pk :: rest => negb (bool_decide (pk ∈ rest)) && no_duplicates rest
  end.

Definition remove_key (keys : list PublicKey) (pk : PublicKey) : VM (list PublicKey) :=
  let! idx := unwrap (position pk keys)
    "key not in registered_tee_keys — read get_registered_keys() first" in
  ret (swap_remove idx keys).

Definition clear_unused_tee_keys (e : Env) (public_keys : list PublicKey) : VM unit :=
  no_deposit e >>>
  let! v := get_st in
  require (bool_decide (predecessor_account_id e = parent v))
    "only the parent account can clear TEE keys" >>>
  require (negb (bool_decide (public_keys = []))) "no keys to remove" >>>
  require (no_duplicates public_keys) "duplicate key in input" >>>
  require (unlocked v || (Z.of_nat (length public_keys) <? Z.of_nat (length (registered_tee_keys v))))
    "refusing to remove ALL TEE keys while vault is locked" >>>
  let! left := foldM remove_key (registered_tee_keys v) public_keys in
  modify (λ v, v <| registered_tee_keys := left |>) >>>
  emit (ChangeKeys (map DeleteKey public_keys) None) >>>
  emit (VaultLog ("vault_tee_keys_cleared count=" +:+ uint_to_string (Z.of_nat (length public_keys)))).

(** ** Recovery *)

Definition initiate_recovery (e : Env) : VM unit :=
  no_deposit e >>>
  let! v := get_st in
  require (negb (unlocked v)) "vault is already unlocked" >>>
  require (bool_decide (recovery v = None)) "recovery already in progress" >>>
  emit (AskDao (keystore_dao v) IsCeased CallbackInitiate).

Definition open_recovery (now delay : Z) (why : RecoveryTrigger) : VM unit :=
  let! finalize_after := add64 now delay in
  let! finalize_before := add64 finalize_after FINALIZE_WINDOW_NS in
  modify (λ v, v <| recovery := Some (mkRecovery now finalize_after finalize_before why) |>).

Definition callback_initiate (e : Env) (result : callback_result bool) : VM unit :=
  private_call e >>>
  let! ceased :=
    match result with
    | CbOk v => ret v
    | CbErr => panic "keystore-dao cross-contract call failed"
    end in
  require ceased "cannot initiate recovery — keystore DAO has not declared cessation" >>>
  let! v := get_st in
  require (bool_decide (recovery v = None)) "recovery already in progress (race)" >>>
  open_recovery (block_timestamp e) CESSATION_DELAY_NS Cessation >>>
  emit (VaultLog "recovery_initiated_cessation").

Definition unilateral_initiate_recovery (e : Env) : VM unit :=
  no_deposit e >>>
  let! v := get_st in
  require (negb (unlocked v)) "vault is already unlocked" >>>
  require (bool_decide (predecessor_account_id e = parent v))
    "only the parent account can initiate unilateral recovery" >>>
  require (bool_decide (recovery v = None)) "recovery already in progress" >>>
  let! delay := mul64 (unilateral_exit_window_secs v) SECOND_NS in
  open_recovery (block_timestamp e) delay Unilateral >>>
  emit (VaultLog "recovery_initiated_unilateral").

Definition set_exit_window (e : Env) (new_window_secs : Z) : VM unit :=
  no_deposit e >>>
  let! v := get_st in
  require (bool_decide (predecessor_account_id e = parent v))
    "only the parent account can change the exit window" >>>
  assert_exit_window_in_range new_window_secs >>>
  modify (λ v, v <| unilateral_exit_window_secs := new_window_secs |>) >>>
  emit (VaultLog ("exit_window_set_to_" +:+ uint_to_string new_window_secs +:+ "_secs")).

(** The keys to delete, each once, in the order the loop meets them. *)
Definition see_key (acc : list PublicKey) (k : PublicKey) : list PublicKey :=
  if bool_decide (k ∈ acc) then acc else acc ++ [k].
Definition tracked_keys (v : Vault) : list PublicKey :=
  foldl see_key (foldl see_key [] (option_list (initial_tee_key v))) (registered_tee_keys v).

Definition dispatch_swap (v : Vault) (new_parent_pubkey : PublicKey) (cessation : bool) : VM unit :=
  emit (ChangeKeys (map DeleteKey (tracked_keys v) ++ [AddKey new_parent_pubkey FullAccess])
          (Some (CallbackAfterSwap cessation))).

Definition expire_recovery : VM unit :=
  modify (λ v, v <| recovery := None |>) >>>
  emit (VaultLog "recovery_window_expired") >>>
  emit (VaultReturn false).

Definition finalize_recovery (e : Env) (new_parent_pubkey : PublicKey) : VM unit :=
  no_deposit e >>>
  let! v := get_st in
  require (negb (unlocked v)) "vault is already unlocked" >>>
  require (bool_decide (predecessor_account_id e = parent v))
    "only the parent account can finalize recovery" >>>
  let! r := unwrap (recovery v) "no recovery in progress" in
  require (finalize_after r <=? block_timestamp e) "recovery delay not yet elapsed" >>>
  if finalize_before r <? block_timestamp e then expire_recovery else
  match trigger r with
  | Cessation => emit (AskDao (keystore_dao v) IsCeased (CallbackFinalize new_parent_pubkey))
  | Unilateral => dispatch_swap v new_parent_pubkey false
  end.

Definition callback_finalize (e : Env) (new_parent_pubkey : PublicKey)
    (result : callback_result bool) : VM unit :=
  private_call e >>>
  let! v := get_st in
  match recovery v with
  | None => emit (VaultReturn false)
  | Some r =>
    if finalize_before r <? block_timestamp e then expire_recovery else
    match result with
    | CbErr => emit (VaultLog "recovery_finalize_failed_dao_call") >>> emit (VaultReturn false)
    | CbOk ceased =>
      if ceased : bool then dispatch_swap v new_parent_pubkey true
      else
        modify (λ v, v <| recovery := None |>) >>>
        emit (VaultLog "recovery_cancelled_dao_revoked") >>>
        emit (VaultReturn false)
    end
  end.

Definition callback_after_swap (e : Env) (cessation : bool) (result : callback_result unit)
    : VM unit :=
  private_call e >>>
  match result with
  | CbOk _ =>
    modify (λ v, v <| unlocked := true |> <| recovery := None |> <| initial_tee_key := None |>
                   <| registered_tee_keys := [] |>) >>>
    emit (VaultLog (if cessation then "recovery_finalized_cessation"
                    else "recovery_finalized_unilateral")) >>>
    emit (VaultReturn true)
  | CbErr => emit (VaultLog "recovery_finalize_swap_failed") >>> emit (VaultReturn false)
  end.

Definition unlocked_add_key (e : Env) (public_key : PublicKey) (full_access : bool)
    (allowance : option Z) : VM unit :=
  no_deposit e >>>
  let! v := get_st in
  require (unlocked v) "vault is not unlocked" >>>
  require (bool_decide (predecessor_account_id e = parent v))
    "only the parent account can add keys after unlock" >>>
  if full_access then emit (ChangeKeys [AddKey public_key FullAccess] None)
  else
    let! allowance_token :=
      match allowance with
      | Some t => require (0 <? t) "allowance must be > 0" >>> ret t
      | None => ret (DEFAULT_PARENT_FCAK_ALLOWANCE_NEAR * YOCTO_PER_NEAR)
      end in
    emit (ChangeKeys [AddKey public_key
            (FunctionCallKey (Some allowance_token) (current_account_id e) "")] None).

(** ** Views *)

Definition get_registered_keys (v : Vault) : list PublicKey := registered_tee_keys v.
Definition get_recovery_state (v : Vault) : option RecoveryState := recovery v.
Definition get_exit_window (v : Vault) : Z := unilateral_exit_window_secs v.
Definition is_unlocked (v : Vault) : bool := unlocked v.
End vault.

(** * The account: keys and outstanding receipts *)

Inductive VaultReceipt :=
| AwaitDao (query : DaoQuery) (callback : VaultCallback)
| AwaitBatch (batch : list KeyAction) (callback : option VaultCallback)
| AwaitReply (callback : VaultCallback) (answer : callback_result bool).

Inductive VaultCall (J : Type) :=
| ProposeTeeKey (key : PublicKey)
| RequestMaster (request : J)
| ClearTeeKeys (keys : list PublicKey)
| InitiateRecovery
| UnilateralInitiate
| SetExitWindow (secs : Z)
| FinalizeRecovery (new_parent_pubkey : PublicKey)
| UnlockedAddKey (key : PublicKey) (full_access : bool) (allowance : option Z).
Arguments ProposeTeeKey {_}.
Arguments RequestMaster {_}.
Arguments ClearTeeKeys {_}.
Arguments InitiateRecovery {_}.
Arguments UnilateralInitiate {_}.
Arguments SetExitWindow {_}.
Arguments FinalizeRecovery {_}.
Arguments UnlockedAddKey {_}.

Record VaultSys := mkVaultSys {
  vault : Vault;
  account_keys : Keys;
  receipts : list VaultReceipt;
}.

(** What happens next: a call from outside, an answer of the DAO, the execution of
    a key batch (which the runtime may also fail for reasons of its own), or the
    callback that waited for one of the two. *)
Inductive VaultEvent (J : Type) :=
| VCall (e : Env) (call : VaultCall J)
| VView (i : nat) (answer : callback_result bool)
| VBatch (i : nat) (fails : bool)
| VReply (e : Env) (i : nat).
Arguments VCall {_}.
Arguments VView {_}.
Arguments VBatch {_}.
Arguments VReply {_}.

Section account.
Context {J : Type}.
Abbreviation VW := (World Vault (VaultAction J)).
Abbreviation VM := (M VW).

Definition run_vault_call (e : Env) (call : VaultCall J) : VM unit :=
  match call with
  | ProposeTeeKey k => propose_tee_key e k
  | RequestMaster r => request_master e r
  | ClearTeeKeys l => clear_unused_tee_keys e l
  | InitiateRecovery => initiate_recovery e
  | UnilateralInitiate => unilateral_initiate_recovery e
  | SetExitWindow secs => set_exit_window e secs
  | FinalizeRecovery k => finalize_recovery e k
  | UnlockedAddKey k full allowance => unlocked_add_key e k full allowance
  end.

Definition receipts_of (a : VaultAction J) : list VaultReceipt :=
  match a with
  | AskDao _ query cb => [AwaitDao query cb]
  | ChangeKeys batch cb => [AwaitBatch batch cb]
  | _ => []
  end.

(** Runs a method on the vault; a panic leaves nothing behind. *)
Definition run_on (s : VaultSys) (rest : list VaultReceipt) (m : VM unit) : VaultSys :=
  match m (mkWorld (vault s) []) with
  | Ok (_, w') => mkVaultSys (st w') (account_keys s) (rest ++ (out w' ≫= receipts_of))
  | Panic _ => mkVaultSys (vault s) (account_keys s) rest
  end.

(** A key batch reports success as an empty value. *)
Definition run_reply (e : Env) (cb : VaultCallback) (answer : callback_result bool) : VM unit :=
  match cb with
  | CallbackAddTeeKey k => callback_add_tee_key e k answer
  | CallbackInitiate => callback_initiate e answer
  | CallbackFinalize k => callback_finalize e k answer
  | CallbackAfterSwap cessation =>
    callback_after_swap e cessation (match answer with CbOk _ => CbOk tt | CbErr => CbErr end)
  end.

Definition vault_step (s : VaultSys) (ev : VaultEvent J) : VaultSys :=
  match ev with
  | VCall e call => run_on s (receipts s) (run_vault_call e call)
  | VView i answer =>
    match receipts s !! i with
    | Some (AwaitDao _ cb) =>
      mkVaultSys (vault s) (account_keys s) (delete i (receipts s) ++ [AwaitReply cb answer])
    | _ => s
    end
  | VBatch i fails =>
    match receipts s !! i with
    | Some (AwaitBatch batch cb) =>
      let done := if fails : bool then None else apply_batch (account_keys s) batch in
      mkVaultSys (vault s) (default (account_keys s) done)
        (delete i (receipts s) ++
           from_option (λ c, [AwaitReply c (match done with Some _ => CbOk true | None => CbErr end)])
             [] cb)
    | _ => s
    end
  | VReply e i =>
    match receipts s !! i with
    | Some (AwaitReply cb answer) => run_on s (delete i (receipts s)) (run_reply e cb answer)
    | _ => s
    end
  end.

Definition vault_run (s : VaultSys) (evs : list (VaultEvent J)) : VaultSys := foldl vault_step s evs.
End account.

(** * What the vault keeps *)

Definition recovery_ok (r : RecoveryState) : Prop :=
  finalize_before r = finalize_after r + FINALIZE_WINDOW_NS ∧
  match trigger r with
  | Cessation => finalize_after r = initiated_at r + CESSATION_DELAY_NS
  | Unilateral => ∃ secs, exit_window_in_range secs = true ∧
      finalize_after r = initiated_at r + secs * SECOND_NS
  end.

Record vault_ok (v : Vault) : Prop := {
  vo_window : exit_window_in_range (unilateral_exit_window_secs v) = true;
  vo_cap : Z.of_nat (length (registered_tee_keys v)) ≤ MAX_REGISTERED_TEE_KEYS;
  vo_nodup : NoDup (registered_tee_keys v);
  vo_initial : ∀ k, initial_tee_key v = Some k → ¬ k ∈ registered_tee_keys v;
  vo_recovery : ∀ r, recovery v = Some r → recovery_ok r;
}.

Ltac vinv :=
  repeat match goal with
  | _ => progress minv
  | H : no_deposit _ _ = Ok (_, ?w') |- _ => apply require_ok in H; destruct H as [H ?]; subst_new w'
  | H : private_call _ _ = Ok (_, ?w') |- _ => apply require_ok in H; destruct H as [H ?]; subst_new w'
  | H : assert_exit_window_in_range _ _ = Ok (_, ?w') |- _ =>
      apply require_ok in H; destruct H as [H ?]; subst_new w'
  end; cbn [st out] in *; prop_bool.

Section swap_remove.
Lemma remove_keys_perm {J} pks : ∀ l (w : World Vault (VaultAction J)) l' w',
  foldM remove_key l pks w = Ok (l', w') → l ≡ₚ pks ++ l' ∧ w' = w.
Proof.
  induction pks as [|pk pks IH]; intros l w l' w' Hr; cbn in Hr; minv; [done|].
  unfold remove_key in *. minv.
  match goal with Hf : foldM _ _ _ _ = _ |- _ => apply IH in Hf as [Hp ->] end. split; [|done].
  match goal with Hq : position _ _ = Some _ |- _ => apply position_lookup, swap_remove_perm in Hq as -> end.
  by rewrite Hp.
Qed.
End swap_remove.

Section invariant.
Context {J : Type}.
Abbreviation VW := (World Vault (VaultAction J)).

Lemma key_is_free_ok v k (w : VW) u w' :
  key_is_free v k w = Ok (u, w') →
  w' = w ∧ initial_tee_key v ≠ Some k ∧ ¬ k ∈ registered_tee_keys v ∧
  Z.of_nat (length (registered_tee_keys v)) < MAX_REGISTERED_TEE_KEYS.
Proof. unfold key_is_free. intros Hr. vinv. done. Qed.

Lemma open_recovery_ok now delay why (w : VW) u w' :
  open_recovery now delay why w = Ok (u, w') →
  w' = mkWorld ((st w) <| recovery := Some (mkRecovery now (now + delay)
                  (now + delay + FINALIZE_WINDOW_NS) why) |>) (out w).
Proof. unfold open_recovery. intros Hr. vinv. done. Qed.

Lemma register_ok v k :
  vault_ok v → initial_tee_key v ≠ Some k → ¬ k ∈ registered_tee_keys v →
  Z.of_nat (length (registered_tee_keys v)) < MAX_REGISTERED_TEE_KEYS →
  vault_ok (v <| registered_tee_keys := registered_tee_keys v ++ [k] |>).
Proof.
  intros [? ? ? Hi ?] Hk Hn Hl. constructor; cbn; try done.
  - rewrite length_app. cbn. lia.
  - apply NoDup_app. split_and!; [done | set_solver | apply NoDup_singleton].
  - intros k' Hk'. specialize (Hi _ Hk'). set_solver.
Qed.

Lemma clear_ok v gone left :
  vault_ok v → registered_tee_keys v ≡ₚ gone ++ left →
  vault_ok (v <| registered_tee_keys := left |>).
Proof.
  intros [? Hc Hn Hi ?] Hp. constructor; cbn; try done.
  - rewrite (Permutation_length Hp), length_app in Hc. lia.
  - rewrite Hp in Hn. by apply NoDup_app in Hn as (_ & _ & ?).
  - intros k Hk. specialize (Hi _ Hk). rewrite Hp in Hi. set_solver.
Qed.

Lemma reopen_ok v now delay why :
  vault_ok v →
  recovery_ok (mkRecovery now (now + delay) (now + delay + FINALIZE_WINDOW_NS) why) →
  vault_ok (v <| recovery := Some (mkRecovery now (now + delay)
                                    (now + delay + FINALIZE_WINDOW_NS) why) |>).
Proof. intros [? ? ? ? ?] Hr. constructor; cbn; try done. by intros r [= <-]. Qed.

Lemma closed_ok v : vault_ok v → vault_ok (v <| recovery := None |>).
Proof. intros [? ? ? ? ?]. by constructor. Qed.
End invariant.

(** * What must have happened *)

Section history.
Context {J : Type}.
Abbreviation VW := (World Vault (VaultAction J)).
Abbreviation Events := (list (VaultEvent J)).
(** The freshly deployed account. *)
Variable s0 : VaultSys.

Definition at_time (evs : Events) : VaultSys := vault_run s0 evs.

(** The parent finalized with [k] inside the window of a recovery that had run
    its full delay, on a locked vault. *)
Definition parent_finalized (evs : Events) (k : PublicKey) : Prop :=
  ∃ pre e post r, evs = pre ++ VCall e (FinalizeRecovery k) :: post ∧
    predecessor_account_id e = parent (vault s0) ∧
    unlocked (vault (at_time pre)) = false ∧
    recovery (vault (at_time pre)) = Some r ∧ recovery_ok r ∧
    finalize_after r ≤ block_timestamp e ≤ finalize_before r.

(** The parent added the full-access key [k] itself, to an unlocked vault. *)
Definition parent_added (evs : Events) (k : PublicKey) : Prop :=
  ∃ pre e allowance post, evs = pre ++ VCall e (UnlockedAddKey k true allowance) :: post ∧
    predecessor_account_id e = parent (vault s0) ∧ unlocked (vault (at_time pre)) = true.

Definition swap_batch (v : Vault) (k : PublicKey) : list KeyAction :=
  map DeleteKey (tracked_keys v) ++ [AddKey k FullAccess].

(** The handover the parent asked for happened: [k] is in, and every key the
    vault tracked when it was dispatched is out. *)
Definition handed_over (evs : Events) : Prop :=
  ∃ pre mid post k, evs = pre ++ mid ++ post ∧ parent_finalized (pre ++ mid) k ∧
    account_keys (at_time (pre ++ mid)) !! k = Some FullAccess ∧
    ∀ k', k' ∈ tracked_keys (vault (at_time pre)) → k' ≠ k →
      account_keys (at_time (pre ++ mid)) !! k' = None.

Lemma parent_finalized_app evs more k :
  parent_finalized evs k → parent_finalized (evs ++ more) k.
Proof.
  intros (pre & e & post & r & -> & Hr). exists pre, e, (post ++ more), r.
  split; [by rewrite <- app_assoc | done].
Qed.
Lemma parent_added_app evs more k : parent_added evs k → parent_added (evs ++ more) k.
Proof.
  intros (pre & e & a & post & -> & Hr). exists pre, e, a, (post ++ more).
  split; [by rewrite <- app_assoc | done].
Qed.
Lemma handed_over_app evs more : handed_over evs → handed_over (evs ++ more).
Proof.
  intros (pre & mid & post & k & -> & Hr). exists pre, mid, (post ++ more), k.
  split; [by rewrite <- !app_assoc | done].
Qed.

Definition receipt_ok (evs : Events) (r : VaultReceipt) : Prop :=
  match r with
  | AwaitDao _ (CallbackFinalize k) | AwaitReply (CallbackFinalize k) _ => parent_finalized evs k
  | AwaitBatch batch (Some (CallbackAfterSwap _)) =>
    ∃ pre post k, evs = pre ++ post ∧ batch = swap_batch (vault (at_time pre)) k ∧
      parent_finalized evs k
  | AwaitBatch batch None => ∀ k, AddKey k FullAccess ∈ batch → parent_added evs k
  | AwaitReply (CallbackAfterSwap _) (CbOk _) => handed_over evs
  | AwaitBatch _ (Some _) | AwaitDao _ (CallbackAfterSwap _) => False
  | _ => True
  end.

Lemma receipt_ok_app evs more r : receipt_ok evs r → receipt_ok (evs ++ more) r.
Proof.
  destruct r as [q [| | |]|batch [[| | |]|]|[| | |] []]; cbn; auto using parent_finalized_app, handed_over_app.
  - intros (pre & post & k & -> & Hb & Hp). exists pre, (post ++ more), k.
    split_and!; [by rewrite app_assoc | done | by apply parent_finalized_app].
  - intros Hk k Hin. by apply parent_added_app, Hk.
Qed.

Record history_ok (evs : Events) (s : VaultSys) : Prop := {
  ho_vault : vault_ok (vault s);
  ho_parent : parent (vault s) = parent (vault s0);
  ho_receipts : Forall (receipt_ok evs) (receipts s);
  ho_unlocked : unlocked (vault s) = true → handed_over evs;
  ho_keys : ∀ k, account_keys s !! k = Some FullAccess →
    parent_finalized evs k ∨ parent_added evs k;
}.

Lemma history_app evs ev s : history_ok evs s → history_ok (evs ++ [ev]) s.
Proof.
  intros [Hv Hp Hrs Hu Hk]. constructor; try done.
  - eapply Forall_impl; [exact Hrs | intros; by apply receipt_ok_app].
  - intros Hun. by apply handed_over_app, Hu.
  - intros k Hf. destruct (Hk _ Hf); auto using parent_finalized_app, parent_added_app.
Qed.

Lemma at_time_snoc evs ev : at_time (evs ++ [ev]) = vault_step (at_time evs) ev.
Proof. unfold at_time, vault_run. by rewrite foldl_app. Qed.

(** ** Batches *)

Lemma swap_applied v k keys keys' :
  apply_batch keys (swap_batch v k) = Some keys' →
  keys' !! k = Some FullAccess ∧ ∀ k', k' ∈ tracked_keys v → k' ≠ k → keys' !! k' = None.
Proof.
  unfold swap_batch. rewrite apply_batch_app.
  destruct (apply_batch keys _) as [mid|] eqn:E; cbn; [|done].
  case_bool_decide; cbn; [|done]. intros [= <-]. split; [apply lookup_insert_eq|].
  intros k' Hk Hne. rewrite lookup_insert_ne by done. by eapply apply_deletes.
Qed.

(** ** Every event keeps the history *)

(** What a method's run owes, [evs] ending with the event that ran it. *)
Definition good_run (evs : Events) (v : Vault) (w' : VW) : Prop :=
  vault_ok (st w') ∧ parent (st w') = parent v ∧
  (unlocked (st w') = true → unlocked v = true ∨ handed_over evs) ∧
  Forall (receipt_ok evs) (out w' ≫= receipts_of).

Lemma run_on_ok evs ev s rest m :
  history_ok evs s → (∀ r, r ∈ rest → r ∈ receipts s) →
  (∀ u w', m (mkWorld (vault s) []) = Ok (u, w') → good_run (evs ++ [ev]) (vault s) w') →
  history_ok (evs ++ [ev]) (run_on s rest m).
Proof.
  intros [Hv Hp Hrs Hu Hk] Hrest Hm.
  assert (Forall (receipt_ok (evs ++ [ev])) rest) as Hrest'.
  { apply Forall_forall. intros r Hr. apply receipt_ok_app.
    rewrite Forall_forall in Hrs. by apply Hrs, Hrest. }
  assert (∀ k, account_keys s !! k = Some FullAccess →
    parent_finalized (evs ++ [ev]) k ∨ parent_added (evs ++ [ev]) k) as Hk'.
  { intros k Hf. destruct (Hk _ Hf); auto using parent_finalized_app, parent_added_app. }
  unfold run_on. destruct (m _) as [[[] w']|msg] eqn:E.
  - destruct (Hm _ _ eq_refl) as (Gv & Gp & Gu & Gr). constructor; cbn; try done; [congruence | |].
    + by apply Forall_app.
    + intros Hun. destruct (Gu Hun); auto using handed_over_app.
  - constructor; cbn; try done. intros Hun. by apply handed_over_app, Hu.
Qed.

Lemma good_same evs v l :
  vault_ok v → Forall (receipt_ok evs) (l ≫= receipts_of) → good_run evs v (mkWorld v l).
Proof. intros Hv Hl. split_and!; auto. Qed.

Lemma call_good evs e call u w' :
  history_ok evs (at_time evs) →
  run_vault_call e call (mkWorld (vault (at_time evs)) []) = Ok (u, w') →
  good_run (evs ++ [VCall e call]) (vault (at_time evs)) w'.
Proof.
  set (v := vault (at_time evs)). intros H Hr. pose proof (ho_vault _ _ H) as Hv.
  pose proof (ho_parent _ _ H) as Hpar. fold v in Hv, Hpar.
  destruct call as [k|r|l| | |secs|k|k full allowance]; cbn [run_vault_call] in Hr.
  - unfold propose_tee_key in Hr. vinv.
    match goal with Hf : key_is_free _ _ _ = _ |- _ => apply key_is_free_ok in Hf as [-> _] end.
    apply good_same; [done | by repeat constructor].
  - unfold request_master in Hr. vinv. apply good_same; [done | constructor].
  - unfold clear_unused_tee_keys in Hr. vinv.
    match goal with Hf : foldM _ _ _ _ = _ |- _ => apply remove_keys_perm in Hf as [Hperm ->] end.
    split_and!; cbn; try done; [by eapply clear_ok | auto |].
    repeat constructor. intros k Hk. by apply list_elem_of_In, in_map_iff in Hk as (? & ? & _).
  - unfold initiate_recovery in Hr. vinv. apply good_same; [done | by repeat constructor].
  - unfold unilateral_initiate_recovery in Hr. vinv.
    match goal with Hf : open_recovery _ _ _ _ = _ |- _ => apply open_recovery_ok in Hf as -> end.
    split_and!; cbn; try done; auto. apply reopen_ok; [done|].
    split; [done|]. cbn. exists (unilateral_exit_window_secs v). split; [apply Hv | done].
  - unfold set_exit_window in Hr. vinv. split_and!; cbn; try done; auto.
    destruct Hv as [? ? ? ? ?]. by constructor.
  - unfold finalize_recovery in Hr. vinv.
    match goal with Hq : recovery _ = Some ?x |- _ => rename x into r; rename Hq into Er end.
    assert (recovery_ok r) by by apply (vo_recovery _ Hv).
    destruct (_ <? _) eqn:Ew; prop_bool.
    { unfold expire_recovery in *. vinv. split_and!; cbn; try done; auto. by apply closed_ok. }
    assert (parent_finalized (evs ++ [VCall e (FinalizeRecovery k)]) k) as Hpf.
    { exists evs, e, [], r. subst v. split_and!; try done; congruence. }
    destruct (trigger r).
    + vinv. apply good_same; [done | by repeat constructor].
    + unfold dispatch_swap in *. vinv. apply good_same; [done|]. repeat constructor.
      cbn. exists evs, [VCall e (FinalizeRecovery k)], k. done.
  - unfold unlocked_add_key in Hr. vinv. destruct full.
    + vinv. apply good_same; [done|]. repeat constructor. intros k' Hk.
      apply list_elem_of_singleton in Hk as [= ->].
      exists evs, e, allowance, []. subst v. split_and!; try done; congruence.
    + destruct allowance; vinv; (apply good_same; [done|]); repeat constructor;
        intros k' Hk; by apply list_elem_of_singleton in Hk.
Qed.

Lemma reply_good evs ev e cb answer u w' :
  history_ok evs (at_time evs) → receipt_ok (evs ++ [ev]) (AwaitReply cb answer) →
  run_reply e cb answer (mkWorld (vault (at_time evs)) []) = Ok (u, w') →
  good_run (evs ++ [ev]) (vault (at_time evs)) w'.
Proof.
  set (v := vault (at_time evs)). intros H Hro Hr. pose proof (ho_vault _ _ H) as Hv. fold v in Hv.
  destruct cb as [k| |k|c]; cbn [run_reply] in Hr.
  - unfold callback_add_tee_key in Hr. destruct answer as [[]|]; vinv; try done.
    match goal with Hf : key_is_free _ _ _ = _ |- _ =>
      apply key_is_free_ok in Hf as (-> & ? & ? & ?) end.
    split_and!; cbn; try done; [by apply register_ok | auto |].
    repeat constructor. intros k' Hk. by apply list_elem_of_singleton in Hk.
  - unfold callback_initiate in Hr. destruct answer as [[]|]; vinv; try done.
    match goal with Hf : open_recovery _ _ _ _ = _ |- _ => apply open_recovery_ok in Hf as -> end.
    split_and!; cbn; try done; auto. apply reopen_ok; [done | by split].
  - unfold callback_finalize in Hr. vinv.
    destruct (recovery v) as [r|] eqn:Er; vinv; [|apply good_same; [done | constructor]].
    destruct (_ <? _); [unfold expire_recovery in *|destruct answer as [[]|]]; vinv.
    + split_and!; cbn; try done; auto. by apply closed_ok.
    + unfold dispatch_swap in *. vinv. apply good_same; [done|]. repeat constructor.
      cbn. exists evs, [ev], k. done.
    + split_and!; cbn; try done; auto. by apply closed_ok.
    + apply good_same; [done | constructor].
  - unfold callback_after_swap in Hr.
    destruct answer; vinv; [|apply good_same; [done | constructor]].
    split_and!; cbn; try done; auto. destruct Hv. constructor; cbn; try done. apply NoDup_nil_2.
Qed.

Lemma batch_ok evs (ev : VaultEvent J) i fails :
  ev = VBatch i fails → history_ok evs (at_time evs) →
  history_ok (evs ++ [ev]) (vault_step (at_time evs) (VBatch (J := J) i fails)).
Proof.
  intros Hev H. pose proof (at_time_snoc evs ev) as Hs. rewrite Hev in Hs at 2.
  pose proof (history_app _ ev _ H) as Hsame.
  cbn in *. destruct (receipts (at_time evs) !! i) as [[|batch cb|]|] eqn:Ei; try done.
  set (done := if fails then None else apply_batch (account_keys (at_time evs)) batch) in *.
  pose proof Hsame as [Hv Hp Hrs Hu Hk].
  assert (receipt_ok (evs ++ [ev]) (AwaitBatch batch cb)) as Hro by (by eapply Forall_lookup_1).
  assert (receipt_ok evs (AwaitBatch batch cb)) as Hro0
    by (eapply Forall_lookup_1; [apply H | exact Ei]).
  assert (∀ keys', done = Some keys' → apply_batch (account_keys (at_time evs)) batch = Some keys')
    as Hdone by (intros keys'; unfold done; by destruct fails).
  constructor; cbn; try done.
  - apply Forall_app. split; [by apply Forall_delete|].
    destruct cb as [c|]; cbn; [|constructor]. repeat constructor.
    destruct c; try done. cbn. destruct done as [keys'|] eqn:Ed; [|done].
    destruct Hro0 as (pre & post & k & -> & -> & Hf). cbn.
    destruct (swap_applied _ _ _ _ (Hdone _ eq_refl)) as [Hin Hout].
    exists pre, (post ++ [ev]), [], k. rewrite app_nil_r, app_assoc, Hs. cbn.
    split_and!; [done | by apply parent_finalized_app | done | done].
  - intros k Hf. destruct done as [keys'|] eqn:Ed; [|by apply Hk].
    destruct (apply_batch_origin _ _ _ _ _ (Hdone _ eq_refl) Hf) as [|Hin]; [by apply Hk|].
    destruct cb as [[]|]; try done; [|by right; apply Hro].
    destruct Hro as (pre & post & k' & _ & -> & Hpf). left.
    apply elem_of_app in Hin as [Hin|Hin].
    + by apply list_elem_of_In, in_map_iff in Hin as (? & ? & _).
    + apply list_elem_of_singleton in Hin as [= ->]. done.
Qed.

Lemma event_ok evs ev :
  history_ok evs (at_time evs) → history_ok (evs ++ [ev]) (at_time (evs ++ [ev])).
Proof.
  intros H. rewrite at_time_snoc.
  assert (∀ i r, receipts (at_time evs) !! i = Some r → receipt_ok (evs ++ [ev]) r) as Hro.
  { intros i r Hi. apply receipt_ok_app. eapply Forall_lookup_1; [apply H | exact Hi]. }
  assert (∀ r i, r ∈ delete i (receipts (at_time evs)) → r ∈ receipts (at_time evs)) as Hdel.
  { intros r i Hin. eapply elem_of_sublist; [exact Hin | apply sublist_delete]. }
  pose proof (history_app _ ev _ H) as Hsame.
  destruct ev as [e call|i answer|i fails|e i].
  - apply run_on_ok; [done | done |]. intros u w'. by apply call_good.
  - cbn. destruct (receipts (at_time evs) !! i) as [[q cb| |]|] eqn:Ei; try done.
    pose proof (Hro _ _ Ei) as Hi. destruct Hsame as [Hv Hp Hrs Hu Hk]. constructor; try done. cbn.
    apply Forall_app. split; [by apply Forall_delete|]. repeat constructor. by destruct cb.
  - by apply (batch_ok evs _ i fails).
  - cbn. destruct (receipts (at_time evs) !! i) as [[| |cb answer]|] eqn:Ei; try done.
    apply run_on_ok; [done | intros r; apply Hdel |]. intros u w'.
    apply reply_good; [done | by eapply Hro].
Qed.

Lemma run_ok evs : history_ok [] s0 → history_ok evs (at_time evs).
Proof.
  intros H. induction evs as [|ev evs IH] using rev_ind; [done | by apply event_ok].
Qed.
End history.

(** The account after the deploying transaction: the vault [new] built, and no
    full-access key. *)
Definition deployed (is_sub_account_of : AccountId → AccountId → bool) (s : VaultSys) : Prop :=
  (∃ e parent dao mpc key window,
     new_vault is_sub_account_of e parent dao mpc key window = Some (vault s)) ∧
  receipts s = [] ∧ ∀ k, account_keys s !! k ≠ Some FullAccess.

Lemma deployed_ok {J} sub s : deployed sub s → history_ok (J := J) s [] s.
Proof.
  intros ((e & p & dao & mpc & key & window & Hn) & Hr & Hk). unfold new_vault in Hn.
  destruct (_ && _) eqn:E; [|done]. injection Hn as Hn. prop_bool.
  constructor.
  - rewrite <- Hn. constructor; cbn; try done; [apply NoDup_nil_2 | set_solver].
  - done.
  - by rewrite Hr.
  - rewrite <- Hn. done.
  - intros k Hf. by destruct (Hk _ Hf).
Qed.

(** * The swap goes through *)

Section swap.
Lemma see_key_nodup acc k : NoDup acc → NoDup (see_key acc k).
Proof.
  intros Hn. unfold see_key. case_bool_decide; [done|].
  apply NoDup_app. split_and!; [done | set_solver | apply NoDup_singleton].
Qed.
Lemma see_keys_nodup l acc : NoDup acc → NoDup (foldl see_key acc l).
Proof. revert acc. induction l as [|k l IH]; intros acc Hn; [done|]. by apply IH, see_key_nodup. Qed.
Lemma tracked_nodup v : NoDup (tracked_keys v).
Proof. apply see_keys_nodup, see_keys_nodup, NoDup_nil_2. Qed.

Lemma see_keys_elem l acc k : k ∈ foldl see_key acc l ↔ k ∈ acc ∨ k ∈ l.
Proof.
  revert acc. induction l as [|x l IH]; intros acc; cbn; [set_solver|].
  rewrite IH. unfold see_key. case_bool_decide; set_solver.
Qed.
(** The keys a swap deletes are the initial key and the registered ones. *)
Lemma tracked_elem v k :
  k ∈ tracked_keys v ↔ initial_tee_key v = Some k ∨ k ∈ registered_tee_keys v.
Proof. unfold tracked_keys. rewrite !see_keys_elem. destruct (initial_tee_key v); set_solver. Qed.

Lemma swap_runs v k keys :
  (∀ k', k' ∈ tracked_keys v → is_Some (keys !! k')) → (keys !! k = None ∨ k ∈ tracked_keys v) →
  ∃ keys', apply_batch keys (swap_batch v k) = Some keys' ∧ keys' !! k = Some FullAccess ∧
    (∀ k', k' ∈ tracked_keys v → k' ≠ k → keys' !! k' = None) ∧
    (∀ k', ¬ k' ∈ tracked_keys v → k' ≠ k → keys' !! k' = keys !! k').
Proof.
  intros Ht Hk. destruct (deletes_run (tracked_keys v) keys) as (mid & Ha & Hd & Hs);
    [apply tracked_nodup | done |].
  assert (mid !! k = None) as Hfree.
  { destruct (decide (k ∈ tracked_keys v)); [by apply Hd|]. rewrite Hs by done. by destruct Hk. }
  exists (<[k := FullAccess]> mid). unfold swap_batch. rewrite apply_batch_app, Ha. cbn.
  rewrite bool_decide_eq_true_2 by done. split_and!; [done | apply lookup_insert_eq | |];
    intros k' Hin Hne; rewrite lookup_insert_ne by done; auto.
Qed.
End swap.

(** * A running recovery *)

Section running.
Context {J : Type}.
Abbreviation VW := (World Vault (VaultAction J)).

Lemma run_on_cases (P : option RecoveryState → Prop) s rest (m : M VW unit) :
  P (recovery (vault s)) →
  (∀ u w', m (mkWorld (vault s) []) = Ok (u, w') → P (recovery (st w'))) →
  P (recovery (vault (run_on s rest m))).
Proof. intros Hs Hm. unfold run_on. destruct (m _) as [[u w']|] eqn:E; cbn; eauto. Qed.

Lemma call_recovery e call v r u (w' : VW) :
  recovery v = Some r → run_vault_call e call (mkWorld v []) = Ok (u, w') →
  recovery (st w') = Some r ∨ recovery (st w') = None ∧
    ∃ k, call = FinalizeRecovery k ∧ predecessor_account_id e = parent v ∧
      finalize_before r < block_timestamp e.
Proof.
  intros Hr Hc. destruct call as [k|x|l| | |secs|k|k full allowance]; cbn [run_vault_call] in Hc.
  - unfold propose_tee_key in Hc. vinv.
    match goal with Hf : key_is_free _ _ _ = _ |- _ => apply key_is_free_ok in Hf as [-> _] end. auto.
  - unfold request_master in Hc. vinv. auto.
  - unfold clear_unused_tee_keys in Hc. vinv.
    match goal with Hf : foldM _ _ _ _ = _ |- _ => apply remove_keys_perm in Hf as [_ ->] end. auto.
  - unfold initiate_recovery in Hc. vinv. congruence.
  - unfold unilateral_initiate_recovery in Hc. vinv. congruence.
  - unfold set_exit_window in Hc. vinv. auto.
  - unfold finalize_recovery in Hc. vinv. simplify_eq.
    destruct (_ <? _) eqn:Ew; prop_bool; [unfold expire_recovery in *; vinv; eauto 10|].
    destruct (trigger r); unfold dispatch_swap in *; vinv; auto.
  - unfold unlocked_add_key in Hc. vinv. destruct full; [|destruct allowance]; vinv; auto.
Qed.

Lemma reply_recovery e cb answer v r u (w' : VW) :
  recovery v = Some r → run_reply e cb answer (mkWorld v []) = Ok (u, w') →
  recovery (st w') = Some r ∨ recovery (st w') = None ∧
    ((∃ k, cb = CallbackFinalize k ∧ (finalize_before r < block_timestamp e ∨ answer = CbOk false)) ∨
     ∃ c b, cb = CallbackAfterSwap c ∧ answer = CbOk b).
Proof.
  intros Hr Hc. destruct cb as [k| |k|c]; cbn [run_reply] in Hc.
  - unfold callback_add_tee_key in Hc. destruct answer as [[]|]; vinv; try done.
    match goal with Hf : key_is_free _ _ _ = _ |- _ => apply key_is_free_ok in Hf as [-> _] end. auto.
  - unfold callback_initiate in Hc. destruct answer as [[]|]; vinv; try done. congruence.
  - unfold callback_finalize in Hc. vinv. rewrite Hr in *.
    destruct (_ <? _) eqn:Ew; prop_bool; [unfold expire_recovery in *; vinv; eauto 10|].
    destruct answer as [[]|]; unfold dispatch_swap in *; vinv; eauto 10.
  - unfold callback_after_swap in Hc. destruct answer; vinv; eauto 10.
Qed.
End running.

(** * Claims *)

Section claims.
Context {J : Type} (is_sub_account_of : AccountId → AccountId → bool).


(** C5: A full-access key on the vault account was put there by the parent:
    named in a finalize inside an open window after the full delay, or added
    to the vault once unlocked.  Calls, DAO answers, key batches and callbacks
    may come in any order and fail at any point. *)
Theorem full_access_only_from_parent s evs k :
  deployed is_sub_account_of s →
  account_keys (vault_run (J := J) s evs) !! k = Some FullAccess →
  parent_finalized s evs k ∨ parent_added s evs k.
Proof. intros H%(deployed_ok (J := J)). exact (ho_keys _ _ _ (run_ok _ _ H) k). Qed.

(** The vault's own bounds hold whatever happens: the exit window is between
    a day and thirty days, at most 32 TEE keys are registered, none twice and
    none the initial key, and a running recovery has its delay and a seven-day
    window. *)
Theorem vault_bounds_hold s evs :
  deployed is_sub_account_of s → vault_ok (vault (vault_run (J := J) s evs)).
Proof. intros H%(deployed_ok (J := J)). exact (ho_vault _ _ _ (run_ok _ _ H)). Qed.

(** The parent's exit goes through.  In the window of a unilateral recovery,
    with the tracked keys on the account and a key that is not, the parent's
    finalize, the key batch and its callback leave the vault unlocked with no
    recovery, the new key with full access, the tracked keys gone and every
    other key as it was. *)
Theorem unilateral_exit_succeeds s e e' r k :
  attached_deposit e = 0 → predecessor_account_id e = parent (vault s) →
  predecessor_account_id e' = current_account_id e' →
  is_unlocked (vault s) = false → get_recovery_state (vault s) = Some r → trigger r = Unilateral →
  finalize_after r ≤ block_timestamp e ≤ finalize_before r →
  (∀ k', k' ∈ tracked_keys (vault s) → is_Some (account_keys s !! k')) →
  account_keys s !! k = None →
  let n := length (receipts s) in
  let s' := vault_run (J := J) s [VCall e (FinalizeRecovery k); VBatch n false; VReply e' n] in
  is_unlocked (vault s') = true ∧ get_recovery_state (vault s') = None ∧
  get_registered_keys (vault s') = [] ∧ receipts s' = receipts s ∧
  account_keys s' !! k = Some FullAccess ∧
  (∀ k', k' ∈ tracked_keys (vault s) → account_keys s' !! k' = None) ∧
  (∀ k', ¬ k' ∈ tracked_keys (vault s) → k' ≠ k → account_keys s' !! k' = account_keys s !! k').
Proof.
  intros Hd Hp Hpriv Hl Hr Ht Hw Htr Hk. unfold is_unlocked, get_recovery_state in *.
  destruct (swap_runs (vault s) k (account_keys s) Htr (or_introl Hk)) as (keys' & Ha & Hk' & Hg & Hs).
  assert (vault_step s (VCall (J := J) e (FinalizeRecovery k))
    = mkVaultSys (vault s) (account_keys s)
        (receipts s ++ [AwaitBatch (swap_batch (vault s) k) (Some (CallbackAfterSwap false))])) as E1.
  { cbn. unfold run_on, finalize_recovery, no_deposit, bind, require, unwrap, get_st. cbn.
    rewrite Hd. cbn. rewrite Hl. cbn. rewrite bool_decide_eq_true_2 by done. cbn. rewrite Hr. cbn.
    rewrite (proj2 (Z.leb_le _ _)) by lia. cbn. rewrite (proj2 (Z.ltb_ge _ _)) by lia.
    by rewrite Ht. }
  cbv zeta. unfold vault_run. cbn [foldl]. rewrite E1. cbn [vault_step receipts].
  rewrite list_lookup_middle by done. cbn [vault account_keys]. rewrite Ha. cbn.
  rewrite delete_middle, app_nil_r, list_lookup_middle by done.
  rewrite delete_middle, app_nil_r. unfold run_on, run_reply, callback_after_swap, private_call, bind, require. cbn.
  rewrite bool_decide_eq_true_2 by done. cbn. rewrite app_nil_r.
  split_and!; try done. intros k' Hin. apply Hg; [done|]. intros ->. apply Htr in Hin as [? ?]. congruence.
Qed.

(** A running recovery is frozen: nothing changes its times or its trigger,
    and it ends only by expiry, by the DAO's revocation or by a completed swap. *)
Theorem recovery_is_frozen s ev r :
  get_recovery_state (vault s) = Some r →
  let after := get_recovery_state (vault (vault_step (J := J) s ev)) in
  after = Some r ∨ after = None ∧
    ((∃ e k, ev = VCall e (FinalizeRecovery k) ∧ predecessor_account_id e = parent (vault s) ∧
        finalize_before r < block_timestamp e) ∨
     (∃ e i answer k, ev = VReply e i ∧
        receipts s !! i = Some (AwaitReply (CallbackFinalize k) answer) ∧
        (finalize_before r < block_timestamp e ∨ answer = CbOk false)) ∨
     (∃ e i c b, ev = VReply e i ∧
        receipts s !! i = Some (AwaitReply (CallbackAfterSwap c) (CbOk b)))).
Proof.
  unfold get_recovery_state. intros Hr. cbv zeta. destruct ev as [e call|i answer|i fails|e i]; cbn.
  - apply run_on_cases; [by left|]. intros u w' Hc.
    destruct (call_recovery _ _ _ _ _ _ Hr Hc) as [|(? & k & -> & ? & ?)]; eauto 10.
  - destruct (receipts s !! i) as [[]|]; by left.
  - destruct (receipts s !! i) as [[]|]; by left.
  - destruct (receipts s !! i) as [[| |cb answer]|] eqn:Ei; try (by left).
    apply run_on_cases; [by left|]. intros u w' Hc.
    destruct (reply_recovery _ _ _ _ _ _ _ Hr Hc) as [|(? & [(k & -> & ?)|(c & b & -> & ->)])];
      eauto 15.
Qed.
End claims.

(** * One vault *)

Definition vault_env (who : AccountId) (t : Z) : Env :=
  mkEnv who who "vault.alice.near" 0 t "yield-1" (λ _, false) (λ _, 0).
Definition sample_naming (child parent : AccountId) : bool :=
  bool_decide (child = "vault." +:+ parent).
Definition tee_scope : KeyScope := FunctionCallKey None "vault.alice.near" "request_master".
Definition sample_pk (s : string) : PublicKey := mkKey ED25519 s.
Definition alice_vault : VaultSys :=
  mkVaultSys (mkVault "alice.near" "dao.near" "mpc.near" (Some (sample_pk "tee-1")) [] None false DAY_SECS)
    {[sample_pk "tee-1" := tee_scope]} [].

Lemma alice_vault_deployed : deployed sample_naming alice_vault.
Proof.
  split_and!; [|done|].
  - exists (vault_env "alice.near" 0), "alice.near", "dao.near", "mpc.near", (Some (sample_pk "tee-1")), None.
    vm_compute. reflexivity.
  - intros k Hk. change (({[sample_pk "tee-1" := tee_scope]} : Keys) !! k = Some FullAccess) in Hk.
    by apply lookup_singleton_Some in Hk as [_ ?].
Qed.

Definition exit_time : Z := DAY_SECS * SECOND_NS.
Definition exit_events : list (VaultEvent unit) :=
  [VCall (vault_env "alice.near" 0) UnilateralInitiate;
   VCall (vault_env "alice.near" exit_time) (FinalizeRecovery (sample_pk "alice-key"));
   VBatch 0 false; VReply (vault_env "vault.alice.near" exit_time) 0].


Lemma full_access_only_from_parent_witness :
  parent_finalized alice_vault exit_events (sample_pk "alice-key") ∨ parent_added alice_vault exit_events (sample_pk "alice-key").
Proof.
  apply (full_access_only_from_parent sample_naming);
    [exact alice_vault_deployed | vm_compute; reflexivity].
Defined.

Lemma vault_bounds_hold_witness : vault_ok (vault (vault_run alice_vault exit_events)).
Proof. apply (vault_bounds_hold sample_naming). exact alice_vault_deployed. Defined.

Definition leaving : VaultSys :=
  vault_run alice_vault [VCall (J := unit) (vault_env "alice.near" 0) UnilateralInitiate].
Definition leaving_recovery : RecoveryState :=
  mkRecovery 0 exit_time (exit_time + FINALIZE_WINDOW_NS) Unilateral.

Lemma unilateral_exit_succeeds_witness :
  is_unlocked (vault (vault_run (J := unit) leaving
    [VCall (vault_env "alice.near" exit_time) (FinalizeRecovery (sample_pk "alice-key")); VBatch 0 false;
     VReply (vault_env "vault.alice.near" exit_time) 0])) = true.
Proof.
  refine (proj1 (unilateral_exit_succeeds leaving (vault_env "alice.near" exit_time)
    (vault_env "vault.alice.near" exit_time) leaving_recovery (sample_pk "alice-key") _ _ _ _ _ _ _ _ _));
    try reflexivity.
  - vm_compute. split; discriminate.
  - intros k Hk. vm_compute in Hk. apply list_elem_of_singleton in Hk as ->. vm_compute. eauto.
Defined.

Lemma recovery_is_frozen_witness :
  get_recovery_state (vault (vault_step (J := unit) leaving
    (VCall (vault_env "alice.near" 5) (SetExitWindow (2 * DAY_SECS))))) = Some leaving_recovery.
Proof.
  destruct (recovery_is_frozen leaving (VCall (J := unit) (vault_env "alice.near" 5)
    (SetExitWindow (2 * DAY_SECS))) leaving_recovery) as [Hs|[Hn _]].
  - reflexivity.
  - exact Hs.
  - vm_compute in Hn. discriminate.
Defined.

(** A TEE key proposed before the handover and confirmed while it is under way
    outlives it: the swap deletes the keys tracked when it was dispatched, the
    commit forgets the newcomer, and its access key is added all the same. *)
Theorem tee_key_survives_handover :
  let s := vault_run alice_vault
    [VCall (J := unit) (vault_env "alice.near" 0) UnilateralInitiate;
     VCall (vault_env "mallory.near" exit_time) (ProposeTeeKey (sample_pk "tee-2"));
     VCall (vault_env "alice.near" exit_time) (FinalizeRecovery (sample_pk "alice-key"));
     VView 0 (CbOk true); VReply (vault_env "vault.alice.near" exit_time) 1;
     VBatch 0 false; VBatch 0 false; VReply (vault_env "vault.alice.near" exit_time) 0] in
  is_unlocked (vault s) = true ∧ get_registered_keys (vault s) = [] ∧
  account_keys s !! (sample_pk "tee-2") = Some tee_scope ∧ account_keys s !! (sample_pk "tee-1") = None.
Proof. vm_compute. done. Qed.

