(* ===== verification/DaoVault.v ===== *)
(** A vault beside the keystore DAO it asks.  The vault's guarantees are proved
    against an interface, what the DAO answers to the vault's two questions, and
    the DAO's own history discharges it. *)

From S2P Require Export DaoHistory Vault.

(** What a vault relies on: a DAO state answers its queries. *)
Class DaoAnswers (D : Type) := dao_answer : D → DaoQuery → bool.

(** * A vault and whatever it asks *)

Inductive PairEvent (E J : Type) :=
| OnDao (ev : E)                            (* the DAO moves *)
| OnVault (ev : VaultEvent J)               (* the vault moves; not by an answer *)
| Answer (i : nat) (fails : bool).          (* the DAO answers the vault's receipt [i] *)
Arguments OnDao {_ _}.
Arguments OnVault {_ _}.
Arguments Answer {_ _}.

Record Pair (D : Type) := mkPair { dao_side : D; vault_side : VaultSys }.
Arguments mkPair {_}.
Arguments dao_side {_}.
Arguments vault_side {_}.

Section pair.
Context {D E J : Type} `{DaoAnswers D} (dstep : D → E → D).

Definition pair_step (s : Pair D) (ev : PairEvent E J) : Pair D :=
  match ev with
  | OnDao ev => mkPair (dstep (dao_side s) ev) (vault_side s)
  | OnVault (VView _ _) => s
  | OnVault ev => mkPair (dao_side s) (vault_step (vault_side s) ev)
  | Answer i fails =>
    match receipts (vault_side s) !! i with
    | Some (AwaitDao query _) =>
      mkPair (dao_side s) (vault_step (J := J) (vault_side s)
        (VView i (if fails : bool then CbErr else CbOk (dao_answer (dao_side s) query))))
    | _ => s
    end
  end.
Definition pair_run (s : Pair D) (evs : list (PairEvent E J)) : Pair D := foldl pair_step s evs.

Variable s0 : Pair D.
Abbreviation Events := (list (PairEvent E J)).
Definition pair_at (evs : Events) : Pair D := pair_run s0 evs.

(** The DAO answered yes to [query] at some moment. *)
Definition said_yes (evs : Events) (query : DaoQuery) : Prop :=
  ∃ pre i post, evs = pre ++ Answer i false :: post ∧ dao_answer (dao_side (pair_at pre)) query = true.
(** It answered that operations had ceased at two moments. *)
Definition ceased_twice (evs : Events) : Prop :=
  ∃ pre i post, evs = pre ++ Answer i false :: post ∧
    dao_answer (dao_side (pair_at pre)) IsCeased = true ∧ said_yes pre IsCeased.
(** The parent opened a recovery of its own. *)
Definition parent_left (evs : Events) : Prop :=
  ∃ pre e post, evs = pre ++ OnVault (VCall e UnilateralInitiate) :: post ∧
    predecessor_account_id e = parent (vault (vault_side s0)).

Lemma said_yes_app evs more q : said_yes evs q → said_yes (evs ++ more) q.
Proof.
  intros (pre & i & post & -> & Hr). exists pre, i, (post ++ more). split; [by rewrite <- app_assoc | done].
Qed.
Lemma ceased_twice_app evs more : ceased_twice evs → ceased_twice (evs ++ more).
Proof.
  intros (pre & i & post & -> & Hr). exists pre, i, (post ++ more). split; [by rewrite <- app_assoc | done].
Qed.
Lemma parent_left_app evs more : parent_left evs → parent_left (evs ++ more).
Proof.
  intros (pre & e & post & -> & Hr). exists pre, e, (post ++ more). split; [by rewrite <- app_assoc | done].
Qed.

Definition way_out (evs : Events) (cessation : bool) : Prop :=
  if cessation then ceased_twice evs else parent_left evs.

(** What an outstanding receipt stands for. *)
Definition receipt_told (evs : Events) (r : VaultReceipt) : Prop :=
  match r with
  | AwaitDao q (CallbackAddTeeKey k) => q = IsKeystoreApproved k
  | AwaitDao q CallbackInitiate => q = IsCeased
  | AwaitDao q (CallbackFinalize _) => q = IsCeased ∧ said_yes evs IsCeased
  | AwaitDao _ (CallbackAfterSwap _) => False
  | AwaitReply (CallbackAddTeeKey k) (CbOk true) => said_yes evs (IsKeystoreApproved k)
  | AwaitReply CallbackInitiate (CbOk true) => said_yes evs IsCeased
  | AwaitReply (CallbackFinalize _) (CbOk true) => ceased_twice evs
  | AwaitBatch _ (Some (CallbackAfterSwap c)) | AwaitReply (CallbackAfterSwap c) _ => way_out evs c
  | AwaitBatch _ (Some _) => False
  | AwaitReply _ _ | AwaitBatch _ None => True
  end.

Record vault_told (evs : Events) (v : Vault) : Prop := {
  vt_parent : parent v = parent (vault (vault_side s0));
  vt_keys : ∀ k, k ∈ registered_tee_keys v → said_yes evs (IsKeystoreApproved k);
  vt_recovery : ∀ r, recovery v = Some r →
    match trigger r with Cessation => said_yes evs IsCeased | Unilateral => parent_left evs end;
  vt_unlocked : unlocked v = true → ceased_twice evs ∨ parent_left evs;
}.

Record pair_ok (evs : Events) (s : Pair D) : Prop := {
  po_vault : vault_told evs (vault (vault_side s));
  po_receipts : Forall (receipt_told evs) (receipts (vault_side s));
}.

Lemma way_out_app evs more c : way_out evs c → way_out (evs ++ more) c.
Proof. destruct c; cbn; [apply ceased_twice_app | apply parent_left_app]. Qed.
Lemma receipt_told_app evs more r : receipt_told evs r → receipt_told (evs ++ more) r.
Proof.
  destruct r as [q [| | |]|batch [[| | |]|]|[| | |] [[]|]]; cbn; auto using said_yes_app, ceased_twice_app, way_out_app.
  intros [? ?]. auto using said_yes_app.
Qed.
Lemma vault_told_app evs more v : vault_told evs v → vault_told (evs ++ more) v.
Proof.
  intros [? Hk Hr Hu]. constructor; try done.
  - intros k Hin. by apply said_yes_app, Hk.
  - intros r Er. specialize (Hr r Er). destruct (trigger r); auto using said_yes_app, parent_left_app.
  - intros Hun. destruct (Hu Hun); auto using ceased_twice_app, parent_left_app.
Qed.
Lemma pair_keep evs ev s : pair_ok evs s → pair_ok (evs ++ [ev]) s.
Proof.
  intros [? Hr]. constructor; [by apply vault_told_app|].
  eapply Forall_impl; [exact Hr | intros; by apply receipt_told_app].
Qed.

Lemma pair_at_snoc evs ev : pair_at (evs ++ [ev]) = pair_step (pair_at evs) ev.
Proof. unfold pair_at, pair_run. by rewrite foldl_app. Qed.

(** What a run of the vault owes. *)
Definition told_run (evs : Events) (w' : World Vault (VaultAction J)) : Prop :=
  vault_told evs (st w') ∧ Forall (receipt_told evs) (out w' ≫= receipts_of).

Lemma told_run_on evs ev s rest m :
  pair_ok evs s → (∀ r, r ∈ rest → r ∈ receipts (vault_side s)) →
  (∀ u w', m (mkWorld (vault (vault_side s)) []) = Ok (u, w') → told_run (evs ++ [ev]) w') →
  pair_ok (evs ++ [ev]) (mkPair (dao_side s) (run_on (vault_side s) rest m)).
Proof.
  intros [Hv Hrs]%(pair_keep _ ev) Hrest Hm.
  assert (Forall (receipt_told (evs ++ [ev])) rest) as Hrest'.
  { apply Forall_forall. intros r Hr. rewrite Forall_forall in Hrs. by apply Hrs, Hrest. }
  unfold run_on. destruct (m _) as [[u w']|] eqn:Em; [|by constructor].
  destruct (Hm _ _ eq_refl) as [Hv' Hr']. constructor; cbn; [done | by apply Forall_app].
Qed.

Lemma told_same evs v l :
  vault_told evs v → Forall (receipt_told evs) (l ≫= receipts_of) → told_run evs (mkWorld v l).
Proof. by split. Qed.

Lemma told_fields evs v v' :
  parent v' = parent v → registered_tee_keys v' = registered_tee_keys v → unlocked v' = unlocked v →
  recovery v' = None ∨ recovery v' = recovery v → vault_told evs v → vault_told evs v'.
Proof.
  intros E1 E2 E3 E4 [? ? Hr ?]. constructor; rewrite ?E1, ?E2, ?E3; try done.
  intros r Er. destruct E4 as [E4|E4]; rewrite E4 in Er; [done | by apply Hr].
Qed.

Lemma call_told evs e call u w' :
  vault_told evs (vault (vault_side (pair_at evs))) →
  run_vault_call e call (mkWorld (vault (vault_side (pair_at evs))) []) = Ok (u, w') →
  told_run (evs ++ [OnVault (VCall e call)]) w'.
Proof.
  set (v := vault (vault_side (pair_at evs))). intros Hv Hr.
  apply (vault_told_app _ [OnVault (VCall e call)]) in Hv as Hv'. set (evs' := evs ++ _) in *.
  destruct call as [k|x|l| | |secs|k|k full allowance]; cbn [run_vault_call] in Hr.
  - unfold propose_tee_key in Hr. vinv.
    match goal with Hf : key_is_free _ _ _ = _ |- _ => apply key_is_free_ok in Hf as [-> _] end.
    apply told_same; [done | by repeat constructor].
  - unfold request_master in Hr. vinv. apply told_same; [done | constructor].
  - unfold clear_unused_tee_keys in Hr. vinv.
    match goal with Hf : foldM _ _ _ _ = _ |- _ => apply remove_keys_perm in Hf as [Hperm ->] end.
    split; cbn; [|by repeat constructor]. destruct Hv' as [? Hk ? ?]. constructor; cbn; try done.
    intros k Hin. apply Hk. rewrite Hperm. set_solver.
  - unfold initiate_recovery in Hr. vinv. apply told_same; [done | by repeat constructor].
  - unfold unilateral_initiate_recovery in Hr. vinv.
    match goal with Hf : open_recovery _ _ _ _ = _ |- _ => apply open_recovery_ok in Hf as -> end.
    split; [|constructor]. destruct Hv' as [Hp ? ? ?]. constructor; cbn; try done. intros r [= <-]. cbn.
    exists evs, e, []. split; [done|]. unfold v in *. congruence.
  - unfold set_exit_window in Hr. vinv. split; [|constructor]. by apply (told_fields _ v); auto.
  - unfold finalize_recovery in Hr. vinv.
    match goal with Hq : recovery _ = Some ?x |- _ => rename x into r; rename Hq into Er end.
    destruct (_ <? _) eqn:Ew; prop_bool.
    { unfold expire_recovery in *. vinv. split; [|constructor]. by apply (told_fields _ v); auto. }
    pose proof (vt_recovery _ _ Hv' r Er) as Ht. destruct (trigger r); unfold dispatch_swap in *; vinv.
    + apply told_same; [done | by repeat constructor].
    + apply told_same; [done | by repeat constructor].
  - unfold unlocked_add_key in Hr. vinv. destruct full; [|destruct allowance]; vinv;
      (apply told_same; [done | by repeat constructor]).
Qed.

Lemma reply_told evs ev e cb answer u w' :
  vault_told (evs ++ [ev]) (vault (vault_side (pair_at evs))) →
  receipt_told (evs ++ [ev]) (AwaitReply cb answer) →
  run_reply e cb answer (mkWorld (vault (vault_side (pair_at evs))) []) = Ok (u, w') →
  told_run (evs ++ [ev]) w'.
Proof.
  set (v := vault (vault_side (pair_at evs))). intros Hv Ht Hr.
  destruct cb as [k| |k|c]; cbn [run_reply] in Hr.
  - unfold callback_add_tee_key in Hr. destruct answer as [[]|]; vinv; try done.
    match goal with Hf : key_is_free _ _ _ = _ |- _ => apply key_is_free_ok in Hf as [-> _] end.
    split; [|by repeat constructor]. destruct Hv as [? Hk ? ?]. constructor; cbn; try done.
    intros k' [Hin|Hin%list_elem_of_singleton]%elem_of_app; [by apply Hk | by subst].
  - unfold callback_initiate in Hr. destruct answer as [[]|]; vinv; try done.
    match goal with Hf : open_recovery _ _ _ _ = _ |- _ => apply open_recovery_ok in Hf as -> end.
    split; [|constructor]. destruct Hv as [? ? ? ?]. constructor; cbn; try done. by intros r [= <-].
  - unfold callback_finalize in Hr. vinv.
    destruct (recovery v) as [r|] eqn:Er; vinv; [|apply told_same; [done | constructor]].
    destruct (_ <? _); [unfold expire_recovery in *|destruct answer as [[]|]]; vinv.
    + split; [|constructor]. by apply (told_fields _ v); auto.
    + unfold dispatch_swap in *. vinv. apply told_same; [done | by repeat constructor].
    + split; [|constructor]. by apply (told_fields _ v); auto.
    + apply told_same; [done | constructor].
  - unfold callback_after_swap in Hr. destruct answer; vinv; [|apply told_same; [done | constructor]].
    split; [|constructor]. destruct Hv as [? ? ? ?]. constructor; cbn; try done; [set_solver|].
    intros _. destruct c; cbn in Ht; auto.
Qed.

Lemma pair_step_ok evs ev : pair_ok evs (pair_at evs) → pair_ok (evs ++ [ev]) (pair_at (evs ++ [ev])).
Proof.
  intros Hok. rewrite pair_at_snoc. pose proof (pair_keep _ ev _ Hok) as [Hv Hrs].
  destruct ev as [ev|[e call|i answer|i fails|e i]|i fails]; cbn [pair_step].
  - by constructor.
  - apply told_run_on; [done | done|]. intros u w' Hr. by eapply call_told; [apply Hok|].
  - by constructor.
  - cbn. destruct (receipts (vault_side (pair_at evs)) !! i) as [[|batch cb|]|] eqn:Ei; try by constructor.
    pose proof (proj1 (Forall_lookup _ _) Hrs i _ Ei) as Ht. constructor; cbn; [done|].
    apply Forall_app. split; [by apply Forall_delete|]. destruct cb as [[]|]; cbn in *; try done.
    by repeat constructor.
  - cbn. destruct (receipts (vault_side (pair_at evs)) !! i) as [[| |cb answer]|] eqn:Ei; try by constructor.
    apply told_run_on; [done | |].
    + intros r Hr. apply list_elem_of_lookup in Hr as [j Hj]. rewrite list_lookup_delete in Hj.
      by apply list_elem_of_lookup_2 in Hj.
    + intros u w' Hr. eapply reply_told; [done | | done]. exact (proj1 (Forall_lookup _ _) Hrs i _ Ei).
  - destruct (receipts (vault_side (pair_at evs)) !! i) as [[q cb| |]|] eqn:Ei; try by constructor.
    pose proof (proj1 (Forall_lookup _ _) (po_receipts _ _ Hok) i _ Ei) as Ht.
    cbn. rewrite Ei. constructor; cbn; [done|]. apply Forall_app. split; [by apply Forall_delete|].
    repeat constructor. destruct fails; [by destruct cb|].
    assert (dao_answer (dao_side (pair_at evs)) q = true → said_yes (evs ++ [Answer i false]) q) as Hyes.
    { intros Ha. by exists evs, i, []. }
    destruct (dao_answer (dao_side (pair_at evs)) q) eqn:Ea; [|by destruct cb].
    destruct cb; cbn in Ht |- *; try done; [subst; auto | subst; auto |].
    destruct Ht as [-> Ht]. exists evs, i, []. done.
Qed.

Lemma pair_run_ok evs :
  unlocked (vault (vault_side s0)) = false → recovery (vault (vault_side s0)) = None →
  registered_tee_keys (vault (vault_side s0)) = [] → receipts (vault_side s0) = [] →
  pair_ok evs (pair_at evs).
Proof.
  intros Hu Hr Hk Hrs. induction evs as [|ev evs IH] using rev_ind; [|by apply pair_step_ok].
  change (pair_at []) with s0. constructor; [|by rewrite Hrs].
  constructor; [done | rewrite Hk; set_solver | by rewrite Hr | by rewrite Hu].
Qed.
End pair.

(** * The DAO's side *)

(** The keystore DAO answers from its state; the vault sends a key as text. *)
#[export] Instance keystore_dao_answers `{KeyText} : DaoAnswers DaoSys :=
  λ s query, match query with
  | IsKeystoreApproved k => is_keystore_approved (dao s) (print_public_key k)
  | IsCeased => is_ceased (dao s)
  end.

Section dao_side.
Context `{Platform} `{TeeVerifier}.

Definition on_cessation (call : DaoCall) : bool :=
  match call with DeclareCessation | RevokeCessation => true | _ => false end.
Lemma frame_ceased e call : on_cessation call = false → frame ceased_operations (run_dao_call e call).
Proof.
  pose proof (@frame_assert_owner bool). pose proof (@frame_assert_member bool).
  pose proof (@frame_attestation _ _ bool). pose proof (@frame_revocable bool).
  destruct call; try done; intros _; unfold run_dao_call; solve_frame.
Qed.

(** Operations have ceased only if a member declared it. *)
Lemma ceased_declared s evs :
  ceased_operations (dao s) = false → ceased_operations (dao (dao_at s evs)) = true →
  ∃ a, member_called s evs a (λ _ call, call = DeclareCessation).
Proof.
  intros H0'. induction evs as [|ev evs IH] using rev_ind; [unfold dao_at, dao_run; cbn; congruence|]. rewrite dao_at_snoc.
  intros Hc. destruct (ceased_operations (dao (dao_at s evs))) eqn:Eold.
  { destruct (IH eq_refl) as [a Ha]. exists a. by apply member_called_app. }
  destruct ev as [k e call|i fails]; cbn in Hc;
    [|destruct (key_batches (dao_at s evs) !! i); cbn in Hc; congruence].
  destruct (negb _); [congruence|]. destruct (run_dao_call e call _) as [[u w']|] eqn:Er; [|congruence].
  cbn in Hc. destruct (on_cessation call) eqn:Ec.
  - destruct call; try done; cbn in Er.
    + unfold declare_cessation in Er. dinv. exists (predecessor_account_id e), evs, k, e, DeclareCessation, [].
      split_and!; try done.
    + unfold revoke_cessation in Er. dinv. done.
  - pose proof (frame_ceased e call Ec _ _ _ Er) as Hf. cbn in Hf. congruence.
Qed.
End dao_side.

(** * Claims *)

Section claims.
Context `{Platform} `{TeeVerifier} `{KeyText} {J : Type}.
(** near-sdk reads back the text it prints for a key. *)
Hypothesis parse_print : ∀ k, parse_public_key (print_public_key k) = Some k.

Abbreviation step := (pair_step (J := J) dao_step).
Abbreviation Events := (list (PairEvent DaoEvent J)).

Definition dao_events (evs : Events) : list DaoEvent :=
  omap (λ ev, match ev with OnDao ev => Some ev | _ => None end) evs.

Lemma dao_side_run s (evs : Events) :
  dao_side (pair_run dao_step s evs) = dao_run (dao_side s) (dao_events evs).
Proof.
  revert s. induction evs as [|ev evs IH]; intros s; [done|]. cbn [pair_run foldl].
  fold (pair_run (J := J) dao_step (step s ev) evs). rewrite IH.
  destruct ev as [ev|ev|i fails]; cbn; [done | by destruct ev |].
  by destruct (receipts (vault_side s) !! i) as [[]|].
Qed.

Lemma dao_events_app (a b : Events) : dao_events (a ++ b) = dao_events a ++ dao_events b.
Proof. unfold dao_events. by rewrite omap_app. Qed.

(** A fresh DAO, and a vault no key has been proposed to. *)
Definition fresh_pair (s : Pair DaoSys) : Prop :=
  dao_deployed (dao_side s) ∧ unlocked (vault (vault_side s)) = false ∧
  recovery (vault (vault_side s)) = None ∧ registered_tee_keys (vault (vault_side s)) = [] ∧
  receipts (vault_side s) = [].

Lemma fresh_ok s (evs : Events) : fresh_pair s → pair_ok dao_step s evs (pair_at dao_step s evs).
Proof. intros (_ & ? & ? & ? & ?). by apply pair_run_ok. Qed.

(** C6: A TEE key a vault has registered is a keystore's that the DAO approved: it was
    attested to the DAO under measurements approved then, and more than half of the
    DAO's members voted for it.  Calls, answers, key batches and callbacks of the
    two accounts may come in any order and fail at any point. *)
Theorem vault_key_approved_by_vote s (evs : Events) k :
  fresh_pair s → fits (dao_events evs) →
  k ∈ get_registered_keys (vault (vault_side (pair_run dao_step s evs))) →
  approved_by_vote (dao_side s) (dao_events evs) k.
Proof.
  intros Hs Hf Hk. pose proof (vt_keys _ _ _ _ (po_vault _ _ _ _ (fresh_ok s evs Hs)) k Hk)
    as (pre & i & post & -> & Ha).
  rewrite dao_events_app in Hf |- *. apply approved_by_vote_app.
  cbn in Ha. unfold is_keystore_approved in Ha. rewrite parse_print in Ha. prop_bool.
  unfold pair_at in Ha. rewrite dao_side_run in Ha.
  exact (keystore_approved_by_vote _ _ _ (proj1 Hs) (fits_app _ _ Hf) Ha).
Qed.

End claims.

(** * One pair *)

#[local] Existing Instance tee_platform.
#[local] Existing Instance tee_verifier.

(** Keys as text: a letter for the curve, then the data. *)
Definition sample_key_text : KeyText := {|
  parse_public_key := λ s, match s with
    | String "e" d => Some (mkKey ED25519 d)
    | String "s" d => Some (mkKey SECP256K1 d)
    | String "m" d => Some (mkKey MLDSA65 d)
    | _ => None end;
  print_public_key := λ k, String (match curve_type k with
    | ED25519 => "e" | SECP256K1 => "s" | MLDSA65 => "m" end) (key_data k);
|}.
#[local] Existing Instance sample_key_text.
Lemma sample_parse_print k : parse_public_key (print_public_key k) = Some k.
Proof. by destruct k as [[] d]. Qed.

Definition pair_start : Pair DaoSys := mkPair dao_start alice_vault.
Definition enrol_key : list (PairEvent DaoEvent unit) :=
  map OnDao elect ++
  [OnVault (VCall (vault_env "anyone.near" 5) (ProposeTeeKey keystore_key)); Answer 0 false;
   OnVault (VReply (vault_env "vault.alice.near" 6) 0)].

Lemma pair_start_fresh : fresh_pair pair_start.
Proof. split; [exact dao_start_deployed | done]. Qed.

Lemma vault_key_approved_by_vote_witness :
  approved_by_vote (dao_side pair_start) (dao_events enrol_key) keystore_key.
Proof.
  apply (vault_key_approved_by_vote sample_parse_print);
    [exact pair_start_fresh | vm_compute; reflexivity | vm_compute; left].
Defined.

(** The DAO ceases; anybody opens the recovery, the parent ends it a week later. *)
Definition wind_down : list (PairEvent DaoEvent unit) :=
  [OnDao (by_ "a.near" DeclareCessation);
   OnVault (VCall (vault_env "anyone.near" 0) InitiateRecovery); Answer 0 false;
   OnVault (VReply (vault_env "vault.alice.near" 0) 0);
   OnVault (VCall (vault_env "alice.near" CESSATION_DELAY_NS) (FinalizeRecovery (sample_pk "alice-key")));
   Answer 0 false; OnVault (VReply (vault_env "vault.alice.near" CESSATION_DELAY_NS) 0);
   OnVault (VBatch 0 false); OnVault (VReply (vault_env "vault.alice.near" CESSATION_DELAY_NS) 0)].
