(* ===== verification/Calendar.v ===== *)
(** The date of a refusal (keystore-worker/src/types.rs, [iso8601_utc]): the
    civil-from-days computation against a calendar that counts day by day. *)

From S2P Require Export RustStr.

(** The year, month and day of the day [days] after 1970-01-01. *)
Definition civil_from_days (days : Z) : Z * Z * Z :=
  let z := days + 719468 in
  let era := z / 146097 in
  let doe := z mod 146097 in
  let yoe := (doe - doe / 1460 + doe / 36524 - doe / 146096) / 365 in
  let y := yoe + era * 400 in
  let doy := doe - (365 * yoe + yoe / 4 - yoe / 100) in
  let mp := (5 * doy + 2) / 153 in
  let d := doy - (153 * mp + 2) / 5 + 1 in
  let mo := if mp <? 10 then mp + 3 else mp - 9 in
  let y := if mo <=? 2 then y + 1 else y in
  (y, mo, d).

(** [format!("{n:0k}")]. *)
Definition pad (k : nat) (n : Z) : string :=
  let s := uint_to_string n in
  String.string_of_list_ascii (repeat "0"%char (k - String.length s)) +:+ s.

Definition iso8601_utc (ns : Z) : string :=
  let secs := ns / 1000000000 in
  let '(days, rem) := (secs / 86400, secs mod 86400) in
  let '(h, m, s) := (rem / 3600, rem mod 3600 / 60, rem mod 60) in
  let '(y, mo, d) := civil_from_days days in
  pad 4 y +:+ "-" +:+ pad 2 mo +:+ "-" +:+ pad 2 d +:+ "T" +:+ pad 2 h +:+ ":" +:+ pad 2 m
    +:+ ":" +:+ pad 2 s +:+ "Z".

(** * The Gregorian calendar *)

Definition is_leap (y : Z) : bool := (y mod 4 =? 0) && (negb (y mod 100 =? 0) || (y mod 400 =? 0)).
Definition days_in_month (y m : Z) : Z :=
  if m =? 2 then (if is_leap y then 29 else 28)
  else if (m =? 4) || (m =? 6) || (m =? 9) || (m =? 11) then 30 else 31.
Definition tomorrow (date : Z * Z * Z) : Z * Z * Z :=
  let '(y, m, d) := date in
  if d <? days_in_month y m then (y, m, d + 1)
  else if m <? 12 then (y, m + 1, 1) else (y + 1, 1, 1).

(** * Years from March

    The computation counts years from the first of March in eras of 400. *)

(** The first day of the year [yoe] of an era, and the first after it. *)
Definition year_start (yoe : Z) : Z := 365 * yoe + yoe / 4 - yoe / 100.
Definition year_end (yoe : Z) : Z := if yoe =? 399 then 146097 else year_start (yoe + 1).
Definition year_of (doe : Z) : Z := (doe - doe / 1460 + doe / 36524 - doe / 146096) / 365.
(** Month and day of the day [doy] of such a year, and whether it lies in the next
    calendar year. *)
Definition month_day (doy : Z) : Z * Z * Z :=
  let mp := (5 * doy + 2) / 153 in
  let mo := if mp <? 10 then mp + 3 else mp - 9 in
  (if mo <=? 2 then 1 else 0, mo, doy - (153 * mp + 2) / 5 + 1).

Lemma all_below (f : Z → bool) (n : nat) :
  forallb f (map Z.of_nat (seq 0 n)) = true → ∀ z, 0 ≤ z < Z.of_nat n → f z = true.
Proof.
  intros Hf z Hz. rewrite forallb_forall in Hf. apply Hf, in_map_iff. exists (Z.to_nat z).
  split; [lia | apply in_seq; lia].
Qed.

Lemma year_of_ends yoe : 0 ≤ yoe < 400 →
  year_of (year_start yoe) = yoe ∧ year_of (year_end yoe - 1) = yoe ∧
  (year_end yoe - year_start yoe = if is_leap (yoe + 1) then 366 else 365).
Proof.
  intros Hy.
  pose proof (all_below (λ yoe, (year_of (year_start yoe) =? yoe) && (year_of (year_end yoe - 1) =? yoe) &&
    (year_end yoe - year_start yoe =? if is_leap (yoe + 1) then 366 else 365)) 400
    ltac:(vm_compute; reflexivity) yoe Hy) as Hc. cbv beta in Hc. prop_bool. done.
Qed.

Lemma year_of_step doe : 0 ≤ doe → year_of doe ≤ year_of (doe + 1).
Proof. intros Hd. unfold year_of. apply Z.div_le_mono; [lia|]. Z.to_euclidean_division_equations. lia. Qed.
Lemma year_of_mono a b : 0 ≤ a ≤ b → year_of a ≤ year_of b.
Proof.
  intros [Ha Hab]. pattern b. apply (Zlt_lower_bound_ind _ a); [|done]. clear b Hab. intros b IH Hb.
  destruct (decide (b = a)) as [->|]; [lia|]. specialize (IH (b - 1) ltac:(lia)).
  pose proof (year_of_step (b - 1) ltac:(lia)). replace (b - 1 + 1) with b in * by lia. lia.
Qed.

(** Every day of an era lies in one year, and the computation finds it. *)
Lemma year_of_spec doe : 0 ≤ doe < 146097 →
  0 ≤ year_of doe < 400 ∧ year_start (year_of doe) ≤ doe < year_end (year_of doe).
Proof.
  intros Hd.
  assert (∀ n : nat, (n ≤ 399)%nat → doe < year_end (Z.of_nat n) →
    ∃ y, 0 ≤ y ≤ Z.of_nat n ∧ year_start y ≤ doe < year_end y) as Hex.
  { induction n as [|n IH]; intros Hn Hlt; [exists 0; split; [lia | split; [change (year_start 0) with 0; lia | exact Hlt]]|].
    destruct (Z.lt_ge_cases doe (year_start (Z.of_nat (S n)))) as [Hs|Hs]; [|exists (Z.of_nat (S n)); lia].
    destruct IH as (y & ? & ?); [lia | |by exists y; split; [lia|]].
    unfold year_end. replace (Z.of_nat n =? 399) with false by (symmetry; apply Z.eqb_neq; lia).
    by replace (Z.of_nat n + 1) with (Z.of_nat (S n)) by lia. }
  destruct (Hex 399%nat ltac:(lia) ltac:(change (year_end (Z.of_nat 399)) with 146097; lia)) as (y & Hy & Hs).
  destruct (year_of_ends y ltac:(lia)) as (H1 & H2 & _).
  assert (0 ≤ year_start y) by (unfold year_start; Z.to_euclidean_division_equations; lia).
  assert (year_of doe = y) as ->; [|lia].
  apply Z.le_antisymm; [rewrite <- H2 | rewrite <- H1]; apply year_of_mono; lia.
Qed.

Lemma is_leap_era y k : is_leap (y + k * 400) = is_leap y.
Proof.
  unfold is_leap. replace (y + k * 400) with (y + (k * 100) * 4) at 1 by lia.
  replace (y + k * 400) with (y + (k * 4) * 100) at 1 by lia. by rewrite !Z.mod_add by lia.
Qed.

(** Within a year the next day of the year is the next day of the calendar. *)
Lemma month_day_step y doy : 0 ≤ doy < 364 →
  let '(c, m, d) := month_day doy in let '(c', m', d') := month_day (doy + 1) in
  tomorrow (y + c, m, d) = (y + c', m', d').
Proof.
  intros Hd.
  pose proof (all_below (λ doy, let '(c, m, d) := month_day doy in let '(c', m', d') := month_day (doy + 1) in
    (c =? c') && negb (m =? 2) && (d <? days_in_month 0 m) && (m' =? m) && (d' =? d + 1) ||
    (c =? c') && negb (m =? 2) && (d =? days_in_month 0 m) && (m <? 12) && (m' =? m + 1) && (d' =? 1) ||
    (c =? 0) && (c' =? 1) && (m =? 12) && (d =? 31) && (m' =? 1) && (d' =? 1) ||
    (c =? c') && (m =? 2) && (d <? 28) && (m' =? m) && (d' =? d + 1)) 364
    ltac:(vm_compute; reflexivity) doy Hd) as Hc. cbv beta in Hc.
  destruct (month_day doy) as [[c m] d], (month_day (doy + 1)) as [[c' m'] d'].
  unfold tomorrow. rewrite !orb_true_iff in Hc.
  assert (∀ m, m ≠ 2 → days_in_month (y + c) m = days_in_month 0 m) as Hdim.
  { intros x Hx. unfold days_in_month. by rewrite (proj2 (Z.eqb_neq _ _) Hx). }
  destruct Hc as [[[Hc|Hc]|Hc]|Hc]; prop_bool; subst.
  - rewrite Hdim by done. by rewrite (proj2 (Z.ltb_lt _ _)) by done.
  - rewrite Hdim by done. rewrite Z.ltb_irrefl. by rewrite (proj2 (Z.ltb_lt _ _)) by done.
  - rewrite Hdim by done. cbn. f_equal. f_equal. lia.
  - unfold days_in_month. cbn. destruct (is_leap _); by rewrite (proj2 (Z.ltb_lt _ _)) by lia.
Qed.

Lemma february y d : d = 28 ∨ d = 29 →
  tomorrow (y, 2, d) = if (d =? 28) && is_leap y then (y, 2, 29) else (y, 3, 1).
Proof. intros [->| ->]; unfold tomorrow, days_in_month; cbn [Z.eqb]; by destruct (is_leap y). Qed.

(** The date in terms of the year from March. *)
Lemma civil_year days era doe : days + 719468 = era * 146097 + doe → 0 ≤ doe < 146097 →
  civil_from_days days =
  let '(c, m, d) := month_day (doe - year_start (year_of doe)) in (year_of doe + era * 400 + c, m, d).
Proof.
  intros Hz Hd. unfold civil_from_days.
  assert ((days + 719468) / 146097 = era ∧ (days + 719468) mod 146097 = doe) as [-> ->].
  { rewrite Hz. split; Z.to_euclidean_division_equations; lia. }
  fold (year_of doe). fold (year_start (year_of doe)). unfold month_day.
  set (mp := (5 * _ + 2) / 153). destruct (_ <=? 2); [done | by rewrite Z.add_0_r].
Qed.

Lemma civil_step days : 0 ≤ days → civil_from_days (days + 1) = tomorrow (civil_from_days days).
Proof.
  intros Hdays. set (z := days + 719468). set (era := z / 146097). set (doe := z mod 146097).
  assert (z = era * 146097 + doe) as Hz by (unfold era, doe; pose proof (Z.div_mod z 146097); lia).
  assert (0 ≤ doe < 146097) as Hdoe by (apply Z.mod_pos_bound; lia).
  rewrite (civil_year days era doe) by (unfold z in Hz; lia). cbv zeta.
  destruct (year_of_spec doe Hdoe) as [Hy Hs]. set (y := year_of doe) in *.
  destruct (year_of_ends y Hy) as (Hy1 & Hy2 & Hlen). set (doy := doe - year_start y) in *.
  destruct (decide (doe + 1 < year_end y)) as [Hin|Hlast].
  - assert (doe + 1 < 146097) as Hdoe1.
    { destruct (decide (y = 399)) as [E|E]; [rewrite E in Hin; exact Hin|].
      pose proof (year_of_ends (y + 1) ltac:(lia)) as (H1 & _). destruct (Z.lt_ge_cases (doe + 1) 146097); [done|].
      pose proof (year_of_mono (year_end y - 1) 146096). unfold year_end in *.
      rewrite (proj2 (Z.eqb_neq _ _) E) in *.
      assert (year_start (y + 1) ≤ 146097) by (unfold year_start; Z.to_euclidean_division_equations; lia). lia. }
    assert (year_of (doe + 1) = y) as Ey.
    { apply Z.le_antisymm; [rewrite <- Hy2 | unfold y]; apply year_of_mono; [|lia].
      assert (0 ≤ year_start y) by (unfold year_start; Z.to_euclidean_division_equations; lia). lia. }
    rewrite (civil_year (days + 1) era (doe + 1)) by (unfold z in Hz; lia). rewrite Ey.
    replace (doe + 1 - year_start y) with (doy + 1) by (unfold doy; lia).
    destruct (decide (doy < 364)) as [Hd|Hd].
    + pose proof (month_day_step (y + era * 400) doy ltac:(unfold doy in *; lia)) as Hst.
      destruct (month_day doy) as [[c m] d], (month_day (doy + 1)) as [[c' m'] d']. done.
    + assert (doy = 364 ∧ is_leap (y + 1) = true) as [-> Hleap].
      { unfold doy in *. destruct (is_leap (y + 1)); lia. }
      change (month_day 364) with (1, 2, 28). change (month_day (364 + 1)) with (1, 2, 29). cbv iota beta.
      rewrite february by auto. replace (y + era * 400 + 1) with (y + 1 + era * 400) by lia.
      by rewrite is_leap_era, Hleap.
  - assert (doe + 1 = year_end y) as Hend by lia.
    assert (civil_from_days (days + 1) = (y + 1 + era * 400, 3, 1)) as ->.
    { destruct (decide (y = 399)) as [E|E].
      - rewrite (civil_year (days + 1) (era + 1) 0); [|unfold z in Hz; rewrite E in Hend; cbn in Hend; lia|lia].
        change (month_day (0 - year_start (year_of 0))) with (0, 3, 1). change (year_of 0) with 0. cbv iota beta.
        f_equal. f_equal. lia.
      - unfold year_end in Hend. rewrite (proj2 (Z.eqb_neq _ _) E) in Hend.
        pose proof (year_of_ends (y + 1) ltac:(lia)) as (H1 & _).
        rewrite (civil_year (days + 1) era (doe + 1)); [|unfold z in Hz; lia|].
        + rewrite Hend, H1, Z.sub_diag. change (month_day 0) with (0, 3, 1). cbv iota beta. f_equal. f_equal. lia.
        + split; [lia|]. rewrite Hend. unfold year_start. Z.to_euclidean_division_equations. lia. }
    destruct (is_leap (y + 1)) eqn:Eleap.
    + assert (doy = 365) as -> by (unfold doy; lia). change (month_day 365) with (1, 2, 29). cbv iota beta.
      rewrite february by auto. cbn. f_equal. f_equal. lia.
    + assert (doy = 364) as -> by (unfold doy; lia). change (month_day 364) with (1, 2, 28). cbv iota beta.
      rewrite february by auto. replace (y + era * 400 + 1) with (y + 1 + era * 400) by lia.
      by rewrite is_leap_era, Eleap.
Qed.

Lemma civil_iter (n : nat) : civil_from_days (Z.of_nat n) = Nat.iter n tomorrow (1970, 1, 1).
Proof.
  induction n as [|n IH]; [reflexivity|]. rewrite Nat2Z.inj_succ. unfold Z.succ.
  rewrite civil_step by lia. cbn [Nat.iter nat_rect]. by rewrite IH.
Qed.

(** The moment the service prints is the right one: its date is the one a calendar
    gives that starts at 1 January 1970 and counts day by day with the Gregorian
    leap years, and its hours, minutes and seconds make up the rest of the day. *)
Theorem iso8601_is_calendar ns :
  0 ≤ ns →
  ∃ (day : nat) y mo d h m s,
    iso8601_utc ns = pad 4 y +:+ "-" +:+ pad 2 mo +:+ "-" +:+ pad 2 d +:+ "T" +:+ pad 2 h +:+ ":" +:+
      pad 2 m +:+ ":" +:+ pad 2 s +:+ "Z" ∧
    (y, mo, d) = Nat.iter day tomorrow (1970, 1, 1) ∧
    ns / 1000000000 = 86400 * Z.of_nat day + 3600 * h + 60 * m + s ∧
    0 ≤ h < 24 ∧ 0 ≤ m < 60 ∧ 0 ≤ s < 60.
Proof.
  intros Hns. unfold iso8601_utc. set (secs := ns / 1000000000).
  assert (0 ≤ secs) by (apply Z.div_pos; lia).
  destruct (civil_from_days (secs / 86400)) as [[y mo] d] eqn:E.
  exists (Z.to_nat (secs / 86400)), y, mo, d, (secs mod 86400 / 3600), (secs mod 86400 mod 3600 / 60),
    (secs mod 86400 mod 60).
  assert (0 ≤ secs / 86400) by (apply Z.div_pos; lia).
  split; [done|]. split; [rewrite <- civil_iter, Z2Nat.id, E by done; done|].
  rewrite Z2Nat.id by done. Z.to_euclidean_division_equations. lia.
Qed.

Lemma iso8601_is_calendar_witness :
  ∃ (day : nat) y mo d h m s,
    iso8601_utc 951782400000000000 = pad 4 y +:+ "-" +:+ pad 2 mo +:+ "-" +:+ pad 2 d +:+ "T" +:+ pad 2 h +:+
      ":" +:+ pad 2 m +:+ ":" +:+ pad 2 s +:+ "Z" ∧
    (y, mo, d) = Nat.iter day tomorrow (1970, 1, 1) ∧
    951782400000000000 / 1000000000 = 86400 * Z.of_nat day + 3600 * h + 60 * m + s ∧
    0 ≤ h < 24 ∧ 0 ≤ m < 60 ∧ 0 ≤ s < 60.
Proof. apply iso8601_is_calendar. lia. Defined.

Example leap_day : iso8601_utc 951782400000000000 = "2000-02-29T00:00:00Z".
Proof. vm_compute. reflexivity. Qed.
