(* ===== verification/Access.v ===== *)
(** The keystore's judgement of an access condition (keystore-worker/src/types.rs and
    [judge_access] of keystore-worker/src/api.rs): patterns, evaluation with unknown
    answers, the search for a name, a lapsed grant and a refusing build, and the
    sentence a refused caller reads.

    The chain's view calls and the host's clock are what the evaluation asks: one
    answer per question for the whole of one evaluation.  The regular-expression
    engine and the bounds of the shared helper crate are parameters. *)

From S2P Require Export Types Calendar.

(** * Conditions as the keystore reads them: numbers are text *)

Inductive Condition :=
| CLogic (operator : LogicOperator) (conditions : list Condition)
| CNot (condition : Condition)
| CAllowAll
| CWhitelist (accounts : list string)
| CAccountPattern (pattern : string)
| CNearBalance (operator : ComparisonOperator) (value : string)
| CFtBalance (contract : string) (operator : ComparisonOperator) (value : string)
| CNftOwned (contract : string) (token_id : option string)
| CDaoMember (dao_contract role : string)
| CValidUntil (until_ns : string)
| CWasmHash (hash : string)
| CPredecessor (condition : Condition).

Section condition_ind.
Variable P : Condition → Prop.
Hypothesis Hlogic : ∀ op l, Forall P l → P (CLogic op l).
Hypothesis Hnot : ∀ c, P c → P (CNot c).
Hypothesis Hpred : ∀ c, P c → P (CPredecessor c).
Hypothesis Hleaf : ∀ c, (match c with CLogic _ _ | CNot _ | CPredecessor _ => False | _ => True end) → P c.
Fixpoint condition_ind' (c : Condition) : P c :=
  match c with
  | CLogic op l =>
    Hlogic op l ((fix go l : Forall P l :=
      match l with [] => Forall_nil_2 P | c :: l => Forall_cons_2 P c l (condition_ind' c) (go l) end) l)
  | CNot c => Hnot c (condition_ind' c)
  | CPredecessor c => Hpred c (condition_ind' c)
  | c => Hleaf c I
  end.
End condition_ind.

(** What the worker reported about the run. *)
Record RunFacts := mkFacts {
  executed_wasm_sha256 : option string;
  predecessor_id : option string;
}.

Inductive EvalError :=
| NotCompiled
| NoClient
| InvalidBalance
| ChainFailed (why : string)
| InvalidLimit
| ClockBeforeEpoch
| NoBuildReported
| NoPredecessorReported.

(** A NEAR client: the answers of the chain's view calls, or their failures. *)
Record NearClient := mkClient {
  get_account_balance : string → result Z string;
  get_ft_balance : string → string → result Z string;
  check_nft_ownership : string → string → option string → result bool string;
  check_dao_membership : string → string → string → result bool string;
}.

Abbreviation Matcher := (string → bool).
Abbreviation CompiledPatterns := (gmap string Matcher).

(** The regex crate under the size limits of the shared helpers: the matcher of a
    pattern, or the error's text. *)
Class Regex := regex_build : string → result Matcher string.

Section access.
Context `{Regex}.

Definition compile_anchored_account_pattern (pattern : string) : result Matcher string :=
  regex_build ("\A(?:" +:+ pattern +:+ ")\z").

(** ** An unreadable pattern *)

Definition is_char_boundary (s : string) (i : nat) : bool :=
  match i with
  | O => true
  | _ => match str_bytes s !! i with
         | None => bool_decide (i = String.length s)
         | Some b => negb (cont b)
         end
  end.
Fixpoint boundary_from (s : string) (fin : nat) : nat :=
  if is_char_boundary s fin then fin else
  match fin with O => O | S e => boundary_from s e end.
Definition clip (s : string) (max : nat) : string :=
  if (String.length s <=? max)%nat then s else str_take (boundary_from s max) s +:+ "…".

Fixpoint split_lines (cur s : string) : list string :=
  match s with
  | "" => if str_is_empty cur then [] else [cur]
  | String c s => if byte_of c =? 10 then cur :: split_lines "" s else split_lines (cur +:+ String c "") s
  end.
Fixpoint trim_start_matches (fuel : nat) (pat s : string) : string :=
  match fuel with
  | O => s
  | S fuel => if starts_with s pat then trim_start_matches fuel pat (str_drop (String.length pat) s) else s
  end.
(** The last line of the compiler's message that is not blank. *)
Definition reason_of (error : string) : string :=
  let last_line := head (filter (λ l, str_is_empty (str_trim l) = false) (reverse (split_lines "" error))) in
  let line := str_trim (default "" last_line) in
  trim_start_matches (String.length line) "error: " line.

Record UnreadablePattern := mkUnreadable { unreadable : string; why : string }.
Definition CLIP : nat := 256.
Definition unreadable_new (pattern error : string) : UnreadablePattern :=
  mkUnreadable (clip pattern CLIP) (clip (reason_of error) CLIP).
Definition unreadable_to_string (u : UnreadablePattern) : string :=
  "Access denied by access condition: its AccountPattern `" +:+ unreadable u +:+
  "` cannot be compiled as a regular expression (" +:+ why u +:+ ")".

(** ** Compiling *)

Fixpoint collect_patterns (into : CompiledPatterns) (c : Condition)
    : result CompiledPatterns UnreadablePattern :=
  match c with
  | CAccountPattern pattern =>
    match into !! pattern with
    | Some _ => ROk into
    | None =>
      match compile_anchored_account_pattern pattern with
      | ROk re => ROk (<[pattern := re]> into)
      | RErr e => RErr (unreadable_new pattern e)
      end
    end
  | CLogic _ conditions =>
    (fix each into l := match l with
       | [] => ROk into
       | c :: l => let? into := collect_patterns into c in each into l
       end) into conditions
  | CNot c | CPredecessor c => collect_patterns into c
  | _ => ROk into
  end.
Definition compile_patterns (c : Condition) : result CompiledPatterns UnreadablePattern :=
  collect_patterns ∅ c.

(** ** Evaluating *)

Definition compare_values (actual : Z) (operator : ComparisonOperator) (required : Z) : bool :=
  match operator with
  | CmpGte => required <=? actual
  | CmpLte => actual <=? required
  | CmpGt => required <? actual
  | CmpLt => actual <? required
  | CmpEq => actual =? required
  | CmpNe => negb (actual =? required)
  end.

Definition valid_until_at (until_ns : string) (now : Z) : result bool EvalError :=
  let? until := ok_or (parse_u64 until_ns) InvalidLimit in
  ROk (now <? until).

Definition asked {A} (r : result A string) : result A EvalError :=
  match r with ROk a => ROk a | RErr e => RErr (ChainFailed e) end.

(** [now] is the clock's reading, [None] when it reads before the epoch. *)
Fixpoint evaluate (near_client : option NearClient) (now : option Z) (patterns : CompiledPatterns)
    (facts : RunFacts) (caller : string) (c : Condition) : result bool EvalError :=
  match c with
  | CAllowAll => ROk true
  | CWhitelist accounts => ROk (bool_decide (caller ∈ accounts))
  | CAccountPattern pattern =>
    let? re := ok_or (patterns !! pattern) NotCompiled in ROk (re caller)
  | CLogic LogicAnd conditions =>
    (fix all unknown l := match l with
       | [] => match unknown with Some e => RErr e | None => ROk true end
       | c :: l =>
         match evaluate near_client now patterns facts caller c with
         | ROk true => all unknown l
         | ROk false => ROk false
         | RErr e => all (match unknown with None => Some e | u => u end) l
         end
       end) None conditions
  | CLogic LogicOr conditions =>
    (fix any unknown l := match l with
       | [] => match unknown with Some e => RErr e | None => ROk false end
       | c :: l =>
         match evaluate near_client now patterns facts caller c with
         | ROk true => ROk true
         | ROk false => any unknown l
         | RErr e => any (match unknown with None => Some e | u => u end) l
         end
       end) None conditions
  | CNot c => let? r := evaluate near_client now patterns facts caller c in ROk (negb r)
  | CNearBalance operator value =>
    let? client := ok_or near_client NoClient in
    let? required := ok_or (parse_u128 value) InvalidBalance in
    let? actual := asked (get_account_balance client caller) in
    ROk (compare_values actual operator required)
  | CFtBalance contract operator value =>
    let? client := ok_or near_client NoClient in
    let? required := ok_or (parse_u128 value) InvalidBalance in
    let? actual := asked (get_ft_balance client contract caller) in
    ROk (compare_values actual operator required)
  | CNftOwned contract token_id =>
    let? client := ok_or near_client NoClient in
    asked (check_nft_ownership client contract caller token_id)
  | CDaoMember dao_contract role =>
    let? client := ok_or near_client NoClient in
    asked (check_dao_membership client dao_contract caller role)
  | CValidUntil until_ns =>
    let? now := ok_or now ClockBeforeEpoch in valid_until_at until_ns now
  | CWasmHash hash =>
    match executed_wasm_sha256 facts with
    | Some executed => ROk (eq_ignore_ascii_case executed hash)
    | None => RErr NoBuildReported
    end
  | CPredecessor c =>
    match predecessor_id facts with
    | Some predecessor => evaluate near_client now patterns facts predecessor c
    | None => RErr NoPredecessorReported
    end
  end.

(** ** Wording *)

Fixpoint is_naming_leaf (c : Condition) : bool :=
  match c with
  | CAllowAll | CWhitelist _ | CAccountPattern _ => true
  | CNot c => is_naming_leaf c
  | _ => false
  end.

Definition lapsed_limit (now : Z) (c : Condition) : option Z :=
  match c with
  | CValidUntil until_ns => until ← parse_u64 until_ns; if until <=? now then Some until else None
  | _ => None
  end.

Fixpoint names (patterns : CompiledPatterns) (caller : string) (c : Condition) : bool :=
  match c with
  | CAllowAll => true
  | CWhitelist accounts => bool_decide (caller ∈ accounts)
  | CAccountPattern pattern => from_option (λ re : Matcher, re caller) false (patterns !! pattern)
  | CNot c => if is_naming_leaf c then negb (names patterns caller c) else false
  | _ => false
  end.

Definition names_without_lapse (patterns : CompiledPatterns) (now : Z) (caller : string)
    (c : Condition) : bool :=
  match c with
  | CLogic LogicAnd conditions =>
    existsb (names patterns caller) conditions &&
    negb (existsb (λ c, is_naming_leaf c && negb (names patterns caller c)) conditions) &&
    forallb (λ c, bool_decide (lapsed_limit now c = None)) conditions
  | c => names patterns caller c
  end.

Fixpoint find_map {A B} (f : A → option B) (l : list A) : option B :=
  match l with
  | [] => None
  | x :: l => match f x with Some b => Some b | None => find_map f l end
  end.

Definition is_logic (c : Condition) : bool := match c with CLogic _ _ => true | _ => false end.

Fixpoint lapsed_grant_in (patterns : CompiledPatterns) (now : Z) (caller : string) (c : Condition)
    : option Z :=
  match c with
  | CValidUntil _ => lapsed_limit now c
  | CLogic LogicOr conditions =>
    if existsb (names_without_lapse patterns now caller) conditions then None
    else find_map (lapsed_grant_in patterns now caller) conditions
  | CLogic LogicAnd conditions =>
    if existsb (λ c, is_naming_leaf c && negb (names patterns caller c)) conditions then None else
    match existsb (names patterns caller) conditions, find_map (lapsed_limit now) conditions with
    | true, Some until => Some until
    | _, _ => find_map (λ c, if is_logic c then lapsed_grant_in patterns now caller c else None) conditions
    end
  | _ => None
  end.

(** The verdict of a condition on what can be read without the chain. *)
Fixpoint holds_without_the_chain (patterns : CompiledPatterns) (now : Z) (facts : RunFacts)
    (caller : string) (c : Condition) : option bool :=
  match c with
  | CAllowAll => Some true
  | CWhitelist accounts => Some (bool_decide (caller ∈ accounts))
  | CAccountPattern pattern => (λ re : Matcher, re caller) <$> patterns !! pattern
  | CValidUntil until_ns => (λ until, now <? until) <$> parse_u64 until_ns
  | CWasmHash hash => (λ executed, eq_ignore_ascii_case executed hash) <$> executed_wasm_sha256 facts
  | CNot c => negb <$> holds_without_the_chain patterns now facts caller c
  | CLogic LogicAnd conditions =>
    let verdicts := map (holds_without_the_chain patterns now facts caller) conditions in
    if bool_decide (Some false ∈ verdicts) then Some false
    else if bool_decide (None ∈ verdicts) then None else Some true
  | CLogic LogicOr conditions =>
    let verdicts := map (holds_without_the_chain patterns now facts caller) conditions in
    if bool_decide (Some true ∈ verdicts) then Some true
    else if bool_decide (None ∈ verdicts) then None else Some false
  | _ => None
  end.

(** Is some element [named], and each of the others [held]?  [before] are the elements
    already passed. *)
Fixpoint any_with_others {A} (named held : A → bool) (before l : list A) : bool :=
  match l with
  | [] => false
  | x :: l => (named x && forallb held (before ++ l)) || any_with_others named held (before ++ [x]) l
  end.

Fixpoint names_on_an_admitting_path (patterns : CompiledPatterns) (now : Z) (facts : RunFacts)
    (caller : string) (known_to_hold : bool) (c : Condition) : bool :=
  match c with
  | CWhitelist accounts => bool_decide (caller ∈ accounts)
  | CLogic LogicAnd conditions =>
    any_with_others (names_on_an_admitting_path patterns now facts caller known_to_hold)
      (λ c, known_to_hold || bool_decide (holds_without_the_chain patterns now facts caller c = Some true))
      [] conditions
  | CLogic LogicOr conditions =>
    existsb (names_on_an_admitting_path patterns now facts caller false) conditions
  | _ => false
  end.
Definition admits_by_name (patterns : CompiledPatterns) (now : Z) (facts : RunFacts) (caller : string)
    (c : Condition) : bool := names_on_an_admitting_path patterns now facts caller true c.

Inductive BuildRefusal := LockedTo (hash : string) | Refuses.

(** [for c in l { let r = f(c)?; first.get_or_insert(r); } first]. *)
Fixpoint all_or_nothing {A B} (f : A → option B) (first : option B) (l : list A) : option B :=
  match l with
  | [] => first
  | c :: l =>
    match f c with
    | None => None
    | Some refusal => all_or_nothing f (match first with None => Some refusal | f => f end) l
    end
  end.

Fixpoint build_refusal (executed_wasm_sha256 : option string) (c : Condition) : option BuildRefusal :=
  executed ← executed_wasm_sha256;
  match c with
  | CWasmHash hash => if eq_ignore_ascii_case executed hash then None else Some (LockedTo hash)
  | CNot (CWasmHash hash) => if eq_ignore_ascii_case executed hash then Some Refuses else None
  | CLogic LogicAnd conditions => find_map (build_refusal executed_wasm_sha256) conditions
  | CLogic LogicOr conditions =>
    all_or_nothing (build_refusal executed_wasm_sha256) None conditions
  | _ => None
  end.

Fixpoint judges_calling_account (c : Condition) : bool :=
  match c with
  | CPredecessor _ => true
  | CLogic _ conditions => existsb judges_calling_account conditions
  | CNot c => judges_calling_account c
  | _ => false
  end.

Definition denial_message_in (patterns : CompiledPatterns) (now : option Z) (facts : RunFacts)
    (caller : string) (c : Condition) : string :=
  match build_refusal (executed_wasm_sha256 facts) c with
  | Some refusal =>
    let running := default "not reported" (executed_wasm_sha256 facts) in
    match refusal with
    | LockedTo locked_to =>
      "Access denied by access condition: this secret is locked to build " +:+ locked_to +:+
      " and the running build is " +:+ running
    | Refuses => "Access denied by access condition: this secret refuses the running build " +:+ running
    end
  | None =>
    let sentence :=
      match now ≫= λ now, lapsed_grant_in patterns now caller c with
      | Some until => "Access denied by access condition: its time limit passed at " +:+ iso8601_utc until
      | None => "Access denied by access condition"
      end in
    match predecessor_id facts with
    | Some predecessor =>
      if judges_calling_account c
      then sentence +:+ " — signer " +:+ caller +:+ ", called from " +:+ predecessor else sentence
    | None => sentence
    end
  end.

(** ** The door *)

Inductive ApiError := Unauthorized (message : string) | InternalError (message : string).

(** [condition_bounds] is the shared helper's verdict on the condition's JSON form;
    [in_time] says whether the evaluation ends before its deadline. *)
Definition judge_access (condition_bounds : Condition → option string) (in_time : bool)
    (near_client : option NearClient) (now : option Z) (facts : RunFacts) (caller : string)
    (c : Condition) : result unit ApiError :=
  match condition_bounds c with
  | Some why => RErr (Unauthorized ("Access denied by access condition: " +:+ why))
  | None =>
    match compile_patterns c with
    | RErr u => RErr (Unauthorized (unreadable_to_string u))
    | ROk patterns =>
      if negb in_time then
        RErr (InternalError "Access condition could not be evaluated within 15s: it asks the chain for answers that did not arrive.")
      else
        match evaluate near_client now patterns facts caller c with
        | ROk true => ROk tt
        | ROk false => RErr (Unauthorized (denial_message_in patterns now facts caller c))
        | RErr _ => RErr (InternalError "Access validation failed")
        end
    end
  end.
End access.

(** * Unknowns *)

(** Three-valued conjunction and disjunction; [None] is unknown. *)
Definition kleene_and (l : list (option bool)) : option bool :=
  if bool_decide (Some false ∈ l) then Some false
  else if bool_decide (None ∈ l) then None else Some true.
Definition kleene_or (l : list (option bool)) : option bool :=
  if bool_decide (Some true ∈ l) then Some true
  else if bool_decide (None ∈ l) then None else Some false.

Definition verdict {E} (r : result bool E) : option bool :=
  match r with ROk b => Some b | RErr _ => None end.

(** What is known stays known. *)
Definition info_le (a b : option bool) : Prop := a = None ∨ a = b.

Section kleene.
Implicit Types l : list (option bool).

Lemma kleene_and_true l : kleene_and l = Some true ↔ Forall (eq (Some true)) l.
Proof.
  unfold kleene_and. rewrite Forall_forall. case_bool_decide as Hb; [|case_bool_decide as Hb'].
  - split; [done|]. intros Hf. by specialize (Hf _ Hb).
  - split; [done|]. intros Hf. by specialize (Hf _ Hb').
  - split; [|done]. intros _ [[]|] Hx; done.
Qed.
Lemma kleene_and_false l : kleene_and l = Some false ↔ Some false ∈ l.
Proof. unfold kleene_and. repeat case_bool_decide; split; done. Qed.
Lemma kleene_or_true l : kleene_or l = Some true ↔ Some true ∈ l.
Proof. unfold kleene_or. repeat case_bool_decide; split; done. Qed.
Lemma kleene_or_false l : kleene_or l = Some false ↔ Forall (eq (Some false)) l.
Proof.
  unfold kleene_or. rewrite Forall_forall. case_bool_decide as Hb; [|case_bool_decide as Hb'].
  - split; [done|]. intros Hf. by specialize (Hf _ Hb).
  - split; [done|]. intros Hf. by specialize (Hf _ Hb').
  - split; [|done]. intros _ [[]|] Hx; done.
Qed.

#[export] Instance kleene_and_perm : Proper (Permutation ==> eq) kleene_and.
Proof.
  intros l l' Hp. unfold kleene_and.
  rewrite (bool_decide_ext (Some false ∈ l) (Some false ∈ l')) by (by rewrite Hp).
  by rewrite (bool_decide_ext (None ∈ l) (None ∈ l')) by (by rewrite Hp).
Qed.
#[export] Instance kleene_or_perm : Proper (Permutation ==> eq) kleene_or.
Proof.
  intros l l' Hp. unfold kleene_or.
  rewrite (bool_decide_ext (Some true ∈ l) (Some true ∈ l')) by (by rewrite Hp).
  by rewrite (bool_decide_ext (None ∈ l) (None ∈ l')) by (by rewrite Hp).
Qed.

Lemma info_known a b x : info_le a b → a = Some x → b = Some x.
Proof. intros [-> | ->] ?; done. Qed.
Lemma info_elem l l' x : Forall2 info_le l l' → Some x ∈ l → Some x ∈ l'.
Proof.
  intros Hf Hx. apply list_elem_of_lookup in Hx as [i Hi].
  destruct (Forall2_lookup_l _ _ _ _ _ Hf Hi) as (y & Hy & Hle).
  rewrite (info_known _ _ _ Hle eq_refl) in Hy. by eapply list_elem_of_lookup_2.
Qed.
Lemma info_forall l l' x : Forall2 info_le l l' → Forall (eq (Some x)) l → Forall (eq (Some x)) l'.
Proof.
  induction 1 as [|a b l l' Hle _ IH]; [done|]. intros [<- Ha]%Forall_cons. constructor; [|auto].
  symmetry. by eapply info_known.
Qed.
Lemma kleene_and_mono l l' : Forall2 info_le l l' → info_le (kleene_and l) (kleene_and l').
Proof.
  intros Hf. destruct (kleene_and l) as [[]|] eqn:E; [right|right|by left]; symmetry.
  - apply kleene_and_true. eapply info_forall; [exact Hf | by apply kleene_and_true].
  - apply kleene_and_false. eapply info_elem; [exact Hf | by apply kleene_and_false].
Qed.
Lemma kleene_or_mono l l' : Forall2 info_le l l' → info_le (kleene_or l) (kleene_or l').
Proof.
  intros Hf. destruct (kleene_or l) as [[]|] eqn:E; [right|right|by left]; symmetry.
  - apply kleene_or_true. eapply info_elem; [exact Hf | by apply kleene_or_true].
  - apply kleene_or_false. eapply info_forall; [exact Hf | by apply kleene_or_false].
Qed.
End kleene.

Section evaluation.
Context `{Regex}.
Variables (client : option NearClient) (now : option Z) (patterns : CompiledPatterns) (facts : RunFacts).
Abbreviation eval := (evaluate client now patterns facts).

Lemma verdict_ok {E} (r : result bool E) b : verdict r = Some b ↔ r = ROk b.
Proof. destruct r; cbn; naive_solver. Qed.

Lemma evaluate_and caller l :
  verdict (eval caller (CLogic LogicAnd l)) = kleene_and (map (λ c, verdict (eval caller c)) l).
Proof.
  cbn [evaluate].
  enough (∀ unknown, verdict ((fix all unknown l := match l with
       | [] => match unknown with Some e => RErr e | None => ROk true end
       | c :: l =>
         match eval caller c with
         | ROk true => all unknown l
         | ROk false => ROk false
         | RErr e => all (match unknown with None => Some e | u => u end) l
         end
       end) unknown l) =
    if bool_decide (Some false ∈ map (λ c, verdict (eval caller c)) l) then Some false
    else if bool_decide (is_Some unknown) || bool_decide (None ∈ map (λ c, verdict (eval caller c)) l) then None
    else Some true) as Hg by exact (Hg None).
  induction l as [|c l IH]; intros unknown; cbn [map].
  - by destruct unknown.
  - destruct (eval caller c) as [[]|e]; cbn [verdict].
    + rewrite IH. rewrite (bool_decide_ext (Some false ∈ _ :: _) (Some false ∈ map (λ c, verdict (eval caller c)) l)),
        (bool_decide_ext (None ∈ _ :: _) (None ∈ map (λ c, verdict (eval caller c)) l)); [done | set_solver | set_solver].
    + by rewrite bool_decide_eq_true_2 by set_solver.
    + rewrite IH. rewrite (bool_decide_ext (Some false ∈ _ :: _) (Some false ∈ map (λ c, verdict (eval caller c)) l))
        by set_solver.
      rewrite (bool_decide_eq_true_2 (None ∈ _ :: _)) by set_solver.
      rewrite (bool_decide_eq_true_2 (is_Some _)) by (destruct unknown; eauto). by rewrite orb_true_r.
Qed.
Lemma evaluate_or caller l :
  verdict (eval caller (CLogic LogicOr l)) = kleene_or (map (λ c, verdict (eval caller c)) l).
Proof.
  cbn [evaluate].
  enough (∀ unknown, verdict ((fix any unknown l := match l with
       | [] => match unknown with Some e => RErr e | None => ROk false end
       | c :: l =>
         match eval caller c with
         | ROk true => ROk true
         | ROk false => any unknown l
         | RErr e => any (match unknown with None => Some e | u => u end) l
         end
       end) unknown l) =
    if bool_decide (Some true ∈ map (λ c, verdict (eval caller c)) l) then Some true
    else if bool_decide (is_Some unknown) || bool_decide (None ∈ map (λ c, verdict (eval caller c)) l) then None
    else Some false) as Hg by exact (Hg None).
  induction l as [|c l IH]; intros unknown; cbn [map].
  - by destruct unknown.
  - destruct (eval caller c) as [[]|e]; cbn [verdict].
    + by rewrite bool_decide_eq_true_2 by set_solver.
    + rewrite IH. rewrite (bool_decide_ext (Some true ∈ _ :: _) (Some true ∈ map (λ c, verdict (eval caller c)) l)),
        (bool_decide_ext (None ∈ _ :: _) (None ∈ map (λ c, verdict (eval caller c)) l)); [done | set_solver | set_solver].
    + rewrite IH. rewrite (bool_decide_ext (Some true ∈ _ :: _) (Some true ∈ map (λ c, verdict (eval caller c)) l))
        by set_solver.
      rewrite (bool_decide_eq_true_2 (None ∈ _ :: _)) by set_solver.
      rewrite (bool_decide_eq_true_2 (is_Some _)) by (destruct unknown; eauto). by rewrite orb_true_r.
Qed.

Lemma evaluate_all caller l :
  eval caller (CLogic LogicAnd l) = ROk true ↔ ∀ c, c ∈ l → eval caller c = ROk true.
Proof.
  rewrite <- verdict_ok, evaluate_and, kleene_and_true, Forall_map, Forall_forall.
  split; intros Hc c Hin; [apply verdict_ok; symmetry; by apply Hc | symmetry; by apply verdict_ok, Hc].
Qed.
Lemma evaluate_any caller l :
  eval caller (CLogic LogicOr l) = ROk true ↔ ∃ c, c ∈ l ∧ eval caller c = ROk true.
Proof.
  rewrite <- verdict_ok, evaluate_or, kleene_or_true, list_elem_of_In, in_map_iff.
  setoid_rewrite <- list_elem_of_In. setoid_rewrite verdict_ok. naive_solver.
Qed.
End evaluation.

(** * Answers *)

(** The second world answers at least what the first does, and the same. *)
Definition known_le {A E} (r r' : result A E) : Prop := ∀ a, r = ROk a → r' = ROk a.
Definition client_le (a b : option NearClient) : Prop :=
  match a, b with
  | None, _ => True
  | Some a, Some b =>
    (∀ x, known_le (get_account_balance a x) (get_account_balance b x)) ∧
    (∀ t x, known_le (get_ft_balance a t x) (get_ft_balance b t x)) ∧
    (∀ t x i, known_le (check_nft_ownership a t x i) (check_nft_ownership b t x i)) ∧
    (∀ t x r, known_le (check_dao_membership a t x r) (check_dao_membership b t x r))
  | Some _, None => False
  end.
Definition told_le {A} (a b : option A) : Prop := a = None ∨ a = b.
Definition facts_le (a b : RunFacts) : Prop :=
  told_le (executed_wasm_sha256 a) (executed_wasm_sha256 b) ∧ told_le (predecessor_id a) (predecessor_id b).

Lemma asked_le {A} (r r' : result A string) a : known_le r r' → asked r = ROk a → asked r' = ROk a.
Proof. intros Hle. destruct r as [x|]; cbn; [|done]. intros [= ->]. by rewrite (Hle _ eq_refl). Qed.

Lemma verdict_info {E} (r r' : result bool E) : known_le r r' → info_le (verdict r) (verdict r').
Proof. intros Hle. destruct r as [b|]; cbn; [right | by left]. by rewrite (Hle _ eq_refl). Qed.

Lemma evaluate_mono `{Regex} cl cl' now now' patterns facts facts' c :
  client_le cl cl' → told_le now now' → facts_le facts facts' → ∀ caller,
  known_le (evaluate cl now patterns facts caller c) (evaluate cl' now' patterns facts' caller c).
Proof.
  intros Hcl Hnow [Hw Hp]. induction c as [op l IH|c IH|c IH|c Hleaf] using condition_ind'; intros caller b Hb.
  - assert (Forall2 info_le (map (λ c, verdict (evaluate cl now patterns facts caller c)) l)
      (map (λ c, verdict (evaluate cl' now' patterns facts' caller c)) l)) as Hl.
    { clear Hb. induction IH as [|c l Hc _ IHl]; cbn; constructor; [by apply verdict_info, Hc | done]. }
    apply verdict_ok in Hb. apply verdict_ok. destruct op.
    + rewrite evaluate_and in Hb |- *. eapply info_known; [by apply kleene_and_mono | done].
    + rewrite evaluate_or in Hb |- *. eapply info_known; [by apply kleene_or_mono | done].
  - cbn in Hb |- *. apply rbind_ok in Hb as (x & Hx & [= <-]). by rewrite (IH _ _ Hx).
  - cbn in Hb |- *. destruct Hp as [E|<-]; [by rewrite E in Hb|]. destruct (predecessor_id facts); [by apply IH | done].
  - destruct c; try done; cbn in Hb |- *.
    + destruct cl as [x|]; [|done]. destruct cl' as [y|]; [|done]. cbn in Hb |- *. destruct Hcl as (H1 & _).
      apply rbind_ok in Hb as (req & -> & (act & Ha & Hb)%rbind_ok). cbn. by rewrite (asked_le _ _ _ (H1 _) Ha).
    + destruct cl as [x|]; [|done]. destruct cl' as [y|]; [|done]. cbn in Hb |- *. destruct Hcl as (_ & H1 & _).
      apply rbind_ok in Hb as (req & -> & (act & Ha & Hb)%rbind_ok). cbn. by rewrite (asked_le _ _ _ (H1 _ _) Ha).
    + destruct cl as [x|]; [|done]. destruct cl' as [y|]; [|done]. cbn in Hb |- *. destruct Hcl as (_ & _ & H1 & _).
      by eapply asked_le.
    + destruct cl as [x|]; [|done]. destruct cl' as [y|]; [|done]. cbn in Hb |- *. destruct Hcl as (_ & _ & _ & H1).
      by eapply asked_le.
    + destruct Hnow as [->|<-]; [done | exact Hb].
    + destruct Hw as [E|<-]; [by rewrite E in Hb | exact Hb].
Qed.

(** * Names, builds and limits *)

Section searches.
Context `{Regex}.
Variables (client : option NearClient) (now : Z) (patterns : CompiledPatterns) (facts : RunFacts).
Abbreviation eval := (evaluate client (Some now) patterns facts).

(** What is decided without the chain is the verdict. *)
Lemma holds_sound c : ∀ caller b,
  holds_without_the_chain patterns now facts caller c = Some b → eval caller c = ROk b.
Proof.
  induction c as [op l IH|c IH|c IH|c Hleaf] using condition_ind'; intros caller b Hb.
  - assert (Forall2 info_le (map (holds_without_the_chain patterns now facts caller) l)
      (map (λ c, verdict (eval caller c)) l)) as Hl.
    { clear Hb. induction IH as [|c l Hc _ IHl]; cbn; constructor; [|done].
      destruct (holds_without_the_chain _ _ _ _ _) eqn:E; [right | by left]. by rewrite (Hc _ _ E). }
    apply verdict_ok. destruct op; cbn [holds_without_the_chain] in Hb.
    + rewrite evaluate_and. eapply info_known; [by apply kleene_and_mono | exact Hb].
    + rewrite evaluate_or. eapply info_known; [by apply kleene_or_mono | exact Hb].
  - cbn in Hb |- *. apply fmap_Some in Hb as (x & Hx & ->). by rewrite (IH _ _ Hx).
  - done.
  - destruct c; try done; cbn [evaluate holds_without_the_chain] in Hb |- *.
    + by injection Hb as <-.
    + by injection Hb as <-.
    + apply fmap_Some in Hb as (re & -> & ->). done.
    + apply fmap_Some in Hb as (u & Hu & ->). unfold valid_until_at. by rewrite Hu.
    + apply fmap_Some in Hb as (x & -> & ->). done.
Qed.

(** [caller] is let in by a whitelist that lists them: every condition beside it on
    the way, and each branch chosen, admits. *)
Inductive let_in_by_name (caller : string) : Condition → Prop :=
| named_here accounts : caller ∈ accounts → let_in_by_name caller (CWhitelist accounts)
| named_and l c : c ∈ l → let_in_by_name caller c → (∀ c', c' ∈ l → eval caller c' = ROk true) →
    let_in_by_name caller (CLogic LogicAnd l)
| named_or l c : c ∈ l → let_in_by_name caller c → eval caller c = ROk true →
    let_in_by_name caller (CLogic LogicOr l).

Lemma any_with_others_spec {A} (named held : A → bool) l : ∀ before,
  any_with_others named held before l = true →
  ∃ x, x ∈ l ∧ named x = true ∧ ∀ y, y ∈ before ++ l → held y = true ∨ y = x.
Proof.
  induction l as [|x l IH]; intros before; cbn; [done|]. intros [Hx|Hx]%orb_true_iff.
  - apply andb_true_iff in Hx as [Hn Hf]. rewrite forallb_forall in Hf. exists x. split_and!; [left | done |].
    intros y Hy. rewrite elem_of_app, elem_of_cons in Hy.
    destruct Hy as [Hy|[->|Hy]]; [left | by right | left]; apply Hf, list_elem_of_In; set_solver.
  - destruct (IH _ Hx) as (y & Hy & Hn & Hall). exists y. split_and!; [by right | done|].
    intros z Hz. apply Hall. rewrite <- app_assoc. done.
Qed.

Lemma path_sound c : ∀ caller known,
  names_on_an_admitting_path patterns now facts caller known c = true →
  (known = true → eval caller c = ROk true) →
  let_in_by_name caller c ∧ eval caller c = ROk true.
Proof.
  induction c as [op l IH|c IH|c IH|c Hleaf] using condition_ind'; intros caller known Hp Hk; try done.
  - rewrite Forall_forall in IH. destruct op; cbn [names_on_an_admitting_path] in Hp.
    + apply any_with_others_spec in Hp as (x & Hx & Hn & Hall). cbn [app] in Hall.
      assert (let_in_by_name caller x ∧ eval caller x = ROk true) as [Hin Hex].
      { eapply IH; [done | done|]. intros ->. by apply (proj1 (evaluate_all _ _ _ _ _ _) (Hk eq_refl)). }
      assert (∀ y, y ∈ l → eval caller y = ROk true) as Hevery.
      { intros y Hy. destruct (Hall y Hy) as [Hh| ->]; [|done].
        apply orb_true_iff in Hh as [->|Hh]; [by apply (proj1 (evaluate_all _ _ _ _ _ _) (Hk eq_refl))|].
        apply bool_decide_eq_true in Hh. by apply holds_sound. }
      split; [by eapply named_and | by apply evaluate_all].
    + apply existsb_exists in Hp as (x & Hx%list_elem_of_In & Hn).
      destruct (IH x Hx caller false Hn ltac:(done)) as [Hin Hex].
      split; [by eapply named_or | apply evaluate_any; eauto].
  - destruct c; try done. cbn in Hp. apply bool_decide_eq_true in Hp.
    split; [by constructor|]. cbn. by rewrite bool_decide_eq_true_2.
Qed.

Lemma all_or_nothing_some {A B} (f : A → option B) l : ∀ first r c,
  all_or_nothing f first l = Some r → c ∈ l → is_Some (f c).
Proof.
  induction l as [|x l IH]; intros first r c; cbn; [set_solver|].
  destruct (f x) eqn:Ex; [|done]. intros Hr [->|Hc]%elem_of_cons; [eauto | by eapply IH].
Qed.

(** A build said to refuse does refuse. *)
Lemma build_refusal_sound c : ∀ caller r,
  build_refusal (executed_wasm_sha256 facts) c = Some r → eval caller c ≠ ROk true.
Proof.
  induction c as [op l IH|c IH|c IH|c Hleaf] using condition_ind'; intros caller r Hr;
    cbn [build_refusal] in Hr; destruct (executed_wasm_sha256 facts) as [executed|] eqn:E; try done; cbn in Hr.
  - rewrite Forall_forall in IH. destruct op.
    + rewrite evaluate_all. intros Hall. revert Hr. induction l as [|c l IHl]; cbn; [done|].
      destruct (build_refusal (Some executed) c) as [r'|] eqn:Ec.
      * intros _. by apply (IH c ltac:(left) caller r' Ec), Hall; left.
      * apply IHl; [intros x Hx; apply IH; by right | intros x Hx; apply Hall; by right].
    + rewrite evaluate_any. intros (c & Hc & Hec). 
      assert (is_Some (build_refusal (Some executed) c)) as [r' Hr'].
      { by eapply all_or_nothing_some. }
      by apply (IH c Hc caller r' Hr').
  - destruct c; try done. cbn. rewrite E. cbn.
    by destruct (eq_ignore_ascii_case executed hash).
  - destruct c; try done. cbn in Hr |- *. rewrite E.
    by destruct (eq_ignore_ascii_case executed hash).
  - by destruct c.
Qed.
End searches.
