(* ===== verification/Door.v ===== *)
(** The keystore's door: what [judge_access] admits, against the two-valued meaning of
    the condition the contract stores.  The contract writes [U128] and [U64] as decimal
    text and the keystore parses them; with every question answered the three-valued
    evaluation gives the meaning, with some unanswered it never contradicts it. *)

From S2P Require Export Access.

(** * The stored condition *)

(** What the keystore reads of the condition the contract holds. *)
Fixpoint of_contract (c : AccessCondition) : Condition :=
  match c with
  | Logic op l => CLogic op (map of_contract l)
  | NotCond c => CNot (of_contract c)
  | AllowAll => CAllowAll
  | Whitelist accounts => CWhitelist accounts
  | AccountPattern p => CAccountPattern p
  | NearBalance op v => CNearBalance op (uint_to_string v)
  | FtBalance t op v => CFtBalance t op (uint_to_string v)
  | NftOwned t i => CNftOwned t i
  | DaoMember d r => CDaoMember d r
  | ValidUntil t => CValidUntil (uint_to_string t)
  | WasmHashIs h => CWasmHash h
  | Predecessor c => CPredecessor (of_contract c)
  end.

(** The numbers of a stored condition are those of its types. *)
Fixpoint numbers_ok (c : AccessCondition) : Prop :=
  match c with
  | Logic _ l => (fix each l := match l with [] => True | c :: l => numbers_ok c ∧ each l end) l
  | NotCond c | Predecessor c => numbers_ok c
  | NearBalance _ v | FtBalance _ _ v => u128_ok v
  | ValidUntil t => u64_ok t
  | _ => True
  end.

Section stored_ind.
Variable P : AccessCondition → Prop.
Hypothesis Hlogic : ∀ op l, Forall P l → P (Logic op l).
Hypothesis Hnot : ∀ c, P c → P (NotCond c).
Hypothesis Hpred : ∀ c, P c → P (Predecessor c).
Hypothesis Hleaf : ∀ c, (match c with Logic _ _ | NotCond _ | Predecessor _ => False | _ => True end) → P c.
Fixpoint stored_ind (c : AccessCondition) : P c :=
  match c with
  | Logic op l =>
    Hlogic op l ((fix go l : Forall P l :=
      match l with [] => Forall_nil_2 P | c :: l => Forall_cons_2 P c l (stored_ind c) (go l) end) l)
  | NotCond c => Hnot c (stored_ind c)
  | Predecessor c => Hpred c (stored_ind c)
  | c => Hleaf c I
  end.
End stored_ind.

(** The chain at the moment of the run: every question has an answer. *)
Record ChainState := mkChain {
  near_balance_of : string → Z;
  ft_balance_of : string → string → Z;
  owns_nft : string → string → option string → bool;
  has_role : string → string → string → bool;
}.
Definition honest_client (ch : ChainState) : NearClient :=
  mkClient (λ a, ROk (near_balance_of ch a)) (λ t a, ROk (ft_balance_of ch t a))
    (λ t a i, ROk (owns_nft ch t a i)) (λ d a r, ROk (has_role ch d a r)).

Section meaning.
Context `{Regex}.

Definition pattern_matches (pattern caller : string) : bool :=
  match compile_anchored_account_pattern pattern with ROk re => re caller | RErr _ => false end.

(** The two-valued meaning of a stored condition for a [signer] and the account that
    called, a running [build], the chain and the time. *)
Fixpoint satisfies (ch : ChainState) (now : Z) (build predecessor signer : string)
    (c : AccessCondition) : bool :=
  match c with
  | Logic LogicAnd l => forallb (satisfies ch now build predecessor signer) l
  | Logic LogicOr l => existsb (satisfies ch now build predecessor signer) l
  | NotCond c => negb (satisfies ch now build predecessor signer c)
  | AllowAll => true
  | Whitelist accounts => bool_decide (signer ∈ accounts)
  | AccountPattern p => pattern_matches p signer
  | NearBalance op v => compare_values (near_balance_of ch signer) op v
  | FtBalance t op v => compare_values (ft_balance_of ch t signer) op v
  | NftOwned t i => owns_nft ch t signer i
  | DaoMember d r => has_role ch d signer r
  | ValidUntil t => now <? t
  | WasmHashIs h => eq_ignore_ascii_case build h
  | Predecessor c => satisfies ch now build predecessor predecessor c
  end.

(** ** Compiling *)

Fixpoint patterns_of (c : Condition) : list string :=
  match c with
  | CAccountPattern p => [p]
  | CLogic _ l => flat_map patterns_of l
  | CNot c | CPredecessor c => patterns_of c
  | _ => []
  end.

(** Every entry is its pattern's own matcher. *)
Definition compiled_ok (ps : CompiledPatterns) : Prop :=
  ∀ p re, ps !! p = Some re → compile_anchored_account_pattern p = ROk re.

Lemma collect_each_ok l : Forall (λ c, ∀ into out, collect_patterns into c = ROk out →
    into ⊆ out ∧ (compiled_ok into → compiled_ok out) ∧ ∀ p, p ∈ patterns_of c → is_Some (out !! p)) l →
  ∀ into out, collect_patterns into (CLogic LogicAnd l) = ROk out →
    into ⊆ out ∧ (compiled_ok into → compiled_ok out) ∧ ∀ p, p ∈ flat_map patterns_of l → is_Some (out !! p).
Proof.
  induction 1 as [|c l Hc _ IH]; intros into out; cbn [collect_patterns flat_map].
  - intros [= ->]. split_and!; [done | done | set_solver].
  - intros (mid & Hm & Ho)%rbind_ok. destruct (Hc _ _ Hm) as (Hs & Hw & Hp).
    destruct (IH _ _ Ho) as (Hs' & Hw' & Hp'). split_and!; [by etrans | auto|].
    intros p [Hin|Hin]%elem_of_app; [|by apply Hp'].
    destruct (Hp p Hin) as [re Hre]. exists re. by eapply lookup_weaken.
Qed.

Lemma collect_ok c : ∀ into out, collect_patterns into c = ROk out →
  into ⊆ out ∧ (compiled_ok into → compiled_ok out) ∧ ∀ p, p ∈ patterns_of c → is_Some (out !! p).
Proof.
  induction c as [op l IH|c IH|c IH|c Hleaf] using condition_ind'; intros into out Hc.
  - by eapply (collect_each_ok l).
  - by apply IH.
  - by apply IH.
  - destruct c; try done; cbn in Hc |- *; try (injection Hc as ->; split_and!; [done | done | set_solver]).
    destruct (into !! pattern) as [re|] eqn:E.
    { injection Hc as ->. split_and!; [done | done|]. intros p ->%list_elem_of_singleton. by exists re. }
    destruct (compile_anchored_account_pattern pattern) as [re|] eqn:Ec; [|done]. injection Hc as <-.
    split_and!; [by apply insert_subseteq| |].
    + intros Hw p re'. rewrite lookup_insert_Some. intros [[<- <-]|[_ Hl]]; [done | by apply Hw].
    + intros p ->%list_elem_of_singleton. rewrite lookup_insert_eq. eauto.
Qed.

Lemma collect_each_total l : Forall (λ c, ∀ into, (∀ p, p ∈ patterns_of c →
      ∃ re, compile_anchored_account_pattern p = ROk re) → ∃ out, collect_patterns into c = ROk out) l →
  ∀ into, (∀ p, p ∈ flat_map patterns_of l → ∃ re, compile_anchored_account_pattern p = ROk re) →
  ∃ out, collect_patterns into (CLogic LogicAnd l) = ROk out.
Proof.
  induction 1 as [|c l Hc _ IH]; intros into Hp; cbn [collect_patterns]; [eauto|].
  destruct (Hc into) as [mid ->]; [intros p Hin; apply Hp, elem_of_app; by left|].
  apply IH. intros p Hin. apply Hp, elem_of_app. by right.
Qed.

Lemma collect_total c : ∀ into, (∀ p, p ∈ patterns_of c → ∃ re, compile_anchored_account_pattern p = ROk re) →
  ∃ out, collect_patterns into c = ROk out.
Proof.
  induction c as [op l IH|c IH|c IH|c Hleaf] using condition_ind'; intros into Hp.
  - by eapply (collect_each_total l).
  - by apply IH.
  - by apply IH.
  - destruct c; try done; cbn; eauto. destruct (into !! pattern); [eauto|].
    destruct (Hp pattern ltac:(left)) as [re ->]. eauto.
Qed.

Lemma compile_patterns_spec c ps : compile_patterns c = ROk ps →
  compiled_ok ps ∧ ∀ p, p ∈ patterns_of c → is_Some (ps !! p).
Proof.
  intros (_ & Hw & Hp)%collect_ok. split; [|done]. apply Hw. intros p re. by rewrite lookup_empty.
Qed.

(** ** Evaluating with every answer *)

Variables (ch : ChainState) (now : Z) (build predecessor : string) (ps : CompiledPatterns).
Hypothesis Hps : compiled_ok ps.
Abbreviation told := (mkFacts (Some build) (Some predecessor)).
Abbreviation eval := (evaluate (Some (honest_client ch)) (Some now) ps told).

Lemma numbers_each op l : numbers_ok (Logic op l) → Forall numbers_ok l.
Proof. cbn. induction l as [|c l IH]; [done|]. intros [? ?]. constructor; [done | auto]. Qed.

Lemma patterns_each {A} (f : A → list string) (Q : string → Prop) l :
  (∀ p, p ∈ flat_map f l → Q p) → Forall (λ x, ∀ p, p ∈ f x → Q p) l.
Proof.
  intros Hp. induction l as [|x l IH]; constructor; [intros p Hin; apply Hp, elem_of_app; by left|].
  apply IH. intros p Hin. apply Hp, elem_of_app. by right.
Qed.

Lemma kleene_and_total {A} (f : A → bool) l : kleene_and (map (λ x, Some (f x)) l) = Some (forallb f l).
Proof.
  destruct (forallb f l) eqn:E.
  - apply kleene_and_true, Forall_map, Forall_forall. intros x Hx. rewrite forallb_forall in E.
    by rewrite E by by apply list_elem_of_In.
  - apply kleene_and_false. induction l as [|x l IH]; [done|]. cbn in E |- *.
    destruct (f x); [right; by apply IH | left].
Qed.
Lemma kleene_or_total {A} (f : A → bool) l : kleene_or (map (λ x, Some (f x)) l) = Some (existsb f l).
Proof.
  destruct (existsb f l) eqn:E.
  - apply kleene_or_true, list_elem_of_fmap. apply existsb_exists in E as (x & Hx%list_elem_of_In & Hb).
    exists x. by rewrite Hb.
  - apply kleene_or_false, Forall_map. induction l as [|x l IH]; [by apply Forall_nil_2|]. cbn in E.
    apply orb_false_iff in E as [Ex E]. apply Forall_cons_2; [by rewrite Ex | auto].
Qed.

Lemma evaluate_meaning c : ∀ caller,
  numbers_ok c → (∀ p, p ∈ patterns_of (of_contract c) → is_Some (ps !! p)) →
  eval caller (of_contract c) = ROk (satisfies ch now build predecessor caller c).
Proof.
  induction c as [op l IH|c IH|c IH|c Hleaf] using stored_ind; intros caller Hn Hp.
  - apply numbers_each in Hn. cbn in Hp. apply patterns_each in Hp. rewrite Forall_map in Hp.
    assert (map (λ c, verdict (eval caller c)) (map of_contract l) =
      map (λ c, Some (satisfies ch now build predecessor caller c)) l) as El.
    { rewrite map_map. induction l as [|c l IHl]; [done|].
      apply Forall_cons in IH as [Hc IH], Hn as [Hnc Hn], Hp as [Hpc Hp]. cbn. f_equal; [by rewrite Hc | auto]. }
    apply verdict_ok. destruct op; cbn [of_contract satisfies].
    + rewrite evaluate_and, El, kleene_and_total. done.
    + rewrite evaluate_or, El, kleene_or_total. done.
  - cbn. by rewrite IH.
  - cbn. by rewrite IH.
  - destruct c; try done; cbn in Hn, Hp |- *.
    + destruct (Hp pattern ltac:(left)) as [re Hre]. rewrite Hre. cbn. unfold pattern_matches. by rewrite (Hps _ _ Hre).
    + unfold parse_u128. rewrite parse_uint_to_string by (widths; unfold U128_MAX; lia). done.
    + unfold parse_u128. rewrite parse_uint_to_string by (widths; unfold U128_MAX; lia). done.
    + unfold valid_until_at, parse_u64. rewrite parse_uint_to_string by (widths; unfold U64_MAX; lia). done.
Qed.
End meaning.

(** * The door *)

(** A concrete engine for the examples: a pattern without an opening parenthesis of its
    own compiles to itself, literally. *)
Definition literal_regex : Regex := λ wrapped,
  if has_byte 40 (str_drop 5 wrapped) then RErr "error: unclosed group"
  else ROk (λ caller, String.eqb ("\A(?:" +:+ caller +:+ ")\z") wrapped).

Definition sample_chain : ChainState :=
  mkChain (λ a, if String.eqb a "alice.near" then 5 else 0) (λ _ _, 0) (λ _ _ _, false) (λ _ _ _, true).
Definition unbounded (_ : Condition) : option string := None.

(** A grant to a team that lapses, for one build, or to whoever holds enough NEAR. *)
Definition sample_stored : AccessCondition :=
  Logic LogicOr [
    Logic LogicAnd [AccountPattern "alice.near"; ValidUntil 1000; WasmHashIs "AB"];
    NearBalance CmpGte 10;
    Predecessor (Whitelist ["relay.near"]) ].

Section door.
Context `{Regex}.

Lemma judge_admits bounds in_time cl now facts caller c :
  judge_access bounds in_time cl now facts caller c = ROk tt ↔
  bounds c = None ∧ in_time = true ∧
  ∃ ps, compile_patterns c = ROk ps ∧ evaluate cl now ps facts caller c = ROk true.
Proof.
  unfold judge_access. destruct (bounds c); [naive_solver|].
  destruct (compile_patterns c) as [ps|]; [|naive_solver].
  destruct in_time; cbn; [|naive_solver].
  destruct (evaluate cl now ps facts caller c) as [[]|] eqn:E;
    (split; [intros [=]; eauto 6 | intros (_ & _ & ps' & [= <-] & Hr); congruence]).
Qed.

Lemma compile_patterns_exact c :
  (∃ ps, compile_patterns c = ROk ps) ↔
  ∀ p, p ∈ patterns_of c → ∃ re, compile_anchored_account_pattern p = ROk re.
Proof.
  split.
  - intros [ps Hps] p Hp. apply compile_patterns_spec in Hps as [Hw Hall].
    destruct (Hall p Hp) as [re Hre]. eauto.
  - apply collect_total.
Qed.



(** Missing answers never open the door wrongly and never refuse wrongly: whatever
    the chain, the clock or the worker failed to say, an admission means that the stored
    condition holds of the true answers, and a verdict of no that it does not. *)
Theorem partial_verdict_true cl now facts ch now' build predecessor ps caller c b :
  client_le cl (Some (honest_client ch)) → told_le now (Some now') →
  facts_le facts (mkFacts (Some build) (Some predecessor)) →
  numbers_ok c → compile_patterns (of_contract c) = ROk ps →
  evaluate cl now ps facts caller (of_contract c) = ROk b →
  satisfies ch now' build predecessor caller c = b.
Proof.
  intros Hcl Hnow Hf Hn [Hw Hall]%compile_patterns_spec He.
  apply (evaluate_mono _ _ _ _ _ _ _ _ Hcl Hnow Hf) in He.
  rewrite evaluate_meaning in He by done. by injection He.
Qed.

(** The order of the branches of an [And] or an [Or] does not matter to its verdict,
    unknown branches included. *)
Theorem branch_order_immaterial cl now ps facts caller op l l' :
  Permutation l l' →
  verdict (evaluate cl now ps facts caller (CLogic op l)) =
  verdict (evaluate cl now ps facts caller (CLogic op l')).
Proof. intros Hp. destruct op; rewrite ?evaluate_and, ?evaluate_or; by rewrite Hp. Qed.

(** A caller said to be admitted by name is: when the condition admits them and
    [admits_by_name] says so, there is a whitelist that lists them on a path of which
    every conjunct admits. *)
Theorem admitted_by_name_is_named cl now ps facts caller c :
  admits_by_name ps now facts caller c = true → evaluate cl (Some now) ps facts caller c = ROk true →
  let_in_by_name cl now ps facts caller c.
Proof. intros Ha He. by apply (path_sound cl now ps facts c caller true Ha). Qed.

(** ** Reasons *)

(** [ValidUntil] leaves of a condition, outside [Not] and [Predecessor]. *)
Inductive limit_of : Condition → string → Prop :=
| limit_here t : limit_of (CValidUntil t) t
| limit_in op l c t : c ∈ l → limit_of c t → limit_of (CLogic op l) t.

Lemma find_map_some {A B} (f : A → option B) l b : find_map f l = Some b → ∃ x, x ∈ l ∧ f x = Some b.
Proof.
  induction l as [|x l IH]; cbn; [done|]. destruct (f x) eqn:E.
  - intros [= ->]. exists x. split; [left | done].
  - intros (y & Hy & Hf)%IH. exists y. split; [by right | done].
Qed.
Lemma lapsed_limit_some now c u : lapsed_limit now c = Some u →
  ∃ t, c = CValidUntil t ∧ parse_u64 t = Some u ∧ u ≤ now.
Proof.
  destruct c; try done. cbn. intros (x & Hx & Hu)%bind_Some.
  destruct (x <=? now) eqn:E; [|done]. injection Hu as <-. exists until_ns. split_and!; [done | done | lia].
Qed.
Lemma lapsed_grant_real ps now caller c : ∀ u,
  lapsed_grant_in ps now caller c = Some u → ∃ t, limit_of c t ∧ parse_u64 t = Some u ∧ u ≤ now.
Proof.
  induction c as [op l IH|c IH|c IH|c Hleaf] using condition_ind'; intros u Hu; try done.
  - rewrite Forall_forall in IH.
    assert (∀ x, x ∈ l → lapsed_grant_in ps now caller x = Some u →
      ∃ t, limit_of (CLogic op l) t ∧ parse_u64 t = Some u ∧ u ≤ now) as Hin.
    { intros x Hx Hl. destruct (IH x Hx u Hl) as (t & Ht & ?). exists t. split; [by eapply limit_in | done]. }
    assert (∀ x, x ∈ l → lapsed_limit now x = Some u →
      ∃ t, limit_of (CLogic op l) t ∧ parse_u64 t = Some u ∧ u ≤ now) as Hlim.
    { intros x Hx (t & -> & ?)%lapsed_limit_some. exists t. split; [eapply limit_in; [done | constructor] | done]. }
    assert (find_map (λ c, if is_logic c then lapsed_grant_in ps now caller c else None) l = Some u →
      ∃ t, limit_of (CLogic op l) t ∧ parse_u64 t = Some u ∧ u ≤ now) as Hdeep.
    { intros (x & Hx & Hl)%find_map_some. destruct (is_logic x); [by eapply Hin | done]. }
    destruct op; cbn in Hu.
    + destruct (existsb _ l); [done|]. destruct (existsb (names ps caller) l); [|by apply Hdeep].
      destruct (find_map (lapsed_limit now) l) eqn:E; [|by apply Hdeep].
      injection Hu as ->. apply find_map_some in E as (x & Hx & Hl). by eapply Hlim.
    + destruct (existsb _ l); [done|]. apply find_map_some in Hu as (x & Hx & Hl). by eapply Hin.
  - destruct c; try done. cbn [lapsed_grant_in] in Hu. apply lapsed_limit_some in Hu as (t & -> & ?).
    exists t. split; [constructor | done].
Qed.

(** A refusal's reason is true: a build named as refusing does not get in, whatever
    the other answers, and a time limit named as passed is one the condition carries and
    the clock has reached. *)
Theorem refusal_reason_true cl now ps facts caller c :
  (∀ r, build_refusal (executed_wasm_sha256 facts) c = Some r →
     evaluate cl (Some now) ps facts caller c ≠ ROk true) ∧
  (∀ u, lapsed_grant_in ps now caller c = Some u →
     ∃ t, limit_of c t ∧ parse_u64 t = Some u ∧ u ≤ now).
Proof.
  split; [intros r Hr; by eapply build_refusal_sound | apply lapsed_grant_real].
Qed.
End door.

(** * Examples *)

#[local] Existing Instance literal_regex.

Lemma sample_numbers : numbers_ok sample_stored.
Proof. cbn. split_and!; done. Defined.
Lemma sample_compiles p : p ∈ patterns_of (of_contract sample_stored) →
  ∃ re, compile_anchored_account_pattern p = ROk re.
Proof. cbn. intros ->%list_elem_of_singleton. eexists. reflexivity. Defined.


(** A keystore without a NEAR client still lets in a caller the other branches settle. *)
Lemma partial_verdict_true_witness : satisfies sample_chain 500 "ab" "x.near" "alice.near" sample_stored = true.
Proof.
  apply (partial_verdict_true None (Some 500) (mkFacts (Some "ab") None) sample_chain 500 "ab" "x.near"
    {[ "alice.near" := λ caller, String.eqb ("\A(?:" +:+ caller +:+ ")\z") "\A(?:alice.near)\z" ]}
    "alice.near" sample_stored true).
  - exact I.
  - by right.
  - split; [by right | by left].
  - apply sample_numbers.
  - reflexivity.
  - reflexivity.
Defined.

Lemma branch_order_immaterial_witness :
  verdict (evaluate None None ∅ (mkFacts None None) "bob.near"
    (CLogic LogicOr [CWasmHash "ab"; CWhitelist ["bob.near"]])) = Some true.
Proof.
  rewrite (branch_order_immaterial None None ∅ (mkFacts None None) "bob.near" LogicOr
    [CWasmHash "ab"; CWhitelist ["bob.near"]] [CWhitelist ["bob.near"]; CWasmHash "ab"]).
  - reflexivity.
  - constructor.
Defined.

Definition sample_named : Condition := CLogic LogicAnd [CWhitelist ["bob.near"]; CNearBalance CmpGte "0"].
Lemma admitted_by_name_is_named_witness :
  let_in_by_name (Some (honest_client sample_chain)) 7 ∅ (mkFacts None None) "bob.near" sample_named.
Proof.
  apply (admitted_by_name_is_named (Some (honest_client sample_chain)) 7 ∅ (mkFacts None None) "bob.near"
    sample_named); reflexivity.
Defined.

Definition sample_lapsed : Condition := CLogic LogicAnd [CWhitelist ["bob.near"]; CValidUntil "500"; CWasmHash "ab"].
Lemma refusal_reason_true_witness :
  evaluate None (Some 900) ∅ (mkFacts (Some "cd") None) "bob.near" sample_lapsed ≠ ROk true ∧
  ∃ t, limit_of sample_lapsed t ∧ parse_u64 t = Some 500 ∧ 500 ≤ 900.
Proof.
  destruct (refusal_reason_true None 900 ∅ (mkFacts (Some "cd") None) "bob.near" sample_lapsed) as [Hb Hl].
  split; [by apply (Hb (LockedTo "ab")) | by apply Hl].
Defined.
