(* ===== verification/Envelope.v ===== *)
(** What a task shows its owner (worker/src/tasks/envelope.rs): the envelope's record,
    the check of every text, field and file the owner's page draws, and the consent a
    task carries.  Texts are UTF-8; a character is its code point. *)

From S2P Require Export RustStr Vectors.

Definition MAX_TITLE_CHARS : Z := 80.
Definition MAX_FIELDS : Z := 12.
Definition MAX_LABEL_CHARS : Z := 40.
Definition MAX_LONG_TEXT_CHARS : Z := 50000.
Definition MAX_FILE_NAME_CHARS : Z := 200.
Definition MAX_CONTENT_TYPE_CHARS : Z := 100.
Definition MAX_TEXT_CHARS : Z := 500.
Definition MAX_SHORT_CHARS : Z := 200.
Definition MAX_LIST_ITEMS : Z := 20.
Definition MAX_OPERATION_CHARS : Z := 64.
Definition MAX_COMBINING_RUN : Z := 4.
Definition ENVELOPE_VERSION : Z := 1.

Inductive Kind := Confirm | Input | Notice.
Definition takes_an_answer (k : Kind) : bool :=
  match k with Confirm | Input => true | Notice => false end.

Inductive FieldKind := FMoney | FAccount | FAddress | FText | FLongText | FList.
Definition field_kind_name (k : FieldKind) : string :=
  match k with
  | FMoney => "money" | FAccount => "account" | FAddress => "address"
  | FText => "text" | FLongText => "long_text" | FList => "list"
  end.
Definition most_chars (k : FieldKind) : Z :=
  match k with
  | FLongText => MAX_LONG_TEXT_CHARS
  | FText => MAX_TEXT_CHARS
  | FMoney | FAccount | FAddress | FList => MAX_SHORT_CHARS
  end.

Inductive WrittenBy := ByProject | ByAgent.
Inductive Supplies := SuppliesNothing | SuppliesText | SuppliesFile.

#[export] Instance kind_eq : EqDecision Kind.
Proof. solve_decision. Defined.
#[export] Instance field_kind_eq : EqDecision FieldKind.
Proof. solve_decision. Defined.
#[export] Instance supplies_eq : EqDecision Supplies.
Proof. solve_decision. Defined.

Record Field := mkField {
  field_kind : FieldKind;
  label : string;
  field_values : list string;
  written_by : WrittenBy;
}.
Record Display := mkDisplay { fields : list Field; title : string }.
Record AnswerBy := mkAnswerBy { ab_operation : string; supplies : Supplies }.
Record FileNote := mkFileNote {
  content_type : string; file_name : string; file_sha256 : string; file_size : Z;
}.

Record Envelope := mkEnvelope {
  answer_by : option AnswerBy;
  build : string;
  created_at : Z;
  display : Display;
  expires_at : Z;
  files : list FileNote;
  env_id : string;
  kind : Kind;
  env_owner : string;
  policy_hash : string;
  preparer : string;
  env_profile : string;
  project : string;
  env_project_uuid : string;
  reply_pubkey : option string;
  state_hash : string;
  thread : string;
  version : Z;
}.

Definition check_kind (e : Envelope) : result unit string :=
  match takes_an_answer (kind e), bool_decide (is_Some (answer_by e)), bool_decide (is_Some (reply_pubkey e)) with
  | true, true, true | false, false, false => ROk tt
  | true, _, _ => RErr "a task that takes an answer names its operation and its reply key"
  | false, _, _ => RErr "a notice takes no answer: it names no operation and no reply key"
  end.

(** * Characters *)

Definition misleads (c : Z) : bool :=
  char_is_control c || (c =? 0xAD) || (c =? 0x34F) || (c =? 0x61C) || (c =? 0x115F) || (c =? 0x1160) ||
  (c =? 0x17B4) || (c =? 0x17B5) || in_range 0x180B 0x180F c || in_range 0x200B 0x200F c || in_range 0x2028 0x202E c ||
  in_range 0x2060 0x206F c || (c =? 0x2800) || (c =? 0x3164) || in_range 0xFE00 0xFE0F c || (c =? 0xFEFF) ||
  (c =? 0xFFA0) || in_range 0xFFF9 0xFFFC c || in_range 0x1BCA0 0x1BCA3 c || in_range 0x1D173 0x1D17A c ||
  in_range 0xE0000 0xE0FFF c.

Definition pictures (c : Z) : bool :=
  (c =? 0x203C) || (c =? 0x2049) || (c =? 0x2122) || (c =? 0x2139) || (c =? 0xA9) || (c =? 0xAE) ||
  in_range 0x2190 0x21FF c || in_range 0x2300 0x23FF c || in_range 0x2460 0x24FF c || in_range 0x25A0 0x27BF c ||
  in_range 0x2900 0x297F c || in_range 0x2B00 0x2BFF c || (c =? 0x3030) || (c =? 0x303D) || (c =? 0x3297) ||
  (c =? 0x3299) || in_range 0x1F000 0x1FAFF c.

Definition selects_a_picture (c : Z) : bool := (c =? 0xFE0E) || (c =? 0xFE0F).

Definition is_some_and {A} (f : A → bool) (o : option A) : bool := from_option f false o.

(** The character at position [at_]; [text] holds one there. *)
Definition misleads_here (text : list Z) (at_ : nat) : bool :=
  match text !! at_ with
  | None => false
  | Some c =>
    if negb (misleads c) then false else
    let before := match at_ with O => None | S i => text !! i end in
    let after := text !! S at_ in
    if selects_a_picture c then
      negb (is_some_and (λ b, pictures b || is_ascii_digit b || (b =? 35) || (b =? 42)) before)
    else if c =? 0x200D then
      let joined := is_some_and (λ b, pictures b || selects_a_picture b) before in
      negb (joined && is_some_and pictures after)
    else true
  end.

Definition combines (c : Z) : bool :=
  in_range 0x300 0x36F c || in_range 0x1AB0 0x1AFF c || in_range 0x1DC0 0x1DFF c || in_range 0x20D0 0x20FF c ||
  in_range 0xFE20 0xFE2F c.

Definition combining_step (st : Z * Z) (c : Z) : Z * Z :=
  let '(longest, run) := st in
  let run := if combines c then run + 1 else 0 in
  (Z.max longest run, run).
Definition longest_combining_run (text : string) : Z := (foldl combining_step (0, 0) (str_chars text)).1.

(** [{:04X}] of a code point. *)
Definition hex_upper_digit (d : Z) : ascii :=
  ascii_of_N (Z.to_N (if d <? 10 then 48 + d else 55 + d)).
Fixpoint hex_upper_fixed (k : nat) (n : Z) : string :=
  match k with
  | O => ""
  | S k => hex_upper_fixed k (n / 16) +:+ String (hex_upper_digit (n mod 16)) ""
  end.
Definition code_point (c : Z) : string :=
  hex_upper_fixed (if c <? 65536 then 4 else if c <? 1048576 then 5 else 6) c.

Definition check_text (what text : string) (most : Z) (line_breaks : bool) : result unit string :=
  let drawn := str_chars text in
  let chars := Z.of_nat (length drawn) in
  if chars =? 0 then RErr (what +:+ " is empty") else
  if most <? chars then
    RErr (what +:+ " is " +:+ uint_to_string chars +:+ " characters; at most " +:+ uint_to_string most +:+ " are shown")
  else if forallb char_is_whitespace drawn then RErr (what +:+ " is blank") else
  let spared at_ := line_breaks && is_some_and (λ c, (c =? 10) || (c =? 9)) (drawn !! at_) in
  match find (λ at_, misleads_here drawn at_ && negb (spared at_)) (seq 0 (length drawn)) with
  | Some at_ =>
    RErr (what +:+ " holds the character U+" +:+ code_point (default 0 (drawn !! at_)) +:+
          ", which is not drawn or changes how text is drawn")
  | None =>
    let run := longest_combining_run text in
    if MAX_COMBINING_RUN <? run then
      RErr (what +:+ " holds " +:+ uint_to_string run +:+ " combining marks in a row; at most " +:+
            uint_to_string MAX_COMBINING_RUN +:+ " are drawn over one character")
    else ROk tt
  end.

Definition check_long_text (what text : string) : result unit string :=
  check_text what text MAX_LONG_TEXT_CHARS true.

(** * Displays and files *)

Fixpoint each {A E} (f : A → result unit E) (l : list A) : result unit E :=
  match l with
  | [] => ROk tt
  | x :: l => let? _ := f x in each f l
  end.

Definition check_field (at_ : nat) (field : Field) : result unit string :=
  let named := "field " +:+ uint_to_string (Z.of_nat (at_ + 1)) in
  let n := Z.of_nat (length (field_values field)) in
  let? _ := check_text ("the label of " +:+ named) (label field) MAX_LABEL_CHARS false in
  let? _ :=
    if bool_decide (field_kind field = FList) then
      if (1 <=? n) && (n <=? MAX_LIST_ITEMS) then ROk tt else
      RErr (named +:+ " is a list of " +:+ uint_to_string n +:+ " values; a list holds 1 to " +:+
            uint_to_string MAX_LIST_ITEMS)
    else if n =? 1 then ROk tt else
      RErr (named +:+ " is a " +:+ field_kind_name (field_kind field) +:+ " with " +:+ uint_to_string n +:+
            " values; it holds exactly one") in
  each (λ value, check_text ("a value of " +:+ named) value (most_chars (field_kind field))
                   (bool_decide (field_kind field = FLongText))) (field_values field).

Fixpoint check_fields (at_ : nat) (l : list Field) : result unit string :=
  match l with
  | [] => ROk tt
  | field :: l => let? _ := check_field at_ field in check_fields (S at_) l
  end.

Definition check_display (d : Display) : result unit string :=
  let? _ := check_text "the title" (title d) MAX_TITLE_CHARS false in
  let n := Z.of_nat (length (fields d)) in
  if MAX_FIELDS <? n then
    RErr (uint_to_string n +:+ " fields; at most " +:+ uint_to_string MAX_FIELDS +:+ " are shown")
  else check_fields 0 (fields d).

(** [str::trim_end_matches(' ')]. *)
Fixpoint trim_end_spaces (s : string) : string :=
  match s with
  | "" => ""
  | String c s =>
    let s := trim_end_spaces s in
    if (byte_of c =? 32) && str_is_empty s then "" else String c s
  end.

Definition of_a_part (b : Z) : bool := is_ascii_alphanumeric b || (b =? 46) || (b =? 43) || (b =? 45) || (b =? 95).
Definition of_a_parameter (b : Z) : bool := of_a_part b || (b =? 59) || (b =? 61) || (b =? 32).
Definition is_media_type (content_type : string) : bool :=
  if MAX_CONTENT_TYPE_CHARS <? str_len content_type then false else
  let '(essence, parameters) :=
    match split_once 59 content_type with
    | Some (essence, parameters) => (trim_end_spaces essence, parameters)
    | None => (content_type, "")
    end in
  match split_once 47 essence with
  | None => false
  | Some (kind, subtype) =>
    forallb (λ part, negb (str_is_empty part) && forall_bytes of_a_part part) [kind; subtype] &&
    forall_bytes of_a_parameter parameters
  end.

Definition at_an_edge (c : option Z) : bool := is_some_and (λ c, (c =? 46) || char_is_whitespace c) c.
Definition check_file (at_ : nat) (name content_type : string) : result unit string :=
  let nth := uint_to_string (Z.of_nat (at_ + 1)) in
  let named := "the name of file " +:+ nth in
  let? _ := check_text named name MAX_FILE_NAME_CHARS false in
  if has_byte 47 name || has_byte 92 name then RErr (named +:+ " holds a path separator") else
  if at_an_edge (head (str_chars name)) then RErr (named +:+ " begins with a space or a dot") else
  if at_an_edge (last (str_chars name)) then RErr (named +:+ " ends in a space or a dot") else
  if is_media_type content_type then ROk tt else
  RErr ("the type of file " +:+ nth +:+ " is not a media type, `type/subtype`, of at most " +:+
        uint_to_string MAX_CONTENT_TYPE_CHARS +:+ " characters").

Section files.
Context `{Unicode}.

Fixpoint check_files_from (at_ : nat) (names : list string) (l : list (string * string)) : result unit string :=
  match l with
  | [] => ROk tt
  | (name, content_type) :: l =>
    let? _ := check_file at_ name content_type in
    let folded := to_lowercase name in
    match position folded names with
    | Some first =>
      RErr ("file " +:+ uint_to_string (Z.of_nat (at_ + 1)) +:+ " has the name of file " +:+
            uint_to_string (Z.of_nat first + 1))
    | None => check_files_from (S at_) (names ++ [folded]) l
    end
  end.
Definition check_files (l : list (string * string)) : result unit string := check_files_from 0 [] l.
End files.

Definition check_operation (operation : string) : result unit string :=
  if negb (str_is_empty operation) && (str_len operation <=? MAX_OPERATION_CHARS) &&
     forall_bytes (λ b, is_ascii_lower b || is_ascii_digit b || (b =? 95)) operation
  then ROk tt else
  RErr ("the operation to answer by is not a name: 1 to " +:+ uint_to_string MAX_OPERATION_CHARS +:+
        " of a-z, 0-9 and _").

(** * Consent *)

Record Consent := mkConsent {
  payment_key_nonce : Z;
  wallet : option string;
  bound_identity : bool;
  compute_limit_usd : string;
}.
Definition refuses (self run : Consent) : option string :=
  if negb (payment_key_nonce run =? payment_key_nonce self) then Some "another payment key" else
  if negb (bool_decide (wallet run = wallet self)) then Some "another wallet" else
  if negb (Bool.eqb (bound_identity run) (bound_identity self)) then Some "another identity" else
  match parse_u128 (compute_limit_usd self), parse_u128 (compute_limit_usd run) with
  | Some allowed, Some carried =>
    if carried <=? allowed then None else Some "more compute than the preparing run allowed"
  | _, _ => Some "more compute than the preparing run allowed"
  end.

Record SealedTask := mkSealed {
  sealed_content_key : string;
  sealed_envelope : string;
  sealed_state : string;
  sealed_consent : option Consent;
}.

(** * What passes *)

(** [l] stands in [t], in one piece. *)
Definition infix_of {A} (l t : list A) : Prop := ∃ pre post, t = pre ++ l ++ post.

(** A misleading character where it does no harm: a line break or a tab of a long text,
    a selector behind a picture, a digit, [#] or [*], a joiner between two pictures. *)
Definition harmless (line_breaks : bool) (before : list Z) (c : Z) (after : list Z) : Prop :=
  (line_breaks = true ∧ (c = 10 ∨ c = 9)) ∨
  (selects_a_picture c = true ∧
    ∃ b, last before = Some b ∧ (pictures b = true ∨ is_ascii_digit b = true ∨ b = 35 ∨ b = 42)) ∨
  (c = 0x200D ∧ (∃ b, last before = Some b ∧ (pictures b = true ∨ selects_a_picture b = true)) ∧
    ∃ a, head after = Some a ∧ pictures a = true).

Record plain_text (most : Z) (line_breaks : bool) (t : list Z) : Prop := {
  pt_size : 0 < Z.of_nat (length t) ≤ most;
  pt_seen : ∃ c, c ∈ t ∧ char_is_whitespace c = false;
  pt_drawn : ∀ before c after, t = before ++ c :: after → misleads c = true → harmless line_breaks before c after;
  pt_marks : ∀ l, infix_of l t → Forall (λ c, combines c = true) l → Z.of_nat (length l) ≤ MAX_COMBINING_RUN;
}.

(** The marks and overrides that reorder what is drawn. *)
Definition reorders (c : Z) : bool :=
  (c =? 0x61C) || in_range 0x200E 0x200F c || in_range 0x202A 0x202E c || in_range 0x2066 0x2069 c.

Lemma reorders_misleads c : reorders c = true → misleads c = true.
Proof. unfold reorders, misleads, in_range, char_is_control. intros Hc. lia. Qed.

Lemma plain_text_order most lb t : plain_text most lb t → ∀ c, c ∈ t → reorders c = false.
Proof.
  intros [_ _ Hd _] c Hc. destruct (reorders c) eqn:E; [|done]. exfalso.
  apply list_elem_of_split in Hc as (l1 & l2 & ->).
  destruct (Hd l1 c l2 eq_refl (reorders_misleads c E)) as [(_ & Hl)|[(Hs & _)|(Hj & _)]];
    revert E; unfold reorders, in_range; [|unfold selects_a_picture in Hs|]; lia.
Qed.

Section marks.
Abbreviation marks := (Forall (λ c, combines c = true)).

Lemma combining_run_spec t :
  let '(longest, run) := foldl combining_step (0, 0) t in
  (∀ l, infix_of l t → marks l → Z.of_nat (length l) ≤ longest) ∧
  (∃ l, infix_of l t ∧ marks l ∧ Z.of_nat (length l) = longest) ∧
  (∀ p l, t = p ++ l → marks l → Z.of_nat (length l) ≤ run) ∧
  (∃ p l, t = p ++ l ∧ marks l ∧ Z.of_nat (length l) = run).
Proof.
  induction t as [|c t IH] using rev_ind; cbn.
  { split_and!.
    - intros l (p & q & E) _. destruct p, l; try done.
    - exists []. split_and!; [by exists [], [] | done | done].
    - intros p l E _. destruct p, l; try done.
    - by exists [], []. }
  rewrite foldl_app. cbn. destruct (foldl combining_step (0, 0) t) as [L r]. cbn.
  destruct IH as (HL & (lm & (p & q & ->) & Hlm & HLm) & Hr & (p' & l' & E' & Hl' & Hr')).
  assert (∀ l, infix_of l ((p ++ lm ++ q) ++ [c]) → marks l →
    infix_of l (p ++ lm ++ q) ∨ ∃ a b, l = a ++ [c] ∧ p ++ lm ++ q = b ++ a) as Hcut.
  { intros l (x & y & E) Hl. destruct y as [|z y _] using rev_ind.
    - rewrite app_nil_r in E. destruct l as [|d l _] using rev_ind.
      + left. exists (p ++ lm ++ q), []. by rewrite !app_nil_r.
      + right. rewrite (app_assoc x l [d]) in E. apply app_inj_tail in E as [E ->]. by exists l, x.
    - left. rewrite (app_assoc l y [z]), (app_assoc x (l ++ y) [z]) in E. apply app_inj_tail in E as [E _]. by exists x, y. }
  destruct (combines c) eqn:Ec; split_and!.
  - intros l Hin Hm. destruct (Hcut l Hin Hm) as [Hin'|(a & b & -> & Eb)]; [specialize (HL l Hin' Hm); lia|].
    apply Forall_app in Hm as [Hm _]. rewrite length_app. cbn. specialize (Hr b a Eb Hm). lia.
  - destruct (Z.max_spec L (r + 1)) as [[? ->]|[? ->]].
    + exists (l' ++ [c]). split_and!; [exists p', []; by rewrite app_nil_r, E', <- app_assoc | apply Forall_app; auto |].
      rewrite length_app. cbn. lia.
    + exists lm. split_and!; [exists p, (q ++ [c]); by rewrite <- !app_assoc | done | done].
  - intros x l E Hm. destruct l as [|d l _] using rev_ind; [cbn; specialize (Hr _ [] (eq_sym (app_nil_r _)) ltac:(constructor)); cbn in Hr; lia|].
    rewrite (app_assoc x l [d]) in E. apply app_inj_tail in E as [E ->]. apply Forall_app in Hm as [Hm _].
    rewrite length_app. cbn. specialize (Hr x l E Hm). lia.
  - exists p', (l' ++ [c]). split_and!; [by rewrite E', <- app_assoc | apply Forall_app; auto|].
    rewrite length_app. cbn. lia.
  - intros l Hin Hm. destruct (Hcut l Hin Hm) as [Hin'|(a & b & -> & Eb)]; [specialize (HL l Hin' Hm); lia|].
    apply Forall_app in Hm as [_ Hm]. apply Forall_cons in Hm as [Hm _]. congruence.
  - exists lm. split_and!; [exists p, (q ++ [c]); by rewrite <- !app_assoc | done | lia].
  - intros x l E Hm. destruct l as [|d l _] using rev_ind; [done|].
    rewrite (app_assoc x l [d]) in E. apply app_inj_tail in E as [E <-]. apply Forall_app in Hm as [_ Hm].
    apply Forall_cons in Hm as [Hm _]. congruence.
  - exists ((p ++ lm ++ q) ++ [c]), []. by rewrite app_nil_r.
Qed.

Lemma longest_combining_run_le text n :
  longest_combining_run text ≤ n ↔
  ∀ l, infix_of l (str_chars text) → marks l → Z.of_nat (length l) ≤ n.
Proof.
  unfold longest_combining_run. pose proof (combining_run_spec (str_chars text)) as Hs.
  destruct (foldl combining_step (0, 0) (str_chars text)) as [L r]. destruct Hs as (HL & (l & Hin & Hm & <-) & _).
  cbn. split; [intros Hle l' Hin' Hm'; specialize (HL l' Hin' Hm'); lia | intros Hl; by apply Hl].
Qed.
End marks.

Lemma lookup_before (before : list Z) c after :
  match length before with O => None | S i => (before ++ c :: after) !! i end = last before.
Proof.
  destruct before as [|b before _] using rev_ind; [done|]. rewrite length_app, Nat.add_comm. cbn [Nat.add length].
  rewrite last_snoc, <- app_assoc. cbn [app]. by rewrite list_lookup_middle.
Qed.
Lemma lookup_after (before : list Z) c after : (before ++ c :: after) !! S (length before) = head after.
Proof.
  rewrite lookup_app_r by lia. replace (S (length before) - length before)%nat with 1%nat by lia. cbn.
  by destruct after.
Qed.

Lemma is_some_and_true {A} (f : A → bool) o : is_some_and f o = true ↔ ∃ a, o = Some a ∧ f a = true.
Proof. destruct o; cbn; naive_solver. Qed.

Lemma under_a_picture b :
  pictures b || is_ascii_digit b || (b =? 35) || (b =? 42) = true ↔
  pictures b = true ∨ is_ascii_digit b = true ∨ b = 35 ∨ b = 42.
Proof. rewrite !orb_true_iff, !Z.eqb_eq. tauto. Qed.
Lemma joins_a_picture b :
  pictures b || selects_a_picture b = true ↔ pictures b = true ∨ selects_a_picture b = true.
Proof. by rewrite orb_true_iff. Qed.

Lemma misleads_here_spec lb before c after :
  misleads_here (before ++ c :: after) (length before) &&
    negb (lb && is_some_and (λ c, (c =? 10) || (c =? 9)) ((before ++ c :: after) !! length before)) = false ↔
  (misleads c = true → harmless lb before c after).
Proof.
  unfold misleads_here, harmless. rewrite list_lookup_middle by done. rewrite lookup_before, lookup_after. cbn.
  destruct (misleads c) eqn:Em; cbn; [|done].
  assert (∀ b : bool, b && negb (lb && ((c =? 10) || (c =? 9))) = false ↔ b = false ∨ (lb = true ∧ (c = 10 ∨ c = 9))) as Hb.
  { intros b. rewrite andb_false_iff, negb_false_iff, andb_true_iff, orb_true_iff, !Z.eqb_eq. done. }
  rewrite Hb. clear Hb.
  destruct (selects_a_picture c) eqn:Es.
  - assert (c ≠ 0x200D) as Hj by (intros ->; done).
    rewrite negb_false_iff, is_some_and_true. setoid_rewrite under_a_picture. tauto.
  - destruct (c =? 0x200D) eqn:Ej.
    + apply Z.eqb_eq in Ej. rewrite negb_false_iff, andb_true_iff, !is_some_and_true.
      setoid_rewrite joins_a_picture. intuition congruence.
    + apply Z.eqb_neq in Ej. intuition congruence.
Qed.

Lemma find_none_iff {A} (f : A → bool) l : find f l = None ↔ ∀ x, x ∈ l → f x = false.
Proof.
  induction l as [|x l IH]; cbn; [split; [set_solver | done]|].
  destruct (f x) eqn:E; [split; [done | intros Hf; specialize (Hf x ltac:(left)); congruence]|].
  rewrite IH. split; [intros Hf y [->|]%elem_of_cons; auto | intros Hf y Hy; apply Hf; by right].
Qed.

Lemma split_at_lookup {A} (t : list A) i c : t !! i = Some c → ∃ before after, t = before ++ c :: after ∧ length before = i.
Proof.
  intros Hi. exists (take i t), (drop (S i) t). split; [by rewrite take_drop_middle|].
  rewrite length_take. apply lookup_lt_Some in Hi. lia.
Qed.

Lemma check_text_exact what text most lb :
  check_text what text most lb = ROk tt ↔ plain_text most lb (str_chars text).
Proof.
  unfold check_text. set (t := str_chars text).
  destruct (Z.of_nat (length t) =? 0) eqn:E0; [split; [done | intros [? _ _ _]; lia]|].
  destruct (most <? Z.of_nat (length t)) eqn:E1; [split; [done | intros [? _ _ _]; lia]|].
  destruct (forallb char_is_whitespace t) eqn:E2.
  { split; [done|]. intros [_ (c & Hc & Hw) _ _]. rewrite forallb_forall in E2.
    rewrite E2 in Hw by by apply list_elem_of_In. done. }
  destruct (find _ _) as [i|] eqn:E3.
  - split; [done|]. intros [_ _ Hd _]. apply find_some in E3 as [Hi%in_seq Hf].
    destruct (lookup_lt_is_Some_2 t i ltac:(lia)) as [c Hc].
    destruct (split_at_lookup t i c Hc) as (before & after & Et & <-). rewrite Et in Hf.
    specialize (proj2 (misleads_here_spec lb before c after) (Hd before c after Et)). congruence.
  - pose proof (longest_combining_run_le text MAX_COMBINING_RUN) as Hm. fold t in Hm.
    destruct (MAX_COMBINING_RUN <? longest_combining_run text) eqn:E4.
    + split; [done|]. intros [_ _ _ Hl]. apply Hm in Hl. lia.
    + split; [|done]. intros _. constructor; [lia| | |apply Hm; lia].
      * apply not_true_iff_false in E2. rewrite forallb_forall in E2.
        destruct (decide (Exists (λ c, char_is_whitespace c = false) t)) as [He|He].
        -- by apply Exists_exists in He.
        -- destruct E2. intros c Hc%list_elem_of_In. apply not_Exists_Forall in He; [|apply _].
           rewrite Forall_forall in He. exact (proj1 (not_false_iff_true _) (He c Hc)).
      * intros before c after Et. apply misleads_here_spec. rewrite find_none_iff in E3. rewrite <- Et.
        apply (E3 (length before)). apply list_elem_of_In, in_seq. rewrite Et, length_app. cbn. lia.
Qed.

Definition field_count_ok (f : Field) : Prop :=
  if bool_decide (field_kind f = FList) then 1 ≤ Z.of_nat (length (field_values f)) ≤ MAX_LIST_ITEMS
  else length (field_values f) = 1%nat.

Record plain_field (f : Field) : Prop := {
  pf_label : plain_text MAX_LABEL_CHARS false (str_chars (label f));
  pf_count : field_count_ok f;
  pf_values : ∀ v, v ∈ field_values f →
    plain_text (most_chars (field_kind f)) (bool_decide (field_kind f = FLongText)) (str_chars v);
}.

Lemma each_ok {A E} (f : A → result unit E) l : each f l = ROk tt ↔ ∀ x, x ∈ l → f x = ROk tt.
Proof.
  induction l as [|x l IH]; cbn; [split; [set_solver | done]|]. destruct (f x) as [[]|] eqn:Ef; cbn.
  - rewrite IH. split; [intros Hf y [->|]%elem_of_cons; auto | intros Hf y Hy; apply Hf; by right].
  - split; [done|]. intros Hf. rewrite Hf in Ef by left. done.
Qed.
Lemma rseq_ok {A E} (m : result unit E) (k : result A E) a : (let? _ := m in k) = ROk a ↔ m = ROk tt ∧ k = ROk a.
Proof. rewrite rbind_ok. split; [intros ([] & ? & ?) | intros [? ?]]; eauto. Qed.

Lemma check_field_exact at_ f : check_field at_ f = ROk tt ↔ plain_field f.
Proof.
  unfold check_field. rewrite !rseq_ok, each_ok, check_text_exact.
  assert (∀ a b : string, (if bool_decide (field_kind f = FList)
      then if (1 <=? Z.of_nat (length (field_values f))) && (Z.of_nat (length (field_values f)) <=? MAX_LIST_ITEMS)
           then ROk tt else RErr a
      else if Z.of_nat (length (field_values f)) =? 1 then ROk tt else RErr b) = ROk tt ↔ field_count_ok f) as Hc.
  { intros a b. unfold field_count_ok. case_bool_decide.
    - destruct (_ && _) eqn:E; split; try done; intros; prop_bool; lia.
    - destruct (_ =? 1) eqn:E; split; try done; intros; lia. }
  rewrite Hc. setoid_rewrite check_text_exact. split; [intros (? & ? & ?); by constructor | intros [? ? ?]; done].
Qed.
Lemma check_fields_exact l : ∀ at_, check_fields at_ l = ROk tt ↔ ∀ f, f ∈ l → plain_field f.
Proof.
  induction l as [|f l IH]; intros at_; cbn [check_fields]; [split; [set_solver | done]|].
  rewrite rseq_ok, check_field_exact, IH. split.
  - intros [? ?] g [->|]%elem_of_cons; auto.
  - intros Hg. split; [apply Hg; left | intros g ?; apply Hg; by right].
Qed.

(** What a task shows is plain.  A display passes exactly when its title and every
    label and value are short enough, not blank, free of characters that are not drawn
    or that change how others are drawn (line breaks of a long text and the parts of an
    emoji apart) and carry at most four combining marks in a row, and its fields are as
    many, with as many values, as the card draws.  So no text of it can be reordered. *)
Theorem shown_display_is_plain d :
  (check_display d = ROk tt ↔
    plain_text MAX_TITLE_CHARS false (str_chars (title d)) ∧
    Z.of_nat (length (fields d)) ≤ MAX_FIELDS ∧ ∀ f, f ∈ fields d → plain_field f) ∧
  (check_display d = ROk tt →
    ∀ text, (text = title d ∨ ∃ f, f ∈ fields d ∧ (text = label f ∨ text ∈ field_values f)) →
    ∀ c, c ∈ str_chars text → reorders c = false).
Proof.
  assert (check_display d = ROk tt ↔
    plain_text MAX_TITLE_CHARS false (str_chars (title d)) ∧
    Z.of_nat (length (fields d)) ≤ MAX_FIELDS ∧ ∀ f, f ∈ fields d → plain_field f) as Hd.
  { unfold check_display. rewrite rseq_ok, check_text_exact.
    destruct (MAX_FIELDS <? Z.of_nat (length (fields d))) eqn:E.
    - split; [intros [_ ?]; done | intros (_ & ? & _); lia].
    - rewrite check_fields_exact. split; [intros [? ?] | intros (? & ? & ?)]; split_and!; try done; lia. }
  split; [exact Hd|]. intros (Ht & _ & Hf)%Hd text [->|(f & Hin & Hx)].
  - by eapply plain_text_order.
  - destruct (Hf f Hin) as [Hl _ Hv]. destruct Hx as [->|Hx]; [by eapply plain_text_order|].
    eapply plain_text_order, Hv, Hx.
Qed.
