(* ===== verification/Statement.v ===== *)
(** The owner's signed statements (worker/src/tasks/statement.rs): the sentence of a
    device and the sentence of an approval, the NEP-413 bytes they are signed as, the
    chain's word on a key, and the devices in force.

    Hashing, ed25519, P-256 points, base58, base64 and hexadecimal are third-party
    crates, and the chain is whatever the RPC node says at each question: parameters. *)

From S2P Require Export RustStr Calendar.

(** The crates: [None] is a decoding error. *)
Class Crates := {
  sha_256 : string → string;
  b58_decode : string → option string;
  b64_encode : string → string;
  b64_decode : string → option string;
  b64url_decode : string → option string;
  hex_lower : string → string;
  ed25519_key : string → bool;                         (* [VerifyingKey::from_bytes] *)
  ed25519_verifies : string → string → string → bool;  (* key, message, signature *)
  p256_point : string → bool;                          (* [from_sec1_bytes] *)
}.

Record DeviceStatement := mkStatement {
  st_id : string;
  st_account_id : string;
  st_device_pubkey : string;
  st_signer_pubkey : string;
  st_signature : string;
  st_nonce : string;
  st_valid_until : Z;
}.
(** A device and the bytes of its P-256 point. *)
Record Device := mkDevice { device_id : string; device_key : string }.

Inductive OnChain := ItsKey | NotItsKey.
#[export] Instance on_chain_eq : EqDecision OnChain.
Proof. solve_decision. Defined.

(** * Sentences *)

Definition iso8601_secs (secs : Z) : option string :=
  if negb ((0 <=? secs) && (secs <? 253402300800)) then None else
  let '(days, rem) := (secs / 86400, secs mod 86400) in
  let '(h, m, s) := (rem / 3600, rem mod 3600 / 60, rem mod 60) in
  let z := days + 719468 in
  let era := z / 146097 in
  let doe := z - era * 146097 in
  let yoe := (doe - doe / 1460 + doe / 36524 - doe / 146096) / 365 in
  let doy := doe - (365 * yoe + yoe / 4 - yoe / 100) in
  let mp := (5 * doy + 2) / 153 in
  let d := doy - (153 * mp + 2) / 5 + 1 in
  let month := if mp <? 10 then mp + 3 else mp - 9 in
  let year := yoe + era * 400 + (if month <=? 2 then 1 else 0) in
  Some (pad 4 year +:+ "-" +:+ pad 2 month +:+ "-" +:+ pad 2 d +:+ "T" +:+ pad 2 h +:+ ":" +:+ pad 2 m
    +:+ ":" +:+ pad 2 s +:+ "Z").

Definition sentence (account device_pubkey : string) (valid_until : Z) : option string :=
  t ← iso8601_secs valid_until;
  Some ("Sign in to OutLayer as " +:+ account +:+ ". Device key: " +:+ device_pubkey +:+ ". Valid until " +:+
        t +:+ ".").

Definition approval_sentence (owner id hash supply_digest : string) (at_ : Z) : option string :=
  t ← iso8601_secs at_;
  Some ("Approve in OutLayer as " +:+ owner +:+ ": task " +:+ id +:+ " with hash " +:+ hash +:+ " and supply " +:+
        supply_digest +:+ ". At " +:+ t +:+ ".").

Definition quote : string := String (ascii_of_N 34) "".

(** * NEP-413 *)

Definition NEP413_TAG : Z := 2147484061.
(** [to_le_bytes]. *)
Fixpoint le_bytes (k : nat) (n : Z) : string :=
  match k with
  | O => ""
  | S k => String (ascii_of_N (Z.to_N (n mod 256))) (le_bytes k (n / 256))
  end.
(** Borsh: a string with its length, an absent option as one zero byte. *)
Definition borsh_string (s : string) : option string :=
  if str_len s <=? U32_MAX then Some (le_bytes 4 (str_len s) +:+ s) else None.
Definition nep413_bytes (message nonce recipient : string) : option string :=
  message ← borsh_string message; recipient ← borsh_string recipient;
  Some (le_bytes 4 NEP413_TAG +:+ message +:+ nonce +:+ recipient +:+ le_bytes 1 0).

Definition strip_prefix (pre s : string) : option string :=
  if starts_with s pre then Some (str_drop (String.length pre) s) else None.
Definition sized (n : Z) (s : string) : option string := if str_len s =? n then Some s else None.

Section statements.
Context `{Crates}.

Definition supply_text (supplied note : option string) : string :=
  let member b := match b with Some b => quote +:+ b64_encode b +:+ quote | None => "null" end in
  "{" +:+ quote +:+ "note" +:+ quote +:+ ":" +:+ member note +:+ "," +:+ quote +:+ "supplied" +:+ quote +:+ ":" +:+
  member supplied +:+ "}".
Definition supply_digest (supplied note : option string) : string :=
  hex_lower (sha_256 (supply_text supplied note)).

Definition verify_nep413 (message signer_pubkey signature nonce recipient : string) : result unit string :=
  let? signer := ok_or (key ← strip_prefix "ed25519:" signer_pubkey; bytes ← b58_decode key; bytes ← sized 32 bytes;
                        if ed25519_key bytes then Some bytes else None)
    "the signer's key is not `ed25519:` and 32 bytes of base58" in
  let? signature := ok_or (bytes ← b64_decode signature; sized 64 bytes) "the signature is not 64 bytes of base64" in
  let? nonce := ok_or (bytes ← b64_decode nonce; sized 32 bytes) "the nonce is not 32 bytes of base64" in
  let? payload := ok_or (nep413_bytes message nonce recipient) "the statement could not be serialised" in
  if ed25519_verifies signer (sha_256 payload) signature then ROk tt else RErr "the signature does not verify".

(** ** Devices *)

Definition MAX_SESSION_SECS : Z := 30 * 24 * 60 * 60.
Definition DEADLINE_SLACK_SECS : Z := 10 * 60.

Definition read_pubkey (written : string) : result string string :=
  let? point := ok_or (strip_prefix "p256:" written) "the key is not written `p256:…`" in
  let? bytes := ok_or (b64url_decode point) "the key is not base64url" in
  if negb (str_len bytes =? 65) || negb (starts_with bytes (String (ascii_of_N 4) ""))
  then RErr "the key is not an uncompressed point of 65 bytes" else
  if p256_point bytes then ROk bytes else RErr "the key is not a point on P-256".

Definition saturating_i64 (z : Z) : Z := Z.max (- 2 ^ 63) (Z.min (2 ^ 63 - 1) z).

Definition signed_by_its_signer (s : DeviceStatement) (owner : string) (now : Z) (recipient : string)
    : result string string :=
  if negb (String.eqb (st_account_id s) owner) then RErr "the statement is for another account" else
  if st_valid_until s <=? now then RErr "the statement's deadline has passed" else
  if saturating_i64 (now + (MAX_SESSION_SECS + DEADLINE_SLACK_SECS)) <? st_valid_until s
  then RErr "the statement is valid for longer than a session lasts" else
  let? device := read_pubkey (st_device_pubkey s) in
  let? message := ok_or (sentence (st_account_id s) (st_device_pubkey s) (st_valid_until s))
    "the deadline is not a time" in
  let? _ := verify_nep413 message (st_signer_pubkey s) (st_signature s) (st_nonce s) recipient in
  ROk device.

(** ** Approvals *)

Definition APPROVAL_AHEAD_SECS : Z := 10 * 60.
Definition APPROVAL_AGE_SECS : Z := 30 * 60.

Record Approval := mkApproval { ap_at : Z; ap_public_key : string; ap_signature : string; ap_nonce : string }.

Inductive ApprovalRefused := Invalid (why : string) | ChainUnavailable (why : string).

(** Everything but the chain's word. [now] is an [i64]; the sums wrap at 64 bits. *)
Definition wrap_i64 (z : Z) : Z := (z + 2 ^ 63) mod 2 ^ 64 - 2 ^ 63.

Definition approval_signed (approval : Approval) (owner id hash : string) (supplied note : option string)
    (now expires_at : Z) (recipient : string) : result unit ApprovalRefused :=
  if 2 ^ 63 - 1 <? ap_at approval then RErr (Invalid "the approval's time is not a time") else
  if wrap_i64 (now + APPROVAL_AHEAD_SECS) <? ap_at approval then RErr (Invalid "the approval is dated ahead") else
  if ap_at approval <? wrap_i64 (now - APPROVAL_AGE_SECS)
  then RErr (Invalid "the approval is older than thirty minutes") else
  if expires_at <=? ap_at approval then RErr (Invalid "the approval is dated past the task's life") else
  match approval_sentence owner id hash (supply_digest supplied note) (ap_at approval) with
  | None => RErr (Invalid "the approval's time is not a time")
  | Some message =>
    map_err (λ why, Invalid ("the approval " +:+ why))
      (verify_nep413 message (ap_public_key approval) (ap_signature approval) (ap_nonce approval) recipient)
  end.

(** ** The chain *)

Section chain.
Context {W : Type}.
Variable access_key : string → string → act W OnChain string.

Definition approval_holds (approval : Approval) (owner id hash : string) (supplied note : option string)
    (now expires_at : Z) (recipient : string) : act W unit ApprovalRefused :=
  let^ _ := lift (approval_signed approval owner id hash supplied note now expires_at recipient) in
  λ w, match access_key owner (ap_public_key approval) w with
       | (RErr down, w) => (RErr (ChainUnavailable down), w)
       | (ROk ItsKey, w) => (ROk tt, w)
       | (ROk NotItsKey, w) =>
         (RErr (Invalid "the key that signed the approval is not a full-access key of the owner's account"), w)
       end.

(** The answer already given for [signer], if any. *)
Fixpoint answered_of (signer : string) (asked : list (string * OnChain)) : option OnChain :=
  match asked with
  | [] => None
  | (key, answer) :: asked => if String.eqb key signer then Some answer else answered_of signer asked
  end.

Fixpoint devices_from (asked : list (string * OnChain)) (devices : list Device) (statements : list DeviceStatement)
    (owner : string) (now : Z) (recipient : string) : act W (list Device) string :=
  match statements with
  | [] => give devices
  | s :: rest =>
    match signed_by_its_signer s owner now recipient with
    | RErr _ => devices_from asked devices rest owner now recipient
    | ROk key =>
      let signer := st_signer_pubkey s in
      let^ '(on_chain, asked) :=
        match answered_of signer asked with
        | Some answered => give (answered, asked)
        | None => let^ answered := access_key owner signer in give (answered, asked ++ [(signer, answered)])
        end in
      match on_chain with
      | ItsKey => devices_from asked (devices ++ [mkDevice (st_id s) key]) rest owner now recipient
      | NotItsKey => devices_from asked devices rest owner now recipient
      end
    end
  end.
Definition devices_in_force (statements : list DeviceStatement) (owner : string) (now : Z) (recipient : string)
    : act W (list Device) string := devices_from [] [] statements owner now recipient.
End chain.

(** ** What the node says *)

(** A parsed JSON document; an object's names are distinct. *)
Inductive Value :=
| VNull | VBool (b : bool) | VNumber (text : string) | VString (s : string)
| VArray (l : list Value) | VObject (members : list (string * Value)).

Definition value_get (name : string) (v : Value) : option Value :=
  match v with
  | VObject members => snd <$> head (filter (λ m : string * Value, m.1 = name) members)
  | _ => None
  end.
Definition value_str (v : Value) : option string := match v with VString s => Some s | _ => None end.
Definition value_bool (v : Value) : option bool := match v with VBool b => Some b | _ => None end.
(** [Value::as_u64], of a number as the JSON spells it. *)
Definition value_u64 (v : Value) : option Z :=
  match v with VNumber text => if forall_bytes is_ascii_digit text then parse_u64 text else None | _ => None end.
(** A [u64] as serde_json writes it. *)
Definition number (n : Z) : Value := VNumber (uint_to_string n).
Lemma number_u64 n : 0 ≤ n ≤ U64_MAX → value_u64 (number n) = Some n.
Proof. intros Hn. cbn. rewrite uint_to_string_digits. by apply parse_uint_to_string. Qed.

Definition cause_name (error : Value) : option string :=
  cause ← value_get "cause" error; name ← value_get "name" cause; value_str name.

Definition no_key_answer : string := "the chain's answer about a key could not be read".
Definition read_access_key_answer (answer : Value) : result OnChain string :=
  match value_get "error" answer with
  | Some error =>
    match cause_name error with
    | Some "UNKNOWN_ACCESS_KEY" | Some "UNKNOWN_ACCOUNT" | Some "INVALID_ACCOUNT" => ROk NotItsKey
    | _ => RErr no_key_answer
    end
  | None =>
    let? result := ok_or (value_get "result" answer) no_key_answer in
    match error ← value_get "error" result; value_str error with
    | Some said => if str_contains said "does not exist" then ROk NotItsKey else RErr no_key_answer
    | None =>
      if bool_decide (is_Some (value_get "nonce" result)) then
        match value_get "permission" result with
        | Some (VString full) => if String.eqb full "FullAccess" then ROk ItsKey else ROk NotItsKey
        | Some (VObject _) => ROk NotItsKey
        | _ => RErr no_key_answer
        end
      else RErr no_key_answer
    end
  end.

Definition no_account_answer : string := "the chain's answer about an account could not be read".
Definition read_account_answer (answer : Value) : result bool string :=
  match value_get "error" answer with
  | Some error =>
    match cause_name error with
    | Some "UNKNOWN_ACCOUNT" => ROk false
    | _ => RErr no_account_answer
    end
  | None =>
    let? result := ok_or (value_get "result" answer) no_account_answer in
    match error ← value_get "error" result; value_str error with
    | Some said => if str_contains said "does not exist" then ROk false else RErr no_account_answer
    | None => if bool_decide (is_Some (value_get "amount" result)) then ROk true else RErr no_account_answer
    end
  end.

Definition is_implicit_of (account public_key : string) : bool :=
  match key ← strip_prefix "ed25519:" public_key; b58_decode key with
  | Some bytes => (str_len bytes =? 32) && String.eqb (hex_lower bytes) account
  | None => false
  end.

Inductive Query := ViewAccessKey (account public_key : string) | ViewAccount (account : string).

Definition access_key_by {W} (query : Query → act W Value string) (account public_key : string)
    : act W OnChain string :=
  let^ answer := query (ViewAccessKey account public_key) in
  let^ said := lift (read_access_key_answer answer) in
  if bool_decide (said = NotItsKey) && is_implicit_of account public_key then
    let^ answer := query (ViewAccount account) in
    let^ exists_ := lift (read_account_answer answer) in
    give (if exists_ : bool then NotItsKey else ItsKey)
  else give said.
End statements.

(** * Times *)

Lemma iso8601_secs_agrees secs :
  iso8601_secs secs = if (0 <=? secs) && (secs <? 253402300800) then Some (iso8601_utc (secs * 1000000000)) else None.
Proof.
  unfold iso8601_secs, iso8601_utc. destruct ((0 <=? secs) && (secs <? 253402300800)); [|done]. cbn [negb].
  rewrite Z.div_mul by lia. unfold civil_from_days.
  rewrite (Z.mod_eq (secs / 86400 + 719468) 146097) by lia.
  rewrite (Z.mul_comm 146097). cbv zeta. repeat f_equal. destruct (_ <=? 2); lia.
Qed.

(** Dates in order. *)
Definition date_code (date : Z * Z * Z) : Z := let '(y, m, d) := date in y * 372 + m * 31 + d.
Definition date_ok (date : Z * Z * Z) : Prop := let '(y, m, d) := date in 1 ≤ m ≤ 12 ∧ 1 ≤ d ≤ 31.

Lemma tomorrow_later date : date_ok date → date_ok (tomorrow date) ∧ date_code date < date_code (tomorrow date).
Proof.
  destruct date as [[y m] d]. unfold tomorrow, date_ok, days_in_month. intros (Hm & Hd).
  assert ((if m =? 2 then (if is_leap y then 29 else 28)
    else if (m =? 4) || (m =? 6) || (m =? 9) || (m =? 11) then 30 else 31) ≤ 31) as Hle by (repeat case_match; lia).
  destruct (d <? _) eqn:E1; [cbn; lia|]. destruct (m <? 12) eqn:E2; cbn; lia.
Qed.
Lemma iter_later n : date_ok (Nat.iter n tomorrow (1970, 1, 1)) ∧
  ∀ k, (k < n)%nat → date_code (Nat.iter k tomorrow (1970, 1, 1)) < date_code (Nat.iter n tomorrow (1970, 1, 1)).
Proof.
  induction n as [|n [IHo IHl]]; [cbn; split; [lia | lia]|]. cbn [Nat.iter nat_rect].
  destruct (tomorrow_later _ IHo) as [Ho Hl]. split; [exact Ho|]. intros k Hk.
  destruct (decide (k = n)) as [->|]; [exact Hl|]. specialize (IHl k ltac:(lia)). unfold Nat.iter in *. lia.
Qed.
Lemma civil_inj a b : 0 ≤ a → 0 ≤ b → civil_from_days a = civil_from_days b → a = b.
Proof.
  intros Ha Hb E. rewrite <- (Z2Nat.id a), <- (Z2Nat.id b) in E by done. rewrite !civil_iter in E.
  destruct (lt_eq_lt_dec (Z.to_nat a) (Z.to_nat b)) as [[Hl|]|Hl]; [|lia|].
  - pose proof (proj2 (iter_later _) _ Hl) as Hc. rewrite E in Hc. lia.
  - pose proof (proj2 (iter_later _) _ Hl) as Hc. rewrite E in Hc. lia.
Qed.

Lemma pad_digits k n : forall_bytes is_ascii_digit (pad k n) = true.
Proof.
  unfold pad. rewrite forall_bytes_app, uint_to_string_digits, andb_true_r.
  induction (k - String.length (uint_to_string n))%nat; [done|]. cbn. exact IHn0.
Qed.
Lemma parse_zeros max j s : 0 ≤ max →
  parse_digits max 0 (String.string_of_list_ascii (repeat "0"%char j) +:+ s) = parse_digits max 0 s.
Proof.
  intros Hm. induction j as [|j IH]; [done|]. cbn. destruct max; [exact IH | exact IH | lia].
Qed.
Lemma pad_inj k a b : 0 ≤ a → 0 ≤ b → pad k a = pad k b → a = b.
Proof.
  intros Ha Hb E. assert (parse_digits (Z.max a b) 0 (pad k a) = parse_digits (Z.max a b) 0 (pad k b)) as Ep by by rewrite E.
  unfold pad in Ep. rewrite !parse_zeros in Ep by lia. rewrite !parse_digits_to_string in Ep by lia. congruence.
Qed.
Lemma pad_has k n b : is_ascii_digit b = false → has_byte b (pad k n) = false.
Proof. intros Hb. eapply forall_bytes_no_byte; [apply pad_digits | done]. Qed.

Lemma civil_nonneg days : 0 ≤ days → let '(y, m, d) := civil_from_days days in 0 ≤ y ∧ 0 ≤ m ∧ 0 ≤ d.
Proof.
  intros Hd. rewrite <- (Z2Nat.id days) by done. rewrite civil_iter. generalize (Z.to_nat days) as n. intros n.
  assert (∀ n, let '(y, m, d) := Nat.iter n tomorrow (1970, 1, 1) in 1970 ≤ y) as Hy.
  { clear. intros n. induction n as [|n IH]; [cbn; lia|]. cbn [Nat.iter nat_rect]. unfold Nat.iter in IH.
    destruct (nat_rect _ _ _ n) as [[y m] d]. unfold tomorrow. repeat case_match; simplify_eq; lia. }
  specialize (Hy n). pose proof (proj1 (iter_later n)) as Ho. unfold date_ok in Ho.
  destruct (Nat.iter n tomorrow (1970, 1, 1)) as [[y m] d]. lia.
Qed.

(** A written moment is one second. *)
Lemma iso8601_utc_inj a b : 0 ≤ a → 0 ≤ b → iso8601_utc (a * 1000000000) = iso8601_utc (b * 1000000000) → a = b.
Proof.
  intros Ha Hb. unfold iso8601_utc. rewrite !Z.div_mul by lia.
  pose proof (Z.div_pos a 86400 Ha ltac:(lia)) as Hda. pose proof (Z.div_pos b 86400 Hb ltac:(lia)) as Hdb.
  pose proof (civil_nonneg _ Hda) as Hca. pose proof (civil_nonneg _ Hdb) as Hcb.
  pose proof (civil_inj _ _ Hda Hdb) as Hinj.
  destruct (civil_from_days (a / 86400)) as [[y m] d]. destruct (civil_from_days (b / 86400)) as [[y' m'] d'].
  pose proof (Z.mod_pos_bound a 86400 ltac:(lia)) as Hra. pose proof (Z.mod_pos_bound b 86400 ltac:(lia)) as Hrb.
  intros E. cbn [String.append] in E.
  repeat (match type of E with
    | pad ?k ?n +:+ String ?c _ = pad _ _ +:+ String ?c _ =>
      apply (field_sep_inj (byte_of c) c) in E;
        [let Hf := fresh "Hf" in destruct E as [Hf E]; apply pad_inj in Hf; [|Z.to_euclidean_division_equations; lia..] | done | by apply pad_has | by apply pad_has]
    end; cbn [String.append] in E).
  subst y' m' d'. specialize (Hinj eq_refl). Z.to_euclidean_division_equations. lia.
Qed.
Lemma iso8601_secs_inj a b t : iso8601_secs a = Some t → iso8601_secs b = Some t → a = b.
Proof.
  rewrite !iso8601_secs_agrees. destruct ((0 <=? a) && _) eqn:Ea; [|done]. destruct ((0 <=? b) && _) eqn:Eb; [|done].
  intros [= <-] [= E]. symmetry. apply iso8601_utc_inj; [lia | lia | done].
Qed.

Lemma iso8601_no_dot a t : iso8601_secs a = Some t → has_byte 46 t = false.
Proof.
  rewrite iso8601_secs_agrees. destruct (_ && _); [|done]. intros [= <-]. unfold iso8601_utc.
  destruct (civil_from_days _) as [[y m] d]. rewrite !has_byte_app, !pad_has by done. done.
Qed.

(** * What a signature covers *)

(** Documented behaviour of the encoders: hexadecimal is lower-case and base64's
    alphabet has no quote, and what they write reads back as one value only. *)
Class CrateLaws `{Crates} : Prop := {
  hex_lower_digits s : forall_bytes is_lower_hex (hex_lower s) = true;
  hex_lower_inj a b : hex_lower a = hex_lower b → a = b;
  b64_encode_inj a b : b64_encode a = b64_encode b → a = b;
  b64_no_quote s : has_byte 34 (b64_encode s) = false;
}.

(** An id of a task or a run (worker/src/tasks/mod.rs). *)
Definition is_id (raw : string) : bool :=
  negb (str_is_empty raw) && (str_len raw <=? 80) &&
  forall_bytes (λ b, is_ascii_lower b || is_ascii_digit b || (b =? 45)) raw.

(** A NEAR account's name holds no colon. *)
Definition account_like (s : string) : Prop := has_byte ch_colon s = false.

Lemma le_bytes_length k : ∀ n, String.length (le_bytes k n) = k.
Proof. induction k as [|k IH]; intros n; cbn; [done | by rewrite IH]. Qed.
Lemma le_bytes_inj k : ∀ a b, 0 ≤ a < 256 ^ Z.of_nat k → 0 ≤ b < 256 ^ Z.of_nat k → le_bytes k a = le_bytes k b → a = b.
Proof.
  induction k as [|k IH]; intros a b Ha Hb E; [cbn in *; lia|]. cbn in E. injection E as E1 E2.
  assert (256 ^ Z.of_nat (S k) = 256 * 256 ^ Z.of_nat k) as Ek by (rewrite Nat2Z.inj_succ, Z.pow_succ_r; lia).
  assert (a mod 256 = b mod 256) as Em.
  { apply (f_equal byte_of) in E1. rewrite !byte_of_ascii_of_N in E1 by (Z.to_euclidean_division_equations; lia).
    rewrite !Z2N.id in E1 by (Z.to_euclidean_division_equations; lia). exact E1. }
  apply IH in E2; [|Z.to_euclidean_division_equations; nia..]. Z.to_euclidean_division_equations. lia.
Qed.

Lemma borsh_string_ok s b : borsh_string s = Some b ↔ str_len s ≤ U32_MAX ∧ b = le_bytes 4 (str_len s) +:+ s.
Proof. unfold borsh_string. destruct (_ <=? _) eqn:E; split; [intros [= <-]; split; [lia|done] | intros [_ ->]; done | done | lia]. Qed.
Lemma borsh_prefix a b x y : str_len a ≤ U32_MAX → str_len b ≤ U32_MAX →
  (le_bytes 4 (str_len a) +:+ a) +:+ x = (le_bytes 4 (str_len b) +:+ b) +:+ y → a = b ∧ x = y.
Proof.
  intros Ha Hb E. rewrite !str_append_assoc in E.
  apply str_append_inj_len in E as [El E]; [|by rewrite !le_bytes_length].
  apply le_bytes_inj in El; [|pose proof (str_len_nonneg a); unfold U32_MAX in *; lia|pose proof (str_len_nonneg b); unfold U32_MAX in *; lia].
  apply str_append_inj_len in E; [done | unfold str_len in El; lia].
Qed.

Lemma nep413_bytes_inj m n r m' n' r' bytes :
  nep413_bytes m n r = Some bytes → nep413_bytes m' n' r' = Some bytes →
  m = m' ∧ (str_len n = str_len n' → n = n' ∧ r = r').
Proof.
  unfold nep413_bytes. intros (bm & [Hm ->]%borsh_string_ok & (br & [Hr ->]%borsh_string_ok & <-%(inj Some))%bind_Some)%bind_Some.
  intros (bm & [Hm' ->]%borsh_string_ok & (br & [Hr' ->]%borsh_string_ok & E%(inj Some))%bind_Some)%bind_Some.
  symmetry in E. apply str_append_inj_l in E. apply borsh_prefix in E as [<- E]; [|done..]. split; [done|]. intros Hn.
  apply str_append_inj_len in E as [<- E]; [|unfold str_len in Hn; lia].
  apply borsh_prefix in E as [<- _]; done.
Qed.

Lemma sep_inj (sep : ascii) x y u v : has_byte (byte_of sep) x = false → has_byte (byte_of sep) y = false →
  x +:+ String sep u = y +:+ String sep v → x = y ∧ u = v.
Proof. by apply field_sep_inj. Qed.

Section covers.
Context `{CrateLaws}.

Lemma id_no_space s : is_id s = true → has_byte 32 s = false.
Proof.
  unfold is_id. rewrite !andb_true_iff. intros [_ Hs]. eapply forall_bytes_no_byte; [exact Hs | done].
Qed.
Lemma hex_no b s : is_lower_hex b = false → has_byte b (hex_lower s) = false.
Proof. intros Hb. eapply forall_bytes_no_byte; [apply hex_lower_digits | done]. Qed.

Lemma supply_text_inj s n s' n' : supply_text s n = supply_text s' n' → s = s' ∧ n = n'.
Proof.
  unfold supply_text. cbn [String.append]. intros E. injection E as E.
  assert (∀ o o' x y, (match o with Some b => quote +:+ b64_encode b +:+ quote | None => "null" end) +:+ x =
    (match o' with Some b => quote +:+ b64_encode b +:+ quote | None => "null" end) +:+ y → o = o' ∧ x = y) as Hm.
  { intros [b|] [b'|] x y; unfold quote; cbn [String.append]; intros Ex; try done; [|by injection Ex].
    rewrite !str_append_assoc in Ex. cbn [String.append] in Ex. injection Ex as Ex.
    apply sep_inj in Ex as [Eb ->]; [|apply b64_no_quote..]. split; [f_equal; by apply b64_encode_inj | done]. }
  apply Hm in E as [-> E]. split; [|done]. cbn [String.append] in E. injection E as E. by apply Hm in E as [-> _].
Qed.

Lemma approval_sentence_inj o i h d t o' i' h' d' t' m :
  account_like o → account_like o' → is_id i = true → is_id i' = true →
  has_byte 32 h = false → has_byte 32 h' = false → has_byte 46 d = false → has_byte 46 d' = false →
  approval_sentence o i h d t = Some m → approval_sentence o' i' h' d' t' = Some m →
  o = o' ∧ i = i' ∧ h = h' ∧ d = d' ∧ t = t'.
Proof.
  intros Ho Ho' Hi%id_no_space Hi'%id_no_space Hh Hh' Hd Hd'.
  unfold approval_sentence. intros (x & Hx & <-%(inj Some))%bind_Some (y & Hy & E%(inj Some))%bind_Some.
  symmetry in E. apply str_append_inj_l in E. apply (sep_inj ":") in E as [-> E]; [|done..].
  apply (str_append_inj_l " task ") in E. apply (sep_inj " ") in E as [-> E]; [|done..].
  apply (str_append_inj_l "with hash ") in E. apply (sep_inj " ") in E as [-> E]; [|done..].
  apply (str_append_inj_l "and supply ") in E. apply (sep_inj ".") in E as [-> E]; [|done..].
  apply (str_append_inj_l " At ") in E.
  apply (sep_inj ".") in E as [-> _]; [|by eapply iso8601_no_dot..].
  split_and!; try done. by eapply iso8601_secs_inj.
Qed.

(** C33: An approval covers one task.  The bytes a wallet signs for an approval are the
    bytes of no other approval: they fix the owner, the task, the hash of what was shown,
    the digest of what was supplied and written, the second, the nonce and the recipient;
    the digest's text fixes both of its parts; and they are the bytes of no sign-in. *)
Theorem approval_covers_one_task o i doc s n t nonce r o' i' doc' s' n' t' nonce' r' m m' bytes :
  account_like o → account_like o' → is_id i = true → is_id i' = true →
  str_len nonce = 32 → str_len nonce' = 32 →
  approval_sentence o i (hex_lower (sha_256 doc)) (supply_digest s n) t = Some m →
  approval_sentence o' i' (hex_lower (sha_256 doc')) (supply_digest s' n') t' = Some m' →
  nep413_bytes m nonce r = Some bytes → nep413_bytes m' nonce' r' = Some bytes →
  (o = o' ∧ i = i' ∧ t = t' ∧ nonce = nonce' ∧ r = r') ∧
  sha_256 doc = sha_256 doc' ∧ sha_256 (supply_text s n) = sha_256 (supply_text s' n') ∧
  (supply_text s n = supply_text s' n' → s = s' ∧ n = n') ∧
  ∀ account device until nonce0 r0 m0, sentence account device until = Some m0 → nep413_bytes m0 nonce0 r0 ≠ Some bytes.
Proof.
  intros Ho Ho' Hi Hi' Hn Hn' Hm Hm' Hb Hb'.
  destruct (nep413_bytes_inj _ _ _ _ _ _ _ Hb Hb') as [<- Hrest]. destruct Hrest as [<- <-]; [congruence|].
  destruct (approval_sentence_inj _ _ _ _ _ _ _ _ _ _ _ Ho Ho' Hi Hi'
    ltac:(by apply hex_no) ltac:(by apply hex_no) ltac:(by apply hex_no) ltac:(by apply hex_no) Hm Hm')
    as (-> & -> & Eh & Ed & ->).
  split_and!; [done.. | by apply hex_lower_inj | by apply hex_lower_inj | apply supply_text_inj |].
  intros account device until nonce0 r0 m0 Hs0 Hx. destruct (nep413_bytes_inj _ _ _ _ _ _ _ Hb Hx) as [<- _].
  unfold approval_sentence, sentence in *.
  apply bind_Some in Hm as (x & _ & E%(inj Some)). apply bind_Some in Hs0 as (y & _ & E'%(inj Some)).
  rewrite <- E in E'. done.
Qed.
End covers.

(** * Devices *)

Section devices.
Context `{Crates}.
Variables (owner : string) (now : Z) (recipient : string).

(** The same, with the chain asked again for every statement that holds. *)
Abbreviation Answers := (string → string → result OnChain string).
Definition vouched (chain : Answers) (s : DeviceStatement) : option Device :=
  match signed_by_its_signer s owner now recipient with
  | ROk key =>
    match chain owner (st_signer_pubkey s) with ROk ItsKey => Some (mkDevice (st_id s) key) | _ => None end
  | RErr _ => None
  end.
(** The chain's failure to answer, at the first statement that needs it. *)
Definition unanswered (chain : Answers) (s : DeviceStatement) : option string :=
  match signed_by_its_signer s owner now recipient with
  | ROk _ => match chain owner (st_signer_pubkey s) with RErr down => Some down | ROk _ => None end
  | RErr _ => None
  end.
Definition devices_reference (chain : Answers) (statements : list DeviceStatement) : result (list Device) string :=
  match head (omap (unanswered chain) statements) with
  | Some down => RErr down
  | None => ROk (omap (vouched chain) statements)
  end.

Lemma answered_of_app signer asked extra :
  answered_of signer (asked ++ extra) =
  match answered_of signer asked with Some a => Some a | None => answered_of signer extra end.
Proof. induction asked as [|[k a] asked IH]; cbn; [done|]. by destruct (String.eqb k signer). Qed.

Lemma devices_from_exact {W} (chain : Answers) statements : ∀ asked devices (w : W),
  (∀ k a, answered_of k asked = Some a → chain owner k = ROk a) →
  devices_from (λ account key, lift (chain account key)) asked devices statements owner now recipient w =
  (match head (omap (unanswered chain) statements) with
   | Some down => RErr down
   | None => ROk (devices ++ omap (vouched chain) statements)
   end, w).
Proof.
  induction statements as [|s rest IH]; intros asked devices w Ha; cbn [devices_from omap list_omap].
  { cbn. by rewrite app_nil_r. }
  unfold unanswered at 1, vouched at 1.
  destruct (signed_by_its_signer s owner now recipient) as [key|]; [|by rewrite IH].
  unfold after, give, lift. destruct (answered_of (st_signer_pubkey s) asked) as [a|] eqn:E.
  - rewrite (Ha _ _ E). destruct a; rewrite IH by done; [|done]. by rewrite <- app_assoc.
  - destruct (chain owner (st_signer_pubkey s)) as [a|down] eqn:Ec; [|done].
    assert (∀ k b, answered_of k (asked ++ [(st_signer_pubkey s, a)]) = Some b → chain owner k = ROk b) as Ha'.
    { intros k b. rewrite answered_of_app. destruct (answered_of k asked) eqn:Ek; [intros [= <-]; by apply Ha|].
      cbn. destruct (String.eqb _ k) eqn:Es; [|done]. apply String.eqb_eq in Es as <-. by intros [= <-]. }
    destruct a; rewrite IH by done; [|done]. by rewrite <- app_assoc.
Qed.

(** Asking the chain about each key once gives the devices that asking about every
    statement gives: those whose statement holds and whose signer is a full-access key
    of the owner's account, in order; and a chain that does not answer about one of them
    fails the whole, never a shorter list. *)
Theorem devices_in_force_exact {W} (chain : Answers) statements (w : W) :
  devices_in_force (λ account key, lift (chain account key)) statements owner now recipient w =
  (devices_reference chain statements, w).
Proof. unfold devices_in_force. by rewrite devices_from_exact. Qed.
End devices.
