(* ===== verification/Tasks.v ===== *)
(** The host's side of tasks between an agent and its owner: the keys of a task
    (worker/src/tasks/crypto.rs), what a run leaves (tasks/mod.rs) and the functions of
    the [outlayer:tasks] interface (tasks/host_functions.rs).

    The task store, the chain, the clock and the host's randomness answer as they like,
    a different answer each time: they are a world the calls act on, and the record of
    what was asked and answered is kept beside it.  A panic ends the run. *)

From S2P Require Export Envelope Statement.

(** * The world *)

Inductive State := Open | Approved | Answering | Done | Failed | Rejected | Cancelled | Expired | Void.
#[export] Instance state_eq : EqDecision State.
Proof. solve_decision. Defined.

Inductive Refusal :=
| RefNotFound | RefMuted | RefInboxFull | RefPreparerFull | RefStorageFull | RefExists | RefClosed | RefExpired
| RefLifeTooLong | RefInvalidRequest.
Inductive StoreError := Refused (why : Refusal) (found : option State) | Unavailable (why : string).

Record Scope := mkScope { scope_project_uuid : string; scope_owner : string }.
Record Copy := mkCopy { copy_device_id : string; wrapped_key : string }.
Record NamedRow := mkNamedRow { row_account_id : string; row_profile : string }.
Record Voucher := mkVoucher {
  v_payment_key_nonce : Z;
  v_wallet_id : option string;
  v_bound_identity : bool;
  v_compute_limit_usd : string;
  v_operation : string;
  v_build : string;
  v_secrets_refs : list NamedRow;
}.
Record NewTask := mkNewTask {
  nt_id : string;
  nt_project_id : string;
  nt_preparer : string;
  nt_voucher : option Voucher;
  nt_profile : string;
  nt_vault : option string;
  nt_kind : Kind;
  nt_expires_at : Z;
  nt_reply_pubkey : option string;
  nt_sealed : string;
  nt_content : string;
  nt_files : list string;
  nt_copies : list Copy;
}.
Record Prepared := mkPrepared {
  pr_id : string;
  pr_kind : Kind;
  pr_state : State;
  pr_created_at : Z;
  pr_expires_at : Z;
  pr_run : option string;
  pr_outcome : option string;
  pr_rejection : option string;
  pr_failure_reason : option string;
}.
Record Stored := mkStored {
  sd_id : string;
  sd_preparer : string;
  sd_kind : Kind;
  sd_state : State;
  sd_expires_at : Z;
  sd_sealed : option string;
  sd_files : list string;
}.
Record Written := mkWritten { w_copies_written : Z; w_tasks_written : Z }.

(** The store's routes, the chain's word on a key, the clock in seconds and the host's
    randomness, over a state [W] of the world. *)
Class TaskWorld (W : Type) := {
  w_devices : string → act W (list DeviceStatement) StoreError;
  w_open : Scope → NewTask → act W Z StoreError;
  w_mine : Scope → string → option string → act W (list Prepared) StoreError;
  w_get : Scope → string → act W Stored StoreError;
  w_waiting : Scope → act W (list Stored) StoreError;
  w_copies : Scope → list (string * list Copy) → act W Written StoreError;
  w_answer : Scope → string → string → act W unit StoreError;
  w_void : Scope → string → act W unit StoreError;
  w_cancel : Scope → string → string → act W unit StoreError;
  w_delete : Scope → string → string → act W unit StoreError;
  w_access_key : string → string → act W OnChain string;
  w_now : W → Z * W;
  w_random : nat → act W string unit;
  w_scalar : W → string * W;
}.

(** The ciphers, the key derivations and the JSON writers of the crates; [None] is
    their error. *)
Class TaskCrypto := {
  task_crates :: Crates;
  task_unicode :: Unicode;
  hmac_sha256 : string → string → string;
  scalar_ok : string → bool;                           (* [SecretKey::from_slice] *)
  point_of : string → string;                          (* the uncompressed public point *)
  b64url_encode : string → string;
  diffie_hellman : string → string → string;           (* secret, point *)
  hkdf_sha256 : string → string → string → string;     (* salt, key material, info *)
  xchacha_encrypt : string → string → string → string → option string;  (* key, nonce, aad, text *)
  xchacha_decrypt : string → string → string → string → option string;
  gcm_encrypt : string → string → string → string → option string;
  gcm_decrypt : string → string → string → string → option string;
  hex_decode_bytes : string → option string;
  envelope_write : Envelope → option string;
  envelope_read : string → option Envelope;
  sealed_write : SealedTask → option string;
  sealed_read : string → option SealedTask;
}.

(** * Keys *)

Definition DECRYPTION_FAILED : string := "decryption failed".
Definition FORMAT : string := String (ascii_of_N 1) "".
Definition XNONCE_LEN : nat := 24.
Definition GCM_NONCE_LEN : nat := 12.
Definition TAG_LEN : nat := 16.
Definition POINT_LEN : nat := 65.

Inductive Sealed := SealTask | SealOutcome.
Definition seal_label (w : Sealed) : string := match w with SealTask => "task" | SealOutcome => "outcome" end.
Definition sealed_aad (what : Sealed) (task : string) : string :=
  "outlayer-task:v1:" +:+ seal_label what +:+ ":" +:+ task.

Inductive Purpose := DeviceCopy | AnswerTo | RejectionOf | NoteTo.
Definition purpose_info (p : Purpose) (task : string) : string :=
  match p with
  | DeviceCopy => "outlayer-task:v1:device-copy:"
  | AnswerTo => "outlayer-task:v1:answer:"
  | RejectionOf => "outlayer-task:v1:rejection:"
  | NoteTo => "outlayer-task:v1:note:"
  end +:+ task.

(** The least of the [2 ^ depth] numbers from [n] on with [f n = Some _].  [0u32..] past
    its last number panics or starts over, as the build checks overflow; both are [None]
    here, and a run that meets it stops. *)
Fixpoint find_from {A} (f : Z → option A) (depth : nat) (n : Z) : option A :=
  match depth with
  | O => f n
  | S depth =>
    match find_from f depth n with Some a => Some a | None => find_from f depth (n + 2 ^ Z.of_nat depth) end
  end.
(** [u32::to_be_bytes]. *)
Definition be_bytes4 (n : Z) : string :=
  String (ascii_of_N (Z.to_N (n / 16777216 mod 256))) (String (ascii_of_N (Z.to_N (n / 65536 mod 256)))
    (String (ascii_of_N (Z.to_N (n / 256 mod 256))) (String (ascii_of_N (Z.to_N (n mod 256))) ""))).

Record TaskKeys := mkKeys { seal_key : string; reply_secret : string }.

Definition split_blob (head tail : nat) (blob : string) : option (string * string) :=
  if (String.length blob <? 1 + head + tail)%nat || negb (starts_with blob FORMAT) then None
  else Some (str_take head (str_drop 1 blob), str_drop head (str_drop 1 blob)).

Section keys.
Context `{TaskCrypto}.

(** [None]: no counter gives a scalar, and the host panics. *)
Definition derive (project_key task : string) : option TaskKeys :=
  let task_key := hmac_sha256 project_key ("task:" +:+ task) in
  let seal := hmac_sha256 task_key "seal" in
  reply ← find_from (λ n, let s := hmac_sha256 task_key ("reply:" +:+ be_bytes4 n) in
                          if scalar_ok s then Some s else None) 32 0;
  Some (mkKeys seal reply).

Definition write_pubkey (point : string) : string := "p256:" +:+ b64url_encode point.
Definition reply_pubkey_of (k : TaskKeys) : string := write_pubkey (point_of (reply_secret k)).

(** The nonce is given: it is drawn before. *)
Definition seal_with (k : TaskKeys) (nonce : string) (what : Sealed) (task plaintext : string) : result string string :=
  let? sealed := ok_or (xchacha_encrypt (seal_key k) nonce (sealed_aad what task) plaintext) "sealing failed" in
  ROk (FORMAT +:+ nonce +:+ sealed).
Definition open_sealed (k : TaskKeys) (what : Sealed) (task blob : string) : result string string :=
  match split_blob XNONCE_LEN TAG_LEN blob with
  | None => RErr DECRYPTION_FAILED
  | Some (nonce, sealed) =>
    ok_or (xchacha_decrypt (seal_key k) nonce (sealed_aad what task) sealed) DECRYPTION_FAILED
  end.

Definition file_aad (task : string) (at_ : nat) : string := task +:+ ":file:" +:+ uint_to_string (Z.of_nat at_).
Definition encrypt_under (key nonce aad plaintext : string) : result string string :=
  let? sealed := ok_or (gcm_encrypt key nonce aad plaintext) "encryption failed" in
  ROk (FORMAT +:+ nonce +:+ sealed).
Definition decrypt_under (key aad blob : string) : result string string :=
  match split_blob GCM_NONCE_LEN TAG_LEN blob with
  | None => RErr DECRYPTION_FAILED
  | Some (nonce, sealed) => ok_or (gcm_decrypt key nonce aad sealed) DECRYPTION_FAILED
  end.
Definition decrypt_file (key task : string) (at_ : nat) (blob : string) : result string string :=
  decrypt_under key (file_aad task at_) blob.

Definition ecies_key (shared ephemeral recipient : string) (p : Purpose) (task : string) : string :=
  hkdf_sha256 (ephemeral +:+ recipient) shared (purpose_info p task).
Definition seal_to_with (scalar nonce recipient : string) (p : Purpose) (task plaintext : string) : result string string :=
  let ephemeral := point_of scalar in
  let key := ecies_key (diffie_hellman scalar recipient) ephemeral recipient p task in
  let? sealed := ok_or (gcm_encrypt key nonce "" plaintext) "encryption failed" in
  ROk (FORMAT +:+ ephemeral +:+ nonce +:+ sealed).
Definition open_from (secret : string) (p : Purpose) (task blob : string) : result string string :=
  match split_blob POINT_LEN (GCM_NONCE_LEN + TAG_LEN) blob with
  | None => RErr DECRYPTION_FAILED
  | Some (ephemeral, rest) =>
    let nonce := str_take GCM_NONCE_LEN rest in
    let sealed := str_drop GCM_NONCE_LEN rest in
    if negb (p256_point ephemeral) then RErr DECRYPTION_FAILED else
    let key := ecies_key (diffie_hellman secret ephemeral) ephemeral (point_of secret) p task in
    ok_or (gcm_decrypt key nonce "" sealed) DECRYPTION_FAILED
  end.
Definition open_reply (k : TaskKeys) (p : Purpose) (task blob : string) : result string string :=
  open_from (reply_secret k) p task blob.

Definition hash (bytes : string) : string := hex_lower (sha_256 bytes).
Definition from_bytes (bytes : string) : result Envelope string :=
  let? e := ok_or (envelope_read bytes) "the envelope cannot be read" in
  let? _ := check_kind e in
  ROk e.
End keys.

(** * What a run leaves *)

Definition MAX_LIFE_SECS : Z := 24 * 60 * 60.
Definition MIN_ANSWER_LIFE_SECS : Z := 15 * 60.
Definition MAX_STATE_BYTES : Z := 256 * 1024.
Definition MAX_FILES : Z := 10.
Definition MAX_FILES_BYTES : Z := 6 * 1024 * 1024.
Definition MAX_POLICY_BYTES : Z := 64 * 1024.
Definition MAX_ENVELOPE_BYTES : Z := 256 * 1024.
Definition MAX_SUPPLIED_BYTES : Z := 8 * 1024.
Definition MAX_NOTE_BYTES : Z := 8 * 1024.
Definition MAX_REJECTION_BYTES : Z := 8 * 1024.
Definition MAX_RESULT_BYTES : Z := 16 * 1024.
Definition MAX_OPENS_PER_RUN : Z := 5.
Definition MAX_CALLS_PER_RUN : Z := 100.

Record TaskGrant := mkGrant { grant_key : string; admitted_by_name : bool; vault : option string }.
Record RowGrant := mkRow { rg_owner : string; rg_profile : string; rg_grant : TaskGrant }.

Record Answered := mkAnswered { an_id : string; an_outcome : option string; an_failed : bool }.
Record RefusedTask := mkRefused { rf_id : string; rf_reason : string }.
Record RunReport := mkReport { rep_answered : list Answered; rep_refused : list RefusedTask }.

Definition report_answered (id : string) (r : RunReport) : RunReport :=
  if existsb (λ t, String.eqb (an_id t) id) (rep_answered r) then r
  else mkReport (rep_answered r ++ [mkAnswered id None false]) (rep_refused r).
Definition report_forget (id : string) (r : RunReport) : RunReport :=
  mkReport (filter (λ t, an_id t ≠ id) (rep_answered r)) (rep_refused r).
Definition report_refused (id reason : string) (r : RunReport) : RunReport :=
  if existsb (λ t, String.eqb (rf_id t) id) (rep_refused r) then r
  else mkReport (rep_answered r) (rep_refused r ++ [mkRefused id reason]).
(** The first of the answered tasks with this id takes the outcome. *)
Fixpoint set_outcome (id outcome : string) (failed : bool) (l : list Answered) : option (list Answered) :=
  match l with
  | [] => None
  | t :: l =>
    if String.eqb (an_id t) id then Some (mkAnswered (an_id t) (Some outcome) failed :: l)
    else (t ::.) <$> set_outcome id outcome failed l
  end.
Definition report_reported (id outcome : string) (failed : bool) (r : RunReport) : bool * RunReport :=
  match set_outcome id outcome failed (rep_answered r) with
  | Some l => (true, mkReport l (rep_refused r))
  | None => (false, r)
  end.

(** * The interface's values *)

Inductive Reason :=
| NotDeclared | NoOwner | Relayed | NotGrantedByName | RMuted | RInboxFull | RunLimit | DisplayInvalid | TooLarge
| LifeTooLong | NotFound | NotTheOwner | NotThePreparer | ApprovalInvalid | NoPaymentKey | HashMismatch
| AnswerInvalid | RClosed | RExpired | RVoid | Unreadable | RUnavailable | RInternal.
#[export] Instance reason_eq : EqDecision Reason.
Proof. solve_decision. Defined.

Record TaskError := mkError { reason : Reason; message : string }.

Definition reason_name (r : Reason) : string :=
  match r with
  | NotDeclared => "not-declared" | NoOwner => "no-owner" | Relayed => "relayed"
  | NotGrantedByName => "not-granted-by-name" | RMuted => "muted" | RInboxFull => "inbox-full"
  | RunLimit => "run-limit" | DisplayInvalid => "display-invalid" | TooLarge => "too-large"
  | LifeTooLong => "life-too-long" | NotFound => "not-found" | NotTheOwner => "not-the-owner"
  | NotThePreparer => "not-the-preparer" | ApprovalInvalid => "approval-invalid"
  | NoPaymentKey => "no-payment-key" | HashMismatch => "hash-mismatch" | AnswerInvalid => "answer-invalid"
  | RClosed => "closed" | RExpired => "expired" | RVoid => "void" | Unreadable => "unreadable"
  | RUnavailable => "unavailable" | RInternal => "internal"
  end.

Record WitFile := mkWitFile { wf_name : string; wf_content_type : string; wf_data : string }.
Record Request := mkRequest {
  rq_kind : Kind;
  rq_answer_by : option AnswerBy;
  rq_display : Display;
  rq_files : list WitFile;
  rq_state : string;
  rq_policy : string;
  rq_life_seconds : Z;
}.
Record Opened := mkOpened { op_id : string; op_hash : string; op_thread : string; op_expires_at : Z; op_devices : Z }.
Record Outcome := mkOutcome {
  oc_id : string; oc_kind : Kind; oc_state : State; oc_created_at : Z; oc_expires_at : Z; oc_run : option string;
  oc_result : option string; oc_rejection : option string; oc_failure_reason : option string;
}.
Record Answer := mkAnswer {
  a_id : string; a_thread : string; a_preparer : string; a_kind : Kind; a_operation : string; a_state : string;
  a_files : list WitFile; a_supplied : option string; a_note : option string;
}.

Definition unreadable : TaskError := mkError Unreadable DECRYPTION_FAILED.
Definition notice_takes_no_answer : TaskError :=
  mkError AnswerInvalid "the task is a notice: it takes no answer, and the owner closes it with Got it".
Definition state_name (s : State) : string :=
  match s with
  | Open => "open" | Approved => "approved" | Answering => "answering" | Done => "done" | Failed => "failed"
  | Rejected => "rejected" | Cancelled => "cancelled" | Expired => "expired" | Void => "void"
  end.
Definition not_open (s : State) : TaskError :=
  match s with
  | Open => mkError ApprovalInvalid
      "the task is open and the owner has not approved it; a run carries a task out on the owner's approval only"
  | Approved => mkError RClosed
      "the task is approved: the owner said yes, and the run the platform started for it is the one that acts"
  | Expired => mkError RExpired "the task is past its life"
  | Void => mkError RVoid "the policy changed since the task was made"
  | other => mkError RClosed ("the task is " +:+ state_name other +:+ " and takes no answer")
  end.
Definition store_failed (e : StoreError) : TaskError :=
  match e with
  | Unavailable why => mkError RUnavailable why
  | Refused RefNotFound _ => mkError NotFound "no such task"
  | Refused RefMuted _ => mkError RMuted "the owner muted this agent or this project"
  | Refused RefInboxFull _ => mkError RInboxFull "the owner has as many open tasks as an inbox holds"
  | Refused RefPreparerFull _ => mkError RInboxFull
      "this agent holds as many tasks waiting on this owner as one agent may; one must close before another opens"
  | Refused RefStorageFull _ => mkError RInboxFull
      "the owner's waiting tasks hold as much as an inbox stores; it has room when the owner answers some"
  | Refused RefLifeTooLong _ => mkError LifeTooLong "the task's life is longer than a task may wait"
  | Refused RefClosed (Some s) | Refused RefExpired (Some s) => not_open s
  | Refused RefExpired None => not_open Expired
  | Refused RefClosed None => mkError RClosed "the task takes no answer"
  | Refused RefExists _ => mkError RInternal
      "a task of this id exists already: an earlier run of this call made it, and it is among the caller's tasks"
  | Refused RefInvalidRequest _ => mkError RInternal "the task store refused the request as malformed"
  end.

(** * The run *)

Inductive Conversation := Unanswered | One (thread : string) | Several.
Definition conversation_answered (thread : string) (c : Conversation) : Conversation :=
  match c with
  | Unanswered => One thread
  | One held => if String.eqb held thread then One held else Several
  | Several => Several
  end.

Record Ready := mkReady {
  grant : TaskGrant;
  run : string;
  project_id : string;
  r_build : string;
  operation : option string;
  scope : Scope;
  profile : string;
  others : list RowGrant;
  named_rows : list NamedRow;
  caller : string;
  consent : option Consent;
  recipient : string;
}.
Inductive Access := IsReady (r : Ready) | IsRefused (e : TaskError).

Record Host := mkHost {
  access : Access;
  calls : Z;
  opened : Z;
  held_devices : option (list Device);
  conversation : Conversation;
  report : RunReport;
}.
Definition eta_host (h : Host) : Host :=
  mkHost (access h) (calls h) (opened h) (held_devices h) (conversation h) (report h).
#[export] Instance set_access : Setter access := ltac:(derive_setter eta_host).
#[export] Instance set_calls : Setter calls := ltac:(derive_setter eta_host).
#[export] Instance set_opened : Setter opened := ltac:(derive_setter eta_host).
#[export] Instance set_held_devices : Setter held_devices := ltac:(derive_setter eta_host).
#[export] Instance set_conversation : Setter conversation := ltac:(derive_setter eta_host).
#[export] Instance set_report : Setter report := ltac:(derive_setter eta_host).

(** What was asked of the world, and the answer. *)
Inductive Said :=
| SaidOpen (scope : Scope) (task : NewTask) (answer : result Z StoreError)
| SaidAnswer (scope : Scope) (id run : string) (answer : result unit StoreError)
| SaidKey (account key : string) (answer : result OnChain string)
| SaidNow (now : Z)
| SaidElse.

Record Sys (W : Type) := mkSys { host : Host; world : W; log : list Said }.
Arguments mkSys {W} _ _ _.
Arguments host {W} _.
Arguments world {W} _.
Arguments log {W} _.

(** Why a call gives nothing back: its error, or a panic of the host. *)
Inductive Stop := Err (e : TaskError) | Trap.

Section host.
Context `{TaskCrypto} {W : Type} `{TaskWorld W}.
Abbreviation HM A := (act (Sys W) A Stop).

Definition refuse {A} (r : Reason) (m : string) : HM A := stop (Err (mkError r m)).
Definition on_err {A E F} (f : E → F) (m : act (Sys W) A E) : act (Sys W) A F := λ s,
  let '(r, s) := m s in (map_err f r, s).
Definition ask {A E} (op : act W A E) (note : result A E → Said) : act (Sys W) A E := λ s,
  let '(r, w) := op (world s) in (r, mkSys (host s) w (log s ++ [note r])).
Definition clock {E} : act (Sys W) Z E := λ s,
  let '(n, w) := w_now (world s) in (ROk n, mkSys (host s) w (log s ++ [SaidNow n])).
Definition store {A} (op : act W A StoreError) (note : result A StoreError → Said) : HM A :=
  on_err (λ e, Err (store_failed e)) (ask op note).
Definition random {E} (n : nat) (e : E) : act (Sys W) string E := on_err (λ _, e) (ask (w_random n) (λ _, SaidElse)).
Definition scalar {E} : act (Sys W) string E := λ s,
  let '(x, w) := w_scalar (world s) in (ROk x, mkSys (host s) w (log s ++ [SaidElse])).
Definition chain_key (account key : string) : act (Sys W) OnChain string :=
  ask (w_access_key account key) (SaidKey account key).

Definition get_host {E} : act (Sys W) Host E := λ s, (ROk (host s), s).
Definition change {E} (f : Host → Host) : act (Sys W) unit E := λ s, (ROk tt, mkSys (f (host s)) (world s) (log s)).

Definition unavailable_err (why : string) : Stop := Err (mkError RUnavailable why).
Definition no_nonce : Stop := unavailable_err "the host has no randomness for a nonce".

(** One call of the interface, counted; and the run's facts. *)
Definition count : HM unit :=
  let^ h := get_host in
  let calls' := saturating_add 32 (calls h) 1 in
  let^ _ := change (λ h, h <| calls := calls' |>) in
  if MAX_CALLS_PER_RUN <? calls'
  then refuse RunLimit ("this run made more than " +:+ uint_to_string MAX_CALLS_PER_RUN +:+
                        " calls of the task interface")
  else give tt.
Definition ready : HM Ready :=
  let^ h := get_host in
  match access h with IsReady r => give r | IsRefused e => stop (Err e) end.
Definition enter : HM Ready := let^ _ := count in ready.

Definition an_id_ok (id : string) : HM unit := if is_id id then give tt else refuse NotFound "no such task".

Definition is_the_owners (r : Ready) : bool := String.eqb (caller r) (scope_owner (scope r)).
Definition the_owners (r : Ready) (what : string) : HM unit :=
  if is_the_owners r then give tt
  else refuse NotTheOwner (what +:+ " is the owner's: this run was made by another account").

Definition keys_of (r : Ready) (task : string) : option TaskKeys := derive (grant_key (grant r)) task.
Definition keys (r : Ready) (task : string) : HM TaskKeys :=
  match keys_of r task with Some k => give k | None => stop Trap end.

(** ** Devices *)

Definition read_devices (r : Ready) : HM (list Device) :=
  let owner := scope_owner (scope r) in
  let^ statements := store (w_devices owner) (λ _, SaidElse) in
  let^ now := clock in
  on_err unavailable_err (devices_in_force chain_key statements owner now (recipient r)).
Definition devices_of_the_run (r : Ready) : HM (list Device) :=
  let^ h := get_host in
  match held_devices h with
  | Some devices => give devices
  | None =>
    let^ devices := read_devices r in
    let^ _ := change (λ h, h <| held_devices := Some devices |>) in
    give devices
  end.

(** ** Sealing *)

Definition seal (k : TaskKeys) (what : Sealed) (task plaintext : string) : HM string :=
  let^ nonce := random XNONCE_LEN no_nonce in
  lift (map_err unavailable_err (seal_with k nonce what task plaintext)).
Definition encrypt (key aad plaintext : string) : HM string :=
  let^ nonce := random GCM_NONCE_LEN no_nonce in
  lift (map_err unavailable_err (encrypt_under key nonce aad plaintext)).
Definition seal_to (recipient : string) (p : Purpose) (task plaintext : string) : HM string :=
  let^ s := scalar in
  let^ nonce := random GCM_NONCE_LEN no_nonce in
  lift (map_err unavailable_err (seal_to_with s nonce recipient p task plaintext)).

Fixpoint copies_for (id content_key : string) (devices : list Device) : HM (list Copy) :=
  match devices with
  | [] => give []
  | d :: devices =>
    let^ wrapped := seal_to (device_key d) DeviceCopy id content_key in
    let^ rest := copies_for id content_key devices in
    give (mkCopy (device_id d) wrapped :: rest)
  end.
Fixpoint encrypt_files (key id : string) (at_ : nat) (l : list WitFile) : HM (list string) :=
  match l with
  | [] => give []
  | f :: l =>
    let^ blob := encrypt key (file_aad id at_) (wf_data f) in
    let^ rest := encrypt_files key id (S at_) l in
    give (blob :: rest)
  end.

Record Unsealed := mkUnsealed {
  u_envelope : Envelope;
  u_hash : string;
  u_state : string;
  u_content_key : string;
  u_consent : option Consent;
}.
Definition unseal_with (k : TaskKeys) (scope : Scope) (id sealed : string) : result Unsealed TaskError :=
  let? plain := map_err (λ _, unreadable) (open_sealed k SealTask id sealed) in
  let? task := ok_or (sealed_read plain) unreadable in
  let? envelope := map_err (λ _, unreadable) (from_bytes (sealed_envelope task)) in
  let? state := ok_or (b64_decode (sealed_state task)) unreadable in
  let? content_key := ok_or (key ← hex_decode_bytes (sealed_content_key task); sized 32 key) unreadable in
  if String.eqb (env_id envelope) id && String.eqb (env_owner envelope) (scope_owner scope) &&
     String.eqb (env_project_uuid envelope) (scope_project_uuid scope) &&
     (version envelope =? ENVELOPE_VERSION) &&
     String.eqb (hash state) (state_hash envelope) &&
     Bool.eqb (takes_an_answer (kind envelope)) (bool_decide (is_Some (sealed_consent task)))
  then ROk (mkUnsealed envelope (hash (sealed_envelope task)) state content_key (sealed_consent task))
  else RErr unreadable.
Definition unseal (r : Ready) (id sealed : string) : HM Unsealed :=
  let^ k := keys r id in
  lift (map_err Err (unseal_with k (scope r) id sealed)).

(** ** Opening a task *)

Definition one_of_kind (request : Request) : result unit string :=
  match rq_kind request, rq_answer_by request with
  | Notice, None => ROk tt
  | Notice, Some _ => RErr "a notice takes no answer, and names no operation to answer by"
  | _, None => RErr "a task that takes an answer names the operation that carries it out"
  | Confirm, Some by_ =>
    if bool_decide (supplies by_ = SuppliesNothing) then ROk tt else
    RErr "a confirm task takes a yes, and supplies nothing: ask for text or a file with an input task"
  | Input, Some by_ =>
    if bool_decide (supplies by_ = SuppliesNothing)
    then RErr "an input task asks for text or a file: a task that takes only a yes is a confirm task" else ROk tt
  end.

Definition life_of (request : Request) : result Z TaskError :=
  let life := rq_life_seconds request in
  if life =? 0 then ROk MAX_LIFE_SECS else
  if MAX_LIFE_SECS <? life then
    RErr (mkError LifeTooLong ("a life of " +:+ uint_to_string life +:+ " seconds was asked; a task waits " +:+
                               uint_to_string MAX_LIFE_SECS +:+ " at most"))
  else if (life <? MIN_ANSWER_LIFE_SECS) && takes_an_answer (rq_kind request) then
    RErr (mkError DisplayInvalid ("a life of " +:+ uint_to_string life +:+
      " seconds was asked; a task that takes an answer waits " +:+ uint_to_string MIN_ANSWER_LIFE_SECS +:+
      " at least, so its owner has time to answer"))
  else ROk life.

Definition bytes_bound (what kept : string) (n most : Z) : result unit TaskError :=
  if most <? n then
    RErr (mkError TooLarge (what +:+ " is " +:+ uint_to_string n +:+ " bytes; at most " +:+ uint_to_string most +:+
                            " are " +:+ kept))
  else ROk tt.

(** The request's bounds, in the order the host judges them; its life on success. *)
Definition check_request (request : Request) : result Z TaskError :=
  let? _ := bytes_bound "state" "sealed" (str_len (rq_state request)) MAX_STATE_BYTES in
  let? _ := bytes_bound "policy" "hashed" (str_len (rq_policy request)) MAX_POLICY_BYTES in
  let? life := life_of request in
  let n := Z.of_nat (length (rq_files request)) in
  let? _ := if MAX_FILES <? n then RErr (mkError TooLarge (uint_to_string n +:+ " files; a task carries at most " +:+
                                                           uint_to_string MAX_FILES)) else ROk tt in
  let files_bytes := foldr (λ f acc, str_len (wf_data f) + acc) 0 (rq_files request) in
  let? _ := if MAX_FILES_BYTES <? files_bytes
            then RErr (mkError TooLarge ("the files are " +:+ uint_to_string files_bytes +:+
              " bytes together; a task carries at most " +:+ uint_to_string MAX_FILES_BYTES)) else ROk tt in
  let invalid := map_err (mkError DisplayInvalid) in
  let? _ := invalid (check_files (map (λ f, (wf_name f, wf_content_type f)) (rq_files request))) in
  let? _ := match rq_answer_by request with
            | Some by_ => invalid (check_operation (ab_operation by_))
            | None => ROk tt
            end in
  let? _ := invalid (check_display (rq_display request)) in
  ROk life.

Definition envelope_of (r : Ready) (k : TaskKeys) (request : Request) (id thread : string) (now life : Z) : Envelope :=
  mkEnvelope (rq_answer_by request) (r_build r) now (rq_display request) (now + life)
    (map (λ f, mkFileNote (wf_content_type f) (wf_name f) (hash (wf_data f)) (str_len (wf_data f))) (rq_files request))
    id (rq_kind request) (scope_owner (scope r)) (hash (rq_policy request)) (caller r) (profile r) (project_id r)
    (scope_project_uuid (scope r))
    (if takes_an_answer (rq_kind request) then Some (reply_pubkey_of k) else None)
    (hash (rq_state request)) thread ENVELOPE_VERSION.

Definition voucher_of (r : Ready) (consent : option Consent) (e : Envelope) : option Voucher :=
  match consent, answer_by e with
  | Some c, Some by_ =>
    Some (mkVoucher (payment_key_nonce c) (wallet c) (bound_identity c) (compute_limit_usd c) (ab_operation by_)
            (build e) (named_rows r))
  | _, _ => None
  end.

(** Everything up to the store: the row's grant, the limits, the request's bounds, the
    devices, and the task written, encrypted and sealed.  The task, its document and the
    run's facts. *)
Definition prepare_open (opened0 : Z) (conversation0 : Conversation) (request : Request)
    : HM (Ready * NewTask * Envelope * string) :=
  let^ _ := count in
  let^ r := ready in
  let^ _ := if negb (is_the_owners r) && negb (admitted_by_name (grant r))
            then refuse NotGrantedByName
              "the owner's secret row admitted this run by a rule that names no account; a task is left only by an account the owner granted by name"
            else give tt in
  let^ _ := if MAX_OPENS_PER_RUN <=? opened0
            then refuse RunLimit ("this run opened " +:+ uint_to_string opened0 +:+ " tasks, as many as one run may")
            else give tt in
  let^ _ := lift (map_err (λ why, Err (mkError DisplayInvalid why)) (one_of_kind request)) in
  let^ consent :=
    match takes_an_answer (rq_kind request), consent r with
    | false, _ => give None
    | true, Some consent => give (Some consent)
    | true, None => refuse NoPaymentKey
        "the consent to carry out the owner's answer is a payment key — the run that carries it out is paid by that key — so a task that takes an answer is opened over HTTPS with one"
    end in
  let id := run r +:+ "-" +:+ uint_to_string opened0 in
  let^ thread :=
    match conversation0 with
    | Unanswered => give id
    | One thread => give thread
    | Several => refuse RInternal
        "this run answered tasks of more than one conversation, so a task it opens belongs to none"
    end in
  let^ life := lift (map_err Err (check_request request)) in
  let^ devices := devices_of_the_run r in
  let^ k := keys r id in
  let^ now := clock in
  let task := envelope_of r k request id thread (Z.max 0 now) life in
  let^ document := lift (ok_or (envelope_write task) (unavailable_err "the envelope could not be written")) in
  let^ _ := lift (map_err Err (bytes_bound "the task" "stored" (str_len document) MAX_ENVELOPE_BYTES)) in
  let^ content_key := random 32 (unavailable_err "the host has no randomness for a key") in
  let^ content := encrypt content_key id document in
  let^ files := encrypt_files content_key id 0 (rq_files request) in
  let^ copies := copies_for id content_key devices in
  let voucher := voucher_of r consent task in
  let^ _ := if utf8_valid (str_bytes document) then give tt else stop (unavailable_err "the task is not text") in
  let sealed_task := mkSealed (hex_lower content_key) document (b64_encode (rq_state request)) consent in
  let^ plain := lift (ok_or (sealed_write sealed_task) (unavailable_err "the task could not be written")) in
  let^ sealed := seal k SealTask id plain in
  let new := mkNewTask id (project_id r) (caller r) voucher (profile r) (vault (grant r)) (rq_kind request)
    (expires_at task) (reply_pubkey task) sealed content files copies in
  give (r, new, task, document).

Definition open_as (request : Request) (another_owner : bool) : HM Opened :=
  let^ h := get_host in
  let^ '(r, new, task, document) :=
    prepare_open (opened h) (if another_owner then Unanswered else conversation h) request in
  λ s,
    let '(stored, s) := store (w_open (scope r) new) (SaidOpen (scope r) new) s in
    (let^ _ := change (λ h, h <| opened := saturating_add 32 (opened h) 1 |>) in
     let^ written := lift stored in
     give (mkOpened (nt_id new) (hash document) (thread task) (expires_at task) (Z.min written U32_MAX))) s.

(** ** The other rows *)

Definition swap_row (at_ : nat) (h : Host) : Host :=
  match access h with
  | IsRefused _ => h
  | IsReady r =>
    match others r !! at_ with
    | None => h
    | Some row =>
      let others' := <[at_ := mkRow (scope_owner (scope r)) (profile r) (grant r)]> (others r) in
      h <| access := IsReady (mkReady (rg_grant row) (run r) (project_id r) (r_build r) (operation r)
             (mkScope (scope_project_uuid (scope r)) (rg_owner row)) (rg_profile row) others' (named_rows r)
             (caller r) (consent r) (recipient r)) |>
    end
  end.

(** The other row [at_] is the run's row for the length of [f]. *)
Definition with_row {A} (at_ : option nat) (f : HM A) : HM A :=
  match at_ with
  | None => f
  | Some i => λ s,
    let devices := held_devices (host s) in
    let '(answer, s) := f (mkSys ((swap_row i (host s)) <| held_devices := None |>) (world s) (log s)) in
    (answer, mkSys (swap_row i ((host s) <| held_devices := devices |>)) (world s) (log s))
  end.

Definition other_rows (h : Host) : nat :=
  match access h with IsReady r => length (others r) | IsRefused _ => 0 end.

Definition is_not_found {A} (answer : result A Stop) : bool :=
  match answer with RErr (Err e) => bool_decide (reason e = NotFound) | _ => false end.

(** [f] under the other rows from [at_] on, as long as the answer is [not-found]. *)
Fixpoint while_not_found {A} (f : HM A) (rows : list nat) (answer : result A Stop) : HM A :=
  match rows with
  | [] => lift answer
  | at_ :: rows =>
    if is_not_found answer then
      λ s, let '(answer, s) := with_row (Some at_) f s in while_not_found f rows answer s
    else lift answer
  end.
Definition under_any_row {A} (f : HM A) : HM A := λ s,
  let rows := seq 0 (other_rows (host s)) in
  let '(answer, s) := with_row None f s in
  while_not_found f rows answer s.

Fixpoint row_index (owner : string) (l : list RowGrant) : option nat :=
  match l with
  | [] => None
  | row :: l => if String.eqb (rg_owner row) owner then Some 0%nat else S <$> row_index owner l
  end.
Definition row_of (owner what : string) : HM (option nat) :=
  let^ r := ready in
  if String.eqb (scope_owner (scope r)) owner then give None else
  match row_index owner (others r) with
  | Some at_ => give (Some at_)
  | None => refuse NotGrantedByName
      (owner +:+ " owns none of the secret rows this run named: " +:+ what +:+
       " is for the owner of a row the call named and the keystore opened")
  end.

(** ** The interface *)

Definition open_for (owner : string) (request : Request) : HM Opened := λ s,
  match row_of owner "a task" s with
  | (RErr e, s) => (let^ _ := count in stop e) s
  | (ROk at_, s) => with_row at_ (open_as request (bool_decide (is_Some at_))) s
  end.
Definition open (request : Request) : HM Opened := open_as request false.

(** *** Outcomes *)

Definition reason_given (k : TaskKeys) (id sealed : string) : result (option string) TaskError :=
  if MAX_REJECTION_BYTES <? str_len sealed then ROk None else
  let? opened := map_err (λ _, unreadable) (open_reply k RejectionOf id sealed) in
  let? reason := if utf8_valid (str_bytes opened) then ROk opened else RErr unreadable in
  ROk (if (str_len reason <=? MAX_REJECTION_BYTES) &&
          match check_long_text "the reason" reason with ROk _ => true | RErr _ => false end
       then Some reason else None).

Definition opened_outcome (k : TaskKeys) (task : Prepared) : result (option string * option string) TaskError :=
  let? result := match pr_outcome task with
                 | Some sealed => let? r := map_err (λ _, unreadable) (open_sealed k SealOutcome (pr_id task) sealed) in
                                  ROk (Some r)
                 | None => ROk None
                 end in
  let? rejection := match pr_rejection task with
                    | Some sealed => reason_given k (pr_id task) sealed
                    | None => ROk None
                    end in
  ROk (result, rejection).

Inductive Asked := TheList | ThisTask.
Definition outcome (r : Ready) (task : Prepared) (asked : Asked) : HM Outcome :=
  let^ k := keys r (pr_id task) in
  let^ '(result, rejection) :=
    match opened_outcome k task, asked with
    | ROk opened, _ => give opened
    | RErr refusal, ThisTask => stop (Err refusal)
    | RErr _, TheList => give (None, None)
    end in
  give (mkOutcome (pr_id task) (pr_kind task) (pr_state task) (Z.max 0 (pr_created_at task))
          (Z.max 0 (pr_expires_at task)) (pr_run task) result rejection (pr_failure_reason task)).

Fixpoint outcomes (r : Ready) (l : list Prepared) : HM (list Outcome) :=
  match l with
  | [] => give []
  | t :: l => let^ o := outcome r t TheList in let^ rest := outcomes r l in give (o :: rest)
  end.
Definition mine_here : HM (list Outcome) :=
  let^ r := ready in
  let^ tasks := store (w_mine (scope r) (caller r) None) (λ _, SaidElse) in
  outcomes r tasks.
Fixpoint mine_rows (rows : list (option nat)) : HM (list Outcome) :=
  match rows with
  | [] => give []
  | at_ :: rows =>
    let^ here := with_row at_ mine_here in
    let^ rest := mine_rows rows in
    give (here ++ rest)
  end.
Definition mine : HM (list Outcome) :=
  let^ _ := enter in
  let^ h := get_host in
  mine_rows (None :: map Some (seq 0 (other_rows h))).

Definition status (id : string) : HM Outcome :=
  let^ _ := enter in
  let^ _ := an_id_ok id in
  under_any_row (
    let^ r := ready in
    let^ tasks := store (w_mine (scope r) (caller r) (Some id)) (λ _, SaidElse) in
    match tasks with
    | [] => refuse NotFound "no such task"
    | [task] => if String.eqb (pr_id task) id then outcome r task ThisTask
                else refuse RInternal "the task store answered with other tasks than the one asked"
    | _ => refuse RInternal "the task store answered with other tasks than the one asked"
    end).

Definition cancel (id : string) : HM unit :=
  let^ _ := enter in
  let^ _ := an_id_ok id in
  under_any_row (let^ r := ready in store (w_cancel (scope r) (caller r) id) (λ _, SaidElse)).
Definition delete (id : string) : HM unit :=
  let^ _ := enter in
  let^ _ := an_id_ok id in
  under_any_row (let^ r := ready in store (w_delete (scope r) (caller r) id) (λ _, SaidElse)).

(** *** The answer *)

(** Why an approved task was not taken: the host refused the run before anything moved,
    the store did not move the task, or the host panicked. *)
Inductive Untaken := URefused (e : TaskError) | UNotMoved (e : TaskError) | UTrap.
Abbreviation UM A := (act (Sys W) A Untaken).
Definition before {A} (r : result A TaskError) : UM A := lift (map_err URefused r).
Definition unless {A} (b : bool) (e : TaskError) (k : UM A) : UM A := if b then stop (URefused e) else k.

Definition not_the_preparer (which : string) : TaskError :=
  mkError NotThePreparer
    ("the task is carried out by the run of the agent that prepared it, and this run is " +:+ which).

Definition open_supplied (k : TaskKeys) (id : string) (asks : Supplies) (supplied : option string)
    : result (option string) TaskError :=
  match asks, supplied with
  | SuppliesNothing, None => ROk None
  | SuppliesNothing, Some _ =>
    RErr (mkError AnswerInvalid "the task asks for nothing, and the answer supplies something")
  | _, None => RErr (mkError AnswerInvalid "the task asks for something, and the answer supplies nothing")
  | _, Some sealed =>
    if MAX_SUPPLIED_BYTES <? str_len sealed
    then RErr (mkError AnswerInvalid "what the answer supplies is over its bound") else
    let? opened := map_err (λ _, mkError AnswerInvalid "what the answer supplies does not open for this task")
                     (open_reply k AnswerTo id sealed) in
    ROk (Some opened)
  end.
Definition open_note (k : TaskKeys) (id : string) (note : option string) : result (option string) TaskError :=
  match note with
  | None => ROk None
  | Some sealed =>
    if MAX_NOTE_BYTES <? str_len sealed then RErr (mkError AnswerInvalid "the note is over its bound") else
    let? opened := map_err (λ _, mkError AnswerInvalid "the note does not open for this task")
                     (open_reply k NoteTo id sealed) in
    let? text := if utf8_valid (str_bytes opened) then ROk opened
                 else RErr (mkError AnswerInvalid "the note is not text") in
    let? _ := map_err (mkError AnswerInvalid) (check_long_text "the note" text) in
    ROk (Some text)
  end.
Fixpoint open_files (content_key id : string) (at_ : nat) (notes : list FileNote) (blobs : list string)
    : result (list WitFile) TaskError :=
  match notes, blobs with
  | note :: notes, blob :: blobs =>
    let? data := map_err (λ _, unreadable) (decrypt_file content_key id at_ blob) in
    if String.eqb (hash data) (file_sha256 note) && (str_len data =? file_size note) then
      let? rest := open_files content_key id (S at_) notes blobs in
      ROk (mkWitFile (file_name note) (content_type note) data :: rest)
    else RErr unreadable
  | _, _ => ROk []
  end.

Definition void_reason (unchanged : bool) : string :=
  if unchanged then "the task was made by another build of this project than the one running"
  else "the policy changed since the task was made".

Definition approval_error (why : ApprovalRefused) : Untaken :=
  URefused match why with
           | Invalid why => mkError ApprovalInvalid why
           | ChainUnavailable why => mkError RUnavailable why
           end.

(** Every refusal before anything moves; the answer to hand over when there is none. *)
Definition judge_approved (r : Ready) (id hash_ operation_ policy : string) (approval : Approval)
    (supplied note : option string) (stored : Stored) : UM Answer :=
  let^ sealed := before (ok_or (sd_sealed stored) unreadable) in
  let^ k := match keys_of r id with Some k => give k | None => stop UTrap end in
  let^ task := before (unseal_with k (scope r) id sealed) in
  let e := u_envelope task in
  let^ now := clock in
  unless (expires_at e <=? (if now <? 0 then U64_MAX else now)) (not_open Expired) (
  unless (negb (eq_ignore_ascii_case hash_ (u_hash task)))
    (mkError HashMismatch "the hash named is not this task's: what was shown is not what is stored") (
  unless (is_some_and (λ running, negb (String.eqb running operation_)) (operation r))
    (mkError AnswerInvalid "the operation named is not the one this call runs") (
  let^ by_ := before (ok_or (answer_by e) notice_takes_no_answer) in
  unless (negb (String.eqb operation_ (ab_operation by_)))
    (mkError AnswerInvalid "the task is answered by another operation of this project than the one running") (
  unless (negb (String.eqb (env_profile e) (profile r)))
    (mkError NotFound "the task was made for another secret row of this owner than the one this call names") (
  unless (negb (String.eqb (caller r) (preparer e))) (not_the_preparer "another account's") (
  let^ own := before (ok_or (consent r) (not_the_preparer "made with no payment key")) in
  let^ consented := before (ok_or (u_consent task) notice_takes_no_answer) in
  let^ _ := before (match refuses consented own with
                    | Some differs => RErr (not_the_preparer ("on " +:+ differs))
                    | None => ROk tt
                    end) in
  let unchanged := String.eqb (hash policy) (policy_hash e) in
  let same_build := String.eqb (build e) (r_build r) in
  let^ _ :=
    if negb unchanged || negb same_build then
      λ s, let '(_, s) := ask (w_void (scope r) id) (λ _, SaidElse) s in
           (RErr (URefused (mkError RVoid ("the task takes no answer: " +:+ void_reason unchanged))), s)
    else give tt in
  let^ _ := on_err approval_error (approval_holds chain_key approval (env_owner e) id (u_hash task) supplied note
              now (expires_at e) (recipient r)) in
  let^ supplied := before (open_supplied k id (supplies by_) supplied) in
  let^ note := before (open_note k id note) in
  unless (negb (length (sd_files stored) =? length (files e))%nat) unreadable (
  let^ opened_files := before (open_files (u_content_key task) id 0 (files e) (sd_files stored)) in
  give (mkAnswer id (thread e) (preparer e) (kind e) (ab_operation by_) (u_state task) opened_files supplied note)))))))).

(** The task is recorded as answered, and the store asked to move it to this run. *)
Definition move_to_run (r : Ready) (id : string) : UM unit :=
  let^ _ := change (λ h, h <| report := report_answered id (report h) |>) in
  λ s,
    let '(answer, s) := ask (w_answer (scope r) id (run r)) (SaidAnswer (scope r) id (run r)) s in
    match answer with
    | ROk _ => (ROk tt, s)
    | RErr failed =>
      (let^ _ := match failed with
                 | Refused _ _ => change (λ h, h <| report := report_forget id (report h) |>)
                 | Unavailable _ => give tt
                 end in
       stop (UNotMoved (store_failed failed))) s
    end.
Definition take_approved (r : Ready) (id hash_ operation_ policy : string) (approval : Approval)
    (supplied note : option string) (stored : Stored) : UM Answer :=
  let^ answer := judge_approved r id hash_ operation_ policy approval supplied note stored in
  let^ _ := move_to_run r id in
  give answer.

Definition answered (id hash_ operation_ policy : string) (approval : Approval) (supplied note : option string)
    : HM Answer :=
  let^ r := enter in
  let^ _ := an_id_ok id in
  let^ _ := if MAX_POLICY_BYTES <? str_len policy then refuse TooLarge "policy is over its bound" else give tt in
  let^ stored := store (w_get (scope r) id) (λ _, SaidElse) in
  let^ _ := if negb (String.eqb (sd_id stored) id) then stop (Err unreadable) else give tt in
  let^ _ := if bool_decide (sd_kind stored = Notice) then stop (Err notice_takes_no_answer) else give tt in
  let^ _ := if negb (bool_decide (sd_state stored = Approved)) then stop (Err (not_open (sd_state stored)))
            else give tt in
  λ s,
    match take_approved r id hash_ operation_ policy approval supplied note stored s with
    | (ROk answer, s) =>
      (let^ _ := change (λ h, h <| conversation := conversation_answered (a_thread answer) (conversation h) |>) in
       give answer) s
    | (RErr (URefused refusal), s) =>
      (let^ _ := change (λ h, h <| report := report_refused id (reason_name (reason refusal)) (report h) |>) in
       stop (Err refusal)) s
    | (RErr (UNotMoved refusal), s) => (RErr (Err refusal), s)
    | (RErr UTrap, s) => (RErr Trap, s)
    end.

(** *** Reports *)

Definition leave (id result : string) (failed : bool) : HM unit :=
  let^ r := enter in
  let^ _ := an_id_ok id in
  let^ _ := if MAX_RESULT_BYTES <? str_len result
            then refuse TooLarge ("the result is " +:+ uint_to_string (str_len result) +:+ " bytes; at most " +:+
                                  uint_to_string MAX_RESULT_BYTES +:+ " are kept")
            else give tt in
  let^ k := keys r id in
  let^ sealed := seal k SealOutcome id result in
  λ s,
    match report_reported id sealed failed (report (host s)) with
    | (true, rep) => change (λ h, h <| report := rep |>) s
    | (false, _) => refuse NotFound "this run answered no such task" s
    end.
Definition report_ (id result : string) : HM unit := leave id result false.
Definition report_failure (id result : string) : HM unit := leave id result true.

(** *** Devices signed in later *)

Fixpoint open_waiting (r : Ready) (devices : list Device) (rows : list Stored) : HM (list (string * list Copy)) :=
  match rows with
  | [] => give []
  | row :: rows =>
    match sd_sealed row with
    | None => open_waiting r devices rows
    | Some sealed =>
      let^ k := keys r (sd_id row) in
      match unseal_with k (scope r) (sd_id row) sealed with
      | RErr _ => open_waiting r devices rows
      | ROk task =>
        let^ now := clock in
        if expires_at (u_envelope task) <=? (if now <? 0 then U64_MAX else now) then open_waiting r devices rows else
        let^ copies := copies_for (sd_id row) (u_content_key task) devices in
        let^ rest := open_waiting r devices rows in
        give ((sd_id row, copies) :: rest)
      end
    end
  end.
Definition unlock : HM Z :=
  let^ _ := count in
  let^ r := ready in
  let^ _ := the_owners r "opening tasks for a device" in
  let^ devices := devices_of_the_run r in
  let^ stored := store (w_waiting (scope r)) (λ _, SaidElse) in
  let^ copies := open_waiting r devices stored in
  let^ written :=
    match devices, copies with
    | [], _ | _, [] => give (mkWritten 0 0)
    | _, _ => store (w_copies (scope r) copies) (λ _, SaidElse)
    end in
  give (Z.min (w_tasks_written written) U32_MAX).
End host.

(** * The start of a run *)

Record TasksRun := mkRun {
  tr_declared : bool;
  tr_grant : option TaskGrant;
  tr_run : string;
  tr_project_id : option string;
  tr_project_uuid : option string;
  tr_build : option string;
  tr_owner : option string;
  tr_profile : option string;
  tr_other_rows : list RowGrant;
  tr_operation : option string;
  tr_caller : option string;
  tr_predecessor : option string;
  tr_payment_key_nonce : option Z;
  tr_wallet_id : option string;
  tr_bound_identity : bool;
  tr_compute_limit_usd : option string;
  tr_store : bool;                 (* a store is configured *)
  tr_chain : option string;        (* the recipient of the configured chain *)
}.

Definition run_id (call_id : option string) (request_id : Z) : string :=
  match call_id with
  | Some call => if is_id call then call else "req-" +:+ uint_to_string request_id
  | None => "req-" +:+ uint_to_string request_id
  end.

(** The run's consent: its payment key, wallet, identity and compute limit. *)
Definition consent_of (t : TasksRun) : option Consent :=
  nonce ← tr_payment_key_nonce t; limit ← tr_compute_limit_usd t;
  Some (mkConsent nonce (tr_wallet_id t) (tr_bound_identity t) limit).
Definition rows_named (t : TasksRun) (owner profile : string) : list NamedRow :=
  match tr_other_rows t with
  | [] => []
  | rows => mkNamedRow owner profile :: map (λ row, mkNamedRow (rg_owner row) (rg_profile row)) rows
  end.

(** [store_client] and [chain_client] say whether the HTTP clients could be made. *)
Definition access_of (store_client chain_client : bool) (t : TasksRun) : Access :=
  let no_owner why := IsRefused (mkError NoOwner why) in
  match tr_project_id t, tr_project_uuid t with
  | Some project_id, Some project_uuid =>
    match tr_build t ≫= λ h, if (str_len h =? 64) && forall_bytes is_ascii_hexdigit h then Some h else None with
    | None => IsRefused (mkError RInternal
        "this run does not name the build it is of, and a task names the build that made it")
    | Some build =>
      match tr_owner t, tr_profile t with
      | Some owner, Some profile =>
        match tr_grant t with
        | None => no_owner "the secret row this run names was not opened, so it has no owner to address a task to"
        | Some grant =>
          match tr_caller t with
          | None => no_owner "this run has no caller, and a task is made and answered by an account"
          | Some caller =>
            match tr_predecessor t with
            | None => IsRefused (mkError Relayed
                "this run does not say which account called OutLayer, so it cannot be told from a relayed one")
            | Some called =>
              if negb (String.eqb called caller) then
                IsRefused (mkError Relayed ("this run was signed by " +:+ caller +:+ " and called by " +:+ called +:+
                  ": tasks are used by the account that calls OutLayer itself — directly or through a meta-transaction it signed — not through a contract"))
              else
                match tr_store t, tr_chain t with
                | true, Some recipient =>
                  if negb store_client then IsRefused (mkError RUnavailable "the task store cannot be reached") else
                  if negb chain_client then IsRefused (mkError RUnavailable "the chain cannot be reached") else
                  IsReady (mkReady grant (tr_run t) project_id build (tr_operation t) (mkScope project_uuid owner)
                    profile (tr_other_rows t) (rows_named t owner profile) caller (consent_of t) recipient)
                | _, _ => IsRefused (mkError RUnavailable "this worker has no task store configured")
                end
            end
          end
        end
      | _, _ => no_owner "this run names no secret row, so it has no owner to address a task to"
      end
    end
  | _, _ => no_owner "this run does not go through a project, and a task belongs to one"
  end.

Definition new_host (store_client chain_client : bool) (t : option TasksRun) : Host :=
  let access :=
    match t with
    | Some t => if tr_declared t then access_of store_client chain_client t else
        IsRefused (mkError NotDeclared ("this component's manifest does not declare tasks: add " +:+ quote +:+
                                        "tasks" +:+ quote +:+ ": true"))
    | None => IsRefused (mkError NotDeclared ("this component's manifest does not declare tasks: add " +:+ quote +:+
                                              "tasks" +:+ quote +:+ ": true"))
    end in
  mkHost access 0 0 None Unanswered (mkReport [] []).

(** * Calls of the interface *)

Inductive TaskCall :=
| CallOpen (request : Request)
| CallOpenFor (owner : string) (request : Request)
| CallMine
| CallStatus (id : string)
| CallAnswered (id hash operation policy : string) (approval : Approval) (supplied note : option string)
| CallReport (id result : string)
| CallReportFailure (id result : string)
| CallCancel (id : string)
| CallDelete (id : string)
| CallUnlock.

Section calls.
Context `{TaskCrypto} {W : Type} `{TaskWorld W}.

Definition after_call {A} (m : act (Sys W) A Stop) (s : Sys W) : Sys W := (m s).2.
Definition step_call (s : Sys W) (c : TaskCall) : Sys W :=
  match c with
  | CallOpen request => after_call (open request) s
  | CallOpenFor owner request => after_call (open_for owner request) s
  | CallMine => after_call mine s
  | CallStatus id => after_call (status id) s
  | CallAnswered id hash operation policy approval supplied note =>
    after_call (answered id hash operation policy approval supplied note) s
  | CallReport id result => after_call (report_ id result) s
  | CallReportFailure id result => after_call (report_failure id result) s
  | CallCancel id => after_call (cancel id) s
  | CallDelete id => after_call (delete id) s
  | CallUnlock => after_call unlock s
  end.
Definition run_calls (s : Sys W) (cs : list TaskCall) : Sys W := foldl step_call s cs.
End calls.
