(* ===== verification/TaskRun.v ===== *)
(** What a run can do with tasks, whatever the store, the chain and the component do:
    the limits, whose tasks are opened, what the run reports, and that a task is taken
    only on the owner's word. *)

From S2P Require Export Tasks.

(** * Relations a computation keeps *)

Section keeps.
Context {W : Type}.
Implicit Types s : Sys W.

Definition keeps {A E} (R : relation (Sys W)) (m : act (Sys W) A E) : Prop := ∀ s, R s (m s).2.

Context (R : relation (Sys W)) `{!PreOrder R}.

Lemma keeps_give {A E} (a : A) : keeps R (give (E := E) a).
Proof. intros s. reflexivity. Qed.
Lemma keeps_stop {A E} (e : E) : keeps R (stop (A := A) e).
Proof. intros s. reflexivity. Qed.
Lemma keeps_lift {A E} (r : result A E) : keeps R (lift r).
Proof. intros s. reflexivity. Qed.
Lemma keeps_get {E} : keeps R (get_host (E := E)).
Proof. intros s. reflexivity. Qed.
Lemma keeps_after {A B E} (m : act (Sys W) A E) (k : A → act (Sys W) B E) :
  keeps R m → (∀ a, keeps R (k a)) → keeps R (after m k).
Proof.
  intros Hm Hk s. specialize (Hm s). unfold after. destruct (m s) as [[a|e] s1]; cbn in *; [|done].
  etrans; [exact Hm | apply Hk].
Qed.
Lemma keeps_on_err {A E F} (f : E → F) (m : act (Sys W) A E) : keeps R m → keeps R (on_err f m).
Proof. intros Hm s. specialize (Hm s). unfold on_err. by destruct (m s). Qed.
End keeps.

(** What is not a task opened or moved. *)
Definition still (said : Said) : Prop :=
  match said with SaidOpen _ _ _ | SaidAnswer _ _ _ _ => False | _ => True end.

Record quiet {W} (s s' : Sys W) : Prop := {
  q_access : access (host s') = access (host s);
  q_opened : opened (host s') = opened (host s);
  q_conversation : conversation (host s') = conversation (host s);
  q_report : report (host s') = report (host s);
  q_log : ∃ extra, log s' = log s ++ extra ∧ Forall still extra;
}.
#[export] Instance quiet_preorder {W} : PreOrder (@quiet W).
Proof.
  split.
  - intros s. constructor; try done. exists []. by rewrite app_nil_r.
  - intros s1 s2 s3 [? ? ? ? (e1 & L1 & F1)] [? ? ? ? (e2 & L2 & F2)]. constructor; try congruence.
    exists (e1 ++ e2). rewrite L2, L1, app_assoc. split; [done | by apply Forall_app].
Qed.

Lemma swap_row_twice i h r row h' :
  access h = IsReady r → others r !! i = Some row → access h' = access (swap_row i h) →
  access (swap_row i h') = access h.
Proof.
  intros Ha Hi Hh. unfold swap_row in Hh. rewrite Ha, Hi in Hh. cbn in Hh. unfold swap_row. rewrite Hh. cbn.
  rewrite list_lookup_insert_eq by by eapply lookup_lt_Some. cbn. rewrite Ha.
  rewrite list_insert_insert_eq, list_insert_id by (destruct row; exact Hi). destruct r as [? ? ? ? ? [] ? ? ? ? ? ?]. done.
Qed.
Lemma swap_row_fields i h : calls (swap_row i h) = calls h ∧ opened (swap_row i h) = opened h ∧
  held_devices (swap_row i h) = held_devices h ∧
  conversation (swap_row i h) = conversation h ∧ report (swap_row i h) = report h.
Proof. unfold swap_row. destruct (access h); [|done]. by destruct (others r !! i). Qed.
Lemma swap_row_back i h h' : access h' = access (swap_row i h) → access (swap_row i h') = access h.
Proof.
  destruct (access h) as [r|e] eqn:Ea.
  - destruct (others r !! i) as [row|] eqn:Eo; [rewrite <- Ea; by eapply swap_row_twice|].
    unfold swap_row. rewrite Ea, Eo, Ea. intros Hh. by rewrite Hh, Eo.
  - unfold swap_row. rewrite Ea, Ea. intros Hh. by rewrite Hh.
Qed.

(** Every question but the two that open and move a task is quiet. *)
Section quiet.
Context `{TaskCrypto} {W : Type} `{TaskWorld W}.

Lemma quiet_ask {A E} (op : act W A E) note : (∀ r, still (note r)) → keeps quiet (ask op note).
Proof.
  intros Hn s. unfold ask. destruct (op (world s)) as [r w]. constructor; try done. exists [note r]. by repeat constructor.
Qed.
Lemma quiet_clock {E} : keeps (W := W) quiet (clock (E := E)).
Proof. intros s. unfold clock. destruct (w_now (world s)) as [n w]. constructor; try done. exists [SaidNow n]. by repeat constructor. Qed.
Lemma quiet_scalar {E} : keeps (W := W) quiet (scalar (E := E)).
Proof. intros s. unfold scalar. destruct (w_scalar (world s)) as [n w]. constructor; try done. exists [SaidElse]. by repeat constructor. Qed.
Lemma quiet_change {E} (f : Host → Host) :
  (∀ h, access (f h) = access h ∧ opened (f h) = opened h ∧ conversation (f h) = conversation h ∧ report (f h) = report h) →
  keeps (W := W) quiet (change (E := E) f).
Proof. intros Hf s. destruct (Hf (host s)) as (? & ? & ? & ?). constructor; try done. exists []. by rewrite app_nil_r. Qed.

Lemma quiet_with_row {A} at_ (f : act (Sys W) A Stop) : keeps quiet f → keeps quiet (with_row at_ f).
Proof.
  intros Hf. destruct at_ as [i|]; [|exact Hf]. intros s. unfold with_row.
  set (s1 := mkSys _ _ _). specialize (Hf s1). destruct (f s1) as [a s2]. destruct Hf as [Qa Qo Qc Qr Ql].
  cbn in *. pose proof (swap_row_fields i (host s)) as (_ & Ho & _ & Hc & Hr).
  pose proof (swap_row_fields i ((host s2) <| held_devices := held_devices (host s) |>)) as (_ & Ho' & _ & Hc' & Hr').
  constructor; cbn; [by apply swap_row_back | | | | exact Ql].
  - rewrite Ho'. cbn. congruence.
  - rewrite Hc'. cbn. congruence.
  - rewrite Hr'. cbn. congruence.
Qed.
End quiet.

(** The count of calls is as it was. *)
Definition steady {W} (s s' : Sys W) : Prop := calls (host s') = calls (host s).
#[export] Instance steady_preorder {W} : PreOrder (@steady W).
Proof. split; [done | intros s1 s2 s3 H1 H2; unfold steady in *; congruence]. Qed.

Lemma steady_with_row `{TaskCrypto} {W} `{TaskWorld W} {A} at_ (f : act (Sys W) A Stop) :
  keeps steady f → keeps steady (with_row at_ f).
Proof.
  intros Hf. destruct at_ as [i|]; [|exact Hf]. intros s. unfold with_row.
  set (s1 := mkSys _ _ _). specialize (Hf s1). destruct (f s1) as [a s2]. unfold steady in *. cbn in *.
  rewrite (proj1 (swap_row_fields i _)). cbn. rewrite Hf. apply swap_row_fields.
Qed.

(** A relation that quiet questions, the held devices and a change of row keep. *)
Class Calm `{TaskCrypto} {W} `{TaskWorld W} (R : relation (Sys W)) := {
  calm_preorder :: PreOrder R;
  calm_ask {A E} (op : act W A E) note : (∀ r, still (note r)) → keeps R (ask op note);
  calm_clock {E} : keeps R (clock (E := E));
  calm_scalar {E} : keeps R (scalar (E := E));
  calm_held {E} d : keeps R (change (E := E) (λ h, h <| held_devices := d |>));
  calm_with_row {A} at_ (f : act (Sys W) A Stop) : keeps R f → keeps R (with_row at_ f);
}.
#[export] Instance quiet_calm `{TaskCrypto} {W} `{TaskWorld W} : Calm (@quiet W).
Proof.
  split; [apply _ | intros; by apply quiet_ask | intros; apply quiet_clock | intros; apply quiet_scalar
         | intros; by apply quiet_change | intros; by apply quiet_with_row].
Qed.
#[export] Instance steady_calm `{TaskCrypto} {W} `{TaskWorld W} : Calm (@steady W).
Proof.
  split; [apply _ | | | | done | intros; by apply steady_with_row].
  - intros A E op note _ s. unfold ask. by destruct (op (world s)).
  - intros E s. unfold clock. by destruct (w_now (world s)).
  - intros E s. unfold scalar. by destruct (w_scalar (world s)).
Qed.

Create HintDb calm discriminated.
#[export] Hint Extern 1 (Calm _) => apply _ : calm.
Ltac keep_step :=
  lazymatch goal with
  | |- keeps _ (give _) => apply keeps_give, _
  | |- keeps _ (stop _) => apply keeps_stop, _
  | |- keeps _ (lift _) => apply keeps_lift, _
  | |- keeps _ get_host => apply keeps_get, _
  | |- keeps _ (after _ _) => apply keeps_after; [apply _ | | intros ?]
  | |- keeps _ (on_err _ _) => apply keeps_on_err
  | |- keeps _ (ask _ _) => apply calm_ask; done
  | |- keeps _ clock => apply calm_clock
  | |- keeps _ scalar => apply calm_scalar
  | |- keeps _ (change (λ h, h <| held_devices := _ |>)) => apply calm_held
  | |- keeps _ (with_row _ _) => apply calm_with_row
  | |- keeps _ (let '_ := ?x in _) => destruct x
  | |- keeps _ (if ?b then _ else _) => destruct b
  | |- keeps _ (match ?x with _ => _ end) => destruct x
  | |- keeps _ ?m => first [solve [auto 3 with calm nocore] | let h := head_of m in progress unfold h]
  end.
Ltac solve_keeps := cbv zeta; repeat (keep_step; cbv zeta beta).

Section calm_ops.
Context `{TaskCrypto} {W : Type} `{TaskWorld W} (R : relation (Sys W)) `{!Calm R}.

Lemma calm_devices_from owner now recipient statements : ∀ asked devices,
  keeps R (devices_from chain_key asked devices statements owner now recipient).
Proof.
  induction statements as [|s rest IH]; intros asked devices; cbn [devices_from]; solve_keeps.
Qed.
Lemma calm_devices r : keeps R (devices_of_the_run r).
Proof. unfold devices_of_the_run, read_devices. solve_keeps. apply calm_devices_from. Qed.
Lemma calm_copies id key l : keeps R (copies_for id key l).
Proof. induction l as [|d l IH]; cbn [copies_for]; solve_keeps. Qed.
Lemma calm_encrypt_files key id l : ∀ at_, keeps R (encrypt_files key id at_ l).
Proof. induction l as [|f l IH]; intros at_; cbn [encrypt_files]; solve_keeps. Qed.
Lemma calm_outcomes r l : keeps R (outcomes r l).
Proof. induction l as [|t l IH]; cbn [outcomes]; solve_keeps. Qed.
#[local] Hint Resolve calm_devices calm_copies calm_encrypt_files calm_outcomes : calm.
Lemma calm_mine_rows rows : keeps R (mine_rows rows).
Proof. induction rows as [|a rows IH]; cbn [mine_rows]; solve_keeps. Qed.
Lemma calm_while {A} (f : act (Sys W) A Stop) rows : keeps R f → ∀ answer, keeps R (while_not_found f rows answer).
Proof.
  intros Hf. induction rows as [|a rows IH]; intros answer; cbn [while_not_found]; [solve_keeps|].
  destruct (is_not_found answer); [|solve_keeps]. intros s.
  pose proof (calm_with_row (Some a) f Hf s) as Hw. destruct (with_row (Some a) f s) as [b s1]. cbn in Hw.
  etrans; [exact Hw | apply IH].
Qed.
Lemma calm_any_row {A} (f : act (Sys W) A Stop) : keeps R f → keeps R (under_any_row f).
Proof.
  intros Hf s. unfold under_any_row, with_row at 1. specialize (Hf s) as Hs. destruct (f s) as [b s1]. cbn in Hs.
  etrans; [exact Hs | by apply calm_while].
Qed.
Lemma calm_waiting r devices rows : keeps R (open_waiting r devices rows).
Proof. induction rows as [|row rows IH]; cbn [open_waiting]; solve_keeps. Qed.
Lemma calm_void {A} r id (e : Untaken) : keeps R (λ s, let '(_, s) := ask (w_void (scope r) id) (λ _, SaidElse) s in
  (RErr (A := A) e, s)).
Proof.
  intros s. pose proof (calm_ask (w_void (scope r) id) (λ _, SaidElse) ltac:(done) s) as Hq.
  destruct (ask _ _ s). exact Hq.
Qed.
Lemma calm_approval a o i h su n now x rc : keeps R (approval_holds chain_key a o i h su n now x rc).
Proof.
  unfold approval_holds. apply keeps_after; [apply _ | solve_keeps | intros _ s].
  pose proof (calm_ask (w_access_key o (ap_public_key a)) (SaidKey o (ap_public_key a)) ltac:(done) s) as Hq.
  unfold chain_key. destruct (ask _ _ s) as [[[]|] s1]; exact Hq.
Qed.
#[local] Hint Resolve calm_mine_rows calm_waiting calm_void calm_approval : calm.
Lemma calm_judge r id h op p a su n st : keeps R (judge_approved r id h op p a su n st).
Proof. unfold judge_approved, unless. solve_keeps. Qed.
End calm_ops.
#[export] Hint Resolve calm_devices calm_copies calm_encrypt_files calm_outcomes calm_mine_rows calm_waiting calm_void
  calm_approval calm_judge : calm.

Section quiet_ops.
Context `{TaskCrypto} {W : Type} `{TaskWorld W}.

Lemma quiet_count : keeps (W := W) quiet count.
Proof. unfold count. apply keeps_after; [apply _ | solve_keeps | intros h]. apply keeps_after; [apply _ | by apply quiet_change | intros ?; solve_keeps]. Qed.
#[local] Hint Resolve quiet_count : calm.
Lemma quiet_prepare o c request : keeps (W := W) quiet (prepare_open o c request).
Proof. unfold prepare_open. solve_keeps. Qed.
Lemma quiet_mine : keeps (W := W) quiet mine.
Proof. solve_keeps. Qed.
Lemma quiet_status id : keeps (W := W) quiet (status id).
Proof. unfold status. do 2 (apply keeps_after; [apply _ | solve_keeps | intros ?]). apply calm_any_row; [apply _ | solve_keeps]. Qed.
Lemma quiet_cancel id : keeps (W := W) quiet (cancel id).
Proof. unfold cancel. do 2 (apply keeps_after; [apply _ | solve_keeps | intros ?]). apply calm_any_row; [apply _ | solve_keeps]. Qed.
Lemma quiet_delete id : keeps (W := W) quiet (delete id).
Proof. unfold delete. do 2 (apply keeps_after; [apply _ | solve_keeps | intros ?]). apply calm_any_row; [apply _ | solve_keeps]. Qed.
Lemma quiet_unlock : keeps (W := W) quiet unlock.
Proof. solve_keeps. Qed.
End quiet_ops.
#[export] Hint Resolve quiet_count quiet_prepare : calm.

(** * What one call does *)

Ltac ainv H :=
  repeat match type of H with
  | after _ _ _ = (ROk _, _) =>
    let a := fresh "a" in let s := fresh "s" in let H' := fresh "Hx" in apply after_ok in H as (a & s & H' & H)
  end.

(** The rows a run named, the one in place first. *)
Definition rows_of (r : Ready) : list RowGrant := mkRow (scope_owner (scope r)) (profile r) (grant r) :: others r.

(** A task opened under the facts [r] of the run as its [n]-th: for a row the run named,
    whose owner is the caller or admitted them by name. *)
Record opened_well (r : Ready) (n : Z) (sc : Scope) (new : NewTask) : Prop := {
  ow_limit : n < MAX_OPENS_PER_RUN;
  ow_id : nt_id new = run r +:+ "-" +:+ uint_to_string n;
  ow_preparer : nt_preparer new = caller r;
  ow_project : scope_project_uuid sc = scope_project_uuid (scope r);
  ow_row : ∃ row, row ∈ rows_of r ∧ scope_owner sc = rg_owner row ∧ nt_profile new = rg_profile row ∧
    (caller r = rg_owner row ∨ admitted_by_name (rg_grant row) = true);
}.

(** What becomes of the report when the store is asked to move a task. *)
Definition settle (id : string) (ans : result unit StoreError) (rep : RunReport) : RunReport :=
  match ans with
  | RErr (Refused _ _) => report_forget id (report_answered id rep)
  | _ => report_answered id rep
  end.

(** The store was asked to open a task. *)
Definition did_open {W} (s s' : Sys W) : Prop :=
  ∃ r sc new ans extra, access (host s) = IsReady r ∧ access (host s') = access (host s) ∧
    opened (host s') = saturating_add 32 (opened (host s)) 1 ∧ report (host s') = report (host s) ∧
    opened_well r (opened (host s)) sc new ∧ log s' = log s ++ extra ++ [SaidOpen sc new ans] ∧ Forall still extra.
(** The store was asked to move a task to this run. *)
Definition did_move {W} (s s' : Sys W) : Prop :=
  ∃ r id ans extra, access (host s) = IsReady r ∧ access (host s') = access (host s) ∧
    opened (host s') = opened (host s) ∧ report (host s') = settle id ans (report (host s)) ∧
    log s' = log s ++ extra ++ [SaidAnswer (scope r) id (run r) ans] ∧ Forall still extra.
(** Only what was left on the tasks answered, or refused, changed. *)
Definition did_leave {W} (s s' : Sys W) : Prop :=
  access (host s') = access (host s) ∧ opened (host s') = opened (host s) ∧
  map an_id (rep_answered (report (host s'))) = map an_id (rep_answered (report (host s))) ∧
  ∃ extra, log s' = log s ++ extra ∧ Forall still extra.

Section effects.
Context `{TaskCrypto} {W : Type} `{TaskWorld W}.
Implicit Types s : Sys W.

Lemma ready_ok s r s' : ready s = (ROk r, s') ↔ s' = s ∧ access (host s) = IsReady r.
Proof.
  unfold ready, after, get_host. destruct (access (host s)) as [r0|e] eqn:E; unfold give, stop; split.
  - intros [= <- <-]. done.
  - intros [-> [= ->]]. done.
  - done.
  - intros [_ ?]. done.
Qed.
Lemma keeps_run {A E} (R : relation (Sys W)) (m : act (Sys W) A E) s a s' : keeps R m → m s = (a, s') → R s s'.
Proof. intros Hm Hs. specialize (Hm s). by rewrite Hs in Hm. Qed.
Lemma enter_ok s r s' : enter s = (ROk r, s') → quiet s s' ∧ access (host s) = IsReady r.
Proof.
  unfold enter. intros (u & s1 & Hc & [-> Ha]%ready_ok)%after_ok.
  pose proof (keeps_run _ _ _ _ _ quiet_count Hc) as Hq. split; [done|]. by rewrite <- (q_access _ _ Hq).
Qed.

Lemma prepare_open_ok o c request s r new task doc s' :
  prepare_open o c request s = (ROk (r, new, task, doc), s') →
  access (host s) = IsReady r ∧ opened_well r o (scope r) new.
Proof.
  unfold prepare_open. intros Hp. ainv Hp. cbv zeta in Hp. ainv Hp. injection Hp as -> <- <- <- <-.
  apply ready_ok in Hx0 as [-> Ha].
  pose proof (keeps_run _ _ _ _ _ quiet_count Hx) as Hq. rewrite (q_access _ _ Hq) in Ha.
  destruct (negb (is_the_owners r) && negb (admitted_by_name (grant r))) eqn:Eg; [done|].
  destruct (MAX_OPENS_PER_RUN <=? o) eqn:El; [done|].
  split; [done|]. constructor; cbn; try done; [lia|].
  exists (mkRow (scope_owner (scope r)) (profile r) (grant r)). split_and!; [left | done | done|].
  unfold is_the_owners in Eg. cbn. destruct (String.eqb_spec (caller r) (scope_owner (scope r))); [by left|].
  right. by destruct (admitted_by_name (grant r)).
Qed.

Lemma open_as_effect request another s :
  quiet s (open_as request another s).2 ∨ did_open s (open_as request another s).2.
Proof.
  set (P := λ s', quiet s s' ∨ did_open s s'). change (P (open_as request another s).2).
  unfold open_as. unfold after at 1, get_host.
  pose proof (quiet_prepare (W := W) (opened (host s)) (if another then Unanswered else conversation (host s)) request s) as Hq.
  unfold after at 1.
  destruct (prepare_open _ _ request s) as [[[[[r new] task] doc]|e] s1] eqn:Ep; [|by left].
  apply prepare_open_ok in Ep as [Ha Hw]. cbn in Hq. unfold store, on_err, ask.
  destruct (w_open (scope r) new (world s1)) as [ans w]. cbn. destruct Hq as [Qa Qo Qc Qr (extra & Ql & Qf)].
  assert (∀ b, did_open s (mkSys ((host s1) <| opened := saturating_add 32 (opened (host s1)) 1 |>) w
    (log s1 ++ [SaidOpen (scope r) new b]))) as He.
  { intros b. exists r, (scope r), new, b, extra. cbn. split_and!; try done; [congruence|]. by rewrite Ql, <- app_assoc. }
  destruct ans as [n|x]; right; apply He.
Qed.

Lemma swapped_row r0 i row r : others r0 !! i = Some row →
  access (swap_row i (mkHost (IsReady r0) 0 0 None Unanswered (mkReport [] []))) = IsReady r →
  ∀ n sc new, opened_well r n sc new → opened_well r0 n sc new.
Proof.
  unfold swap_row. cbn. intros Ei. rewrite Ei. intros [= <-] n sc new.
  intros [Hlim Hid Hpr Hpj (row' & Hin & Hown & Hprof & Hadm)]. constructor; try done.
  exists row'. split_and!; try done. unfold rows_of in *. cbn in Hin.
  apply elem_of_cons in Hin as [->|Hin].
  { right. destruct row. by eapply list_elem_of_lookup_2. }
  apply list_elem_of_lookup in Hin as [j Hj]. destruct (decide (i = j)) as [<-|Hne].
  - rewrite list_lookup_insert_eq in Hj by by eapply lookup_lt_Some. injection Hj as <-. left.
  - rewrite list_lookup_insert_ne in Hj by done. right. by eapply list_elem_of_lookup_2.
Qed.

Lemma with_row_effect at_ request another s :
  quiet s (with_row at_ (open_as request another) s).2 ∨ did_open s (with_row at_ (open_as request another) s).2.
Proof.
  destruct at_ as [i|]; [|apply open_as_effect]. unfold with_row.
  set (s1 := mkSys _ _ _). pose proof (open_as_effect request another s1) as He.
  destruct (open_as request another s1) as [a s2]. cbn in He |- *.
  pose proof (swap_row_fields i (host s)) as (_ & Ho & _ & Hc & Hr).
  pose proof (swap_row_fields i ((host s2) <| held_devices := held_devices (host s) |>)) as (_ & Ho' & _ & Hc' & Hr').
  assert (access (host s2) = access (host s1) → access (swap_row i ((host s2) <| held_devices := held_devices (host s) |>))
    = access (host s)) as Hback by (intros E; by apply swap_row_back).
  destruct He as [[Qa Qo Qc Qr Ql]|(r & sc & new & ans & extra & Ea & Ea' & Eo & Er & Ew & El & Ef)]; cbn in *.
  - left. constructor; cbn; [by apply Hback | | | | exact Ql].
    + rewrite Ho'. cbn. congruence.
    + rewrite Hc'. cbn. congruence.
    + rewrite Hr'. cbn. congruence.
  - right. rewrite Ho in Eo, Ew. destruct (access (host s)) as [r0|] eqn:E0; [|by unfold swap_row in Ea; rewrite E0, E0 in Ea].
    exists r0, sc, new, ans, extra. cbn. split_and!; try done.
    + rewrite Hback; [by rewrite E0 | done].
    + rewrite Ho'. exact Eo.
    + rewrite Hr'. cbn. congruence.
    + unfold swap_row in Ea. rewrite E0 in Ea. destruct (others r0 !! i) as [row|] eqn:Ei.
      * eapply (swapped_row r0 i row r Ei); [|exact Ew]. unfold swap_row. cbn. rewrite Ei. exact Ea.
      * rewrite E0 in Ea. by injection Ea as ->.
Qed.

Lemma open_for_effect owner request s :
  quiet s (open_for owner request s).2 ∨ did_open s (open_for owner request s).2.
Proof.
  unfold open_for.
  assert (keeps (W := W) quiet (row_of owner "a task")) as Hrow by solve_keeps.
  assert ((row_of owner "a task" s).2 = s) as Hs.
  { unfold row_of, after. unfold ready, after, get_host. destruct (access (host s)); cbn; [|done].
    destruct (String.eqb _ owner); [done|]. by destruct (row_index owner (others r)). }
  destruct (row_of owner "a task" s) as [[at_|e] s1]; cbn in Hs; subst s1; [apply with_row_effect|].
  left. assert (keeps (W := W) quiet (let^ _ := count in stop (A := Opened) e)) as Hc by solve_keeps. apply Hc.
Qed.

Lemma set_outcome_ids id o f l l' : set_outcome id o f l = Some l' → map an_id l' = map an_id l.
Proof.
  revert l'. induction l as [|t l IH]; intros l'; cbn; [done|]. destruct (String.eqb (an_id t) id).
  - intros [= <-]. done.
  - intros (l1 & E & ->)%fmap_Some. cbn. f_equal. by apply IH.
Qed.

Lemma quiet_leave_prefix s s1 s' : quiet s s1 → did_leave s1 s' → did_leave s s'.
Proof.
  intros [Qa Qo Qc Qr (e1 & L1 & F1)] (Ea & Eo & Er & e2 & L2 & F2). unfold did_leave.
  rewrite Ea, Eo, Er, Qa, Qo, Qr. split_and!; try done. exists (e1 ++ e2). rewrite L2, L1, app_assoc.
  split; [done | by apply Forall_app].
Qed.

Lemma leave_effect id result failed s : did_leave s (leave id result failed s).2.
Proof.
  assert (∀ s s' : Sys W, quiet s s' → did_leave s s') as Hql.
  { intros t t' [Qa Qo Qc Qr Ql]. unfold did_leave. by rewrite Qr. }
  assert (∀ (A : Type) (m : act (Sys W) A Stop) (k : A → act (Sys W) unit Stop),
    keeps quiet m → (∀ a t, did_leave t (k a t).2) → ∀ t, did_leave t (after m k t).2) as Hafter.
  { intros A m k Hm Hk t. specialize (Hm t). unfold after. destruct (m t) as [[a|e] t1]; [|by apply Hql].
    eapply quiet_leave_prefix; [exact Hm | apply Hk]. }
  unfold leave. revert s. apply Hafter; [solve_keeps | intros r]. apply Hafter; [solve_keeps | intros _].
  apply Hafter; [solve_keeps | intros _]. apply Hafter; [solve_keeps | intros k]. apply Hafter; [solve_keeps | intros sealed s].
  unfold report_reported. destruct (set_outcome id sealed failed (rep_answered (report (host s)))) as [l|] eqn:E.
  - unfold did_leave. cbn. split_and!; [done | done | by apply set_outcome_ids in E | exists []; by rewrite app_nil_r].
  - apply Hql. reflexivity.
Qed.

Lemma move_effect r id s (a : result unit Untaken) s' : access (host s) = IsReady r → move_to_run r id s = (a, s') →
  did_move s s' ∧ (a = ROk tt ∨ ∃ e, a = RErr (UNotMoved e)).
Proof.
  intros Ha. unfold move_to_run, after, change, ask. cbn. destruct (w_answer (scope r) id (run r) (world s)) as [ans w].
  intros E. split; [exists r, id, ans, []; cbn|];
    destruct ans as [[]|[why found|why]]; injection E as <- <-; cbn; split_and?; eauto.
Qed.

Lemma answered_effect id h op p a su n s :
  quiet s (answered id h op p a su n s).2 ∨ did_leave s (answered id h op p a su n s).2 ∨
  did_move s (answered id h op p a su n s).2.
Proof.
  set (P := λ s', quiet s s' ∨ did_leave s s' ∨ did_move s s'). change (P (answered id h op p a su n s).2).
  unfold answered.
  (* the facts of the run do not change on the way *)
  assert (∀ (A : Type) (m : act (Sys W) A Stop) (k : A → act (Sys W) Answer Stop) t, quiet s t →
    keeps quiet m → (∀ a t', m t = (ROk a, t') → quiet s t' → P (k a t').2) → P (after m k t).2) as Hafter.
  { intros A m k t Ht Hm Hk. specialize (Hm t) as Hq. unfold after. destruct (m t) as [[x|e] t1] eqn:E.
    - apply Hk; [done|]. etrans; [exact Ht | exact Hq].
    - left. cbn in *. etrans; [exact Ht | exact Hq]. }
  apply Hafter; [reflexivity | solve_keeps | intros r s1 [_ Ha]%enter_ok Q1].
  apply Hafter; [done | solve_keeps | intros _ s2 _ Q2].
  apply Hafter; [done | solve_keeps | intros _ s3 _ Q3].
  apply Hafter; [done | solve_keeps | intros stored s4 _ Q4].
  apply Hafter; [done | solve_keeps | intros _ s5 _ Q5].
  apply Hafter; [done | solve_keeps | intros _ s6 _ Q6].
  apply Hafter; [done | solve_keeps | intros _ s7 _ Q7].
  unfold take_approved. unfold after at 1.
  pose proof (calm_judge (W := W) quiet r id h op p a su n stored s7) as Hj.
  destruct (judge_approved r id h op p a su n stored s7) as [[answer|e] s8] eqn:Ej; cbn in Hj.
  - assert (quiet s s8) as Q8 by (etrans; [exact Q7 | exact Hj]).
    unfold after at 1. destruct (move_to_run r id s8) as [x s9] eqn:Em.
    apply (move_effect r) in Em as [Em Hx]; [|by rewrite (q_access _ _ Q8)].
    assert (did_move s s9) as Hm.
    { destruct Em as (r' & i' & ans & e2 & Ea & Ea' & Eo & Er & El & Ef). destruct Q8 as [Qa Qo Qc Qr (e1 & L1 & F1)].
      exists r', i', ans, (e1 ++ e2). rewrite Ea', Eo, Er, El, L1, Qa, Qo, Qr, <- !app_assoc.
      rewrite Qa in Ea. split_and!; try done. by apply Forall_app. }
    destruct Hx as [->|[e ->]]; right; right; [|exact Hm].
    destruct Hm as (r' & i' & ans & e2 & Hm). exists r', i', ans, e2. exact Hm.
  - assert (quiet s s8) as Q8 by (etrans; [exact Q7 | exact Hj]).
    destruct e as [e|e|]; cbn; [|by left..].
    right; left. eapply quiet_leave_prefix; [exact Q8|]. unfold did_leave. cbn.
    split_and!; try done; [|exists []; by rewrite app_nil_r]. unfold report_refused. by destruct (existsb _ _).
Qed.
End effects.

(** * What a run can do *)

Definition opens (l : list Said) : list (Scope * NewTask) :=
  omap (λ said, match said with SaidOpen sc new _ => Some (sc, new) | _ => None end) l.
(** The store's words on moving the task [id], in order. *)
Definition answer_words (id : string) (l : list Said) : list (result unit StoreError) :=
  omap (λ said, match said with SaidAnswer _ i _ a => if String.eqb i id then Some a else None | _ => None end) l.
Definition refused_by_name (a : result unit StoreError) : bool :=
  match a with RErr (Refused _ _) => true | _ => false end.
(** The last word on moving the task was not a refusal. *)
Definition may_hold (id : string) (l : list Said) : Prop :=
  ∃ a, last (answer_words id l) = Some a ∧ refused_by_name a = false.

Lemma opens_app l l' : opens (l ++ l') = opens l ++ opens l'.
Proof. apply omap_app. Qed.
Lemma answer_words_app id l l' : answer_words id (l ++ l') = answer_words id l ++ answer_words id l'.
Proof. apply omap_app. Qed.
Lemma still_silent l : Forall still l → opens l = [] ∧ ∀ id, answer_words id l = [].
Proof.
  induction 1 as [|said l Hs _ [IH1 IH2]]; [done|]. unfold opens, answer_words in *. cbn. by destruct said.
Qed.

Definition answered_ids (rep : RunReport) : list string := map an_id (rep_answered rep).

Lemma existsb_id id l : existsb (λ t, String.eqb (an_id t) id) l = true ↔ id ∈ map an_id l.
Proof.
  rewrite existsb_exists, list_elem_of_fmap. split.
  - intros (t & Hin%list_elem_of_In & Ht%String.eqb_eq). eauto.
  - intros (t & -> & Hin). exists t. rewrite <- list_elem_of_In, String.eqb_refl. done.
Qed.
Lemma answered_ids_answered id rep :
  answered_ids (report_answered id rep) = if bool_decide (id ∈ answered_ids rep) then answered_ids rep
    else answered_ids rep ++ [id].
Proof.
  unfold report_answered, answered_ids. case_bool_decide as Hd.
  - by rewrite (proj2 (existsb_id _ _) Hd).
  - destruct (existsb _ _) eqn:E; [by apply existsb_id in E|]. cbn. by rewrite map_app.
Qed.
Lemma answered_ids_forget id rep : answered_ids (report_forget id rep) = filter (λ i, i ≠ id) (answered_ids rep).
Proof.
  unfold report_forget, answered_ids. cbn. induction (rep_answered rep) as [|t l IH]; [done|].
  rewrite !filter_cons. cbn. destruct (decide (an_id t ≠ id)); cbn; by rewrite IH.
Qed.

Lemma settle_ids id a rep i : NoDup (answered_ids rep) →
  NoDup (answered_ids (settle id a rep)) ∧
  (i ∈ answered_ids (settle id a rep) ↔
    (i = id ∧ refused_by_name a = false) ∨ (i ≠ id ∧ i ∈ answered_ids rep)).
Proof.
  intros Hn. unfold settle.
  assert (NoDup (answered_ids (report_answered id rep)) ∧
    (∀ i, i ∈ answered_ids (report_answered id rep) ↔ i = id ∨ i ∈ answered_ids rep)) as [Hn' Hi].
  { rewrite answered_ids_answered. case_bool_decide.
    - split; [done | intros j; naive_solver].
    - split; [apply NoDup_app; split_and!; [done | set_solver | apply NoDup_singleton] | set_solver]. }
  destruct a as [[]|[why found|why]]; cbn [refused_by_name].
  - split; [done|]. rewrite Hi. destruct (decide (i = id)); naive_solver.
  - rewrite answered_ids_forget. split; [by apply NoDup_filter|]. rewrite list_elem_of_filter, Hi. naive_solver.
  - split; [done|]. rewrite Hi. destruct (decide (i = id)); naive_solver.
Qed.

Record run_ok {W} (A : Access) (s : Sys W) : Prop := {
  ro_access : access (host s) = A;
  ro_opened : opened (host s) = Z.of_nat (length (opens (log s)));
  ro_limit : opened (host s) ≤ MAX_OPENS_PER_RUN;
  ro_opens : ∀ i sc new, opens (log s) !! i = Some (sc, new) → ∃ r, A = IsReady r ∧ opened_well r (Z.of_nat i) sc new;
  ro_nodup : NoDup (answered_ids (report (host s)));
  ro_report : ∀ id, id ∈ answered_ids (report (host s)) ↔ may_hold id (log s);
}.

Section runs.
Context `{TaskCrypto} {W : Type} `{TaskWorld W}.
Implicit Types s : Sys W.

Lemma step_effect s c : let s' := step_call s c in quiet s s' ∨ did_leave s s' ∨ did_open s s' ∨ did_move s s'.
Proof.
  destruct c; cbn; unfold after_call.
  - destruct (open_as_effect request false s); auto.
  - destruct (open_for_effect owner request s); auto.
  - left. apply quiet_mine.
  - left. apply quiet_status.
  - destruct (answered_effect id hash operation policy approval supplied note s) as [?|[?|?]]; auto.
  - right; left. apply leave_effect.
  - right; left. apply leave_effect.
  - left. apply quiet_cancel.
  - left. apply quiet_delete.
  - left. apply quiet_unlock.
Qed.

Lemma leave_of_quiet s s' : quiet s s' → did_leave s s'.
Proof. intros [Qa Qo Qc Qr Ql]. unfold did_leave. by rewrite Qr. Qed.

Lemma step_call_fine A s c : run_ok A s → run_ok A (step_call s c).
Proof.
  intros [Ra Ro Rl Rp Rn Rr].
  assert (did_leave s (step_call s c) ∨ did_open s (step_call s c) ∨ did_move s (step_call s c)) as He.
  { destruct (step_effect s c) as [Hq%leave_of_quiet|[?|[?|?]]]; auto. }
  destruct He as [(Ea & Eo & Er & extra & El & [Ho Hw]%still_silent)|[He|He]].
  - constructor; rewrite ?Ea, ?Eo, ?El, ?opens_app, ?Ho, ?app_nil_r; try done.
    + unfold answered_ids. by rewrite Er.
    + intros id. unfold answered_ids, may_hold. rewrite Er, answer_words_app, Hw, app_nil_r. apply Rr.
  - destruct He as (r & sc & new & ans & extra & Er & Ea & Eo & Erep & Ew & El & [Ho Hw]%still_silent).
    assert (opens (log (step_call s c)) = opens (log s) ++ [(sc, new)]) as Eop by by rewrite El, !opens_app, Ho.
    assert (opened (host (step_call s c)) = opened (host s) + 1) as Eo'.
    { rewrite Eo. unfold saturating_add. pose proof (ow_limit _ _ _ _ Ew) as Hl. unfold MAX_OPENS_PER_RUN in Hl. lia. }
    constructor.
    + by rewrite Ea.
    + rewrite Eo', Eop, length_app, Ro. cbn. lia.
    + rewrite Eo'. pose proof (ow_limit _ _ _ _ Ew). lia.
    + intros i sc' new' Hi. rewrite Eop in Hi. apply lookup_app_Some in Hi as [Hi|[Hge Hi]]; [by apply Rp|].
      destruct (i - length (opens (log s)))%nat as [|j] eqn:Ei; [|by destruct j]. injection Hi as <- <-.
      exists r. split; [congruence|]. replace (Z.of_nat i) with (opened (host s)); [done|]. rewrite Ro. lia.
    + by rewrite Erep.
    + intros id. rewrite Erep, Rr. unfold may_hold. by rewrite El, !answer_words_app, Hw, app_nil_r.
  - destruct He as (r & id & ans & extra & Er & Ea & Eo & Erep & El & [Ho Hw]%still_silent).
    assert (opens (log (step_call s c)) = opens (log s)) as Eop by (rewrite El, !opens_app, Ho; cbn; by rewrite app_nil_r).
    constructor; rewrite ?Eop, ?Eo, ?Erep; try done; [congruence | by eapply settle_ids|].
    intros i. rewrite (proj2 (settle_ids id ans _ i Rn)), Rr. unfold may_hold.
    rewrite El, !answer_words_app, Hw. cbn. destruct (String.eqb id i) eqn:Ei.
    + apply String.eqb_eq in Ei as ->. rewrite last_snoc. naive_solver.
    + apply String.eqb_neq in Ei. rewrite app_nil_r. naive_solver.
Qed.

Lemma run_calls_ok A s cs : run_ok A s → run_ok A (run_calls s cs).
Proof. revert s. induction cs as [|c cs IH]; intros s Hs; [done|]. cbn. by apply IH, step_call_fine. Qed.

Definition started (a b : bool) (t : option TasksRun) (w : W) : Sys W := mkSys (new_host a b t) w [].
Lemma started_ok a b t w : run_ok (access (new_host a b t)) (started a b t w).
Proof.
  constructor; cbn; try done.
  - apply NoDup_nil_2.
  - intros id. unfold may_hold. cbn. split; [by intros ?%not_elem_of_nil | naive_solver].
Qed.

(** A run opens at most five tasks, whatever the component calls and the store
    answers, each under an id of its own; each is its caller's, of its project, for the
    owner of a secret row the run named, and that owner is the caller or admitted them
    by name. *)
Theorem tasks_opened_by_name a b t (w : W) cs :
  let l := opens (log (run_calls (started a b t w) cs)) in
  Z.of_nat (length l) ≤ MAX_OPENS_PER_RUN ∧ NoDup (map (λ x, nt_id x.2) l) ∧
  ∀ i sc new, l !! i = Some (sc, new) →
    ∃ r, access (new_host a b t) = IsReady r ∧ opened_well r (Z.of_nat i) sc new.
Proof.
  cbv zeta. destruct (run_calls_ok _ _ cs (started_ok a b t w)) as [Ra Ro Rl Rp _ _].
  split_and!; [lia | | exact Rp].
  apply NoDup_alt. intros i j x. rewrite !list_lookup_fmap.
  intros ([sc new] & Hi & ->)%fmap_Some ([sc' new'] & Hj & E)%fmap_Some.
  destruct (Rp _ _ _ Hi) as (r & Er & Hw). destruct (Rp _ _ _ Hj) as (r' & Er' & Hw').
  rewrite Er in Er'. injection Er' as <-. cbn in E. rewrite (ow_id _ _ _ _ Hw), (ow_id _ _ _ _ Hw') in E.
  apply str_append_inj_l, str_append_inj_l, uint_to_string_inj in E; lia.
Qed.


(** C35: A run keeps the rows it named: whatever is called, and under whichever row, the
    owner, the project, the profile, the keys and the consent in place afterwards are
    those the run started with. *)
Theorem rows_stay_in_place a b t (w : W) cs :
  access (host (run_calls (started a b t w) cs)) = access (new_host a b t).
Proof. by destruct (run_calls_ok _ _ cs (started_ok a b t w)). Qed.
End runs.

(** * The limit of calls *)

Section limits.
Context `{TaskCrypto} {W : Type} `{TaskWorld W}.
Implicit Types s : Sys W.

Definition untouched s s' : Prop := world s' = world s ∧ log s' = log s.
(** Past the limit the computation fails, and asks nothing. *)
Definition blocked {A} (m : act (Sys W) A Stop) : Prop := ∀ s, MAX_CALLS_PER_RUN ≤ calls (host s) →
  (∃ e, (m s).1 = RErr e) ∧ untouched s (m s).2.
(** The computation counts as one call. *)
Definition counted {A} (m : act (Sys W) A Stop) : Prop := ∀ s, calls (host (m s).2) = saturating_add 32 (calls (host s)) 1.

Lemma blocked_count : blocked count.
Proof.
  intros s Hs. unfold count, after, get_host, change. cbn.
  assert ((MAX_CALLS_PER_RUN <? saturating_add 32 (calls (host s)) 1) = true) as ->.
  { unfold saturating_add, MAX_CALLS_PER_RUN in *. lia. }
  split; [by eexists | done].
Qed.
Lemma counted_count : counted count.
Proof. intros s. unfold count, after, get_host, change. cbn. by destruct (_ <? _). Qed.
Lemma blocked_after {A B} (m : act (Sys W) A Stop) (k : A → act (Sys W) B Stop) : blocked m → blocked (after m k).
Proof. intros Hm s Hs. destruct (Hm s Hs) as [[e He] Hu]. unfold after. destruct (m s) as [[a|e'] s1]; [done|]. by eauto. Qed.
Lemma counted_after {A B} (m : act (Sys W) A Stop) (k : A → act (Sys W) B Stop) :
  counted m → (∀ a, keeps steady (k a)) → counted (after m k).
Proof.
  intros Hm Hk s. specialize (Hm s). unfold after. destruct (m s) as [[a|e'] s1]; [|done]. rewrite <- Hm. apply Hk.
Qed.
Lemma blocked_enter : blocked enter.
Proof. apply blocked_after, blocked_count. Qed.
Lemma counted_enter : counted enter.
Proof. apply counted_after; [apply counted_count | intros _; solve_keeps]. Qed.

Lemma blocked_open_as request another : blocked (open_as request another).
Proof.
  intros s Hs. unfold open_as. unfold after at 1 3, get_host.
  assert (blocked (prepare_open (opened (host s)) (if another then Unanswered else conversation (host s)) request)) as Hp
    by apply blocked_after, blocked_count.
  pose proof (blocked_after _ (λ '(r, new, task, document), λ s,
    let '(stored, s) := store (w_open (scope r) new) (SaidOpen (scope r) new) s in
    (let^ _ := change (λ h, h <| opened := saturating_add 32 (opened h) 1 |>) in
     let^ written := lift stored in
     give (mkOpened (nt_id new) (hash document) (thread task) (expires_at task) (Z.min written U32_MAX))) s) Hp s Hs) as Ha.
  exact Ha.
Qed.
Lemma counted_open_as request another : counted (open_as request another).
Proof.
  intros s. unfold open_as. unfold after at 1, get_host.
  assert (counted (prepare_open (opened (host s)) (if another then Unanswered else conversation (host s)) request)) as Hp.
  { apply counted_after; [apply counted_count | intros _; solve_keeps]. }
  revert Hp. generalize (prepare_open (opened (host s)) (if another then Unanswered else conversation (host s)) request).
  intros m Hm. apply (counted_after m _ Hm). intros [[[r new] task] document] s1. unfold store, on_err, ask, steady.
  by destruct (w_open (scope r) new (world s1)) as [[n|e] w].
Qed.

Lemma blocked_with_row {A} at_ (m : act (Sys W) A Stop) : blocked m → blocked (with_row at_ m).
Proof.
  intros Hm. destruct at_ as [i|]; [|exact Hm]. intros s Hs. unfold with_row.
  set (s1 := mkSys _ _ _). destruct (Hm s1) as [He Hu]; [subst s1; cbn; by rewrite (proj1 (swap_row_fields i _))|].
  destruct (m s1) as [a s2]. done.
Qed.
Lemma counted_with_row {A} at_ (m : act (Sys W) A Stop) : counted m → counted (with_row at_ m).
Proof.
  intros Hm. destruct at_ as [i|]; [|exact Hm]. intros s. unfold with_row.
  set (s1 := mkSys _ _ _). specialize (Hm s1). destruct (m s1) as [a s2]. cbn in *.
  rewrite (proj1 (swap_row_fields i _)). cbn. rewrite Hm. f_equal. apply swap_row_fields.
Qed.

Lemma row_of_state owner what s : (row_of owner what s).2 = s.
Proof.
  unfold row_of, after. unfold ready, after, get_host. destruct (access (host s)); cbn; [|done].
  destruct (String.eqb _ owner); [done|]. by destruct (row_index owner (others r)).
Qed.
Lemma open_for_cases owner request s :
  (∃ at_ another, open_for owner request s = with_row at_ (open_as request another) s) ∨
  ∃ e, open_for owner request s = (let^ _ := count in stop e) s.
Proof.
  unfold open_for. pose proof (row_of_state owner "a task" s) as Hs.
  destruct (row_of owner "a task" s) as [[at_|e] s1]; cbn in Hs; subst s1; eauto.
Qed.

Lemma step_blocked s c : MAX_CALLS_PER_RUN ≤ calls (host s) → untouched s (step_call s c).
Proof.
  assert (∀ A (m : act (Sys W) A Stop), blocked m → MAX_CALLS_PER_RUN ≤ calls (host s) → untouched s (after_call m s)) as Hb.
  { intros A m Hm Hs. by destruct (Hm s Hs). }
  destruct c; cbn; try (apply Hb; apply blocked_after, blocked_enter); try (apply Hb; apply blocked_after, blocked_count).
  - apply Hb, blocked_open_as.
  - unfold after_call. intros Hs. destruct (open_for_cases owner request s) as [(at_ & an & ->)|(e & ->)].
    + by apply (blocked_with_row at_ _ (blocked_open_as request an)).
    + by apply (blocked_after count (λ _, stop (A := Opened) e) blocked_count).
Qed.

Lemma step_counted s c : calls (host (step_call s c)) = saturating_add 32 (calls (host s)) 1.
Proof.
  assert (∀ A (m : act (Sys W) A Stop), counted m → calls (host (after_call m s)) = saturating_add 32 (calls (host s)) 1) as Hc.
  { intros A m Hm. apply Hm. }
  destruct c; cbn.
  - apply Hc, counted_open_as.
  - unfold after_call. destruct (open_for_cases owner request s) as [(at_ & an & ->)|(e & ->)].
    + apply (counted_with_row at_ _ (counted_open_as request an)).
    + apply (counted_after count (λ _, stop (A := Opened) e) counted_count). intros _. solve_keeps.
  - apply Hc. apply counted_after; [apply counted_enter | intros ?; solve_keeps].
  - apply Hc. apply counted_after; [apply counted_enter | intros ?]. apply keeps_after; [apply _ | solve_keeps | intros ?].
    apply calm_any_row; [apply _ | solve_keeps].
  - apply Hc. apply counted_after; [apply counted_enter | intros r].
    do 6 (apply keeps_after; [apply _ | solve_keeps | intros ?]). intros t. unfold take_approved, after.
    pose proof (calm_judge (W := W) steady r id hash operation policy approval supplied note a1 t) as Hj.
    destruct (judge_approved _ _ _ _ _ _ _ _ _ t) as [[x|[e|e|]] t1]; try exact Hj.
    assert (steady t1 (move_to_run r id t1).2) as Hm.
    { unfold move_to_run, after, change, ask, steady. cbn. destruct (w_answer _ _ _ _) as [[[]|[? ?|?]] w]; done. }
    unfold steady in *. destruct (move_to_run r id t1) as [[[]|[e|e|]] t2]; cbn in *; congruence.
  - apply Hc. apply counted_after; [apply counted_enter | intros r].
    do 4 (apply keeps_after; [apply _ | solve_keeps | intros ?]). intros t. by destruct (report_reported _ _ _ _) as [[] rep].
  - apply Hc. apply counted_after; [apply counted_enter | intros r].
    do 4 (apply keeps_after; [apply _ | solve_keeps | intros ?]). intros t. by destruct (report_reported _ _ _ _) as [[] rep].
  - apply Hc. apply counted_after; [apply counted_enter | intros ?]. apply keeps_after; [apply _ | solve_keeps | intros ?].
    apply calm_any_row; [apply _ | solve_keeps].
  - apply Hc. apply counted_after; [apply counted_enter | intros ?]. apply keeps_after; [apply _ | solve_keeps | intros ?].
    apply calm_any_row; [apply _ | solve_keeps].
  - apply Hc. apply counted_after; [apply counted_count | intros ?; solve_keeps].
Qed.

Lemma calls_after s cs : 0 ≤ calls (host s) → Z.of_nat (length cs) ≤ MAX_CALLS_PER_RUN →
  calls (host s) + Z.of_nat (length cs) ≤ U32_MAX → calls (host (run_calls s cs)) = calls (host s) + Z.of_nat (length cs).
Proof.
  revert s. induction cs as [|c cs IH]; intros s H1 H2 H3; cbn [run_calls foldl length] in *; [lia|].
  fold (run_calls (step_call s c) cs). pose proof (step_counted s c) as Hc. unfold saturating_add in Hc.
  unfold U32_MAX in *. rewrite IH; lia.
Qed.
Lemma calls_spent s cs : MAX_CALLS_PER_RUN ≤ calls (host s) → untouched s (run_calls s cs).
Proof.
  revert s. induction cs as [|c cs IH]; intros s Hs; [done|]. cbn. fold (run_calls (step_call s c) cs).
  destruct (step_blocked s c Hs) as [Hw Hl]. destruct (IH (step_call s c)) as [Hw' Hl'].
  { rewrite step_counted. unfold saturating_add, MAX_CALLS_PER_RUN in *. lia. }
  unfold untouched. rewrite Hw', Hl'. done.
Qed.

(** A run's calls end at a hundred: whatever the component calls after that, the
    store, the chain, the clock and the host's randomness are as its first hundred calls
    left them, and nothing more was asked of them. *)
Theorem calls_are_limited a b t (w : W) cs :
  let first := take (Z.to_nat MAX_CALLS_PER_RUN) cs in
  world (run_calls (started a b t w) cs) = world (run_calls (started a b t w) first) ∧
  log (run_calls (started a b t w) cs) = log (run_calls (started a b t w) first).
Proof.
  cbv zeta. set (n := Z.to_nat MAX_CALLS_PER_RUN). destruct (decide (length cs <= n)%nat) as [Hle|Hgt].
  { by rewrite take_ge. }
  rewrite <- (take_drop n cs) at 1 3. unfold run_calls. rewrite foldl_app.
  fold (run_calls (started a b t w) (take n cs)). fold (run_calls (run_calls (started a b t w) (take n cs)) (drop n cs)).
  apply calls_spent. rewrite calls_after; rewrite ?length_take; cbn; unfold n, MAX_CALLS_PER_RUN, U32_MAX in *; lia.
Qed.
End limits.
