(* ===== verification/TaskAnswer.v ===== *)
(** When an approved task is handed to the run that carries it out: only on the owner's
    word, to the preparer's own run, and as it was sealed. *)

From S2P Require Export TaskRun.

Section owner.
Context `{TaskCrypto} {W : Type} `{TaskWorld W}.
Implicit Types s : Sys W.

Lemma unless_ok {A} b e (k : act (Sys W) A Untaken) s a s' :
  unless b e k s = (ROk a, s') ↔ b = false ∧ k s = (ROk a, s').
Proof. unfold unless. destruct b; [|naive_solver]. split; [done | intros [? _]; done]. Qed.
Lemma before_ok {A} (r : result A TaskError) s a s' : before r s = (ROk a, s') ↔ r = ROk a ∧ s' = s.
Proof. unfold before, lift, map_err. destruct r; naive_solver. Qed.

(** The sealed copy is the task asked for, of this run's project and owner. *)
Lemma unseal_with_ok k sc id sealed u : unseal_with k sc id sealed = ROk u →
  env_id (u_envelope u) = id ∧ env_owner (u_envelope u) = scope_owner sc ∧
  env_project_uuid (u_envelope u) = scope_project_uuid sc ∧ hash (u_state u) = state_hash (u_envelope u) ∧
  ∃ plain task, open_sealed k SealTask id sealed = ROk plain ∧ sealed_read plain = Some task ∧
    from_bytes (sealed_envelope task) = ROk (u_envelope u) ∧ u_hash u = hash (sealed_envelope task) ∧
    u_consent u = sealed_consent task.
Proof.
  unfold unseal_with. intros (plain & Hp & (task & Ht & (e & He & (st & Hs & (ck & Hc & Hu)%rbind_ok)%rbind_ok)%rbind_ok)%rbind_ok)%rbind_ok.
  apply ok_or_ok in Ht. unfold map_err in Hp, He.
  destruct (open_sealed k SealTask id sealed) as [p|] eqn:Eo; [|done]. injection Hp as ->.
  destruct (from_bytes (sealed_envelope task)) as [e'|] eqn:Ee; [|done]. injection He as ->.
  destruct (_ && _) eqn:E; [|done]. injection Hu as <-. cbn. prop_bool.
  repeat match goal with Hx : String.eqb _ _ = true |- _ => apply String.eqb_eq in Hx end.
  split_and!; try done. by exists plain, task.
Qed.

(** Everything the host has checked when it hands [answer] over. *)
Record owners_word (r : Ready) (id hash_ op policy : string) (a : Approval) (supplied note : option string)
    (task : Unsealed) (now : Z) : Prop := {
  wd_alive : now < expires_at (u_envelope task);
  wd_shown : eq_ignore_ascii_case hash_ (u_hash task) = true;
  wd_operation : ∃ by_, answer_by (u_envelope task) = Some by_ ∧ ab_operation by_ = op ∧
    ∀ running, operation r = Some running → running = op;
  wd_row : env_profile (u_envelope task) = profile r;
  wd_preparer : preparer (u_envelope task) = caller r;
  wd_consent : ∃ own given, consent r = Some own ∧ u_consent task = Some given ∧ refuses given own = None;
  wd_policy : hash policy = policy_hash (u_envelope task);
  wd_build : build (u_envelope task) = r_build r;
  wd_signed : approval_signed a (env_owner (u_envelope task)) id (u_hash task) supplied note now
    (expires_at (u_envelope task)) (recipient r) = ROk tt;
}.

Lemma approval_holds_ok a o i h su n now x rc s u s' :
  approval_holds chain_key a o i h su n now x rc s = (ROk u, s') →
  approval_signed a o i h su n now x rc = ROk tt ∧ log s' = log s ++ [SaidKey o (ap_public_key a) (ROk ItsKey)].
Proof.
  unfold approval_holds. intros ([] & s1 & Hs & Hk)%after_ok. injection Hs as Hs <-. split; [done|].
  unfold chain_key, ask in Hk. destruct (w_access_key o (ap_public_key a) (world s)) as [[[]|] w]; try done.
  injection Hk as _ <-. done.
Qed.

Definition log_grows s s' : Prop := ∃ extra, log s' = log s ++ extra.
Lemma grows_of_quiet s s' : quiet s s' → log_grows s s'.
Proof. intros [_ _ _ _ (e & He & _)]. by exists e. Qed.

Lemma judge_approved_ok r id h op p a su n stored s answer s' :
  judge_approved r id h op p a su n stored s = (ROk answer, s') →
  ∃ sealed k task now extra, sd_sealed stored = Some sealed ∧ keys_of r id = Some k ∧
    unseal_with k (scope r) id sealed = ROk task ∧ owners_word r id h op p a su n task now ∧
    log s' = log s ++ extra ∧ SaidNow now ∈ extra ∧
    SaidKey (env_owner (u_envelope task)) (ap_public_key a) (ROk ItsKey) ∈ extra ∧
    (a_id answer = id ∧ a_thread answer = thread (u_envelope task) ∧ a_preparer answer = preparer (u_envelope task) ∧
     a_state answer = u_state task).
Proof.
  unfold judge_approved. intros Hj. ainv Hj. cbv zeta in Hj. ainv Hj.
  apply before_ok in Hx as [Hsd ->]. apply ok_or_ok in Hsd.
  destruct (keys_of r id) as [k|] eqn:Ek; [|done]. injection Hx0 as <- <-.
  apply before_ok in Hx1 as [Hu ->].
  unfold clock in Hx2. destruct (w_now (world s)) as [now w]. injection Hx2 as -> <-.
  do 3 (apply unless_ok in Hj as [?Hc Hj]). ainv Hj. apply before_ok in Hx as [Hby ->]. apply ok_or_ok in Hby.
  do 3 (apply unless_ok in Hj as [?Hc Hj]). ainv Hj.
  apply before_ok in Hx as [Hown ->]. apply ok_or_ok in Hown.
  apply before_ok in Hx0 as [Hgiven ->]. apply ok_or_ok in Hgiven.
  apply before_ok in Hx1 as [Href ->]. destruct (refuses a5 a4) eqn:Er; [done|].
  destruct (negb (String.eqb (hash p) _) || _) eqn:Ev.
  { destruct (ask _ _ _) in Hx2. done. }
  injection Hx2 as _ <-. unfold on_err in Hx3.
  destruct (approval_holds _ _ _ _ _ _ _ _ _ _ _) as [[u|e] s7] eqn:Ea; [|done]. injection Hx3 as _ <-.
  apply approval_holds_ok in Ea as [Hsig El]. cbn in El.
  apply before_ok in Hx4 as [_ ->]. apply before_ok in Hx5 as [_ ->].
  apply unless_ok in Hj as [_ Hj]. ainv Hj. apply before_ok in Hx as [_ ->]. injection Hj as <- <-.
  prop_bool. repeat match goal with Hx : String.eqb _ _ = true |- _ => apply String.eqb_eq in Hx end.
  eexists _, k, a2, a3, [SaidNow a3; SaidKey (env_owner (u_envelope a2)) (ap_public_key a) (ROk ItsKey)].
  split_and!; try done; [|by rewrite El, <- app_assoc | left | right; left].
  constructor; try done.
  - destruct (a3 <? 0) eqn:E0; unfold U64_MAX in *; lia.
  - exists a1. split_and!; [done | done|]. intros running Ho. rewrite Ho in Hc1. cbn in Hc1.
    by apply negb_false_iff, String.eqb_eq in Hc1.
  - eauto.
Qed.

Lemma wrap_i64_id z : - 2 ^ 63 ≤ z < 2 ^ 63 → wrap_i64 z = z.
Proof. intros Hz. unfold wrap_i64. rewrite Z.mod_small; lia. Qed.
Lemma approval_signed_ok a o i h su n now x rc : approval_signed a o i h su n now x rc = ROk tt →
  ∃ m, approval_sentence o i h (supply_digest su n) (ap_at a) = Some m ∧
    verify_nep413 m (ap_public_key a) (ap_signature a) (ap_nonce a) rc = ROk tt ∧ ap_at a < x ∧
    (Z.abs now < 2 ^ 62 → now - APPROVAL_AGE_SECS ≤ ap_at a ≤ now + APPROVAL_AHEAD_SECS).
Proof.
  unfold approval_signed. destruct (2 ^ 63 - 1 <? ap_at a) eqn:E1; [done|]. destruct (wrap_i64 _ <? ap_at a) eqn:E2; [done|].
  destruct (ap_at a <? _) eqn:E3; [done|]. destruct (x <=? ap_at a) eqn:E4; [done|].
  destruct (approval_sentence _ _ _ _ _) as [m|]; [|done]. unfold map_err.
  destruct (verify_nep413 _ _ _ _ _) as [[]|] eqn:Ev; [|done]. intros _. exists m. split_and!; [done | done | lia|].
  intros Hn. rewrite wrap_i64_id in E2, E3 by (unfold APPROVAL_AHEAD_SECS, APPROVAL_AGE_SECS in *; lia). lia.
Qed.

Lemma move_log r id s (x : result unit Untaken) s' : move_to_run r id s = (x, s') →
  ∃ ans, log s' = log s ++ [SaidAnswer (scope r) id (run r) ans] ∧ (x = ROk tt ∨ ∃ e, x = RErr (UNotMoved e)).
Proof.
  unfold move_to_run, after, change, ask. cbn. destruct (w_answer _ _ _ _) as [ans w]. intros E. exists ans.
  destruct ans as [[]|[why found|why]]; injection E as <- <-; split; cbn; eauto.
Qed.

(** A call of [answered] asks for nothing to be moved, or judges first. *)
Lemma answered_on_word id h op p a su n s :
  (∃ extra, log (answered id h op p a su n s).2 = log s ++ extra ∧ Forall still extra) ∨
  ∃ r stored s1 answer s2 ans, access (host s) = IsReady r ∧ quiet s s1 ∧
    judge_approved r id h op p a su n stored s1 = (ROk answer, s2) ∧
    log (answered id h op p a su n s).2 = log s2 ++ [SaidAnswer (scope r) id (run r) ans].
Proof.
  set (P := λ s' : Sys W, (∃ extra, log s' = log s ++ extra ∧ Forall still extra) ∨
    ∃ r stored s1 answer s2 ans, access (host s) = IsReady r ∧ quiet s s1 ∧
    judge_approved r id h op p a su n stored s1 = (ROk answer, s2) ∧ log s' = log s2 ++ [SaidAnswer (scope r) id (run r) ans]).
  change (P (answered id h op p a su n s).2).
  assert (∀ (A : Type) (m : act (Sys W) A Stop) (k : A → act (Sys W) Answer Stop) t, quiet s t →
    keeps quiet m → (∀ a t', m t = (ROk a, t') → quiet s t' → P (k a t').2) → P (after m k t).2) as Hafter.
  { intros A m k t Ht Hm Hk. specialize (Hm t) as Hq. unfold after. destruct (m t) as [[x|e] t1] eqn:E.
    - apply Hk; [done|]. etrans; [exact Ht | exact Hq].
    - left. eapply (q_log s t1). etrans; [exact Ht | exact Hq]. }
  unfold answered.
  apply Hafter; [reflexivity | solve_keeps | intros r s1 [_ Ha]%enter_ok Q1].
  apply Hafter; [done | solve_keeps | intros _ s2 _ Q2].
  apply Hafter; [done | solve_keeps | intros _ s3 _ Q3].
  apply Hafter; [done | solve_keeps | intros stored s4 _ Q4].
  do 2 (apply Hafter; [done | solve_keeps | intros _ ? _ ?]).
  apply Hafter; [done | solve_keeps | intros _ s7 _ Q7].
  unfold take_approved. unfold after at 1.
  pose proof (calm_judge (W := W) quiet r id h op p a su n stored s7) as Hq.
  destruct (judge_approved r id h op p a su n stored s7) as [[answer|e] s8] eqn:Ej; cbn in Hq.
  - unfold after at 1. destruct (move_to_run r id s8) as [x s9] eqn:Em.
    destruct (move_log _ _ _ _ _ Em) as (ans & El & Hx).
    right. exists r, stored, s7, answer, s8, ans. split_and!; [exact Ha | exact Q7 | exact Ej |].
    destruct Hx as [->|[e ->]]; exact El.
  - left. assert (quiet s s8) as Q8 by (etrans; [exact Q7 | exact Hq]). by destruct e as [e|e|]; apply (q_log _ _ Q8).
Qed.

(** C31: A task is taken on the owner's word only.  When a call asks the store to move a
    task to this run, the task's sealed copy opened under the key of that task of this
    project and owner; the approval's signature verified over the sentence that names
    the owner, the task, the hash of what is sealed and the digest of what was supplied
    and written, at a time within its window and before the task's end; the chain said
    during the call that the key that signed is a full-access key of the owner's
    account; the run is the preparer's, with the consent's payment key, wallet, identity
    and compute, in the operation, for the row, under the policy and by the build the
    task was made with. *)
Theorem task_taken_on_owners_word id h op p a su n s extra sc i rn ans :
  log (answered id h op p a su n s).2 = log s ++ extra → SaidAnswer sc i rn ans ∈ extra →
  ∃ r sealed k task now m,
    (access (host s) = IsReady r ∧ sc = scope r ∧ i = id ∧ rn = run r) ∧
    (keys_of r id = Some k ∧ unseal_with k (scope r) id sealed = ROk task ∧ env_id (u_envelope task) = id ∧
     env_owner (u_envelope task) = scope_owner (scope r)) ∧
    owners_word r id h op p a su n task now ∧ SaidNow now ∈ extra ∧
    (approval_sentence (scope_owner (scope r)) id (u_hash task) (supply_digest su n) (ap_at a) = Some m ∧
     verify_nep413 m (ap_public_key a) (ap_signature a) (ap_nonce a) (recipient r) = ROk tt ∧
     SaidKey (scope_owner (scope r)) (ap_public_key a) (ROk ItsKey) ∈ extra) ∧
    (ap_at a < expires_at (u_envelope task) ∧
     (Z.abs now < 2 ^ 62 → now - APPROVAL_AGE_SECS ≤ ap_at a ≤ now + APPROVAL_AHEAD_SECS)).
Proof.
  intros El Hin.
  destruct (answered_on_word id h op p a su n s) as [Hq|(r & stored & s1 & answer & s2 & ans' & Ha & Q1 & Hj & E2)].
  { exfalso. destruct Hq as (e & Ee & Hs). rewrite El in Ee. apply app_inv_head in Ee as ->.
    rewrite Forall_forall in Hs. exact (Hs _ Hin). }
  destruct (judge_approved_ok _ _ _ _ _ _ _ _ _ _ _ _ Hj)
    as (sealed & k & task & now & mid & Hsd & Hk & Hu & Hw & El2 & Hnow & Hkey & _).
  destruct Q1 as [_ _ _ _ (e1 & El1 & Hs1)]. rewrite El, El2, El1, <- !app_assoc in E2. apply app_inv_head in E2 as ->.
  assert (Forall still mid) as Hs2.
  { pose proof (keeps_run _ _ _ _ _ (calm_judge (W := W) quiet r id h op p a su n stored) Hj) as [_ _ _ _ (e2 & Ee2 & Hs2)].
    rewrite El2 in Ee2. by apply app_inv_head in Ee2 as ->. }
  assert (SaidAnswer sc i rn ans = SaidAnswer (scope r) id (run r) ans') as [= -> -> -> ->].
  { rewrite Forall_forall in Hs1, Hs2. apply elem_of_app in Hin as [Hin|Hin]; [by destruct (Hs1 _ Hin)|].
    apply elem_of_app in Hin as [Hin|Hin]; [by destruct (Hs2 _ Hin)|]. by apply list_elem_of_singleton in Hin. }
  destruct (unseal_with_ok _ _ _ _ _ Hu) as (Hid & Hown & _).
  pose proof (wd_signed _ _ _ _ _ _ _ _ _ _ Hw) as Hsig. rewrite Hown in Hsig, Hkey.
  destruct (approval_signed_ok _ _ _ _ _ _ _ _ _ Hsig) as (m & Hm & Hv & Hex & Hwin).
  exists r, sealed, k, task, now, m. split_and!; try done; rewrite ?elem_of_app; auto.
Qed.
End owner.

(** * What is opened is what is read back *)

(** Documented behaviour of the crates: what a cipher encrypts it decrypts under the same
    key, nonce and associated data, the ciphertext carrying its tag; what is written as
    hexadecimal, base64 or JSON reads back. *)
Class CryptoLaws `{TaskCrypto} : Prop := {
  xchacha_opens key nonce aad text ct : xchacha_encrypt key nonce aad text = Some ct →
    xchacha_decrypt key nonce aad ct = Some text ∧ (TAG_LEN <= String.length ct)%nat;
  gcm_opens key nonce aad text ct : gcm_encrypt key nonce aad text = Some ct →
    gcm_decrypt key nonce aad ct = Some text ∧ (TAG_LEN <= String.length ct)%nat;
  hex_reads s : hex_decode_bytes (hex_lower s) = Some s;
  b64_reads s : b64_decode (b64_encode s) = Some s;
  envelope_reads e doc : envelope_write e = Some doc → envelope_read doc = Some e;
  sealed_reads t text : sealed_write t = Some text → sealed_read text = Some t;
}.

(** The host's randomness fills what it is asked to fill. *)
Definition fills {W} `{TaskWorld W} : Prop := ∀ n w b w', w_random n w = (ROk b, w') → String.length b = n.

Section roundtrip.
Context `{CryptoLaws} {W : Type} `{TaskWorld W} (Hfill : fills).
Implicit Types s : Sys W.

Lemma split_blob_app n t nonce ct : String.length nonce = n → (t <= String.length ct)%nat →
  split_blob n t (FORMAT +:+ nonce +:+ ct) = Some (nonce, ct).
Proof.
  intros Hn Ht. unfold split_blob.
  assert (starts_with (FORMAT +:+ nonce +:+ ct) FORMAT = true) as -> by (apply prefix_append; eauto).
  assert ((String.length (FORMAT +:+ nonce +:+ ct) <? 1 + n + t)%nat = false) as ->.
  { apply Nat.ltb_ge. cbn. rewrite str_length_append. lia. }
  cbn [orb negb]. change 1%nat with (String.length FORMAT). rewrite str_drop_length_app, <- Hn.
  by rewrite str_take_length_app, str_drop_length_app.
Qed.

Lemma random_ok {E} n (e : E) s b s' : random n e s = (ROk b, s') → String.length b = n.
Proof.
  unfold random, on_err, ask. destruct (w_random n (world s)) as [[x|] w] eqn:E'; [|done].
  intros [= <- <-]. by eapply Hfill.
Qed.

Lemma seal_opens k what id text s blob s' : seal k what id text s = (ROk blob, s') →
  open_sealed k what id blob = ROk text.
Proof.
  unfold seal. intros (nonce & s1 & Hn%random_ok & Hs)%after_ok. unfold lift, seal_with in Hs.
  destruct (xchacha_encrypt _ _ _ _) as [ct|] eqn:Ex; [|done].
  cbn [rbind ok_or map_err] in Hs. assert (blob = FORMAT +:+ nonce +:+ ct) as -> by congruence.
  apply xchacha_opens in Ex as [Hd Ht]. unfold open_sealed. rewrite split_blob_app by done. by rewrite Hd.
Qed.
Lemma encrypt_opens key aad text s blob s' : encrypt key aad text s = (ROk blob, s') →
  decrypt_under key aad blob = ROk text.
Proof.
  unfold encrypt. intros (nonce & s1 & Hn%random_ok & Hs)%after_ok. unfold lift, encrypt_under in Hs.
  destruct (gcm_encrypt _ _ _ _) as [ct|] eqn:Ex; [|done].
  cbn [rbind ok_or map_err] in Hs. assert (blob = FORMAT +:+ nonce +:+ ct) as -> by congruence.
  apply gcm_opens in Ex as [Hd Ht]. unfold decrypt_under. rewrite split_blob_app by done. by rewrite Hd.
Qed.

Definition file_note (f : WitFile) : FileNote :=
  mkFileNote (wf_content_type f) (wf_name f) (hash (wf_data f)) (str_len (wf_data f)).
Lemma encrypted_files_open key id l : ∀ at_ s blobs s', encrypt_files key id at_ l s = (ROk blobs, s') →
  open_files key id at_ (map file_note l) blobs = ROk l ∧ length blobs = length l.
Proof.
  induction l as [|f l IH]; intros at_ s blobs s'; cbn [encrypt_files].
  { intros [= <- <-]. done. }
  intros (blob & s1 & He & (rest & s2 & Hr & Hg)%after_ok)%after_ok. injection Hg as <- <-.
  apply encrypt_opens in He. apply IH in Hr as [Hr Hl]. cbn. unfold decrypt_file. rewrite He. cbn.
  rewrite String.eqb_refl, Z.eqb_refl. cbn. rewrite Hr. cbn. split; [by destruct f | by rewrite Hl].
Qed.

Lemma kind_checked request k r id thread now life : one_of_kind request = ROk tt →
  check_kind (envelope_of r k request id thread now life) = ROk tt.
Proof.
  unfold one_of_kind, check_kind, envelope_of. cbn. destruct (rq_kind request), (rq_answer_by request); cbn; try done.
Qed.

Lemma sealed_unseals r k request id thread now life doc key consent plain sealed s s' :
  let task := envelope_of r k request id thread now life in
  envelope_write task = Some doc → one_of_kind request = ROk tt → String.length key = 32%nat →
  bool_decide (is_Some consent) = takes_an_answer (rq_kind request) →
  sealed_write (mkSealed (hex_lower key) doc (b64_encode (rq_state request)) consent) = Some plain →
  seal k SealTask id plain s = (ROk sealed, s') →
  unseal_with k (scope r) id sealed = ROk (mkUnsealed task (hash doc) (rq_state request) key consent).
Proof.
  intros task Hdoc Hkind Hkey Hcon Hsw Hseal. unfold unseal_with. rewrite (seal_opens _ _ _ _ _ _ _ Hseal).
  cbn [rbind map_err]. rewrite (sealed_reads _ _ Hsw). cbn [rbind ok_or sealed_envelope sealed_state sealed_content_key sealed_consent].
  unfold from_bytes. rewrite (envelope_reads _ _ Hdoc). cbn [rbind ok_or].
  pose proof (kind_checked request k r id thread now life Hkind) as Hck. fold task in Hck. rewrite Hck. cbn [rbind map_err].
  rewrite b64_reads, hex_reads. cbn. unfold sized, str_len. rewrite Hkey. cbn.
  by rewrite !String.eqb_refl, Hcon, eqb_reflx.
Qed.

Lemma given_four {A B C D} (a a' : A) (b b' : B) (c c' : C) (d d' : D) s s' :
  (give (a, b, c, d) : act (Sys W) _ Stop) s = (ROk (a', b', c', d'), s') → a = a' ∧ b = b' ∧ c = c' ∧ d = d'.
Proof. unfold give. by intros [= -> -> -> ->]. Qed.
Lemma lift_ok_or {A} (o : option A) e s a s' : (lift (ok_or o e) : act (Sys W) A Stop) s = (ROk a, s') → o = Some a.
Proof. unfold lift. destruct o; [by intros [= -> _] | done]. Qed.
Lemma lift_checked f (x : result unit string) s a s' : (lift (map_err f x) : act (Sys W) unit Stop) s = (ROk a, s') → x = ROk tt.
Proof. unfold lift, map_err. by destruct x as [[]|]. Qed.
Lemma keys_ok r id s k s' : keys r id s = (ROk k, s') → keys_of r id = Some k.
Proof. unfold keys. destruct (keys_of r id); [by intros [= -> _] | done]. Qed.
Lemma consent_kept takes (own : option Consent) s con s' :
  (match takes, own with
  | false, _ => give None
  | true, Some c => give (Some c)
  | true, None => refuse NoPaymentKey
      "the consent to carry out the owner's answer is a payment key — the run that carries it out is paid by that key — so a task that takes an answer is opened over HTTPS with one"
  end : act (Sys W) _ Stop) s = (ROk con, s') → bool_decide (is_Some con) = takes.
Proof. destruct takes, own; try done; unfold give; by intros [= <- _]. Qed.

Lemma prepared_reads_back o c request s r new task doc s' :
  prepare_open o c request s = (ROk (r, new, task, doc), s') →
  ∃ k key consent, access (host s) = IsReady r ∧ keys_of r (nt_id new) = Some k ∧
    unseal_with k (scope r) (nt_id new) (nt_sealed new) = ROk (mkUnsealed task (hash doc) (rq_state request) key consent) ∧
    (∃ thread now life, task = envelope_of r k request (nt_id new) thread now life) ∧
    envelope_write task = Some doc ∧ decrypt_under key (nt_id new) (nt_content new) = ROk doc ∧
    open_files key (nt_id new) 0 (files task) (nt_files new) = ROk (rq_files request).
Proof.
  intros Hp. pose proof (proj1 (prepare_open_ok _ _ _ _ _ _ _ _ _ Hp)) as Ha.
  unfold prepare_open in Hp. ainv Hp. cbv zeta in Hp. ainv Hp.
  apply given_four in Hp as (-> & <- & <- & <-).
  apply keys_ok in Hx8. apply lift_checked in Hx3. apply consent_kept in Hx4.
  apply lift_ok_or in Hx10, Hx17. pose proof (random_ok _ _ _ _ _ Hx12) as Hkey.
  exists a8, a12, a4. cbn [nt_id nt_sealed nt_content nt_files].
  revert Hx8 Hx10 Hx13 Hx14 Hx18. generalize (run r +:+ "-" +:+ uint_to_string o). intros id Hx8 Hx10 Hx13 Hx14 Hx18.
  split; [exact Ha|]. split; [exact Hx8|].
  split; [exact (sealed_unseals _ _ _ _ _ _ _ _ _ _ _ _ _ _ Hx10 Hx3 Hkey Hx4 Hx17 Hx18)|].
  split; [by do 3 eexists|]. split; [exact Hx10|].
  split; [exact (encrypt_opens _ _ _ _ _ _ Hx13)|]. exact (proj1 (encrypted_files_open _ _ _ _ _ _ _ Hx14)).
Qed.

(** What a task is opened with is what is read back.  When opening succeeds, the
    store was handed a task whose sealed copy, under the key of that task of the run's
    project and owner, opens as an envelope that shows the request's display and holds
    the hashes of its policy and state, with the state itself, the consent, and the hash
    the component was told; whose content decrypts to that envelope's document; and whose
    files decrypt, each in its place, to the files handed in. *)
Theorem opened_task_reads_back request another s o s' :
  open_as request another s = (ROk o, s') →
  ∃ r new k e doc key consent n,
    (log s' = removelast (log s') ++ [SaidOpen (scope r) new (ROk n)] ∧ access (host s) = IsReady r ∧
     keys_of r (nt_id new) = Some k ∧ op_id o = nt_id new) ∧
    unseal_with k (scope r) (nt_id new) (nt_sealed new) = ROk (mkUnsealed e (op_hash o) (rq_state request) key consent) ∧
    (display e = rq_display request ∧ policy_hash e = hash (rq_policy request) ∧ preparer e = caller r ∧
     expires_at e = op_expires_at o) ∧
    (envelope_write e = Some doc ∧ op_hash o = hash doc ∧ decrypt_under key (nt_id new) (nt_content new) = ROk doc) ∧
    open_files key (nt_id new) 0 (files e) (nt_files new) = ROk (rq_files request).
Proof.
  unfold open_as. intros (h & s0 & Hh & Ho)%after_ok. injection Hh as <- <-.
  apply after_ok in Ho as ([[[r new] task] doc] & s1 & Hp & Ho).
  destruct (prepared_reads_back _ _ _ _ _ _ _ _ _ Hp) as (k & key & consent & Ha & Hk & Hu & Htask & Hdoc & Hc & Hf).
  unfold store, on_err, ask in Ho. destruct (w_open (scope r) new (world s1)) as [[n|e] w]; cbn in Ho; [|discriminate Ho].
  injection Ho as <- <-. cbn [log op_id op_hash op_expires_at].
  exists r, new, k, task, doc, key, consent, n.
  destruct Htask as (thread & now & life & ->).
  split; [split_and!; [by rewrite removelast_last | exact Ha | exact Hk | reflexivity]|].
  split; [exact Hu|]. split; [split_and!; reflexivity|].
  split; [split_and!; [exact Hdoc | reflexivity | exact Hc] | exact Hf].
Qed.
End roundtrip.

(** * The search for a reply key ends *)

Lemma find_from_exact {A} (f : Z → option A) depth : ∀ n,
  match find_from f depth n with
  | Some a => ∃ i, n ≤ i < n + 2 ^ Z.of_nat depth ∧ f i = Some a ∧ ∀ j, n ≤ j < i → f j = None
  | None => ∀ j, n ≤ j < n + 2 ^ Z.of_nat depth → f j = None
  end.
Proof.
  induction depth as [|depth IH]; intros n.
  { change (2 ^ Z.of_nat 0) with 1. cbn. destruct (f n) as [a|] eqn:E.
    - exists n. split_and!; [lia.. | done | intros; lia].
    - intros j Hj. by replace j with n by lia. }
  cbn [find_from]. rewrite Nat2Z.inj_succ, Z.pow_succ_r by lia.
  specialize (IH n) as IH1. specialize (IH (n + 2 ^ Z.of_nat depth)) as IH2.
  destruct (find_from f depth n) as [a|].
  { destruct IH1 as (i & Hi & Hf & Hl). exists i. split_and!; [lia.. | done | done]. }
  destruct (find_from f depth (n + 2 ^ Z.of_nat depth)) as [a|].
  - destruct IH2 as (i & Hi & Hf & Hl). exists i. split_and!; [lia.. | done|].
    intros j Hj. destruct (decide (j < n + 2 ^ Z.of_nat depth)); [apply IH1 | apply Hl]; lia.
  - intros j Hj. destruct (decide (j < n + 2 ^ Z.of_nat depth)); [apply IH1 | apply IH2]; lia.
Qed.

Section search.
Context `{TaskCrypto}.

(** What counter [n] gives for a reply key. *)
Definition reply_candidate (project_key task : string) (n : Z) : string :=
  hmac_sha256 (hmac_sha256 project_key ("task:" +:+ task)) ("reply:" +:+ be_bytes4 n).

End search.
