(* ===== verification/TaskSamples.v ===== *)
(** Concrete crates, a task store and two runs: the preparer's, which opens a task, and
    the one that carries out its owner's answer.  The theorems on tasks are applied to
    them. *)

From stdpp Require Import countable.
From S2P Require Export Samples TaskAnswer.

(** * Records as text *)

(** Fields written one after another, each after its length. *)
Fixpoint write_fields (l : list string) : option string :=
  match l with
  | [] => Some ""
  | s :: l => a ← borsh_string s; b ← write_fields l; Some (a +:+ b)
  end.
Fixpoint le_value (k : nat) (s : string) : Z :=
  match k, s with S k, String c s => byte_of c + 256 * le_value k s | _, _ => 0 end.
Fixpoint read_fields (fuel : nat) (s : string) : option (list string) :=
  match fuel with
  | O => None
  | S fuel =>
    if str_is_empty s then Some [] else
    let n := Z.to_nat (le_value 4 s) in
    let body := str_drop 4 s in
    rest ← read_fields fuel (str_drop n body); Some (str_take n body :: rest)
  end.

Lemma le_value_bytes k : ∀ n s, 0 ≤ n < 256 ^ Z.of_nat k → le_value k (le_bytes k n +:+ s) = n.
Proof.
  induction k as [|k IH]; intros n s Hn; [cbn in *; lia|].
  assert (256 ^ Z.of_nat (S k) = 256 * 256 ^ Z.of_nat k) as Ek by (rewrite Nat2Z.inj_succ, Z.pow_succ_r; lia).
  cbn [le_bytes le_value String.append]. rewrite byte_of_ascii_of_N by (Z.to_euclidean_division_equations; lia).
  rewrite IH by (Z.to_euclidean_division_equations; nia).
  rewrite Z2N.id by (Z.to_euclidean_division_equations; lia). Z.to_euclidean_division_equations. lia.
Qed.
Lemma read_written l : ∀ fuel s, write_fields l = Some s → (length l < fuel)%nat → read_fields fuel s = Some l.
Proof.
  induction l as [|x l IH]; intros [|fuel] s; cbn [write_fields length]; try lia; [by intros [= <-]|].
  intros (a & Ha & (b & Hb & E)%bind_Some)%bind_Some Hf. assert (s = a +:+ b) as -> by congruence.
  unfold borsh_string in Ha. destruct (str_len x <=? U32_MAX) eqn:El; [|done].
  assert (a = le_bytes 4 (str_len x) +:+ x) as -> by congruence. rewrite str_append_assoc.
  cbn [read_fields]. rewrite le_value_bytes by (unfold str_len, U32_MAX in *; lia).
  assert (str_drop 4 (le_bytes 4 (str_len x) +:+ x +:+ b) = x +:+ b) as -> by done.
  unfold str_len. rewrite Nat2Z.id, str_take_length_app, str_drop_length_app, (IH fuel b) by (done || lia). done.
Qed.
Lemma written_length l : ∀ s, write_fields l = Some s → (length l <= String.length s)%nat.
Proof.
  induction l as [|x l IH]; intros s; cbn [write_fields length]; [lia|].
  intros (a & Ha & (b & Hb & E)%bind_Some)%bind_Some. assert (s = a +:+ b) as -> by congruence.
  unfold borsh_string in Ha. destruct (_ <=? _); [|done]. injection Ha as <-.
  apply IH in Hb. rewrite str_length_append. cbn. lia.
Qed.

(** What is written as text and read back. *)
Class Text (A : Type) := {
  to_text : A → option string;
  from_text : string → option A;
  from_to_text a s : to_text a = Some s → from_text s = Some a;
}.
Definition fields_of (s : string) : option (list string) := read_fields (S (String.length s)) s.
Definition join (l : list (option string)) : option string := l ← mapM id l; write_fields l.
Lemma fields_of_join l s : join l = Some s → ∃ l', Forall2 (λ o x, o = Some x) l l' ∧ fields_of s = Some l'.
Proof.
  intros (l' & Hm%mapM_Some_1 & Hw)%bind_Some. exists l'. split; [exact Hm|].
  apply read_written; [exact Hw|]. apply written_length in Hw. lia.
Qed.

#[export] Instance string_text : Text string := {| to_text := Some; from_text := Some; from_to_text a s E := eq_sym E |}.
#[export] Instance list_text {A} `{Text A} : Text (list A).
Proof.
  refine {|
  to_text l := join (map to_text l);
  from_text s := l ← fields_of s; mapM from_text l |}.
  intros l s (l' & Hl & Hf)%fields_of_join. rewrite Hf. cbn. clear Hf. revert l' Hl.
  induction l as [|a l IH]; intros l' Hl; inversion Hl as [|? x ? l'' Ha Hl']; subst; [done|].
  cbn. rewrite (from_to_text _ _ Ha). cbn. by rewrite (IH _ Hl').
Defined.
#[export] Instance option_text {A} `{Text A} : Text (option A).
Proof.
  refine {|
  to_text o := match o with None => Some "" | Some a => String "." <$> to_text a end;
  from_text s := match s with "" => Some None | String _ s => Some <$> from_text s end |}.
  intros [a|] s; [|by intros [= <-]]. intros (x & Ha & ->)%fmap_Some. cbn. by rewrite (from_to_text _ _ Ha).
Defined.
(** A number as the digits of its code. *)
Fixpoint pos_text (p : positive) : string :=
  match p with xH => "" | xO p => String "0" (pos_text p) | xI p => String "1" (pos_text p) end.
Fixpoint text_pos (s : string) : positive :=
  match s with
  | "" => xH
  | String c s => if Ascii.eqb c "1" then xI (text_pos s) else xO (text_pos s)
  end.
Lemma text_pos_text p : text_pos (pos_text p) = p.
Proof. induction p as [p IH|p IH|]; cbn; [by rewrite IH..|done]. Qed.
Definition code_text {A} `{Countable A} : Text A.
Proof.
  refine {| to_text a := Some (pos_text (encode a)); from_text s := decode (text_pos s) |}.
  intros a s [= <-]. rewrite text_pos_text. apply decode_encode.
Defined.
#[export] Instance z_text : Text Z := code_text.
#[export] Instance bool_text : Text bool := code_text.
#[export] Instance kind_text : Text Kind.
Proof.
  refine {|
  to_text k := Some match k with Confirm => "confirm" | Input => "input" | Notice => "notice" end;
  from_text s := if String.eqb s "confirm" then Some Confirm else if String.eqb s "input" then Some Input else Some Notice |}.
  by intros [] s [= <-].
Defined.
#[export] Instance supplies_text : Text Supplies.
Proof.
  refine {|
  to_text k := Some match k with SuppliesNothing => "nothing" | SuppliesText => "text" | SuppliesFile => "file" end;
  from_text s := if String.eqb s "nothing" then Some SuppliesNothing else
    if String.eqb s "text" then Some SuppliesText else Some SuppliesFile |}.
  by intros [] s [= <-].
Defined.
#[export] Instance written_by_text : Text WrittenBy.
Proof.
  refine {|
  to_text k := Some match k with ByProject => "project" | ByAgent => "agent" end;
  from_text s := if String.eqb s "project" then Some ByProject else Some ByAgent |}.
  by intros [] s [= <-].
Defined.
#[export] Instance field_kind_text : Text FieldKind.
Proof.
  refine {|
  to_text k := Some (field_kind_name k);
  from_text s := snd <$> find (λ p, String.eqb s p.1)
    (map (λ k, (field_kind_name k, k)) [FMoney; FAccount; FAddress; FText; FLongText; FList]) |}.
  by intros [] s [= <-].
Defined.

(** A record's fields in order. *)
Ltac solve_record :=
  intros [] ? (? & Hl & Hf)%fields_of_join; rewrite Hf; clear Hf; cbv beta in Hl;
  repeat match goal with
  | Hx : Forall2 _ (_ :: _) _ |- _ => apply Forall2_cons_inv_l in Hx as (? & ? & ? & Hx & ->)
  | Hx : Forall2 _ [] _ |- _ => apply Forall2_nil_inv_l in Hx as ->
  end;
  cbn [mbind option_bind];
  repeat match goal with Hx : to_text _ = Some _ |- _ => apply from_to_text in Hx; rewrite Hx; clear Hx; cbn [mbind option_bind] end;
  reflexivity.
#[export] Instance field_text : Text Field.
Proof.
  refine {|
    to_text x := join [to_text (field_kind x); to_text (label x); to_text (field_values x); to_text (written_by x)];
    from_text s := l ← fields_of s;
      match l with
      | [a; b; c; d] =>
        a ← from_text a; b ← from_text b; c ← from_text c; d ← from_text d; Some (mkField a b c d)
      | _ => None
      end |}.
  solve_record.
Defined.
#[export] Instance display_text : Text Display.
Proof.
  refine {|
    to_text x := join [to_text (fields x); to_text (title x)];
    from_text s := l ← fields_of s;
      match l with
      | [a; b] =>
        a ← from_text a; b ← from_text b; Some (mkDisplay a b)
      | _ => None
      end |}.
  solve_record.
Defined.
#[export] Instance answer_by_text : Text AnswerBy.
Proof.
  refine {|
    to_text x := join [to_text (ab_operation x); to_text (supplies x)];
    from_text s := l ← fields_of s;
      match l with
      | [a; b] =>
        a ← from_text a; b ← from_text b; Some (mkAnswerBy a b)
      | _ => None
      end |}.
  solve_record.
Defined.
#[export] Instance file_note_text : Text FileNote.
Proof.
  refine {|
    to_text x := join [to_text (content_type x); to_text (file_name x); to_text (file_sha256 x); to_text (file_size x)];
    from_text s := l ← fields_of s;
      match l with
      | [a; b; c; d] =>
        a ← from_text a; b ← from_text b; c ← from_text c; d ← from_text d; Some (mkFileNote a b c d)
      | _ => None
      end |}.
  solve_record.
Defined.
#[export] Instance consent_text : Text Consent.
Proof.
  refine {|
    to_text x := join [to_text (payment_key_nonce x); to_text (wallet x); to_text (bound_identity x);
      to_text (compute_limit_usd x)];
    from_text s := l ← fields_of s;
      match l with
      | [a; b; c; d] =>
        a ← from_text a; b ← from_text b; c ← from_text c; d ← from_text d; Some (mkConsent a b c d)
      | _ => None
      end |}.
  solve_record.
Defined.
#[export] Instance sealed_text : Text SealedTask.
Proof.
  refine {|
    to_text x := join [to_text (sealed_content_key x); to_text (sealed_envelope x); to_text (sealed_state x);
      to_text (sealed_consent x)];
    from_text s := l ← fields_of s;
      match l with
      | [a; b; c; d] =>
        a ← from_text a; b ← from_text b; c ← from_text c; d ← from_text d; Some (mkSealed a b c d)
      | _ => None
      end |}.
  solve_record.
Defined.
#[export] Instance envelope_text : Text Envelope.
Proof.
  refine {|
    to_text x := join [to_text (answer_by x); to_text (build x); to_text (created_at x); to_text (display x);
      to_text (expires_at x); to_text (files x); to_text (env_id x); to_text (kind x); to_text (env_owner x);
      to_text (policy_hash x); to_text (preparer x); to_text (env_profile x); to_text (project x);
      to_text (env_project_uuid x); to_text (reply_pubkey x); to_text (state_hash x); to_text (thread x);
      to_text (version x)];
    from_text s := l ← fields_of s;
      match l with
      | [a; b; c; d; e; f; g; h; i; j; k; l; m; n; o; p; q; r] =>
        a ← from_text a; b ← from_text b; c ← from_text c; d ← from_text d; e ← from_text e; f ← from_text f;
        g ← from_text g; h ← from_text h; i ← from_text i; j ← from_text j; k ← from_text k; l ← from_text l;
        m ← from_text m; n ← from_text n; o ← from_text o; p ← from_text p; q ← from_text q; r ← from_text r;
        Some (mkEnvelope a b c d e f g h i j k l m n o p q r)
      | _ => None
      end |}.
  solve_record.
Defined.

(** * The crates *)

Definition toy_sha (s : string) : string :=
  le_bytes 32 (foldl (λ h b, Z.land (h * 257 + b) (2 ^ 256 - 1)) 7 (str_bytes s)).
Definition toy_crates : Crates := {|
  sha_256 := toy_sha;
  b58_decode := sample_hex_decode;
  b64_encode := sample_hex_encode;
  b64_decode := sample_hex_decode;
  b64url_decode := sample_hex_decode;
  hex_lower := sample_hex_encode;
  ed25519_key := λ _, true;
  ed25519_verifies := λ key message signature, String.eqb signature (message +:+ key);
  p256_point := λ _, true;
|}.
Lemma toy_crate_laws : @CrateLaws toy_crates.
Proof.
  assert (∀ a b, sample_hex_encode a = sample_hex_encode b → a = b) as Hinj.
  { intros a b E. apply (inj Some). by rewrite <- (sample_hex_roundtrip a), E, sample_hex_roundtrip. }
  split; cbn; [apply sample_hex_digits | exact Hinj | exact Hinj |].
  intros s. eapply forall_bytes_no_byte; [apply sample_hex_digits | done].
Qed.

Definition toy_tag : string := "0123456789abcdef".
Definition toy_encrypt (key nonce aad text : string) : option string := Some (toy_tag +:+ text).
Definition toy_decrypt (key nonce aad ct : string) : option string := strip_prefix toy_tag ct.
Lemma toy_opens key nonce aad text ct : toy_encrypt key nonce aad text = Some ct →
  toy_decrypt key nonce aad ct = Some text ∧ (TAG_LEN <= String.length ct)%nat.
Proof.
  intros E. assert (ct = toy_tag +:+ text) as -> by (unfold toy_encrypt in E; congruence).
  unfold toy_decrypt, strip_prefix.
  assert (starts_with (toy_tag +:+ text) toy_tag = true) as -> by (apply prefix_append; eauto).
  rewrite str_drop_length_app. split; [done|]. rewrite str_length_append.
  change (String.length toy_tag) with TAG_LEN. lia.
Qed.

Definition toy_crypto : TaskCrypto := {|
  task_crates := toy_crates;
  task_unicode := sample_unicode;
  hmac_sha256 := λ key text, toy_sha (key +:+ text);
  scalar_ok := λ _, true;
  point_of := λ s, s;
  b64url_encode := sample_hex_encode;
  diffie_hellman := λ a b, a +:+ b;
  hkdf_sha256 := λ a b c, toy_sha (a +:+ b +:+ c);
  xchacha_encrypt := toy_encrypt;
  xchacha_decrypt := toy_decrypt;
  gcm_encrypt := toy_encrypt;
  gcm_decrypt := toy_decrypt;
  hex_decode_bytes := sample_hex_decode;
  envelope_write := to_text;
  envelope_read := from_text;
  sealed_write := to_text;
  sealed_read := from_text;
|}.
Lemma toy_crypto_laws : @CryptoLaws toy_crypto.
Proof.
  split; [exact toy_opens | exact toy_opens | exact sample_hex_roundtrip | exact sample_hex_roundtrip |
          exact from_to_text | exact from_to_text].
Qed.

(** * The world *)

(** A store that keeps what is opened, every kept task approved by its owner; a chain
    that knows one key; a clock that stands still. *)
Definition toy_key : string := "kkkkkkkkkkkkkkkkkkkkkkkkkkkkkkkk".
Definition toy_pubkey : string := "ed25519:" +:+ sample_hex_encode toy_key.
Definition toy_missing {A} : act (list NewTask) A StoreError := stop (Refused RefNotFound None).
Definition toy_world : TaskWorld (list NewTask) := {|
  w_devices := λ _, give [];
  w_open := λ _ new w, (ROk 0, w ++ [new]);
  w_mine := λ _ _ _, give [];
  w_get := λ _ id w,
    match filter (λ t, nt_id t = id) w with
    | t :: _ => (ROk (mkStored id (nt_preparer t) (nt_kind t) Approved (nt_expires_at t) (Some (nt_sealed t)) (nt_files t)), w)
    | [] => (RErr (Refused RefNotFound None), w)
    end;
  w_waiting := λ _, give [];
  w_copies := λ _ _, give (mkWritten 0 0);
  w_answer := λ _ _ _, give tt;
  w_void := λ _ _, give tt;
  w_cancel := λ _ _ _, toy_missing;
  w_delete := λ _ _ _, toy_missing;
  w_access_key := λ _ key, give (if String.eqb key toy_pubkey then ItsKey else NotItsKey);
  w_now := λ w, (1700000000, w);
  w_random := λ n, give (String.string_of_list_ascii (repeat "r"%char n));
  w_scalar := λ w, ("s", w);
|}.
Lemma toy_fills : @fills (list NewTask) toy_world.
Proof.
  intros n w b w'. cbn. intros [= <- <-]. induction n as [|n IH]; cbn; [done | by rewrite IH].
Qed.
#[local] Existing Instances toy_crypto toy_world.

Definition toy_run (name : string) (op : option string) : Ready :=
  mkReady (mkGrant "project key" true None) name "bob.near/agent" "build1" op (mkScope "uuid1" "alice.near") "main"
    [] [] "agent.near" (Some (mkConsent 3 None true "1000")) "outlayer.near".
Definition toy_host (r : Ready) : Host := mkHost (IsReady r) 0 0 None Unanswered (mkReport [] []).
Definition toy_request : Request :=
  mkRequest Confirm (Some (mkAnswerBy "pay" SuppliesNothing))
    (mkDisplay [mkField FMoney "Amount" ["10 NEAR"] ByProject] "Pay the invoice")
    [mkWitFile "invoice.txt" "text/plain" "ten"] "state" "policy" 0.

Definition toy_start : Sys (list NewTask) := mkSys (toy_host (toy_run "r1" None)) [] [].
Definition toy_store : list NewTask := Eval vm_compute in world (open_as toy_request false toy_start).2.
Definition toy_hash : string := Eval vm_compute in
  match (open_as toy_request false toy_start).1 with ROk o => op_hash o | RErr _ => "" end.

(** What the owner's wallet signs, and the approval it makes. *)
Definition toy_nonce : string := "nnnnnnnnnnnnnnnnnnnnnnnnnnnnnnnn".
Definition toy_sentence : option string :=
  approval_sentence "alice.near" "r1-0" toy_hash (supply_digest None None) 1700000000.
Definition toy_approval : Approval := Eval vm_compute in
  mkApproval 1700000000 toy_pubkey
    (match m ← toy_sentence; nep413_bytes m toy_nonce "outlayer.near" with
     | Some b => sample_hex_encode (toy_sha b +:+ toy_key)
     | None => ""
     end) (sample_hex_encode toy_nonce).
Definition toy_later : Sys (list NewTask) := mkSys (toy_host (toy_run "r2" (Some "pay"))) toy_store [].

(** * The theorems applied *)

Lemma approval_covers_one_task_witness : ∃ m bytes,
  approval_sentence "alice.near" "r1-0" (hex_lower (sha_256 "doc")) (supply_digest None None) 1700000000 = Some m ∧
  nep413_bytes m toy_nonce "outlayer.near" = Some bytes ∧
  ∀ account device until nonce0 r0 m0, sentence account device until = Some m0 → nep413_bytes m0 nonce0 r0 ≠ Some bytes.
Proof.
  assert (is_Some (m ← approval_sentence "alice.near" "r1-0" (hex_lower (sha_256 "doc")) (supply_digest None None)
    1700000000; nep413_bytes m toy_nonce "outlayer.near")) as [bytes (m & Hm & Hb)%bind_Some] by (vm_compute; eauto).
  exists m, bytes. split; [exact Hm|]. split; [exact Hb|].
  assert (account_like "alice.near" ∧ is_id "r1-0" = true ∧ str_len toy_nonce = 32) as (Ha & Hi & Hn) by done.
  exact (proj2 (proj2 (proj2 (proj2 (@approval_covers_one_task toy_crates toy_crate_laws _ _ _ _ _ _ _ _
    _ _ _ _ _ _ _ _ _ _ _ Ha Ha Hi Hi Hn Hn Hm Hm Hb Hb))))).
Defined.

Definition went_well {S A E} (x : result A E * S) : bool := match x.1 with ROk _ => true | RErr _ => false end.
Lemma went_well_ok {S A E} (x : result A E * S) : went_well x = true → ∃ o s', x = (ROk o, s').
Proof. destruct x as [[o|] s']; cbn; [by eauto | done]. Qed.
Lemma toy_opens_one : went_well (open_as toy_request false toy_start) = true.
Proof. vm_compute. reflexivity. Qed.

Lemma opened_task_reads_back_witness : ∃ o s', open_as toy_request false toy_start = (ROk o, s') ∧
  ∃ r new k e doc key consent,
    unseal_with k (scope r) (nt_id new) (nt_sealed new) = ROk (mkUnsealed e (op_hash o) (rq_state toy_request) key consent) ∧
    decrypt_under key (nt_id new) (nt_content new) = ROk doc ∧
    open_files key (nt_id new) 0 (files e) (nt_files new) = ROk (rq_files toy_request).
Proof.
  destruct (went_well_ok (open_as toy_request false toy_start) toy_opens_one) as (o & s' & E). exists o, s'. split; [exact E|].
  destruct (@opened_task_reads_back toy_crypto toy_crypto_laws _ toy_world toy_fills toy_request false toy_start o s' E)
    as (r & new & k & e & doc & key & consent & n & _ & Hu & _ & (_ & _ & Hd) & Hf).
  exists r, new, k, e, doc, key, consent. split; [exact Hu|]. split; [exact Hd | exact Hf].
Defined.

Definition toy_moved : Said := SaidAnswer (mkScope "uuid1" "alice.near") "r1-0" "r2" (ROk tt).
Lemma toy_moves : last (log (answered "r1-0" toy_hash "pay" "policy" toy_approval None None toy_later).2) = Some toy_moved.
Proof. vm_compute. reflexivity. Qed.
Lemma last_in {A} (l : list A) a : last l = Some a → a ∈ l.
Proof. intros [l' ->]%last_Some. apply elem_of_app. right. by left. Qed.

Lemma task_taken_on_owners_word_witness :
  toy_moved ∈ log (answered "r1-0" toy_hash "pay" "policy" toy_approval None None toy_later).2 ∧
  ∃ r task now, owners_word r "r1-0" toy_hash "pay" "policy" toy_approval None None task now.
Proof.
  pose proof (last_in (log (answered "r1-0" toy_hash "pay" "policy" toy_approval None None toy_later).2) _ toy_moves) as Hin. split; [exact Hin|].
  destruct (@task_taken_on_owners_word toy_crypto _ toy_world "r1-0" toy_hash "pay" "policy" toy_approval None None
    toy_later (log (answered "r1-0" toy_hash "pay" "policy" toy_approval None None toy_later).2)
    (mkScope "uuid1" "alice.near") "r1-0" "r2" (ROk tt)
    (eq_sym (app_nil_l (log (answered "r1-0" toy_hash "pay" "policy" toy_approval None None toy_later).2))) Hin) as (r & sealed & k & task & now & m & _ & _ & Hw & _).
  exists r, task, now. exact Hw.
Defined.

(** * A store that answers late *)

(** The store of above, whose reply to the first answer is lost, and which then refuses
    the second: the first has moved the task meanwhile. *)
Definition late_world : TaskWorld (nat * list NewTask) :=
  let on {A E} (op : act (list NewTask) A E) : act (nat * list NewTask) A E :=
    λ '(n, w), let '(x, w) := op w in (x, (n, w)) in {|
  w_devices := λ owner, on (w_devices owner);
  w_open := λ sc new, on (w_open sc new);
  w_mine := λ sc p id, on (w_mine sc p id);
  w_get := λ sc id, on (w_get sc id);
  w_waiting := λ sc, on (w_waiting sc);
  w_copies := λ sc l, on (w_copies sc l);
  w_answer := λ _ _ _ '(n, w),
    (RErr (match n with O => Unavailable "timed out" | S _ => Refused RefClosed (Some Answering) end), (S n, w));
  w_void := λ sc id, on (w_void sc id);
  w_cancel := λ sc id p, on (w_cancel sc id p);
  w_delete := λ sc id p, on (w_delete sc id p);
  w_access_key := λ a k, on (w_access_key a k);
  w_now := λ '(n, w), (1700000000, (n, w));
  w_random := λ n, on (w_random n);
  w_scalar := λ '(n, w), ("s", (n, w));
|}.

(** A run that answers a task twice, the reply to the first answer lost and the second
    refused, reports on nothing: the refusal of the second forgets the first, which the
    store may have taken. *)
Theorem retried_answer_is_forgotten :
  let answer := @answered toy_crypto _ late_world "r1-0" toy_hash "pay" "policy" toy_approval None None in
  let once := (answer (mkSys (toy_host (toy_run "r2" (Some "pay"))) (O, toy_store) [])).2 in
  let twice := (answer once).2 in
  last (log once) = Some (SaidAnswer (mkScope "uuid1" "alice.near") "r1-0" "r2" (RErr (Unavailable "timed out"))) ∧
  report (host once) = mkReport [mkAnswered "r1-0" None false] [] ∧
  last (log twice) = Some (SaidAnswer (mkScope "uuid1" "alice.near") "r1-0" "r2" (RErr (Refused RefClosed (Some Answering)))) ∧
  report (host twice) = mkReport [] [].
Proof. vm_compute. split_and!; reflexivity. Qed.
