(* ===== verification/Masters.v ===== *)
(** The keystore's masters and what is derived from them (keystore-worker/src/crypto.rs,
    mpc_ckd.rs and [AppState::ensure_customer_loaded] of api.rs).  There is one default
    master and one for each vault that was loaded; an Ed25519 pair, once derived, stays in
    a cache.  A vault's master is served only while the chain allows it, and when it does
    not the master and the pairs are dropped, by threads that run beside derivations.

    The cryptographic crates, MPC and the chain's answers are parameters. *)

From stdpp Require Import gmap strings.
From S2P Require Export Statement.

(** hmac, ed25519-dalek, x25519-dalek, hkdf, chacha20poly1305, sha2 and sha3 over bytes. *)
Class KeyCrates := {
  mac : string → string → string;              (* key, message *)
  hex_of : string → string;
  ed25519_pair : string → string * string;     (* a secret's signing and verifying key *)
  ed25519_sign : string → string → string;     (* signing key, message *)
  x25519_public : string → string;
  x25519_shared : string → string → string;    (* secret, public *)
  hkdf_expand : string → string → string;      (* key material, info *)
  chacha_seal : string → string → string → option string;  (* key, nonce, text *)
  chacha_open : string → string → string → option string;
  sha2_256 : string → string;
  sha3_256 : string → string;
}.

Definition MAX_ENCRYPTED_SIZE : Z := 10 * 1024 * 1024.
Definition HKDF_INFO : string := "outlayer-keystore-v1".
Definition ECIES_VERSION : Z := 1.

Record Keystore := mkKeystore {
  default_master : string;
  masters : gmap string string;
  keypair_cache : gmap (option string * string) (string * string);
}.
Definition set_masters (m : gmap string string) (ks : Keystore) : Keystore :=
  mkKeystore (default_master ks) m (keypair_cache ks).
Definition set_cache (c : gmap (option string * string) (string * string)) (ks : Keystore) : Keystore :=
  mkKeystore (default_master ks) (masters ks) c.

Inductive CryptoError :=
| VaultMasterNotLoaded (vault : string)
| TooLarge (n : Z) | TooShort (n : Z)
| EciesFailed | LegacyFailed | SealFailed.

(** * Masters *)

Definition from_master_secret (master : string) : Keystore := mkKeystore master ∅ ∅.
Definition has_customer (customer : string) (ks : Keystore) : bool := bool_decide (is_Some (masters ks !! customer)).
Definition evict_customer_cache (customer : string) (ks : Keystore) : Keystore :=
  set_cache (filter (λ e : (option string * string) * (string * string), e.1.1 ≠ Some customer) (keypair_cache ks)) ks.
Definition add_customer (customer master : string) (ks : Keystore) : Keystore :=
  evict_customer_cache customer (set_masters (<[customer := master]> (masters ks)) ks).
Definition evict_customer (customer : string) (ks : Keystore) : Keystore :=
  evict_customer_cache customer (set_masters (delete customer (masters ks)) ks).
Definition clear_cache (ks : Keystore) : Keystore := set_cache ∅ ks.

Definition master_from_loaded (default : string) (loaded : gmap string string) (customer : option string)
    : result string CryptoError :=
  match customer with
  | None => ROk default
  | Some c => ok_or (loaded !! c) (VaultMasterNotLoaded c)
  end.
Definition master_for (ks : Keystore) (customer : option string) : result string CryptoError :=
  master_from_loaded (default_master ks) (masters ks) customer.

(** * Derivation *)

Section derive.
Context `{KeyCrates}.

Definition derive_keypair (customer : option string) (seed : string) : act Keystore (string * string) CryptoError := λ ks,
  match keypair_cache ks !! (customer, seed) with
  | Some kp => (ROk kp, ks)
  | None =>
    match master_for ks customer with
    | RErr e => (RErr e, ks)
    | ROk master =>
      let kp := ed25519_pair (mac master seed) in
      (ROk kp, set_cache (<[(customer, seed) := kp]> (keypair_cache ks)) ks)
    end
  end.
Definition get_public_key_for_seed (customer : option string) (seed : string) : act Keystore string CryptoError :=
  let^ '(_, verifying) := derive_keypair customer seed in give verifying.
Definition derive_x25519_keypair (ks : Keystore) (customer : option string) (seed : string)
    : result (string * string) CryptoError :=
  let? master := master_for ks customer in
  let secret := mac master ("ecies:" +:+ seed) in
  ROk (secret, x25519_public secret).
Definition derive_secret_string (ks : Keystore) (customer : option string) (seed : string) : result string CryptoError :=
  let? master := master_for ks customer in ROk (hex_of (mac master ("secret-path:" +:+ seed))).
Definition public_key_hex (ks : Keystore) (customer : option string) (seed : string) : result string CryptoError :=
  let? '(_, public) := derive_x25519_keypair ks customer seed in ROk (hex_of public).

Definition sign (customer : option string) (seed message : string) : act Keystore string CryptoError :=
  let^ '(signing, _) := derive_keypair customer seed in give (ed25519_sign signing message).
Definition vrf_generate (alpha : string) : act Keystore (string * string) CryptoError :=
  let^ '(signing, _) := derive_keypair None "vrf-key" in
  let signature := ed25519_sign signing alpha in
  give (hex_of (sha2_256 signature), hex_of signature).
Definition vrf_public_key_hex : act Keystore string CryptoError :=
  let^ '(_, verifying) := derive_keypair None "vrf-key" in give (hex_of verifying).

(** ** Sealing *)

Definition hkdf_derive_key (shared : string) : string := hkdf_expand shared HKDF_INFO.
(** The ephemeral secret and the nonce are the random bytes [encrypt] draws. *)
Definition encrypt (ks : Keystore) (ephemeral nonce : string) (customer : option string) (seed plaintext : string)
    : result string CryptoError :=
  if MAX_ENCRYPTED_SIZE <? str_len plaintext then RErr (TooLarge (str_len plaintext)) else
  let? '(_, recipient) := derive_x25519_keypair ks customer seed in
  let key := hkdf_derive_key (x25519_shared ephemeral recipient) in
  let? sealed := ok_or (chacha_seal key nonce plaintext) SealFailed in
  ROk (String (ascii_of_nat (Z.to_nat ECIES_VERSION)) (x25519_public ephemeral +:+ nonce +:+ sealed)).
Definition decrypt_ecies (ks : Keystore) (customer : option string) (seed data : string) : result string CryptoError :=
  let ephemeral := str_take 32 (str_drop 1 data) in
  let? '(secret, _) := derive_x25519_keypair ks customer seed in
  let key := hkdf_derive_key (x25519_shared secret ephemeral) in
  ok_or (chacha_open key (str_take 12 (str_drop 33 data)) (str_drop 45 data)) EciesFailed.
Definition decrypt_legacy (customer : option string) (seed data : string) : act Keystore string CryptoError :=
  let^ '(_, verifying) := derive_keypair customer seed in
  lift (ok_or (chacha_open verifying (str_take 12 data) (str_drop 12 data)) LegacyFailed).
Definition decrypt (customer : option string) (seed data : string) : act Keystore string CryptoError := λ ks,
  if MAX_ENCRYPTED_SIZE <? str_len data then (RErr (TooLarge (str_len data)), ks) else
  if str_len data <? 28 then (RErr (TooShort (str_len data)), ks) else
  let first := match data with String c _ => byte_of c | "" => 0 end in
  let ecies := if (first =? ECIES_VERSION) && (61 <=? str_len data)
               then match decrypt_ecies ks customer seed data with ROk plain => Some plain | RErr _ => None end
               else None in
  match ecies with
  | Some plain => (ROk plain, ks)
  | None => decrypt_legacy customer seed data ks
  end.
End derive.

(** * Vaults *)

(** A view call's answer, and the block it was made at. *)
Record ViewAt := mkViewAt { at_value : Value; at_hash : string; at_height : Z }.
(** The chain as the RPC answers it; a block is named by its hash, or is the final one. *)
Record NearClient := mkNearClient {
  get_version_at : string → string → option string → result ViewAt string;
  get_project_at : string → option string → result ViewAt string;
  get_vault_state : string → result Value string;
  is_vault_verified : string → result Value string;
}.

Inductive VaultNotServable := NotVerified (vault : string) | Unlocked (vault : string).
Inductive LoadError :=
| NotServable (why : VaultNotServable)
| InsufficientVaultBalance (vault : string)
| NoMpcContext (vault : string) | NoNearClient (vault : string)
| VerifiedUnread (vault why : string) | VerifiedNotBool (vault : string)
| VaultGone (vault : string) | StateUnread (vault why : string) | StateMalformed (vault : string)
| KeyUnderived (e : CryptoError) | CkdFailed (vault why : string).

Definition APP_ID_DERIVATION_PREFIX : string := "near-mpc v0.1.0 app_id derivation:".
Definition vault_tee_keypair_seed (vault : string) : string := "outlayer.near:" +:+ vault.
Definition VAULT_MASTER_PATH_SEED : string := "vault-master:".
Definition vault_master_path_seed (vault : string) : string := VAULT_MASTER_PATH_SEED +:+ vault.

Section vaults.
Context `{KeyCrates}.

Definition derive_app_id (predecessor path : string) : string :=
  sha3_256 (APP_ID_DERIVATION_PREFIX +:+ predecessor +:+ "," +:+ path).
Definition derive_vault_tee_keypair (vault : string) : act Keystore (string * string) CryptoError :=
  derive_keypair None (vault_tee_keypair_seed vault).

(** [request_vault_master]: a transaction signed for the account with the key, at the path. *)
Variable request_vault_master : string → string → string → result string LoadError.

Definition read_err {A E F} (f : E → F) (m : act Keystore A E) : act Keystore A F := λ ks,
  let '(r, ks) := m ks in (map_err f r, ks).
(** mpc_ckd's [add_customer]: the load of a vault that is not loaded. *)
Definition load_customer (vault : string) : act Keystore unit LoadError := λ ks,
  if has_customer vault ks then (ROk tt, ks) else
  (let^ '(signing, _) := read_err KeyUnderived (derive_vault_tee_keypair vault) in
   let^ path := λ ks, (map_err KeyUnderived (derive_secret_string ks None (vault_master_path_seed vault)), ks) in
   let^ master := lift (request_vault_master vault signing path) in
   λ ks, (ROk tt, add_customer vault master ks)) ks.

(** The account is gone, when the RPC says so in one of these words. *)
Definition says_gone (msg : string) : bool := str_contains msg "UnknownAccount" || str_contains msg "does not exist".
Definition assert_serving_allowed (c : NearClient) (vault : string) : act Keystore unit LoadError := λ ks,
  match is_vault_verified c vault with
  | RErr why => (RErr (VerifiedUnread vault why), ks)
  | ROk answer =>
    match value_bool answer with
    | None => (RErr (VerifiedNotBool vault), ks)
    | Some false => (RErr (NotServable (NotVerified vault)), evict_customer vault ks)
    | Some true =>
      match get_vault_state c vault with
      | RErr msg =>
        if says_gone msg then (RErr (VaultGone vault), evict_customer vault ks)
        else (RErr (StateUnread vault msg), ks)
      | ROk state =>
        match u ← value_get "unlocked" state; value_bool u with
        | None => (RErr (StateMalformed vault), ks)
        | Some true => (RErr (NotServable (Unlocked vault)), evict_customer vault ks)
        | Some false => (ROk tt, ks)
        end
      end
    end
  end.
Definition mpc_ensure_customer_loaded (c : NearClient) (customer : option string) : act Keystore unit LoadError :=
  match customer with
  | None => give tt
  | Some vault =>
    let^ _ := assert_serving_allowed c vault in
    λ ks, if has_customer vault ks then (ROk tt, ks) else load_customer vault ks
  end.
(** The state's [mpc_context] is set or not. *)
Definition ensure_customer_loaded (mpc_context : bool) (client : option NearClient) (customer : option string)
    : act Keystore unit LoadError :=
  match customer with
  | None => give tt
  | Some vault =>
    if negb mpc_context then stop (NoMpcContext vault) else
    match client with
    | None => stop (NoNearClient vault)
    | Some c => mpc_ensure_customer_loaded c (Some vault)
    end
  end.
End vaults.
