(* ===== verification/KeyCache.v ===== *)
(** Derivations, loads and evictions running beside each other (keystore-worker/src/crypto.rs),
    one step per critical section: a derivation looks into the cache, then reads the master
    and keeps the masters' read guard until the pair is in the cache; a load or an eviction
    writes the masters, which waits for every such guard, and then drops the vault's pairs. *)

From S2P Require Export Masters.

(** Where a thread is between two critical sections; a thread that is not listed is in none. *)
Inductive Phase :=
| Missed (customer : option string) (seed : string)                    (* not in the cache *)
| Guarded (customer : option string) (seed : string) (master : string) (* holding the guard *)
| Purging (customer : string).                                         (* masters written *)
Record Sys := mkSys { sys_ks : Keystore; sys_threads : gmap nat Phase }.

Inductive Label :=
| Lookup (t : nat) (customer : option string) (seed : string)
| Guard (t : nat)
| Insert (t : nat)
| Evict (t : nat) (customer : string)
| Add (t : nat) (customer master : string)
| Purge (t : nat)
| Clear.

Definition is_guarded (p : Phase) : bool := match p with Guarded _ _ _ => true | _ => false end.
(** No reader holds the masters. *)
Definition writable (s : Sys) : bool := forallb (λ e : nat * Phase, negb (is_guarded e.2)) (map_to_list (sys_threads s)).
Definition idle (t : nat) (s : Sys) : bool := bool_decide (sys_threads s !! t = None).
Definition enters (t : nat) (p : Phase) (ks : Keystore) (s : Sys) : Sys := mkSys ks (<[t := p]> (sys_threads s)).
Definition returns (t : nat) (ks : Keystore) (s : Sys) : Sys := mkSys ks (delete t (sys_threads s)).

Section cache.
Context `{KeyCrates}.

Definition step (l : Label) (s : Sys) : option Sys :=
  let ks := sys_ks s in
  match l with
  | Lookup t c seed =>
    if negb (idle t s) then None else
    match keypair_cache ks !! (c, seed) with
    | Some _ => Some s
    | None => Some (enters t (Missed c seed) ks s)
    end
  | Guard t =>
    match sys_threads s !! t with
    | Some (Missed c seed) =>
      match master_for ks c with
      | ROk m => Some (enters t (Guarded c seed m) ks s)
      | RErr _ => Some (returns t ks s)
      end
    | _ => None
    end
  | Insert t =>
    match sys_threads s !! t with
    | Some (Guarded c seed m) =>
      Some (returns t (set_cache (<[(c, seed) := ed25519_pair (mac m seed)]> (keypair_cache ks)) ks) s)
    | _ => None
    end
  | Evict t c =>
    if negb (idle t s) || negb (writable s) then None
    else Some (enters t (Purging c) (set_masters (delete c (masters ks)) ks) s)
  | Add t c m =>
    if negb (idle t s) || negb (writable s) then None
    else Some (enters t (Purging c) (set_masters (<[c := m]> (masters ks)) ks) s)
  | Purge t =>
    match sys_threads s !! t with
    | Some (Purging c) => Some (returns t (evict_customer_cache c ks) s)
    | _ => None
    end
  | Clear => Some (mkSys (clear_cache ks) (sys_threads s))
  end.

Fixpoint run (ls : list Label) (s : Sys) : option Sys :=
  match ls with [] => Some s | l :: ls => s ← step l s; run ls s end.
Inductive reaches (ok : Label → Prop) (s : Sys) : Sys → Prop :=
| r_here : reaches ok s s
| r_step s1 l s2 : reaches ok s s1 → ok l → step l s1 = Some s2 → reaches ok s s2.
Definition started (master : string) : Sys := mkSys (from_master_secret master) ∅.
Definition reachable (s : Sys) : Prop := ∃ master, reaches (λ _, True) (started master) s.

Lemma run_reaches ok ls s s' : Forall ok ls → run ls s = Some s' → reaches ok s s'.
Proof.
  intros Hok. assert (∀ s0, reaches ok s0 s → run ls s = Some s' → reaches ok s0 s') as Hgen; [|by apply Hgen; constructor].
  revert s. induction Hok as [|l ls Hl Hls IH]; intros s s0 Hs; cbn; [by intros [= <-]|].
  intros (s1 & H1 & H2)%bind_Some. eapply IH; [|exact H2]. by eapply r_step.
Qed.

(** * The invariant *)

Lemma writable_no_guard s t c seed m : writable s = true → sys_threads s !! t ≠ Some (Guarded c seed m).
Proof.
  unfold writable. rewrite forallb_forall. intros Hw Ht.
  assert (In (t, Guarded c seed m) (map_to_list (sys_threads s))) as Hin by (by apply list_elem_of_In, elem_of_map_to_list).
  by specialize (Hw _ Hin).
Qed.

(** Every pair in the cache is the current master's, or its vault is about to be purged;
    a guard keeps the master it was taken for. *)
Record cache_inv (s : Sys) : Prop := {
  ci_cache c seed kp : keypair_cache (sys_ks s) !! (c, seed) = Some kp →
    (∃ m, master_for (sys_ks s) c = ROk m ∧ kp = ed25519_pair (mac m seed)) ∨
    ∃ t v, c = Some v ∧ sys_threads s !! t = Some (Purging v);
  ci_guard t c seed m : sys_threads s !! t = Some (Guarded c seed m) → master_for (sys_ks s) c = ROk m;
}.

Lemma master_written (ks : Keystore) ms c : default_master (set_masters ms ks) = default_master ks ∧
  (masters ks !! c = ms !! c → ∀ m, master_for (set_masters ms ks) (Some c) = ROk m ↔ master_for ks (Some c) = ROk m).
Proof. split; [done|]. cbn. by intros ->. Qed.

Lemma enters_other t p ks s t' : t' ≠ t → sys_threads (enters t p ks s) !! t' = sys_threads s !! t'.
Proof. intros Ht. cbn. by rewrite lookup_insert_ne. Qed.
Lemma purging_after_returns t s c : (∃ t' v, c = Some v ∧ sys_threads s !! t' = Some (Purging v)) →
  (∀ v, sys_threads s !! t = Some (Purging v) → c ≠ Some v) →
  ∃ t' v, c = Some v ∧ delete t (sys_threads s) !! t' = Some (Purging v).
Proof.
  intros (t' & v & Hv & Hp) Hn. exists t', v. split; [done|].
  rewrite lookup_delete_ne; [done|]. intros <-. by apply (Hn v Hp).
Qed.

(** A write of the masters, when nobody holds a guard: the vault's pairs await the purge. *)
Lemma written_inv s t v ms : cache_inv s → idle t s = true → writable s = true →
  (∀ w, w ≠ v → ms !! w = masters (sys_ks s) !! w) → cache_inv (enters t (Purging v) (set_masters ms (sys_ks s)) s).
Proof.
  intros [Hc Hg] Hi Hw Hms. apply bool_decide_eq_true in Hi. split.
  - intros c seed kp Hk. destruct (decide (c = Some v)) as [->|Hne].
    { right. exists t, v. cbn. by rewrite lookup_insert_eq. }
    destruct (Hc c seed kp Hk) as [(m & Hm & ->)|(t' & w & -> & Ht')].
    + left. exists m. split; [|done]. destruct c as [w|]; [|exact Hm]. cbn in *. rewrite Hms; [exact Hm | naive_solver].
    + right. exists t', w. split; [done|]. rewrite enters_other; [exact Ht' | congruence].
  - intros t' c seed m Ht'. exfalso. destruct (decide (t' = t)) as [->|Hn].
    + cbn in Ht'. by rewrite lookup_insert_eq in Ht'.
    + rewrite enters_other in Ht' by done. by eapply writable_no_guard.
Qed.

Lemma step_inv l s s' : cache_inv s → step l s = Some s' → cache_inv s'.
Proof.
  intros Hinv. pose proof Hinv as [Hc Hg]. destruct l as [t c seed|t|t|t v|t v m|t|]; cbn [step].
  - destruct (idle t s) eqn:Hi; cbn [negb]; [|done]. apply bool_decide_eq_true in Hi.
    destruct (keypair_cache (sys_ks s) !! (c, seed)); intros E; injection E as E; subst s'; [done|]. split.
    + intros c' seed' kp Hk. destruct (Hc c' seed' kp Hk) as [?|(t' & v & -> & Ht')]; [by left|right].
      exists t', v. rewrite enters_other; [done | congruence].
    + intros t' c' seed' m Ht'. destruct (decide (t' = t)) as [->|Hn].
      * cbn in Ht'. by rewrite lookup_insert_eq in Ht'.
      * rewrite enters_other in Ht' by done. by eapply Hg.
  - destruct (sys_threads s !! t) as [[c seed| |]|] eqn:Et; try done.
    destruct (master_for (sys_ks s) c) as [m|] eqn:Em; intros [= <-]; split.
    + intros c' seed' kp Hk. destruct (Hc c' seed' kp Hk) as [?|(t' & v & -> & Ht')]; [by left|right].
      exists t', v. rewrite enters_other; [done | congruence].
    + intros t' c' seed' m' Ht'. destruct (decide (t' = t)) as [->|Hn].
      * cbn in Ht'. rewrite lookup_insert_eq in Ht'. by injection Ht' as <- <- <-.
      * rewrite enters_other in Ht' by done. by eapply Hg.
    + intros c' seed' kp Hk. destruct (Hc c' seed' kp Hk) as [?|Hp]; [by left|right].
      apply purging_after_returns; [done|]. intros v. by rewrite Et.
    + intros t' c' seed' m' Ht'. cbn in Ht'. apply lookup_delete_Some in Ht' as [_ Ht']. by eapply Hg.
  - destruct (sys_threads s !! t) as [[|c seed m|]|] eqn:Et; try done. intros [= <-]. split.
    + intros c' seed' kp. cbn. rewrite lookup_insert_Some. intros [[[= <- <-] <-]|[_ Hk]].
      * left. exists m. split; [by apply (Hg t c seed) | done].
      * destruct (Hc c' seed' kp Hk) as [?|Hp]; [by left|right]. apply purging_after_returns; [done|]. intros v. by rewrite Et.
    + intros t' c' seed' m' Ht'. cbn in Ht'. apply lookup_delete_Some in Ht' as [_ Ht']. by eapply (Hg t').
  - destruct (idle t s) eqn:Hi, (writable s) eqn:Hw; try done. intros [= <-].
    apply written_inv; try done. intros w Hne. by rewrite lookup_delete_ne.
  - destruct (idle t s) eqn:Hi, (writable s) eqn:Hw; try done. intros [= <-].
    apply written_inv; try done. intros w Hne. by rewrite lookup_insert_ne.
  - destruct (sys_threads s !! t) as [[| |v]|] eqn:Et; try done. intros [= <-]. split.
    + intros c seed kp. cbn. rewrite map_lookup_filter_Some. cbn. intros [Hk Hne].
      destruct (Hc c seed kp Hk) as [?|Hp]; [by left|right]. apply purging_after_returns; [done|]. intros w. rewrite Et.
      by intros [= <-].
    + intros t' c' seed' m' Ht'. cbn in Ht'. apply lookup_delete_Some in Ht' as [_ Ht']. by eapply (Hg t').
  - intros [= <-]. split; [|exact Hg]. intros c seed kp. cbn. by rewrite lookup_empty.
Qed.
Lemma reaches_inv ok s s' : reaches ok s s' → cache_inv s → cache_inv s'.
Proof. induction 1 as [|s1 l s2 _ IH _ Hs]; [done|]. intros Hi. eapply step_inv; [by apply IH | exact Hs]. Qed.
Lemma reachable_inv s : reachable s → cache_inv s.
Proof. intros (m & Hr). eapply reaches_inv; [exact Hr|]. split; intros *; cbn; by rewrite lookup_empty. Qed.

(** * Evictions *)

(** Loads of other vaults, evictions and derivations. *)
Definition not_add (v : string) (l : Label) : Prop := match l with Add _ w _ => w ≠ v | _ => True end.
Definition gone (v : string) (s : Sys) : Prop :=
  masters (sys_ks s) !! v = None ∧ ∀ seed, keypair_cache (sys_ks s) !! (Some v, seed) = None.

Lemma step_gone l s s' v : cache_inv s → not_add v l → gone v s → step l s = Some s' → gone v s'.
Proof.
  intros [_ Hg] Hl [Hm Hc]. destruct l as [t c seed|t|t|t w|t w m|t|]; cbn [step].
  - destruct (idle t s); [|done]. cbn [negb].
    destruct (keypair_cache (sys_ks s) !! (c, seed)); intros E; injection E as E; by subst s'.
  - destruct (sys_threads s !! t) as [[c seed| |]|]; try done. destruct (master_for _ c); intros E; injection E as E; by subst s'.
  - destruct (sys_threads s !! t) as [[|c seed m|]|] eqn:Et; try done. intros E; injection E as E; subst s'.
    split; [exact Hm|]. intros seed'. cbn. rewrite lookup_insert_ne; [apply Hc|]. intros [= -> _].
    apply Hg in Et. cbn in Et. by rewrite Hm in Et.
  - destruct (negb _ || _); [done|]. intros E; injection E as E; subst s'. split; [|exact Hc]. cbn. rewrite lookup_delete_None. auto.
  - destruct (negb _ || _); [done|]. intros E; injection E as E; subst s'. split; [|exact Hc]. cbn. by rewrite lookup_insert_ne.
  - destruct (sys_threads s !! t) as [[| |w]|]; try done. intros E; injection E as E; subst s'. split; [exact Hm|].
    intros seed. cbn. apply map_lookup_filter_None. left. apply Hc.
  - intros E; injection E as E; subst s'. split; [exact Hm|]. intros seed. cbn. apply lookup_empty.
Qed.
Lemma purge_gone s s' t v : sys_threads s !! t = Some (Purging v) → step (Purge t) s = Some s' →
  masters (sys_ks s') !! v = None → gone v s'.
Proof.
  cbn. intros ->. intros E; injection E as E; subst s'. intros Hm. split; [exact Hm|].
  intros seed. cbn. apply map_lookup_filter_None. right. intros kp _. cbn. by intros [].
Qed.


(** * One thread alone *)

Lemma returned t p (m : gmap nat Phase) : m !! t = None → delete t (<[t := p]> m) = m.
Proof. intros Hm. rewrite delete_insert_eq. by apply delete_id. Qed.

(** The steps of the method a thread runs. *)
Definition derive_steps (t : nat) (c : option string) (seed : string) (ks : Keystore) : list Label :=
  Lookup t c seed ::
  match keypair_cache ks !! (c, seed), master_for ks c with
  | Some _, _ => []
  | None, RErr _ => [Guard t]
  | None, ROk _ => [Guard t; Insert t]
  end.

(** The critical sections compose to the methods.  A thread whose steps are not
    interleaved with any other's changes the keystore as the method it runs does, for a
    derivation, an eviction and a load. *)
Theorem sections_compose s t c seed v m : sys_threads s !! t = None → writable s = true →
  run (derive_steps t c seed (sys_ks s)) s = Some (mkSys (snd (derive_keypair c seed (sys_ks s))) (sys_threads s)) ∧
  run [Evict t v; Purge t] s = Some (mkSys (evict_customer v (sys_ks s)) (sys_threads s)) ∧
  run [Add t v m; Purge t] s = Some (mkSys (add_customer v m (sys_ks s)) (sys_threads s)).
Proof.
  intros Ht Hw. assert (idle t s = true) as Hi by (by apply bool_decide_eq_true). split_and!.
  - unfold derive_steps, derive_keypair. cbn [run step]. rewrite Hi. cbn [negb].
    destruct (keypair_cache (sys_ks s) !! (c, seed)) as [kp|]; [cbn; by destruct s|]. cbn [mbind option_bind].
    destruct (master_for (sys_ks s) c) as [ms|] eqn:Em; cbn [run step].
    + cbn [enters sys_threads sys_ks]. rewrite lookup_insert_eq, Em. cbn [mbind option_bind run step enters sys_threads sys_ks].
      rewrite lookup_insert_eq. unfold returns. cbn [mbind option_bind sys_threads enters snd]. rewrite insert_insert_eq. by rewrite returned.
    + cbn [enters sys_threads sys_ks]. rewrite lookup_insert_eq, Em. unfold returns. cbn [mbind option_bind sys_threads enters snd]. by rewrite returned.
  - cbn [run step]. rewrite Hi, Hw. cbn [negb orb mbind option_bind enters sys_threads sys_ks].
    rewrite lookup_insert_eq. unfold returns. cbn [mbind option_bind sys_threads enters snd]. by rewrite returned.
  - cbn [run step]. rewrite Hi, Hw. cbn [negb orb mbind option_bind enters sys_threads sys_ks].
    rewrite lookup_insert_eq. unfold returns. cbn [mbind option_bind sys_threads enters snd]. by rewrite returned.
Qed.
End cache.
