(* ===== verification/KeyNames.v ===== *)
(** The keys a component's manifest declares, as the keystore names and derives them
    (keystore-worker/src/signing_keys.rs, encryption_keys.rs, task_keys.rs and the parts
    of api.rs that authorize and derive them).  A key is the HMAC of a text under a
    master, so what keeps two keys apart is that two names never spell one text.

    A refusal is a constructor named after its message, with the values it quotes.
    Account ids, HMAC and the chain's answers are parameters ([AccountIds], [KeyCrates],
    [NearClient]). *)

From stdpp Require Import gmap strings.
From S2P Require Export Masters.

(** near-account-id: [str::parse::<AccountId>], and [AccountId::is_sub_account_of]. *)
Class AccountIds := {
  account_ok : string → bool;
  is_sub_account_of : string → string → bool;  (* the account, its parent *)
}.
(** Documented of an account id: it is not empty and holds no colon. *)
Class AccountLaws `{AccountIds} : Prop := {
  account_plain s : account_ok s = true → s ≠ "" ∧ has_byte ch_colon s = false;
}.

(** * What is declared *)

Inductive KeyFamily := Signing | Encryption.
Inductive SigningKeyType := Ed25519 | Secp256k1.
Inductive KeyKind := KindSigning (t : SigningKeyType) | KindEncryption.
Inductive KeyBinding := ToProject | ToWasm.
Inductive CallerKind := CkSigner | CkPredecessor.
Inductive KeyCaller := Signer | Predecessor | NoCaller.

#[export] Instance key_family_eq : EqDecision KeyFamily.
Proof. solve_decision. Defined.
#[export] Instance signing_key_type_eq : EqDecision SigningKeyType.
Proof. solve_decision. Defined.
#[export] Instance key_kind_eq : EqDecision KeyKind.
Proof. solve_decision. Defined.
#[export] Instance key_binding_eq : EqDecision KeyBinding.
Proof. solve_decision. Defined.
#[export] Instance caller_kind_eq : EqDecision CallerKind.
Proof. solve_decision. Defined.
#[export] Instance key_caller_eq : EqDecision KeyCaller.
Proof. solve_decision. Defined.

Definition SIGNING_KEY_LABEL : string := "signing-key:v1:".
Definition ENCRYPTION_KEY_LABEL : string := "encryption-key:v1:".
Definition TASK_KEY_LABEL : string := "task-key:v1:".
Definition MAX_SIGNING_KEYS : Z := 3.
Definition MAX_ENCRYPTION_KEYS : Z := 5.
Definition MAX_KEY_PATH_LEN : Z := 32.
Definition MAX_PROJECT_NAME_LEN : Z := 64.
Definition PLACEHOLDER_CALLERS : list string := ["anonymous"].

Definition root (f : KeyFamily) : string :=
  match f with Signing => SIGNING_KEY_LABEL | Encryption => ENCRYPTION_KEY_LABEL end.
Definition max_keys (f : KeyFamily) : Z :=
  match f with Signing => MAX_SIGNING_KEYS | Encryption => MAX_ENCRYPTION_KEYS end.
Definition type_label (t : SigningKeyType) : string :=
  match t with Ed25519 => "ed25519" | Secp256k1 => "secp256k1" end.
Definition kind_family (k : KeyKind) : KeyFamily :=
  match k with KindSigning _ => Signing | KindEncryption => Encryption end.
Definition type_segment (k : KeyKind) : option string :=
  match k with KindSigning t => Some (type_label t) | KindEncryption => None end.
Definition binding_label (b : KeyBinding) : string := match b with ToProject => "project" | ToWasm => "wasm" end.
Definition caller_kind_label (c : CallerKind) : string :=
  match c with CkSigner => "signer" | CkPredecessor => "predecessor" end.
Definition caller_label (c : KeyCaller) : string :=
  match c with
  | Signer => caller_kind_label CkSigner
  | Predecessor => caller_kind_label CkPredecessor
  | NoCaller => "none"
  end.
Definition account_kind (c : KeyCaller) : option CallerKind :=
  match c with Signer => Some CkSigner | Predecessor => Some CkPredecessor | NoCaller => None end.
Definition key_caller_of (c : CallerKind) : KeyCaller := match c with CkSigner => Signer | CkPredecessor => Predecessor end.

(** The trait: what the validation reads off one declared key, in either family. *)
Class KeyDeclaration (D : Type) := {
  FAMILY : KeyFamily;
  d_path : D → string;
  d_kind : D → KeyKind;
  d_bind : D → KeyBinding;
  d_caller : D → KeyCaller;
  d_vault : D → option string;
}.

Record SigningKeyRequest := mkSigningKey {
  sk_path : string; sk_type : SigningKeyType; sk_bind : KeyBinding; sk_caller : KeyCaller; sk_vault : option string;
}.
#[export] Instance signing_declaration : KeyDeclaration SigningKeyRequest := {|
  FAMILY := Signing; d_path := sk_path; d_kind := λ d, KindSigning (sk_type d); d_bind := sk_bind;
  d_caller := sk_caller; d_vault := sk_vault;
|}.
Record EncryptionKeyRequest := mkEncryptionKey {
  ek_path : string; ek_bind : KeyBinding; ek_caller : CallerKind; ek_vault : option string;
}.
#[export] Instance encryption_declaration : KeyDeclaration EncryptionKeyRequest := {|
  FAMILY := Encryption; d_path := ek_path; d_kind := λ _, KindEncryption; d_bind := ek_bind;
  d_caller := λ d, key_caller_of (ek_caller d); d_vault := ek_vault;
|}.

(** * Refusals *)

Inductive KeyRefusal :=
| PathEmpty | PathTooLong (path : string) | PathShape (path : string)
| ProjectIdForm (raw : string) | ProjectIdOwner (raw : string) | ProjectIdName (raw : string)
| UuidShape (raw : string) | WasmShape (raw : string)
| FieldBad (field : string)
| CannotBeOfNoCaller (k : KeyKind)
| NoUuid (project : string) | UuidOfNoProject (uuid : string)
| BindingMismatch (path : string) | CallerMismatch (path : string)
| NoKeysRequested | TooManyKeys (n : Z)
| PlaceholderAccount (role raw : string) | NotAnAccount (role raw : string)
| NoBuildHash
| WrongFamily (path : string) | PathTwice (path : string)
| ProjectKeyOnDirectRun (path : string) | WasmKeyOnProjectRun (path project : string)
| NoPredecessor (path : string)
| VaultOnWasmKey (path : string) | VaultNotAccount (path vault : string)
| VaultNotUnder (vault owner : string) | VaultNamesNoParent (vault : string) | VaultOfAnother (vault owner parent : string)
| ProjectMissing (project : string) | ProjectNamesNoOwner (project : string)
| ProjectOwnerNotAccount (project : string) | ProjectOfAnother (project owner : string)
| ProjectNamesNoUuid (project : string) | ProjectUuidBad (project : string)
| TaskKeyDirectRun | TaskKeyNoBuild | TaskKeyNoRow | TaskKeyOtherRow (row project : string)
| TaskKeyPlaceholder (owner : string) | TaskKeyOwner (owner : string)
| NamesNoKeys | NotAVersion (wasm project : string) | VaultRefused (why : VaultNotServable) | VaultUnderfunded (vault : string).

(** * Shapes *)

Definition lower_alnum (b : Z) : bool := is_ascii_lower b || is_ascii_digit b.
Definition path_byte (b : Z) : bool := lower_alnum b || (b =? ch_underscore) || (b =? ch_dash).
Definition hex_byte (b : Z) : bool := is_ascii_digit b || in_range 97 102 b.

Definition key_path_parse (raw : string) : result string KeyRefusal :=
  match raw with
  | "" => RErr PathEmpty
  | String first _ =>
    if MAX_KEY_PATH_LEN <? str_len raw then RErr (PathTooLong raw)
    else if negb (lower_alnum (byte_of first)) || negb (forall_bytes path_byte raw) then RErr (PathShape raw)
    else ROk raw
  end.

Record ProjectId := mkProjectId { pid_id : string; pid_owner : string }.

Section shapes.
Context `{Unicode} `{AccountIds}.

Definition project_id_parse (raw : string) : result ProjectId KeyRefusal :=
  match split_once 47 raw with
  | None => RErr (ProjectIdForm raw)
  | Some (owner, name) =>
    if negb (account_ok owner) then RErr (ProjectIdOwner raw) else
    if negb (str_is_empty name) && (str_len name <=? MAX_PROJECT_NAME_LEN) &&
       forallb (λ c, char_is_alphanumeric c || (c =? ch_dash) || (c =? ch_underscore)) (str_chars name)
    then ROk (mkProjectId raw owner) else RErr (ProjectIdName raw)
  end.
End shapes.

Definition project_uuid_parse (raw : string) : result string KeyRefusal :=
  if (str_len raw =? 17) && starts_with raw "p" && forall_bytes hex_byte (str_drop 1 raw) then ROk raw
  else RErr (UuidShape raw).
Definition wasm_sha256_parse (raw : string) : result string KeyRefusal :=
  if (str_len raw =? 64) && forall_bytes hex_byte raw then ROk raw else RErr (WasmShape raw).

(** * Derivation texts *)

Inductive Binding := BoundToProject (uuid : string) | BoundToWasm (sha256 : string).
Record DerivationInput := mkInput { input_family : KeyFamily; input_text : string }.

Definition binding_parts (b : Binding) : list string :=
  match b with
  | BoundToProject uuid => [binding_label ToProject; uuid]
  | BoundToWasm wasm => [binding_label ToWasm; wasm]
  end.
Definition from_parts (kind : KeyKind) (b : Binding) (caller : list string) (path : string)
    : result DerivationInput KeyRefusal :=
  let parts := match type_segment kind with Some t => [t] | None => [] end ++ binding_parts b ++ caller ++ [path] in
  match find (λ p, str_is_empty p || has_byte ch_colon p) parts with
  | Some bad => RErr (FieldBad bad)
  | None => ROk (mkInput (kind_family kind) (root (kind_family kind) +:+ str_join ":" parts))
  end.
Definition input_new (kind : KeyKind) (b : Binding) (caller : CallerKind) (account path : string)
    : result DerivationInput KeyRefusal := from_parts kind b [caller_kind_label caller; account] path.
Definition of_no_caller (kind : KeyKind) (b : Binding) (path : string) : result DerivationInput KeyRefusal :=
  if negb (bool_decide (kind = KindSigning Ed25519)) then RErr (CannotBeOfNoCaller kind)
  else from_parts kind b [caller_label NoCaller] path.

(** * One family's request *)

Record ValidatedKey := mkValidated {
  vk_path : string; vk_kind : KeyKind; vk_bind : KeyBinding; vk_caller : KeyCaller; vk_account : option string;
  vk_vault : option string;
}.
Record ValidatedKeys := mkValidatedKeys {
  vks_family : KeyFamily; vks_project : option ProjectId; vks_signer : string; vks_predecessor : option string;
  vks_wasm : string; vks_keys : list ValidatedKey;
}.
Record BoundProject := mkBoundProject { bp_id : ProjectId; bp_uuid : string }.
Record BoundKey := mkBound {
  bk_path : string; bk_kind : KeyKind; bk_bind : KeyBinding; bk_caller : KeyCaller; bk_account : option string;
  bk_vault : option string; bk_input : DerivationInput;
}.
Record BoundKeys := mkBoundKeys {
  bks_family : KeyFamily; bks_project : option BoundProject; bks_signer : string; bks_predecessor : option string;
  bks_wasm : string; bks_keys : list BoundKey;
}.

(** The texts of [l] without those seen before, in first-seen order. *)
Definition distinct_onto (seen l : list string) : list string :=
  foldl (λ out v, if bool_decide (v ∈ out) then out else out ++ [v]) seen l.
Definition vaults (v : ValidatedKeys) : list string := distinct_onto [] (omap vk_vault (vks_keys v)).

(** The loops of the source: a result per element, the first refusal ends them. *)
Fixpoint mapR {A B E} (f : A → result B E) (l : list A) : result (list B) E :=
  match l with
  | [] => ROk []
  | a :: l => let? b := f a in let? l := mapR f l in ROk (b :: l)
  end.

Definition bind_key (project : option BoundProject) (wasm : string) (key : ValidatedKey) : result BoundKey KeyRefusal :=
  let? binding :=
    match vk_bind key, project with
    | ToProject, Some p => ROk (BoundToProject (bp_uuid p))
    | ToWasm, None => ROk (BoundToWasm wasm)
    | ToProject, None | ToWasm, Some _ => RErr (BindingMismatch (vk_path key))
    end in
  let? input :=
    match account_kind (vk_caller key), vk_account key with
    | Some caller, Some account => input_new (vk_kind key) binding caller account (vk_path key)
    | None, None => of_no_caller (vk_kind key) binding (vk_path key)
    | _, _ => RErr (CallerMismatch (vk_path key))
    end in
  ROk (mkBound (vk_path key) (vk_kind key) (vk_bind key) (vk_caller key) (vk_account key) (vk_vault key) input).
Definition bind (v : ValidatedKeys) (uuid : option string) : result BoundKeys KeyRefusal :=
  let? project :=
    match vks_project v, uuid with
    | Some id, Some uuid => ROk (Some (mkBoundProject id uuid))
    | None, None => ROk None
    | Some id, None => RErr (NoUuid (pid_id id))
    | None, Some uuid => RErr (UuidOfNoProject uuid)
    end in
  let? keys := mapR (bind_key project (vks_wasm v)) (vks_keys v) in
  ROk (mkBoundKeys (vks_family v) project (vks_signer v) (vks_predecessor v) (vks_wasm v) keys).

Definition opt_parse {A E} (f : string → result A E) (o : option string) : result (option A) E :=
  match o with None => ROk None | Some s => let? a := f s in ROk (Some a) end.

Section requests.
Context `{Unicode} `{AccountIds}.

Definition real_account (role raw : string) : result string KeyRefusal :=
  if bool_decide (raw ∈ PLACEHOLDER_CALLERS) then RErr (PlaceholderAccount role raw)
  else if account_ok raw then ROk raw else RErr (NotAnAccount role raw).

Definition validate_key {D} `{KeyDeclaration D} (project : option ProjectId) (signer : string) (predecessor : option string)
    (out : list ValidatedKey) (request : D) : result ValidatedKey KeyRefusal :=
  let? path := key_path_parse (d_path request) in
  let kind := d_kind request in
  let? _ := if negb (bool_decide (kind_family kind = FAMILY (D := D))) then RErr (WrongFamily path) else ROk tt in
  let? _ := if existsb (λ k, String.eqb (vk_path k) path) out then RErr (PathTwice path) else ROk tt in
  let? _ :=
    match d_bind request, project with
    | ToProject, Some _ | ToWasm, None => ROk tt
    | ToProject, None => RErr (ProjectKeyOnDirectRun path)
    | ToWasm, Some p => RErr (WasmKeyOnProjectRun path (pid_id p))
    end in
  let? account :=
    match d_caller request with
    | Signer => ROk (Some signer)
    | Predecessor => let? p := ok_or predecessor (NoPredecessor path) in ROk (Some p)
    | NoCaller => if bool_decide (kind = KindSigning Ed25519) then ROk None else RErr (CannotBeOfNoCaller kind)
    end in
  let? vault :=
    match d_vault request, d_bind request with
    | None, _ => ROk None
    | Some _, ToWasm => RErr (VaultOnWasmKey path)
    | Some raw, ToProject => if account_ok raw then ROk (Some raw) else RErr (VaultNotAccount path raw)
    end in
  ROk (mkValidated path kind (d_bind request) (d_caller request) account vault).

Fixpoint validate_keys {D} `{KeyDeclaration D} (project : option ProjectId) (signer : string) (predecessor : option string)
    (out : list ValidatedKey) (keys : list D) : result (list ValidatedKey) KeyRefusal :=
  match keys with
  | [] => ROk out
  | request :: keys =>
    let? k := validate_key project signer predecessor out request in
    validate_keys project signer predecessor (out ++ [k]) keys
  end.

Definition validate_request {D} `{KeyDeclaration D} (project_id : option string) (account_id : string)
    (predecessor_id executed_wasm_sha256 : option string) (keys : list D) : result ValidatedKeys KeyRefusal :=
  let n := Z.of_nat (length keys) in
  if n =? 0 then RErr NoKeysRequested else
  if max_keys (FAMILY (D := D)) <? n then RErr (TooManyKeys n) else
  let? project := opt_parse project_id_parse project_id in
  let? signer := real_account "caller" account_id in
  let? predecessor := opt_parse (real_account "predecessor") predecessor_id in
  let? hash := ok_or executed_wasm_sha256 NoBuildHash in
  let? wasm := wasm_sha256_parse hash in
  let? out := validate_keys project signer predecessor [] keys in
  ROk (mkValidatedKeys (FAMILY (D := D)) project signer predecessor wasm out).

(** ** Vaults *)

Definition vault_is_named_under (owner vault : string) : result unit KeyRefusal :=
  if negb (is_sub_account_of vault owner) then RErr (VaultNotUnder vault owner) else ROk tt.
Definition vault_belongs_to (owner vault : string) (state : Value) : result unit KeyRefusal :=
  let? _ := vault_is_named_under owner vault in
  let? parent := ok_or (p ← value_get "parent" state; value_str p) (VaultNamesNoParent vault) in
  if negb (String.eqb parent owner) then RErr (VaultOfAnother vault owner parent) else ROk tt.

(** ** Task keys *)

Record TaskKeyRun := mkTaskKeyRun { tk_project : ProjectId; tk_wasm : string; tk_owner : string }.
Definition task_validate_request (project_id executed_wasm_sha256 row_project row_owner : option string)
    : result TaskKeyRun KeyRefusal :=
  let? project_id := ok_or project_id TaskKeyDirectRun in
  let? project := project_id_parse project_id in
  let? hash := ok_or executed_wasm_sha256 TaskKeyNoBuild in
  let? wasm := wasm_sha256_parse hash in
  match row_project, row_owner with
  | Some row_project, Some row_owner =>
    if negb (String.eqb row_project (pid_id project)) then RErr (TaskKeyOtherRow row_project (pid_id project)) else
    if bool_decide (row_owner ∈ PLACEHOLDER_CALLERS) then RErr (TaskKeyPlaceholder row_owner) else
    if account_ok row_owner then ROk (mkTaskKeyRun project wasm row_owner) else RErr (TaskKeyOwner row_owner)
  | _, _ => RErr TaskKeyNoRow
  end.
Definition real_callers (user_account_id : string) (predecessor_id : option string) : result unit KeyRefusal :=
  let? _ := real_account "caller" user_account_id in
  match predecessor_id with
  | None => ROk tt
  | Some raw => let? _ := real_account "predecessor" raw in ROk tt
  end.
Definition task_key_input (project_uuid owner : string) : string := TASK_KEY_LABEL +:+ project_uuid +:+ ":" +:+ owner.
End requests.

(** * Texts a caller spells *)

Definition DECLARED_KEY_ROOTS : list string := ["signing-key:"; "encryption-key:"; "task-key:"].
(** [Some root] is the refusal that names it. *)
Definition refuse_declared_key_seed (seed : string) : option string :=
  find (λ root, starts_with seed root) DECLARED_KEY_ROOTS.

Definition str_replace_byte (b : Z) (c : ascii) : string → string :=
  fix go s := match s with "" => "" | String d s => String (if byte_of d =? b then c else d) (go s) end.
Definition strip_suffix (suf s : string) : option string :=
  let n := (String.length s - String.length suf)%nat in
  if (String.length suf <=? String.length s)%nat && String.eqb (str_drop n s) suf then Some (str_take n s) else None.
Definition normalize_repo_url (repo : string) : string :=
  let repo := str_trim repo in
  let repo := match strip_prefix "https://" repo with
              | Some rest => rest
              | None => match strip_prefix "http://" repo with
                        | Some rest => rest
                        | None => match strip_prefix "ssh://" repo with Some rest => rest | None => repo end
                        end
              end in
  let repo := match strip_prefix "git@" repo with Some rest => str_replace_byte ch_colon "/" rest | None => repo end in
  match strip_suffix ".git" repo with Some rest => rest | None => repo end.
Definition repo_seed_root (repo : string) : option string :=
  let normalized := normalize_repo_url repo in
  match find (λ root, starts_with (normalized +:+ ":") root) DECLARED_KEY_ROOTS with
  | Some _ => None
  | None => Some normalized
  end.
Definition repo_seed (repo owner : string) (branch : option string) : option string :=
  normalized ← repo_seed_root repo;
  Some (normalized +:+ ":" +:+ owner +:+ match branch with Some b => ":" +:+ b | None => "" end).

(** ** Wallets *)

Section wallets.
Context `{Unicode}.
(** shared-tee-helpers: [is_evm_chain], [is_solana_chain], [is_valid_sub_path]. *)
Variables (is_evm_chain is_solana_chain is_valid_sub_path : string → bool).

Definition wallet_seed (wallet_id chain : string) : string :=
  if is_evm_chain chain then "wallet:" +:+ wallet_id +:+ ":evm"
  else if is_solana_chain chain then "wallet:" +:+ wallet_id +:+ ":solana"
  else "wallet:" +:+ wallet_id +:+ ":" +:+ chain.
Definition validate_wallet_id (wallet_id : string) : bool := negb (str_is_empty wallet_id || has_byte ch_colon wallet_id).
Definition subkey_seed (wallet_id sub_path : string) : string := "subkey:" +:+ wallet_id +:+ ":evm:" +:+ sub_path.
(** [None] is the refusal. *)
Definition validate_sub_path (raw : option string) : option (option string) :=
  match raw with
  | None => Some None
  | Some p => if str_is_empty p then Some None else if is_valid_sub_path p then Some (Some p) else None
  end.
(** The seed of the key [wallet_derive_address_handler] answers with, and of the keys the
    signing handlers use: for the chain [near], for Solana and for the EVM chains. *)
Definition address_seed (wallet_id chain : string) (sub_path : option string) : option string :=
  if negb (validate_wallet_id wallet_id) then None else
  let chain := to_lowercase chain in
  sub_path ← validate_sub_path sub_path;
  if bool_decide (is_Some sub_path) && negb (is_evm_chain chain) then None else
  let seed := match sub_path with Some p => subkey_seed wallet_id p | None => wallet_seed wallet_id chain end in
  if String.eqb chain "near" || is_solana_chain chain || is_evm_chain chain then Some seed else None.
(** The seed of the key [derive_ephemeral_key_handler] hands out. *)
Definition ephemeral_seed (wallet_id chain sub_path : string) : option string :=
  if negb (validate_wallet_id wallet_id) then None else
  if str_is_empty sub_path then None else
  Some ("wallet:" +:+ wallet_id +:+ ":" +:+ to_lowercase chain +:+ ":" +:+ sub_path).
End wallets.

(** * Authorizing and deriving *)

Inductive ApiError :=
| SigningKeysRefused (status : Z) (why : KeyRefusal)
| InternalError (why : string)
| VaultNotAvailable (vault : string) (e : LoadError)
| Unavailable (vault : string).


Definition value_of (r : result ViewAt string) : result Value string := let? v := r in ROk (at_value v).
Definition project_at_one_block (c : NearClient) (project_id wasm : string)
    : result Value string * result Value string :=
  let version := get_version_at c project_id wasm None in
  let project := get_project_at c project_id None in
  match version, project with
  | ROk v, ROk p =>
    if String.eqb (at_hash v) (at_hash p) then (ROk (at_value v), ROk (at_value p))
    else if at_height v <=? at_height p
    then (ROk (at_value v), value_of (get_project_at c project_id (Some (at_hash v))))
    else (value_of (get_version_at c project_id wasm (Some (at_hash p))), ROk (at_value p))
  | _, _ => (value_of version, value_of project)
  end.

Definition project_version_matches (version : Value) (wasm : string) : bool :=
  bool_decide ((h ← value_get "wasm_hash" version; value_str h) = Some wasm) &&
  bool_decide ((s ← value_get "source" version; w ← value_get "WasmUrl" s; h ← value_get "hash" w; value_str h) = Some wasm).

Section authorize.
Context `{Unicode} `{AccountIds}.

Definition project_owner (project : Value) (id : ProjectId) : result string KeyRefusal :=
  match project with
  | VNull => RErr (ProjectMissing (pid_id id))
  | _ =>
    let? owner := ok_or (o ← value_get "owner" project; value_str o) (ProjectNamesNoOwner (pid_id id)) in
    if negb (account_ok owner) then RErr (ProjectOwnerNotAccount (pid_id id))
    else if negb (String.eqb owner (pid_owner id)) then RErr (ProjectOfAnother (pid_id id) owner)
    else ROk owner
  end.
Definition project_uuid (project : Value) (id : ProjectId) : result string KeyRefusal :=
  let? uuid := ok_or (u ← value_get "uuid" project; value_str u) (ProjectNamesNoUuid (pid_id id)) in
  map_err (λ _, ProjectUuidBad (pid_id id)) (project_uuid_parse uuid).

Definition refused {A} (status : Z) (r : result A KeyRefusal) : result A ApiError := map_err (SigningKeysRefused status) r.
Definition published_project (client : option NearClient) (project : ProjectId) (wasm : string)
    : result (string * string) ApiError :=
  let? c := ok_or client (InternalError "NEAR client not configured") in
  let '(version, view) := project_at_one_block c (pid_id project) wasm in
  let? version := map_err (λ said, InternalError ("the project version could not be read: " +:+ said)) version in
  if negb (project_version_matches version wasm) then RErr (SigningKeysRefused 403 (NotAVersion wasm (pid_id project))) else
  let? view := map_err (λ said, InternalError ("the project could not be read: " +:+ said)) view in
  let? owner := refused 403 (project_owner view project) in
  let? uuid := refused 403 (project_uuid view project) in
  ROk (owner, uuid).

Record KeyedRequest := mkKeyedRequest {
  kr_project_id : option string; kr_user : string; kr_predecessor : option string; kr_wasm : option string;
  kr_signing : list SigningKeyRequest; kr_encryption : list EncryptionKeyRequest;
}.
Record AuthorizedKeys := mkAuthorized { auth_signing : option BoundKeys; auth_encryption : option BoundKeys }.

Definition opt_bind (v : option ValidatedKeys) (uuid : option string) : result (option BoundKeys) KeyRefusal :=
  match v with None => ROk None | Some v => let? b := bind v uuid in ROk (Some b) end.
Definition bind_all (signing encryption : option ValidatedKeys) (uuid : option string) : result AuthorizedKeys ApiError :=
  let? s := refused 400 (opt_bind signing uuid) in
  let? e := refused 400 (opt_bind encryption uuid) in
  ROk (mkAuthorized s e).
Definition validate_family {D} `{KeyDeclaration D} (req : KeyedRequest) (keys : list D)
    : result (option ValidatedKeys) ApiError :=
  match keys with
  | [] => ROk None
  | _ =>
    let? v := refused 400 (validate_request (kr_project_id req) (kr_user req) (kr_predecessor req) (kr_wasm req) keys) in
    ROk (Some v)
  end.

Fixpoint each_ok {A E} (f : A → result unit E) (l : list A) : result unit E :=
  match l with [] => ROk tt | a :: l => let? _ := f a in each_ok f l end.
Definition read_vault (c : NearClient) (owner vault : string) : result unit ApiError :=
  let? state := map_err InternalError (get_vault_state c vault) in
  refused 403 (vault_belongs_to owner vault state).

(** [ensure_customer_loaded] for a vault, which reads the chain anew. *)
Variable load : string → act Keystore unit LoadError.
Definition load_error (vault : string) (e : LoadError) : ApiError :=
  match e with
  | NotServable why => SigningKeysRefused 403 (VaultRefused why)
  | InsufficientVaultBalance v => SigningKeysRefused 402 (VaultUnderfunded v)
  | e => VaultNotAvailable vault e
  end.
Fixpoint load_each (l : list string) : act Keystore unit ApiError :=
  match l with
  | [] => give tt
  | v :: l => let^ _ := (λ s, let '(r, s) := load v s in (map_err (load_error v) r, s)) in load_each l
  end.

Definition all_vaults (signing encryption : option ValidatedKeys) : list string :=
  let named v := match v with Some v => vaults v | None => [] end in
  distinct_onto [] (named signing ++ named encryption).

Definition authorize_keys (client : option NearClient) (req : KeyedRequest) : act Keystore AuthorizedKeys ApiError :=
  let^ signing := lift (validate_family req (kr_signing req)) in
  let^ encryption := lift (validate_family req (kr_encryption req)) in
  match signing, encryption with
  | None, None => stop (SigningKeysRefused 400 NamesNoKeys)
  | Some first, _ | None, Some first =>
    match vks_project first with
    | None => lift (bind_all signing encryption None)
    | Some project =>
      let^ c := lift (ok_or client (InternalError "NEAR client not configured")) in
      let^ '(owner, uuid) := lift (published_project client project (vks_wasm first)) in
      let vs := all_vaults signing encryption in
      let^ _ := lift (each_ok (λ v, refused 403 (vault_is_named_under owner v)) vs) in
      let^ _ := lift (each_ok (read_vault c owner) vs) in
      let^ _ := load_each vs in
      lift (bind_all signing encryption (Some uuid))
    end
  end.

(** ** Deriving *)

Context `{KeyCrates}.

Inductive DeriveError := NotDerived (e : CryptoError) | OtherFamily.
Definition derive_declared_key (ks : Keystore) (vault : option string) (input : DerivationInput) : result string DeriveError :=
  let? master := map_err NotDerived (master_for ks vault) in ROk (mac master (input_text input)).
Definition derive_signing_key_seed (ks : Keystore) (vault : option string) (input : DerivationInput) : result string DeriveError :=
  if negb (bool_decide (input_family input = Signing)) then RErr OtherFamily else derive_declared_key ks vault input.
Definition derive_encryption_key (ks : Keystore) (vault : option string) (input : DerivationInput) : result string DeriveError :=
  if negb (bool_decide (input_family input = Encryption)) then RErr OtherFamily else derive_declared_key ks vault input.
Definition derive_task_key (ks : Keystore) (input : string) (vault : option string) : result string CryptoError :=
  let? master := master_for ks vault in ROk (mac master input).

Definition derive_error (key : BoundKey) (e : DeriveError) : ApiError :=
  match e with
  | NotDerived (VaultMasterNotLoaded v) => Unavailable v
  | NotDerived _ | OtherFamily => SigningKeysRefused 400 (WrongFamily (bk_path key))
  end.
Fixpoint derive_each (ks : Keystore) (family : KeyFamily) (out : gmap string string) (l : list BoundKey)
    : result (gmap string string) ApiError :=
  match l with
  | [] => ROk out
  | key :: l =>
    let? secret := map_err (derive_error key)
      (match family with
       | Signing => derive_signing_key_seed ks (bk_vault key) (bk_input key)
       | Encryption => derive_encryption_key ks (bk_vault key) (bk_input key)
       end) in
    derive_each ks family (<[bk_path key := hex_of secret]> out) l
  end.
Definition derive_keys (ks : Keystore) (bound : BoundKeys) : result (gmap string string) ApiError :=
  derive_each ks (bks_family bound) ∅ (bks_keys bound).
End authorize.
