(* ===== verification/KeySafety.v ===== *)
(** The keystore's names tell keys apart: two declared keys derived from one text are one
    key, no text another caller can spell is a declared key's, what is handed out as a
    private key signs for no wallet, and keys go only to the build and the project the
    chain published. *)

From S2P Require Export KeyNames.

(** * Texts *)

Definition plain_part (p : string) : Prop := p ≠ "" ∧ has_byte ch_colon p = false.

Lemma find_none_forall {A} (f : A → bool) l : find f l = None ↔ Forall (λ a, f a = false) l.
Proof.
  split.
  - intros Hf. apply Forall_forall. intros a Ha. by apply (List.find_none _ _ Hf), list_elem_of_In.
  - induction 1 as [|a l Ha Hl IH]; cbn; [done|]. by rewrite Ha.
Qed.
Lemma str_is_empty_false s : str_is_empty s = false ↔ s ≠ "".
Proof. by destruct s. Qed.

Definition parts_of (kind : KeyKind) (b : Binding) (caller : list string) (path : string) : list string :=
  match type_segment kind with Some t => [t] | None => [] end ++ binding_parts b ++ caller ++ [path].
Lemma from_parts_ok kind b caller path i : from_parts kind b caller path = ROk i →
  Forall plain_part (parts_of kind b caller path) ∧
  i = mkInput (kind_family kind) (root (kind_family kind) +:+ str_join ":" (parts_of kind b caller path)).
Proof.
  unfold from_parts. fold (parts_of kind b caller path). destruct (find _ _) eqn:E; [done|].
  intros [= <-]. split; [|done]. apply find_none_forall in E. eapply Forall_impl; [exact E|].
  intros p [He Hc]%orb_false_iff. split; [by apply str_is_empty_false | exact Hc].
Qed.

(** The segments that say whose a key is. *)
Inductive caller_parts : list string → KeyCaller → option string → Prop :=
| cp_account c account : caller_parts [caller_kind_label c; account] (key_caller_of c) (Some account)
| cp_none : caller_parts [caller_label NoCaller] NoCaller None.

Lemma caller_kind_label_inj c c' : caller_kind_label c = caller_kind_label c' → c = c'.
Proof. by destruct c, c'. Qed.
Lemma type_label_inj t t' : type_label t = type_label t' → t = t'.
Proof. by destruct t, t'. Qed.
Lemma binding_parts_inj b b' l l' : binding_parts b ++ l = binding_parts b' ++ l' → b = b' ∧ l = l'.
Proof. destruct b, b'; cbn; intros E; try done; by injection E as -> ->. Qed.
Lemma caller_parts_inj l c a l' c' a' p p' : caller_parts l c a → caller_parts l' c' a' →
  l ++ [p] = l' ++ [p'] → c = c' ∧ a = a' ∧ p = p'.
Proof.
  intros [k account|] [k' account'|]; cbn; intros E; try done.
  - injection E as E1 -> ->. by apply caller_kind_label_inj in E1 as ->.
  - injection E as ->. done.
Qed.

Lemma parts_inj k b l c a p k' b' l' c' a' p' : kind_family k = kind_family k' →
  caller_parts l c a → caller_parts l' c' a' → parts_of k b l p = parts_of k' b' l' p' →
  k = k' ∧ b = b' ∧ c = c' ∧ a = a' ∧ p = p'.
Proof.
  unfold parts_of. destruct k as [t|], k' as [t'|]; intros Hf Hc Hc' E; try done; cbn [type_segment app] in E.
  - injection E as Et E. apply type_label_inj in Et as ->. apply binding_parts_inj in E as [-> E].
    by destruct (caller_parts_inj _ _ _ _ _ _ _ _ Hc Hc' E) as (-> & -> & ->).
  - apply binding_parts_inj in E as [-> E]. by destruct (caller_parts_inj _ _ _ _ _ _ _ _ Hc Hc' E) as (-> & -> & ->).
Qed.

Lemma roots_apart f f' x y : root f +:+ x = root f' +:+ y → f = f' ∧ x = y.
Proof. destruct f, f'; intros E; try done; by apply str_append_inj_l in E. Qed.

(** A text that names one key, and that key. *)
Record names_key (i : DerivationInput) (kind : KeyKind) (b : Binding) (c : KeyCaller) (a : option string) (p : string) : Prop := {
  nk_made : ∃ l, caller_parts l c a ∧ from_parts kind b l p = ROk i;
}.
Lemma names_key_inj i k b c a p i' k' b' c' a' p' : names_key i k b c a p → names_key i' k' b' c' a' p' →
  input_text i = input_text i' → k = k' ∧ b = b' ∧ c = c' ∧ a = a' ∧ p = p'.
Proof.
  intros [(l & Hl & Hi)] [(l' & Hl' & Hi')]. apply from_parts_ok in Hi as [Hp ->], Hi' as [Hp' ->]. cbn. intros E.
  apply roots_apart in E as [Hf E]. apply (str_join_inj ":") in E; [|exact Hp|exact Hp'].
  by eapply parts_inj.
Qed.

Lemma bind_key_names project wasm v k : bind_key project wasm v = ROk k →
  ∃ b, names_key (bk_input k) (bk_kind k) b (bk_caller k) (bk_account k) (bk_path k) ∧
    b = match bk_bind k, project with ToProject, Some p => BoundToProject (bp_uuid p) | _, _ => BoundToWasm wasm end ∧
    (bk_bind k = ToProject ↔ is_Some project) ∧
    (bk_kind k = vk_kind v ∧ bk_bind k = vk_bind v ∧ bk_path k = vk_path v ∧ bk_caller k = vk_caller v ∧
     bk_account k = vk_account v ∧ bk_vault k = vk_vault v).
Proof.
  unfold bind_key. intros (b & Hb & (i & Hi & Hk)%rbind_ok)%rbind_ok. injection Hk as <-. cbn. exists b.
  assert (b = match vk_bind v, project with ToProject, Some p => BoundToProject (bp_uuid p) | _, _ => BoundToWasm wasm end ∧
          (vk_bind v = ToProject ↔ is_Some project)) as [Hbe Hbb].
  { destruct (vk_bind v), project as [pr|]; try done; injection Hb as <-; (split; [done|]); split; intros Hx; try done; eauto. }
  split; [|by split_and!]. constructor.
  destruct (account_kind (vk_caller v)) as [ck|] eqn:Ec, (vk_account v) as [acc|]; try done.
  - exists [caller_kind_label ck; acc]. split; [|exact Hi].
    replace (vk_caller v) with (key_caller_of ck) by (destruct (vk_caller v); by simplify_eq/=). constructor.
  - unfold of_no_caller in Hi. destruct (negb _); [done|]. exists [caller_label NoCaller]. split; [|exact Hi].
    destruct (vk_caller v); try done. constructor.
Qed.
Lemma mapR_ok {A B E} (f : A → result B E) l l' : mapR f l = ROk l' ↔ Forall2 (λ a b, f a = ROk b) l l'.
Proof.
  revert l'. induction l as [|a l IH]; intros l'; cbn.
  - split; [intros [= <-]; constructor | by inversion 1].
  - rewrite rbind_ok. split.
    + intros (b & Hb & (bs & Hbs & E')%rbind_ok). injection E' as <-. constructor; [done | by apply IH].
    + inversion 1 as [|? b ? bs Hb Hbs]; subst. exists b. split; [done|]. apply rbind_ok. exists bs. split; [by apply IH | done].
Qed.
Lemma bind_yields v uuid b : bind v uuid = ROk b →
  bks_family b = vks_family v ∧ bks_wasm b = vks_wasm v ∧ bp_id <$> bks_project b = vks_project v ∧
  bp_uuid <$> bks_project b = uuid ∧ Forall2 (λ x k, bind_key (bks_project b) (bks_wasm b) x = ROk k) (vks_keys v) (bks_keys b).
Proof.
  unfold bind. intros (pr & Hp & (keys & Hk & Hb)%rbind_ok)%rbind_ok. injection Hb as <-. cbn.
  apply mapR_ok in Hk. destruct (vks_project v), uuid; try done; injection Hp as <-; done.
Qed.
Lemma bound_names v uuid b k : bind v uuid = ROk b → k ∈ bks_keys b →
  names_key (bk_input k) (bk_kind k)
    (match bk_bind k, bks_project b with ToProject, Some p => BoundToProject (bp_uuid p) | _, _ => BoundToWasm (bks_wasm b) end)
    (bk_caller k) (bk_account k) (bk_path k) ∧ (bk_bind k = ToProject ↔ is_Some (bks_project b)).
Proof.
  intros (_ & _ & _ & _ & Hk)%bind_yields Hin. apply list_elem_of_lookup in Hin as [i Hi].
  eapply Forall2_lookup_r in Hk as (x & _ & Hx); [|exact Hi].
  apply bind_key_names in Hx as (bd & Hn & -> & Hb & _). done.
Qed.

(** * Roots *)

Lemma declared_text_root i k b c a p : names_key i k b c a p → ∃ r, input_text i = root (kind_family k) +:+ r.
Proof. intros [(l & _ & [_ ->]%from_parts_ok)]. cbn. eauto. Qed.
Lemma starts_with_trans a b s : starts_with b a = true → starts_with s b = true → starts_with s a = true.
Proof.
  unfold starts_with. rewrite !prefix_append. intros [r ->] [r' ->]. rewrite str_append_assoc. eauto.
Qed.
(** Every text derived only for a manifest starts at one of the roots. *)
Definition at_declared_root (text : string) : Prop := ∃ r, r ∈ DECLARED_KEY_ROOTS ∧ starts_with text r = true.
Lemma declared_at_root i k b c a p : names_key i k b c a p → at_declared_root (input_text i).
Proof.
  intros (r & ->)%declared_text_root. destruct (kind_family k); cbn [root].
  - exists "signing-key:". split; [left | eapply starts_with_trans; [|apply starts_with_app]; done].
  - exists "encryption-key:". split; [right; left | eapply starts_with_trans; [|apply starts_with_app]; done].
Qed.
Lemma task_key_at_root uuid owner : at_declared_root (task_key_input uuid owner).
Proof.
  exists "task-key:". split; [do 2 right; left|]. unfold task_key_input.
  eapply starts_with_trans; [|apply starts_with_app]. done.
Qed.
Lemma refused_seed seed : refuse_declared_key_seed seed = None → ¬ at_declared_root seed.
Proof.
  unfold refuse_declared_key_seed. rewrite find_none_forall, Forall_forall. intros Hn (r & Hr & Hs).
  by rewrite (Hn r Hr) in Hs.
Qed.
Lemma colon_cut s : has_byte ch_colon s = true → ∃ l r, s = l +:+ ":" +:+ r ∧ has_byte ch_colon l = false.
Proof.
  induction s as [|c s IH]; cbn; [done|]. destruct (byte_of c =? ch_colon) eqn:E.
  - intros _. exists "", s. split; [|done]. cbn. f_equal. apply byte_of_inj. change (byte_of ":") with ch_colon. lia.
  - intros (l & r & -> & Hl)%IH. exists (String c l), r. cbn. rewrite E. done.
Qed.
Lemma repo_seed_apart repo owner branch seed : repo_seed repo owner branch = Some seed → ¬ at_declared_root seed.
Proof.
  unfold repo_seed. intros (n & Hn & E)%bind_Some. injection E as <-. unfold repo_seed_root in Hn.
  destruct (find _ _) eqn:Ef; [done|]. injection Hn as Hn. rewrite Hn in Ef. apply find_none_forall in Ef. rewrite Forall_forall in Ef.
  intros (r & Hr & Hs). specialize (Ef r Hr). unfold starts_with in *. apply prefix_append in Hs as [rest Hs].
  assert (∃ r0, r = r0 +:+ ":" ∧ has_byte ch_colon r0 = false) as (r0 & -> & Hr0).
  { unfold DECLARED_KEY_ROOTS in Hr. rewrite !elem_of_cons in Hr.
    destruct Hr as [->|[->|[->|Hr%elem_of_nil]]]; [exists "signing-key"|exists "encryption-key"|exists "task-key"|done]; done. }
  revert Ef. apply not_false_iff_true, prefix_append.
  destruct (has_byte ch_colon n) eqn:En.
  - (* the root ends inside the repository's text *)
    apply colon_cut in En as (l & m & -> & Hl). rewrite !str_append_assoc in Hs.
    apply (sep_inj ":") in Hs as [-> _]; [|done..]. exists (m +:+ ":"). by rewrite !str_append_assoc.
  - rewrite !str_append_assoc in Hs. apply (sep_inj ":") in Hs as [-> _]; [|done..]. exists "". by rewrite str_append_nil_r.
Qed.

(** ** Wallets *)

Section wallets.
Context `{Unicode} (evm solana sub_path_ok : string → bool).

Lemma no_root_of text r : starts_with text r = true → (∀ d, d ∈ DECLARED_KEY_ROOTS → String.prefix d r = false ∧
  String.prefix r d = false) → ¬ at_declared_root text.
Proof.
  unfold starts_with. intros [x ->]%prefix_append Hd (d & Hin & Hs). destruct (Hd d Hin) as [H1 H2].
  apply prefix_append in Hs as [y Hs]. revert H1 H2. clear Hin Hd. revert d y Hs.
  induction r as [|c r IH]; intros [|e d] y Hs H1 H2; cbn in *; try done. injection Hs as -> Hs.
  revert H1 H2. destruct (ascii_dec e e) as [_|]; [|done]. intros H1 H2. exact (IH _ _ Hs H1 H2).
Qed.
Lemma wallet_root text : starts_with text "wallet:" = true → ¬ at_declared_root text.
Proof.
  intros Hs. eapply no_root_of; [exact Hs|]. intros d Hd. unfold DECLARED_KEY_ROOTS in Hd. rewrite !elem_of_cons in Hd.
  by destruct Hd as [->|[->|[->|Hd%elem_of_nil]]].
Qed.
Lemma subkey_root text : starts_with text "subkey:" = true → ¬ at_declared_root text.
Proof.
  intros Hs. eapply no_root_of; [exact Hs|]. intros d Hd. unfold DECLARED_KEY_ROOTS in Hd. rewrite !elem_of_cons in Hd.
  by destruct Hd as [->|[->|[->|Hd%elem_of_nil]]].
Qed.

Lemma valid_wallet_id w : validate_wallet_id w = true → w ≠ "" ∧ has_byte ch_colon w = false.
Proof. unfold validate_wallet_id. rewrite negb_true_iff, orb_false_iff, str_is_empty_false. done. Qed.

Lemma address_seed_shape w c p seed : address_seed evm solana sub_path_ok w c p = Some seed →
  has_byte ch_colon w = false ∧
  ((∃ chain, seed = "wallet:" +:+ w +:+ ":" +:+ chain ∧ chain ∈ ["near"; "evm"; "solana"]) ∨
   ∃ path, seed = subkey_seed w path ∧ sub_path_ok path = true).
Proof.
  unfold address_seed. destruct (validate_wallet_id w) eqn:Hw; [|done]. apply valid_wallet_id in Hw as [_ Hw]. cbn [negb].
  intros (sp & Hsp & Hs)%bind_Some. destruct (_ && _) eqn:Eg; [done|].
  destruct (_ || evm _) eqn:Ec; [|done]. injection Hs as <-. split; [exact Hw|].
  destruct sp as [path|].
  - right. exists path. split; [done|]. unfold validate_sub_path in Hsp. destruct p as [p|]; [|done].
    destruct (str_is_empty p); [done|]. by destruct (sub_path_ok p) eqn:E; simplify_eq.
  - left. unfold wallet_seed. destruct (evm _) eqn:Ee; [exists "evm"; split; [done|set_solver]|].
    destruct (solana _) eqn:Es; [exists "solana"; split; [done|set_solver]|].
    rewrite !orb_false_r in Ec. apply String.eqb_eq in Ec as ->. exists "near". split; [done|set_solver].
Qed.
Lemma ephemeral_seed_shape w c p seed : ephemeral_seed w c p = Some seed →
  has_byte ch_colon w = false ∧ ∃ chain, seed = "wallet:" +:+ w +:+ ":" +:+ chain +:+ ":" +:+ p ∧ p ≠ "".
Proof.
  unfold ephemeral_seed. destruct (validate_wallet_id w) eqn:Hw; [|done]. apply valid_wallet_id in Hw as [_ Hw]. cbn [negb].
  destruct (str_is_empty p) eqn:Ep; [done|]. apply str_is_empty_false in Ep. intros [= <-]. eauto.
Qed.
End wallets.

(** C14: One text, one key.  Two declared keys of any two requests are derived from one
    text only when they are one key: of one kind, for one binding and what it is bound to,
    for one caller and account, at one path.  No task key's text is a declared key's, and
    neither is any seed a caller may spell, raw or as a repository's. *)
Theorem one_text_one_key v uuid b k v' uuid' b' k' :
  bind v uuid = ROk b → bind v' uuid' = ROk b' → k ∈ bks_keys b → k' ∈ bks_keys b' →
  (input_text (bk_input k) = input_text (bk_input k') →
    (bk_kind k = bk_kind k' ∧ bk_caller k = bk_caller k' ∧ bk_account k = bk_account k' ∧ bk_path k = bk_path k' ∧
     bk_bind k = bk_bind k') ∧
    match bk_bind k with
    | ToProject => bp_uuid <$> bks_project b = bp_uuid <$> bks_project b'
    | ToWasm => bks_wasm b = bks_wasm b'
    end) ∧
  (∀ u o, input_text (bk_input k) ≠ task_key_input u o) ∧
  (∀ seed, refuse_declared_key_seed seed = None → seed ≠ input_text (bk_input k)) ∧
  (∀ repo owner branch seed, repo_seed repo owner branch = Some seed → seed ≠ input_text (bk_input k)).
Proof.
  intros Hb Hb' Hk Hk'. destruct (bound_names _ _ _ _ Hb Hk) as [Hn Hp], (bound_names _ _ _ _ Hb' Hk') as [Hn' Hp'].
  split_and!.
  - intros E. destruct (names_key_inj _ _ _ _ _ _ _ _ _ _ _ _ Hn Hn' E) as (Hkind & Hbind & Hc & Ha & Hpath).
    assert (bk_bind k = bk_bind k') as Ebind.
    { destruct (bk_bind k), (bk_bind k'); try done; destruct (bks_project b), (bks_project b'); try done; naive_solver. }
    split; [done|]. rewrite <- Ebind in *.
    destruct (bk_bind k); [|by injection Hbind as ->].
    destruct (bks_project b), (bks_project b'); try naive_solver. cbn. by injection Hbind as ->.
  - intros u o E. apply declared_text_root in Hn as [r Hr]. rewrite Hr in E. by destruct (kind_family (bk_kind k)).
  - intros seed Hs ->. apply refused_seed in Hs. by eapply Hs, declared_at_root.
  - intros repo owner branch seed Hs ->. apply repo_seed_apart in Hs. by eapply Hs, declared_at_root.
Qed.


(** * What a request is judged by *)

Lemma guard_ok {E} (c : bool) (e : E) (u : unit) : (if c then RErr e else ROk tt) = ROk u ↔ c = false.
Proof. destruct c, u; naive_solver. Qed.
Lemma opt_parse_ok {A E} (f : string → result A E) o a : opt_parse f o = ROk a ↔
  match o with None => a = None | Some s => ∃ x, f s = ROk x ∧ a = Some x end.
Proof. destruct o; cbn; [rewrite rbind_ok|]; naive_solver. Qed.

Section judged.
Context `{Unicode} `{AccountIds}.

(** [\[a-z0-9\]\[a-z0-9_-\]{0,31}]. *)
Definition key_path_shape (p : string) : bool :=
  match p with
  | "" => false
  | String first _ => (str_len p <=? MAX_KEY_PATH_LEN) && lower_alnum (byte_of first) && forall_bytes path_byte p
  end.
Lemma key_path_parse_exact raw p : key_path_parse raw = ROk p ↔ key_path_shape raw = true ∧ p = raw.
Proof.
  unfold key_path_parse, key_path_shape. destruct raw as [|c s]; [naive_solver|]. rewrite Z.ltb_antisym.
  destruct (str_len (String c s) <=? _), (lower_alnum _), (forall_bytes _ _); cbn; naive_solver.
Qed.

Section keys.
Context {D : Type} `{KeyDeclaration D} (project : option ProjectId) (signer : string) (predecessor : option string).

(** A declared key that may be issued to the run. *)
Record key_fits (d : D) : Prop := {
  kf_path : key_path_shape (d_path d) = true;
  kf_family : kind_family (d_kind d) = FAMILY (D := D);
  kf_bind : d_bind d = ToProject ↔ is_Some project;
  kf_predecessor : d_caller d = Predecessor → is_Some predecessor;
  kf_no_caller : d_caller d = NoCaller → d_kind d = KindSigning Ed25519;
  kf_vault v : d_vault d = Some v → d_bind d = ToProject ∧ account_ok v = true;
}.
Definition validated (d : D) : ValidatedKey :=
  mkValidated (d_path d) (d_kind d) (d_bind d) (d_caller d)
    (match d_caller d with Signer => Some signer | Predecessor => predecessor | NoCaller => None end) (d_vault d).

Lemma existsb_path out p : existsb (λ k, String.eqb (vk_path k) p) out = false ↔ p ∉ map vk_path out.
Proof.
  induction out as [|k out IH]; cbn; [split; [set_solver | done]|].
  rewrite orb_false_iff, String.eqb_neq, IH, not_elem_of_cons. naive_solver.
Qed.

Lemma validate_key_exact out d k : validate_key project signer predecessor out d = ROk k ↔
  key_fits d ∧ (d_path d ∉ map vk_path out) ∧ k = validated d.
Proof.
  unfold validate_key. split.
  - intros (p & [Hp ->]%key_path_parse_exact & Hk)%rbind_ok. cbv zeta in Hk.
    apply rbind_ok in Hk as (? & Hfam%guard_ok & Hk). apply rbind_ok in Hk as (? & Htwice%guard_ok & Hk).
    apply rbind_ok in Hk as (? & Hbind & Hk). apply rbind_ok in Hk as (acc & Hacc & Hk).
    apply rbind_ok in Hk as (vl & Hvl & Hk).
    apply negb_false_iff, bool_decide_eq_true in Hfam. apply existsb_path in Htwice. injection Hk as <-.
    assert (d_bind d = ToProject ↔ is_Some project) as Hb.
    { destruct (d_bind d), project; try done; split; intros; try done; by eauto. }
    assert (acc = match d_caller d with Signer => Some signer | Predecessor => predecessor | NoCaller => None end) as ->.
    { destruct (d_caller d), predecessor; try naive_solver; cbn in Hacc; by destruct (bool_decide _); simplify_eq. }
    assert (vl = d_vault d ∧ ∀ v, d_vault d = Some v → d_bind d = ToProject ∧ account_ok v = true) as [-> Hv].
    { destruct (d_vault d) as [v|], (d_bind d); try naive_solver. destruct (account_ok v) eqn:E; naive_solver. }
    split_and!; [|exact Htwice|done]. split; [done | done | exact Hb | | | exact Hv].
    + intros Ec. rewrite Ec in Hacc. destruct predecessor; [by eauto | done].
    + intros Ec. rewrite Ec in Hacc. by destruct (bool_decide_reflect (d_kind d = KindSigning Ed25519)).
  - intros ([Hp Hfam Hb Hpr Hno Hv] & Htwice & ->). apply rbind_ok. exists (d_path d).
    split; [by apply key_path_parse_exact|]. cbv zeta. rewrite bool_decide_eq_true_2 by done.
    apply existsb_path in Htwice. rewrite Htwice. cbn [negb rbind].
    assert (match d_bind d, project with
      | ToProject, Some _ | ToWasm, None => ROk tt
      | ToProject, None => RErr (ProjectKeyOnDirectRun (d_path d))
      | ToWasm, Some p => RErr (WasmKeyOnProjectRun (d_path d) (pid_id p))
      end = ROk tt) as ->.
    { destruct (d_bind d), project as [pr|]; try done; [by destruct (proj1 Hb eq_refl)|].
      discriminate (proj2 Hb (ex_intro _ pr eq_refl)). }
    cbn [rbind]. unfold validated. destruct (d_vault d) as [v|] eqn:Ev.
    + destruct (Hv v eq_refl) as [Eb Ha]. rewrite Eb, Ha.
      destruct (d_caller d); [done | by destruct (Hpr eq_refl) as [? ->] |]; by rewrite bool_decide_eq_true_2 by auto.
    + destruct (d_caller d); [done | by destruct (Hpr eq_refl) as [? ->] |]; by rewrite bool_decide_eq_true_2 by auto.
Qed.

Lemma validate_keys_exact keys : ∀ out out', NoDup (map vk_path out) →
  validate_keys project signer predecessor out keys = ROk out' ↔
  Forall key_fits keys ∧ NoDup (map vk_path out ++ map d_path keys) ∧ out' = out ++ map validated keys.
Proof.
  induction keys as [|d keys IH]; intros out out' Hout; cbn [validate_keys map].
  { rewrite !app_nil_r. naive_solver. }
  rewrite rbind_ok, Forall_cons. split.
  - intros (k & (Hd & Hn & ->)%validate_key_exact & Hk). apply IH in Hk as (Hf & Hnd & ->).
    + rewrite map_app, <- app_assoc in Hnd. rewrite <- app_assoc. done.
    + rewrite map_app. apply NoDup_app. split_and!; [done | set_solver | apply NoDup_singleton].
  - intros ([Hd Hf] & Hnd & ->). exists (validated d). split.
    + apply validate_key_exact. split_and!; [done | | done]. apply NoDup_app in Hnd as (_ & Hdis & _). set_solver.
    + apply IH; [|by rewrite map_app, <- !app_assoc].
      rewrite map_app. apply NoDup_app. apply NoDup_app in Hnd as (_ & Hdis & _).
      split_and!; [done | set_solver | apply NoDup_singleton].
Qed.
End keys.

Lemma validate_request_ok {D} `{KeyDeclaration D} pid who pred hash (keys : list D) v :
  validate_request pid who pred hash keys = ROk v →
  0 < Z.of_nat (length keys) ≤ max_keys (FAMILY (D := D)) ∧ hash = Some (vks_wasm v) ∧
  vks_family v = FAMILY (D := D) ∧ opt_parse project_id_parse pid = ROk (vks_project v) ∧
  Forall (key_fits (vks_project v) pred) keys ∧ NoDup (map d_path keys) ∧ vks_keys v = map (validated who pred) keys.
Proof.
  unfold validate_request. destruct (_ =? 0) eqn:E0; [done|]. destruct (_ <? _) eqn:En; [done|].
  intros (pr & Hpr & (sg & Hsg & (pd & Hpd & (h & Hh%ok_or_ok & (w & Hw & (out & Hout & Hv)%rbind_ok)%rbind_ok)%rbind_ok)%rbind_ok)%rbind_ok)%rbind_ok.
  injection Hv as <-. cbn.
  assert (h = w) as -> by (unfold wasm_sha256_parse in Hw; by destruct (_ && _); simplify_eq).
  assert (sg = who) as ->.
  { unfold real_account in Hsg. destruct (bool_decide _); [done|]. by destruct (account_ok who); simplify_eq. }
  assert (pd = pred) as ->.
  { apply opt_parse_ok in Hpd. destruct pred as [q|]; [|done]. destruct Hpd as (x & Hx & ->). unfold real_account in Hx.
    destruct (bool_decide _); [done|]. by destruct (account_ok q); simplify_eq. }
  apply validate_keys_exact in Hout as (Hf & Hnd & ->); [|constructor]. cbn in Hnd. split_and!; try done; lia.
Qed.

(** * Keys go to the build the chain published *)

(** The keys of one family as they were issued: the declared ones, in their order, each
    derived from the text that says what it is, whose it is and what it is bound to. *)
Definition issued_as (req : KeyedRequest) (uuid : option string) (wasm : string) {D} `{KeyDeclaration D} (d : D) (k : BoundKey) : Prop :=
  bk_path k = d_path d ∧ bk_kind k = d_kind d ∧ bk_bind k = d_bind d ∧ bk_caller k = d_caller d ∧ bk_vault k = d_vault d ∧
  bk_account k = match d_caller d with
                 | Signer => Some (kr_user req) | Predecessor => kr_predecessor req | NoCaller => None end ∧
  names_key (bk_input k) (d_kind d)
    (match uuid with Some u => BoundToProject u | None => BoundToWasm wasm end) (d_caller d) (bk_account k) (d_path d).
Definition family_issued (req : KeyedRequest) (project : option ProjectId) (uuid : option string) {D} `{KeyDeclaration D}
    (keys : list D) (o : option BoundKeys) : Prop :=
  match o with
  | None => keys = []
  | Some b =>
    0 < Z.of_nat (length keys) ≤ max_keys (FAMILY (D := D)) ∧ bks_family b = FAMILY (D := D) ∧
    kr_wasm req = Some (bks_wasm b) ∧ NoDup (map d_path keys) ∧ Forall (key_fits project (kr_predecessor req)) keys ∧
    Forall2 (issued_as req uuid (bks_wasm b)) keys (bks_keys b)
  end.

Lemma refused_ok {A} st (r : result A KeyRefusal) a : refused st r = ROk a ↔ r = ROk a.
Proof. destruct r; cbn; naive_solver. Qed.
Lemma lift_ok {W A E} (r : result A E) (w : W) a w' : lift r w = (ROk a, w') ↔ r = ROk a ∧ w' = w.
Proof. unfold lift. naive_solver. Qed.

Definition family_valid (req : KeyedRequest) {D} `{KeyDeclaration D} (keys : list D) (o : option ValidatedKeys) : Prop :=
  match o with
  | None => keys = []
  | Some v => validate_request (kr_project_id req) (kr_user req) (kr_predecessor req) (kr_wasm req) keys = ROk v
  end.
Lemma validate_family_ok {D} `{KeyDeclaration D} req (keys : list D) o : validate_family req keys = ROk o → family_valid req keys o.
Proof.
  unfold validate_family. destruct keys as [|d keys]; [by intros [= <-]|].
  intros (v & Hv%refused_ok & E)%rbind_ok. injection E as <-. exact Hv.
Qed.
Lemma bound_as_issued {D} `{KeyDeclaration D} req v uuid b (keys : list D) :
  family_valid req keys (Some v) → bind v uuid = ROk b → family_issued req (vks_project v) uuid keys (Some b).
Proof.
  intros (Hn & Hw & Hfam & Hpr & Hfit & Hnd & Hks)%validate_request_ok (Hf & Hwb & Hid & Hu & Hk)%bind_yields.
  split_and!; [lia | lia | by rewrite Hf | by rewrite Hwb | done | done |].
  rewrite Hks in Hk. apply Forall2_fmap_l in Hk. eapply Forall2_impl; [exact Hk|]. intros d k Hd.
  apply bind_key_names in Hd as (bd & Hname & Hbd & Hb & Ekind & Ebind & Epath & Ecall & Eacc & Evault).
  cbn in Ekind, Ebind, Epath, Ecall, Eacc, Evault.
  split_and!; [done.. |]. rewrite Ekind, Ecall, Epath in Hname.
  replace (match uuid with Some u => BoundToProject u | None => BoundToWasm (bks_wasm b) end) with bd; [exact Hname|].
  rewrite Hbd, <- Hu. destruct (bks_project b) as [p|], (bk_bind k); cbn; try done.
  - by discriminate (proj2 Hb (ex_intro _ p eq_refl)).
Qed.
Lemma opt_bound_as_issued {D} `{KeyDeclaration D} req pr o uuid o' (keys : list D) :
  family_valid req keys o → (∀ v, o = Some v → vks_project v = pr) →
  opt_bind o uuid = ROk o' → family_issued req pr uuid keys o'.
Proof.
  intros Hv Hpr. destruct o as [v|]; cbn; [|by intros [= <-]].
  intros (b & Hb & E)%rbind_ok. injection E as <-. rewrite <- (Hpr v eq_refl). by eapply bound_as_issued.
Qed.

(** The RPC answers a read at a block's hash with that block's answer. *)
Record answers_at_blocks (c : NearClient) : Prop := {
  ab_version id w h v : get_version_at c id w (Some h) = ROk v → at_hash v = h;
  ab_project id h v : get_project_at c id (Some h) = ROk v → at_hash v = h;
}.
(** What the chain said of a build and its project in one block. *)
Definition said_together (c : NearClient) (id wasm : string) (version project : Value) : Prop :=
  ∃ bv bp v p, get_version_at c id wasm bv = ROk v ∧ get_project_at c id bp = ROk p ∧
    at_value v = version ∧ at_value p = project ∧ at_hash v = at_hash p.
Lemma value_of_ok r v : value_of r = ROk v ↔ ∃ a, r = ROk a ∧ at_value a = v.
Proof. unfold value_of. rewrite rbind_ok. naive_solver. Qed.
Lemma one_block c id w version project : answers_at_blocks c →
  project_at_one_block c id w = (ROk version, ROk project) → said_together c id w version project.
Proof.
  intros [Hav Hap]. unfold project_at_one_block, said_together.
  destruct (get_version_at c id w None) as [v|e] eqn:Ev, (get_project_at c id None) as [p|e'] eqn:Ep; try done.
  destruct (String.eqb_spec (at_hash v) (at_hash p)) as [Eh|_]; [intros [= <- <-]; naive_solver|].
  destruct (_ <=? _); intros [= E1 E2].
  - apply value_of_ok in E2 as (a & Ha & <-). subst version. exists None, (Some (at_hash v)), v, a. by rewrite (Hap _ _ _ Ha).
  - apply value_of_ok in E1 as (a & Ha & <-). subst project. exists (Some (at_hash p)), None, a, p. by rewrite (Hav _ _ _ _ Ha).
Qed.

(** The chain publishes [wasm] as a version of the project, which is [owner]'s and is [uuid]. *)
Record published (c : NearClient) (p : ProjectId) (wasm uuid : string) : Prop := {
  pb_said : ∃ version project, said_together c (pid_id p) wasm version project ∧
    project_version_matches version wasm = true ∧
    (o ← value_get "owner" project; value_str o) = Some (pid_owner p) ∧
    (u ← value_get "uuid" project; value_str u) = Some uuid;
}.
Lemma published_project_ok client p w owner uuid c : client = Some c → answers_at_blocks c →
  published_project client p w = ROk (owner, uuid) → owner = pid_owner p ∧ published c p w uuid.
Proof.
  intros -> Hab. unfold published_project. intros (c' & Hc%ok_or_ok & Hr)%rbind_ok. injection Hc as <-.
  destruct (project_at_one_block c (pid_id p) w) as [rv rp] eqn:E.
  apply rbind_ok in Hr as (version & Hv & Hr). destruct rv as [v|]; [|done]. injection Hv as ->.
  destruct (project_version_matches version w) eqn:Em; [|done]. cbn [negb] in Hr.
  apply rbind_ok in Hr as (view & Hp & Hr). destruct rp as [view'|]; [|done]. injection Hp as ->.
  apply rbind_ok in Hr as (o & Ho%refused_ok & (u & Hu%refused_ok & Er)%rbind_ok). injection Er as <- <-.
  assert ((x ← value_get "owner" view; value_str x) = Some (pid_owner p) ∧ o = pid_owner p) as [Hown ->].
  { unfold project_owner in Ho. assert (∃ x, ok_or (y ← value_get "owner" view; value_str y) (ProjectNamesNoOwner (pid_id p)) = ROk x ∧
      (if negb (account_ok x) then RErr (ProjectOwnerNotAccount (pid_id p))
       else if negb (String.eqb x (pid_owner p)) then RErr (ProjectOfAnother (pid_id p) x) else ROk x) = ROk o) as (x & Hx%ok_or_ok & Hc).
    { destruct view; try done; by apply rbind_ok in Ho. }
    destruct (account_ok x); [|done]. destruct (String.eqb_spec x (pid_owner p)) as [->|]; [|done]. by injection Hc as <-. }
  split; [done|]. constructor. exists version, view. split_and!; [by apply one_block | done | done |].
  unfold project_uuid in Hu. apply rbind_ok in Hu as (x & Hx%ok_or_ok & Hu). rewrite Hx.
  unfold project_uuid_parse in Hu. destruct (_ && _); [|done]. by injection Hu as <-.
Qed.

Lemma each_ok_all {A E} (f : A → result unit E) l : each_ok f l = ROk tt ↔ Forall (λ a, f a = ROk tt) l.
Proof.
  induction l as [|a l IH]; cbn; [by split|]. rewrite rbind_ok, Forall_cons, <- IH. split; [by intros ([] & -> & ->)|].
  intros [-> ->]. by exists tt.
Qed.
Lemma distinct_onto_in l seen v : v ∈ distinct_onto seen l ↔ v ∈ seen ∨ v ∈ l.
Proof.
  unfold distinct_onto. revert seen. induction l as [|a l IH]; intros seen; cbn; [set_solver|].
  rewrite IH. destruct (bool_decide_reflect (a ∈ seen)); set_solver.
Qed.
Definition vault_of_owner (c : NearClient) (owner vault : string) : Prop :=
  is_sub_account_of vault owner = true ∧ ∃ st, get_vault_state c vault = ROk st ∧
    (x ← value_get "parent" st; value_str x) = Some owner.
Lemma read_vault_ok c owner v : read_vault c owner v = ROk tt → vault_of_owner c owner v.
Proof.
  unfold read_vault. intros (st & Hs & Hb%refused_ok)%rbind_ok.
  unfold vault_belongs_to in Hb. apply rbind_ok in Hb as ([] & Hn & (par & Hp%ok_or_ok & He)%rbind_ok).
  split.
  - unfold vault_is_named_under in Hn. by destruct (is_sub_account_of v owner).
  - exists st. destruct (get_vault_state c v); [|done]. injection Hs as ->. split; [done|]. rewrite Hp.
    by destruct (String.eqb_spec par owner) as [->|].
Qed.
Lemma family_vaults {D} `{KeyDeclaration D} req (keys : list D) v d x :
  family_valid req keys (Some v) → d ∈ keys → d_vault d = Some x → x ∈ vaults v.
Proof.
  intros (_ & _ & _ & _ & _ & _ & Hks)%validate_request_ok Hd Hx. unfold vaults. rewrite distinct_onto_in, Hks. right.
  apply list_elem_of_omap. exists (validated (kr_user req) (kr_predecessor req) d). split; [by apply list_elem_of_fmap_2|done].
Qed.
End judged.

(** * The whole request *)

Section served.
Context `{Unicode} `{AccountIds}.

(** Every vault the request names, in either family. *)
Definition names_vault (req : KeyedRequest) (v : string) : Prop :=
  (∃ d, d ∈ kr_signing req ∧ sk_vault d = Some v) ∨ (∃ d, d ∈ kr_encryption req ∧ ek_vault d = Some v).

Lemma all_vaults_named req s e v : family_valid req (kr_signing req) s → family_valid req (kr_encryption req) e →
  names_vault req v → v ∈ all_vaults s e.
Proof.
  intros Hs He Hv. unfold all_vaults. rewrite distinct_onto_in, elem_of_app. right.
  destruct Hv as [(d & Hd & Ev)|(d & Hd & Ev)]; [left|right].
  - destruct s as [s|]; [|cbn in Hs; rewrite Hs in Hd; by apply elem_of_nil in Hd]. exact (family_vaults req _ s d v Hs Hd Ev).
  - destruct e as [e|]; [|cbn in He; rewrite He in Hd; by apply elem_of_nil in Hd]. exact (family_vaults req _ e d v He Hd Ev).
Qed.

(** What a request that was authorized was authorized by. *)
Inductive authorized_by (load : string → act Keystore unit LoadError) (client : option NearClient) (req : KeyedRequest)
    (auth : AuthorizedKeys) (ks ks' : Keystore) : Prop :=
| by_build :
    kr_project_id req = None → ks' = ks →
    family_issued req None None (kr_signing req) (auth_signing auth) →
    family_issued req None None (kr_encryption req) (auth_encryption auth) →
    authorized_by load client req auth ks ks'
| by_project c id p wasm owner uuid vs :
    client = Some c → kr_project_id req = Some id → project_id_parse id = ROk p → kr_wasm req = Some wasm →
    published_project client p wasm = ROk (owner, uuid) →
    family_issued req (Some p) (Some uuid) (kr_signing req) (auth_signing auth) →
    family_issued req (Some p) (Some uuid) (kr_encryption req) (auth_encryption auth) →
    (∀ v, names_vault req v → v ∈ vs) → Forall (λ v, read_vault c owner v = ROk tt) vs →
    load_each load vs ks = (ROk tt, ks') →
    authorized_by load client req auth ks ks'.

Lemma bind_all_ok s e u a : bind_all s e u = ROk a →
  opt_bind s u = ROk (auth_signing a) ∧ opt_bind e u = ROk (auth_encryption a).
Proof. unfold bind_all. intros (x & Hx%refused_ok & (y & Hy%refused_ok & E)%rbind_ok)%rbind_ok. by injection E as <-. Qed.

Lemma valid_project_wasm {D} `{KeyDeclaration D} req (keys : list D) v : family_valid req keys (Some v) →
  opt_parse project_id_parse (kr_project_id req) = ROk (vks_project v) ∧ kr_wasm req = Some (vks_wasm v).
Proof. by intros (_ & Hw & _ & Hp & _)%validate_request_ok. Qed.

Lemma authorize_keys_ok load client req ks auth ks' :
  authorize_keys load client req ks = (ROk auth, ks') → authorized_by load client req auth ks ks'.
Proof.
  unfold authorize_keys. intros (s & k1 & [Hs%validate_family_ok ->]%lift_ok & Ha)%after_ok.
  apply after_ok in Ha as (e & k2 & [He%validate_family_ok ->]%lift_ok & Ha).
  assert (∃ first, (s = Some first ∨ e = Some first) ∧
    match vks_project first with
    | None => lift (bind_all s e None)
    | Some project =>
      let^ c := lift (ok_or client (InternalError "NEAR client not configured")) in
      let^ '(owner, uuid) := lift (published_project client project (vks_wasm first)) in
      let vs := all_vaults s e in
      let^ _ := lift (each_ok (λ v, refused 403 (vault_is_named_under owner v)) vs) in
      let^ _ := lift (each_ok (read_vault c owner) vs) in
      let^ _ := load_each load vs in
      lift (bind_all s e (Some uuid))
    end ks = (ROk auth, ks')) as (first & Hfirst & Ha').
  { destruct s as [f|]; [exists f; eauto|]. destruct e as [f|]; [exists f; eauto | done]. }
  clear Ha. rename Ha' into Ha.
  assert (opt_parse project_id_parse (kr_project_id req) = ROk (vks_project first) ∧ kr_wasm req = Some (vks_wasm first)) as [Hpid Hwasm].
  { destruct Hfirst as [->| ->]; [exact (valid_project_wasm _ _ _ Hs) | exact (valid_project_wasm _ _ _ He)]. }
  assert (∀ v, s = Some v → vks_project v = vks_project first) as Hps.
  { intros v ->. apply valid_project_wasm in Hs as [Hs _]. rewrite Hpid in Hs. by injection Hs. }
  assert (∀ v, e = Some v → vks_project v = vks_project first) as Hpe.
  { intros v ->. apply valid_project_wasm in He as [He _]. rewrite Hpid in He. by injection He. }
  apply opt_parse_ok in Hpid. destruct (vks_project first) as [p|].
  - destruct (kr_project_id req) as [id|] eqn:Eid; [|done]. destruct Hpid as (x & Hx & Ex). injection Ex as <-.
    apply after_ok in Ha as (c & k1 & [Hc%ok_or_ok ->]%lift_ok & Ha).
    apply after_ok in Ha as ([owner uuid] & k2 & [Hpub ->]%lift_ok & Ha). cbv zeta in Ha.
    apply after_ok in Ha as ([] & k3 & [_ ->]%lift_ok & Ha). apply after_ok in Ha as ([] & k4 & [Hr%each_ok_all ->]%lift_ok & Ha).
    apply after_ok in Ha as ([] & k5 & Hl & [[Hbs Hbe]%bind_all_ok ->]%lift_ok).
    eapply by_project; [done.. | | | | exact Hr | exact Hl]; [by eapply opt_bound_as_issued | by eapply opt_bound_as_issued|].
    intros v Hv. by eapply all_vaults_named.
  - apply lift_ok in Ha as [[Hbs Hbe]%bind_all_ok ->]. destruct (kr_project_id req) eqn:Eid; [by destruct Hpid as (? & ? & ?)|].
    eapply by_build; [done | done | by eapply opt_bound_as_issued | by eapply opt_bound_as_issued].
Qed.

(** A run of no project is issued nothing of a vault. *)
Lemma no_vault_without_project req s e v : family_issued req None None (kr_signing req) s →
  family_issued req None None (kr_encryption req) e → ¬ names_vault req v.
Proof.
  intros Hs He Hv.
  assert (∀ D `{KeyDeclaration D} (keys : list D) d o, family_issued req None None keys o → d ∈ keys → d_vault d = Some v → False) as Hno.
  { intros D HD keys d [b|] Hf Hd Hdv; [|cbn in Hf; rewrite Hf in Hd; by apply elem_of_nil in Hd].
    destruct Hf as (_ & _ & _ & _ & Hfit & _). rewrite Forall_forall in Hfit. destruct (Hfit d Hd) as [_ _ Hb _ _ Hv'].
    destruct (Hv' v Hdv) as [Hto _]. by apply Hb in Hto as [? ?]. }
  destruct Hv as [(d & Hd & Ev)|(d & Hd & Ev)]; [exact (Hno _ _ _ _ _ Hs Hd Ev) | exact (Hno _ _ _ _ _ He Hd Ev)].
Qed.

(** C13: Keys go to the build the chain published.  A request that gets keys gets the ones
    it declares, each for the run's own caller.  A run of no project gets only keys bound to
    the build it reports.  A run of a project gets only keys bound to the uuid the chain gave
    the project in a block in which the build was published as its version and the project
    was the account's its id names; and every vault a key is taken from is that account's,
    by its name and by its own word. *)
Theorem keys_for_published_build load client req ks auth ks' :
  authorize_keys load client req ks = (ROk auth, ks') → (∀ c, client = Some c → answers_at_blocks c) →
  ∃ project uuid,
    family_issued req project uuid (kr_signing req) (auth_signing auth) ∧
    family_issued req project uuid (kr_encryption req) (auth_encryption auth) ∧
    match kr_project_id req with
    | None => uuid = None ∧ (∀ v, ¬ names_vault req v)
    | Some id => ∃ c p wasm u, client = Some c ∧ project_id_parse id = ROk p ∧ project = Some p ∧
        kr_wasm req = Some wasm ∧ uuid = Some u ∧ published c p wasm u ∧
        ∀ v, names_vault req v → vault_of_owner c (pid_owner p) v
    end.
Proof.
  intros [Hid _ Hs He|c id p wasm owner uuid vs Hc Hid Hp Hw Hpub Hs He Hvs Hr Hl]%authorize_keys_ok Hab; rewrite Hid.
  - exists None, None. split_and!; [done..|]. intros v. by eapply no_vault_without_project.
  - exists (Some p), (Some uuid). split_and!; [done..|]. destruct (published_project_ok _ _ _ _ _ _ Hc (Hab c Hc) Hpub) as [-> Hpb].
    exists c, p, wasm, uuid. split_and!; try done. intros v Hv. rewrite Forall_forall in Hr. by apply read_vault_ok, Hr, Hvs.
Qed.
End served.
