(* ===== verification/MasterSafety.v ===== *)
(** A vault's master is served only while the chain allows it, and what the keystore seals
    it opens; the keys of an authorized request are the HMACs of their texts under the
    masters they name. *)

From S2P Require Export KeySafety KeyCache.

(** * The gate of every use of a vault's master *)

Section gate.
Context `{KeyCrates}.
Variables (request : string → string → string → result string LoadError).

(** The pairs and the master of every other vault, and of none. *)
Definition keeps_others (v : string) (ks ks' : Keystore) : Prop :=
  default_master ks' = default_master ks ∧
  (∀ w, w ≠ v → masters ks' !! w = masters ks !! w) ∧
  (∀ w seed, w ≠ v → keypair_cache ks' !! (Some w, seed) = keypair_cache ks !! (Some w, seed)).
#[export] Instance keeps_others_preorder v : PreOrder (keeps_others v).
Proof.
  split; [done|]. intros a b c (D1 & M1 & C1) (D2 & M2 & C2). split_and!; [congruence| |].
  - intros w Hw. by rewrite M2, M1.
  - intros w seed Hw. by rewrite C2, C1.
Qed.
Lemma purged_cache v seed ks : keypair_cache (evict_customer_cache v ks) !! (Some v, seed) = None.
Proof. cbn. apply map_lookup_filter_None. right. intros kp _. cbn. by intros []. Qed.
Lemma other_cache v w seed ks : w ≠ v → keypair_cache (evict_customer_cache v ks) !! (Some w, seed) = keypair_cache ks !! (Some w, seed).
Proof.
  intros Hw. cbn. destruct (keypair_cache ks !! (Some w, seed)) as [kp|] eqn:E.
  - apply map_lookup_filter_Some. split; [done|]. cbn. congruence.
  - apply map_lookup_filter_None. by left.
Qed.
Lemma evict_others v ks : keeps_others v ks (evict_customer v ks).
Proof.
  split_and!; [done| |].
  - intros w Hw. cbn. by rewrite lookup_delete_ne.
  - intros w seed Hw. exact (other_cache v w seed _ Hw).
Qed.
Lemma evict_drops v ks : masters (evict_customer v ks) !! v = None ∧ ∀ seed, keypair_cache (evict_customer v ks) !! (Some v, seed) = None.
Proof. split; [apply lookup_delete_eq|]. intros seed. apply purged_cache. Qed.
Lemma add_others v m ks : keeps_others v ks (add_customer v m ks).
Proof.
  split_and!; [done| |].
  - intros w Hw. cbn. by rewrite lookup_insert_ne.
  - intros w seed Hw. exact (other_cache v w seed _ Hw).
Qed.
Lemma derive_default_others seed v ks : keeps_others v ks (snd (derive_keypair None seed ks)) ∧
  masters (snd (derive_keypair None seed ks)) = masters ks ∧
  ∃ kp, fst (derive_keypair None seed ks) = ROk kp.
Proof.
  unfold derive_keypair. destruct (keypair_cache ks !! (None, seed)) as [kp|]; cbn; [split; [done|]; eauto|].
  split_and!; [|done|eauto]. split_and!; [done..|]. intros w s Hw. cbn. by rewrite lookup_insert_ne.
Qed.

(** What a load asks MPC for: the vault's own key signs, at the path only the default
    master spells. *)
Definition loaded_from (ks : Keystore) (v master : string) : Prop := ∃ signing verifying,
  fst (derive_vault_tee_keypair v ks) = ROk (signing, verifying) ∧
  request v signing (hex_of (mac (default_master ks) ("secret-path:" +:+ vault_master_path_seed v))) = ROk master.
Lemma load_customer_ok v ks : masters ks !! v = None → let '(r, ks') := load_customer request v ks in
  keeps_others v ks ks' ∧ (r = ROk tt → ∃ m, masters ks' !! v = Some m ∧ loaded_from ks v m) ∧
  (∀ e, r = RErr e → masters ks' !! v = None).
Proof.
  intros Hn. unfold load_customer, has_customer. rewrite Hn. cbn [bool_decide]. rewrite bool_decide_eq_false_2 by (by intros [? ?]).
  pose proof (derive_default_others (vault_tee_keypair_seed v) v ks) as (Ho & Hms & kp & Hd).
  unfold after, read_err, derive_vault_tee_keypair, lift. destruct (derive_keypair None (vault_tee_keypair_seed v) ks) as [r ks1] eqn:E.
  cbn in Hd, Ho, Hms. subst r. destruct kp as [sk vk]. cbn [map_err derive_secret_string master_for master_from_loaded rbind].
  replace (default_master ks1) with (default_master ks) by (symmetry; apply Ho).
  destruct (request v sk _) as [m|e] eqn:Er.
  - split_and!; [by transitivity ks1; [|apply add_others] | | done]. intros _. exists m. split; [apply lookup_insert_eq|].
    exists sk, vk. unfold derive_vault_tee_keypair. by rewrite E.
  - split_and!; [done.. |]. intros _ _. by rewrite Hms.
Qed.

(** The chain lets the keystore serve the vault; the chain withdraws it. *)
Definition serving_allowed (c : NearClient) (v : string) : Prop :=
  is_vault_verified c v = ROk (VBool true) ∧
  ∃ st, get_vault_state c v = ROk st ∧ value_get "unlocked" st = Some (VBool false).
Definition serving_withdrawn (c : NearClient) (v : string) : Prop :=
  is_vault_verified c v = ROk (VBool false) ∨
  is_vault_verified c v = ROk (VBool true) ∧
    ((∃ st, get_vault_state c v = ROk st ∧ value_get "unlocked" st = Some (VBool true)) ∨
     ∃ msg, get_vault_state c v = RErr msg ∧ says_gone msg = true).

(** An answer that could not be read, or is of no shape the gate knows. *)
Ltac unread := right; right; eexists; split_and!; [reflexivity | reflexivity | naive_solver | naive_solver].
Lemma assert_serving_cases c v ks : let '(r, ks') := assert_serving_allowed c v ks in
  (r = ROk tt ∧ ks' = ks ∧ serving_allowed c v) ∨
  (∃ e, r = RErr e ∧ ks' = evict_customer v ks ∧ serving_withdrawn c v) ∨
  (∃ e, r = RErr e ∧ ks' = ks ∧ ¬ serving_allowed c v ∧ ¬ serving_withdrawn c v).
Proof.
  clear request. unfold assert_serving_allowed, serving_allowed, serving_withdrawn.
  destruct (is_vault_verified c v) as [a|why]; [|unread].
  destruct a as [|[|]| | | |]; cbn [value_bool]; try unread; [|right; left; eauto].
  destruct (get_vault_state c v) as [st|msg].
  - destruct (value_get "unlocked" st) as [u|] eqn:Eu; cbn; [|unread].
    destruct u as [|[|]| | | |]; cbn; try unread; [right; left | left]; eauto 10.
  - destruct (says_gone msg) eqn:Eg; [right; left; eauto 10|].
    right; right. eexists. split_and!; [done | done | naive_solver |].
    intros [?|(_ & [(st & ? & _)|(m & Em & Eg')])]; [done | done |]. injection Em as <-. congruence.
Qed.
End gate.

Lemma ensure_exact `{KeyCrates} request mpc client v ks :
  let '(r, ks') := ensure_customer_loaded request mpc client (Some v) ks in
  keeps_others v ks ks' ∧
  (r = ROk tt → mpc = true ∧ (∃ c, client = Some c ∧ serving_allowed c v) ∧
    ∃ m, masters ks' !! v = Some m ∧ (masters ks !! v = Some m ∨ masters ks !! v = None ∧ loaded_from request ks v m)) ∧
  (∀ c, mpc = true → client = Some c → serving_withdrawn c v →
    masters ks' !! v = None ∧ ∀ seed, keypair_cache ks' !! (Some v, seed) = None) ∧
  (∀ c, mpc = true → client = Some c → ¬ serving_allowed c v → ¬ serving_withdrawn c v → (∃ e, r = RErr e) ∧ ks' = ks).
Proof.
  unfold ensure_customer_loaded. destruct mpc; cbn [negb]; [|cbn; naive_solver]. destruct client as [c|]; [|cbn; naive_solver].
  cbn [mpc_ensure_customer_loaded]. unfold after. pose proof (assert_serving_cases c v ks) as Hcase.
  destruct (assert_serving_allowed c v ks) as [r ks1].
  destruct Hcase as [(-> & -> & Ha)|[(e & -> & -> & Hw)|(e & -> & -> & Hna & Hnw)]].
  - assert (¬ serving_withdrawn c v) as Hnw.
    { destruct Ha as (Hv & st & Hs & Hu). intros [Hv'|(_ & [(st' & Hs' & Hu')|(msg & Hs' & _)])]; congruence. }
    unfold has_customer. destruct (masters ks !! v) as [m|] eqn:Em.
    + rewrite bool_decide_eq_true_2 by done. naive_solver.
    + rewrite bool_decide_eq_false_2 by (by intros [? ?]). pose proof (load_customer_ok request v ks Em) as Hl.
      destruct (load_customer request v ks) as [r ks']. destruct Hl as (Ho & Hok & _). split_and!; [done | | naive_solver..].
      intros Hr. destruct (Hok Hr) as (m & Hm & Hf). eauto 10.
  - split_and!; [apply evict_others | done | intros; apply evict_drops | naive_solver].
  - split_and!; [done | done | naive_solver | naive_solver].
Qed.
Lemma ensure_served `{KeyCrates} request mpc client v ks : let '(r, ks') := ensure_customer_loaded request mpc client (Some v) ks in
  keeps_others v ks ks' ∧ (r = ROk tt → ∃ m, masters ks' !! v = Some m).
Proof.
  pose proof (ensure_exact request mpc client v ks) as He. destruct (ensure_customer_loaded _ _ _ _ _) as [r ks'].
  destruct He as (Ho & Hr & _). split; [exact Ho|]. intros Hok. destruct (Hr Hok) as (_ & _ & m & Hm & _). by eauto.
Qed.

(** C11: A vault's master is served only while the chain allows it.  The gate every use of a
    vault passes answers yes only when the chain, asked now, says the vault is verified and
    locked, though its master be in memory; the master is then the one in memory, or the one
    MPC gave for the vault's own key at the path of its name.  A vault the chain withdrew,
    unlocked or no longer has leaves memory with every pair derived from it; an answer that
    could not be read changes nothing.  No other vault is touched. *)
Theorem vault_served_only_while_allowed `{KeyCrates} request mpc client v ks :
  let '(r, ks') := ensure_customer_loaded request mpc client (Some v) ks in
  keeps_others v ks ks' ∧
  (r = ROk tt → mpc = true ∧ (∃ c, client = Some c ∧ serving_allowed c v) ∧
    ∃ m, masters ks' !! v = Some m ∧ (masters ks !! v = Some m ∨ masters ks !! v = None ∧ loaded_from request ks v m)) ∧
  (∀ c, mpc = true → client = Some c → serving_withdrawn c v →
    masters ks' !! v = None ∧ ∀ seed, keypair_cache ks' !! (Some v, seed) = None) ∧
  (∀ c, mpc = true → client = Some c → ¬ serving_allowed c v → ¬ serving_withdrawn c v → (∃ e, r = RErr e) ∧ ks' = ks).
Proof. apply ensure_exact. Qed.

(** * What is sealed opens *)

(** Documented of the crates: both sides of an exchange agree, a public key is 32 bytes, and
    what ChaCha20-Poly1305 sealed it opens, with a tag of 16 bytes. *)
Class KeyCrateLaws `{KeyCrates} : Prop := {
  x25519_agrees a b : x25519_shared a (x25519_public b) = x25519_shared b (x25519_public a);
  x25519_public_len a : String.length (x25519_public a) = 32%nat;
  chacha_opens key nonce text ct : chacha_seal key nonce text = Some ct →
    chacha_open key nonce ct = Some text ∧ String.length ct = (String.length text + 16)%nat;
}.

(** What the keystore seals for a seed it opens, if it is not one of the last 61 sizes.
    The sealed bytes of a text of [n] bytes are [n + 61] long, and they open to the text,
    with nothing derived or cached, exactly when that is no more than the limit: a text the
    limit lets [encrypt] seal and [decrypt] never open is one longer than the limit less 61. *)
Theorem sealed_secret_opens `{KeyCrateLaws} ks ephemeral nonce customer seed text data :
  encrypt ks ephemeral nonce customer seed text = ROk data → String.length nonce = 12%nat →
  str_len text <= MAX_ENCRYPTED_SIZE ∧ str_len data = str_len text + 61 ∧
  decrypt customer seed data ks =
    (if str_len text <=? MAX_ENCRYPTED_SIZE - 61 then ROk text else RErr (TooLarge (str_len text + 61)), ks).
Proof.
  unfold encrypt. destruct (_ <? _) eqn:El; [done|]. intros (kp & Hkp & Hd)%rbind_ok Hn.
  destruct kp as [secret public]. apply rbind_ok in Hd as (ct & Hct%ok_or_ok & Hd). injection Hd as <-.
  apply chacha_opens in Hct as [Hopen Hlen].
  assert (public = x25519_public secret) as ->.
  { unfold derive_x25519_keypair in Hkp. apply rbind_ok in Hkp as (m & _ & Hm). by injection Hm as <- <-. }
  set (e := x25519_public ephemeral) in *. assert (String.length e = 32%nat) as He by apply x25519_public_len.
  set (data := String _ _). assert (str_len data = str_len text + 61) as Hdata.
  { unfold data, str_len. cbn. rewrite !str_length_append. lia. }
  split_and!; [lia | exact Hdata |]. unfold decrypt. rewrite Hdata.
  assert (0 <= str_len text) by (unfold str_len; lia).
  destruct (Z.leb_spec (str_len text) (MAX_ENCRYPTED_SIZE - 61)) as [Hle|Hgt].
  - rewrite (proj2 (Z.ltb_ge MAX_ENCRYPTED_SIZE _)), (proj2 (Z.ltb_ge _ 28)), (proj2 (Z.leb_le 61 _)) by lia.
    change (byte_of _ =? ECIES_VERSION) with true. cbn [andb].
    unfold decrypt_ecies. rewrite Hkp. cbn [rbind]. unfold data. 
    match goal with |- context [str_take 32 (str_drop 1 (String ?c ?r))] =>
      change (str_drop 1 (String c r)) with r; change (str_drop 33 (String c r)) with (str_drop 32 r);
      change (str_drop 45 (String c r)) with (str_drop 44 r) end.
    replace (str_take 32 (e +:+ nonce +:+ ct)) with e by (by rewrite <- He, str_take_length_app).
    replace (str_drop 32 (e +:+ nonce +:+ ct)) with (nonce +:+ ct) by (by rewrite <- He, str_drop_length_app).
    replace (str_drop 44 (e +:+ nonce +:+ ct)) with ct.
    2: { rewrite <- str_append_assoc. replace 44%nat with (String.length (e +:+ nonce)); [by rewrite str_drop_length_app|].
         by rewrite str_length_append, He, Hn. }
    replace (str_take 12 (nonce +:+ ct)) with nonce by (by rewrite <- Hn, str_take_length_app).
    unfold e. rewrite (x25519_agrees secret ephemeral), Hopen. done.
  - by rewrite (proj2 (Z.ltb_lt MAX_ENCRYPTED_SIZE _)) by lia.
Qed.

(** * The keys of an authorized request *)

Section derived.
Context `{Unicode} `{AccountIds} `{KeyCrates}.
Variables (request : string → string → string → result string LoadError) (mpc : bool) (later : string → option NearClient).
(** The chain is read anew at each load. *)
Definition load_vault (v : string) : act Keystore unit LoadError :=
  ensure_customer_loaded request mpc (later v) (Some v).

Lemma load_vault_ok v ks ks' : load_vault v ks = (ROk tt, ks') → is_Some (masters ks' !! v) ∧ keeps_others v ks ks'.
Proof.
  unfold load_vault. pose proof (ensure_served request mpc (later v) v ks) as Hv.
  destruct (ensure_customer_loaded request mpc (later v) (Some v) ks) as [r k]. intros [= -> ->].
  destruct Hv as (Ho & Hr). split; [|exact Ho]. destruct (Hr eq_refl) as (m & Hm). by eauto.
Qed.
Lemma load_each_ok vs ks ks' : load_each load_vault vs ks = (ROk tt, ks') →
  default_master ks' = default_master ks ∧ (∀ v, v ∈ vs → is_Some (masters ks' !! v)) ∧
  (∀ v, is_Some (masters ks !! v) → is_Some (masters ks' !! v)).
Proof.
  revert ks. induction vs as [|v vs IH]; intros ks; cbn [load_each]; [intros [= <-]; set_solver|].
  intros ([] & k1 & Hl & Hk)%after_ok. destruct (load_vault v ks) as [[[]|e] k] eqn:El; [|done]. injection Hl as ->.
  apply load_vault_ok in El as (Hv & Hd & Hm & _). destruct (IH _ Hk) as (Hd' & Hin & Hkeep).
  split_and!; [congruence| |].
  - intros w [->|Hw]%elem_of_cons; auto.
  - intros w Hw. apply Hkeep. destruct (decide (w = v)) as [->|Hne]; [done|]. by rewrite Hm.
Qed.

(** Each key, by its path. *)
Definition key_served (ks : Keystore) (out : gmap string string) (k : BoundKey) : Prop :=
  ∃ m, master_for ks (bk_vault k) = ROk m ∧ out !! bk_path k = Some (hex_of (mac m (input_text (bk_input k)))).
Lemma derive_each_ok ks fam l : NoDup (map bk_path l) →
  (∀ k, k ∈ l → input_family (bk_input k) = fam ∧ ∃ m, master_for ks (bk_vault k) = ROk m) →
  ∀ out, ∃ out', derive_each ks fam out l = ROk out' ∧ (∀ k, k ∈ l → key_served ks out' k) ∧
    ∀ p, p ∉ map bk_path l → out' !! p = out !! p.
Proof.
  induction l as [|k l IH]; intros Hnd Hk out; [exists out; split_and!; [done | set_solver | done]|].
  cbn [map] in Hnd. apply NoDup_cons in Hnd as [Hkn Hnd]. destruct (Hk k) as (Hf & m & Hm); [left|].
  destruct (IH Hnd (λ k' Hk', Hk k' (list_elem_of_further _ _ _ Hk'))
              (<[bk_path k := hex_of (mac m (input_text (bk_input k)))]> out)) as (out' & Hd & Hs & Ho).
  exists out'. split_and!.
  - cbn [derive_each]. rewrite <- Hd. unfold derive_signing_key_seed, derive_encryption_key, derive_declared_key.
    rewrite Hm, Hf. by destruct fam.
  - intros k' [->|Hk']%elem_of_cons; [|by apply Hs]. exists m. split; [done|]. by rewrite Ho, lookup_insert_eq.
  - intros p Hp. cbn [map] in Hp. apply not_elem_of_cons in Hp as [Hp1 Hp2]. by rewrite Ho, lookup_insert_ne.
Qed.

Lemma issued_derive {D} `{KeyDeclaration D} ks req pr uuid (keys : list D) b :
  family_issued req pr uuid keys (Some b) → (∀ d v, d ∈ keys → d_vault d = Some v → is_Some (masters ks !! v)) →
  ∃ out, derive_keys ks b = ROk out ∧ (∀ k, k ∈ bks_keys b → key_served ks out k) ∧ (∀ p, is_Some (out !! p) ↔ p ∈ map d_path keys).
Proof.
  intros (_ & Hf & _ & Hnd & Hfit & Hk) Hv.
  assert (map bk_path (bks_keys b) = map d_path keys) as Hpaths.
  { clear - Hk. induction Hk as [|d k ds ks' [E _] _ IH]; cbn; [done|]. by rewrite E, IH. }
  destruct (derive_each_ok ks (bks_family b) (bks_keys b)) with (out := ∅ : gmap string string) as (out & Hd & Hs & Ho).
  - by rewrite Hpaths.
  - intros k Hin. apply list_elem_of_lookup in Hin as [i Hi].
    destruct (Forall2_lookup_r _ _ _ _ _ Hk Hi) as (d & Hdi & _ & _ & _ & _ & Hvault & _ & [(l & _ & Hparts)]).
    apply list_elem_of_lookup_2 in Hdi. rewrite Forall_forall in Hfit. apply from_parts_ok in Hparts as [_ ->]. cbn. split.
    + rewrite Hf. by apply Hfit.
    + rewrite Hvault. destruct (d_vault d) as [v|] eqn:Ev; cbn; [|eauto]. destruct (Hv d v Hdi Ev) as [m ->]. eauto.
  - exists out. split_and!; [done | done |]. intros p. rewrite <- Hpaths. split.
    + destruct (decide (p ∈ map bk_path (bks_keys b))) as [|Hn]; [done|]. rewrite (Ho p Hn), lookup_empty. by intros [].
    + intros (k & -> & Hin)%list_elem_of_fmap. destruct (Hs k Hin) as (m & _ & ->). eauto.
Qed.

(** The families as issued, and every vault they name loaded. *)
Lemma authorized_vaults_loaded client req ks auth ks' : authorize_keys load_vault client req ks = (ROk auth, ks') →
  ∃ project uuid, family_issued req project uuid (kr_signing req) (auth_signing auth) ∧
    family_issued req project uuid (kr_encryption req) (auth_encryption auth) ∧
    (∀ v, names_vault req v → is_Some (masters ks' !! v)) ∧ default_master ks' = default_master ks.
Proof.
  intros [Hid -> Hs He|c id p wasm owner uuid vs Hc Hid Hp Hw Hpub Hs He Hvs Hr Hl]%authorize_keys_ok.
  - exists None, None. split_and!; [done | done | | done]. intros v Hv. destruct (no_vault_without_project _ _ _ _ Hs He Hv).
  - apply load_each_ok in Hl as (Hd & Hin & _). exists (Some p), (Some uuid). split_and!; [done | done | | done]. auto.
Qed.
End derived.
