(* ===== verification/Manifest.v ===== *)
(** What an artefact says of itself, and what the worker lets it do for that
    (worker/src/connector_manifest.rs, callers.rs, net_guard.rs and the declaration rules of
    signing_keys/mod.rs and encryption_keys/mod.rs).  The manifest is read out of the bytes
    that run; it names who may call, where the guest may connect and which keys it signs and
    seals with.

    The wasm parser and serde's derived readers are parameters ([ManifestCrates]). *)

From stdpp Require Import gmap strings.
From S2P Require Export Pricing KeyNames.

(** * Declared keys *)

(** A declared key, as the keystore is asked for it. *)
Definition ManifestKey : Type := SigningKeyRequest.
Definition EncryptionManifestKey : Type := EncryptionKeyRequest.

Record Family := mkFamily { fam_noun : string; fam_field : string; fam_most : Z }.
Definition SIGNING : Family := mkFamily "signing key" "signing_keys" 3.
Definition ENCRYPTION : Family := mkFamily "encryption key" "encryption_keys" 5.

Inductive ManifestError :=
| KeyPathShape (i : Z) (path : string) | TooManyDeclared (n : Z) | DeclaredTwice (path : string)
| BuildKeyVault (path : string) | DeclaredVault (path vault : string) | NoCallerType (path : string)
| OnlyNobody | OnlyTooMany (n : Z) | OnlyNotAccount (id : string) | OnlyTwice (id : string) | OnlyAndAllow (door : string)
| EntryHost | EntryMember (name : string) | EntryTime (host : string) | EntryShape
| HostTwice (host : string) | TasksNeedHttps | TasksNeedDirect
| NotManifest (why : string) | SectionTooLarge (n : Z) | SectionUnread (e : ManifestError).

(** [\[a-z0-9\]\[a-z0-9_-\]{0,31}]. *)
Definition validate_key_path (path : string) : bool :=
  negb (str_is_empty path) && (str_len path <=? 32) &&
  match path with String first _ => lower_alnum (byte_of first) | "" => false end && forall_bytes path_byte path.

Section declarations.
Context `{AccountIds}.

Fixpoint check_each {D} `{KeyDeclaration D} (i : Z) (seen : list string) (keys : list D) : result unit ManifestError :=
  match keys with
  | [] => ROk tt
  | key :: keys =>
    let path := d_path key in
    if negb (validate_key_path path) then RErr (KeyPathShape i path) else
    if bool_decide (path ∈ seen) then RErr (DeclaredTwice path) else
    let? _ :=
      match d_bind key, d_vault key with
      | _, None => ROk tt
      | ToWasm, Some _ => RErr (BuildKeyVault path)
      | ToProject, Some v => if account_ok v then ROk tt else RErr (DeclaredVault path v)
      end in
    check_each (i + 1) (seen ++ [path]) keys
  end.
Definition check_family_declarations {D} `{KeyDeclaration D} (family : Family) (keys : list D) : result unit ManifestError :=
  let n := Z.of_nat (length keys) in
  if fam_most family <? n then RErr (TooManyDeclared n) else check_each 0 [] keys.
Definition check_declarations (keys : list ManifestKey) : result unit ManifestError :=
  let? _ := check_family_declarations SIGNING keys in
  match find (λ k, bool_decide (sk_caller k = NoCaller) && negb (bool_decide (sk_type k = Ed25519))) keys with
  | Some key => RErr (NoCallerType (sk_path key))
  | None => ROk tt
  end.

(** * Callers *)

Definition MAX_CONTRACT_ALLOWLIST : Z := 32.
Inductive DoorRule := Allow | Deny.
Inductive ContractDoor := CAllow | CDeny | Only (accounts : list string).
Record DeclaredCallers := mkDeclared {
  dc_direct : option DoorRule; dc_contract : option ContractDoor; dc_https : option DoorRule; dc_meta_tx : option DoorRule;
}.
Record Callers := mkCallers { direct : DoorRule; contract : ContractDoor; https : DoorRule; meta_tx : DoorRule }.

Definition allows (d : DoorRule) : bool := match d with Allow => true | Deny => false end.
Fixpoint allowlist_each (seen list : list string) : result unit ManifestError :=
  match list with
  | [] => ROk tt
  | id :: list =>
    if negb (account_ok id) then RErr (OnlyNotAccount id)
    else if bool_decide (id ∈ seen) then RErr (OnlyTwice id) else allowlist_each (seen ++ [id]) list
  end.
Definition check_allowlist (list : list string) : result unit ManifestError :=
  let n := Z.of_nat (length list) in
  if n =? 0 then RErr OnlyNobody else
  if MAX_CONTRACT_ALLOWLIST <? n then RErr (OnlyTooMany n) else allowlist_each [] list.
Definition from_declared (d : DeclaredCallers) : result Callers ManifestError :=
  let callers := mkCallers (default Allow (dc_direct d)) (default CAllow (dc_contract d)) (default Allow (dc_https d))
                   (default Deny (dc_meta_tx d)) in
  match contract callers with
  | Only list =>
    let? _ := check_allowlist list in
    let said o := match o with Some Allow => true | _ => false end in
    if said (dc_direct d) then RErr (OnlyAndAllow "direct") else
    if said (dc_https d) then RErr (OnlyAndAllow "https") else
    if said (dc_meta_tx d) then RErr (OnlyAndAllow "meta_tx") else ROk callers
  | _ => ROk callers
  end.
Definition is_only (c : ContractDoor) : bool := match c with Only _ => true | _ => false end.
Definition admits_direct (c : Callers) : bool := negb (is_only (contract c)) && allows (direct c).
Definition admits_https (c : Callers) : bool := negb (is_only (contract c)) && allows (https c).
End declarations.

Inductive CallerDoor := Direct | ContractCall | MetaTransaction | Https.
Record RunCaller := mkRunCaller {
  is_https_call : bool; user_account_id : option string; predecessor_id : option string; relayer_id : option string;
}.
Inductive DoorRefusal := NoCallingAccount | OnlyNoHttps | NotListed (predecessor : string) | Shut (d : CallerDoor).

Definition door (run : RunCaller) : result CallerDoor DoorRefusal :=
  if is_https_call run then ROk Https else
  match predecessor_id run with
  | None => RErr NoCallingAccount
  | Some predecessor =>
    if bool_decide (is_Some (relayer_id run)) then ROk MetaTransaction
    else if bool_decide (user_account_id run = Some predecessor) then ROk Direct else ROk ContractCall
  end.
Definition unnamed : string := "an unnamed account".
Definition admit_run (callers : option Callers) (run : RunCaller) : result unit DoorRefusal :=
  match callers with
  | None => ROk tt
  | Some callers =>
    let? d := door run in
    let predecessor := default unnamed (predecessor_id run) in
    match contract callers with
    | Only list =>
      match d with
      | Https => RErr OnlyNoHttps
      | _ => if bool_decide (predecessor ∈ list) then ROk tt else RErr (NotListed predecessor)
      end
    | c =>
      match d with
      | Https => if allows (https callers) then ROk tt else RErr (Shut Https)
      | Direct => if allows (direct callers) then ROk tt else RErr (Shut Direct)
      | MetaTransaction => if allows (meta_tx callers) then ROk tt else RErr (Shut MetaTransaction)
      | ContractCall => match c with CDeny => RErr (Shut ContractCall) | _ => ROk tt end
      end
    end
  end.

(** * Network *)

Definition DEFAULT_HTTP_TIMEOUT_SECS : Z := 30.
Definition MAX_HTTP_TIMEOUT_SECS : Z := 180.
Definition MAX_MANIFEST_BYTES : Z := 64 * 1024.

Inductive NetworkEntry := Host (host : string) | Timed (host : string) (timeout_secs : Z).
Definition entry_host (e : NetworkEntry) : string := match e with Host h | Timed h _ => h end.
Definition entry_timeout (e : NetworkEntry) : option Z := match e with Host _ => None | Timed _ t => Some t end.

Definition host_of (v : Value) : result string ManifestError :=
  match v with
  | VString h => if str_is_empty (str_trim h) then RErr EntryHost else ROk h
  | _ => RErr EntryHost
  end.
Definition entry_from_value (v : Value) : result NetworkEntry ManifestError :=
  match v with
  | VString _ => let? h := host_of v in ROk (Host h)
  | VObject members =>
    match find (λ k, negb (bool_decide (k ∈ ["host"; "timeout_secs"]))) (map fst members) with
    | Some unknown => RErr (EntryMember unknown)
    | None =>
      let? h := host_of (default VNull (value_get "host" v)) in
      match value_get "timeout_secs" v ≫= value_u64 with
      | Some secs => if (1 <=? secs) && (secs <=? MAX_HTTP_TIMEOUT_SECS) then ROk (Timed h secs) else RErr (EntryTime h)
      | None => RErr (EntryTime h)
      end
    end
  | _ => RErr EntryShape
  end.

Definition to_ascii_lowercase (s : string) : string := map_bytes lower_byte s.
(** [trim_end_matches('.')]. *)
Fixpoint trim_dots (s : string) : string :=
  match s with
  | "" => ""
  | String c s => match trim_dots s with
                  | "" => if byte_of c =? ch_dot then "" else String c ""
                  | r => String c r
                  end
  end.
Definition normalize_host (host : string) : string := to_ascii_lowercase (trim_dots (str_trim host)).

(** ** The manifest *)

Inductive StorageAccount := CellSigner | CellPredecessor.
Record AuthorSecrets := mkAuthor { as_owner : option string; as_profile : option string }.
Record ManifestLimit := mkLimit { lim_operation : string; lim_window : string; lim_max_count : Z; lim_applies : string }.
(** The members the worker acts on. *)
Record ProjectManifest := mkManifest {
  connector_id : option string;
  capabilities : option (option (list NetworkEntry));   (* [capabilities.network] *)
  network : option (list NetworkEntry);
  limits : option (list ManifestLimit);
  author_secrets : option AuthorSecrets;
  signing_keys : option (list ManifestKey);
  encryption_keys : option (list EncryptionManifestKey);
  storage_account : StorageAccount;
  tasks : bool;
  secrets_refs : bool;
  callers : option Callers;
}.
(** The same, before the readers this code wrote for its members have seen them. *)
Record RawManifest := mkRaw {
  raw_connector_id : option string;
  raw_capabilities : option (option (list Value));
  raw_network : option (list Value);
  raw_limits : option (list ManifestLimit);
  raw_author_secrets : option AuthorSecrets;
  raw_signing_keys : option (list ManifestKey);
  raw_encryption_keys : option (list EncryptionManifestKey);
  raw_storage_account : StorageAccount;
  raw_tasks : bool;
  raw_secrets_refs : bool;
  raw_callers : option DeclaredCallers;
}.

Definition allowlist (m : ProjectManifest) : option (list NetworkEntry) :=
  match capabilities m ≫= id with Some l => Some l | None => network m end.
Definition declares_connector (m : ProjectManifest) : bool :=
  match connector_id m with Some id => negb (str_is_empty (str_trim id)) | None => false end.

Definition opt_map {A B E} (f : A → result B E) (o : option A) : result (option B) E :=
  match o with None => ROk None | Some a => let? b := f a in ROk (Some b) end.
(** A host, and the time it was last listed with. *)
Fixpoint one_time_per_host (seen : gmap string (option Z)) (entries : list NetworkEntry) : result unit ManifestError :=
  match entries with
  | [] => ROk tt
  | e :: entries =>
    let host := normalize_host (entry_host e) in
    match seen !! host with
    | Some earlier =>
      if negb (bool_decide (earlier = entry_timeout e)) then RErr (HostTwice (entry_host e))
      else one_time_per_host (<[host := entry_timeout e]> seen) entries
    | None => one_time_per_host (<[host := entry_timeout e]> seen) entries
    end
  end.

(** serde_json with the derived readers, and wasmparser: the sections of the bytes up to the
    first that cannot be read, and whether they are a component. *)
Class ManifestCrates := {
  manifest_json : string → result RawManifest string;
  custom_sections : string → list (string * string);
  is_component : string → bool;
}.
Definition MANIFEST_SECTION : string := "outlayer.manifest".

Section read.
Context `{AccountIds} `{ManifestCrates}.

Definition manifest_of_raw (r : RawManifest) : result ProjectManifest ManifestError :=
  let? caps := opt_map (opt_map (mapR entry_from_value)) (raw_capabilities r) in
  let? net := opt_map (mapR entry_from_value) (raw_network r) in
  let? _ := opt_map check_declarations (raw_signing_keys r) in
  let? _ := opt_map (check_family_declarations ENCRYPTION) (raw_encryption_keys r) in
  let? who := opt_map from_declared (raw_callers r) in
  ROk (mkManifest (raw_connector_id r) caps net (raw_limits r) (raw_author_secrets r) (raw_signing_keys r)
         (raw_encryption_keys r) (raw_storage_account r) (raw_tasks r) (raw_secrets_refs r) who).
Definition manifest_read (bytes : string) : result ProjectManifest ManifestError :=
  let? raw := map_err NotManifest (manifest_json bytes) in
  let? manifest := manifest_of_raw raw in
  let? _ := match allowlist manifest with Some entries => one_time_per_host ∅ entries | None => ROk tt end in
  let? _ := match callers manifest with
            | Some c => if tasks manifest
                        then if negb (admits_https c) then RErr TasksNeedHttps
                             else if negb (admits_direct c) then RErr TasksNeedDirect else ROk tt
                        else ROk tt
            | None => ROk tt
            end in
  ROk manifest.
Definition manifest_from_wasm (wasm : string) : result (option ProjectManifest) ManifestError :=
  match find (λ s : string * string, String.eqb (fst s) MANIFEST_SECTION) (custom_sections wasm) with
  | None => ROk None
  | Some (_, data) =>
    if MAX_MANIFEST_BYTES <? str_len data then RErr (SectionTooLarge (str_len data))
    else let? m := map_err SectionUnread (manifest_read data) in ROk (Some m)
  end.
End read.

(** ** The policy *)

Record AllowedHost := mkAllowed { ah_host : string; ah_timeout : option Z }.
Inductive NetworkPolicy := Unrestricted | Allowlist (hosts : list AllowedHost).
Definition allowed_host (e : NetworkEntry) : AllowedHost := mkAllowed (entry_host e) (entry_timeout e).
Definition policy_entry (p : NetworkPolicy) (host : string) : option AllowedHost :=
  match p with
  | Unrestricted => None
  | Allowlist hosts => find (λ h, String.eqb (normalize_host (ah_host h)) (normalize_host host)) hosts
  end.
Definition policy_allows (p : NetworkPolicy) (host : string) : bool :=
  match p with Unrestricted => true | Allowlist _ => bool_decide (is_Some (policy_entry p host)) end.
Definition timeout_for (p : NetworkPolicy) (host : string) : option Z := policy_entry p host ≫= ah_timeout.
Definition resolve_network_policy (in_connector_namespace : bool) (manifest : option ProjectManifest) : NetworkPolicy :=
  let is_connector := in_connector_namespace || match manifest with Some m => declares_connector m | None => false end in
  match manifest ≫= allowlist with
  | Some hosts => Allowlist (map allowed_host hosts)
  | None => if is_connector then Allowlist [] else Unrestricted
  end.

Inductive EgressRefusal := NoHost | HostNotListed (host : string).
Record EgressRecord := mkEgress {
  eg_host : string; eg_bytes : option Z; eg_allowed : bool; eg_reason : option EgressRefusal; eg_timeout_secs : Z;
}.
(** The log of the run, or none when its lock is poisoned. *)
Definition decide_egress (policy : NetworkPolicy) (host : option string) (bytes : option Z) (timeout_secs : Z)
    (log : option (list EgressRecord)) : option EgressRefusal * option (list EgressRecord) :=
  let reason := match host with
                | None | Some "" => Some NoHost
                | Some h => if policy_allows policy h then None else Some (HostNotListed h)
                end in
  (reason, (λ l, l ++ [mkEgress (default "" host) bytes (bool_decide (reason = None)) reason timeout_secs]) <$> log).

(** * Connectors *)

Definition is_connector_project (project_id namespace : string) : bool :=
  match split_once ch_slash project_id with
  | Some (owner, name) => String.eqb owner namespace && negb (str_is_empty name)
  | None => false
  end.
Definition sub_key_connector_id (in_connector_namespace : bool) (project_id : option string)
    (manifest : option ProjectManifest) : option string :=
  if negb in_connector_namespace then None else
  id ← project_id; '(_, name) ← split_once ch_slash id;
  m ← manifest; declared ← connector_id m;
  let declared := str_trim declared in
  if negb (str_is_empty declared) && String.eqb declared name then Some declared else None.

Record AuthorSecretsRef := mkAuthorRef { asr_owner : string; asr_profile : string }.
Inductive AuthorError := NoProfile | NoOwner (project_id : string).
Definition author_secrets_ref (project_id : string) (manifest : option ProjectManifest)
    : result (option AuthorSecretsRef) AuthorError :=
  match manifest ≫= author_secrets with
  | None => ROk None
  | Some declared =>
    let profile := default "" (str_trim <$> as_profile declared) in
    if str_is_empty profile then RErr NoProfile else
    let? owner :=
      match str_trim <$> as_owner declared with
      | Some (String _ _ as o) => ROk o
      | _ => match split_once ch_slash project_id with
             | Some (String _ _ as owner, _) => ROk owner
             | _ => RErr (NoOwner project_id)
             end
      end in
    ROk (Some (mkAuthorRef owner profile))
  end.
(** The names both define are the refusal. *)
Definition merge_secret_maps (author agent : gmap string string) : result (gmap string string) (gset string) :=
  let clashes := dom agent ∩ dom author in
  if negb (bool_decide (clashes = ∅)) then RErr clashes else ROk (agent ∪ author).

Inductive OperationRefusal := OpNotJson | OpMissing.
Section operation.
Context `{Platform}.
Definition worker_operation (input_data : string) : result string OperationRefusal :=
  let? parsed := ok_or (json_from_str input_data) OpNotJson in
  match json_get_str parsed OPERATION_FIELD with
  | None => RErr OpMissing
  | Some v => let t := str_trim v in if str_is_empty t then RErr OpMissing else ROk t
  end.
Definition may_run (is_connector : bool) (input_data : string) : result unit OperationRefusal :=
  if negb is_connector then ROk tt else let? _ := worker_operation input_data in ROk tt.
End operation.

(** * Addresses (net_guard.rs) *)

Inductive IpAddr := V4 (a b c d : Z) | V6 (segments : list Z).
Definition in4 (lo : Z) (b : Z) (hi : Z) : bool := (lo <=? b) && (b <=? hi).
Definition blocked_v4 (a b c d : Z) : bool :=
  (a =? 127)                                                                   (* is_loopback *)
  || ((a =? 10) || ((a =? 172) && in4 16 b 31) || ((a =? 192) && (b =? 168)))  (* is_private *)
  || ((a =? 169) && (b =? 254))                                                (* is_link_local *)
  || ((a =? 0) && (b =? 0) && (c =? 0) && (d =? 0))                            (* is_unspecified *)
  || ((a =? 255) && (b =? 255) && (c =? 255) && (d =? 255))                    (* is_broadcast *)
  || (((a =? 192) && (b =? 0) && (c =? 2)) || ((a =? 198) && (b =? 51) && (c =? 100))
      || ((a =? 203) && (b =? 0) && (c =? 113)))                               (* is_documentation *)
  || (a =? 0)
  || ((a =? 100) && (Z.land b 192 =? 64))
  || ((a =? 198) && (Z.land b 254 =? 18))
  || ((a =? 192) && (b =? 0) && (c =? 0))
  || ((a =? 192) && (b =? 88) && (c =? 99))
  || (Z.land a 240 =? 224)
  || (240 <=? a).
(** [to_ipv4]: of [::a.b.c.d] and [::ffff:a.b.c.d]. *)
Definition to_ipv4 (s : list Z) : option (Z * Z * Z * Z) :=
  match s with
  | [0; 0; 0; 0; 0; f; ab; cd] =>
    if (f =? 0) || (f =? 65535)
    then Some (Z.shiftr ab 8, Z.land ab 255, Z.shiftr cd 8, Z.land cd 255) else None
  | _ => None
  end.
Definition blocked_v6 (s : list Z) : bool :=
  let s0 := nth 0 s 0 in
  let s1 := nth 1 s 0 in
  bool_decide (s = [0; 0; 0; 0; 0; 0; 0; 1]) || bool_decide (s = [0; 0; 0; 0; 0; 0; 0; 0])
  || (Z.land s0 65024 =? 64512) || (Z.land s0 65472 =? 65152) || (Z.land s0 65280 =? 65280)
  || ((s0 =? 100) && (s1 =? 65435)) || ((s0 =? 8193) && (s1 =? 3512)).
Definition is_blocked_ip (ip : IpAddr) : bool :=
  match ip with
  | V4 a b c d => blocked_v4 a b c d
  | V6 s => match to_ipv4 s with Some (a, b, c, d) => blocked_v4 a b c d | None => blocked_v6 s end
  end.
(** A socket's address, and its port. *)
Definition checked_addresses (addrs : list (IpAddr * Z)) : option (list (IpAddr * Z)) :=
  match addrs with
  | [] => None
  | _ => if existsb (λ a, is_blocked_ip a.1) addrs then None else Some addrs
  end.
