(* ===== verification/ManifestSafety.v ===== *)
(** What the manifest's rules come to: who is admitted, where a guest connects, that the
    worker runs the operation the contract priced, and which addresses are never reached. *)

From S2P Require Export Manifest KeySafety.

(** * Who is admitted *)

(** The run came through this door, as the job's facts tell it. *)
Definition came_through (run : RunCaller) (d : CallerDoor) : Prop :=
  match d with
  | Https => is_https_call run = true
  | MetaTransaction => is_https_call run = false ∧ is_Some (predecessor_id run) ∧ is_Some (relayer_id run)
  | Direct => is_https_call run = false ∧ relayer_id run = None ∧
      ∃ p, predecessor_id run = Some p ∧ user_account_id run = Some p
  | ContractCall => is_https_call run = false ∧ relayer_id run = None ∧
      ∃ p, predecessor_id run = Some p ∧ user_account_id run ≠ Some p
  end.
Lemma door_exact run d : door run = ROk d ↔ came_through run d.
Proof.
  unfold door, came_through. destruct (is_https_call run); [destruct d; naive_solver|].
  destruct (predecessor_id run) as [p|]; [|destruct d; naive_solver].
  destruct (relayer_id run) as [r|].
  - rewrite bool_decide_eq_true_2 by eauto. destruct d; naive_solver.
  - rewrite bool_decide_eq_false_2 by (by intros [? ?]). case_bool_decide as Hu; destruct d; naive_solver.
Qed.
Definition door_open (c : Callers) (d : CallerDoor) : Prop :=
  match d with
  | Https => https c = Allow | Direct => direct c = Allow | MetaTransaction => meta_tx c = Allow
  | ContractCall => contract c ≠ CDeny
  end.
Lemma door_rule {E} d (e : E) : (if allows d then ROk tt else RErr e) = ROk tt ↔ d = Allow.
Proof. by destruct d. Qed.

Lemma admit_exact c run : admit_run (Some c) run = ROk tt ↔
  match contract c with
  | Only accounts => is_https_call run = false ∧ ∃ p, predecessor_id run = Some p ∧ p ∈ accounts
  | _ => ∃ d, came_through run d ∧ door_open c d
  end.
Proof.
  cbn [admit_run]. rewrite rbind_ok. destruct (contract c) as [| |l] eqn:Ec.
  - split; intros (d & Hd%door_exact & Ho); exists d; (split; [exact Hd|]); destruct d; cbn in *; rewrite ?Ec in *;
      try done; by apply door_rule in Ho || apply door_rule.
  - split; intros (d & Hd%door_exact & Ho); exists d; (split; [exact Hd|]); destruct d; cbn in *; rewrite ?Ec in *;
      try done; by apply door_rule in Ho || apply door_rule.
  - split.
    + intros (d & Hd%door_exact & Ho). destruct d; cbn in Hd; try done.
      * destruct Hd as (Hh & _ & p & Hp & _). rewrite Hp in Ho. cbn in Ho. case_bool_decide; naive_solver.
      * destruct Hd as (Hh & _ & p & Hp & _). rewrite Hp in Ho. cbn in Ho. case_bool_decide; naive_solver.
      * destruct Hd as (Hh & [p Hp] & _). rewrite Hp in Ho. cbn in Ho. case_bool_decide; naive_solver.
    + intros (Hh & p & Hp & Hin). unfold door. rewrite Hh, Hp. cbn [default].
      case_bool_decide; [|case_bool_decide]; eexists; (split; [reflexivity|]); cbn; by rewrite bool_decide_eq_true_2.
Qed.

(** * What a manifest that was read says *)

Lemma opt_map_ok {A B E} (f : A → result B E) o r : opt_map f o = ROk r ↔
  match o with None => r = None | Some a => ∃ b, f a = ROk b ∧ r = Some b end.
Proof. destruct o; cbn; [rewrite rbind_ok|]; naive_solver. Qed.

Section said.
Context `{AccountIds} `{ManifestCrates}.

Lemma allowlist_each_ok l : ∀ seen, NoDup seen → allowlist_each seen l = ROk tt →
  Forall (λ id, account_ok id = true) l ∧ NoDup (seen ++ l).
Proof.
  induction l as [|id l IH]; intros seen Hs; cbn; [by rewrite app_nil_r|].
  destruct (account_ok id) eqn:Ea; [|done]. cbn [negb]. case_bool_decide as Hin; [done|]. intros Hl.
  destruct (IH (seen ++ [id])) as [Hf Hn]; [|exact Hl|].
  - apply NoDup_app. split_and!; [done | set_solver | apply NoDup_singleton].
  - split; [by constructor|]. by rewrite <- app_assoc in Hn.
Qed.
Lemma from_declared_only d c l : from_declared d = ROk c → contract c = Only l →
  0 < Z.of_nat (length l) ≤ MAX_CONTRACT_ALLOWLIST ∧ Forall (λ id, account_ok id = true) l ∧ NoDup l.
Proof.
  unfold from_declared. cbn [contract]. destruct (default CAllow (dc_contract d)) as [| |l'] eqn:Ec;
    [intros [= <-] E; cbn in E; congruence .. |].
  intros ([] & Hc & Hr)%rbind_ok Hl. cbv zeta in Hr.
  destruct (match dc_direct d with Some Allow => true | _ => false end); [done|].
  destruct (match dc_https d with Some Allow => true | _ => false end); [done|].
  destruct (match dc_meta_tx d with Some Allow => true | _ => false end); [done|].
  injection Hr as <-. injection Hl as <-.
  unfold check_allowlist in Hc. destruct (_ =? 0) eqn:E0; [done|]. destruct (_ <? _) eqn:El; [done|].
  apply allowlist_each_ok in Hc as [Hf Hn]; [|constructor]. split_and!; [lia | lia | done | done].
Qed.

Record manifest_said (bytes : string) (m : ProjectManifest) : Prop := {
  ms_entries l : allowlist m = Some l → Forall (λ e, ∃ v, entry_from_value v = ROk e) l;
  ms_times l : allowlist m = Some l → one_time_per_host ∅ l = ROk tt;
  ms_callers c : callers m = Some c → ∃ d, from_declared d = ROk c;
  ms_tasks c : callers m = Some c → tasks m = true → admits_https c = true ∧ admits_direct c = true;
  ms_signing l : signing_keys m = Some l → check_declarations l = ROk tt;
  ms_encryption l : encryption_keys m = Some l → check_family_declarations ENCRYPTION l = ROk tt;
}.
Lemma mapR_each {A B E} (f : A → result B E) l l' : mapR f l = ROk l' → Forall (λ b, ∃ a, f a = ROk b) l'.
Proof. intros Hm%mapR_ok. induction Hm; constructor; eauto. Qed.
Lemma opt_checked {A E} (f : A → result unit E) o r x : opt_map f o = ROk r → o = Some x → f x = ROk tt.
Proof. intros Ho%opt_map_ok ->. by destruct Ho as ([] & ? & _). Qed.
Lemma manifest_read_said bytes m : manifest_read bytes = ROk m → manifest_said bytes m.
Proof.
  unfold manifest_read. intros (raw & _ & Hr)%rbind_ok. apply rbind_ok in Hr as (m' & Hm & Hr).
  apply rbind_ok in Hr as ([] & Ht & Hr). apply rbind_ok in Hr as ([] & Hk & Hr). injection Hr as ->.
  unfold manifest_of_raw in Hm. apply rbind_ok in Hm as (caps & Hcaps & Hm). apply rbind_ok in Hm as (net & Hnet & Hm).
  apply rbind_ok in Hm as (sk & Hsk & Hm). apply rbind_ok in Hm as (ek & Hek & Hm). apply rbind_ok in Hm as (who & Hwho & Hm).
  injection Hm as <-. split; cbn in *.
  - intros l. unfold allowlist. cbn. destruct (caps ≫= id) as [l'|] eqn:Ec.
    + intros [= ->]. apply opt_map_ok in Hcaps. destruct (raw_capabilities raw) as [rc|]; [|by rewrite Hcaps in Ec].
      destruct Hcaps as (x & Hx & ->). cbn in Ec. subst x. apply opt_map_ok in Hx. destruct rc; [|done].
      destruct Hx as (y & Hy & E). injection E as <-. by eapply mapR_each.
    + intros ->. apply opt_map_ok in Hnet. destruct (raw_network raw); [|done]. destruct Hnet as (y & Hy & E). injection E as <-.
      by eapply mapR_each.
  - intros l Hl. by rewrite Hl in Ht.
  - intros c ->. apply opt_map_ok in Hwho. destruct (raw_callers raw); [|done]. destruct Hwho as (y & Hy & E). injection E as <-. eauto.
  - intros c -> E. rewrite E in Hk. destruct (admits_https c), (admits_direct c); done.
  - intros l. by eapply opt_checked.
  - intros l. by eapply opt_checked.
Qed.

(** A run is admitted by the door it came through.  Under a manifest that was read, a run
    is admitted exactly when the account that called OutLayer is on the list the manifest
    names, or, if it names none, when the rule of the one door the job's facts tell is open;
    a list names from one to 32 different accounts; and an artefact that uses tasks admits
    every HTTPS call and every direct one, whatever else it shuts. *)
Theorem callers_admitted_exactly bytes m c run : manifest_read bytes = ROk m → callers m = Some c →
  (admit_run (Some c) run = ROk tt ↔
    match contract c with
    | Only accounts => is_https_call run = false ∧ ∃ p, predecessor_id run = Some p ∧ p ∈ accounts
    | _ => ∃ d, came_through run d ∧ door_open c d
    end) ∧
  (∀ l, contract c = Only l → 0 < Z.of_nat (length l) ≤ MAX_CONTRACT_ALLOWLIST ∧ Forall (λ id, account_ok id = true) l ∧ NoDup l) ∧
  (tasks m = true → came_through run Https ∨ came_through run Direct → admit_run (callers m) run = ROk tt).
Proof.
  intros Hm%manifest_read_said Hc. split_and!; [apply admit_exact| |].
  - intros l Hl. destruct (ms_callers _ _ Hm c Hc) as [d Hd]. by eapply from_declared_only.
  - intros Ht Hrun. destruct (ms_tasks _ _ Hm c Hc Ht) as [Hh Hd]. unfold admits_https, admits_direct in *.
    rewrite Hc. apply admit_exact. apply andb_true_iff in Hh as [Ho Hh], Hd as [_ Hd].
    destruct (contract c) eqn:Ec; try done; destruct Hrun as [Hr|Hr];
      [exists Https | exists Direct | exists Https | exists Direct]; (split; [exact Hr|]); cbn;
      by destruct (https c), (direct c).
Qed.

(** * Where a guest connects *)

Lemma entry_from_value_ok v e : entry_from_value v = ROk e →
  str_is_empty (str_trim (entry_host e)) = false ∧ ∀ t, entry_timeout e = Some t → 1 ≤ t ≤ MAX_HTTP_TIMEOUT_SECS.
Proof.
  assert (∀ w h, host_of w = ROk h → str_is_empty (str_trim h) = false) as Hh.
  { intros w h. destruct w; try done. cbn. destruct (str_is_empty (str_trim s)) eqn:E; [done|]. by intros [= <-]. }
  destruct v as [| | |s| |ms]; try done; cbn [entry_from_value].
  - intros (h & Hs & He)%rbind_ok. injection He as <-. split; [by eapply Hh | done].
  - destruct (find _ _); [done|]. intros (h & Hs & He)%rbind_ok.
    destruct (value_get "timeout_secs" (VObject ms) ≫= value_u64) as [secs|]; [|done].
    destruct (_ && _) eqn:Er; [|done]. injection He as <-. split; [by eapply Hh|]. intros t [= <-]. lia.
Qed.
Lemma one_time_ok entries : ∀ seen, one_time_per_host seen entries = ROk tt →
  (∀ e t, e ∈ entries → seen !! normalize_host (entry_host e) = Some t → entry_timeout e = t) ∧
  (∀ e e', e ∈ entries → e' ∈ entries → normalize_host (entry_host e) = normalize_host (entry_host e') →
    entry_timeout e = entry_timeout e').
Proof.
  induction entries as [|e0 entries IH]; intros seen Ho; [split; intros; set_solver|]. cbn [one_time_per_host] in Ho. cbv zeta in Ho.
  set (h := normalize_host (entry_host e0)) in *.
  assert ((∀ t, seen !! h = Some t → entry_timeout e0 = t) ∧
          one_time_per_host (<[h := entry_timeout e0]> seen) entries = ROk tt) as [Hfst Hr].
  { destruct (seen !! h) as [earlier|]; [|done]. case_bool_decide as Ee; [|done]. split; [|exact Ho]. congruence. }
  destruct (IH _ Hr) as [Hseen Hpair].
  assert (∀ e, e ∈ entries → normalize_host (entry_host e) = h → entry_timeout e = entry_timeout e0) as Hsame.
  { intros e He En. apply Hseen; [done|]. rewrite En. apply lookup_insert_eq. }
  split.
  - intros e t [->|He]%elem_of_cons Ht; [by apply Hfst|]. destruct (decide (normalize_host (entry_host e) = h)) as [En|Hne].
    + rewrite (Hsame e He En). apply Hfst. by rewrite <- En.
    + apply Hseen; [done|]. by rewrite lookup_insert_ne.
  - intros e e' [->|He]%elem_of_cons [->|He']%elem_of_cons En; [done | | |by apply Hpair].
    + symmetry. apply Hsame; [done | by symmetry].
    + by apply Hsame.
Qed.
End said.

Section network.
Context `{AccountIds} `{ManifestCrates}.

Lemma policy_entry_listed l host h : policy_entry (Allowlist (map allowed_host l)) host = Some h →
  ∃ e, e ∈ l ∧ h = allowed_host e ∧ normalize_host (entry_host e) = normalize_host host.
Proof.
  cbn. intros Hf%List.find_some. destruct Hf as [Hin E%String.eqb_eq]. apply in_map_iff in Hin as (e & <- & He).
  exists e. split_and!; [by apply list_elem_of_In | done | done].
Qed.
Lemma policy_entry_found l host e : e ∈ l → normalize_host (entry_host e) = normalize_host host →
  is_Some (policy_entry (Allowlist (map allowed_host l)) host).
Proof.
  intros He En. cbn. destruct (find _ _) eqn:Ef; [eauto|].
  eapply List.find_none in Ef; [|by apply in_map, list_elem_of_In]. cbn in Ef. by apply String.eqb_neq in Ef.
Qed.
Lemma policy_allowlist ns m l : m ≫= allowlist = Some l → resolve_network_policy ns m = Allowlist (map allowed_host l).
Proof. unfold resolve_network_policy. by intros ->. Qed.

End network.

(** * The operation that was priced *)

(** The worker runs the operation the contract priced.  Of one body the contract prices
    an operation exactly when the body is within its size limit and the worker reads an
    operation out of it, and it is the same one; a connector's body that names none is run
    by nobody. *)
Theorem operation_run_is_priced `{Platform} body op :
  (operation_from_input (Some body) = inl op ↔ str_len body ≤ MAX_PRICED_INPUT_BYTES ∧ worker_operation body = ROk op) ∧
  (may_run true body = ROk tt ↔ ∃ op, worker_operation body = ROk op) ∧
  may_run false body = ROk tt.
Proof.
  split_and!; [| |done].
  - unfold operation_from_input, worker_operation. change (default "" (Some body)) with body. cbv zeta.
    destruct (Z.ltb_spec MAX_PRICED_INPUT_BYTES (str_len body)); [split; [done | intros [? _]; lia]|].
    destruct (json_from_str body) as [v|]; cbn; [|naive_solver].
    destruct (json_get_str v OPERATION_FIELD) as [s|]; [|naive_solver]. destruct (str_is_empty _); naive_solver.
  - unfold may_run. cbn [negb]. rewrite rbind_ok. naive_solver.
Qed.

(** * Addresses *)

(** A block of addresses: its first one, and how many bits of it all share. *)
Definition in_block (width addr : Z) (block : Z * Z) : bool :=
  let size := 2 ^ (width - block.2) in (block.1 <=? addr) && (addr <? block.1 + size).
Definition ip4 (a b c d : Z) : Z := a * 16777216 + b * 65536 + c * 256 + d.
Definition BLOCKED_V4 : list (Z * Z) :=
  [ (ip4 0 0 0 0, 8); (ip4 10 0 0 0, 8); (ip4 100 64 0 0, 10); (ip4 127 0 0 0, 8); (ip4 169 254 0 0, 16);
    (ip4 172 16 0 0, 12); (ip4 192 0 0 0, 24); (ip4 192 0 2 0, 24); (ip4 192 88 99 0, 24); (ip4 192 168 0 0, 16);
    (ip4 198 18 0 0, 15); (ip4 198 51 100 0, 24); (ip4 203 0 113 0, 24); (ip4 224 0 0 0, 4); (ip4 240 0 0 0, 4) ].
(** Of a 128-bit address, its first 32 bits. *)
Definition BLOCKED_V6 : list (Z * Z) :=
  [ (252 * 16777216, 7); (65152 * 65536, 10); (255 * 16777216, 8); (100 * 65536 + 65435, 32); (8193 * 65536 + 3512, 32) ].

Definition byte (z : Z) : Prop := 0 ≤ z < 256.
Definition word (z : Z) : Prop := 0 ≤ z < 65536.
Lemma upto (n : nat) (f : Z → bool) : forallb (λ k, f (Z.of_nat k)) (seq 0 n) = true → ∀ z, 0 ≤ z < Z.of_nat n → f z = true.
Proof.
  intros Hf z Hz. rewrite forallb_forall in Hf. specialize (Hf (Z.to_nat z)). rewrite Z2Nat.id in Hf by lia.
  apply Hf, in_seq. lia.
Qed.
Lemma mask_cgnat b : byte b → (Z.land b 192 =? 64) = ((64 <=? b) && (b <=? 127)).
Proof. intros Hb. apply eqb_prop. revert b Hb. apply (upto 256). by vm_compute. Qed.
Lemma mask_bench b : byte b → (Z.land b 254 =? 18) = ((18 <=? b) && (b <=? 19)).
Proof. intros Hb. apply eqb_prop. revert b Hb. apply (upto 256). by vm_compute. Qed.
Lemma mask_multicast b : byte b → (Z.land b 240 =? 224) = ((224 <=? b) && (b <=? 239)).
Proof. intros Hb. apply eqb_prop. revert b Hb. apply (upto 256). by vm_compute. Qed.

Lemma mask_high k m s : 0 ≤ k → Z.land s (Z.shiftl m k) = Z.shiftl (Z.land (Z.shiftr s k) m) k.
Proof.
  intros Hk. apply Z.bits_inj'. intros i Hi. rewrite Z.land_spec, !Z.shiftl_spec by done.
  destruct (Z.lt_ge_cases i k).
  - rewrite !(Z.testbit_neg_r _ (i - k)) by lia. by rewrite andb_false_r.
  - rewrite Z.land_spec, Z.shiftr_spec by lia. by replace (i - k + k) with i by lia.
Qed.
(** A mask of all the bits from the [k]th on, of a word below [n * 2^k]. *)
Lemma mask_top (k m v s : Z) (n : nat) (f : Z → bool) : 0 ≤ k → 0 ≤ s < Z.of_nat n * 2 ^ k →
  forallb (λ q, Bool.eqb (Z.land (Z.of_nat q) m =? v) (f (Z.of_nat q))) (seq 0 n) = true →
  (Z.land s (Z.shiftl m k) =? Z.shiftl v k) = f (s / 2 ^ k).
Proof.
  intros Hk Hs Hf. rewrite mask_high, Z.shiftr_div_pow2, !Z.shiftl_mul_pow2 by done.
  pose proof (Z.pow_pos_nonneg 2 k ltac:(lia) Hk) as Hp.
  assert (0 ≤ s / 2 ^ k < Z.of_nat n) as Hq by (split; [apply Z.div_pos; lia | apply Z.div_lt_upper_bound; lia]).
  pose proof (upto n (λ q, Bool.eqb (Z.land q m =? v) (f q)) Hf _ Hq) as E%eqb_prop. rewrite <- E.
  apply eq_true_iff_eq. rewrite !Z.eqb_eq. nia.
Qed.
Lemma mask_ula s : word s → (Z.land s 65024 =? 64512) = ((64512 <=? s) && (s <=? 65023)).
Proof.
  intros Hs. transitivity (s / 2 ^ 9 =? 126); [|unfold word in *; Z.div_mod_to_equations; lia].
  apply (mask_top 9 127 126 s 128 (λ q, q =? 126)); [lia | unfold word in *; lia | by vm_compute].
Qed.
Lemma mask_link_local s : word s → (Z.land s 65472 =? 65152) = ((65152 <=? s) && (s <=? 65215)).
Proof.
  intros Hs. transitivity (s / 2 ^ 6 =? 1018); [|unfold word in *; Z.div_mod_to_equations; lia].
  apply (mask_top 6 1023 1018 s 1024 (λ q, q =? 1018)); [lia | unfold word in *; lia | by vm_compute].
Qed.
Lemma mask_multicast6 s : word s → (Z.land s 65280 =? 65280) = (65280 <=? s).
Proof.
  intros Hs. transitivity (s / 2 ^ 8 =? 255); [|unfold word in *; Z.div_mod_to_equations; lia].
  apply (mask_top 8 255 255 s 256 (λ q, q =? 255)); [lia | unfold word in *; lia | by vm_compute].
Qed.

(** The blocks of whole octets: a first octet, two, three, and two with a range in the second. *)
Section octets.
Variables (a b c d : Z) (Ha : byte a) (Hb : byte b) (Hc : byte c) (Hd : byte d).
Ltac block := intros; unfold in_block, ip4, byte in *; cbn [fst snd];
  match goal with |- context [2 ^ ?e] => let v := eval vm_compute in (2 ^ e) in change (2 ^ e) with v end; lia.
Lemma block_8 x : in_block 32 (ip4 a b c d) (ip4 x 0 0 0, 8) = (a =? x).
Proof. block. Qed.
Lemma block_16 x y : byte y → in_block 32 (ip4 a b c d) (ip4 x y 0 0, 16) = ((a =? x) && (b =? y)).
Proof. block. Qed.
Lemma block_24 x y z : byte y → byte z → in_block 32 (ip4 a b c d) (ip4 x y z 0, 24) = ((a =? x) && (b =? y) && (c =? z)).
Proof. block. Qed.
Lemma block_10 x y : 0 ≤ y ≤ 192 → in_block 32 (ip4 a b c d) (ip4 x y 0 0, 10) = ((a =? x) && ((y <=? b) && (b <=? y + 63))).
Proof. block. Qed.
Lemma block_12 x y : 0 ≤ y ≤ 240 → in_block 32 (ip4 a b c d) (ip4 x y 0 0, 12) = ((a =? x) && ((y <=? b) && (b <=? y + 15))).
Proof. block. Qed.
Lemma block_15 x y : 0 ≤ y ≤ 254 → in_block 32 (ip4 a b c d) (ip4 x y 0 0, 15) = ((a =? x) && ((y <=? b) && (b <=? y + 1))).
Proof. block. Qed.
Lemma block_4 x : in_block 32 (ip4 a b c d) (ip4 x 0 0 0, 4) = ((x <=? a) && (a <=? x + 15)).
Proof. block. Qed.
End octets.

(** The alternative [H] is. *)
Ltac same H := match goal with |- _ ∨ _ => first [left; same H | right; same H] | |- _ => exact H end.
Lemma blocked_v4_exact a b c d : byte a → byte b → byte c → byte d →
  blocked_v4 a b c d = existsb (in_block 32 (ip4 a b c d)) BLOCKED_V4.
Proof.
  intros Ha Hb Hc Hd. unfold blocked_v4, in4, BLOCKED_V4. cbn [existsb]. rewrite orb_false_r.
  rewrite mask_cgnat, mask_bench, mask_multicast by done.
  rewrite !block_8, !block_16, !block_24, block_10, block_12, block_15, !block_4 by (done || unfold byte; lia).
  change (64 + 63) with 127. change (16 + 15) with 31. change (18 + 1) with 19. change (224 + 15) with 239.
  apply eq_true_iff_eq. rewrite ?orb_true_iff, ?andb_true_iff, ?Z.eqb_eq, ?Z.leb_le.
  split; intros Hx; repeat (destruct Hx as [Hx|Hx]); try same Hx.
  all: unfold byte in *.
  - left. apply Hx.
  - do 14 right. lia.
  - do 14 right. lia.
  - right. lia.
Qed.

Lemma blocked_v6_top s0 s1 : word s0 → word s1 →
  existsb (in_block 32 (s0 * 65536 + s1)) BLOCKED_V6 =
  (Z.land s0 65024 =? 64512) || (Z.land s0 65472 =? 65152) || (Z.land s0 65280 =? 65280) ||
  ((s0 =? 100) && (s1 =? 65435)) || ((s0 =? 8193) && (s1 =? 3512)).
Proof.
  intros Hs0 Hs1. rewrite mask_ula, mask_link_local, mask_multicast6 by done. unfold BLOCKED_V6, in_block, word in *.
  cbn [existsb fst snd]. rewrite orb_false_r, !orb_assoc.
  repeat match goal with |- context [2 ^ (32 - ?e)] => let v := eval vm_compute in (2 ^ (32 - e)) in change (2 ^ (32 - e)) with v end.
  repeat apply (f_equal2 orb); lia.
Qed.
Lemma octets_of_word a b : byte a → byte b → Z.shiftr (a * 256 + b) 8 = a ∧ Z.land (a * 256 + b) 255 = b.
Proof.
  unfold byte. intros Ha Hb. rewrite Z.shiftr_div_pow2 by lia. change 255 with (Z.ones 8). rewrite Z.land_ones by lia.
  change (2 ^ 8) with 256. split; [rewrite Z.div_add_l by lia; rewrite Z.div_small by lia; lia|].
  rewrite Z.add_comm, Z.mod_add by lia. by apply Z.mod_small.
Qed.

(** The guard refuses the reserved blocks and nothing else.  An IPv4 address is refused
    exactly when it lies in one of the fifteen reserved blocks; written as an IPv6 address, in
    either of the two ways, it is judged as itself; any other IPv6 address is refused exactly
    when its first 32 bits lie in a reserved block.  A name is reached only if every address
    it resolved to is outside all of them, and it resolved to one. *)
Theorem guard_refuses_reserved a b c d s0 s1 rest addrs :
  byte a → byte b → byte c → byte d → word s0 → word s1 → length rest = 6%nat → to_ipv4 (s0 :: s1 :: rest) = None →
  is_blocked_ip (V4 a b c d) = existsb (in_block 32 (ip4 a b c d)) BLOCKED_V4 ∧
  is_blocked_ip (V6 [0; 0; 0; 0; 0; 65535; a * 256 + b; c * 256 + d]) = is_blocked_ip (V4 a b c d) ∧
  is_blocked_ip (V6 [0; 0; 0; 0; 0; 0; a * 256 + b; c * 256 + d]) = is_blocked_ip (V4 a b c d) ∧
  is_blocked_ip (V6 (s0 :: s1 :: rest)) = existsb (in_block 32 (s0 * 65536 + s1)) BLOCKED_V6 ∧
  (∀ out, checked_addresses addrs = Some out ↔ out = addrs ∧ addrs ≠ [] ∧ Forall (λ x, is_blocked_ip x.1 = false) addrs).
Proof.
  intros Ha Hb Hc Hd Hs0 Hs1 Hlen Hno. destruct (octets_of_word a b Ha Hb) as [E1 E2], (octets_of_word c d Hc Hd) as [E3 E4].
  split_and!.
  - by apply blocked_v4_exact.
  - cbn [is_blocked_ip to_ipv4]. rewrite E1, E2, E3, E4. done.
  - cbn [is_blocked_ip to_ipv4]. rewrite E1, E2, E3, E4. done.
  - cbn [is_blocked_ip]. rewrite Hno, (blocked_v6_top s0 s1 Hs0 Hs1).
    unfold blocked_v6. cbn [nth]. rewrite !bool_decide_eq_false_2; [done| |].
    + intros E. rewrite E in Hno. done.
    + intros E. rewrite E in Hno. done.
  - intros out. destruct addrs as [|x l]; [cbn; naive_solver|]. unfold checked_addresses.
    destruct (existsb _ _) eqn:Ex.
    + split; [done|]. intros (_ & _ & Hf). apply existsb_exists in Ex as (y & Hy & Hb'). rewrite Forall_forall in Hf.
      by rewrite (Hf y) in Hb' by (by apply list_elem_of_In).
    + split; [|naive_solver]. intros [= <-]. split_and!; [done | done |]. apply Forall_forall. intros y Hy.
      apply not_true_iff_false. intros Hb'. apply not_true_iff_false in Ex. apply Ex, existsb_exists. exists y.
      split; [by apply list_elem_of_In | done].
Qed.
