(* ===== verification/RunKeys.v ===== *)
(** The keys of one run, in the worker (worker/src/signing_keys/mod.rs and
    encryption_keys/mod.rs): the rules of a declaration against how the run was started, the
    keys as the keystore's answer gives them, and what a guest does with them by path. *)

From S2P Require Export ManifestSafety.

(** * Declarations against the run *)

Inductive CodeSource :=
| GitHub (repo commit build_target : string)
| WasmUrl (url hash build_target : string).
Record RunSource := mkRun { run_project : option string; built_from_github : bool; run_predecessor : option string }.
Definition of_job (project_id : option string) (code : CodeSource) (predecessor : option string) : RunSource :=
  mkRun project_id (match code with GitHub _ _ _ => true | WasmUrl _ _ _ => false end) predecessor.

Inductive RunError :=
| BadDeclaration (e : ManifestError)
| BuiltFromGitHub (project : option string)
| WasmKeyThroughProject (path : string) | ProjectKeyDirect (path : string) | NoRunPredecessor (path : string)
| KeyMissing (path : string) | KeyNotHex (path : string) | KeyNotScalar (path : string) | KeyExtra (path : string)
| UnknownPath (path : string) | OtherVault (path : string)
| MessageTooLong (n : Z) | NotPrehash (n : Z) | SignFailed (path : string) | ReducedX (path : string)
| OfNoCaller (path : string) | NotEd25519 (path : string) | BadNonce (n : Z) | FieldTooLong (field : string) (n : Z)
| InputTooLong (what : string) (n : Z) | NoRandomness | SealingFailed | DecryptionFailed
| ManifestUnread (e : ManifestError) | KeysUndeclared | KeysNotGiven | KeysOthers | NotAComponent.

Section run.
Context `{AccountIds}.

Fixpoint check_each_run {D} `{KeyDeclaration D} (run : RunSource) (keys : list D) : result unit RunError :=
  match keys with
  | [] => ROk tt
  | key :: keys =>
    let path := d_path key in
    let? _ :=
      match d_bind key, run_project run with
      | ToProject, Some _ | ToWasm, None => ROk tt
      | ToWasm, Some _ => RErr (WasmKeyThroughProject path)
      | ToProject, None => RErr (ProjectKeyDirect path)
      end in
    if bool_decide (d_caller key = Predecessor) && bool_decide (run_predecessor run = None)
    then RErr (NoRunPredecessor path) else check_each_run run keys
  end.
Definition check_family_against_run {D} `{KeyDeclaration D} (family : Family) (keys : list D) (run : RunSource)
    : result unit RunError :=
  let? _ := map_err BadDeclaration (check_family_declarations family keys) in
  if built_from_github run then RErr (BuiltFromGitHub (run_project run)) else check_each_run run keys.
Definition declared_signing_keys (manifest : option ProjectManifest) (run : RunSource) : result (list ManifestKey) RunError :=
  match manifest ≫= signing_keys with
  | None | Some [] => ROk []
  | Some keys => let? _ := check_family_against_run SIGNING keys run in ROk keys
  end.
Definition declared_encryption_keys (manifest : option ProjectManifest) (run : RunSource)
    : result (list EncryptionManifestKey) RunError :=
  match manifest ≫= encryption_keys with
  | None | Some [] => ROk []
  | Some keys => let? _ := check_family_against_run ENCRYPTION keys run in ROk keys
  end.
End run.

(** * The keys of a run *)

(** hex, ed25519-dalek, k256, bs58, base64, sha2 and chacha20poly1305 over bytes. *)
Class RunCrates := {
  run_crates :: Crates;
  hex_decode : string → option string;
  ed_public : string → string;                             (* of a seed *)
  ed_sign : string → string → string;                      (* seed, message *)
  secp_scalar : string → bool;
  secp_public : string → string;                           (* 64 bytes *)
  secp_sign : string → string → option (string * Z);       (* r and s, and the recovery id *)
  b58_encode : string → string;
  xchacha_seal : string → string → string → string → option string;   (* key, nonce, aad, text *)
  xchacha_open : string → string → string → string → option string;
}.

Definition MAX_SIGN_MESSAGE_BYTES : Z := 64 * 1024.
Definition SECP256K1_PREHASH_BYTES : Z := 32.
Definition MAX_NEP413_MESSAGE_BYTES : Z := 64 * 1024.
Definition MAX_NEP413_RECIPIENT_BYTES : Z := 2 * 1024.
Definition MAX_NEP413_CALLBACK_URL_BYTES : Z := 2 * 1024.
Definition MAX_CRYPT_INPUT_BYTES : Z := 256 * 1024.
Definition CIPHERTEXT_FORMAT : Z := 1.
Definition NONCE_LEN : nat := 24.
Definition CIPHERTEXT_OVERHEAD : Z := 1 + 24 + 16.
Definition MAC_SUBKEY_LABEL : string := "outlayer:encryption-keys:v1:mac".

(** ** HMAC-SHA256, as the worker builds it on SHA-256 *)

Definition xor_byte (x : Z) (c : ascii) : ascii := ascii_of_N (Z.to_N (Z.lxor (byte_of c) x)).
Fixpoint zeros (n : nat) : string := match n with O => "" | S n => String Ascii.zero (zeros n) end.
Section hmac.
Context `{Crates}.
Definition hmac_sha256 (key data : string) : string :=
  let pad := key +:+ zeros (64 - String.length key) in
  let pad := map_bytes (xor_byte 54) pad in
  let inner := sha_256 (pad +:+ data) in
  let pad := map_bytes (xor_byte (Z.lxor 54 92)) pad in
  sha_256 (pad +:+ inner).
(** RFC 2104. *)
Definition hmac_rfc2104 (key data : string) : string :=
  let block := key +:+ zeros (64 - String.length key) in
  sha_256 (map_bytes (xor_byte 92) block +:+ sha_256 (map_bytes (xor_byte 54) block +:+ data)).
End hmac.

Section keys.
Context `{RunCrates}.

(** [decode_to_slice] into 32 bytes. *)
Definition decode32 (hex : string) : option string := bytes ← hex_decode hex; sized 32 bytes.

(** A map of usable keys: each with its declaration, and what is made of its bytes. *)
Section family.
Context {D S : Type} `{KeyDeclaration D} `{EqDecision D} (secret_of : D → string → result S RunError).
Fixpoint take_keys (declared : list D) (seeds : gmap string string) (keys : gmap string (D * S))
    : result (gmap string (D * S) * gmap string string) RunError :=
  match declared with
  | [] => ROk (keys, seeds)
  | d :: declared =>
    let? hex := ok_or (seeds !! d_path d) (KeyMissing (d_path d)) in
    let? bytes := ok_or (decode32 hex) (KeyNotHex (d_path d)) in
    let? s := secret_of d bytes in
    take_keys declared (delete (d_path d) seeds) (<[d_path d := (d, s)]> keys)
  end.
Definition from_keystore (declared : list D) (seeds : gmap string string) : result (gmap string (D * S)) RunError :=
  let? '(keys, seeds) := take_keys declared seeds ∅ in
  match map_to_list seeds with
  | [] => ROk keys
  | (extra, _) :: _ => RErr (KeyExtra extra)
  end.
Definition serve_exactly (keys : gmap string (D * S)) (declared : list D) : bool :=
  (length declared =? size keys)%nat &&
  forallb (λ d, match keys !! d_path d with Some (d', _) => bool_decide (d' = d) | None => false end) declared.
Definition get_key (keys : gmap string (D * S)) (path : string) (vault : option string) : result (D * S) RunError :=
  let? key := ok_or (keys !! path) (UnknownPath path) in
  if bool_decide (d_vault key.1 = vault) then ROk key else RErr (OtherVault (d_path key.1)).
(** [manifest_from_wasm], and the family's member of the manifest. *)
Definition check_run_keys (component : bool) (manifest : result (option (list D)) ManifestError)
    (keys : option (gmap string (D * S))) : result unit RunError :=
  let handed := match keys with Some k => if bool_decide (k = ∅) then None else Some k | None => None end in
  let? declared :=
    match manifest with
    | ROk m => ROk (default [] m)
    | RErr e => if bool_decide (is_Some handed) then RErr (ManifestUnread e) else ROk []
    end in
  match declared, handed with
  | [], None => ROk tt
  | [], Some _ => RErr KeysUndeclared
  | _ :: _, None => RErr KeysNotGiven
  | _ :: _, Some k => if negb (serve_exactly k declared) then RErr KeysOthers
                      else if negb component then RErr NotAComponent else ROk tt
  end.
End family.

(** ** Signing *)

Inductive Secret := SecretEd25519 (seed : string) | SecretSecp256k1 (scalar : string).
Definition signing_secret (d : ManifestKey) (seed : string) : result Secret RunError :=
  match sk_type d with
  | Ed25519 => ROk (SecretEd25519 seed)
  | Secp256k1 => if secp_scalar seed then ROk (SecretSecp256k1 seed) else RErr (KeyNotScalar (sk_path d))
  end.
Definition SigningKeys : Type := gmap string (ManifestKey * Secret).
Definition secret_public_key (s : Secret) : string :=
  match s with SecretEd25519 seed => ed_public seed | SecretSecp256k1 k => secp_public k end.
Definition public_key (keys : SigningKeys) (path : string) (vault : option string) : result string RunError :=
  let? key := get_key keys path vault in ROk (secret_public_key key.2).
Definition sign_with (keys : SigningKeys) (path : string) (vault : option string) (message : string) : result string RunError :=
  let? key := get_key keys path vault in
  match key.2 with
  | SecretEd25519 seed =>
    if MAX_SIGN_MESSAGE_BYTES <? str_len message then RErr (MessageTooLong (str_len message)) else ROk (ed_sign seed message)
  | SecretSecp256k1 k =>
    if negb (str_len message =? SECP256K1_PREHASH_BYTES) then RErr (NotPrehash (str_len message)) else
    let? '(rs, recovery) := ok_or (secp_sign k message) (SignFailed (sk_path key.1)) in
    if 2 <=? recovery then RErr (ReducedX (sk_path key.1)) else ROk (rs +:+ le_bytes 1 recovery)
  end.

(** Borsh of an option: absent, or one and the string. *)
Definition borsh_option (o : option string) : option string :=
  match o with None => Some (le_bytes 1 0) | Some s => b ← borsh_string s; Some (le_bytes 1 1 +:+ b) end.
Definition nep413_payload (message nonce recipient : string) (callback_url : option string) : option string :=
  m ← borsh_string message; r ← borsh_string recipient; u ← borsh_option callback_url;
  Some (le_bytes 4 NEP413_TAG +:+ m +:+ nonce +:+ r +:+ u).
Record Nep413Signed := mkNep413 { n4_account_id : string; n4_public_key : string; n4_signature : string }.
Definition check_field (field : string) (len most : Z) : result unit RunError :=
  if most <? len then RErr (FieldTooLong field len) else ROk tt.
(** [None] is the panic of a payload that borsh cannot write. *)
Definition sign_nep413 (keys : SigningKeys) (path : string) (vault : option string) (message recipient nonce : string)
    (callback_url : option string) : option (result Nep413Signed RunError) :=
  match (let? key := get_key keys path vault in
         if bool_decide (sk_caller key.1 = NoCaller) then RErr (OfNoCaller (sk_path key.1)) else
         match key.2 with
         | SecretSecp256k1 _ => RErr (NotEd25519 (sk_path key.1))
         | SecretEd25519 seed =>
           if negb (str_len nonce =? 32) then RErr (BadNonce (str_len nonce)) else
           let? _ := check_field "message" (str_len message) MAX_NEP413_MESSAGE_BYTES in
           let? _ := check_field "recipient" (str_len recipient) MAX_NEP413_RECIPIENT_BYTES in
           let? _ := check_field "callback URL" (match callback_url with Some u => str_len u | None => 0 end)
                       MAX_NEP413_CALLBACK_URL_BYTES in
           ROk seed
         end) with
  | RErr e => Some (RErr e)
  | ROk seed =>
    payload ← nep413_payload message nonce recipient callback_url;
    Some (ROk (mkNep413 (hex_lower (ed_public seed)) ("ed25519:" +:+ b58_encode (ed_public seed))
                 (b64_encode (ed_sign seed (sha_256 payload)))))
  end.

(** ** Encryption *)

(** The key and the key of its tags. *)
Definition encryption_secret (d : EncryptionManifestKey) (aead : string) : result (string * string) RunError :=
  ROk (aead, hmac_sha256 aead MAC_SUBKEY_LABEL).
Definition EncryptionKeys : Type := gmap string (EncryptionManifestKey * (string * string)).
Definition within_cap (what : string) (len most : Z) : result unit RunError :=
  if most <? len then RErr (InputTooLong what len) else ROk tt.
(** The nonce is what the host's randomness gave, if it gave any. *)
Definition run_encrypt (nonce : option string) (keys : EncryptionKeys) (path : string) (vault : option string) (plaintext aad : string)
    : result string RunError :=
  let? key := get_key keys path vault in
  let? _ := within_cap "plaintext" (str_len plaintext) MAX_CRYPT_INPUT_BYTES in
  let? _ := within_cap "aad" (str_len aad) MAX_CRYPT_INPUT_BYTES in
  let? nonce := ok_or nonce NoRandomness in
  let? sealed := ok_or (xchacha_seal key.2.1 nonce aad plaintext) SealingFailed in
  ROk (le_bytes 1 CIPHERTEXT_FORMAT +:+ nonce +:+ sealed).
Definition run_decrypt (keys : EncryptionKeys) (path : string) (vault : option string) (ciphertext aad : string)
    : result string RunError :=
  let? key := get_key keys path vault in
  let? _ := within_cap "ciphertext" (str_len ciphertext) (MAX_CRYPT_INPUT_BYTES + CIPHERTEXT_OVERHEAD) in
  let? _ := within_cap "aad" (str_len aad) MAX_CRYPT_INPUT_BYTES in
  let first := match ciphertext with String c _ => byte_of c | "" => 0 end in
  if (str_len ciphertext <? CIPHERTEXT_OVERHEAD) || negb (first =? CIPHERTEXT_FORMAT) then RErr DecryptionFailed else
  let rest := str_drop 1 ciphertext in
  ok_or (xchacha_open key.2.1 (str_take NONCE_LEN rest) aad (str_drop NONCE_LEN rest)) DecryptionFailed.
Definition run_mac (keys : EncryptionKeys) (path : string) (vault : option string) (data : string) : result string RunError :=
  let? key := get_key keys path vault in
  let? _ := within_cap "data" (str_len data) MAX_CRYPT_INPUT_BYTES in
  ROk (hmac_sha256 key.2.2 data).
End keys.

#[export] Instance signing_request_eq : EqDecision SigningKeyRequest.
Proof. solve_decision. Defined.
#[export] Instance encryption_request_eq : EqDecision EncryptionKeyRequest.
Proof. solve_decision. Defined.
