(* ===== verification/RunKeySafety.v ===== *)
(** The worker's rules for declared keys are the keystore's, a run gets exactly the keys it
    declares, and what the keys sign verifies and what they seal opens. *)

From S2P Require Export RunKeys MasterSafety.

(** * The same rules on both sides *)

Section rules.
Context `{Unicode} `{AccountIds}.

Lemma validate_key_path_exact p : validate_key_path p = key_path_shape p.
Proof. unfold validate_key_path, key_path_shape, MAX_KEY_PATH_LEN. destruct p as [|c s]; [done|]. cbn [str_is_empty negb andb]. done. Qed.

Section family.
Context {D : Type} `{KeyDeclaration D}.

(** What a declaration says on its own. *)
Definition declared_well (d : D) : Prop :=
  key_path_shape (d_path d) = true ∧ ∀ v, d_vault d = Some v → d_bind d = ToProject ∧ account_ok v = true.
Lemma check_each_exact keys : ∀ i seen, NoDup seen →
  check_each i seen keys = ROk tt ↔ Forall declared_well keys ∧ NoDup (seen ++ map d_path keys).
Proof.
  induction keys as [|d keys IH]; intros i seen Hs; cbn [check_each map]; [rewrite app_nil_r; naive_solver|].
  rewrite validate_key_path_exact, Forall_cons. unfold declared_well at 1. cbv zeta.
  destruct (key_path_shape (d_path d)) eqn:Ep; cbn [negb]; [|naive_solver].
  case_bool_decide as Hin.
  { split; [done|]. intros [_ Hn]. apply NoDup_app in Hn as (_ & Hn & _). destruct (Hn (d_path d) Hin). left. }
  assert (NoDup (seen ++ [d_path d])) as Hs'.
  { apply NoDup_app. split_and!; [done | set_solver | apply NoDup_singleton]. }
  rewrite rbind_ok. replace (seen ++ d_path d :: map d_path keys) with ((seen ++ [d_path d]) ++ map d_path keys) by (by rewrite <- app_assoc).
  split.
  - intros ([] & Hv & Hk). apply IH in Hk as [Hf Hn]; [|exact Hs']. split_and!; [done | | done | done].
    intros v Ev. rewrite Ev in Hv. destruct (d_bind d); [|done]. by destruct (account_ok v).
  - intros [[[_ Hv] Hf] Hn]. exists tt. split; [|by apply IH].
    destruct (d_vault d) as [v|]; [|by destruct (d_bind d)]. destruct (Hv v eq_refl) as [-> ->]. done.
Qed.
Lemma check_family_exact family (keys : list D) : check_family_declarations family keys = ROk tt ↔
  Z.of_nat (length keys) ≤ fam_most family ∧ Forall declared_well keys ∧ NoDup (map d_path keys).
Proof.
  unfold check_family_declarations. destruct (Z.ltb_spec (fam_most family) (Z.of_nat (length keys))); [split; [done|lia]|].
  rewrite check_each_exact by constructor. cbn [app]. naive_solver lia.
Qed.
Lemma check_run_exact run (keys : list D) : check_each_run run keys = ROk tt ↔
  Forall (λ d, (d_bind d = ToProject ↔ is_Some (run_project run)) ∧ (d_caller d = Predecessor → is_Some (run_predecessor run))) keys.
Proof.
  induction keys as [|d keys IH]; cbn [check_each_run]; [split; [constructor|done]|]. cbv zeta. rewrite rbind_ok, Forall_cons, <- IH.
  assert (match d_bind d, run_project run with
      | ToProject, Some _ | ToWasm, None => ROk tt
      | ToProject, None => RErr (ProjectKeyDirect (d_path d))
      | ToWasm, Some _ => RErr (WasmKeyThroughProject (d_path d))
      end = ROk tt ↔ (d_bind d = ToProject ↔ is_Some (run_project run))) as Hb.
  { destruct (d_bind d), (run_project run) as [p|]; split; try done.
    - intros [Hx _]. by destruct (Hx eq_refl).
    - intros [_ Hx]. by discriminate (Hx (ex_intro _ p eq_refl)). }
  split.
  - intros ([] & Hd%Hb & Hr). destruct (bool_decide_reflect (d_caller d = Predecessor)) as [Ec|Ec]; cbn in Hr.
    + destruct (run_predecessor run) as [q|]; [|done]. cbn in Hr. split_and!; [done | eauto | done].
    + split_and!; [done | by intros | done].
  - intros [[Hd Hp] Hr]. exists tt. split; [by apply Hb|]. destruct (bool_decide_reflect (d_caller d = Predecessor)) as [Ec|Ec]; cbn; [|done].
    destruct (Hp Ec) as [q ->]. done.
Qed.

(** The facts of the run the keystore is told, when they are well formed. *)
Record run_facts (run : RunSource) (who hash : string) (project : option ProjectId) : Prop := {
  rf_project : opt_parse project_id_parse (run_project run) = ROk project;
  rf_user : real_account "caller" who = ROk who;
  rf_predecessor : opt_parse (real_account "predecessor") (run_predecessor run) = ROk (run_predecessor run);
  rf_hash : wasm_sha256_parse hash = ROk hash;
}.
Lemma worker_keystore_agree family (keys : list D) run who hash project :
  keys ≠ [] → fam_most family = max_keys (FAMILY (D := D)) → (∀ d, d ∈ keys → kind_family (d_kind d) = FAMILY (D := D)) →
  (∀ d, d ∈ keys → d_caller d = NoCaller → d_kind d = KindSigning Ed25519) →
  built_from_github run = false → run_facts run who hash project →
  check_family_against_run family keys run = ROk tt ↔
  ∃ v, validate_request (run_project run) who (run_predecessor run) (Some hash) keys = ROk v.
Proof.
  intros Hne Hmost Hfam Hnone Hgit [Hp Hu Hpr Hh].
  assert (is_Some (run_project run) ↔ is_Some project) as Hproj.
  { apply opt_parse_ok in Hp. destruct (run_project run); [destruct Hp as (x & _ & ->)|subst]; split; intros; eauto; by destruct H1. }
  assert (∀ d, key_fits project (run_predecessor run) d ↔ declared_well d ∧ kind_family (d_kind d) = FAMILY (D := D) ∧
    ((d_bind d = ToProject ↔ is_Some (run_project run)) ∧ (d_caller d = Predecessor → is_Some (run_predecessor run))) ∧
    (d_caller d = NoCaller → d_kind d = KindSigning Ed25519)) as Hfits.
  { intros d. unfold declared_well. rewrite Hproj. split; [intros []; naive_solver|]. intros ([] & ? & [] & ?). by split. }
  unfold check_family_against_run. rewrite Hgit, rbind_ok.
  assert (0 < Z.of_nat (length keys)) by (destruct keys; [done | cbn [length]; lia]).
  split.
  - intros ([] & Hd & Hr%check_run_exact). destruct (check_family_declarations family keys) as [[]|] eqn:Ed; [|done].
    apply check_family_exact in Ed as (Hlen & Hwell & Hnd). unfold validate_request.
    destruct (Z.eqb_spec (Z.of_nat (length keys)) 0); [lia|]. rewrite (proj2 (Z.ltb_ge _ _)) by lia.
    rewrite Hp, Hu, Hpr. cbn [rbind ok_or]. rewrite Hh. cbn [rbind].
    assert (validate_keys project who (run_predecessor run) [] keys = ROk ([] ++ map (validated who (run_predecessor run)) keys)) as ->; [|cbn; eauto].
    apply validate_keys_exact; [constructor|]. split_and!; [|done|done]. rewrite Forall_forall in *. intros d Hd'. apply Hfits. auto.
  - intros (v & (Hn & _ & _ & Hp' & Hfit & Hnd & _)%validate_request_ok). rewrite Hp in Hp'. injection Hp' as Hpp. rewrite <- Hpp in Hfit.
    exists tt. rewrite Forall_forall in Hfit. split.
    + rewrite (proj2 (check_family_exact family keys)); [done|]. split_and!; [lia| |done]. apply Forall_forall. intros d Hd. by apply Hfits, Hfit.
    + apply check_run_exact, Forall_forall. intros d Hd. by apply Hfits, Hfit.
Qed.
End family.

Lemma github_refused {D} `{KeyDeclaration D} family (keys : list D) run : built_from_github run = true →
  ∃ err, check_family_against_run family keys run = RErr err.
Proof. unfold check_family_against_run. intros ->. destruct (check_family_declarations family keys); cbn; eauto. Qed.
Lemma declared_signing_exact m s run : signing_keys m = Some s → s ≠ [] →
  declared_signing_keys (Some m) run = ROk s ↔ check_family_against_run SIGNING s run = ROk tt.
Proof.
  intros Hs Hn. unfold declared_signing_keys. cbn [mbind option_bind]. rewrite Hs. destruct s as [|d s]; [done|].
  destruct (check_family_against_run SIGNING (d :: s) run) as [[]|]; done.
Qed.
Lemma declared_encryption_exact m e run : encryption_keys m = Some e → e ≠ [] →
  declared_encryption_keys (Some m) run = ROk e ↔ check_family_against_run ENCRYPTION e run = ROk tt.
Proof.
  intros Hs Hn. unfold declared_encryption_keys. cbn [mbind option_bind]. rewrite Hs. destruct e as [|d e]; [done|].
  destruct (check_family_against_run ENCRYPTION (d :: e) run) as [[]|]; done.
Qed.
End rules.


(** * The keys a run is given *)

Section taken.
Context `{RunCrates} {D S : Type} `{KeyDeclaration D} `{EqDecision D} (secret_of : D → string → result S RunError).

(** The answer holds the key of [d], and [s] is made of it. *)
Definition key_answered (seeds : gmap string string) (d : D) (s : S) : Prop :=
  ∃ hex bytes, seeds !! d_path d = Some hex ∧ decode32 hex = Some bytes ∧ secret_of d bytes = ROk s.
Lemma take_keys_ok declared : NoDup (map d_path declared) → ∀ seeds keys,
  (∀ d, d ∈ declared → ∃ s, key_answered seeds d s) →
  ∃ keys' seeds', take_keys secret_of declared seeds keys = ROk (keys', seeds') ∧
    (∀ d, d ∈ declared → ∃ s, keys' !! d_path d = Some (d, s) ∧ key_answered seeds d s) ∧
    (∀ p, p ∉ map d_path declared → keys' !! p = keys !! p ∧ seeds' !! p = seeds !! p) ∧
    (∀ p, p ∈ map d_path declared → seeds' !! p = None).
Proof.
  induction declared as [|d declared IH]; intros Hnd seeds keys Ha; cbn [take_keys map].
  { exists keys, seeds. split_and!; [done | set_solver | done | set_solver]. }
  cbn [map] in Hnd. apply NoDup_cons in Hnd as [Hn Hnd]. destruct (Ha d) as (s & hex & bytes & Hh & Hb & Hs); [left|].
  assert (∀ d', d' ∈ declared → d_path d' ≠ d_path d) as Hother.
  { intros d' Hd' E. apply Hn. rewrite <- E. by apply list_elem_of_fmap_2. }
  assert (∀ d' s', d' ∈ declared → key_answered (delete (d_path d) seeds) d' s' ↔ key_answered seeds d' s') as Hans.
  { intros d' s' Hd'. unfold key_answered. by rewrite lookup_delete_ne by (intros E; by apply (Hother d' Hd')). }
  destruct (IH Hnd (delete (d_path d) seeds) (<[d_path d := (d, s)]> keys)) as (keys' & seeds' & Ht & Hk & Hp & Hg).
  { intros d' Hd'. destruct (Ha d') as [s' Hs']; [by right|]. exists s'. by apply Hans. }
  exists keys', seeds'. rewrite Hh. cbn [ok_or rbind]. rewrite Hb. cbn [ok_or rbind]. rewrite Hs. cbn [rbind]. split_and!; [exact Ht| | |].
  - intros d' [->|Hd']%elem_of_cons.
    + exists s. destruct (Hp (d_path d) Hn) as [-> _]. rewrite lookup_insert_eq. split; [done|]. by exists hex, bytes.
    + destruct (Hk d' Hd') as (s' & Hk' & Hs'). exists s'. split; [done|]. by apply Hans.
  - intros p [Hne Hp']%not_elem_of_cons. destruct (Hp p Hp') as [-> ->]. by rewrite lookup_insert_ne, lookup_delete_ne.
  - intros p Hin. destruct (decide (p ∈ map d_path declared)) as [Hin'|Hnin]; [by apply Hg|].
    apply elem_of_cons in Hin as [->|]; [|done]. destruct (Hp (d_path d) Hnin) as [_ ->]. apply lookup_delete_eq.
Qed.
Lemma from_keystore_ok declared seeds : NoDup (map d_path declared) → (∀ d, d ∈ declared → ∃ s, key_answered seeds d s) →
  (∀ p, is_Some (seeds !! p) → p ∈ map d_path declared) →
  ∃ keys, from_keystore secret_of declared seeds = ROk keys ∧
    (∀ d, d ∈ declared → ∃ s, keys !! d_path d = Some (d, s) ∧ key_answered seeds d s) ∧
    (∀ p, is_Some (keys !! p) ↔ p ∈ map d_path declared) ∧ serve_exactly keys declared = true.
Proof.
  intros Hnd Ha Hdom. destruct (take_keys_ok declared Hnd seeds ∅ Ha) as (keys & rest & Ht & Hk & Hp & Hg).
  assert (rest = ∅) as ->.
  { apply map_eq. intros p. rewrite lookup_empty. destruct (decide (p ∈ map d_path declared)) as [Hin|Hn]; [by apply Hg|].
    destruct (Hp p Hn) as [_ ->]. destruct (seeds !! p) eqn:E; [|done]. exfalso. apply Hn, Hdom. by eexists. }
  assert (∀ p, is_Some (keys !! p) ↔ p ∈ map d_path declared) as Hkeys.
  { intros p. split.
    - destruct (decide (p ∈ map d_path declared)) as [|Hn]; [done|]. destruct (Hp p Hn) as [-> _]. rewrite lookup_empty. by intros [].
    - intros (d & -> & Hd)%list_elem_of_fmap. destruct (Hk d Hd) as (s & -> & _). by eexists. }
  exists keys. unfold from_keystore. rewrite Ht. cbn [rbind]. rewrite map_to_list_empty. split_and!; [done | exact Hk | exact Hkeys |].
  unfold serve_exactly. apply andb_true_iff. split.
  - apply Nat.eqb_eq. rewrite <- size_dom.
    replace (dom keys) with (list_to_set (map d_path declared) : gset string).
    + rewrite size_list_to_set by done. by rewrite length_map.
    + apply leibniz_equiv. intros p. rewrite elem_of_list_to_set, elem_of_dom. by rewrite Hkeys.
  - apply forallb_forall. intros d Hd%list_elem_of_In. destruct (Hk d Hd) as (s & -> & _). by rewrite bool_decide_eq_true_2.
Qed.
End taken.

(** What crosses the wire is the keystore's bytes: hexadecimal reads back, and an HMAC-SHA256
    is 32 bytes. *)
Class KeyWire `{KeyCrates} `{RunCrates} : Prop := {
  wire_hex b : hex_decode (hex_of b) = Some b;
  mac_len k t : String.length (mac k t) = 32%nat;
}.

Section given.
Context `{Unicode} `{AccountIds} `{KeyWire}.

(** The run holds, for each key the keystore bound, its declaration and the secret made of
    the HMAC of its text under the master it names. *)
Definition run_holds {D S} `{KeyDeclaration D} (secret_of : D → string → result S RunError) (ks : Keystore)
    (run_keys : gmap string (D * S)) (d : D) (k : BoundKey) : Prop :=
  ∃ m s, master_for ks (bk_vault k) = ROk m ∧ secret_of d (mac m (input_text (bk_input k))) = ROk s ∧
    run_keys !! d_path d = Some (d, s).
Lemma issued_keys_held {D S} `{KeyDeclaration D} `{EqDecision D} (secret_of : D → string → result S RunError)
    ks req pr uuid (keys : list D) b :
  family_issued req pr uuid keys (Some b) → (∀ d v, d ∈ keys → d_vault d = Some v → is_Some (masters ks !! v)) →
  (∀ d k t, d ∈ keys → ∃ s, secret_of d (mac k t) = ROk s) →
  ∃ out run_keys, derive_keys ks b = ROk out ∧ from_keystore secret_of keys out = ROk run_keys ∧
    Forall2 (run_holds secret_of ks run_keys) keys (bks_keys b) ∧ check_run_keys true (ROk (Some keys)) (Some run_keys) = ROk tt.
Proof.
  intros Hi Hv Hmake. destruct (issued_derive ks req pr uuid keys b Hi Hv) as (out & Hd & Hserved & Hdom).
  destruct Hi as (Hn & _ & _ & Hnd & _ & Hk).
  assert (∀ d k, issued_as req uuid (bks_wasm b) d k → k ∈ bks_keys b → ∃ m, master_for ks (bk_vault k) = ROk m ∧
    out !! d_path d = Some (hex_of (mac m (input_text (bk_input k))))) as Hout.
  { intros d k (Hp & _) Hin. destruct (Hserved k Hin) as (m & Hm & Ho). exists m. by rewrite <- Hp. }
  assert (∀ t, decode32 (hex_of t) = Some t ↔ String.length t = 32%nat) as Hdec.
  { intros t. unfold decode32, sized. rewrite wire_hex. cbn. unfold str_len. destruct (Z.eqb_spec (Z.of_nat (String.length t)) 32); split; intros; try done; lia. }
  destruct (from_keystore_ok secret_of keys out Hnd) as (run_keys & Hf & Hheld & Hkeys & Hserve).
  - intros d Hdk. apply list_elem_of_lookup in Hdk as [i Hi']. destruct (Forall2_lookup_l _ _ _ _ _ Hk Hi') as (k & Hki & Has).
    destruct (Hout d k Has) as (m & _ & Ho); [by eapply list_elem_of_lookup_2|]. apply list_elem_of_lookup_2 in Hi'.
    destruct (Hmake d m (input_text (bk_input k)) Hi') as [s Hs]. exists s, (hex_of (mac m (input_text (bk_input k)))), (mac m (input_text (bk_input k))).
    split_and!; [done | | done]. apply Hdec, mac_len.
  - intros p Hp. by apply Hdom.
  - exists out, run_keys. split_and!; [done | done | |].
    + apply Forall2_same_length_lookup. split; [by eapply Forall2_length|]. intros i d k Hdi Hki.
      assert (issued_as req uuid (bks_wasm b) d k) as Has by (eapply Forall2_lookup_lr; [exact Hk | done | done]).
      destruct (Hout d k Has) as (m & Hm & Ho); [by eapply list_elem_of_lookup_2|].
      destruct (Hheld d) as (s & Hr & hex & bytes & Hh & Hb & Hs); [by eapply list_elem_of_lookup_2|].
      rewrite Ho in Hh. injection Hh as <-. rewrite (proj2 (Hdec _)) in Hb by apply mac_len. injection Hb as <-. by exists m, s.
    + unfold check_run_keys. destruct keys as [|d keys]; [cbn in Hn; lia|]. assert (run_keys ≠ ∅) as Hne.
      { intros ->. destruct (proj2 (Hkeys (d_path d))) as [? Hx]; [left|]. by rewrite lookup_empty in Hx. }
      rewrite bool_decide_eq_false_2 by done. cbn -[serve_exactly]. by rewrite Hserve.
Qed.

End given.

(** * What the keys do *)

(** Documented of the crates: what XChaCha20-Poly1305 sealed it opens, with a tag of 16
    bytes; an Ed25519 signature verifies under the key's public half; encodings read back. *)
Class RunCrateLaws `{RunCrates} : Prop := {
  run_opens key nonce aad text ct : xchacha_seal key nonce aad text = Some ct →
    xchacha_open key nonce aad ct = Some text ∧ String.length ct = (String.length text + 16)%nat;
  run_verifies seed m : ed25519_verifies (ed_public seed) m (ed_sign seed m) = true;
  run_public seed : ed25519_key (ed_public seed) = true ∧ String.length (ed_public seed) = 32%nat;
  run_signature seed m : String.length (ed_sign seed m) = 64%nat;
  run_b58 b : b58_decode (b58_encode b) = Some b;
  run_b64 b : b64_decode (b64_encode b) = Some b;
}.

Lemma byte_of_xor x c : 0 ≤ x < 256 → byte_of (xor_byte x c) = Z.lxor (byte_of c) x.
Proof.
  intros Hx. unfold xor_byte, byte_of. assert (0 ≤ Z.of_N (N_of_ascii c) < 256) as Hc.
  { pose proof (N_ascii_bounded c). lia. }
  assert (0 ≤ Z.lxor (Z.of_N (N_of_ascii c)) x < 256) as Hr.
  { split; [apply Z.lxor_nonneg; lia|]. destruct (Z.eq_dec (Z.lxor (Z.of_N (N_of_ascii c)) x) 0) as [->|Hne]; [lia|].
    apply (Z.log2_lt_pow2 _ 8); [assert (0 ≤ Z.lxor (Z.of_N (N_of_ascii c)) x) by (apply Z.lxor_nonneg; lia); lia|].
    eapply Z.le_lt_trans; [apply Z.log2_lxor; lia|]. apply Z.max_lub_lt.
    - destruct (Z.eq_dec (Z.of_N (N_of_ascii c)) 0) as [->|]; [done|]. apply Z.log2_lt_pow2; lia.
    - destruct (Z.eq_dec x 0) as [->|]; [done|]. apply Z.log2_lt_pow2; lia. }
  rewrite N_ascii_embedding by lia. lia.
Qed.
Lemma xor_twice x y c : 0 ≤ x < 256 → 0 ≤ y < 256 → xor_byte (Z.lxor x y) (xor_byte x c) = xor_byte y c.
Proof.
  intros Hx Hy. unfold xor_byte at 1 3. rewrite byte_of_xor by done. do 2 f_equal.
  by rewrite Z.lxor_assoc, <- (Z.lxor_assoc x x y), Z.lxor_nilpotent, Z.lxor_0_l.
Qed.
Lemma map_bytes_twice f g s : map_bytes f (map_bytes g s) = map_bytes (λ c, f (g c)) s.
Proof. induction s as [|c s IH]; cbn; [done|]. by rewrite IH. Qed.
Lemma map_bytes_ext f g s : (∀ c, f c = g c) → map_bytes f s = map_bytes g s.
Proof. intros Hf. induction s as [|c s IH]; cbn; [done|]. by rewrite Hf, IH. Qed.
Lemma hmac_is_rfc2104 `{Crates} key data : hmac_sha256 key data = hmac_rfc2104 key data.
Proof.
  unfold hmac_sha256, hmac_rfc2104. cbv zeta. do 2 f_equal. rewrite map_bytes_twice. apply map_bytes_ext. intros c. by apply xor_twice.
Qed.

Section uses.
Context `{RunCrateLaws}.

Lemma within_cap_ok what n most u : within_cap what n most = ROk u ↔ n ≤ most.
Proof. unfold within_cap. destruct (Z.ltb_spec most n), u; split; intros; try done; lia. Qed.

(** What a key seals it opens again.  Whatever [encrypt] answers for a path and a vault,
    [decrypt] with the same path, vault and associated data opens to the same bytes, up to
    the largest input there is; a tag is RFC 2104's HMAC-SHA256 of the data, under a key made
    of the sealing key and the label. *)
Theorem sealed_data_opens nonce keys path vault text aad ct :
  run_encrypt (Some nonce) keys path vault text aad = ROk ct → String.length nonce = NONCE_LEN →
  run_decrypt keys path vault ct aad = ROk text ∧ str_len ct = str_len text + CIPHERTEXT_OVERHEAD ∧
  ∀ d aead mac, get_key keys path vault = ROk (d, (aead, mac)) → encryption_secret d aead = ROk (aead, mac) → ∀ data,
    str_len data ≤ MAX_CRYPT_INPUT_BYTES → run_mac keys path vault data = ROk (hmac_rfc2104 (hmac_rfc2104 aead MAC_SUBKEY_LABEL) data).
Proof.
  unfold run_encrypt. intros (key & Hk & Hr)%rbind_ok Hn. apply rbind_ok in Hr as (u1 & Hp%within_cap_ok & Hr).
  apply rbind_ok in Hr as (u2 & Ha%within_cap_ok & Hr). cbn [ok_or rbind] in Hr.
  apply rbind_ok in Hr as (sealed & Hs%ok_or_ok & Hc). apply run_opens in Hs as [Ho Hl].
  assert (ct = le_bytes 1 CIPHERTEXT_FORMAT +:+ nonce +:+ sealed) as Hct by congruence.
  assert (str_len ct = str_len text + CIPHERTEXT_OVERHEAD) as Hlen.
  { rewrite Hct. unfold str_len. rewrite !str_length_append, le_bytes_length, Hn, Hl. unfold CIPHERTEXT_OVERHEAD, NONCE_LEN. lia. }
  split_and!; [| exact Hlen |].
  - assert (str_drop 1 ct = nonce +:+ sealed ∧ match ct with String c _ => byte_of c | "" => 0 end = 1) as [Hrest Hfirst] by (by rewrite Hct).
    unfold run_decrypt. rewrite Hk, Hrest, Hfirst. cbn [rbind]. unfold within_cap. rewrite Hlen.
    rewrite (proj2 (Z.ltb_ge _ (str_len text + CIPHERTEXT_OVERHEAD))), (proj2 (Z.ltb_ge _ (str_len aad))) by lia. cbn [rbind].
    pose proof (str_len_nonneg text). rewrite (proj2 (Z.ltb_ge _ CIPHERTEXT_OVERHEAD)) by lia. cbn [orb negb].
    change (1 =? CIPHERTEXT_FORMAT) with true. cbn [negb]. rewrite <- Hn, str_take_length_app, str_drop_length_app, Ho. done.
  - intros d aead mac Hd Hmac data Hdata. unfold run_mac. rewrite Hk. cbn [rbind]. unfold within_cap.
    rewrite (proj2 (Z.ltb_ge _ _)) by lia. cbn [rbind]. injection Hmac as <-.
    rewrite Hd in Hk. injection Hk as <-. cbn [snd]. by rewrite !hmac_is_rfc2104.
Qed.

Lemma payload_plain message nonce recipient : nep413_payload message nonce recipient None = nep413_bytes message nonce recipient.
Proof. unfold nep413_payload, nep413_bytes. by destruct (borsh_string message), (borsh_string recipient). Qed.
Lemma signed_verifies seed message nonce recipient payload : str_len nonce = 32 →
  nep413_bytes message nonce recipient = Some payload →
  verify_nep413 message ("ed25519:" +:+ b58_encode (ed_public seed)) (b64_encode (ed_sign seed (sha_256 payload))) (b64_encode nonce) recipient = ROk tt.
Proof.
  intros Hn Hp. unfold verify_nep413, strip_prefix. destruct (run_public seed) as [Hk Hl].
  change (starts_with _ _) with (String.prefix "ed25519:" ("ed25519:" +:+ b58_encode (ed_public seed))).
  rewrite (proj2 (prefix_append _ _)) by eauto. rewrite str_drop_length_app. cbn [mbind option_bind]. rewrite run_b58. cbn [mbind option_bind].
  unfold sized, str_len. rewrite Hl. cbn [Z.of_nat Z.eqb]. change (Z.of_nat 32 =? 32) with true. cbn [mbind option_bind]. rewrite Hk. cbn [ok_or rbind].
  rewrite run_b64. cbn [mbind option_bind]. rewrite run_signature. change (Z.of_nat 64 =? 64) with true. cbn [ok_or rbind].
  rewrite run_b64. cbn [mbind option_bind]. fold (str_len nonce). rewrite Hn. change (32 =? 32) with true. cbn [ok_or rbind].
  rewrite Hp. cbn [ok_or rbind]. by rewrite run_verifies.
Qed.

Lemma borsh_short s most : most ≤ U32_MAX → str_len s ≤ most → ∃ b, borsh_string s = Some b.
Proof. intros Hm Hs. eexists. apply borsh_string_ok. split; [lia | reflexivity]. Qed.
Lemma check_field_ok f n most u : check_field f n most = ROk u ↔ n ≤ most.
Proof. unfold check_field. destruct (Z.ltb_spec most n), u; split; intros; try done; lia. Qed.

(** A login the worker signs is one the verifier accepts.  [sign_nep413] never fails to
    write a payload; what it signs without a callback URL the NEP-413 verifier accepts for
    the key it names, with the message, nonce and recipient that were asked for; and it signs
    with no key of no caller. *)
Theorem login_signed_verifies keys path vault message recipient nonce url :
  (∃ r, sign_nep413 keys path vault message recipient nonce url = Some r) ∧
  (∀ s, sign_nep413 keys path vault message recipient nonce None = Some (ROk s) →
    verify_nep413 message (n4_public_key s) (n4_signature s) (b64_encode nonce) recipient = ROk tt) ∧
  (∀ d s, get_key keys path vault = ROk (d, s) → sk_caller d = NoCaller →
    ∃ e, sign_nep413 keys path vault message recipient nonce url = Some (RErr e)).
Proof.
  split_and!.
  - unfold sign_nep413. destruct (rbind _ _) as [seed|e] eqn:E; [|eauto]. apply rbind_ok in E as (key & _ & E).
    case_bool_decide; [done|]. destruct key.2 as [sd|]; [|done]. destruct (negb _); [done|].
    apply rbind_ok in E as (u1 & Hm%check_field_ok & E). apply rbind_ok in E as (u2 & Hr%check_field_ok & E).
    apply rbind_ok in E as (u3 & Hu%check_field_ok & E).
    destruct (borsh_short message MAX_NEP413_MESSAGE_BYTES) as [bm Hbm]; [done | done |].
    destruct (borsh_short recipient MAX_NEP413_RECIPIENT_BYTES) as [br Hbr]; [done | done |].
    unfold nep413_payload. rewrite Hbm, Hbr. cbn [mbind option_bind]. unfold borsh_option. destruct url as [u|]; [|cbn; eauto].
    destruct (borsh_short u MAX_NEP413_CALLBACK_URL_BYTES) as [bu Hbu]; [done | done |]. rewrite Hbu. cbn. eauto.
  - intros s. unfold sign_nep413. destruct (rbind _ _) as [seed|e] eqn:E; [|done]. apply rbind_ok in E as (key & _ & E).
    case_bool_decide; [done|]. destruct key.2 as [sd|]; [|done]. destruct (negb _) eqn:En; [done|].
    apply rbind_ok in E as (u1 & _ & E). apply rbind_ok in E as (u2 & _ & E). apply rbind_ok in E as (u3 & _ & E). injection E as ->.
    rewrite payload_plain. intros (payload & Hp & Hs)%bind_Some. injection Hs as <-. cbn [n4_public_key n4_signature].
    apply signed_verifies; [lia | done].
  - intros d s Hk Hc. unfold sign_nep413. rewrite Hk. cbn [rbind fst]. rewrite bool_decide_eq_true_2 by done. eauto.
Qed.

(** Finding: a key of no caller makes a login all the same.  Asked through [sign] for the
    digest of a NEP-413 payload, which is a message like any other, the worker answers with
    the signature the NEP-413 verifier accepts as a login of the key's account. *)
Lemma raw_sign_is_a_login (keys : SigningKeys) path seed d message nonce recipient payload :
  get_key keys path None = ROk (d, SecretEd25519 seed) → sk_caller d = NoCaller →
  str_len nonce = 32 → nep413_bytes message nonce recipient = Some payload → String.length (sha_256 payload) = 32%nat →
  ∃ signature, sign_with keys path None (sha_256 payload) = ROk signature ∧
    verify_nep413 message ("ed25519:" +:+ b58_encode (ed_public seed)) (b64_encode signature) (b64_encode nonce) recipient = ROk tt.
Proof.
  intros Hk Hc Hn Hp Hl. exists (ed_sign seed (sha_256 payload)). split; [|by apply signed_verifies].
  unfold sign_with. rewrite Hk. cbn [rbind snd]. unfold str_len. rewrite Hl. done.
Qed.
End uses.
