(* ===== verification/KeySamples.v ===== *)
(** Concrete crates, a chain and a manifest the theorems on keys and manifests apply to. *)

From S2P Require Export RunKeySafety.

(** * Crates *)

Definition plain_unicode : Unicode := {| unicode_alphanumeric := λ _, false; unicode_to_lowercase := λ s, s |}.
(** Names of two bytes and more without a colon; a name under another one ends with it. *)
Definition plain_accounts : AccountIds := {|
  account_ok := λ s, negb (has_byte ch_colon s) && negb (has_byte 32 s) && (2 <=? str_len s);
  is_sub_account_of := λ v owner, bool_decide (is_Some (KeyNames.strip_suffix ("." +:+ owner) v));
|}.

Definition fix_len (n : nat) (s : string) : string := str_take n (s +:+ zeros n).
Lemma zeros_length n : String.length (zeros n) = n.
Proof. induction n as [|n IH]; cbn; [done|]. by rewrite IH. Qed.
Lemma fix_len_length n s : String.length (fix_len n s) = n.
Proof. apply str_take_length. rewrite str_length_append, zeros_length. lia. Qed.

Definition plain_tag : string := "0123456789abcdef".
Definition plain_seal (text : string) : option string := Some (plain_tag +:+ text).
Definition plain_open (ct : string) : option string := strip_prefix plain_tag ct.
Lemma plain_opens text ct : plain_seal text = Some ct →
  plain_open ct = Some text ∧ String.length ct = (String.length text + 16)%nat.
Proof.
  intros E. assert (ct = plain_tag +:+ text) as -> by (unfold plain_seal in E; congruence).
  unfold plain_open, strip_prefix. unfold starts_with. rewrite (proj2 (prefix_append _ _)) by eauto.
  rewrite str_drop_length_app, str_length_append. split; [done|]. change (String.length plain_tag) with 16%nat. lia.
Qed.

Definition plain_key_crates : KeyCrates := {|
  mac := λ key text, fix_len 32 (str_drop 8 text +:+ key);
  hex_of := sample_hex_encode;
  ed25519_pair := λ s, (s, s);
  ed25519_sign := λ k m, fix_len 64 (k +:+ m);
  x25519_public := λ _, zeros 32;
  x25519_shared := λ _ _, "";
  hkdf_expand := λ s i, s +:+ i;
  chacha_seal := λ _ _, plain_seal;
  chacha_open := λ _ _, plain_open;
  sha2_256 := fix_len 32;
  sha3_256 := fix_len 32;
|}.
Lemma plain_key_laws : @KeyCrateLaws plain_key_crates.
Proof. split; [done | intros a; apply zeros_length | intros key nonce; exact plain_opens]. Qed.

Definition plain_crates : Crates := {|
  sha_256 := fix_len 32;
  b58_decode := sample_hex_decode;
  b64_encode := sample_hex_encode;
  b64_decode := sample_hex_decode;
  b64url_decode := sample_hex_decode;
  hex_lower := sample_hex_encode;
  ed25519_key := λ _, true;
  ed25519_verifies := λ key message signature, String.eqb signature (fix_len 32 message +:+ key);
  p256_point := λ _, true;
|}.
Definition plain_run_crates : RunCrates := {|
  run_crates := plain_crates;
  hex_decode := sample_hex_decode;
  ed_public := fix_len 32;
  ed_sign := λ seed m, fix_len 32 m +:+ fix_len 32 seed;
  secp_scalar := λ _, true;
  secp_public := fix_len 64;
  secp_sign := λ k m, Some (fix_len 64 (m +:+ k), 0);
  b58_encode := sample_hex_encode;
  xchacha_seal := λ _ _ _, plain_seal;
  xchacha_open := λ _ _ _, plain_open;
|}.
Lemma plain_run_laws : @RunCrateLaws plain_run_crates.
Proof.
  split.
  - intros key nonce aad. exact plain_opens.
  - intros seed m. apply String.eqb_refl.
  - intros seed. split; [done | apply fix_len_length].
  - intros seed m. change (ed_sign seed m) with (fix_len 32 m +:+ fix_len 32 seed). by rewrite str_length_append, !fix_len_length.
  - exact sample_hex_roundtrip.
  - exact sample_hex_roundtrip.
Qed.
Lemma plain_wire : @KeyWire plain_key_crates plain_run_crates.
Proof. split; [exact sample_hex_roundtrip | intros k t; apply fix_len_length]. Qed.

#[local] Existing Instances plain_unicode plain_accounts plain_key_crates plain_run_crates.
#[local] Existing Instances plain_key_laws plain_run_laws plain_wire.

(** * A project, its vault and a request *)

Definition sample_wasm : string := str_take 64 (sample_hex_encode (zeros 32)).
Definition obj (l : list (string * Value)) : Value := VObject l.
Definition sample_version (w hash : string) : ViewAt :=
  mkViewAt (obj [("wasm_hash", VString w); ("source", obj [("WasmUrl", obj [("hash", VString w)])])]) hash 7.
Definition sample_project (hash : string) : ViewAt :=
  mkViewAt (obj [("owner", VString "alice.near"); ("uuid", VString "p0000000000000001")]) hash 7.
Definition sample_chain : NearClient := mkNearClient
  (λ _ w b, ROk (sample_version w (default "block7" b)))
  (λ _ b, ROk (sample_project (default "block7" b)))
  (λ _, ROk (obj [("parent", VString "alice.near"); ("unlocked", VBool false)]))
  (λ _, ROk (VBool true)).
Lemma sample_blocks : answers_at_blocks sample_chain.
Proof. split; intros *; intros E; by injection E as <-. Qed.
Definition sample_mpc (vault signing path : string) : result string LoadError := ROk ("master of " +:+ vault).
Definition sample_signing : list SigningKeyRequest :=
  [mkSigningKey "records" Ed25519 ToProject Signer None; mkSigningKey "code" Ed25519 ToProject NoCaller (Some "v.alice.near")].
Definition sample_encryption : list EncryptionKeyRequest := [mkEncryptionKey "records" ToProject CkSigner None].
Definition sample_request : KeyedRequest :=
  mkKeyedRequest (Some "alice.near/app") "bob.near" (Some "bob.near") (Some sample_wasm) sample_signing sample_encryption.
Definition sample_keystore : Keystore := from_master_secret "default".
Definition sample_load : string → act Keystore unit LoadError := load_vault sample_mpc true (λ _, Some sample_chain).
Definition authorized : result AuthorizedKeys ApiError * Keystore :=
  authorize_keys sample_load (Some sample_chain) sample_request sample_keystore.

Definition is_ok {A E W} (x : result A E * W) : bool := match x.1 with ROk _ => true | RErr _ => false end.
Lemma is_ok_eq {A E W} (x : result A E * W) : is_ok x = true → ∃ a w, x = (ROk a, w).
Proof. destruct x as [[a|] w]; [by eauto | done]. Qed.
Lemma authorized_ok : is_ok authorized = true.
Proof. vm_compute. reflexivity. Qed.

(** * Keys *)

Lemma keys_for_published_build_witness : ∃ auth ks, authorized = (ROk auth, ks) ∧ ∃ p u,
  published sample_chain p sample_wasm u ∧ vault_of_owner sample_chain (pid_owner p) "v.alice.near".
Proof.
  destruct (is_ok_eq authorized authorized_ok) as (auth & ks & E). exists auth, ks. split; [exact E|].
  destruct (keys_for_published_build sample_load (Some sample_chain) sample_request sample_keystore auth ks E)
    as (project & uuid & _ & _ & c & p & wasm & u & Hc & _ & _ & Hw & _ & Hp & Hv).
  - intros c Hc. injection Hc as <-. exact sample_blocks.
  - injection Hc as <-. injection Hw as <-. exists p, u. split; [exact Hp|]. apply Hv. left.
    exists (mkSigningKey "code" Ed25519 ToProject NoCaller (Some "v.alice.near")). split; [right; left | reflexivity].
Defined.


Definition sample_validated : ValidatedKeys := Eval vm_compute in
  match validate_request (Some "alice.near/app") "bob.near" (Some "bob.near") (Some sample_wasm) sample_signing with
  | ROk v => v
  | RErr _ => mkValidatedKeys Signing None "" None "" []
  end.
Definition sample_bound : BoundKeys := Eval vm_compute in
  match KeyNames.bind sample_validated (Some "p0000000000000001") with ROk b => b | RErr _ => mkBoundKeys Signing None "" None "" [] end.
Definition sample_key : BoundKey := Eval vm_compute in
  default (mkBound "" KindEncryption ToWasm Signer None None (mkInput Signing "")) (head (bks_keys sample_bound)).
Lemma one_text_one_key_witness : KeyNames.bind sample_validated (Some "p0000000000000001") = ROk sample_bound ∧
  input_text (bk_input sample_key) = "signing-key:v1:ed25519:project:p0000000000000001:signer:bob.near:records" ∧
  input_text (bk_input sample_key) ≠ task_key_input "p0000000000000001" "bob.near".
Proof.
  assert (KeyNames.bind sample_validated (Some "p0000000000000001") = ROk sample_bound) as Hb by (vm_compute; reflexivity).
  split; [exact Hb|]. split; [vm_compute; reflexivity|].
  refine (proj1 (proj2 (one_text_one_key sample_validated (Some "p0000000000000001") sample_bound sample_key
    sample_validated (Some "p0000000000000001") sample_bound sample_key Hb Hb _ _)) _ _); left.
Defined.


(** * The cache *)

(** A pair is derived while the vault is evicted: the eviction waits for the guard. *)
Definition sample_steps : list Label :=
  [Add 1 "v" "m"; Purge 1; Lookup 2 (Some "v") "s"; Guard 2; Insert 2; Evict 1 "v"].
Definition sample_after (ls : list Label) : Sys := default (started "d") (run ls (started "d")).

Definition sample_sealed : string := Eval vm_compute in
  match encrypt sample_keystore "e" (zeros 12) None "repo:bob.near" "secret" with ROk data => data | RErr _ => "" end.
Lemma sealed_secret_opens_witness : encrypt sample_keystore "e" (zeros 12) None "repo:bob.near" "secret" = ROk sample_sealed ∧
  decrypt None "repo:bob.near" sample_sealed sample_keystore = (ROk "secret", sample_keystore).
Proof.
  assert (encrypt sample_keystore "e" (zeros 12) None "repo:bob.near" "secret" = ROk sample_sealed) as E by (vm_compute; reflexivity).
  split; [exact E|].
  exact (proj2 (proj2 (sealed_secret_opens sample_keystore "e" (zeros 12) None "repo:bob.near" "secret" sample_sealed E eq_refl))).
Defined.

Definition sample_keys : SigningKeys := {["k" := (mkSigningKey "k" Ed25519 ToProject Signer None, SecretEd25519 "seed")]}.
Definition sample_login : Nep413Signed := Eval vm_compute in
  match sign_nep413 sample_keys "k" None "hello" "app.near" (zeros 32) None with
  | Some (ROk s) => s | _ => mkNep413 "" "" "" end.
Lemma login_signed_verifies_witness : sign_nep413 sample_keys "k" None "hello" "app.near" (zeros 32) None = Some (ROk sample_login) ∧
  verify_nep413 "hello" (n4_public_key sample_login) (n4_signature sample_login) (b64_encode (zeros 32)) "app.near" = ROk tt.
Proof.
  assert (sign_nep413 sample_keys "k" None "hello" "app.near" (zeros 32) None = Some (ROk sample_login)) as E by (vm_compute; reflexivity).
  split; [exact E|].
  exact (proj1 (proj2 (login_signed_verifies sample_keys "k" None "hello" "app.near" (zeros 32) None)) sample_login E).
Defined.

(** * A manifest *)

Definition sample_raw : RawManifest :=
  mkRaw (Some "probe") None (Some [VString "Api.near.email."; obj [("host", VString "cloud-api.near.ai"); ("timeout_secs", VNumber "120")]])
    None None (Some sample_signing) (Some sample_encryption) CellSigner true false
    (Some (mkDeclared None (Some CDeny) None (Some Allow))).
Definition plain_manifests : ManifestCrates := {|
  manifest_json := λ _, ROk sample_raw;
  custom_sections := λ wasm, [(MANIFEST_SECTION, wasm)];
  is_component := λ _, true;
|}.
#[local] Existing Instance plain_manifests.
Definition sample_manifest : ProjectManifest := Eval vm_compute in
  match manifest_read "" with
  | ROk m => m
  | RErr _ => mkManifest None None None None None None None CellSigner false false None
  end.
Lemma sample_read : manifest_read "" = ROk sample_manifest.
Proof. vm_compute. reflexivity. Qed.
Definition sample_callers : Callers := mkCallers Allow CDeny Allow Allow.

Lemma callers_admitted_exactly_witness : callers sample_manifest = Some sample_callers ∧
  admit_run (Some sample_callers) (mkRunCaller false (Some "bob.near") (Some "bob.near") (Some "relay.near")) = ROk tt ∧
  admit_run (callers sample_manifest) (mkRunCaller true (Some "bob.near") None None) = ROk tt.
Proof.
  assert (callers sample_manifest = Some sample_callers) as Hc by (vm_compute; reflexivity). split; [exact Hc|]. split.
  - apply (proj1 (callers_admitted_exactly "" sample_manifest sample_callers
      (mkRunCaller false (Some "bob.near") (Some "bob.near") (Some "relay.near")) sample_read Hc)).
    exists MetaTransaction. split; [|reflexivity]. split_and!; [reflexivity | by eexists | by eexists].
  - apply (proj2 (proj2 (callers_admitted_exactly "" sample_manifest sample_callers
      (mkRunCaller true (Some "bob.near") None None) sample_read Hc))); [reflexivity|]. left. reflexivity.
Defined.


Lemma guard_refuses_reserved_witness : is_blocked_ip (V4 169 254 169 254) = true ∧
  is_blocked_ip (V6 [0; 0; 0; 0; 0; 0; 169 * 256 + 254; 169 * 256 + 254]) = true ∧
  is_blocked_ip (V6 [9734; 0; 0; 0; 0; 0; 0; 1]) = false.
Proof.
  destruct (guard_refuses_reserved 169 254 169 254 9734 0 [0; 0; 0; 0; 0; 1] []) as (E4 & _ & E6 & E & _);
    [unfold byte, word; lia.. | reflexivity | reflexivity |].
  split_and!; [rewrite E4; vm_compute; reflexivity | rewrite E6, E4; vm_compute; reflexivity | rewrite E; vm_compute; reflexivity].
Defined.

Definition sample_run : RunSource := of_job (Some "alice.near/app") (WasmUrl "https://x/y.wasm" sample_wasm "wasm32-wasip2") (Some "bob.near").
