(* ===== verification/Detector.v ===== *)
(** The monitor's race detector (outlayer-monitor/src/types.rs and detector.rs): it
    remembers the receipts of the last blocks, one for each vault and derivation path,
    and flags the second of a pair.  On a stream in block order it is the detector that
    remembers everything. *)

From S2P Require Export Statement.

Record McpReceipt := mkReceipt {
  vault_id : string;
  derivation_path : string;
  block_height : Z;
  tx_hash : string;
  receipt_id : string;
}.
Inductive Verdict :=
| FirstSeen
| RaceDetected (previous current : McpReceipt).

#[export] Instance mcp_receipt_eq : EqDecision McpReceipt.
Proof. solve_decision. Defined.
#[export] Instance verdict_eq : EqDecision Verdict.
Proof. solve_decision. Defined.

(** * The detector *)

Definition pair_of (r : McpReceipt) : string * string := (vault_id r, derivation_path r).

Record Detector := mkDetector {
  seen : gmap (string * string) McpReceipt;
  window_blocks : Z;
  high_water : Z;
}.
Definition new_detector (window_blocks : Z) : option Detector :=
  if 0 <? window_blocks then Some (mkDetector ∅ window_blocks 0) else None.
Definition tracked_pairs (d : Detector) : nat := size (seen d).

Definition evict_aged_out (d : Detector) : Detector :=
  let lower_bound := saturating_sub (high_water d) (window_blocks d) in
  mkDetector (filter (λ e : (string * string) * McpReceipt, lower_bound ≤ block_height e.2) (seen d))
    (window_blocks d) (high_water d).

Definition observe (receipt : McpReceipt) (d : Detector) : Verdict * Detector :=
  let d := if high_water d <? block_height receipt
           then evict_aged_out (mkDetector (seen d) (window_blocks d) (block_height receipt))
           else d in
  let remember r := mkDetector (<[pair_of receipt := r]> (seen d)) (window_blocks d) (high_water d) in
  match seen d !! pair_of receipt with
  | None => (FirstSeen, remember receipt)
  | Some previous =>
    let '(older, newer) := if block_height receipt <? block_height previous
                           then (receipt, previous) else (previous, receipt) in
    (RaceDetected older newer, remember older)
  end.

(** The verdicts of a stream. *)
Fixpoint observe_all (l : list McpReceipt) (d : Detector) : list Verdict * Detector :=
  match l with
  | [] => ([], d)
  | r :: l => let '(v, d) := observe r d in let '(vs, d) := observe_all l d in (v :: vs, d)
  end.

Lemma observe_all_app l l' d : observe_all (l ++ l') d =
  let '(vs, d1) := observe_all l d in let '(vs', d2) := observe_all l' d1 in (vs ++ vs', d2).
Proof.
  revert d. induction l as [|r l IH]; intros d; cbn; [by destruct (observe_all l' d)|].
  destruct (observe r d) as [v d']. rewrite IH. destruct (observe_all l d') as [vs d1].
  by destruct (observe_all l' d1).
Qed.

(** * The detector that forgets nothing

    [firsts] are the receipts found first, the last one in front; a receipt races with the
    last first one of its pair if that is no more than a window away. *)

Definition last_first (key : string * string) (firsts : list McpReceipt) : option McpReceipt :=
  head (filter (λ r, pair_of r = key) firsts).
Definition ref_observe (w : Z) (r : McpReceipt) (firsts : list McpReceipt) : Verdict * list McpReceipt :=
  match last_first (pair_of r) firsts with
  | Some p => if block_height r <=? block_height p + w then (RaceDetected p r, firsts) else (FirstSeen, r :: firsts)
  | None => (FirstSeen, r :: firsts)
  end.
Fixpoint ref_all (w : Z) (l : list McpReceipt) (firsts : list McpReceipt) : list Verdict :=
  match l with
  | [] => []
  | r :: l => let '(v, firsts) := ref_observe w r firsts in v :: ref_all w l firsts
  end.

(** * In block order *)

(** The heights of a stream do not fall, from [lo] on. *)
Fixpoint in_order (lo : Z) (l : list McpReceipt) : Prop :=
  match l with
  | [] => True
  | r :: l => lo ≤ block_height r ∧ in_order (block_height r) l
  end.

(** What is remembered is what was found first and is not older than the window. *)
Record mirrors (firsts : list McpReceipt) (d : Detector) : Prop := {
  mir_water : 0 ≤ high_water d ∧ 0 ≤ window_blocks d;
  mir_seen key p : seen d !! key = Some p ↔
    last_first key firsts = Some p ∧ high_water d ≤ block_height p + window_blocks d;
  mir_low p : p ∈ firsts → 0 ≤ block_height p ≤ high_water d;
}.

Lemma last_first_pair key firsts p : last_first key firsts = Some p → pair_of p = key ∧ p ∈ firsts.
Proof. unfold last_first. intros Hh. apply head_Some_elem_of, list_elem_of_filter in Hh. done. Qed.
Lemma last_first_cons key r firsts :
  last_first key (r :: firsts) = if decide (pair_of r = key) then Some r else last_first key firsts.
Proof. unfold last_first. rewrite filter_cons. by destruct (decide (pair_of r = key)). Qed.

Lemma mirrors_new w d : new_detector w = Some d → mirrors [] d ∧ window_blocks d = w ∧ high_water d = 0.
Proof.
  unfold new_detector. destruct (0 <? w) eqn:E; [|done]. intros [= <-]. prop_bool.
  split; [|done]. split; cbn; [lia | | by intros p Hp%elem_of_nil].
  intros key p. rewrite lookup_empty. split; [done | by intros [Hp _]].
Qed.

(** The water rises to a receipt: what falls behind the window is what no later receipt can race with. *)
Definition risen (h : Z) (d : Detector) : Detector :=
  if high_water d <? h then evict_aged_out (mkDetector (seen d) (window_blocks d) h) else d.
Lemma risen_window h d : window_blocks (risen h d) = window_blocks d.
Proof. unfold risen. by destruct (_ <? _). Qed.
Lemma risen_water h d : high_water d ≤ h → high_water (risen h d) = h.
Proof. unfold risen. intros Hh. destruct (_ <? _) eqn:E; prop_bool; cbn; lia. Qed.

Lemma mirrors_risen firsts d h : mirrors firsts d → high_water d ≤ h → mirrors firsts (risen h d).
Proof.
  intros [[H0 Hw] Hs Hl] Hh. split.
  - rewrite risen_window, risen_water by done. lia.
  - intros key p. rewrite risen_window, risen_water by done. unfold risen. destruct (_ <? _) eqn:E; prop_bool.
    + cbn. rewrite map_lookup_filter_Some, Hs. cbn. unfold saturating_sub.
      split; [intros [[Hp _] Hb]; split; [exact Hp | lia]|].
      intros [Hp Hb]. apply last_first_pair in Hp as Hin. destruct Hin as [_ Hin]. specialize (Hl _ Hin).
      repeat split; [exact Hp | lia|]. apply Z.max_lub; lia.
    + assert (high_water d = h) as <- by lia. apply Hs.
  - intros p Hp. rewrite risen_water by done. specialize (Hl p Hp). lia.
Qed.

Lemma observe_risen r d : observe r d =
  let d := risen (block_height r) d in
  let remember p := mkDetector (<[pair_of r := p]> (seen d)) (window_blocks d) (high_water d) in
  match seen d !! pair_of r with
  | None => (FirstSeen, remember r)
  | Some p =>
    let '(older, newer) := if block_height r <? block_height p then (r, p) else (p, r) in
    (RaceDetected older newer, remember older)
  end.
Proof. reflexivity. Qed.

(** One receipt, at or above the water. *)
Lemma mirrors_observe firsts r d : mirrors firsts d → high_water d ≤ block_height r →
  let '(v, firsts') := ref_observe (window_blocks d) r firsts in
  let '(v', d') := observe r d in
  v' = v ∧ mirrors firsts' d' ∧ window_blocks d' = window_blocks d ∧ high_water d' = block_height r.
Proof.
  intros Hm Hh. pose proof (mir_water _ _ Hm) as [H0 _].
  pose proof (mirrors_risen _ _ _ Hm Hh) as [Hw Hs Hl]. rewrite observe_risen. cbv zeta.
  rewrite (risen_window _ d), (risen_water _ d Hh) in *. set (D := risen (block_height r) d) in *.
  assert (Hkeep : ∀ p, seen D !! pair_of r = Some p → <[pair_of r := p]> (seen D) = seen D) by (intros; by apply insert_id).
  assert (Hself : mirrors (r :: firsts) (mkDetector (<[pair_of r := r]> (seen D)) (window_blocks d) (block_height r))).
  { split; cbn; [lia | | intros p [->|Hp]%elem_of_cons; [lia | auto]].
    intros key p. rewrite last_first_cons. destruct (decide (pair_of r = key)) as [<-|Hne].
    - rewrite lookup_insert_eq. split; [intros [= ->]; split; [done | lia] | by intros [[= ->] _]].
    - rewrite lookup_insert_ne by done. apply Hs. }
  unfold ref_observe. destruct (last_first (pair_of r) firsts) as [p|] eqn:Ep; [destruct (_ <=? _) eqn:Ew|]; prop_bool.
  - assert (Hp : seen D !! pair_of r = Some p) by (apply Hs; done).
    rewrite Hp. apply last_first_pair in Ep as [_ Hin]. pose proof (Hl _ Hin).
    destruct (_ <? _) eqn:E; prop_bool; [lia|]. rewrite Hkeep by done.
    split_and!; [done | by split | done | done].
  - destruct (seen D !! pair_of r) as [q|] eqn:Eq; [|done]. apply Hs in Eq as [Eq Hq]. rewrite Ep in Eq.
    injection Eq as ->. lia.
  - destruct (seen D !! pair_of r) as [q|] eqn:Eq; [|done]. apply Hs in Eq as [Eq Hq]. by rewrite Ep in Eq.
Qed.

Lemma mirrors_all l : ∀ firsts d, mirrors firsts d → in_order (high_water d) l →
  (observe_all l d).1 = ref_all (window_blocks d) l firsts.
Proof.
  induction l as [|r l IH]; intros firsts d Hm; cbn; [done|]. intros [Hh Ho].
  pose proof (mirrors_observe _ _ _ Hm Hh) as Hr. destruct (ref_observe _ r firsts) as [v firsts'].
  destruct (observe r d) as [v' d']. destruct Hr as (-> & Hm' & Hw & Hh').
  specialize (IH firsts' d' Hm'). rewrite Hh', Hw in IH. specialize (IH Ho).
  destruct (observe_all l d') as [vs d'']. cbn in *. by rewrite IH.
Qed.

(** * What the reference says *)

(** The verdict of a stream's receipt. *)
Definition verdicts (w : Z) (l : list McpReceipt) : list Verdict :=
  from_option (λ d, (observe_all l d).1) [] (new_detector w).

Lemma ref_all_app w l l' : ∀ firsts, ∃ firsts', ref_all w (l ++ l') firsts = ref_all w l firsts ++ ref_all w l' firsts'.
Proof.
  induction l as [|r l IH]; intros firsts; cbn; [eauto|]. destruct (ref_observe w r firsts) as [v f].
  destruct (IH f) as [f' ->]. eauto.
Qed.
Lemma ref_all_length w l : ∀ firsts, length (ref_all w l firsts) = length l.
Proof. induction l as [|r l IH]; intros firsts; cbn; [done|]. destruct (ref_observe w r firsts). cbn. by rewrite IH. Qed.

(** A first receipt stays the last first one of its pair while the heights stay inside its window. *)
Lemma ref_keeps_first w p l : ∀ firsts, last_first (pair_of p) firsts = Some p →
  Forall (λ r, block_height r ≤ block_height p + w) l →
  ∀ r k, l !! k = Some r → pair_of r = pair_of p → ref_all w l firsts !! k = Some (RaceDetected p r).
Proof.
  induction l as [|x l IH]; intros firsts Hp Hl r k; [done|]. apply Forall_cons in Hl as [Hx Hl]. cbn.
  destruct (ref_observe w x firsts) as [v f] eqn:E. unfold ref_observe in E.
  assert (Hf : last_first (pair_of p) f = Some p ∧ (pair_of x = pair_of p → v = RaceDetected p x)).
  { destruct (decide (pair_of x = pair_of p)) as [Hk|Hk].
    - rewrite Hk, Hp in E. rewrite (proj2 (Z.leb_le _ _)) in E by done. injection E as <- <-. done.
    - split; [|done]. destruct (last_first (pair_of x) firsts) as [q|]; [destruct (_ <=? _)|];
        injection E as <- <-; [done | |]; rewrite last_first_cons, decide_False by done; done. }
  destruct Hf as [Hf Hv]. destruct k as [|k]; cbn; [|by apply IH].
  intros [= ->] Hk. by rewrite Hv.
Qed.

Lemma in_order_between l : ∀ lo i a, in_order lo l → l !! i = Some a →
  lo ≤ block_height a ∧ ∀ j b, (i <= j)%nat → l !! j = Some b → block_height a ≤ block_height b.
Proof.
  induction l as [|r l IH]; intros lo i a; [done|]. intros [Hr Ho]. destruct i as [|i]; cbn.
  - intros [= ->]. split; [done|]. intros [|j] b _; cbn; [intros [= ->]; lia|]. intros Hb.
    by apply (IH _ _ _ Ho Hb).
  - intros Ha. destruct (IH _ _ _ Ho Ha) as [Hlo Hl]. split; [lia|]. intros [|j] b Hij Hb; [lia|].
    apply (Hl j b); [lia | done].
Qed.

(** ** Nothing is missed, and nothing is made up *)

Lemma ref_verdict w l : ∀ firsts i a, l !! i = Some a → ∃ firsts',
  drop i (ref_all w l firsts) = (ref_observe w a firsts').1 :: ref_all w (drop (S i) l) (ref_observe w a firsts').2.
Proof.
  induction l as [|r l IH]; intros firsts i a; [done|]. destruct i as [|i]; cbn.
  - intros [= ->]. exists firsts. destruct (ref_observe w a firsts). done.
  - intros Ha. destruct (ref_observe w r firsts) as [v f]. cbn. by apply IH.
Qed.

Lemma ref_pair_flagged w l firsts i j a b :
  l !! i = Some a → l !! j = Some b → (i < j)%nat → pair_of a = pair_of b →
  (∀ k x, (i <= k <= j)%nat → l !! k = Some x → block_height x ≤ block_height a + w) →
  (∃ p, ref_all w l firsts !! i = Some (RaceDetected p a)) ∨
  ref_all w l firsts !! j = Some (RaceDetected a b).
Proof.
  intros Ha Hb Hij Hk Hw. destruct (ref_verdict w l firsts i a Ha) as [f Hf].
  assert (Hi : ref_all w l firsts !! i = Some (ref_observe w a f).1).
  { rewrite <- (Nat.add_0_r i) at 1. rewrite <- lookup_drop, Hf. done. }
  destruct (ref_observe w a f) as [v f'] eqn:E. cbn in Hi, Hf.
  assert (Hv : (∃ p, v = RaceDetected p a) ∨ last_first (pair_of a) f' = Some a).
  { unfold ref_observe in E. destruct (last_first (pair_of a) f) as [p|] eqn:Ep; [destruct (_ <=? _)|];
      injection E as <- <-; [left; eauto | |]; right; rewrite last_first_cons; by rewrite decide_True. }
  destruct Hv as [[p ->]|Hv]; [left; eauto | right].
  set (m := (j - S i)%nat). set (D := drop (S i) l) in *.
  replace j with (i + S m)%nat by lia. rewrite <- lookup_drop, Hf.
  change (ref_all w D f' !! m = Some (RaceDetected a b)).
  assert (Hm : ref_all w D f' !! m = ref_all w (take (S m) D) f' !! m).
  { destruct (ref_all_app w (take (S m) D) (drop (S m) D) f') as [f'' Happ]. rewrite take_drop in Happ.
    rewrite Happ. apply lookup_app_l. rewrite ref_all_length, length_take.
    apply lookup_lt_Some in Hb. unfold D. rewrite length_drop. lia. }
  rewrite Hm. apply (ref_keeps_first w a (take (S m) D) f' Hv); [| |done].
  - apply Forall_lookup. intros k x Hx. apply lookup_take_Some in Hx as [Hx Hlt]. unfold D in Hx.
    rewrite lookup_drop in Hx. apply (Hw (S i + k)%nat); [lia | done].
  - apply lookup_take_Some. split; [|lia]. unfold D. rewrite lookup_drop. by replace (S i + m)%nat with j by lia.
Qed.

Lemma ref_flag_real w l : ∀ firsts j p c, ref_all w l firsts !! j = Some (RaceDetected p c) →
  l !! j = Some c ∧ pair_of p = pair_of c ∧ block_height c ≤ block_height p + w ∧
  (p ∈ firsts ∨ ∃ i, (i < j)%nat ∧ l !! i = Some p ∧ ref_all w l firsts !! i = Some FirstSeen).
Proof.
  induction l as [|r l IH]; intros firsts j p c; [done|]. cbn.
  destruct (ref_observe w r firsts) as [v f] eqn:E. unfold ref_observe in E. destruct j as [|j]; cbn.
  - intros [= ->]. destruct (last_first (pair_of r) firsts) as [q|] eqn:Eq; [destruct (_ <=? _) eqn:Ew|]; [|done..].
    injection E as -> -> ->. prop_bool. apply last_first_pair in Eq as [? ?]. auto.
  - intros Hj. destruct (IH _ _ _ _ Hj) as (Hc & Hk & Hw & Hp). split_and!; [done..|].
    assert (Hf : p ∈ f → p ∈ firsts ∨ (v = FirstSeen ∧ p = r)).
    { destruct (last_first (pair_of r) firsts) as [q|]; [destruct (_ <=? _)|]; injection E as <- <-;
        intros Hin; auto; apply elem_of_cons in Hin as [->|]; auto. }
    destruct Hp as [Hp|(i & Hi & Hp & Hv)].
    + apply Hf in Hp as [|[-> ->]]; [by left | right]. exists 0%nat. split_and!; [lia | done | done].
    + right. exists (S i). split_and!; [lia | done | done].
Qed.

Lemma in_order_app lo b l l' :
  in_order lo l → lo ≤ b → (∀ r, r ∈ l → block_height r ≤ b) → in_order b l' → in_order lo (l ++ l').
Proof.
  revert lo. induction l as [|r l IH]; intros lo; cbn.
  - intros _ Hb _. destruct l' as [|r l']; cbn; [done|]. intros [? ?]. split; [lia | done].
  - intros [Hr Ho] Hb Hl Ho'. split; [done|]. apply IH; [done | apply Hl; by left | | done].
    intros x Hx. apply Hl. by right.
Qed.

(** Two receipts of a pair within a window: the later is flagged, or the earlier was. *)
Lemma ref_race_flagged w l1 a l2 b l3 : let l := l1 ++ a :: l2 ++ b :: l3 in
  in_order 0 l → pair_of a = pair_of b → block_height b ≤ block_height a + w →
  ∃ p c, RaceDetected p c ∈ ref_all w l [] ∧ (c = a ∨ p = a ∧ c = b).
Proof.
  intros l Ho Hk Hw. set (i := length l1). set (j := (i + S (length l2))%nat).
  assert (Ha : l !! i = Some a) by (unfold l, i; by rewrite list_lookup_middle).
  assert (Hb : l !! j = Some b).
  { unfold l, j, i. rewrite lookup_app_r by lia. replace (_ + _ - _)%nat with (S (length l2)) by lia.
    change ((l2 ++ b :: l3) !! length l2 = Some b). by rewrite list_lookup_middle. }
  destruct (ref_pair_flagged w l [] i j a b) as [[p Hp]|Hp]; try done; [lia | | |].
  - intros k x [Hik Hkj] Hx. destruct (in_order_between l 0 k x Ho Hx) as [_ Hle].
    specialize (Hle j b Hkj Hb). lia.
  - exists p, a. split; [by eapply list_elem_of_lookup_2 | by left].
  - exists a, b. split; [by eapply list_elem_of_lookup_2 | by right].
Qed.
