(* ===== verification/Monitor.v ===== *)
(** The monitor (outlayer-monitor): it reads finalized blocks from a feed, hands the MPC
    calls to the detector and the vaults' log lines to the coordinator, and asks the
    keystore to ban and to evict.  The web answers what it likes ([Web]); the monitor's
    file may refuse a write. *)

From S2P Require Export Detector.

(** * Reasons and log lines *)

(** [str::char_indices] of well-formed text: where its characters start. *)
Fixpoint char_starts (i : nat) (l : list Z) : list nat :=
  match l with
  | [] => []
  | b :: l => if cont b then char_starts (S i) l else i :: char_starts (S i) l
  end.
Fixpoint take_while {A} (p : A → bool) (l : list A) : list A :=
  match l with
  | [] => []
  | a :: l => if p a then a :: take_while p l else []
  end.
(** [.char_indices().take_while(..).last().map(|(i, _)| i).unwrap_or(0)] *)
Definition last_start (p : nat → bool) (s : string) : nat :=
  default 0%nat (last (take_while p (char_starts 0 (str_bytes s)))).
(** [str::is_char_boundary]: [&s[..n]] panics elsewhere. *)
Definition is_char_boundary (s : string) (n : nat) : bool :=
  (n =? 0)%nat || (n =? String.length s)%nat ||
  match str_bytes s !! n with Some b => negb (cont b) | None => false end.

Definition DPATH_MAX : nat := 116.
Definition dpath_cut (path : string) : nat := last_start (λ i, i <=? DPATH_MAX)%nat path.
Definition reason_cut (s : string) : nat := last_start (λ i, i <? 256)%nat s.
Definition ban_reason_text (previous current : McpReceipt) : string :=
  let path := derivation_path current in
  let dpath := if (String.length path <=? DPATH_MAX)%nat then path else str_take (dpath_cut path) path in
  "duplicate_mpc_call previous=" +:+ tx_hash previous +:+ " current=" +:+ tx_hash current +:+
  " dpath=" +:+ dpath.
Definition ban_reason (previous current : McpReceipt) : string :=
  let s := ban_reason_text previous current in
  if (256 <? String.length s)%nat then str_take (reason_cut s) s else s.

Definition VAULT_EVENTS : list string :=
  [ "recovery_initiated_cessation"; "recovery_initiated_unilateral"; "recovery_finalized_cessation";
    "recovery_finalized_unilateral"; "recovery_finalize_swap_failed"; "recovery_finalize_failed_dao_call";
    "recovery_window_expired"; "recovery_cancelled_dao_revoked"; "vault_tee_key_added" ].
Definition DAO_EVENTS : list string := [ "vault_banned"; "vault_unbanned"; "vault_verified" ].

Definition ends_with (s suffix : string) : bool :=
  (String.length suffix <=? String.length s)%nat &&
  String.eqb (str_drop (String.length s - String.length suffix) s) suffix.

(** The bytes before the first white space, and [split_whitespace().next().unwrap_or("")]. *)
Fixpoint until_space (l : list Z) : list Z :=
  match l with
  | [] => []
  | a :: l0 =>
    if ws1 a || match l0 with b :: l1 => ws2 a b || match l1 with c :: _ => ws3 a b c | [] => false end
                            | [] => false end
    then [] else a :: until_space l0
  end.
Definition first_word (s : string) : string := str_of_bytes (until_space (trim_front ws2 ws3 (str_bytes s))).

Fixpoint parse_dao_log (events : list string) (trimmed : string) : option (string * string) :=
  match events with
  | [] => None
  | ev :: events =>
    match strip_prefix (ev +:+ " ") trimmed with
    | Some rest => let vault := first_word rest in if str_is_empty vault then None else Some (ev, vault)
    | None => parse_dao_log events trimmed
    end
  end.
Definition parse_vault_log (log executor_id keystore_dao_id : string) : option (string * string) :=
  let trimmed := str_trim log in
  if bool_decide (trimmed ∈ VAULT_EVENTS) then Some (trimmed, executor_id) else
  if starts_with trimmed "exit_window_set_to_" && ends_with trimmed "_secs" then Some ("exit_window_set", executor_id) else
  if starts_with trimmed "vault_tee_keys_cleared" then Some ("vault_tee_keys_cleared", executor_id) else
  if negb (String.eqb executor_id keystore_dao_id) then None else
  parse_dao_log DAO_EVENTS trimmed.

(** * Events *)

Record VaultEventReceipt := mkVaultEvent {
  ve_emitting_account : string;
  ve_vault_id : string;
  ve_event_type : string;
  ve_raw_log : string;
  ve_block_height : Z;
  ve_tx_hash : string;
  ve_receipt_id : string;
}.
Inductive StreamEvent :=
| Mcp (receipt : McpReceipt)
| Vault (event : VaultEventReceipt).

(** * The web and the file *)

Inductive Auth := NoAuth | Bearer (token : string) | InternalWallet (token : string).
Inductive Request :=
| Get (url : string)
| Post (url : string) (auth : Auth) (body : Value).
Inductive HttpReply := Unreachable | Reply (status : Z) (body : string).
(** What the monitor has done to the world: requests, and lines on its output. *)
Inductive Effect := Sent (r : Request) | Printed (line : Value).

Class Web := {
  answer : list Effect → Request → HttpReply;  (* after what was done so far *)
  file_takes : list Effect → bool;             (* is a write of the checkpoint carried out? *)
  json_of : string → option Value;             (* serde_json *)
  json_text : Value → string;
  decode64 : string → option string;           (* base64, the standard alphabet *)
  encode64 : string → string;
}.

Record LakeSourceConfig := mkLakeConfig {
  mpc_contract_id : string;
  lake_dao_id : string;
  start_block_height : Z;
  network : string;
  checkpoint_path : option string;
}.
Record CheckpointFile := mkCheckpoint { version : Z; last_processed_block : Z }.
(** No file, a file that cannot be read, a checkpoint. *)
Inductive Disk := NoFile | Unreadable | Checkpoint (c : CheckpointFile).

(** ** JSON *)

Definition value_array (v : Value) : option (list Value) := match v with VArray l => Some l | _ => None end.
Definition value_is_null (v : Value) : bool := match v with VNull => true | _ => false end.
Definition value_at (path : list string) (v : Value) : option Value :=
  foldl (λ o k, v ← o; value_get k v) (Some v) path.
Definition text_at (name : string) (v : Value) : string := default "" (x ← value_get name v; value_str x).

(** * Extraction *)

Section extract.
Context `{Web}.

Definition mcp_of_action (predecessor tx_hash receipt_id : string) (block_height : Z) (action : Value)
    : option StreamEvent :=
  fc ← value_get "FunctionCall" action;
  if negb (String.eqb (text_at "method_name" fc) "request_app_private_key") then None else
  let path := default "" (args ← value_get "args" fc; text ← value_str args; bytes ← decode64 text;
                          json ← json_of bytes; path ← value_get "derivation_path" json; value_str path) in
  if str_is_empty path then None else Some (Mcp (mkReceipt predecessor path block_height tx_hash receipt_id)).

(** [chars().take(n).collect()] *)
Definition take_chars (n : nat) (s : string) : string :=
  str_take (default (String.length s) (char_starts 0 (str_bytes s) !! n)) s.
Definition event_of_log (config : LakeSourceConfig) (executor_id tx_hash receipt_id : string) (block_height : Z)
    (log : Value) : option StreamEvent :=
  log_str ← value_str log;
  '(event_type, vault) ← parse_vault_log log_str executor_id (lake_dao_id config);
  Some (Vault (mkVaultEvent executor_id vault event_type (take_chars 256 log_str) block_height tx_hash receipt_id)).

Definition extract_outcome (config : LakeSourceConfig) (block_height : Z) (outcome : Value) : list StreamEvent :=
  match value_get "receipt" outcome with
  | None => []
  | Some receipt =>
    let predecessor := text_at "predecessor_id" receipt in
    let receipt_id := text_at "receipt_id" receipt in
    let tx_hash := text_at "tx_hash" outcome in
    let calls :=
      if String.eqb (text_at "receiver_id" receipt) (mpc_contract_id config) && negb (str_is_empty predecessor)
      then omap (mcp_of_action predecessor tx_hash receipt_id block_height)
             (default [] (value_at ["receipt"; "Action"; "actions"] receipt ≫= value_array))
      else [] in
    let logs :=
      if str_is_empty (lake_dao_id config) then [] else
      match value_at ["execution_outcome"; "outcome"; "logs"] outcome ≫= value_array with
      | None => []
      | Some logs =>
        let executor_id := default "" (value_at ["execution_outcome"; "outcome"; "executor_id"] outcome ≫= value_str) in
        omap (event_of_log config executor_id tx_hash receipt_id block_height) logs
      end in
    calls ++ logs
  end.
Definition extract_receipts (config : LakeSourceConfig) (block : Value) (block_height : Z) : list StreamEvent :=
  shard ← default [] (value_get "shards" block ≫= value_array);
  outcome ← default [] (value_get "receipt_execution_outcomes" shard ≫= value_array);
  extract_outcome config block_height outcome.
End extract.

(** * Requests *)

Section sinks.
Context `{Web}.
Abbreviation Wire := (list Effect).

Definition is_success (status : Z) : bool := in_range 200 299 status.
Definition is_server_error (status : Z) : bool := in_range 500 599 status.
(** [error_for_status] *)
Definition is_error (status : Z) : bool := in_range 400 599 status.

(** [send().await.context(..)?] *)
Definition send (what : string) (r : Request) : act Wire (Z * string) string := λ did,
  (match answer did r with Unreachable => RErr what | Reply status body => ROk (status, body) end, did ++ [Sent r]).
Definition print_line (line : Value) : act Wire unit string := λ did, (ROk tt, did ++ [Printed line]).

(** ** The keystore *)

Record KeystoreActionSink := mkSink {
  keystore_base_url : string;
  sink_token : string;
  auto_ban_enabled : bool;
}.
Definition vault_and_reason (vault reason : string) : Value :=
  VObject [("vault_id", VString vault); ("reason", VString reason)].
Definition ban_request (sink : KeystoreActionSink) (vault reason : string) : Request :=
  Post (keystore_base_url sink +:+ "/admin/ban-vault") (Bearer (sink_token sink)) (vault_and_reason vault reason).
Definition evict_request (sink : KeystoreActionSink) (vault reason : string) : Request :=
  Post (keystore_base_url sink +:+ "/admin/evict-customer") (Bearer (sink_token sink)) (vault_and_reason vault reason).

Definition ban_and_evict (sink : KeystoreActionSink) (previous current : McpReceipt) : act Wire unit string :=
  let reason := ban_reason previous current in
  if negb (auto_ban_enabled sink) then give tt else
  let^ '(status, body) := send "ban-vault POST failed" (ban_request sink (vault_id current) reason) in
  if negb (is_success status) && negb (is_server_error status)
  then stop ("/admin/ban-vault returned " +:+ uint_to_string status +:+ ": " +:+ body) else
  let^ _ := send "evict-customer POST failed" (evict_request sink (vault_id current) reason) in
  give tt.
Definition evict_on_recovery_finalize (sink : KeystoreActionSink) (vault trigger : string) : act Wire unit string :=
  let^ _ := send "evict-customer POST failed (recovery-finalize)"
              (evict_request sink vault ("recovery_finalize:" +:+ trigger)) in
  give tt.

(** ** Alerts *)

Inductive Alerter :=
| SlackAlerter (webhook_url : string)
| TelegramAlerter (bot_token chat_id : string)
| StdoutAlerter.

Definition receipt_json (r : McpReceipt) : Value :=
  VObject [("block_height", number (block_height r)); ("tx_hash", VString (tx_hash r));
           ("receipt_id", VString (receipt_id r))].
Definition race_fields (previous current : McpReceipt) : list (string * Value) :=
  [("event", VString "race_attack_detected"); ("vault_id", VString (vault_id current));
   ("derivation_path", VString (derivation_path current));
   ("previous", receipt_json previous); ("current", receipt_json current)].
Definition slack_summary (previous current : McpReceipt) : string :=
  "🚨 RACE ATTACK on vault `" +:+ vault_id current +:+ "` — duplicate `request_app_private_key` calls (dpath `"
  +:+ derivation_path current +:+ "`) at blocks " +:+ uint_to_string (block_height previous) +:+ " and "
  +:+ uint_to_string (block_height current) +:+ ". txs: " +:+ tx_hash previous +:+ " / " +:+ tx_hash current +:+ ".".
Definition NL : string := String "010" EmptyString.
Definition telegram_text (previous current : McpReceipt) : string :=
  "🚨 RACE ATTACK" +:+ NL +:+ NL +:+ "Vault: " +:+ vault_id current +:+ NL +:+ "Derivation path: "
  +:+ derivation_path current +:+ NL +:+ "Blocks: " +:+ uint_to_string (block_height previous) +:+ " → "
  +:+ uint_to_string (block_height current) +:+ NL +:+ "Txs: " +:+ tx_hash previous +:+ NL +:+ "     "
  +:+ tx_hash current +:+ NL +:+ "Receipts: " +:+ receipt_id previous +:+ NL +:+ "          " +:+ receipt_id current.

(** What an alerter does about a race. *)
Definition alert_effect (a : Alerter) (previous current : McpReceipt) : Effect :=
  match a with
  | SlackAlerter url =>
    Sent (Post url NoAuth (VObject (("text", VString (slack_summary previous current)) :: race_fields previous current)))
  | TelegramAlerter bot_token chat_id =>
    Sent (Post ("https://api.telegram.org/bot" +:+ bot_token +:+ "/sendMessage") NoAuth
      (VObject [("chat_id", VString chat_id); ("text", VString (telegram_text previous current));
                ("disable_web_page_preview", VBool true)]))
  | StdoutAlerter => Printed (VObject (race_fields previous current))
  end.
Definition alert (a : Alerter) (previous current : McpReceipt) : act Wire unit string :=
  let what := match a with SlackAlerter _ => "Slack webhook POST failed" | _ => "Telegram sendMessage" end in
  match alert_effect a previous current with
  | Sent r => let^ _ := send what r in give tt
  | Printed line => print_line line
  end.

(** Both sinks are tried; their failures are logged. *)
Definition attempt (m : act Wire unit string) : act Wire unit string := λ did, (ROk tt, (m did).2).
Definition handle_verdict (v : Verdict) (sink : KeystoreActionSink) (a : Alerter) : act Wire unit string :=
  match v with
  | FirstSeen => give tt
  | RaceDetected previous current =>
    let^ _ := attempt (alert a previous current) in
    attempt (ban_and_evict sink previous current)
  end.

(** ** The coordinator *)

Record Forwarder := mkForwarder {
  coordinator_base_url : string;
  forward_token : string;
  near_rpc_url : string;
  forward_dao_id : string;
}.

Definition rpc_request (f : Forwarder) (contract method : string) (args : Value) : Request :=
  Post (near_rpc_url f) NoAuth (VObject
    [("jsonrpc", VString "2.0"); ("id", VString "cross-check"); ("method", VString "query");
     ("params", VObject
       [("request_type", VString "call_function"); ("finality", VString "final"); ("account_id", VString contract);
        ("method_name", VString method); ("args_base64", VString (encode64 (json_text args)))])]).
Definition read_view (body : string) : result Value string :=
  let? json := ok_or (json_of body) "rpc cross-check body" in
  if bool_decide (is_Some (value_at ["result"; "error"] json)) then ROk VNull else
  let? bytes_arr := ok_or (value_at ["result"; "result"] json ≫= value_array)
                      "missing result.result in RPC response" in
  let bytes := omap (λ v, (λ n, n mod 256) <$> value_u64 v) bytes_arr in
  match bytes with
  | [] => ROk VNull
  | _ => ROk (default VNull (json_of (str_of_bytes bytes)))
  end.
Definition view_call (f : Forwarder) (contract method : string) (args : Value) : act Wire Value string :=
  let^ '(_, body) := send "rpc cross-check POST" (rpc_request f contract method args) in
  lift (read_view body).

Definition for_vault (vault : string) : Value := VObject [("vault_id", VString vault)].
Definition cross_check (f : Forwarder) (ev : VaultEventReceipt) : act Wire bool string :=
  let view_dao method := view_call f (forward_dao_id f) method (for_vault (ve_vault_id ev)) in
  let view_vault method := view_call f (ve_vault_id ev) method (VObject []) in
  let kind := ve_event_type ev in
  if String.eqb kind "vault_banned" then
    let^ v := view_dao "is_vault_banned" in give (bool_decide (value_bool v = Some true)) else
  if String.eqb kind "vault_unbanned" then
    let^ v := view_dao "is_vault_banned" in give (bool_decide (value_bool v = Some false)) else
  if String.eqb kind "vault_verified" then
    let^ v := view_dao "is_vault_verified" in give (bool_decide (value_bool v = Some true)) else
  if bool_decide (kind ∈ ["recovery_initiated_cessation"; "recovery_initiated_unilateral"]) then
    let^ state := view_vault "get_recovery_state" in give (negb (value_is_null state)) else
  if bool_decide (kind ∈ ["recovery_finalized_cessation"; "recovery_finalized_unilateral"]) then
    let^ state := view_vault "get_state" in
    give (bool_decide ((u ← value_get "unlocked" state; value_bool u) = Some true)) else
  if bool_decide (kind ∈ ["recovery_window_expired"; "recovery_cancelled_dao_revoked"]) then
    let^ state := view_vault "get_recovery_state" in give (value_is_null state) else
  if String.eqb kind "exit_window_set" then
    let^ state := view_vault "get_exit_window" in give (bool_decide (is_Some (value_u64 state))) else
  if String.eqb kind "vault_tee_key_added" then
    let^ keys := view_vault "get_registered_keys" in
    give (from_option (λ l, negb (bool_decide (l = []))) false (value_array keys)) else
  give false.

Definition forward_request (f : Forwarder) (ev : VaultEventReceipt) : Request :=
  Post (coordinator_base_url f +:+ "/internal/vault-event") (InternalWallet (forward_token f)) (VObject
    [("vault_account_id", VString (ve_vault_id ev)); ("event_type", VString (ve_event_type ev));
     ("payload", VObject
       [("block_height", number (ve_block_height ev)); ("tx_hash", VString (ve_tx_hash ev));
        ("receipt_id", VString (ve_receipt_id ev)); ("raw_log", VString (ve_raw_log ev));
        ("emitting_account", VString (ve_emitting_account ev))])]).
Definition forward (f : Forwarder) (ev : VaultEventReceipt) : act Wire unit string := λ did,
  match cross_check f ev did with
  | (ROk true, did) => (let^ _ := send "/internal/vault-event POST" (forward_request f ev) in give tt) did
  | (_, did) => (ROk tt, did)
  end.
End sinks.

(** * The monitor *)

Record Setup := mkSetup {
  lake : LakeSourceConfig;
  actions : KeystoreActionSink;
  alerter : Alerter;
  forwarder : option Forwarder;
  window : Z;
}.
Record Monitor := mkMonitor {
  next_height : Z;
  buffer : list StreamEvent;
  disk : Disk;
  detector : Detector;
  did : list Effect;
}.
Definition eta_monitor (m : Monitor) : Monitor :=
  mkMonitor (next_height m) (buffer m) (disk m) (detector m) (did m).
#[export] Instance set_next_height : Setter next_height := ltac:(derive_setter eta_monitor).
#[export] Instance set_buffer : Setter buffer := ltac:(derive_setter eta_monitor).
#[export] Instance set_disk : Setter disk := ltac:(derive_setter eta_monitor).
#[export] Instance set_detector : Setter detector := ltac:(derive_setter eta_monitor).
#[export] Instance set_did : Setter did := ltac:(derive_setter eta_monitor).

Section monitor.
Context `{Web} (setup : Setup).

(** [n + 1] on a [u64]; the crate is built without overflow checks. *)
Definition u64_succ (n : Z) : Z := (n + 1) mod 2 ^ 64.

Definition read_checkpoint (d : Disk) : option CheckpointFile :=
  match d with Checkpoint c => if version c =? 1 then Some c else None | _ => None end.
Definition write_checkpoint (height : Z) : act Monitor unit string := λ m,
  match checkpoint_path (lake setup) with
  | None => (ROk tt, m)
  | Some _ => if file_takes (did m) then (ROk tt, m <| disk := Checkpoint (mkCheckpoint 1 height) |>)
              else (RErr "checkpoint write failed", m)
  end.

(** [LakeSource::new] and [Detector::new], on the file and after the effects of earlier runs. *)
Definition first_height (d : Disk) : Z :=
  match checkpoint_path (lake setup), d with
  | None, _ | _, NoFile => start_block_height (lake setup)
  | Some _, _ =>
    match read_checkpoint d with
    | Some c => u64_succ (last_processed_block c)
    | None => start_block_height (lake setup)
    end
  end.
Definition start (d : Disk) (done : list Effect) : option Monitor :=
  detector ← new_detector (window setup);
  Some (mkMonitor (first_height d) [] d detector done).

(** Requests are made on the wire. *)
Definition on_wire {A} (m : act (list Effect) A string) : act Monitor A string := λ mon,
  let '(r, wire) := m (did mon) in (r, mon <| did := wire |>).

Definition base_url : string := "https://" +:+ network (lake setup) +:+ ".neardata.xyz".
Definition last_url : string := base_url +:+ "/v0/last_block/final".
Definition block_url (h : Z) : string := base_url +:+ "/v0/block/" +:+ uint_to_string h.
(** [error_for_status()?.json().await?] *)
Definition json_reply (reply : Z * string) : result Value string :=
  if is_error reply.1 then RErr "status" else ok_or (json_of reply.2) "parse".

Definition fetch_one_block : act Monitor nat string :=
  let^ reply := on_wire (send "fetch /v0/last_block/final" (Get last_url)) in
  let^ json := lift (json_reply reply) in
  let^ last_final := lift (ok_or (value_at ["block"; "header"; "height"] json ≫= value_u64)
                             "missing block.header.height in last_block response") in
  λ m, let h := next_height m in
  if last_final <? h then (ROk 0%nat, m) else
  (let^ reply := on_wire (send "fetch block" (Get (block_url h))) in
   if reply.1 =? 404 then
     let^ _ := λ m, (ROk tt, m <| next_height := u64_succ h |>) in
     let^ _ := write_checkpoint h in
     give 0%nat
   else
   let^ block := lift (json_reply reply) in
   let events := extract_receipts (lake setup) block h in
   λ m,
   let m := m <| buffer := buffer m ++ events |> <| next_height := u64_succ h |> in
   (ROk (length events), (write_checkpoint h m).2)) m.

(** ** What is done about an event *)

Definition recovery_trigger (event_type : string) : option string :=
  if starts_with event_type "recovery_finalized_unilateral" then Some "unilateral" else
  if starts_with event_type "recovery_finalized_cessation" then Some "cessation" else None.
Definition dispatch (ev : StreamEvent) (m : Monitor) : Monitor :=
  match ev with
  | Mcp receipt =>
    let '(verdict, d) := observe receipt (detector m) in
    m <| detector := d |> <| did := (handle_verdict verdict (actions setup) (alerter setup) (did m)).2 |>
  | Vault event =>
    let wire := match forwarder setup with
                | Some f => (forward f event (did m)).2
                | None => did m
                end in
    let wire := match recovery_trigger (ve_event_type event) with
                | Some trigger => (evict_on_recovery_finalize (actions setup) (ve_vault_id event) trigger wire).2
                | None => wire
                end in
    m <| did := wire |>
  end.

(** One turn of the loops of [run] and [next]: an event of the buffer is handled, or the
    next block is asked for (and asked for again, later, when that failed). *)
Definition turn (m : Monitor) : Monitor :=
  match buffer m with
  | ev :: rest => dispatch ev (m <| buffer := rest |>)
  | [] => (fetch_one_block m).2
  end.
Definition run (turns : nat) (m : Monitor) : Monitor := Nat.iter turns turn m.

(** The process dies and is started again; the file and the world stay. *)
Definition restart (m : Monitor) : option Monitor := start (disk m) (did m).
End monitor.

(** * The command line *)

Record Cli := mkCli {
  cli_network : string;
  cli_mpc_contract : option string;
  cli_keystore_dao : option string;
  cli_start_block : Z;
  cli_window_blocks : Z;
  cli_keystore_url : string;
  cli_worker_token : string;
  cli_auto_ban_enabled : bool;
  cli_slack_webhook_url : option string;
  cli_telegram_bot_token : option string;
  cli_telegram_chat_id : option string;
  cli_checkpoint_path : option string;
  cli_coordinator_url : option string;
  cli_near_rpc_url : option string;
}.
Definition default_mpc_contract (network : string) : string :=
  if String.eqb network "mainnet" then "v1.signer" else "v1.signer-prod.testnet".
Definition default_keystore_dao (network : string) : string :=
  if String.eqb network "mainnet" then "dao.outlayer.near" else "dao.outlayer.testnet".
Definition default_rpc_url (network : string) : string :=
  if String.eqb network "mainnet" then "https://rpc.mainnet.fastnear.com" else "https://rpc.testnet.fastnear.com".

(** [main], built with the feed; [None] when it exits. *)
Definition setup_of (cli : Cli) : option Setup :=
  let mpc_contract := default (default_mpc_contract (cli_network cli)) (cli_mpc_contract cli) in
  let keystore_dao_id := default (default_keystore_dao (cli_network cli)) (cli_keystore_dao cli) in
  let near_rpc_url := default (default_rpc_url (cli_network cli)) (cli_near_rpc_url cli) in
  if bool_decide (is_Some (cli_telegram_bot_token cli)) && bool_decide (cli_telegram_chat_id cli = None) then None else
  Some (mkSetup
    (mkLakeConfig mpc_contract keystore_dao_id (cli_start_block cli) (cli_network cli) (cli_checkpoint_path cli))
    (mkSink (cli_keystore_url cli) (cli_worker_token cli) (cli_auto_ban_enabled cli))
    (match cli_slack_webhook_url cli, cli_telegram_bot_token cli, cli_telegram_chat_id cli with
     | Some url, _, _ => SlackAlerter url
     | None, Some token, Some chat => TelegramAlerter token chat
     | _, _, _ => StdoutAlerter
     end)
    ((λ url, mkForwarder url (cli_worker_token cli) near_rpc_url keystore_dao_id) <$> cli_coordinator_url cli)
    (cli_window_blocks cli)).
