(* ===== verification/MonitorSafety.v ===== *)
(** What the monitor guarantees: fed by a feed that tells the chain, whenever it tells
    anything, it has seen the chain's receipts once and in order, alerts every race and
    bans for nothing else. *)

From S2P Require Export Monitor.

(** * What is put on the wire *)

(** The effects [m] adds satisfy [P]. *)
Definition only {A} (P : Effect → Prop) (m : act (list Effect) A string) : Prop :=
  ∀ did, ∃ l, (m did).2 = did ++ l ∧ Forall P l.
(** [m] puts [e] on the wire, whatever is answered. *)
Definition surely {A} (e : Effect) (m : act (list Effect) A string) : Prop :=
  ∀ did, e ∈ (m did).2.

Section only.
Context `{Web} (P : Effect → Prop).
Abbreviation Wire := (list Effect).

Lemma only_same {A} (r : result A string) : only P (λ did, (r, did)).
Proof. intros did. exists []. by rewrite app_nil_r. Qed.
Lemma only_give {A} (a : A) : only P (give a).
Proof. apply only_same. Qed.
Lemma only_stop {A} e : only P (stop (A := A) e).
Proof. apply only_same. Qed.
Lemma only_lift {A} (r : result A string) : only P (lift r).
Proof. apply only_same. Qed.
Lemma only_send what r : P (Sent r) → only P (send what r).
Proof. intros Hr did. exists [Sent r]. split; [done | by constructor]. Qed.
Lemma only_print line : P (Printed line) → only P (print_line line).
Proof. intros Hr did. exists [Printed line]. split; [done | by constructor]. Qed.
Lemma only_after {A B} (m : act Wire A string) (k : A → act Wire B string) :
  only P m → (∀ a, only P (k a)) → only P (after m k).
Proof.
  intros Hm Hk did. unfold after. destruct (Hm did) as (l & Hl & HP). destruct (m did) as [[a|e] did1]; cbn in Hl; subst.
  - destruct (Hk a (did ++ l)) as (l' & -> & HP'). exists (l ++ l'). rewrite app_assoc. split; [done|].
    by apply Forall_app.
  - by exists l.
Qed.
Lemma only_attempt m : only P m → only P (attempt m).
Proof. intros Hm did. apply Hm. Qed.
Lemma only_if {A} (b : bool) (m k : act Wire A string) : only P m → only P k → only P (if b then m else k).
Proof. by destruct b. Qed.
End only.

Create HintDb wire.
#[export] Hint Resolve only_give only_stop only_lift only_send only_print only_attempt : wire.
Ltac solve_only :=
  repeat first
    [ progress auto with wire
    | apply only_after; [|intros ?]
    | apply only_send
    | apply only_if
    | match goal with |- only _ (match ?x with _ => _ end) => destruct x end ].

Lemma only_keeps {A P} (m : act (list Effect) A string) e did : only P m → e ∈ did → e ∈ (m did).2.
Proof. intros Hm He. destruct (Hm did) as (l & -> & _). apply elem_of_app. by left. Qed.
Lemma only_adds {A P} (m : act (list Effect) A string) e did : only P m → e ∈ (m did).2 → e ∈ did ∨ P e.
Proof.
  intros Hm. destruct (Hm did) as (l & -> & HP). rewrite elem_of_app. intros [He|He]; [by left|right].
  by eapply Forall_forall.
Qed.

Section wire.
Context `{Web}.

Lemma surely_send_first {A} what r (k : Z * string → act (list Effect) A string) :
  (∀ x, only (λ _, True) (k x)) → surely (Sent r) (after (send what r) k).
Proof.
  intros Hk did. unfold after, send. destruct (answer did r); cbn; [apply elem_of_app; right; by left|].
  apply (only_keeps _ _ _ (Hk _)), elem_of_app. right. by left.
Qed.

(** The alert goes out, and the ban is asked for when that is switched on. *)
Lemma alert_surely a p c : surely (alert_effect a p c) (alert a p c).
Proof.
  unfold alert. destruct (alert_effect a p c) as [r|line].
  - apply surely_send_first. solve_only.
  - intros did. apply elem_of_app. right. by left.
Qed.
Lemma ban_surely sink p c : auto_ban_enabled sink = true →
  surely (Sent (ban_request sink (vault_id c) (ban_reason p c))) (ban_and_evict sink p c).
Proof.
  intros Hb. unfold ban_and_evict. rewrite Hb. cbn [negb]. apply surely_send_first. intros [status body]. solve_only.
Qed.
Lemma evict_surely sink vault trigger :
  surely (Sent (evict_request sink vault ("recovery_finalize:" +:+ trigger))) (evict_on_recovery_finalize sink vault trigger).
Proof. apply surely_send_first. solve_only. Qed.

Definition bans (sink : KeystoreActionSink) (e : Effect) : Prop := ∃ v reason, e = Sent (ban_request sink v reason).
Definition not_ban (sink : KeystoreActionSink) (e : Effect) : Prop := ¬ bans sink e.

Lemma not_ban_evict sink v reason : not_ban sink (Sent (evict_request sink v reason)).
Proof. intros (v' & r' & [= Hu _ _]). by apply str_append_inj_l in Hu. Qed.
Lemma not_ban_auth sink url auth body : (∀ t, auth ≠ Bearer t) → not_ban sink (Sent (Post url auth body)).
Proof. intros Ha (v & r & [= _ Hb _]). by apply (Ha (sink_token sink)). Qed.
Lemma not_ban_get sink url : not_ban sink (Sent (Get url)).
Proof. by intros (v & r & ?). Qed.
Lemma not_ban_line sink line : not_ban sink (Printed line).
Proof. by intros (v & r & ?). Qed.
Hint Resolve not_ban_evict not_ban_get not_ban_line : wire.

Lemma alert_only sink a p c : only (not_ban sink) (alert a p c).
Proof.
  unfold alert. destruct a; cbn [alert_effect]; solve_only; by apply not_ban_auth.
Qed.
Lemma evict_only sink vault trigger : only (not_ban sink) (evict_on_recovery_finalize sink vault trigger).
Proof. unfold evict_on_recovery_finalize. solve_only. Qed.
Lemma view_call_only sink f contract method args : only (not_ban sink) (view_call f contract method args).
Proof. unfold view_call. solve_only. by apply not_ban_auth. Qed.
Hint Resolve view_call_only : wire.
Lemma cross_check_only sink f ev : only (not_ban sink) (cross_check f ev).
Proof. unfold cross_check. cbv zeta. solve_only. Qed.
Lemma forward_only sink f ev : only (not_ban sink) (forward f ev).
Proof.
  intros did. unfold forward. destruct (cross_check_only sink f ev did) as (l & Hl & HP).
  destruct (cross_check f ev did) as [[[|]|] did1]; cbn in Hl; subst; try by exists l.
  set (m := let^ _ := send _ (forward_request f ev) in give tt).
  assert (Hm : only (not_ban sink) m) by (unfold m; solve_only; by apply not_ban_auth).
  destruct (Hm (did ++ l)) as (l' & -> & HP'). exists (l ++ l'). rewrite app_assoc. split; [done | by apply Forall_app].
Qed.
Lemma ban_only sink p c :
  only (λ e, not_ban sink e ∨ e = Sent (ban_request sink (vault_id c) (ban_reason p c))) (ban_and_evict sink p c).
Proof. unfold ban_and_evict. solve_only. Qed.

Lemma only_weaken {A} (P Q : Effect → Prop) (m : act (list Effect) A string) : (∀ e, P e → Q e) → only P m → only Q m.
Proof. intros HPQ Hm did. destruct (Hm did) as (l & Hl & HP). exists l. split; [done | by eapply Forall_impl]. Qed.

(** What the verdict on a receipt puts on the wire. *)
Definition verdict_effect (setup : Setup) (v : Verdict) (e : Effect) : Prop :=
  not_ban (actions setup) e ∨
  ∃ p c, v = RaceDetected p c ∧ e = Sent (ban_request (actions setup) (vault_id c) (ban_reason p c)).
Lemma handle_only setup v : only (verdict_effect setup v) (handle_verdict v (actions setup) (alerter setup)).
Proof.
  unfold handle_verdict. destruct v as [|p c]; [solve_only|].
  apply only_after; [|intros _]; apply only_attempt.
  - eapply only_weaken; [|apply (alert_only (actions setup))]. by left.
  - eapply only_weaken; [|apply ban_only]. intros e [He|He]; [by left | right; eauto].
Qed.
Lemma handle_alerts setup p c wire : let wire' := (handle_verdict (RaceDetected p c) (actions setup) (alerter setup) wire).2 in
  alert_effect (alerter setup) p c ∈ wire' ∧
  (auto_ban_enabled (actions setup) = true → Sent (ban_request (actions setup) (vault_id c) (ban_reason p c)) ∈ wire').
Proof.
  cbn. split.
  - eapply only_keeps; [apply (ban_only (actions setup))|]. apply alert_surely.
  - intros Hb. by apply ban_surely.
Qed.
End wire.

(** * The chain and the feed *)

Section chain.
Context `{Web} (setup : Setup) (chain : Z → option Value).

(** The feed may fail at any time and lag behind; when it shows a block it is the chain's,
    and it denies only blocks the chain does not have. *)
Record follows_chain : Prop := {
  fc_block done h status body block :
    answer done (Get (block_url setup h)) = Reply status body → is_error status = false →
    json_of body = Some block → chain h = Some block;
  fc_skipped done h body : answer done (Get (block_url setup h)) = Reply 404 body → chain h = None;
  fc_final done status body json n :
    answer done (Get (last_url setup)) = Reply status body → json_of body = Some json →
    value_at ["block"; "header"; "height"] json ≫= value_u64 = Some n → n < U64_MAX;
}.

Definition events_at (h : Z) : list StreamEvent :=
  from_option (λ block, extract_receipts (lake setup) block h) [] (chain h).
Definition chain_events (lo hi : Z) : list StreamEvent := seqZ lo (hi - lo) ≫= events_at.
Definition mcps (l : list StreamEvent) : list McpReceipt :=
  omap (λ ev, match ev with Mcp r => Some r | Vault _ => None end) l.

Lemma chain_events_snoc lo hi : lo ≤ hi → chain_events lo (hi + 1) = chain_events lo hi ++ events_at hi.
Proof.
  intros Hl. unfold chain_events. replace (hi + 1 - lo) with ((hi - lo) + 1) by lia.
  rewrite seqZ_app by lia. rewrite bind_app. replace (lo + (hi - lo)) with hi by lia.
  change (seqZ hi 1) with [hi]. cbn. by rewrite app_nil_r.
Qed.

#[local] Arguments last_url : simpl never.
#[local] Arguments block_url : simpl never.
#[local] Arguments value_at : simpl never.
#[local] Arguments u64_succ : simpl never.
#[local] Arguments evict_on_recovery_finalize : simpl never.
Lemma write_checkpoint_keeps h m : let m' := (write_checkpoint setup h m).2 in
  next_height m' = next_height m ∧ buffer m' = buffer m ∧ detector m' = detector m ∧ did m' = did m.
Proof. unfold write_checkpoint. destruct (checkpoint_path _); [destruct (file_takes _)|]; done. Qed.

(** One request for a block. *)
Lemma fetch_cases m : follows_chain → buffer m = [] → let m' := (fetch_one_block setup m).2 in
  detector m' = detector m ∧
  (∃ gets, did m' = did m ++ gets ∧ Forall (λ e, ∃ url, e = Sent (Get url)) gets) ∧
  ((next_height m' = next_height m ∧ buffer m' = []) ∨
   (next_height m < U64_MAX ∧ next_height m' = u64_succ (next_height m) ∧ buffer m' = events_at (next_height m))).
Proof.
  intros Hf Hb. destruct m as [h b dk d wire]. cbn in Hb. subst b.
  unfold fetch_one_block, after, on_wire, send, lift, json_reply. cbn.
  assert (Hg : ∀ u gets, Forall (λ e, ∃ url, e = Sent (Get url)) gets →
    Forall (λ e, ∃ url, e = Sent (Get url)) (gets ++ [Sent (Get u)])).
  { intros u gets Hu. apply Forall_app. split; [done|]. constructor; [eauto | constructor]. }
  specialize (Hg (last_url setup) [] (Forall_nil_2 _)) as H1.
  destruct (answer wire _) as [|st1 body1] eqn:E1; cbn; [split_and!; eauto|].
  destruct (is_error st1) eqn:Es1; cbn; [split_and!; eauto|].
  destruct (json_of body1) as [j1|] eqn:Ej1; cbn; [|split_and!; eauto].
  destruct (value_at _ j1 ≫= value_u64) as [n|] eqn:En; cbn; [|split_and!; eauto].
  pose proof (fc_final Hf _ _ _ _ _ E1 Ej1 En) as Hn.
  destruct (n <? h) eqn:Eh; cbn; [split_and!; eauto|]. prop_bool.
  pose proof (Hg (block_url setup h) _ H1) as H2.
  assert (Hgrow : ∃ gets, (wire ++ [Sent (Get (last_url setup))]) ++ [Sent (Get (block_url setup h))] = wire ++ gets ∧
    Forall (λ e, ∃ url, e = Sent (Get url)) gets) by (eexists; split; [symmetry; apply app_assoc | exact H2]).
  destruct (answer _ (Get (block_url setup h))) as [|st2 body2] eqn:E2; cbn; [split_and!; eauto|].
  destruct (st2 =? 404) eqn:E4; cbn; prop_bool; subst.
  - pose proof (write_checkpoint_keeps h (mkMonitor (u64_succ h) [] dk d
      ((wire ++ [Sent (Get (last_url setup))]) ++ [Sent (Get (block_url setup h))]))) as Hw.
    unfold set_field, set_next_height, set_did. cbn. cbn in Hw.
    destruct (write_checkpoint _ h _) as [[|] m']; cbn in *; destruct Hw as (-> & -> & -> & ->);
      split_and!; try done; right; split_and!; try done; try lia;
      unfold events_at; by rewrite (fc_skipped Hf _ _ _ E2).
  - destruct (is_error st2) eqn:Es2; cbn; [split_and!; eauto|].
    destruct (json_of body2) as [blk|] eqn:Ej2; cbn; [|split_and!; eauto].
    set (mw := _ <| next_height := _ |>).
    pose proof (write_checkpoint_keeps h mw) as Hw. destruct (write_checkpoint _ h mw) as [r m']. cbn in *.
    destruct Hw as (-> & -> & -> & ->). split_and!; try done. right. split_and!; try done; [lia|].
    unfold events_at. by rewrite (fc_block Hf _ _ _ _ _ E2 Es2 Ej2).
Qed.

(** ** What has been done about the events handled so far *)

Definition fresh : Detector := mkDetector ∅ (window setup) 0.
Definition found (handled : list StreamEvent) : list Verdict := (observe_all (mcps handled) fresh).1.

Record tracks (lo : Z) (handled : list StreamEvent) (m : Monitor) : Prop := {
  tr_range : lo ≤ next_height m ≤ U64_MAX;
  tr_events : handled ++ buffer m = chain_events lo (next_height m);
  tr_detector : detector m = (observe_all (mcps handled) fresh).2;
  tr_races p c : RaceDetected p c ∈ found handled →
    alert_effect (alerter setup) p c ∈ did m ∧
    (auto_ban_enabled (actions setup) = true →
     Sent (ban_request (actions setup) (vault_id c) (ban_reason p c)) ∈ did m);
  tr_bans v reason : Sent (ban_request (actions setup) v reason) ∈ did m →
    ∃ p c, RaceDetected p c ∈ found handled ∧ v = vault_id c ∧ reason = ban_reason p c;
  tr_evicts ev trigger : Vault ev ∈ handled → recovery_trigger (ve_event_type ev) = Some trigger →
    Sent (evict_request (actions setup) (ve_vault_id ev) ("recovery_finalize:" +:+ trigger)) ∈ did m;
}.

Lemma tracks_start disk m : start setup disk [] = Some m → 0 ≤ next_height m ≤ U64_MAX → tracks (next_height m) [] m.
Proof.
  unfold start, new_detector. destruct (0 <? window setup); [|done]. intros [= <-]. cbn. intros Hr.
  split; cbn; try lia; try done; try (intros; by apply elem_of_nil in H0).
  unfold chain_events. by rewrite Z.sub_diag.
Qed.

Lemma mcps_app l l' : mcps (l ++ l') = mcps l ++ mcps l'.
Proof. apply omap_app. Qed.

(** The next receipt, or the next log line. *)
Lemma found_mcp handled r : found (handled ++ [Mcp r]) =
  found handled ++ [(observe r (observe_all (mcps handled) fresh).2).1].
Proof.
  unfold found. rewrite mcps_app, observe_all_app. cbn. destruct (observe_all _ fresh) as [vs d]. cbn.
  by destruct (observe r d).
Qed.
Lemma found_vault handled ev : mcps (handled ++ [Vault ev]) = mcps handled.
Proof. rewrite mcps_app. cbn. apply app_nil_r. Qed.

Lemma tracks_mcp lo handled m r rest : tracks lo handled m → buffer m = Mcp r :: rest →
  tracks lo (handled ++ [Mcp r]) (dispatch setup (Mcp r) (m <| buffer := rest |>)).
Proof.
  intros [Hr He Hd Hrc Hb Hv] Hbuf. unfold dispatch. cbn. rewrite Hd.
  pose proof (found_mcp handled r) as Hf. destruct (observe r _) as [v d'] eqn:Eo. cbn in Hf.
  assert (Hdet : (observe_all (mcps (handled ++ [Mcp r])) fresh).2 = d').
  { rewrite mcps_app, observe_all_app. cbn. destruct (observe_all _ fresh) as [vs d1]. cbn in Eo. by rewrite Eo. }
  pose proof (handle_only setup v) as Ho. split; cbn.
  - done.
  - rewrite <- app_assoc. cbn. by rewrite <- Hbuf.
  - done.
  - intros p c. rewrite Hf, elem_of_app. intros [Hin|Hin%list_elem_of_singleton].
    + destruct (Hrc p c Hin) as [Ha Hban]. split; [|intros E]; apply (only_keeps _ _ _ Ho); auto.
    + rewrite <- Hin. apply handle_alerts.
  - intros w reason Hin. apply (only_adds _ _ _ Ho) in Hin as [Hin|[Hn|(p & c & -> & Hq)]].
    + destruct (Hb _ _ Hin) as (p & c & Hp & Hq). exists p, c. split; [|done]. rewrite Hf. apply elem_of_app. by left.
    + exfalso. apply Hn. red. eauto.
    + injection Hq as -> ->. exists p, c. split; [rewrite Hf; apply elem_of_app; right; by left | done].
  - intros ev trigger Hin Ht. apply elem_of_app in Hin as [Hin|Hin%list_elem_of_singleton]; [|done].
    apply (only_keeps _ _ _ Ho). by apply (Hv ev trigger).
Qed.

Lemma tracks_vault lo handled m ev rest : tracks lo handled m → buffer m = Vault ev :: rest →
  tracks lo (handled ++ [Vault ev]) (dispatch setup (Vault ev) (m <| buffer := rest |>)).
Proof.
  intros [Hr He Hd Hrc Hb Hv] Hbuf. unfold dispatch. cbn.
  set (w1 := match forwarder setup with Some f => _ | None => _ end).
  assert (H1 : ∃ l, w1 = did m ++ l ∧ Forall (not_ban (actions setup)) l).
  { unfold w1. destruct (forwarder setup) as [f|]; [apply forward_only | exists []; by rewrite app_nil_r]. }
  clearbody w1. destruct H1 as (l & -> & HP).
  set (w2 := match recovery_trigger _ with Some t => _ | None => _ end).
  assert (H2 : ∃ l, w2 = did m ++ l ∧ Forall (not_ban (actions setup)) l ∧
    ∀ t, recovery_trigger (ve_event_type ev) = Some t →
      Sent (evict_request (actions setup) (ve_vault_id ev) ("recovery_finalize:" +:+ t)) ∈ w2).
  { unfold w2. destruct (recovery_trigger _) as [t|]; [|exists l; by split_and!].
    destruct (evict_only (actions setup) (ve_vault_id ev) t (did m ++ l)) as (l' & E & HP').
    exists (l ++ l'). rewrite E, app_assoc. split_and!; [done | by apply Forall_app|].
    intros t' [= <-]. rewrite <- E. apply evict_surely. }
  destruct H2 as (l2 & Hl & HP2 & Hev). clearbody w2.
  unfold found in *. split; cbn; unfold found in *; rewrite ?found_vault; try done.
  - rewrite <- app_assoc. cbn. by rewrite <- Hbuf.
  - intros p c Hin. destruct (Hrc p c Hin) as [Ha Hban]. rewrite Hl, !elem_of_app. auto.
  - intros v reason. rewrite Hl, elem_of_app. intros [Hin|Hin]; [by apply Hb|].
    rewrite Forall_forall in HP2. destruct (HP2 _ Hin). red. eauto.
  - intros ev' t Hin Ht. apply elem_of_app in Hin as [Hin|Hin%list_elem_of_singleton].
    + rewrite Hl. apply elem_of_app. left. exact (Hv ev' t Hin Ht).
    + injection Hin as ->. exact (Hev t Ht).
Qed.

Lemma tracks_turn lo handled m : follows_chain → 0 ≤ lo → tracks lo handled m → ∃ more, tracks lo (handled ++ more) (turn setup m).
Proof.
  intros Hf H0 Ht. unfold turn. destruct (buffer m) as [|[r|ev] rest] eqn:Eb;
    [|exists [Mcp r]; by apply tracks_mcp | exists [Vault ev]; by apply tracks_vault].
  exists []. rewrite app_nil_r. destruct Ht as [Hr He Hd Hrc Hb Hv].
  destruct (fetch_cases m Hf Eb) as (Hd' & (gets & Hg & HG) & Hn). set (m' := (fetch_one_block setup m).2) in *.
  assert (Hev : lo ≤ next_height m' ≤ U64_MAX ∧ handled ++ buffer m' = chain_events lo (next_height m')).
  { rewrite Eb, app_nil_r in He. destruct Hn as [[-> ->]|(Hlt & -> & ->)]; [by rewrite app_nil_r|].
    unfold u64_succ. unfold U64_MAX in *. rewrite Z.mod_small by lia.
    rewrite chain_events_snoc, He by lia. split; [lia | done]. }
  destruct Hev as [Hr' He']. rewrite <- Hd' in Hd. split; try done; rewrite Hg.
  - intros p c Hin. destruct (Hrc p c Hin). rewrite !elem_of_app. auto.
  - intros v reason [Hin|Hin]%elem_of_app; [by apply Hb|]. rewrite Forall_forall in HG.
    by destruct (HG _ Hin) as [url ?].
  - intros ev t Hin Htr. apply elem_of_app. left. exact (Hv ev t Hin Htr).
Qed.

Lemma tracks_run lo m n : follows_chain → 0 ≤ lo → tracks lo [] m → ∃ handled, tracks lo handled (run setup n m).
Proof.
  intros Hf H0 Ht. unfold run. induction n as [|n [handled IH]]; cbn; [eauto|].
  destruct (tracks_turn lo handled _ Hf H0 IH) as [more ?]. eauto.
Qed.

(** ** Order *)

Lemma extract_heights block h r : Mcp r ∈ extract_receipts (lake setup) block h → block_height r = h.
Proof.
  unfold extract_receipts. rewrite list_elem_of_bind. intros (shard & Hin & _).
  apply list_elem_of_bind in Hin as (outcome & Hin & _). unfold extract_outcome in Hin.
  destruct (value_get "receipt" outcome) as [receipt|]; [|by apply elem_of_nil in Hin].
  apply elem_of_app in Hin as [Hin|Hin].
  - destruct (_ && _); [|by apply elem_of_nil in Hin]. apply list_elem_of_omap in Hin as (action & _ & Ha).
    unfold mcp_of_action in Ha. destruct (value_get "FunctionCall" action); cbn in Ha; [|done].
    destruct (negb _); [done|]. cbv zeta in Ha. destruct (str_is_empty _); [done|]. by injection Ha as <-.
  - destruct (str_is_empty _); [by apply elem_of_nil in Hin|].
    destruct (value_at _ outcome ≫= value_array) as [logs|]; [|by apply elem_of_nil in Hin].
    apply list_elem_of_omap in Hin as (log & _ & Hl). unfold event_of_log in Hl.
    destruct (value_str log); cbn in Hl; [|done]. by destruct (parse_vault_log _ _ _) as [[? ?]|].
Qed.
Lemma mcps_elem r l : r ∈ mcps l ↔ Mcp r ∈ l.
Proof.
  unfold mcps. rewrite list_elem_of_omap. split; [|intros Hr; by exists (Mcp r)].
  intros ([r'|ev] & Hin & Hr); [|done]. by injection Hr as ->.
Qed.
Lemma events_at_order h : in_order h (mcps (events_at h)) ∧ ∀ r, r ∈ mcps (events_at h) → block_height r = h.
Proof.
  assert (Hh : ∀ r, r ∈ mcps (events_at h) → block_height r = h).
  { intros r. rewrite mcps_elem. unfold events_at. destruct (chain h) as [block|]; cbn.
    - apply extract_heights.
    - by intros ?%elem_of_nil. }
  split; [|done]. revert Hh. induction (mcps (events_at h)) as [|r l IH]; intros Hh; cbn; [done|].
  rewrite (Hh r) by left. split; [lia|]. apply IH. intros x Hx. apply Hh. by right.
Qed.

Lemma chain_events_order lo k : 0 ≤ lo →
  in_order lo (mcps (chain_events lo (lo + Z.of_nat k))) ∧
  ∀ r, r ∈ mcps (chain_events lo (lo + Z.of_nat k)) → block_height r ≤ lo + Z.of_nat k.
Proof.
  intros H0. induction k as [|k [IHo IHb]].
  - replace (lo + Z.of_nat 0) with lo by lia. unfold chain_events. rewrite Z.sub_diag. split; [done|].
    by intros r ?%elem_of_nil.
  - replace (lo + Z.of_nat (S k)) with (lo + Z.of_nat k + 1) by lia. rewrite chain_events_snoc, mcps_app by lia.
    destruct (events_at_order (lo + Z.of_nat k)) as [Ho Hh]. split.
    + eapply in_order_app; [done | | done | done]. lia.
    + intros r [Hr|Hr]%elem_of_app; [specialize (IHb r Hr) | rewrite (Hh r Hr)]; lia.
Qed.

Lemma in_order_low lo lo' l : lo' ≤ lo → in_order lo l → in_order lo' l.
Proof. destruct l; cbn; [done|]. intros ? [? ?]. split; [lia | done]. Qed.
Lemma in_order_take lo l l' : in_order lo (l ++ l') → in_order lo l.
Proof. revert lo. induction l as [|r l IH]; intros lo; cbn; [done|]. intros [? ?]. split; [done|]. by apply IH. Qed.

Lemma handled_order lo handled m : 0 ≤ lo → tracks lo handled m → in_order 0 (mcps handled).
Proof.
  intros H0 Ht. pose proof (tr_range _ _ _ Ht) as Hr. pose proof (tr_events _ _ _ Ht) as He.
  replace (next_height m) with (lo + Z.of_nat (Z.to_nat (next_height m - lo))) in He by lia.
  destruct (chain_events_order lo (Z.to_nat (next_height m - lo)) H0) as [Ho _].
  rewrite <- He, mcps_app in Ho. eapply in_order_low; [exact H0|]. eapply in_order_take. exact Ho.
Qed.
Lemma found_reference lo handled m : 0 ≤ lo → 0 < window setup → tracks lo handled m →
  found handled = ref_all (window setup) (mcps handled) [].
Proof.
  intros H0 Hw Ht. unfold found. apply (mirrors_all (mcps handled) [] fresh).
  - apply (mirrors_new (window setup)). unfold new_detector. by rewrite (proj2 (Z.ltb_lt _ _)).
  - by apply (handled_order lo handled m).
Qed.
Lemma start_window disk m : start setup disk [] = Some m → 0 < window setup.
Proof. unfold start, new_detector. destruct (0 <? window setup) eqn:E; [|done]. by prop_bool. Qed.

(** ** Progress *)

(** The feed answers about the blocks up to [hi], which are final. *)
Record answers_to (hi : Z) : Prop := {
  at_final done : ∃ status body json n, answer done (Get (last_url setup)) = Reply status body ∧
    is_error status = false ∧ json_of body = Some json ∧
    value_at ["block"; "header"; "height"] json ≫= value_u64 = Some n ∧ hi ≤ n;
  at_block done h : h ≤ hi →
    match chain h with
    | Some block => ∃ status body, answer done (Get (block_url setup h)) = Reply status body ∧
        is_error status = false ∧ json_of body = Some block
    | None => ∃ body, answer done (Get (block_url setup h)) = Reply 404 body
    end;
}.

Lemma fetch_progress hi m : answers_to hi → next_height m ≤ hi →
  next_height (fetch_one_block setup m).2 = u64_succ (next_height m).
Proof.
  intros Ha Hh. destruct m as [h b dk d wire]. cbn in Hh.
  unfold fetch_one_block, after, on_wire, send, lift, json_reply. cbn.
  destruct (at_final _ Ha wire) as (st1 & body1 & j1 & n & -> & Es1 & Ej1 & En & Hn). cbn.
  rewrite Es1. cbn. rewrite Ej1. cbn. rewrite En. cbn. rewrite (proj2 (Z.ltb_ge n h)) by lia.
  pose proof (at_block _ Ha (wire ++ [Sent (Get (last_url setup))]) h Hh) as Hb. destruct (chain h) as [blk|].
  - destruct Hb as (st2 & body2 & -> & Es2 & Ej2). cbn.
    destruct (st2 =? 404) eqn:E4; [prop_bool; by subst|]. rewrite Es2. cbn. rewrite Ej2. cbn.
    match goal with |- context [write_checkpoint _ _ ?m] => by destruct (write_checkpoint_keeps h m) as [-> _] end.
  - destruct Hb as (body2 & ->). cbn.
    pose proof (write_checkpoint_keeps h (mkMonitor (u64_succ h) b dk d
      ((wire ++ [Sent (Get (last_url setup))]) ++ [Sent (Get (block_url setup h))]))) as [Hw _]. revert Hw.
    unfold set_field, set_next_height, set_did. cbn. by destruct (write_checkpoint _ h _) as [[|] m'].
Qed.

Lemma dispatch_keeps ev m : next_height (dispatch setup ev m) = next_height m ∧ buffer (dispatch setup ev m) = buffer m.
Proof. destruct ev; cbn; [by destruct (observe _ _) | done]. Qed.

Lemma run_add n k m : run setup (n + k) m = run setup n (run setup k m).
Proof. apply Nat.iter_add. Qed.
Lemma run_drains m : ∃ n, buffer (run setup n m) = [] ∧ next_height (run setup n m) = next_height m.
Proof.
  remember (length (buffer m)) as k eqn:Ek. revert m Ek. induction k as [|k IH]; intros m Ek.
  { exists 0%nat. symmetry in Ek. by apply nil_length_inv in Ek. }
  destruct (buffer m) as [|ev rest] eqn:Eb; [done|]. injection Ek as Ek.
  destruct (dispatch_keeps ev (m <| buffer := rest |>)) as [Hn Hb].
  destruct (IH (turn setup m)) as (n & Hn1 & Hn2); [unfold turn; by rewrite Eb, Hb|].
  exists (n + 1)%nat. rewrite run_add. change (run setup 1 m) with (turn setup m).
  split; [done|]. rewrite Hn2. unfold turn. by rewrite Eb.
Qed.

(** * Theorems *)

(** The monitor misses no race: fed by a feed that may fail and lag but tells the chain,
    once it has handled the blocks of the chain up to a height, of any two MPC calls of one
    vault for one derivation path in those blocks, no further apart than the window, the
    later was alerted as a race with the earlier, or the earlier itself as one with a
    call before it; and with bans switched on, the ban of that vault was asked for. *)
Lemma race_alerted disk m0 n l1 a l2 b l3 :
  follows_chain → start setup disk [] = Some m0 → 0 ≤ next_height m0 ≤ U64_MAX →
  buffer (run setup n m0) = [] →
  chain_events (next_height m0) (next_height (run setup n m0)) = l1 ++ Mcp a :: l2 ++ Mcp b :: l3 →
  pair_of a = pair_of b → block_height b ≤ block_height a + window setup →
  ∃ p c, (c = a ∨ p = a ∧ c = b) ∧ alert_effect (alerter setup) p c ∈ did (run setup n m0) ∧
    (auto_ban_enabled (actions setup) = true →
     Sent (ban_request (actions setup) (vault_id a) (ban_reason p c)) ∈ did (run setup n m0)).
Proof.
  intros Hf Hs Hr Hb He Hk Hw. destruct (tracks_run _ m0 n Hf (proj1 Hr) (tracks_start _ _ Hs Hr)) as [handled Ht].
  pose proof (tr_events _ _ _ Ht) as Hh. rewrite Hb, app_nil_r in Hh. rewrite He in Hh.
  pose proof (handled_order _ _ _ (proj1 Hr) Ht) as Ho.
  pose proof (found_reference _ _ _ (proj1 Hr) (start_window _ _ Hs) Ht) as Hfound.
  rewrite Hh, mcps_app in Ho, Hfound. cbn in Ho, Hfound.
  change (omap _ (l2 ++ Mcp b :: l3)) with (mcps (l2 ++ Mcp b :: l3)) in Ho, Hfound.
  rewrite mcps_app in Ho, Hfound. cbn in Ho, Hfound.
  destruct (ref_race_flagged _ _ _ _ _ _ Ho Hk Hw) as (p & c & Hin & Hc).
  exists p, c. split; [done|]. cbn in Hin. rewrite <- Hfound in Hin. rewrite <- Hh in Hin.
  destruct (tr_races _ _ _ Ht p c Hin) as [Hal Hban]. split; [done|].
  assert (vault_id c = vault_id a) as <- by (destruct Hc as [->|[_ ->]]; [done | by injection Hk]). done.
Qed.

(** C27: The monitor bans nobody without cause: whatever it has asked the keystore to ban, the
    chain has two calls of that vault for one derivation path, no further apart than the
    window, and the reason given names both. *)
Theorem ban_only_for_race disk m0 n v reason :
  follows_chain → start setup disk [] = Some m0 → 0 ≤ next_height m0 ≤ U64_MAX →
  Sent (ban_request (actions setup) v reason) ∈ did (run setup n m0) →
  ∃ p c l1 l2 l3, mcps (chain_events (next_height m0) (next_height (run setup n m0))) = l1 ++ p :: l2 ++ c :: l3 ∧
    pair_of p = pair_of c ∧ v = vault_id c ∧ reason = ban_reason p c ∧
    block_height p ≤ block_height c ≤ block_height p + window setup.
Proof.
  intros Hf Hs Hr Hin. destruct (tracks_run _ m0 n Hf (proj1 Hr) (tracks_start _ _ Hs Hr)) as [handled Ht].
  destruct (tr_bans _ _ _ Ht _ _ Hin) as (p & c & Hrace & Hv & Hreason).
  pose proof (handled_order _ _ _ (proj1 Hr) Ht) as Ho.
  rewrite (found_reference _ _ _ (proj1 Hr) (start_window _ _ Hs) Ht) in Hrace.
  apply list_elem_of_lookup_1 in Hrace as [j Hj].
  destruct (ref_flag_real _ _ _ _ _ _ Hj) as (Hc & Hk & Hw & [Hp|(i & Hij & Hp & _)]); [by apply elem_of_nil in Hp|].
  destruct (in_order_between _ _ _ _ Ho Hp) as [_ Hle]. specialize (Hle j c ltac:(lia) Hc).
  rewrite <- (tr_events _ _ _ Ht), mcps_app.
  apply list_elem_of_split_length in Hp as (l1 & r & Hh & Hl). rewrite Hh in Hc |- *. subst i.
  rewrite lookup_app_r in Hc by lia. destruct (j - length l1)%nat as [|k] eqn:Ek; [lia|]. cbn in Hc.
  apply list_elem_of_split_length in Hc as (l2 & l3 & -> & _).
  exists p, c, l1, l2, (l3 ++ mcps (buffer (run setup n m0))). split_and!; try done.
  rewrite <- !app_assoc. cbn. by rewrite <- app_assoc.
Qed.

(** A vault whose handover was logged loses its master: for every log line of a finished
    recovery in the blocks handled, the keystore was asked to evict that vault. *)
Lemma handover_evicted disk m0 n ev trigger :
  follows_chain → start setup disk [] = Some m0 → 0 ≤ next_height m0 ≤ U64_MAX →
  buffer (run setup n m0) = [] →
  Vault ev ∈ chain_events (next_height m0) (next_height (run setup n m0)) →
  recovery_trigger (ve_event_type ev) = Some trigger →
  Sent (evict_request (actions setup) (ve_vault_id ev) ("recovery_finalize:" +:+ trigger)) ∈ did (run setup n m0).
Proof.
  intros Hf Hs Hr Hb Hin Htr. destruct (tracks_run _ m0 n Hf (proj1 Hr) (tracks_start _ _ Hs Hr)) as [handled Ht].
  pose proof (tr_events _ _ _ Ht) as Hh. rewrite Hb, app_nil_r in Hh. rewrite <- Hh in Hin.
  exact (tr_evicts _ _ _ Ht ev trigger Hin Htr).
Qed.

(** The monitor gets there: while the feed answers about final blocks, some number of turns
    brings it past any of them with nothing left to handle. *)
Lemma monitor_catches_up m0 hi :
  answers_to hi → 0 ≤ next_height m0 ≤ hi + 1 → hi < U64_MAX →
  ∃ n, next_height (run setup n m0) = hi + 1 ∧ buffer (run setup n m0) = [].
Proof.
  intros Ha Hr Hm. remember (Z.to_nat (hi + 1 - next_height m0)) as k eqn:Ek. revert m0 Hr Ek.
  induction k as [|k IH]; intros m Hr Ek; destruct (run_drains m) as (n & Hb & Hn).
  { exists n. split; [lia | done]. }
  set (m1 := run setup n m) in *. pose proof (fetch_progress hi m1 Ha ltac:(lia)) as Hp.
  assert (Hs : next_height (turn setup m1) = next_height m + 1).
  { unfold turn. rewrite Hb, Hp, Hn. unfold u64_succ, U64_MAX in *. rewrite Z.mod_small; lia. }
  destruct (IH (turn setup m1)) as (k' & H1 & H2); [lia | lia|].
  exists (k' + (1 + n))%nat. rewrite !run_add. done.
Qed.

(** C26: Every race is alerted.  Let the feed tell the chain whenever it tells anything, and answer
    about the blocks up to some final height.  Then after some number of turns the monitor
    has, for any two MPC calls of one vault for one derivation path in the blocks from its
    start up to that height, no further apart than the window, alerted the later as a race
    with the earlier, or the earlier as one with a call before it, and asked for the ban of
    that vault if bans are switched on; and for every finished recovery logged in those
    blocks it has had the vault's master evicted. *)
Theorem races_get_alerted disk m0 hi :
  follows_chain → answers_to hi → hi < U64_MAX →
  start setup disk [] = Some m0 → 0 ≤ next_height m0 ≤ hi + 1 →
  ∃ n, let m := run setup n m0 in
  (∀ l1 a l2 b l3, chain_events (next_height m0) (hi + 1) = l1 ++ Mcp a :: l2 ++ Mcp b :: l3 →
     pair_of a = pair_of b → block_height b ≤ block_height a + window setup →
     ∃ p c, (c = a ∨ p = a ∧ c = b) ∧ alert_effect (alerter setup) p c ∈ did m ∧
       (auto_ban_enabled (actions setup) = true →
        Sent (ban_request (actions setup) (vault_id a) (ban_reason p c)) ∈ did m)) ∧
  (∀ ev trigger, Vault ev ∈ chain_events (next_height m0) (hi + 1) →
     recovery_trigger (ve_event_type ev) = Some trigger →
     Sent (evict_request (actions setup) (ve_vault_id ev) ("recovery_finalize:" +:+ trigger)) ∈ did m).
Proof.
  intros Hf Ha Hm Hs Hr. destruct (monitor_catches_up m0 hi Ha Hr Hm) as (n & Hn & Hb). exists n.
  assert (Hr' : 0 ≤ next_height m0 ≤ U64_MAX) by (unfold U64_MAX in *; lia). rewrite <- Hn. split.
  - intros l1 a l2 b l3 He Hk Hw. by apply (race_alerted disk m0 n l1 a l2 b l3).
  - intros ev t Hin Ht. by apply (handover_evicted disk m0 n ev t).
Qed.
End chain.
