(* ===== verification/MonitorChain.v ===== *)
(** The monitor and the contracts it watches: the log lines of the vault and of the DAO
    are the ones it understands, the reason it gives for a ban is one the DAO takes, and
    what it forwards agrees with what the contracts answer. *)

From S2P Require Import Dao Vault.
From S2P Require Export MonitorSafety.

(** * Trimming text that needs none *)

Definition plain_end (b : Z) : bool := negb (ws1 b) && (b <? 128).

Lemma trim_front_plain w2 w3 a l : plain_end a = true →
  (∀ b, w2 a b = false) → (∀ b c, w3 a b c = false) → trim_front w2 w3 (a :: l) = a :: l.
Proof.
  unfold plain_end. rewrite andb_true_iff, negb_true_iff. intros [H1 _] H2 H3. cbn. rewrite H1.
  destruct l as [|b l]; [done|]. rewrite H2. destruct l as [|c l]; [done|]. by rewrite H3.
Qed.
Lemma ws_plain a : plain_end a = true →
  (∀ b, ws2 a b = false ∧ ws2 b a = false) ∧ ∀ b c, ws3 a b c = false ∧ ws3 c b a = false.
Proof.
  unfold plain_end. rewrite andb_true_iff. intros [_ Ha]. prop_bool.
  assert (Hne : ∀ k, 128 ≤ k → (a =? k) = false) by (intros k Hk; apply Z.eqb_neq; lia).
  assert (Hnr : in_range 128 138 a = false) by (unfold in_range; rewrite (proj2 (Z.leb_gt 128 a)) by lia; done).
  split; [intros b | intros b c]; unfold ws2, ws3; rewrite !Hne, ?Hnr by lia; split; try done; by rewrite ?andb_false_r.
Qed.
Lemma trim_bytes_plain a l z l' : a :: l = l' ++ [z] → plain_end a = true → plain_end z = true →
  trim_bytes (a :: l) = a :: l.
Proof.
  intros E Ha Hz. unfold trim_bytes. destruct (ws_plain a Ha) as [Ha2 Ha3], (ws_plain z Hz) as [Hz2 Hz3].
  rewrite (trim_front_plain _ _ a); [|done | apply Ha2 | apply Ha3]. rewrite E, reverse_snoc.
  rewrite (trim_front_plain _ _ z); [|done | apply Hz2 | apply Hz3].
  by rewrite reverse_cons, reverse_involutive.
Qed.

Lemma str_bytes_app s t : str_bytes (s +:+ t) = str_bytes s ++ str_bytes t.
Proof. unfold str_bytes. induction s as [|c s IH]; cbn; [done | by rewrite IH]. Qed.

(** Text between two plain bytes. *)
Lemma str_trim_plain c s z : plain_end (byte_of c) = true → plain_end (byte_of z) = true →
  str_trim (String c (s +:+ String z "")) = String c (s +:+ String z "").
Proof.
  intros Hc Hz. unfold str_trim.
  change (str_bytes (String c (s +:+ String z ""))) with (byte_of c :: str_bytes (s +:+ String z "")).
  rewrite (trim_bytes_plain _ _ (byte_of z) (byte_of c :: str_bytes s)); [|by rewrite str_bytes_app|done..].
  apply (str_of_bytes_str (String c (s +:+ String z ""))).
Qed.

(** Text of visible characters: plain at both ends. *)
Definition visible (s : string) : bool := forall_bytes plain_end s.
Lemma visible_last s : visible s = true → s ≠ "" → ∃ s' z, s = s' +:+ String z "" ∧ plain_end (byte_of z) = true.
Proof.
  induction s as [|a s IH]; [done|]. intros Hv _. cbn in Hv. apply andb_true_iff in Hv as [Ha Hv].
  destruct s as [|b s]; [by exists "", a|]. destruct IH as (s' & z & -> & Hz); [done..|]. by exists (String a s'), z.
Qed.
Lemma str_trim_visible c s : plain_end (byte_of c) = true → visible s = true → str_trim (String c s) = String c s.
Proof.
  intros Hc. destruct (decide (s = "")) as [->|Hne].
  - intros _. unfold str_trim. change (str_bytes (String c "")) with [byte_of c].
    rewrite (trim_bytes_plain _ _ (byte_of c) []); [|done..].
    apply (str_of_bytes_str (String c "")).
  - intros Hv. destruct (visible_last s Hv Hne) as (s' & z & -> & Hz).
    by apply str_trim_plain.
Qed.

(** A visible word in front of a space is the first word. *)
Lemma until_space_visible s l : visible s = true → until_space (str_bytes s ++ 32 :: l) = str_bytes s.
Proof.
  induction s as [|c s IH]; intros Hv; [done|]. cbn in Hv. apply andb_true_iff in Hv as [Hc Hv].
  destruct (ws_plain _ Hc) as [H2 H3]. unfold plain_end in Hc. rewrite andb_true_iff, negb_true_iff in Hc.
  cbn. rewrite (proj1 Hc). change (map byte_of (String.list_ascii_of_string s)) with (str_bytes s) in *.
  rewrite IH by done. destruct (str_bytes s ++ 32 :: l) as [|b [|d l']]; cbn; [done | |];
    rewrite ?(proj1 (H2 _)), ?(proj1 (H3 _ _)); done.
Qed.
Lemma until_space_all s : visible s = true → until_space (str_bytes s) = str_bytes s.
Proof.
  induction s as [|c s IH]; intros Hv; [done|]. cbn in Hv. apply andb_true_iff in Hv as [Hc Hv].
  destruct (ws_plain _ Hc) as [H2 H3]. unfold plain_end in Hc. rewrite andb_true_iff, negb_true_iff in Hc.
  cbn. rewrite (proj1 Hc). change (map byte_of (String.list_ascii_of_string s)) with (str_bytes s) in *.
  rewrite IH by done. destruct (str_bytes s) as [|b [|d l']]; cbn; [done | |];
    rewrite ?(proj1 (H2 _)), ?(proj1 (H3 _ _)); done.
Qed.

(** * Reasons *)

Lemma char_starts_elem l : ∀ i k, k ∈ char_starts i l → ∃ b, (i <= k)%nat ∧ l !! (k - i)%nat = Some b ∧ cont b = false.
Proof.
  induction l as [|b l IH]; intros i k; cbn; [by intros ?%elem_of_nil|].
  assert (Hn : k ∈ char_starts (S i) l → ∃ b0, (i <= k)%nat ∧ (b :: l) !! (k - i)%nat = Some b0 ∧ cont b0 = false).
  { intros Hk. destruct (IH _ _ Hk) as (b0 & Hle & Hb & Hc). exists b0. split_and!; [lia | | done].
    by replace (k - i)%nat with (S (k - S i)) by lia. }
  destruct (cont b) eqn:E; [done|]. intros [->|Hk]%elem_of_cons; [|auto].
  exists b. rewrite Nat.sub_diag. done.
Qed.
Lemma take_while_elem {A} (p : A → bool) l a : a ∈ take_while p l → p a = true ∧ a ∈ l.
Proof.
  induction l as [|b l IH]; cbn; [by intros ?%elem_of_nil|]. destruct (p b) eqn:E; [|by intros ?%elem_of_nil].
  intros [->|Ha]%elem_of_cons; [split; [done | by left]|]. destruct (IH Ha). split; [done | by right].
Qed.
Lemma last_start_cases p s : last_start p s = 0%nat ∨
  p (last_start p s) = true ∧ is_char_boundary s (last_start p s) = true.
Proof.
  unfold last_start. destruct (last _) as [k|] eqn:E; cbn; [right | by left].
  apply last_Some_elem_of, take_while_elem in E as [Hp Hk]. split; [done|].
  destruct (char_starts_elem _ _ _ Hk) as (b & _ & Hb & Hc). rewrite Nat.sub_0_r in Hb.
  unfold is_char_boundary. rewrite Hb, Hc. by rewrite orb_true_r.
Qed.
(** The slices of [ban_reason] are cut between characters: they do not panic. *)
Lemma last_start_boundary p s : is_char_boundary s (last_start p s) = true.
Proof. destruct (last_start_cases p s) as [->|[_ Hb]]; [done | exact Hb]. Qed.
Lemma str_take_le n s : (String.length (str_take n s) <= n)%nat.
Proof. revert s. induction n as [|n IH]; intros [|c s]; cbn; [lia..|]. specialize (IH s). lia. Qed.

Lemma ban_reason_length p c : (String.length (ban_reason p c) <= 256)%nat.
Proof.
  unfold ban_reason. cbv zeta. destruct (256 <? _)%nat eqn:E; [|apply Nat.ltb_ge in E; lia].
  etransitivity; [apply str_take_le|]. unfold reason_cut.
  destruct (last_start_cases (λ i, (i <? 256)%nat) (ban_reason_text p c)) as [->|[Hp _]]; [lia|].
  apply Nat.ltb_lt in Hp. lia.
Qed.
(** Both transactions are named in full when their hashes are of a hash's length. *)
Lemma ban_reason_names_both p c : (String.length (tx_hash p) <= 44)%nat → (String.length (tx_hash c) <= 44)%nat →
  ban_reason p c = ban_reason_text p c.
Proof.
  intros Hp Hc. unfold ban_reason. cbv zeta. rewrite (proj2 (Nat.ltb_ge _ _)); [done|].
  unfold ban_reason_text. cbv zeta. rewrite !str_length_append.
  set (d := if (String.length (derivation_path c) <=? DPATH_MAX)%nat then _ else _).
  assert (String.length d <= 116)%nat.
  { unfold d. destruct (_ <=? _)%nat eqn:E; [by apply Nat.leb_le in E|].
    etransitivity; [apply str_take_le|]. unfold dpath_cut.
    destruct (last_start_cases (λ i, (i <=? DPATH_MAX)%nat) (derivation_path c)) as [->|[Hl _]]; [lia|].
    by apply Nat.leb_le in Hl. }
  change (String.length "duplicate_mpc_call previous=") with 28%nat. change (String.length " current=") with 9%nat.
  change (String.length " dpath=") with 7%nat. lia.
Qed.

(** * The log lines of the contracts *)

Lemma str_trim_ends c s v : plain_end (byte_of c) = true → visible v = true → v ≠ "" →
  str_trim (String c (s +:+ v)) = String c (s +:+ v).
Proof.
  intros Hc Hv Hn. destruct (visible_last v Hv Hn) as (v' & z & -> & Hz). rewrite <- str_append_assoc.
  by apply str_trim_plain.
Qed.
Lemma first_word_visible v rest : visible v = true → v ≠ "" → (rest = "" ∨ ∃ r, rest = String " " r) →
  first_word (v +:+ rest) = v.
Proof.
  intros Hv Hn Hr. unfold first_word. rewrite <- (str_of_bytes_str v) at 2. f_equal.
  assert (trim_front ws2 ws3 (str_bytes (v +:+ rest)) = str_bytes (v +:+ rest)) as ->.
  { destruct v as [|c v]; [done|]. cbn in Hv. apply andb_true_iff in Hv as [Hc _]. destruct (ws_plain _ Hc) as [H2 H3].
    change (str_bytes (String c v +:+ rest)) with (byte_of c :: str_bytes (v +:+ rest)).
    apply trim_front_plain; [done | apply H2 | apply H3]. }
  rewrite str_bytes_app. destruct Hr as [->|[r ->]]; [rewrite app_nil_r; by apply until_space_all|].
  change (str_bytes (String " " r)) with (32 :: str_bytes r). by apply until_space_visible.
Qed.
Lemma strip_prefix_app pre s : strip_prefix pre (pre +:+ s) = Some s.
Proof.
  unfold strip_prefix. rewrite starts_with_app. by rewrite str_drop_length_app.
Qed.

Lemma parse_dao_line ev v rest : ev ∈ DAO_EVENTS → visible v = true → v ≠ "" →
  (rest = "" ∨ ∃ r, rest = String " " r) →
  parse_dao_log DAO_EVENTS ((ev +:+ " ") +:+ v +:+ rest) = Some (ev, v).
Proof.
  intros Hev Hv Hn Hr. unfold DAO_EVENTS in *. cbn [parse_dao_log].
  assert (Hw := first_word_visible v rest Hv Hn Hr). assert (He : str_is_empty v = false) by by destruct v.
  repeat (apply elem_of_cons in Hev as [->|Hev]); [| | |by apply elem_of_nil in Hev];
    rewrite strip_prefix_app, Hw, He; done.
Qed.
(** A line of the DAO about a vault is read as what it says. *)
Lemma parse_dao ev dao v rest : ev ∈ DAO_EVENTS → visible v = true → v ≠ "" →
  (rest = "" ∨ ∃ r u, rest = " " +:+ r +:+ u ∧ visible u = true ∧ u ≠ "") →
  parse_vault_log (ev +:+ " " +:+ v +:+ rest) dao dao = Some (ev, v).
Proof.
  intros Hev Hv Hn Hr. unfold parse_vault_log. cbv zeta.
  assert (Ht : str_trim (ev +:+ " " +:+ v +:+ rest) = ev +:+ " " +:+ v +:+ rest).
  { assert (∃ t u, v +:+ rest = t +:+ u ∧ visible u = true ∧ u ≠ "") as (t & u & -> & Hu & Hun).
    { destruct Hr as [->|(r & u & -> & Hu & Hun)]; [exists "", v; by rewrite str_append_nil_r|].
      exists (v +:+ " " +:+ r), u. by rewrite !str_append_assoc. }
    unfold DAO_EVENTS in Hev. repeat (apply elem_of_cons in Hev as [->|Hev]); [| | |by apply elem_of_nil in Hev].
    - exact (str_trim_ends "v" ("ault_banned " +:+ t) u eq_refl Hu Hun).
    - exact (str_trim_ends "v" ("ault_unbanned " +:+ t) u eq_refl Hu Hun).
    - exact (str_trim_ends "v" ("ault_verified " +:+ t) u eq_refl Hu Hun). }
  rewrite Ht. rewrite String.eqb_refl. cbn [negb].
  assert (Hp : parse_dao_log DAO_EVENTS (ev +:+ " " +:+ v +:+ rest) = Some (ev, v)).
  { rewrite <- (str_append_assoc ev). apply parse_dao_line; [done..|]. destruct Hr as [->|(r & u & -> & _)]; [by left | right; by eexists]. }
  rewrite Hp. set (s := v +:+ rest).
  rewrite bool_decide_eq_false_2.
  2: { unfold VAULT_EVENTS. rewrite !not_elem_of_cons. unfold DAO_EVENTS in Hev.
       repeat (apply elem_of_cons in Hev as [->|Hev]); [| | |by apply elem_of_nil in Hev]; cbn;
         split_and!; try discriminate; apply not_elem_of_nil. }
  unfold DAO_EVENTS in Hev.
  repeat (apply elem_of_cons in Hev as [->|Hev]); [| | |by apply elem_of_nil in Hev]; done.
Qed.

Section contracts.
Context `{Platform} `{TeeVerifier}.

(** What the monitor makes of an account's log lines. *)
Definition understood (account dao msg : string) : Prop := ∃ kind, parse_vault_log msg account dao = Some (kind, account).

Lemma understood_listed account dao msg : msg ∈ VAULT_EVENTS → understood account dao msg.
Proof.
  intros Hm. exists msg. unfold parse_vault_log.
  assert (str_trim msg = msg) as ->.
  { unfold VAULT_EVENTS in Hm. repeat (apply elem_of_cons in Hm as [->|Hm]); try by vm_compute. by apply elem_of_nil in Hm. }
  cbv zeta. by rewrite bool_decide_eq_true_2.
Qed.
Lemma visible_digits s : forall_bytes is_ascii_digit s = true → visible s = true.
Proof.
  unfold visible. apply forall_bytes_impl. intros b. unfold is_ascii_digit, plain_end, ws1, in_range.
  rewrite !andb_true_iff, !negb_true_iff. intros Hb. prop_bool. rewrite (proj2 (Z.leb_gt b 13)) by lia.
  rewrite andb_false_r, (proj2 (Z.eqb_neq b 32)) by lia. split; [done|]. apply Z.ltb_lt. lia.
Qed.
Lemma ends_with_app s suffix : ends_with (s +:+ suffix) suffix = true.
Proof.
  unfold ends_with. rewrite str_length_append. apply andb_true_iff. split; [apply Nat.leb_le; lia|].
  replace (_ + _ - _)%nat with (String.length s) by lia. rewrite str_drop_length_app. apply String.eqb_refl.
Qed.
Lemma understood_window account dao n : understood account dao ("exit_window_set_to_" +:+ uint_to_string n +:+ "_secs").
Proof.
  exists "exit_window_set". unfold parse_vault_log. cbv zeta.
  assert (Hv : visible (uint_to_string n +:+ "_secs") = true).
  { unfold visible. rewrite forall_bytes_app. by rewrite (visible_digits _ (uint_to_string_digits n) : forall_bytes plain_end _ = true). }
  assert (Hn : uint_to_string n +:+ "_secs" ≠ "").
  { intros E. apply (f_equal String.length) in E. rewrite str_length_append in E. cbn in E. lia. }
  assert (Ht := str_trim_ends "e" "xit_window_set_to_" _ eq_refl Hv Hn).
  change (String "e" ("xit_window_set_to_" +:+ uint_to_string n +:+ "_secs"))
    with ("exit_window_set_to_" +:+ uint_to_string n +:+ "_secs") in Ht.
  rewrite Ht.
  rewrite bool_decide_eq_false_2.
  2: { unfold VAULT_EVENTS. rewrite !not_elem_of_cons. cbn. split_and!; try discriminate; apply not_elem_of_nil. }
  assert (He := ends_with_app ("exit_window_set_to_" +:+ uint_to_string n) "_secs").
  rewrite str_append_assoc in He. by rewrite He, starts_with_app.
Qed.
Lemma understood_cleared account dao n : understood account dao ("vault_tee_keys_cleared count=" +:+ uint_to_string n).
Proof.
  exists "vault_tee_keys_cleared". unfold parse_vault_log. cbv zeta.
  pose proof (uint_to_string_nonempty n) as Hn. pose proof (visible_digits _ (uint_to_string_digits n)) as Hv.
  assert (Ht := str_trim_ends "v" "ault_tee_keys_cleared count=" _ eq_refl Hv Hn).
  change (String "v" ("ault_tee_keys_cleared count=" +:+ uint_to_string n))
    with ("vault_tee_keys_cleared count=" +:+ uint_to_string n) in Ht.
  rewrite Ht.
  rewrite bool_decide_eq_false_2; [reflexivity|].
  unfold VAULT_EVENTS. rewrite !not_elem_of_cons. cbn. split_and!; try discriminate; apply not_elem_of_nil.
Qed.

(** ** The vault *)

Definition log_read {J} (account dao : string) (a : VaultAction J) : Prop :=
  match a with VaultLog msg => understood account dao msg | _ => True end.
Ltac solve_log :=
  lazymatch goal with
  | |- True => exact I
  | |- understood _ _ (if ?b then _ else _) => destruct b; solve_log
  | |- understood _ _ (_ +:+ _ +:+ _) => apply understood_window
  | |- understood _ _ (_ +:+ _) => apply understood_cleared
  | |- understood _ _ _ => apply understood_listed, (bool_decide_unpack _); vm_compute; exact I
  end.
Ltac solve_logs := solve_emits; apply emits_emit; unfold log_read; solve_log.

Lemma vault_calls_read {J} account dao e (call : VaultCall J) : emits (log_read account dao) (run_vault_call e call).
Proof. unfold run_vault_call. solve_logs. Qed.
Lemma vault_replies_read {J} account dao e cb answer : emits (log_read account dao) (run_reply (J := J) e cb answer).
Proof. unfold run_reply. solve_logs. Qed.

Lemma vault_calls_keep_lock {J} e (call : VaultCall J) : frame unlocked (run_vault_call e call).
Proof. unfold run_vault_call. solve_frame. Qed.
Lemma vault_replies_keep_lock {J} e cb answer : (∀ c, cb ≠ CallbackAfterSwap c) → frame unlocked (run_reply (J := J) e cb answer).
Proof. intros Hc. destruct cb as [k| |k|c]; [| | |by destruct (Hc c)]; cbn [run_reply]; solve_frame. Qed.

(** A method or a callback of the vault. *)
Inductive vault_code {J} (e : Env) : M (World Vault.Vault (VaultAction J)) unit → Prop :=
| code_call call : vault_code e (run_vault_call e call)
| code_reply cb answer : vault_code e (run_reply e cb answer).

Lemma unlock_line {J} e (m : M (World Vault.Vault (VaultAction J)) unit) v w' : vault_code e m →
  m (mkWorld v []) = Ok (tt, w') → unlocked v = false → unlocked (st w') = true →
  ∃ msg, VaultLog msg ∈ out w' ∧ msg ∈ ["recovery_finalized_cessation"; "recovery_finalized_unilateral"].
Proof.
  intros Hm Hrun Hv Hu. destruct Hm as [call|cb answer].
  { apply vault_calls_keep_lock in Hrun. cbn in Hrun. congruence. }
  destruct cb as [k| |k|c]; try (apply vault_replies_keep_lock in Hrun; [cbn in Hrun; congruence | done]).
  cbn [run_reply] in Hrun. unfold callback_after_swap, private_call in Hrun. minv.
  destruct answer as [b|]; minv; cbn in *; [|congruence].
  exists (if c then "recovery_finalized_cessation" else "recovery_finalized_unilateral").
  split; [by left | destruct c; set_solver].
Qed.

(** Where an event comes from. *)
Lemma parse_dao_kind events s kind v : parse_dao_log events s = Some (kind, v) → kind ∈ events.
Proof.
  induction events as [|ev events IH]; cbn; [done|]. destruct (strip_prefix _ s); [|intros Hk; right; by apply IH].
  destruct (str_is_empty _); [done|]. intros [= <- _]. by left.
Qed.
Lemma parsed_origin line account dao kind v : parse_vault_log line account dao = Some (kind, v) →
  v = account ∨ account = dao ∧ kind ∈ DAO_EVENTS.
Proof.
  unfold parse_vault_log. cbv zeta. destruct (bool_decide _); [intros [= _ <-]; by left|].
  destruct (_ && _); [intros [= _ <-]; by left|]. destruct (starts_with _ _); [intros [= _ <-]; by left|].
  destruct (String.eqb_spec account dao) as [->|]; cbn [negb]; [|done]. intros Hp. right. split; [done|].
  by eapply parse_dao_kind.
Qed.

(** ** What the RPC tells *)

Context `{Web}.

Definition recovery_json (r : option RecoveryState) : Value :=
  match r with
  | None => VNull
  | Some r => VObject [("initiated_at", number (initiated_at r)); ("finalize_after", number (finalize_after r));
      ("finalize_before", number (finalize_before r));
      ("trigger", VString (match trigger r with Cessation => "Cessation" | Unilateral => "Unilateral" end))]
  end.
(** The vault's views, with a text for each key. *)
Definition vault_view (key_text : PublicKey → string) (x : Vault.Vault) (method : string) : option Value :=
  let keys := VArray (map (λ k, VString (key_text k)) (registered_tee_keys x)) in
  if String.eqb method "get_recovery_state" then Some (recovery_json (get_recovery_state x)) else
  if String.eqb method "get_exit_window" then Some (number (get_exit_window x)) else
  if String.eqb method "get_registered_keys" then Some keys else
  if String.eqb method "get_state" then Some (VObject
    [("parent", VString (parent x)); ("keystore_dao", VString (keystore_dao x));
     ("mpc_contract", VString (mpc_contract x));
     ("initial_tee_key", from_option (λ k, VString (key_text k)) VNull (initial_tee_key x));
     ("registered_tee_keys", keys); ("recovery", recovery_json (recovery x)); ("unlocked", VBool (unlocked x));
     ("unilateral_exit_window_secs", number (unilateral_exit_window_secs x))])
  else None.
Definition dao_view (d : KeystoreDao) (v method : string) : option Value :=
  if String.eqb method "is_vault_banned" then Some (VBool (Dao.is_vault_banned d v)) else
  if String.eqb method "is_vault_verified" then Some (VBool (Dao.is_vault_verified d v)) else None.

(** A node that answers a view call, answers with what the contract returns; the answer
    about an account that has no vault reads as nothing. *)
Record tells_chain (f : Forwarder) (d : KeystoreDao) (key_text : PublicKey → string)
    (vaults : string → option Vault.Vault) : Prop := {
  tc_dao done v method status body r value :
    answer done (rpc_request f (forward_dao_id f) method (for_vault v)) = Reply status body →
    read_view body = ROk r → dao_view d v method = Some value → r = value;
  tc_vault done v x method status body r value :
    answer done (rpc_request f v method (VObject [])) = Reply status body →
    read_view body = ROk r → vaults v = Some x → vault_view key_text x method = Some value → r = value;
  tc_nobody done v method status body r :
    answer done (rpc_request f v method (VObject [])) = Reply status body →
    read_view body = ROk r → vaults v = None → r = VNull;
  tc_width v x : vaults v = Some x → 0 ≤ unilateral_exit_window_secs x ≤ U64_MAX;
}.

(** What an event says of the chain. *)
Definition holds_on_chain (d : KeystoreDao) (vaults : string → option Vault.Vault) (kind v : string) : Prop :=
  if String.eqb kind "vault_banned" then Dao.is_vault_banned d v = true else
  if String.eqb kind "vault_unbanned" then Dao.is_vault_banned d v = false else
  if String.eqb kind "vault_verified" then Dao.is_vault_verified d v = true else
  if bool_decide (kind ∈ ["recovery_initiated_cessation"; "recovery_initiated_unilateral"])
  then ∃ x, vaults v = Some x ∧ recovery x ≠ None else
  if bool_decide (kind ∈ ["recovery_finalized_cessation"; "recovery_finalized_unilateral"])
  then ∃ x, vaults v = Some x ∧ unlocked x = true else
  if bool_decide (kind ∈ ["recovery_window_expired"; "recovery_cancelled_dao_revoked"])
  then ∀ x, vaults v = Some x → recovery x = None else
  if String.eqb kind "exit_window_set" then is_Some (vaults v) else
  if String.eqb kind "vault_tee_key_added" then ∃ x, vaults v = Some x ∧ registered_tee_keys x ≠ []
  else False.

Lemma view_call_ok f contract method args done r done' : view_call f contract method args done = (ROk r, done') →
  ∃ status body, answer done (rpc_request f contract method args) = Reply status body ∧ read_view body = ROk r.
Proof.
  unfold view_call, after, send, lift. destruct (answer _ _) as [|status body]; [done|]. intros [= Hr _]. eauto.
Qed.

Section told.
Context (f : Forwarder) (d : KeystoreDao) (key_text : PublicKey → string) (vaults : string → option Vault.Vault).
Hypothesis Htell : tells_chain f d key_text vaults.

Lemma dao_told v method done r done' value :
  view_call f (forward_dao_id f) method (for_vault v) done = (ROk r, done') → dao_view d v method = Some value → r = value.
Proof. intros Hr Hv. destruct (view_call_ok _ _ _ _ _ _ _ Hr) as (st & body & Ha & Hb). by eapply (tc_dao _ _ _ _ Htell). Qed.
Lemma vault_told v method done r done' :
  view_call f v method (VObject []) done = (ROk r, done') →
  match vaults v with
  | Some x => ∀ value, vault_view key_text x method = Some value → r = value
  | None => r = VNull
  end.
Proof.
  intros Hr. destruct (view_call_ok _ _ _ _ _ _ _ Hr) as (st & body & Ha & Hb).
  destruct (vaults v) as [x|] eqn:E; [|by eapply (tc_nobody _ _ _ _ Htell)].
  intros value Hv. by eapply (tc_vault _ _ _ _ Htell).
Qed.

Lemma after_give_ok {A B} (m : act (list Effect) A string) (g : A → B) done b done' :
  (let^ a := m in give (g a)) done = (ROk b, done') → ∃ a, m done = (ROk a, done') ∧ b = g a.
Proof. unfold after, give. destruct (m done) as [[a|e] w]; [|done]. intros [= <- <-]. eauto. Qed.

Lemma cross_check_true ev done b done' : cross_check f ev done = (ROk b, done') →
  b = true ↔ holds_on_chain d vaults (ve_event_type ev) (ve_vault_id ev).
Proof.
  unfold cross_check, holds_on_chain. cbv zeta. intros Hc.
  repeat match type of Hc with (if ?c then _ else _) _ = _ =>
    destruct c; [apply after_give_ok in Hc as (r & Hr & ->)|] end;
    [| | | | | | | |by injection Hc as <- _];
    first [ pose proof (dao_told _ _ _ _ _ _ Hr eq_refl) as -> | pose proof (vault_told _ _ _ _ _ Hr) as Hv;
            destruct (vaults (ve_vault_id ev)) as [x|] eqn:Ex; [specialize (Hv _ eq_refl)|]; subst r ]; clear Hr.
  - rewrite bool_decide_eq_true. cbn. by split; [intros [= ?] | intros ->].
  - rewrite bool_decide_eq_true. cbn. by split; [intros [= ?] | intros ->].
  - rewrite bool_decide_eq_true. cbn. by split; [intros [= ?] | intros ->].
  - unfold get_recovery_state. destruct (recovery x) eqn:Er; cbn; [split; [intros _; by exists x; rewrite Er | done]|].
    split; [done | intros (y & [= <-] & Hy); congruence].
  - split; [done | by intros (y & ? & _)].
  - rewrite bool_decide_eq_true. cbn. split; [intros [= Hu]; by exists x | intros (y & [= <-] & ->); done].
  - split; [done | by intros (y & ? & _)].
  - unfold get_recovery_state. destruct (recovery x) eqn:Er; cbn.
    + split; [done | intros Hy; specialize (Hy x eq_refl); congruence].
    + split; [intros _ y [= <-]; done | done].
  - split; [by intros _ y ? | done].
  - rewrite bool_decide_eq_true, number_u64 by exact (tc_width _ _ _ _ Htell _ _ Ex). split; eauto.
  - cbn. split; [done | by intros [? ?]].
  - cbn. split; [intros Hk | intros (y & [= <-] & Hk)].
    + exists x. split; [done|]. by destruct (registered_tee_keys x).
    + by destruct (registered_tee_keys x).
  - split; [done | by intros (y & ? & _)].
Qed.
End told.

(** * Theorems *)

(** C30: The vault speaks the monitor's language: every line a method or a callback of a vault
    logs is read as an event of that vault, and one that unlocks the vault logs a line on
    which the monitor has the vault's master evicted. *)
Theorem vault_lines_read {J} e (m : M (World Vault.Vault (VaultAction J)) unit) v w' dao :
  vault_code e m → m (mkWorld v []) = Ok (tt, w') →
  (∀ msg, VaultLog msg ∈ out w' → understood (current_account_id e) dao msg) ∧
  (unlocked v = false → unlocked (st w') = true →
   ∃ msg trigger, VaultLog msg ∈ out w' ∧ recovery_trigger msg = Some trigger ∧
     parse_vault_log msg (current_account_id e) dao = Some (msg, current_account_id e)).
Proof.
  intros Hm Hrun. split.
  - intros msg Hin. assert (He : emits (log_read (current_account_id e) dao) m)
      by (destruct Hm; [apply vault_calls_read | apply vault_replies_read]).
    destruct (He _ _ _ Hrun) as (l & Hl & HP). rewrite Hl in Hin. rewrite Forall_forall in HP.
    exact (HP _ Hin).
  - intros Hv Hu. destruct (unlock_line e m v w' Hm Hrun Hv Hu) as (msg & Hin & Hmsg). exists msg.
    apply elem_of_cons in Hmsg as [->|Hmsg]; [|apply list_elem_of_singleton in Hmsg as ->];
      by eexists; split_and!.
Qed.

(** No reason spoils a ban: whatever the two receipts hold, the reason the monitor gives is
    cut between characters to the length the DAO takes, so the keystore's call bans the
    vault, and the monitor reads the line the DAO logs as that ban. *)
Theorem ban_reason_accepted p c e d v :
  attached_deposit e = 0 → predecessor_account_id e = current_account_id e → visible v = true → v ≠ "" →
  is_char_boundary (derivation_path c) (dpath_cut (derivation_path c)) = true ∧
  is_char_boundary (ban_reason_text p c) (reason_cut (ban_reason_text p c)) = true ∧
  ∃ w' line, ban_vault e v (ban_reason p c) (mkWorld d []) = Ok (tt, w') ∧
    Dao.is_vault_banned (st w') v = true ∧ out w' = [DaoLog line] ∧
    parse_vault_log line (current_account_id e) (current_account_id e) = Some ("vault_banned", v).
Proof.
  intros Hd Hp Hv Hn. split_and!; [apply last_start_boundary..|].
  unfold ban_vault, dao_no_deposit, bind, require, get_st, modify, emit.
  rewrite Hd, Hp, bool_decide_eq_true_2 by done. cbn [orb Z.eqb ret].
  assert (Hl : (str_len (ban_reason p c) <=? 256) = true).
  { apply Z.leb_le. unfold str_len. pose proof (ban_reason_length p c). lia. }
  unfold ret. cbn [st out]. rewrite Hl. do 2 eexists. split_and!; [done | | done|].
  - unfold Dao.is_vault_banned. cbn. apply bool_decide_eq_true_2. apply elem_of_set_insert. by left.
  - apply (parse_dao "vault_banned" _ v); [by left | done | done|]. right.
    exists ("reason=" +:+ QUOTE +:+ ban_reason p c), QUOTE. split_and!; [|done|done].
    by rewrite !str_append_assoc.
Qed.


(** Nobody speaks for another's vault: an event the monitor takes from a block is about the
    account that logged it, or is the DAO's word on a vault; what makes it evict a vault is
    always the vault's own. *)
Theorem events_of_their_own config block h ev :
  Monitor.Vault ev ∈ extract_receipts config block h →
  (ve_vault_id ev = ve_emitting_account ev ∨
   ve_emitting_account ev = lake_dao_id config ∧ ve_event_type ev ∈ DAO_EVENTS) ∧
  (is_Some (recovery_trigger (ve_event_type ev)) → ve_vault_id ev = ve_emitting_account ev) ∧
  ve_block_height ev = h.
Proof.
  unfold extract_receipts. rewrite list_elem_of_bind. intros (shard & Hin & _).
  apply list_elem_of_bind in Hin as (outcome & Hin & _). unfold extract_outcome in Hin.
  destruct (value_get "receipt" outcome) as [receipt|]; [|by apply elem_of_nil in Hin].
  apply elem_of_app in Hin as [Hin|Hin].
  { destruct (_ && _); [|by apply elem_of_nil in Hin]. apply list_elem_of_omap in Hin as (action & _ & Ha).
    unfold mcp_of_action in Ha. destruct (value_get "FunctionCall" action); cbn in Ha; [|done].
    destruct (negb _); [done|]. cbv zeta in Ha. by destruct (str_is_empty _). }
  destruct (str_is_empty _); [by apply elem_of_nil in Hin|].
  destruct (value_at _ outcome ≫= value_array) as [logs|]; [|by apply elem_of_nil in Hin].
  apply list_elem_of_omap in Hin as (log & _ & Hl). unfold event_of_log in Hl.
  destruct (value_str log) as [line|]; cbn in Hl; [|done].
  destruct (parse_vault_log line _ _) as [[kind v]|] eqn:Ep; [|done]. injection Hl as <-. cbn.
  pose proof (parsed_origin _ _ _ _ _ Ep) as Ho. split_and!; [exact Ho | | done].
  intros Ht. destruct Ho as [|[_ Hk]]; [done|]. exfalso. unfold DAO_EVENTS in Hk.
  repeat (apply elem_of_cons in Hk as [->|Hk]); [by destruct Ht..|by apply elem_of_nil in Hk].
Qed.
End contracts.
