(* ===== verification/VaultAdmin.v ===== *)
(** The keystore's word on vaults (keystore-worker/src/vault_verifier.rs and the admin
    handlers of api_support.rs): the checks before a vault is marked as verified, the ban
    and the eviction the monitor asks for.  The chain is asked one call at a time: the
    client's calls are actions on a world of their own. *)

From S2P Require Import Dao Vault.
From S2P Require Export MasterSafety MonitorChain.

(** * The chain client *)

(** near-primitives' views of an access key's permission. *)
Inductive AccessKeyPermissionView :=
| PermFullAccess
| PermFunctionCall (allowance : option Z) (receiver_id : string) (method_names : list string)
| PermGasKeyFullAccess
| PermGasKeyFunctionCall (receiver_id : string) (method_names : list string).
#[export] Instance permission_eq : EqDecision AccessKeyPermissionView.
Proof. solve_decision. Defined.

Record ChainClient (W : Type) := mkChainClient {
  view_call_json : string → string → Value → act W Value string;      (* contract, method, args *)
  view_account_code_hash : string → act W (option string) string;
  view_access_key_list_typed : string → act W (list AccessKeyPermissionView) string;
  submit_function_call : string → string → Value → act W string string; (* receiver, method, args *)
}.
Arguments mkChainClient {W}.
Arguments view_call_json {W}.
Arguments view_account_code_hash {W}.
Arguments view_access_key_list_typed {W}.
Arguments submit_function_call {W}.

(** * Verification *)

Inductive VerifyError :=
| AlreadyBanned
| KeystoreDaoMalformed (method : string)
| KeystoreDaoUnreachable (e : string)
| AccountNotFound (e : string)
| CodeHashMissing
| CodeHashNotApproved (code_hash : string)
| AccessKeyListUnreachable (e : string)
| UnexpectedAccessKeyCount (expected got : nat)
| FullAccessKeyPresent
| FunctionCallKeyMisconfigured (receiver : string) (methods : list string)
| VaultStateUnreachable (e : string)
| VaultStateInvalid (e : string)
| KeystoreDaoMismatch (configured on_chain : string)
| MpcContractMismatch (configured on_chain : string)
| VaultUnlocked
| VaultRecoveryInProgress.

Definition check_function_call_key (key : AccessKeyPermissionView) (vault : string) : result unit VerifyError :=
  match key with
  | PermFullAccess | PermGasKeyFullAccess => RErr FullAccessKeyPresent
  | PermFunctionCall _ receiver methods =>
    let methods_ok := (length methods =? 1)%nat && bool_decide (head methods = Some "request_master") in
    if negb (String.eqb receiver vault) || negb methods_ok
    then RErr (FunctionCallKeyMisconfigured receiver methods) else ROk tt
  | PermGasKeyFunctionCall receiver methods => RErr (FunctionCallKeyMisconfigured receiver methods)
  end.

Record ParsedVaultState := mkParsed {
  ps_parent : string;
  ps_keystore_dao : string;
  ps_mpc_contract : string;
  ps_unlocked : bool;
  ps_recovery_in_progress : bool;
}.
Definition text_field (name : string) (payload : Value) : result string VerifyError :=
  ok_or (x ← value_get name payload; value_str x) (VaultStateInvalid ("missing " +:+ name)).
Definition parse_vault_state (payload : Value) : result ParsedVaultState VerifyError :=
  let? parent := text_field "parent" payload in
  let? keystore_dao := text_field "keystore_dao" payload in
  let? mpc_contract := text_field "mpc_contract" payload in
  let? unlocked := ok_or (x ← value_get "unlocked" payload; value_bool x) (VaultStateInvalid "missing unlocked") in
  let recovery_in_progress := from_option (λ r, negb (value_is_null r)) false (value_get "recovery" payload) in
  ROk (mkParsed parent keystore_dao mpc_contract unlocked recovery_in_progress).

Section verify.
Context {W : Type} (client : ChainClient W).

Definition fails_as {A E F} (f : E → F) (m : act W A E) : act W A F := λ w, let '(r, w) := m w in (map_err f r, w).

Definition view_call_bool (contract method : string) (args : Value) : act W bool VerifyError :=
  let^ response := fails_as KeystoreDaoUnreachable (view_call_json client contract method args) in
  lift (ok_or (value_bool response) (KeystoreDaoMalformed method)).

Definition verify_vault_for_signing (keystore_dao mpc_contract vault : string) : act W unit VerifyError :=
  let^ is_banned := view_call_bool keystore_dao "is_vault_banned" (for_vault vault) in
  if is_banned : bool then stop AlreadyBanned else
  let^ found := fails_as AccountNotFound (view_account_code_hash client vault) in
  let^ code_hash := lift (ok_or found CodeHashMissing) in
  let^ approved := view_call_bool keystore_dao "is_vault_code_approved" (VObject [("hash", VString code_hash)]) in
  if negb approved then stop (CodeHashNotApproved code_hash) else
  let^ keys := fails_as AccessKeyListUnreachable (view_access_key_list_typed client vault) in
  if bool_decide (PermFullAccess ∈ keys) then stop FullAccessKeyPresent else
  match keys with
  | [key] =>
    let^ _ := lift (check_function_call_key key vault) in
    let^ state := fails_as VaultStateUnreachable (view_call_json client vault "get_state" (VObject [])) in
    let^ parsed := lift (parse_vault_state state) in
    if negb (String.eqb (ps_keystore_dao parsed) keystore_dao)
    then stop (KeystoreDaoMismatch keystore_dao (ps_keystore_dao parsed)) else
    if negb (String.eqb (ps_mpc_contract parsed) mpc_contract)
    then stop (MpcContractMismatch mpc_contract (ps_mpc_contract parsed)) else
    if ps_unlocked parsed then stop VaultUnlocked else
    if ps_recovery_in_progress parsed then stop VaultRecoveryInProgress else
    give tt
  | _ => stop (UnexpectedAccessKeyCount 1 (length keys))
  end.
End verify.

(** * The handlers *)

Inductive AdminError :=
| Unauthorized (message : string)
| BadRequest (message : string)
| Forbidden (message : string)
| InternalError (message : string)
| Unverified (status : Z) (vault : string) (e : VerifyError).

Definition NOT_READY : string := "Keystore not ready. Waiting for DAO approval and master key from MPC.".
Definition NO_CONTEXT : string := "MPC CKD context not configured — worker booted in non-TEE mode".

Definition map_verify_error (vault : string) (e : VerifyError) : AdminError :=
  let status :=
    match e with
    | AlreadyBanned => 403
    | CodeHashNotApproved _ | CodeHashMissing | FullAccessKeyPresent | FunctionCallKeyMisconfigured _ _
    | UnexpectedAccessKeyCount _ _ | KeystoreDaoMismatch _ _ | MpcContractMismatch _ _ | VaultUnlocked
    | VaultRecoveryInProgress => 400
    | AccountNotFound _ => 400
    | KeystoreDaoUnreachable _ | AccessKeyListUnreachable _ | VaultStateUnreachable _ => 500
    | KeystoreDaoMalformed _ | VaultStateInvalid _ => 500
    end in
  Unverified status vault e.

Record MpcContext := mkContext { ctx_dao_id : string; ctx_mpc_contract_id : string }.
Record AppState (W : Type) := mkAppState {
  as_keystore : Keystore;
  as_ready : bool;
  as_context : option MpcContext;
  as_client : option (ChainClient W);
  as_world : W;
}.
Arguments mkAppState {W}.
Arguments as_keystore {W}.
Arguments as_ready {W}.
Arguments as_context {W}.
Arguments as_client {W}.
Arguments as_world {W}.

Section handlers.
Context {W : Type} `{AccountIds}.
Abbreviation App := (AppState W).
Abbreviation Handler A := (act App A AdminError).

Definition set_keystore (ks : Keystore) (s : App) : App :=
  mkAppState ks (as_ready s) (as_context s) (as_client s) (as_world s).
Definition on_chain {A} (m : act W A AdminError) : Handler A := λ s,
  let '(r, w) := m (as_world s) in
  (r, mkAppState (as_keystore s) (as_ready s) (as_context s) (as_client s) w).
Definition evict (vault : string) : Handler unit := λ s, (ROk tt, set_keystore (evict_customer vault (as_keystore s)) s).
Definition asks {A} (f : App → result A AdminError) : Handler A := λ s, (f s, s).

Definition check_ready : Handler unit := asks (λ s, if as_ready s then ROk tt else RErr (Unauthorized NOT_READY)).
Definition parse_vault (vault : string) : Handler unit :=
  lift (if account_ok vault then ROk tt else RErr (BadRequest "invalid vault_id account")).
Definition the_context : Handler MpcContext := asks (λ s, ok_or (as_context s) (InternalError NO_CONTEXT)).
Definition the_client : Handler (ChainClient W) :=
  asks (λ s, ok_or (as_client s) (InternalError "NEAR client not configured")).

(** [POST /admin/evict-customer] *)
Definition admin_evict_customer_handler (vault : string) : Handler bool :=
  let^ _ := parse_vault vault in
  let^ _ := evict vault in
  give true.

(** The transaction's hash, if one was sent, and whether it was needless. *)
Definition AdminOutcome : Type := option string * bool.

(** [POST /admin/ban-vault] *)
Definition admin_ban_vault_handler (vault reason : string) : Handler AdminOutcome :=
  let^ _ := check_ready in
  let^ _ := parse_vault vault in
  if str_is_empty reason then stop (BadRequest "reason is required") else
  if 256 <? str_len reason then stop (BadRequest "reason must be at most 256 bytes") else
  let^ ctx := the_context in
  let^ client := the_client in
  let^ is_banned := on_chain (fails_as (λ e, InternalError ("is_vault_banned view-call failed: " +:+ e))
                      (view_call_json client (ctx_dao_id ctx) "is_vault_banned" (for_vault vault))) in
  if bool_decide (value_bool is_banned = Some true) then
    let^ _ := evict vault in give (None, true)
  else
  let^ tx := on_chain (fails_as
    (λ e, if str_contains e "already" then Forbidden ("vault " +:+ vault +:+ " already banned (race): " +:+ e)
          else InternalError ("tx submission failed: " +:+ e))
    (submit_function_call client (ctx_dao_id ctx) "ban_vault"
       (VObject [("vault_id", VString vault); ("reason", VString reason)]))) in
  let^ _ := evict vault in
  give (Some tx, false).

(** [POST /sign-vault-verification] *)
Definition sign_vault_verification_handler (vault : string) : Handler AdminOutcome :=
  let^ _ := check_ready in
  let^ _ := parse_vault vault in
  let^ ctx := the_context in
  let^ client := the_client in
  let^ is_verified := on_chain (fails_as (λ e, InternalError ("is_vault_verified view-call failed: " +:+ e))
                        (view_call_json client (ctx_dao_id ctx) "is_vault_verified" (for_vault vault))) in
  if bool_decide (value_bool is_verified = Some true) then give (None, true) else
  let^ _ := on_chain (fails_as (map_verify_error vault)
              (verify_vault_for_signing client (ctx_dao_id ctx) (ctx_mpc_contract_id ctx) vault)) in
  let^ tx := on_chain (fails_as
    (λ e, if str_contains e "vault is banned"
          then Forbidden ("vault " +:+ vault +:+ " is banned (likely banned between check and sign): " +:+ e)
          else InternalError ("tx submission failed: " +:+ e))
    (submit_function_call client (ctx_dao_id ctx) "mark_vault_verified" (for_vault vault))) in
  give (Some tx, false).

(** [POST /derive-vault-tee-key] *)
Definition derive_vault_tee_key_handler `{KeyCrates} (vault : string) : Handler string :=
  let^ _ := check_ready in
  let^ _ := parse_vault vault in
  λ s, match derive_vault_tee_keypair vault (as_keystore s) with
       | (ROk (_, public), ks) => (ROk public, set_keystore ks s)
       | (RErr _, ks) => (RErr (InternalError "Layer-1 keypair derivation failed"), set_keystore ks s)
       end.
End handlers.

(** * What the chain tells *)

Definition permission_of (scope : KeyScope) : AccessKeyPermissionView :=
  match scope with
  | FullAccess => PermFullAccess
  | FunctionCallKey allowance receiver methods =>
    PermFunctionCall allowance receiver (if str_is_empty methods then [] else split_commas "" methods)
  end.

Lemma split_commas_nonempty s : ∀ cur, split_commas cur s ≠ [].
Proof. induction s as [|c s IH]; intros cur; cbn; [done|]. case_bool_decide; [done | apply IH]. Qed.
Lemma split_commas_one s : ∀ cur t, split_commas cur s = [t] → t = cur +:+ s.
Proof.
  induction s as [|c s IH]; intros cur t; cbn.
  - intros [= <-]. by rewrite str_append_nil_r.
  - case_bool_decide as Hc.
    + intros [= _ Hs]. by apply split_commas_nonempty in Hs.
    + intros Hs. apply IH in Hs as ->. by rewrite str_append_assoc.
Qed.

Section honest.
Context {W : Type} (client : ChainClient W).
Context (d : KeystoreDao) (hash_text : CryptoHash → string) (key_text : PublicKey → string).
Context (dao mpc vault : string) (code : option CryptoHash) (keys : Keys) (x : Vault.Vault).

(** The chain stands still while the client asks; what it answers is what is there. *)
Record stands_still : Prop := {
  ss_dao method w r w' value : view_call_json client dao method (for_vault vault) w = (ROk r, w') →
    dao_view d vault method = Some value → r = value;
  ss_code w r w' : view_account_code_hash client vault w = (ROk r, w') → r = hash_text <$> code;
  ss_approved h w r w' : view_call_json client dao "is_vault_code_approved" (VObject [("hash", VString (hash_text h))]) w
      = (ROk r, w') → r = VBool (is_vault_code_approved d h);
  ss_keys w l w' : view_access_key_list_typed client vault w = (ROk l, w') →
    l ≡ₚ map (λ kv, permission_of kv.2) (map_to_list keys);
  ss_state w r w' : view_call_json client vault "get_state" (VObject []) w = (ROk r, w') →
    vault_view key_text x "get_state" = Some r;
}.

(** The vault may be marked. *)
Definition verifiable : Prop :=
  Dao.is_vault_banned d vault = false ∧
  (∃ h, code = Some h ∧ is_vault_code_approved d h = true) ∧
  (∃ k allowance, keys = {[k := FunctionCallKey allowance vault "request_master"]}) ∧
  keystore_dao x = dao ∧ mpc_contract x = mpc ∧ unlocked x = false ∧ recovery x = None.

Definition rpc_failure (e : VerifyError) : bool :=
  match e with
  | KeystoreDaoUnreachable _ | AccountNotFound _ | AccessKeyListUnreachable _ | VaultStateUnreachable _ => true
  | _ => false
  end.

Lemma permission_list_one k allowance :
  map (λ kv, permission_of kv.2) (map_to_list ({[k := FunctionCallKey allowance vault "request_master"]} : Keys)) =
  [PermFunctionCall allowance vault ["request_master"]].
Proof. rewrite map_to_list_singleton. reflexivity. Qed.
(** One key, of the vault's own method. *)
Lemma key_list_one l : l ≡ₚ map (λ kv, permission_of kv.2) (map_to_list keys) →
  (∃ p, l = [p] ∧ check_function_call_key p vault = ROk tt) ↔
  ∃ k allowance, keys = {[k := FunctionCallKey allowance vault "request_master"]}.
Proof.
  intros Hl. split.
  - intros (p & -> & Hp). apply Permutation_singleton_l in Hl.
    destruct (map_to_list keys) as [|[k scope] [|? ?]] eqn:Em; [done| |done]. injection Hl as ->.
    assert (keys = {[k := scope]}) as ->.
    { apply map_to_list_inj. rewrite map_to_list_singleton, Em. done. }
    destruct scope as [|allowance receiver methods]; cbn in Hp; [done|].
    destruct (String.eqb_spec receiver vault) as [->|]; [|done]. cbn [negb orb] in Hp.
    destruct (str_is_empty methods); [done|].
    destruct (split_commas "" methods) as [|t [|? ?]] eqn:Es; [done| |done]. cbn in Hp.
    case_bool_decide as Ht; [|done]. injection Ht as ->. apply split_commas_one in Es. cbn in Es. subst. eauto.
  - intros (k & allowance & E). rewrite E, permission_list_one in Hl. apply Permutation_singleton_r in Hl as ->.
    eexists. split; [done|]. unfold check_function_call_key. rewrite String.eqb_refl. reflexivity.
Qed.
Lemma key_list_no_full l : l ≡ₚ map (λ kv, permission_of kv.2) (map_to_list keys) →
  (∃ k allowance, keys = {[k := FunctionCallKey allowance vault "request_master"]}) → PermFullAccess ∉ l.
Proof.
  intros Hl (k & allowance & E). rewrite E, permission_list_one in Hl. apply Permutation_singleton_r in Hl as ->.
  by intros Hin%list_elem_of_singleton.
Qed.

Lemma view_call_bool_told contract method args w :
  match view_call_bool client contract method args w with
  | (ROk b, w') => view_call_json client contract method args w = (ROk (VBool b), w')
  | (RErr (KeystoreDaoUnreachable _), _) => True
  | (RErr e, w') => e = KeystoreDaoMalformed method ∧
      ∃ r, view_call_json client contract method args w = (ROk r, w') ∧ value_bool r = None
  end.
Proof.
  unfold view_call_bool, after, fails_as, lift. destruct (view_call_json _ _ _ _ _) as [[r|e] w']; cbn; [|done].
  destruct r; cbn; eauto.
Qed.

Lemma parsed_state r : vault_view key_text x "get_state" = Some r →
  parse_vault_state r = ROk (mkParsed (parent x) (keystore_dao x) (mpc_contract x) (unlocked x)
    (negb (bool_decide (recovery x = None)))).
Proof.
  intros Hr. assert (Some r = vault_view key_text x "get_state") as Hv by done. injection Hv as ->.
  destruct (recovery x) eqn:E; unfold parse_vault_state, text_field, recovery_json; rewrite ?E; reflexivity.
Qed.

(** The last check, on the state. *)
Lemma verify_state w : stands_still → ∀ r w',
  (let^ state := fails_as VaultStateUnreachable (view_call_json client vault "get_state" (VObject [])) in
   let^ parsed := lift (parse_vault_state state) in
   if negb (String.eqb (ps_keystore_dao parsed) dao) then stop (KeystoreDaoMismatch dao (ps_keystore_dao parsed)) else
   if negb (String.eqb (ps_mpc_contract parsed) mpc) then stop (MpcContractMismatch mpc (ps_mpc_contract parsed)) else
   if ps_unlocked parsed then stop VaultUnlocked else
   if ps_recovery_in_progress parsed then stop VaultRecoveryInProgress else give tt) w = (r, w') →
  match r with
  | ROk _ => keystore_dao x = dao ∧ mpc_contract x = mpc ∧ unlocked x = false ∧ recovery x = None
  | RErr e => rpc_failure e = true ∨ ¬ (keystore_dao x = dao ∧ mpc_contract x = mpc ∧ unlocked x = false ∧ recovery x = None)
  end.
Proof.
  intros Hs r w'. unfold after, fails_as, lift.
  destruct (view_call_json client vault "get_state" (VObject []) w) as [[v|e] w1] eqn:E; cbn [map_err].
  2: { intros [= <- <-]. by left. }
  rewrite (parsed_state _ (ss_state Hs _ _ _ E)). cbn [ps_keystore_dao ps_mpc_contract ps_unlocked ps_recovery_in_progress].
  destruct (String.eqb_spec (keystore_dao x) dao) as [Hd|Hd]; cbn [negb]; [|intros [= <- <-]; right; tauto].
  destruct (String.eqb_spec (mpc_contract x) mpc) as [Hm|Hm]; cbn [negb]; [|intros [= <- <-]; right; tauto].
  destruct (unlocked x) eqn:Hu; [intros [= <- <-]; right; by intros (_ & _ & ? & _)|].
  case_bool_decide as Hr; cbn [negb]; intros [= <- <-]; [done | right; tauto].
Qed.

Lemma verified_cases w r w' : stands_still → verify_vault_for_signing client dao mpc vault w = (r, w') →
  match r with ROk _ => verifiable | RErr e => rpc_failure e = true ∨ ¬ verifiable end.
Proof.
  intros Hs. unfold verify_vault_for_signing, verifiable.
  unfold after at 1. pose proof (view_call_bool_told dao "is_vault_banned" (for_vault vault) w) as Hb.
  destruct (view_call_bool client dao "is_vault_banned" _ w) as [[banned|e] w1].
  2: { intros [= <- <-]. destruct e; try by left. all: destruct Hb as [He (v & Hv & Hn)]; try done.
       rewrite (ss_dao Hs _ _ _ _ _ Hv eq_refl) in Hn. done. }
  pose proof (ss_dao Hs _ _ _ _ _ Hb eq_refl) as [= ->]. clear Hb.
  destruct (Dao.is_vault_banned d vault); [intros [= <- <-]; right; by intros [? _]|].
  unfold after at 1, fails_as at 1. destruct (view_account_code_hash client vault w1) as [[c|e] w2] eqn:Ec; cbn [map_err].
  2: { intros [= <- <-]. by left. }
  rewrite (ss_code Hs _ _ _ Ec). unfold after at 1, lift at 1. clear Ec.
  destruct code as [h|]; cbn [option_fmap option_map fmap ok_or]; [|intros [= <- <-]; right; by intros (_ & (h & ? & _) & _)].
  unfold after at 1.
  pose proof (view_call_bool_told dao "is_vault_code_approved" (VObject [("hash", VString (hash_text h))]) w2) as Hb.
  destruct (view_call_bool client dao "is_vault_code_approved" _ w2) as [[approved|e] w3].
  2: { intros [= <- <-]. destruct e; try by left. all: destruct Hb as [He (v & Hv & Hn)]; try done.
       rewrite (ss_approved Hs _ _ _ _ Hv) in Hn. done. }
  pose proof (ss_approved Hs _ _ _ _ Hb) as [= ->]. clear Hb.
  destruct (is_vault_code_approved d h) eqn:Ha; cbn [negb];
    [|intros [= <- <-]; right; intros (_ & (h' & [= <-] & ?) & _); congruence].
  unfold after at 1, fails_as at 1. destruct (view_access_key_list_typed client vault w3) as [[l|e] w4] eqn:Ek; cbn [map_err].
  2: { intros [= <- <-]. by left. }
  pose proof (ss_keys Hs _ _ _ Ek) as Hl. clear Ek.
  case_bool_decide as Hfull.
  { intros [= <- <-]. right. intros (_ & _ & Hk & _). by apply (key_list_no_full _ Hl). }
  pose proof (key_list_one _ Hl) as Hone.
  destruct l as [|p [|? ?]]; [intros [= <- <-]; right; intros (_ & _ & Hk & _); by apply Hone in Hk as (? & ? & _)| |
    intros [= <- <-]; right; intros (_ & _ & Hk & _); by apply Hone in Hk as (? & ? & _)].
  unfold after at 1, lift at 1. destruct (check_function_call_key p vault) as [[]|e] eqn:Ep.
  2: { intros [= <- <-]. right. intros (_ & _ & Hk & _). apply Hone in Hk as (? & [= <-] & ?). congruence. }
  intros Hv. pose proof (verify_state _ Hs _ _ Hv) as Hr. assert (Hk := proj1 Hone (ex_intro _ p (conj eq_refl Ep))).
  destruct r as [u|e]; [|destruct Hr as [|Hr]; [by left | right; tauto]]. split_and!; try tauto. eauto.
Qed.

(** The keys of a vault that may be marked permit one call: the vault's own [request_master]. *)
Lemma verifiable_keys : verifiable → ∀ k receiver method deposit,
  key_permits keys (Some k) receiver method deposit = true → receiver = vault ∧ method = "request_master" ∧ deposit = 0.
Proof.
  intros (_ & _ & (k & allowance & E) & _) k' receiver method deposit. unfold key_permits.
  change (Some k' ≫= λ k, keys !! k) with (keys !! k'). rewrite E.
  rewrite lookup_singleton. destruct (decide (k = k')); [|done]. unfold scope_permits.
  change (str_is_empty "request_master") with false.
  assert (Hone : split_commas "" "request_master" = ["request_master"]) by by vm_compute. rewrite Hone. cbn [orb].
  intros Hp. apply andb_prop in Hp as [Hp Hm]. apply andb_prop in Hp as [Hr Hd].
  apply bool_decide_eq_true in Hr, Hm. apply Z.eqb_eq in Hd. apply list_elem_of_singleton in Hm. done.
Qed.
End honest.

(** * The chain moves on *)

(** The chain at a time: the account's code and keys.  Every call takes some time; the
    answers are true when they are given, except that the vault's own view is what its
    code makes of it. *)
Definition timed_client (d : KeystoreDao) (hash_text : CryptoHash → string) (dao vault : string)
    (code : nat → CryptoHash) (keys : nat → Keys) (says : nat → Value) (text_hash : string → CryptoHash)
    : ChainClient nat :=
  mkChainClient
    (λ contract method args t,
      (if String.eqb contract dao
       then match args with
            | VObject [("hash", VString h)] => ROk (VBool (is_vault_code_approved d (text_hash h)))
            | _ => ok_or (dao_view d vault method) "method not found"
            end
       else ROk (says t), S t))
    (λ _ t, (ROk (Some (hash_text (code t))), S t))
    (λ _ t, (ROk (map (λ kv, permission_of kv.2) (map_to_list (keys t))), S t))
    (λ _ _ _ t, (ROk "tx", S t)).

(** A chain on which nothing happens stands still. *)
Lemma timed_still d hash_text text_hash key_text dao v h keys x state :
  dao ≠ v → (∀ h, text_hash (hash_text h) = h) → vault_view key_text x "get_state" = Some state →
  stands_still (timed_client d hash_text dao v (λ _, h) (λ _, keys) (λ _, state) text_hash)
    d hash_text key_text dao v (Some h) keys x.
Proof.
  intros Hne Ht Hx. split; cbn [view_call_json view_account_code_hash view_access_key_list_typed timed_client for_vault].
  - intros method w r w' value. rewrite String.eqb_refl. intros [= Hr _] Hv. rewrite Hv in Hr. by injection Hr as <-.
  - by intros w r w' [= <- _].
  - intros h' w r w'. rewrite String.eqb_refl, Ht. by intros [= <- _].
  - by intros w l w' [= <- _].
  - intros w r w'. rewrite (proj2 (String.eqb_neq v dao)) by done. by intros [= <- _].
Qed.

(** Code and keys change only while somebody holds a key of full access. *)
Definition owner_changes (code : nat → CryptoHash) (keys : nat → Keys) : Prop :=
  ∀ t, (code (S t) = code t ∧ keys (S t) = keys t) ∨ ∃ k, keys t !! k = Some FullAccess.

Section outrun.
Context (d : KeystoreDao) (hash_text : CryptoHash → string) (text_hash : string → CryptoHash).
Context (dao mpc vault : string) (good evil : CryptoHash) (owner tee : PublicKey).

(** Until the third call the approved code and the owner's key; from then on other code and
    the key alone that the checks want. *)
Definition swapped_code (t : nat) : CryptoHash := if (t <? 3)%nat then good else evil.
Definition swapped_keys (t : nat) : Keys :=
  if (t <? 3)%nat then {[owner := FullAccess]} else {[tee := FunctionCallKey None vault "request_master"]}.
Definition claimed_state (_ : nat) : Value := VObject
  [("parent", VString ""); ("keystore_dao", VString dao); ("mpc_contract", VString mpc); ("unlocked", VBool false)].

Lemma swap_is_the_owners : owner_changes swapped_code swapped_keys.
Proof.
  intros t. unfold swapped_code, swapped_keys. destruct (t <? 3)%nat eqn:E.
  - right. exists owner. apply lookup_singleton_eq.
  - left. apply Nat.ltb_ge in E. by rewrite (proj2 (Nat.ltb_ge (S t) 3)) by lia.
Qed.

Lemma outrun_passes : dao ≠ vault → text_hash (hash_text good) = good →
  Dao.is_vault_banned d vault = false → is_vault_code_approved d good = true →
  verify_vault_for_signing (timed_client d hash_text dao vault swapped_code swapped_keys claimed_state text_hash)
    dao mpc vault 0%nat = (ROk tt, 5%nat).
Proof.
  intros Hne Ht Hb Ha. unfold verify_vault_for_signing, view_call_bool, after, fails_as, lift.
  cbn [view_call_json view_account_code_hash view_access_key_list_typed timed_client for_vault].
  rewrite String.eqb_refl. change (dao_view d vault "is_vault_banned") with (Some (VBool (Dao.is_vault_banned d vault))).
  rewrite Hb. cbn [ok_or map_err value_bool swapped_code Nat.ltb Nat.leb].
  rewrite Ht, Ha. cbn [negb ok_or map_err]. unfold swapped_keys. cbn [Nat.ltb Nat.leb].
  rewrite permission_list_one. rewrite bool_decide_eq_false_2 by by intros ?%list_elem_of_singleton.
  unfold check_function_call_key. rewrite String.eqb_refl.
  change (negb true || negb ((length ["request_master"] =? 1)%nat &&
    bool_decide (head ["request_master"] = Some "request_master"))) with false.
  rewrite (proj2 (String.eqb_neq vault dao)) by done.
  assert (Hp : parse_vault_state (claimed_state 4) = ROk (mkParsed "" dao mpc false false)) by reflexivity.
  cbn [map_err]. rewrite Hp. cbn [ps_keystore_dao ps_mpc_contract ps_unlocked ps_recovery_in_progress].
  by rewrite !String.eqb_refl.
Qed.
End outrun.

Lemma on_chain_ok {W A} (m : act W A AdminError) s r s' : on_chain m s = (r, s') →
  ∃ w, m (as_world s) = (r, w) ∧ s' = mkAppState (as_keystore s) (as_ready s) (as_context s) (as_client s) w.
Proof. unfold on_chain. destruct (m _) as [r' w]. intros [= <- <-]. eauto. Qed.
Lemma fails_as_cases {W A E F} (f : E → F) (m : act W A E) w r w' : fails_as f m w = (r, w') →
  ∃ r0, m w = (r0, w') ∧ r = map_err f r0.
Proof. unfold fails_as. destruct (m w) as [r0 w0]. intros [= <- <-]. eauto. Qed.

(** The reason is never empty. *)
Lemma reason_cut_positive t : ∃ k, reason_cut (String "d" (String "u" t)) = S k.
Proof.
  unfold reason_cut, last_start.
  change (char_starts 0 (str_bytes (String "d" (String "u" t)))) with (0%nat :: 1%nat :: char_starts 2 (str_bytes t)).
  cbn [take_while Nat.ltb Nat.leb]. rewrite !last_cons.
  destruct (last (take_while _ (char_starts 2 (str_bytes t)))) as [k|] eqn:E; cbn; [|by eexists].
  apply last_Some_elem_of, take_while_elem in E as [_ Hk]. destruct (char_starts_elem _ _ _ Hk) as (b & Hle & _).
  destruct k; [lia | by eexists].
Qed.
Lemma ban_reason_nonempty p c : str_is_empty (ban_reason p c) = false.
Proof.
  unfold ban_reason. cbv zeta. destruct (256 <? _)%nat; [|done].
  assert (∃ t, ban_reason_text p c = String "d" (String "u" t)) as [t ->] by by eexists.
  by destruct (reason_cut_positive t) as [k ->].
Qed.

Section guarantees.
Context {W : Type} `{AccountIds}.

(** The monitor's request goes through: of a keystore that serves, the ban it asks for with
    the reason it gives is never refused as malformed; a request that succeeds leaves
    neither the vault's master nor a pair derived from it in memory, and so does the
    eviction it asks for besides, whatever became of the ban. *)
Theorem monitor_ban_taken p c v (s : AppState W) ctx client :
  account_ok v = true → as_ready s = true → as_context s = Some ctx → as_client s = Some client →
  let gone ks := masters ks !! v = None ∧ ∀ seed, keypair_cache ks !! (Some v, seed) = None in
  (∀ m s', admin_ban_vault_handler v (ban_reason p c) s ≠ (RErr (BadRequest m), s')) ∧
  (∀ out s', admin_ban_vault_handler v (ban_reason p c) s = (ROk out, s') → gone (as_keystore s')) ∧
  ∃ s', admin_evict_customer_handler v s = (ROk true, s') ∧ gone (as_keystore s').
Proof.
  intros Ha Hr Hc Hcl gone.
  assert (Hgone : ∀ ks, gone (evict_customer v ks)).
  { intros ks. split; cbn; [apply lookup_delete_eq|]. intros seed. apply map_lookup_filter_None. right.
    intros kp _ Hne. by apply Hne. }
  assert (Hl : (256 <? str_len (ban_reason p c)) = false).
  { apply Z.ltb_ge. unfold str_len. pose proof (ban_reason_length p c). lia. }
  assert (Hban : ∃ r s', admin_ban_vault_handler v (ban_reason p c) s = (r, s') ∧
    (∀ m, r ≠ RErr (BadRequest m)) ∧ (∀ out, r = ROk out → gone (as_keystore s'))).
  { unfold admin_ban_vault_handler. unfold after at 1, check_ready, asks. rewrite Hr.
    unfold after at 1, parse_vault, lift. rewrite Ha, ban_reason_nonempty, Hl.
    unfold after at 1, the_context, asks. rewrite Hc. cbn [ok_or].
    unfold after at 1, the_client, asks. rewrite Hcl. cbn [ok_or].
    unfold after at 1, on_chain at 1, fails_as at 1.
    destruct (view_call_json client _ _ _ (as_world s)) as [[a|e] w]; cbn [map_err]; [|by do 2 eexists].
    destruct (bool_decide (value_bool a = Some true)).
    { unfold after, evict, give. do 2 eexists. split_and!; [done | done|]. intros out _. apply Hgone. }
    unfold after at 1, on_chain, fails_as. cbn [as_world].
    destruct (submit_function_call client _ _ _ w) as [[tx|e] w2]; cbn [map_err].
    - unfold after, evict, give. do 2 eexists. split_and!; [done | done|]. intros out _. apply Hgone.
    - do 2 eexists. split_and!; [done | by destruct (str_contains _ _) | done]. }
  destruct Hban as (r & s1 & E & Hr1 & Hr2). split_and!.
  - intros m s'. rewrite E. intros [= Hm _]. by apply (Hr1 m).
  - intros out s'. rewrite E. intros [= Hm <-]. by apply (Hr2 out).
  - unfold admin_evict_customer_handler, after, parse_vault, lift, evict, give. rewrite Ha.
    eexists. split; [done | apply Hgone].
Qed.

(** C28: Marked as verified is what deserves it: on a chain that stands still while it is asked,
    the keystore signs for a vault only if that is not banned, runs approved code, has one
    access key, for its own [request_master], is bound to this DAO and this MPC contract,
    and is neither unlocked nor recovering, and then no key of the account permits any
    other call; a vault that is all that and not yet marked is signed for, unless the
    chain could not be asked or would not take the transaction. *)
Theorem marked_only_if_verifiable d hash_text key_text v code keys x (s : AppState W) ctx client r s' :
  account_ok v = true → as_ready s = true → as_context s = Some ctx → as_client s = Some client →
  stands_still client d hash_text key_text (ctx_dao_id ctx) v code keys x →
  sign_vault_verification_handler v s = (r, s') →
  let deserves := verifiable d (ctx_dao_id ctx) (ctx_mpc_contract_id ctx) v code keys x in
  (∀ tx b, r = ROk (Some tx, b) → deserves ∧ Dao.is_vault_verified d v = false ∧
    ∀ k receiver method deposit, key_permits keys (Some k) receiver method deposit = true →
      receiver = v ∧ method = "request_master" ∧ deposit = 0) ∧
  (deserves → Dao.is_vault_verified d v = false →
    (∃ tx, r = ROk (Some tx, false)) ∨ (∃ m, r = RErr (InternalError m) ∨ r = RErr (Forbidden m)) ∨
    ∃ status e, r = RErr (Unverified status v e) ∧ rpc_failure e = true).
Proof.
  intros Ha Hr Hc Hcl Hs Hrun deserves. unfold sign_vault_verification_handler in Hrun.
  unfold after at 1, check_ready, asks in Hrun. rewrite Hr in Hrun.
  unfold after at 1, parse_vault, lift in Hrun. rewrite Ha in Hrun.
  unfold after at 1, the_context, asks in Hrun. rewrite Hc in Hrun. cbn [ok_or] in Hrun.
  unfold after at 1, the_client, asks in Hrun. rewrite Hcl in Hrun. cbn [ok_or] in Hrun.
  unfold after at 1, on_chain at 1, fails_as at 1 in Hrun.
  destruct (view_call_json client _ _ _ (as_world s)) as [[a|e] w] eqn:Ev; cbn [map_err] in Hrun.
  2: { injection Hrun as <- <-. split; [done | right; left; eauto]. }
  pose proof (ss_dao _ _ _ _ _ _ _ _ _ Hs _ _ _ _ _ Ev eq_refl) as ->. clear Ev. cbn [value_bool] in Hrun.
  destruct (Dao.is_vault_verified d v) eqn:Ed.
  { injection Hrun as <- <-. split; [by intros tx b [=] | done]. }
  rewrite bool_decide_eq_false_2 in Hrun by done.
  unfold after at 1, on_chain at 1, fails_as at 1 in Hrun. cbn [as_world] in Hrun.
  destruct (verify_vault_for_signing client _ _ v w) as [r1 w1] eqn:Ey.
  pose proof (verified_cases _ _ _ _ _ _ _ _ _ _ _ _ _ Hs Ey) as Hy.
  destruct r1 as [[]|e]; cbn [map_err] in Hrun.
  2: { injection Hrun as <- <-. split; [done|]. intros Hd _. destruct Hy as [Hy|Hy]; [|done].
       right. right. unfold map_verify_error. eauto. }
  unfold after at 1, on_chain at 1, fails_as at 1 in Hrun. cbn [as_world as_client] in Hrun.
  destruct (submit_function_call client _ _ _ w1) as [[tx|e] w2]; cbn [map_err] in Hrun; injection Hrun as <- <-.
  - split; [|left; eauto]. intros tx' b _. split_and!; [done | done|]. by eapply verifiable_keys.
  - split; [done|]. intros _ _. right. left. destruct (str_contains _ _); eauto.
Qed.

(** The order of the checks leaves a gap: whoever holds a key of full access while the code
    is looked up, and then, before the keys are, replaces the code and leaves the one key
    the checks ask for, is verified with code nobody approved. *)
Theorem verification_outrun d hash_text text_hash dao mpc v good evil (owner tee : PublicKey) :
  dao ≠ v → text_hash (hash_text good) = good → Dao.is_vault_banned d v = false →
  is_vault_code_approved d good = true → is_vault_code_approved d evil = false →
  ∃ code keys says n, owner_changes code keys ∧
    verify_vault_for_signing (timed_client d hash_text dao v code keys says text_hash) dao mpc v 0%nat = (ROk tt, n) ∧
    is_vault_code_approved d (code n) = false.
Proof.
  intros Hne Ht Hb Hg He. exists (swapped_code good evil), (swapped_keys v owner tee), (claimed_state dao mpc), 5%nat.
  split_and!; [apply swap_is_the_owners | by apply outrun_passes | exact He].
Qed.
End guarantees.
