(* ===== verification/MonitorSamples.v ===== *)
(** A feed, a node, a DAO and a vault the theorems on the monitor and on the keystore's word
    apply to. *)

From S2P Require Import Dao DaoHistory Vault.
From S2P Require Import KeySamples VaultAdmin.

(** * A feed of three heights *)

Definition sample_vault_id : string := "v.alice.near".
Definition mpc_call (tx : string) : Value :=
  obj [("receipt", obj [("receiver_id", VString "v1.signer"); ("predecessor_id", VString sample_vault_id);
         ("receipt_id", VString ("r-" +:+ tx));
         ("receipt", obj [("Action", obj [("actions", VArray [obj [("FunctionCall",
            obj [("method_name", VString "request_app_private_key"); ("args", VString "args")])]])])])]);
       ("tx_hash", VString tx)].
Definition vault_log (line : string) : Value :=
  obj [("receipt", obj [("receipt_id", VString "r-log")]); ("tx_hash", VString "t-log");
       ("execution_outcome", obj [("outcome", obj [("executor_id", VString sample_vault_id);
          ("logs", VArray [VString line])])])].
Definition block_of (outcomes : list Value) : Value :=
  obj [("shards", VArray [obj [("receipt_execution_outcomes", VArray outcomes)]])].
Definition block_10 : Value := block_of [mpc_call "t1"].
Definition block_12 : Value := block_of [mpc_call "t2"; vault_log "recovery_finalized_unilateral"].

Definition sample_setup : Setup := mkSetup
  (mkLakeConfig "v1.signer" "dao.outlayer.near" 10 "mainnet" None) (mkSink "http://keystore" "token" true)
  StdoutAlerter None 600.
Definition final_url : string := last_url sample_setup.

(** The chain has blocks 10 and 12; a height is named by its digits. *)
Definition sample_chain (h : Z) : option Value :=
  if bool_decide (Z.to_N h = 10%N) then Some block_10 else if bool_decide (Z.to_N h = 12%N) then Some block_12 else None.

Definition sample_rpc (body : Value) : HttpReply :=
  let at_ name := default "" (value_at ["params"; name] body ≫= value_str) in
  if String.eqb (at_ "account_id") "dao.outlayer.near" && String.eqb (at_ "method_name") "is_vault_banned" &&
     String.eqb (at_ "args_base64") sample_vault_id
  then Reply 200 "banned" else Unreachable.
Definition sample_answer (r : Request) : HttpReply :=
  match r with
  | Get url =>
    if String.eqb url final_url then Reply 200 "final" else
    if String.eqb url (block_url sample_setup 10) then Reply 200 "10" else
    if String.eqb url (block_url sample_setup 12) then Reply 200 "12" else Reply 404 ""
  | Post url _ body => if String.eqb url "http://rpc" then sample_rpc body else Reply 200 "{}"
  end.
Definition sample_json (text : string) : option Value :=
  if String.eqb text "final" then Some (obj [("block", obj [("header", obj [("height", VNumber "12")])])]) else
  if String.eqb text "10" then Some block_10 else
  if String.eqb text "12" then Some block_12 else
  if String.eqb text "args" then Some (obj [("derivation_path", VString "near")]) else
  if String.eqb text "banned" then
    Some (obj [("result", obj [("result", VArray [VNumber "116"; VNumber "114"; VNumber "117"; VNumber "101"])])]) else
  if String.eqb text "true" then Some (VBool true) else None.
Definition sample_web : Web := {|
  answer := λ _, sample_answer;
  file_takes := λ _, true;
  json_of := sample_json;
  json_text := λ v, match v with VObject [(_, VString s)] => s | _ => "" end;
  decode64 := Some;
  encode64 := λ s, s;
|}.
#[local] Existing Instance sample_web.

Lemma sample_heights h n : block_url sample_setup h = block_url sample_setup (Z.of_N n) → Z.to_N h = n.
Proof.
  intros E. unfold block_url in E. apply str_append_inj_l, str_append_inj_l in E.
  unfold uint_to_string in E. apply (inj pretty) in E. by rewrite N2Z.id in E.
Qed.
Lemma final_not_block h : block_url sample_setup h ≠ final_url.
Proof. unfold block_url, final_url, last_url. intros E. by apply str_append_inj_l in E. Qed.

Lemma sample_answer_block h : sample_answer (Get (block_url sample_setup h)) =
  match sample_chain h with
  | Some _ => Reply 200 (if bool_decide (Z.to_N h = 10%N) then "10" else "12")
  | None => Reply 404 ""
  end.
Proof.
  unfold sample_answer, sample_chain. rewrite (proj2 (String.eqb_neq _ _)) by apply final_not_block.
  assert (Heq : ∀ n, String.eqb (block_url sample_setup h) (block_url sample_setup (Z.of_N n)) = bool_decide (Z.to_N h = n)).
  { intros n. case_bool_decide as E.
    - apply String.eqb_eq. unfold block_url, uint_to_string. by rewrite E, N2Z.id.
    - apply String.eqb_neq. intros Hu. by apply sample_heights in Hu. }
  pose proof (Heq 10%N) as H10. pose proof (Heq 12%N) as H12. cbn [Z.of_N] in H10, H12. rewrite H10, H12. repeat case_bool_decide; done.
Qed.
Lemma sample_follows : follows_chain sample_setup sample_chain.
Proof.
  split.
  - intros done h status body block. cbn [answer sample_web]. rewrite sample_answer_block. unfold sample_chain.
    repeat case_bool_decide; intros [= <- <-] He; [intros [= <-]; done | intros [= <-]; done | done].
  - intros done h body. cbn [answer sample_web]. rewrite sample_answer_block. by destruct (sample_chain h).
  - intros done status body json n [= <- <-] [= <-] E. vm_compute in E. by injection E as <-.
Qed.
Lemma sample_answers : answers_to sample_setup sample_chain 12.
Proof.
  split.
  - intros done. do 4 eexists. split_and!; [reflexivity | reflexivity | reflexivity | by vm_compute | lia].
  - intros done h _. cbn [answer sample_web]. rewrite sample_answer_block.
    destruct (sample_chain h) as [b|] eqn:E; [|by eexists]. do 2 eexists. split_and!; [done | done|].
    revert E. unfold sample_chain. repeat case_bool_decide; intros [= <-]; done.
Qed.

Definition sample_start : Monitor := mkMonitor 10 [] NoFile (mkDetector ∅ 600 0) [].
Definition race_1 : McpReceipt := mkReceipt sample_vault_id "near" 10 "t1" "r-t1".
Definition race_2 : McpReceipt := mkReceipt sample_vault_id "near" 12 "t2" "r-t2".
Definition handover_event : VaultEventReceipt :=
  mkVaultEvent sample_vault_id sample_vault_id "recovery_finalized_unilateral" "recovery_finalized_unilateral" 12 "t-log" "r-log".

Lemma sample_events : chain_events sample_setup sample_chain 10 13 = [Mcp race_1; Mcp race_2; Monitor.Vault handover_event].
Proof. vm_compute. reflexivity. Qed.

Lemma races_get_alerted_witness : ∃ n, let m := run sample_setup n sample_start in
  (∃ p c, alert_effect StdoutAlerter p c ∈ did m ∧ vault_id c = sample_vault_id) ∧
  Sent (evict_request (actions sample_setup) sample_vault_id "recovery_finalize:unilateral") ∈ did m.
Proof.
  destruct (races_get_alerted sample_setup sample_chain NoFile sample_start 12 sample_follows sample_answers
    ltac:(reflexivity) ltac:(reflexivity) ltac:(cbn; lia)) as (n & Hrace & Hevict).
  exists n. split.
  - destruct (Hrace [] race_1 [] race_2 [Monitor.Vault handover_event] sample_events ltac:(reflexivity) ltac:(cbn; lia))
      as (p & c & Hc & Ha & _).
    exists p, c. split; [exact Ha|]. destruct Hc as [->|[_ ->]]; reflexivity.
  - apply (Hevict handover_event "unilateral"); [|reflexivity].
    change (Monitor.Vault handover_event ∈ chain_events sample_setup sample_chain 10 13). rewrite sample_events. right. right. left.
Defined.

Lemma ban_only_for_race_witness :
  Sent (ban_request (actions sample_setup) sample_vault_id (ban_reason race_1 race_2)) ∈ did (run sample_setup 5 sample_start) ∧
  ∃ p c l1 l2 l3, mcps (chain_events sample_setup sample_chain 10 (next_height (run sample_setup 5 sample_start))) =
    l1 ++ p :: l2 ++ c :: l3 ∧ pair_of p = pair_of c.
Proof.
  assert (Hin : Sent (ban_request (actions sample_setup) sample_vault_id (ban_reason race_1 race_2))
    ∈ did (run sample_setup 5 sample_start)).
  { assert (E : did (run sample_setup 5 sample_start) !! 7%nat =
      Some (Sent (ban_request (actions sample_setup) sample_vault_id (ban_reason race_1 race_2)))) by (vm_compute; reflexivity).
    exact (list_elem_of_lookup_2 _ _ _ E). }
  split; [exact Hin|].
  destruct (ban_only_for_race sample_setup sample_chain NoFile sample_start 5 _ _ sample_follows ltac:(reflexivity)
    ltac:(split; [cbn; lia | vm_compute; discriminate]) Hin) as (p & c & l1 & l2 & l3 & He & Hk & _).
  exists p, c, l1, l2, l3. split; [exact He | exact Hk].
Defined.

(** * A process that is started again

    With a checkpoint, between the two calls: the blocks before are not read again, and
    what the detector had seen of them is gone. *)

Definition kept_setup : Setup := mkSetup
  (mkLakeConfig "v1.signer" "dao.outlayer.near" 10 "mainnet" (Some "/var/checkpoint")) (mkSink "http://keystore" "token" true)
  StdoutAlerter None 600.
Definition alerts (m : Monitor) : nat :=
  length (omap (λ e, match e with Printed line => Some line | Sent _ => None end) (did m)).

(** The same five turns alert the race without a restart, and do not with one after the
    first block was handled. *)
Theorem restart_forgets_race :
  alerts (run kept_setup 5 sample_start) = 1%nat ∧
  (alerts ∘ run kept_setup 3 <$> restart kept_setup (run kept_setup 2 sample_start)) = Some 0%nat.
Proof. split; vm_compute; reflexivity. Qed.

(** A block that was fetched is checkpointed before its events are handled: a process that
    dies in between has skipped them. *)
Theorem restart_skips_buffered :
  (λ m, (next_height m, buffer m)) <$> restart kept_setup (run kept_setup 1 sample_start) = Some (11, []) ∧
  buffer (run kept_setup 1 sample_start) = [Mcp race_1].
Proof. split; vm_compute; reflexivity. Qed.

(** * The node and the contracts *)

Definition sample_forwarder : Forwarder := mkForwarder "http://coordinator" "token" "http://rpc" "dao.outlayer.near".
Definition banning_dao : KeystoreDao := empty_dao <| banned_vaults := [sample_vault_id] |>.
Definition no_text (k : PublicKey) : string := key_data k.
Definition banned_event : VaultEventReceipt :=
  mkVaultEvent "dao.outlayer.near" sample_vault_id "vault_banned" "vault_banned v.alice.near" 12 "t" "r".

Lemma sample_rpc_request account method args :
  sample_answer (rpc_request sample_forwarder account method args) =
  if String.eqb account "dao.outlayer.near" && String.eqb method "is_vault_banned" &&
     String.eqb (json_text args) sample_vault_id then Reply 200 "banned" else Unreachable.
Proof. reflexivity. Qed.
Lemma sample_tells : tells_chain sample_forwarder banning_dao no_text (λ _, None).
Proof.
  split; [| | |done].
  - intros done v method status body r value. cbn [answer sample_web]. rewrite sample_rpc_request.
    destruct (String.eqb_spec method "is_vault_banned") as [->|]; [|by rewrite andb_false_r].
    change (json_text (for_vault v)) with v. destruct (String.eqb_spec v sample_vault_id) as [->|]; [|done].
    intros [= <- <-] E. assert (Hv : read_view "banned" = ROk (VBool true)) by (vm_compute; reflexivity).
    rewrite Hv in E. injection E as <-. intros [= <-]. vm_compute. reflexivity.
  - intros done v x method status body r value _ _ E. discriminate E.
  - intros done v method status body r. cbn [answer sample_web]. rewrite sample_rpc_request.
    change (json_text (VObject [])) with "". by rewrite andb_false_r.
Qed.


(** * A vault that is handed over, and one that is marked *)

Definition sample_env (who where_ : string) : Env := mkEnv who who where_ 0 1000000000 "yield-1" (λ _, false) (λ _, 0).
Definition locked_vault : Vault.Vault :=
  mkVault "alice.near" "dao.outlayer.near" "v1.signer" None [] None false 86400.
#[local] Existing Instance tee_platform.
#[local] Existing Instance tee_verifier.

Lemma vault_lines_read_witness :
  let e := sample_env sample_vault_id sample_vault_id in
  ∃ w', run_reply (J := unit) e (CallbackAfterSwap false) (CbOk true) (mkWorld locked_vault []) = Ok (tt, w') ∧
  ∃ msg trigger, VaultLog msg ∈ out w' ∧ recovery_trigger msg = Some trigger.
Proof.
  eexists. split; [reflexivity|].
  destruct (vault_lines_read (sample_env sample_vault_id sample_vault_id)
    (run_reply (J := unit) (sample_env sample_vault_id sample_vault_id) (CallbackAfterSwap false) (CbOk true))
    locked_vault _ "dao.outlayer.near" (code_reply _ _ _) eq_refl) as [_ Hunlock].
  destruct (Hunlock eq_refl eq_refl) as (msg & trigger & Hin & Ht & _). exists msg, trigger. split; [exact Hin | exact Ht].
Defined.

Lemma ban_reason_accepted_witness : ∃ w' line,
  ban_vault (sample_env "dao.outlayer.near" "dao.outlayer.near") sample_vault_id (ban_reason race_1 race_2)
    (mkWorld empty_dao []) = Ok (tt, w') ∧
  parse_vault_log line "dao.outlayer.near" "dao.outlayer.near" = Some ("vault_banned", sample_vault_id).
Proof.
  destruct (ban_reason_accepted race_1 race_2 (sample_env "dao.outlayer.near" "dao.outlayer.near") empty_dao sample_vault_id
    eq_refl eq_refl ltac:(vm_compute; reflexivity) ltac:(discriminate)) as (_ & _ & w' & line & Hr & _ & _ & Hp).
  exists w', line. split; [exact Hr | exact Hp].
Defined.

Definition tee_key : PublicKey := mkKey ED25519 "tee".
Definition approving_dao : KeystoreDao := empty_dao <| approved_vault_code_hashes := ["code"] |>.
Definition sample_keys : Keys := {[tee_key := FunctionCallKey None sample_vault_id "request_master"]}.
Definition still_client (state : Value) : ChainClient nat :=
  timed_client approving_dao (λ h, h) "dao.outlayer.near" sample_vault_id (λ _, "code") (λ _, sample_keys) (λ _, state) (λ h, h).
Definition vault_state : Value := default VNull (vault_view no_text locked_vault "get_state").
Definition sample_app : AppState nat :=
  mkAppState (from_master_secret "master") true (Some (mkContext "dao.outlayer.near" "v1.signer"))
    (Some (still_client vault_state)) 0%nat.

Lemma sample_still : stands_still (still_client vault_state) approving_dao (λ h, h) no_text "dao.outlayer.near"
  sample_vault_id (Some "code") sample_keys locked_vault.
Proof. apply timed_still; [discriminate | done | reflexivity]. Qed.

Lemma marked_only_if_verifiable_witness :
  (sign_vault_verification_handler (H := plain_accounts) sample_vault_id sample_app).1 = ROk (Some "tx", false) ∧
  verifiable approving_dao "dao.outlayer.near" "v1.signer" sample_vault_id (Some "code") sample_keys locked_vault.
Proof.
  assert (Hrun : (sign_vault_verification_handler (H := plain_accounts) sample_vault_id sample_app).1 =
    ROk (Some "tx", false)) by (vm_compute; reflexivity).
  split; [exact Hrun|].
  destruct (marked_only_if_verifiable (H := plain_accounts) approving_dao (λ h, h) no_text sample_vault_id (Some "code") sample_keys
    locked_vault sample_app (mkContext "dao.outlayer.near" "v1.signer") (still_client vault_state) _ _
    ltac:(vm_compute; reflexivity) eq_refl eq_refl eq_refl sample_still (surjective_pairing _)) as [Hd _].
  destruct (Hd "tx" false Hrun) as [Hv _]. exact Hv.
Defined.
