(* ===== verification/Solana.v ===== *)
(** keystore-worker/src/solana.rs: whether bytes are a Solana transaction message.  A
    signature over such bytes could be broadcast, so the door that signs messages refuses
    them.  The parser is read against a grammar: the messages a node takes, written with
    any encoding of the lengths. *)

From S2P Require Export RustStr.

Definition MAX_TX_MESSAGE_LEN : Z := 1232.
Definition MAX_MESSAGE_LEN : Z := 64 * 1024.

(** * The parser *)

(** A reader of [buf] at [pos]; it answers a value and where it stopped.  A position is at
    most the length of [buf], 1232 bytes, and what is skipped is below [2 ^ 21] bytes: the
    [checked_add] of the source does not overflow. *)
Definition Cursor (A : Type) : Type := list Z → nat → option (A * nat).

Definition here {A} (a : A) : Cursor A := λ _ pos, Some (a, pos).
Definition refuse {A} : Cursor A := λ _ _, None.
Definition and_then {A B} (p : Cursor A) (k : A → Cursor B) : Cursor B := λ buf pos,
  match p buf pos with Some (a, pos) => k a buf pos | None => None end.
Notation "'let%' x := p 'in' k" := (and_then p (λ x, k)) (at level 10, x name, p at level 100, k at level 200).

Definition u8 : Cursor Z := λ buf pos, b ← buf !! pos; Some (b, S pos).
Definition skip (n : Z) : Cursor unit := λ buf pos,
  if Z.of_nat (length buf) <? Z.of_nat pos + n then None else Some (tt, (pos + Z.to_nat n)%nat).

(** [for i in 0..3], [turns] of them left. *)
Fixpoint compact_from (turns : nat) (i value : Z) : Cursor Z :=
  match turns with
  | O => refuse
  | S turns =>
    let% b := u8 in
    let value := Z.lor value (Z.shiftl (Z.land b 127) (7 * i)) in
    if Z.land b 128 =? 0 then (if value <=? 65535 then here value else refuse)
    else compact_from turns (i + 1) value
  end.
Definition compact_u16 : Cursor Z := compact_from 3 0 0.

(** [for _ in 0..n] with a loop-carried value. *)
Fixpoint repeated {A} (n : nat) (body : A → Cursor A) (a : A) : Cursor A :=
  match n with
  | O => here a
  | S n => let% a := body a in repeated n body a
  end.

Definition read_index (max_index_used : Z) : Cursor Z := let% b := u8 in here (Z.max max_index_used b).
Definition read_instruction (max_index_used : Z) : Cursor Z :=
  let% max_index_used := read_index max_index_used in
  let% num_accounts := compact_u16 in
  let% max_index_used := repeated (Z.to_nat num_accounts) read_index max_index_used in
  let% data_len := compact_u16 in
  let% _ := skip data_len in
  here max_index_used.
Definition read_lookup (total_keys : Z) : Cursor Z :=
  let% _ := skip 32 in
  let% writable := compact_u16 in
  let% _ := skip writable in
  let% readonly := compact_u16 in
  let% _ := skip readonly in
  here (total_keys + (writable + readonly)).

Definition parse_message_body (versioned : bool) : Cursor unit :=
  let% num_required := u8 in
  let% ro_signed := u8 in
  let% ro_unsigned := u8 in
  let% num_static_keys := compact_u16 in
  if (num_required =? 0) || (num_static_keys <? num_required) || (num_required <=? ro_signed)
     || (num_static_keys - num_required <? ro_unsigned)
  then refuse else
  let% _ := skip (num_static_keys * 32) in
  let% _ := skip 32 in
  let% num_instructions := compact_u16 in
  let% max_index_used := repeated (Z.to_nat num_instructions) read_instruction 0 in
  let% total_keys :=
    (if versioned then
       let% num_lookups := compact_u16 in
       repeated (Z.to_nat num_lookups) read_lookup num_static_keys
     else here num_static_keys) in
  if (0 <? num_instructions) && (total_keys <=? max_index_used) then refuse else here tt.

Definition parses_as_transaction_message (bytes : list Z) : bool :=
  match bytes with
  | [] => false
  | first :: _ =>
    if MAX_TX_MESSAGE_LEN <? Z.of_nat (length bytes) then false else
    let versioned := negb (Z.land first 128 =? 0) in
    match parse_message_body versioned bytes (if versioned then 1%nat else 0%nat) with
    | Some (_, pos) => Nat.eqb pos (length bytes)
    | None => false
    end
  end.

(** * The grammar *)

Record Instruction := mkInstruction { program_id_index : Z; accounts : list Z; ix_data : list Z }.
Record TableLookup := mkLookup { table : list Z; writable : list Z; readonly : list Z }.
(** A transaction message: legacy, or of a version with lookup tables. *)
Record TxMessage := mkTxMessage {
  version : option Z;
  num_required_signatures : Z;
  num_readonly_signed : Z;
  num_readonly_unsigned : Z;
  account_keys : list (list Z);
  recent_blockhash : list Z;
  instructions : list Instruction;
  lookups : list TableLookup;
}.

(** A length as [short_vec] writes it, with or without needless bytes. *)
Inductive length_bytes : Z → list Z → Prop :=
| len_one a : 0 ≤ a < 128 → length_bytes a [a]
| len_two a b : 0 ≤ a < 128 → 0 ≤ b < 128 → length_bytes (a + 128 * b) [a + 128; b]
| len_three a b c : 0 ≤ a < 128 → 0 ≤ b < 128 → 0 ≤ c < 128 → a + 128 * b + 16384 * c ≤ 65535 →
    length_bytes (a + 128 * b + 16384 * c) [a + 128; b + 128; c].
(** A vector on the wire: its length, then its elements. *)
Definition vec_bytes {A} (elem : A → list Z → Prop) (v : list A) (l : list Z) : Prop :=
  ∃ n es, l = n ++ concat es ∧ length_bytes (Z.of_nat (length v)) n ∧ Forall2 elem v es.

Definition byte_wire (b : Z) (l : list Z) : Prop := l = [b].
Definition key_wire (k l : list Z) : Prop := l = k ∧ length k = 32%nat.
Definition instruction_wire (i : Instruction) (l : list Z) : Prop :=
  ∃ a d, l = program_id_index i :: a ++ d ∧ vec_bytes byte_wire (accounts i) a ∧ vec_bytes byte_wire (ix_data i) d.
Definition lookup_wire (t : TableLookup) (l : list Z) : Prop :=
  ∃ w r, l = table t ++ w ++ r ∧ length (table t) = 32%nat ∧ vec_bytes byte_wire (writable t) w ∧
    vec_bytes byte_wire (readonly t) r.
Definition message_wire (m : TxMessage) (l : list Z) : Prop :=
  ∃ v k i t, l = v ++ [num_required_signatures m; num_readonly_signed m; num_readonly_unsigned m] ++
      k ++ recent_blockhash m ++ i ++ t ∧
    vec_bytes key_wire (account_keys m) k ∧ length (recent_blockhash m) = 32%nat ∧
    vec_bytes instruction_wire (instructions m) i ∧
    match version m with
    | Some n => v = [n + 128] ∧ 0 ≤ n < 128 ∧ vec_bytes lookup_wire (lookups m) t
    | None => v = [] ∧ num_required_signatures m < 128 ∧ lookups m = [] ∧ t = []
    end.

(** What a node asks of a message before it takes it. *)
Definition keys_of (m : TxMessage) : Z :=
  Z.of_nat (length (account_keys m)) +
  foldr (λ t n, Z.of_nat (length (writable t)) + Z.of_nat (length (readonly t)) + n) 0 (lookups m).
Definition sanitized (m : TxMessage) : Prop :=
  let keys := Z.of_nat (length (account_keys m)) in
  0 < num_required_signatures m ≤ keys ∧
  num_readonly_signed m < num_required_signatures m ∧
  num_readonly_unsigned m ≤ keys - num_required_signatures m ∧
  Forall (λ i, program_id_index i < keys_of m ∧ Forall (λ a, a < keys_of m) (accounts i)) (instructions m).

(** * Readers and languages *)

Definition is_byte (b : Z) : Prop := 0 ≤ b < 256.

(** [p] reads exactly the words of the language [L], from any place of any bytes. *)
Definition reads {A} (p : Cursor A) (L : A → list Z → Prop) : Prop := ∀ buf pos a pos',
  Forall is_byte buf → (pos ≤ length buf)%nat →
  p buf pos = Some (a, pos') ↔
  ∃ l rest, drop pos buf = l ++ rest ∧ pos' = (pos + length l)%nat ∧ L a l.

(** One word and then another, which may depend on what the first said. *)
Definition then_word {A B} (L : A → list Z → Prop) (K : A → B → list Z → Prop) (b : B) (l : list Z) : Prop :=
  ∃ a l1 l2, l = l1 ++ l2 ∧ L a l1 ∧ K a b l2.
(** [n] words, each after the value the one before it left. *)
Fixpoint words {A} (L : A → A → list Z → Prop) (n : nat) (a b : A) (l : list Z) : Prop :=
  match n with
  | O => b = a ∧ l = []
  | S n => then_word (L a) (λ a b l, words L n a b l) b l
  end.

Lemma reads_iff {A} (p : Cursor A) L L' : (∀ a l, Forall is_byte l → L a l ↔ L' a l) → reads p L → reads p L'.
Proof.
  intros Heq Hp buf pos a pos' Hb Hpos. rewrite (Hp buf pos a pos' Hb Hpos).
  split; intros (l & rest & Hd & Hp' & HL); exists l, rest; (split_and!; [done..|]);
    apply Heq; try done; apply (Forall_drop _ pos) in Hb; rewrite Hd in Hb; by apply Forall_app in Hb as [? _].
Qed.

Lemma reads_ext {A} (p q : Cursor A) L : (∀ buf pos, p buf pos = q buf pos) → reads p L → reads q L.
Proof. intros E Hp buf pos a pos' ??. rewrite <-E. by apply Hp. Qed.

Lemma here_reads {A} (a : A) : reads (here a) (λ b l, b = a ∧ l = []).
Proof.
  intros buf pos b pos' _ _. unfold here. split.
  - intros [= <- <-]. exists [], (drop pos buf). split_and!; [done | cbn; lia | done..].
  - intros (l & rest & _ & -> & -> & ->). cbn. by rewrite Nat.add_0_r.
Qed.
Lemma refuse_reads {A} : reads (@refuse A) (λ _ _, False).
Proof. intros buf pos b pos' _ _. split; [done|]. by intros (? & ? & _ & _ & []). Qed.

Lemma and_then_reads {A B} (p : Cursor A) (k : A → Cursor B) L K :
  reads p L → (∀ a l, L a l → reads (k a) (K a)) → reads (and_then p k) (then_word L K).
Proof.
  intros Hp Hk buf pos b pos' Hb Hpos. unfold and_then. split.
  - destruct (p buf pos) as [[a mid]|] eqn:E; [|done].
    apply (Hp buf pos) in E as (l1 & rest1 & Hd & -> & HL); [|done..]. intros Ek.
    assert ((pos + length l1 ≤ length buf)%nat) as Hle.
    { apply (f_equal length) in Hd. rewrite length_drop, length_app in Hd. lia. }
    apply (Hk a l1 HL buf) in Ek as (l2 & rest2 & Hd2 & -> & HK); [|done..].
    assert (rest1 = l2 ++ rest2) as ->.
    { by rewrite <-Hd2, <-drop_drop, Hd, drop_app_length. }
    exists (l1 ++ l2), rest2. rewrite length_app, <-app_assoc. split_and!; [done | lia | by exists a, l1, l2].
  - intros (l & rest & Hd & -> & a & l1 & l2 & -> & HL & HK). rewrite <-app_assoc in Hd.
    assert ((pos + length l1 ≤ length buf)%nat) as Hle.
    { apply (f_equal length) in Hd. rewrite length_drop, !length_app in Hd. lia. }
    assert (p buf pos = Some (a, (pos + length l1)%nat)) as ->.
    { apply Hp; [done..|]. by exists l1, (l2 ++ rest). }
    apply (Hk a l1 HL); [done..|]. exists l2, rest. rewrite length_app. split_and!; [|lia|done].
    by rewrite <-drop_drop, Hd, drop_app_length.
Qed.

Lemma repeated_reads {A} n (body : A → Cursor A) L a :
  (∀ a, reads (body a) (L a)) → reads (repeated n body a) (words L n a).
Proof.
  intros Hb. revert a. induction n as [|n IH]; intros a; cbn.
  - apply here_reads.
  - apply and_then_reads; [apply Hb | intros; apply IH].
Qed.

Lemma u8_reads : reads u8 (λ b l, l = [b] ∧ is_byte b).
Proof.
  intros buf pos b pos' Hb Hpos. unfold u8. split.
  - intros (x & Hx & [= -> <-])%bind_Some. exists [b], (drop (S pos) buf). split_and!.
    + by rewrite (drop_S _ _ _ Hx).
    + cbn; lia.
    + done.
    + by eapply Forall_lookup_1 in Hb.
  - intros (l & rest & Hd & -> & -> & _). cbn in *.
    assert (buf !! pos = Some b) as -> by (by rewrite <-(Nat.add_0_r pos), <-lookup_drop, Hd).
    cbn. by rewrite Nat.add_1_r.
Qed.
Lemma skip_reads n : 0 ≤ n → reads (skip n) (λ _ l, Z.of_nat (length l) = n).
Proof.
  intros Hn buf pos [] pos' Hb Hpos. unfold skip. split.
  - destruct (Z.ltb_spec (Z.of_nat (length buf)) (Z.of_nat pos + n)); [done|]. intros [= <-].
    exists (take (Z.to_nat n) (drop pos buf)), (drop (Z.to_nat n) (drop pos buf)).
    rewrite take_drop, length_take, length_drop. split_and!; [done | lia | lia].
  - intros (l & rest & Hd & -> & HL). apply (f_equal length) in Hd. rewrite length_drop, length_app in Hd.
    destruct (Z.ltb_spec (Z.of_nat (length buf)) (Z.of_nat pos + n)); [lia|]. repeat f_equal. lia.
Qed.

(** ** Lengths *)

Lemma low_bits b : is_byte b → Z.land b 127 = b mod 128.
Proof. intros _. change 127 with (Z.ones 7). by rewrite Z.land_ones. Qed.
Lemma high_bit b : is_byte b → (Z.land b 128 =? 0) = (b <? 128).
Proof.
  intros [Hb0 Hb1]. assert (forallb (λ n, Bool.eqb (Z.land (Z.of_nat n) 128 =? 0) (Z.of_nat n <? 128)) (seq 0 256) = true) as Hall
    by (vm_compute; reflexivity).
  rewrite forallb_forall in Hall. specialize (Hall (Z.to_nat b)). rewrite Z2Nat.id in Hall by done.
  apply eqb_prop, Hall, in_seq. lia.
Qed.
Lemma lor_shifted v x k : 0 ≤ k → 0 ≤ v < 2 ^ k → Z.lor v (Z.shiftl x k) = v + x * 2 ^ k.
Proof.
  intros Hk Hv. rewrite <-Z.shiftl_mul_pow2, <-Z.add_lor_land by done.
  assert (Z.land v (Z.shiftl x k) = 0) as ->; [|lia].
  apply Z.bits_inj_0. intros n. rewrite Z.land_spec.
  destruct (Z.ltb_spec n k).
  - rewrite (Z.shiftl_spec_low x) by done. apply andb_false_r.
  - rewrite <-(Z.mod_small v (2 ^ k)) by done. by rewrite Z.mod_pow2_bits_high by lia.
Qed.

Fixpoint length_from (turns : nat) (i value n : Z) (l : list Z) : Prop :=
  match turns, l with
  | S turns, b :: l =>
    let value := value + b mod 128 * 2 ^ (7 * i) in
    if b <? 128 then n = value ∧ value ≤ 65535 ∧ l = [] else length_from turns (i + 1) value n l
  | _, _ => False
  end.

Lemma length_from_cons turns i v n b l : length_from (S turns) i v n (b :: l) ↔
  if b <? 128 then n = v + b mod 128 * 2 ^ (7 * i) ∧ n ≤ 65535 ∧ l = []
  else length_from turns (i + 1) (v + b mod 128 * 2 ^ (7 * i)) n l.
Proof. cbn. destruct (b <? 128); [|done]. split; intros (-> & ? & ->); done. Qed.
Lemma compact_from_reads turns i v : 0 ≤ i → 0 ≤ v < 2 ^ (7 * i) →
  reads (compact_from turns i v) (length_from turns i v).
Proof.
  revert i v. induction turns as [|turns IH]; intros i v Hi Hv; cbn [compact_from].
  { eapply reads_iff; [|apply refuse_reads]. done. }
  eapply (reads_iff _ (then_word (λ b l, l = [b] ∧ is_byte b) (λ b n l, length_from (S turns) i v n (b :: l)))).
  { intros n l Hl. split.
    - by intros (b & ? & l2 & -> & [-> _] & H).
    - destruct l as [|b l]; [done|]. intros H. exists b, [b], l. split_and!; [done..| |done]. by inversion Hl. }
  apply and_then_reads; [apply u8_reads|]. intros b l [_ Hb]. cbv zeta.
  rewrite high_bit, low_bits, lor_shifted by (try done; lia).
  pose proof (Z.mod_pos_bound b 128 ltac:(lia)) as Hm.
  assert (0 ≤ v + b mod 128 * 2 ^ (7 * i) < 2 ^ (7 * (i + 1))) as Hv'.
  { replace (7 * (i + 1)) with (7 * i + 7) by lia. rewrite Z.pow_add_r by lia. change (2 ^ 7) with 128. nia. }
  destruct (b <? 128) eqn:Eb; [destruct (Z.leb_spec (v + b mod 128 * 2 ^ (7 * i)) 65535)|].
  - eapply reads_iff; [|apply here_reads]. intros n l' _. rewrite length_from_cons, Eb. split; [|tauto].
    intros [-> ->]. done.
  - eapply reads_iff; [|apply refuse_reads]. intros n l' _. rewrite length_from_cons, Eb. split; [done|].
    intros (-> & ? & _). lia.
  - eapply reads_iff; [|apply IH; [lia|done]]. intros n l' _. by rewrite length_from_cons, Eb.
Qed.

Lemma byte_mod a : is_byte a → a mod 128 = if a <? 128 then a else a - 128.
Proof. unfold is_byte. intros Ha. destruct (Z.ltb_spec a 128); [|symmetry]; Z.to_euclidean_division_equations; lia. Qed.
Lemma length_from_spec n l : Forall is_byte l → length_from 3 0 0 n l ↔
  match l with
  | [a] => a < 128 ∧ n = a
  | [a; b] => 128 ≤ a ∧ b < 128 ∧ n = a - 128 + 128 * b
  | [a; b; c] => 128 ≤ a ∧ 128 ≤ b ∧ c < 128 ∧ n = a - 128 + 128 * (b - 128) + 16384 * c ∧ n ≤ 65535
  | _ => False
  end.
Proof.
  intros Hl. destruct l as [|a [|b [|c [|d l]]]]; decompose_Forall; unfold is_byte in *; rewrite ?length_from_cons, ?byte_mod by done;
    cbn [length_from]; change (2 ^ (7 * 0)) with 1; change (2 ^ (7 * (0 + 1))) with 128; change (2 ^ (7 * (0 + 1 + 1))) with 16384;
    repeat match goal with |- context [?x <? 128] => destruct (Z.ltb_spec x 128) end;
    intuition (first [discriminate | lia | done]).
Qed.
Lemma compact_u16_reads : reads compact_u16 length_bytes.
Proof.
  eapply reads_iff; [|apply (compact_from_reads 3 0 0); cbn; lia]. intros n l Hl. rewrite length_from_spec by done. split.
  - destruct l as [|a [|b [|c [|d l]]]]; try done; intros H'; decompose_Forall; unfold is_byte in *.
    + destruct H' as [? ->]. constructor. lia.
    + destruct H' as (? & ? & ->). replace a with (a - 128 + 128) at 2 by lia. constructor; lia.
    + destruct H' as (? & ? & ? & -> & ?). replace a with (a - 128 + 128) at 2 by lia.
      replace b with (b - 128 + 128) at 2 by lia. constructor; lia.
  - intros []; lia.
Qed.
Lemma length_bytes_range n l : length_bytes n l → 0 ≤ n ≤ 65535.
Proof. intros []; lia. Qed.

(** ** Vectors *)

Section vectors.
Context {A X : Type} (f : A → X → A) (wire : X → list Z → Prop).

Lemma words_many (L : A → A → list Z → Prop) n a b l :
  (∀ a b l, L a b l ↔ ∃ x, wire x l ∧ b = f a x) →
  words L n a b l ↔ ∃ v es, length v = n ∧ l = concat es ∧ Forall2 wire v es ∧ b = foldl f a v.
Proof.
  intros HL. revert a l. induction n as [|n IH]; intros a l; cbn; unfold then_word; split.
  - intros [-> ->]. by exists [], [].
  - intros ([|] & es & Hn & -> & Hw & ->); [|done]. by inversion Hw.
  - intros (a' & l1 & l2 & -> & (x & Hx & ->)%HL & (v & es & <- & -> & Hw & ->)%IH).
    exists (x :: v), (l1 :: es). split_and!; [done..| by constructor | done].
  - intros ([|x v] & es & Hn & -> & Hw & ->); [done|]. inversion Hw as [|? e ? es' He Hes]; subst.
    exists (f a x), e, (concat es'). split_and!; [done | apply HL; eauto |]. apply IH. exists v, es'. by injection Hn as ->.
Qed.
End vectors.

Lemma byte_wires v es : Forall2 byte_wire v es ↔ es = map (λ b, [b]) v.
Proof.
  split.
  - induction 1 as [|b l v es -> _ IH]; [done|]. cbn. by rewrite <-IH.
  - intros ->. induction v; cbn; by constructor.
Qed.
Lemma concat_bytes (v : list Z) : concat (map (λ b, [b]) v) = v.
Proof. induction v as [|b v IH]; cbn; [done | by rewrite IH]. Qed.
Lemma byte_vec v l : vec_bytes byte_wire v l ↔ ∃ n, l = n ++ v ∧ length_bytes (Z.of_nat (length v)) n.
Proof.
  unfold vec_bytes. split.
  - intros (n & es & -> & Hn & ->%byte_wires). rewrite concat_bytes. eauto.
  - intros (n & -> & Hn). exists n, (map (λ b, [b]) v). rewrite concat_bytes, byte_wires. done.
Qed.
Lemma key_wires v es : Forall2 key_wire v es ↔ es = v ∧ Forall (λ k, length k = 32%nat) v.
Proof.
  split.
  - induction 1 as [|k l v es [-> Hk] _ [-> ?]]; [done | by split; [|constructor]].
  - intros [-> Hv]. induction Hv; by constructor.
Qed.

(** Many bytes are so many keys. *)
Lemma keys_split n (l : list Z) : length l = (n * 32)%nat →
  ∃ ks, l = concat ks ∧ length ks = n ∧ Forall (λ k, length k = 32%nat) ks.
Proof.
  revert l. induction n as [|n IH]; intros l Hl.
  - exists []. destruct l; [done | discriminate].
  - destruct (IH (drop 32 l)) as (ks & Hks & Hn & Hf); [rewrite length_drop; lia|].
    exists (take 32 l :: ks). cbn [concat]. rewrite <-Hks, take_drop. cbn. split_and!; [done | lia|].
    constructor; [rewrite length_take; lia | done].
Qed.
Lemma concat_keys (ks : list (list Z)) : Forall (λ k, length k = 32%nat) ks → length (concat ks) = (length ks * 32)%nat.
Proof. induction 1 as [|k ks Hk _ IH]; [done|]. cbn [concat length]. rewrite length_app. lia. Qed.

Lemma read_index_reads m : reads (read_index m) (λ m' l, ∃ b, byte_wire b l ∧ m' = Z.max m b).
Proof.
  eapply reads_iff; [|eapply and_then_reads; [apply u8_reads | intros b l _; apply here_reads]].
  intros m' l Hl. split.
  - intros (b & l1 & l2 & -> & [-> _] & -> & ->). by exists b.
  - intros (b & -> & ->). apply Forall_cons_1 in Hl as [Hl _]. exists b, [b], []. auto.
Qed.

Definition instruction_indexes (i : Instruction) : list Z := program_id_index i :: accounts i.
Definition max_index (m : Z) (i : Instruction) : Z := foldl Z.max m (instruction_indexes i).
Lemma read_instruction_reads m : reads (read_instruction m) (λ m' l, ∃ i, instruction_wire i l ∧ m' = max_index m i).
Proof.
  eapply reads_iff; [|apply and_then_reads; [apply read_index_reads|]; intros m1 l1 _;
    apply and_then_reads; [apply compact_u16_reads|]; intros na l2 _;
    apply and_then_reads; [apply repeated_reads, read_index_reads|]; intros m2 l3 _;
    apply and_then_reads; [apply compact_u16_reads|]; intros nd l4 Hnd;
    apply and_then_reads; [apply skip_reads, (length_bytes_range _ _ Hnd) | intros; apply here_reads]].
  intros m' l Hl. split.
  - intros (m1 & ? & ? & -> & (p & [= ->] & ->) & n & ln & ? & -> & Hn & m2 & la & ? & -> & Ha & nd & lnd & ? & -> & Hnd & [] & ld & ? & -> & Hd & -> & ->).
    apply (words_many Z.max byte_wire) in Ha as (v & es & Hv & -> & ->%byte_wires & ->); [|done].
    exists (mkInstruction p v ld). split; [|done]. exists (ln ++ v), (lnd ++ ld). cbn. rewrite !byte_vec, concat_bytes, !app_nil_r, <-!app_assoc.
    split_and!; [done | exists ln | exists lnd]; (split; [done|]).
    + rewrite Hv, Z2Nat.id; [done | apply length_bytes_range in Hn; lia].
    + by rewrite Hd.
  - intros ([p v d] & (a & d' & -> & (ln & -> & Hn)%byte_vec & (lnd & -> & Hnd)%byte_vec) & ->). cbn in *.
    exists (Z.max m p), [p], ((ln ++ v) ++ lnd ++ d). split_and!; [done | exists p; by split|].
    exists (Z.of_nat (length v)), ln, (v ++ lnd ++ d). split_and!; [by rewrite <-app_assoc | done|].
    eexists _, v, (lnd ++ d). split_and!; [done | |].
    { apply (words_many Z.max byte_wire); [done|]. exists v, (map (λ b, [b]) v). rewrite concat_bytes, byte_wires, Nat2Z.id. done. }
    exists (Z.of_nat (length d)), lnd, d. split_and!; [done..|]. exists tt, d, []. by rewrite app_nil_r.
Qed.
Definition more_keys (total : Z) (t : TableLookup) : Z :=
  total + (Z.of_nat (length (writable t)) + Z.of_nat (length (readonly t))).
Lemma read_lookup_reads total : reads (read_lookup total) (λ total' l, ∃ t, lookup_wire t l ∧ total' = more_keys total t).
Proof.
  eapply reads_iff; [|apply and_then_reads; [by apply skip_reads|]; intros ? l1 _;
    apply and_then_reads; [apply compact_u16_reads|]; intros nw l2 Hnw;
    apply and_then_reads; [apply skip_reads, (length_bytes_range _ _ Hnw)|]; intros ? l3 _;
    apply and_then_reads; [apply compact_u16_reads|]; intros nr l4 Hnr;
    apply and_then_reads; [apply skip_reads, (length_bytes_range _ _ Hnr) | intros; apply here_reads]].
  intros total' l _. split.
  - intros ([] & lt & ? & -> & Ht & nw & lnw & ? & -> & Hnw & [] & lw & ? & -> & Hw & nr & lnr & ? & -> & Hnr & [] & lr & ? & -> & Hr & -> & ->).
    exists (mkLookup lt lw lr). unfold more_keys. cbn. subst. split; [|done]. exists (lnw ++ lw), (lnr ++ lr).
    rewrite !byte_vec. cbn. rewrite app_nil_r, <-!app_assoc. split_and!; [done | lia | eauto | eauto].
  - intros ([lt lw lr] & (w & r & -> & Ht & (lnw & -> & Hnw)%byte_vec & (lnr & -> & Hnr)%byte_vec) & ->). cbn in *.
    exists tt, lt, ((lnw ++ lw) ++ lnr ++ lr). split_and!; [done | lia|].
    exists (Z.of_nat (length lw)), lnw, (lw ++ lnr ++ lr). split_and!; [by rewrite <-app_assoc | done|].
    exists tt, lw, (lnr ++ lr). split_and!; [done..|].
    exists (Z.of_nat (length lr)), lnr, lr. split_and!; [done..|]. exists tt, lr, []. by rewrite app_nil_r.
Qed.

(** ** The message *)

Definition tables_wire (versioned : bool) (m : TxMessage) (l : list Z) : Prop :=
  if versioned then vec_bytes lookup_wire (lookups m) l else lookups m = [] ∧ l = [].
(** A message from its header on. *)
Definition body_wire (versioned : bool) (m : TxMessage) (l : list Z) : Prop :=
  ∃ k i t, l = [num_required_signatures m; num_readonly_signed m; num_readonly_unsigned m] ++
      k ++ recent_blockhash m ++ i ++ t ∧
    vec_bytes key_wire (account_keys m) k ∧ length (recent_blockhash m) = 32%nat ∧
    vec_bytes instruction_wire (instructions m) i ∧ tables_wire versioned m t.

Lemma foldl_more_keys n ts : foldl more_keys n ts =
  n + foldr (λ t n, Z.of_nat (length (writable t)) + Z.of_nat (length (readonly t)) + n) 0 ts.
Proof. revert n. induction ts as [|t ts IH]; intros n; cbn; [lia|]. rewrite IH. unfold more_keys. lia. Qed.
Lemma foldl_max_lt m l n : foldl Z.max m l < n ↔ m < n ∧ Forall (λ x, x < n) l.
Proof.
  revert m. induction l as [|x l IH]; intros m; cbn; [by rewrite Forall_nil; tauto|].
  rewrite IH, Forall_cons. split; [intros [? ?] | intros (? & ? & ?)]; split_and!; try done; lia.
Qed.
Lemma max_index_lt m ins n : foldl max_index m ins < n ↔
  m < n ∧ Forall (λ i, program_id_index i < n ∧ Forall (λ a, a < n) (accounts i)) ins.
Proof.
  revert m. induction ins as [|i ins IH]; intros m; cbn; [by rewrite Forall_nil; tauto|].
  rewrite IH, Forall_cons. unfold max_index, instruction_indexes. cbn. rewrite foldl_max_lt, Z.max_lub_lt_iff. tauto.
Qed.
Lemma keys_of_from m : foldl more_keys (Z.of_nat (length (account_keys m))) (lookups m) = keys_of m.
Proof. apply foldl_more_keys. Qed.

(** What [parse_message_body] checks after the header and at the end. *)
Lemma sanitized_iff m : sanitized m ↔
  let keys := Z.of_nat (length (account_keys m)) in
  (num_required_signatures m =? 0) || (keys <? num_required_signatures m) ||
    (num_required_signatures m <=? num_readonly_signed m) ||
    (keys - num_required_signatures m <? num_readonly_unsigned m) = false ∧ 0 ≤ num_required_signatures m ∧
  (0 <? Z.of_nat (length (instructions m))) && (keys_of m <=? foldl max_index 0 (instructions m)) = false.
Proof.
  unfold sanitized. cbv zeta. rewrite !orb_false_iff, andb_false_iff.
  assert (Z.of_nat (length (account_keys m)) ≤ keys_of m) as Hk.
  { unfold keys_of. induction (lookups m) as [|t ts IH]; cbn; lia. }
  pose proof (max_index_lt 0 (instructions m) (keys_of m)) as Hx. split.
  - intros (? & ? & ? & Hi). split_and!; try lia. right. apply Z.leb_gt, Hx. split; [lia | done].
  - intros ((((? & ?) & ?) & ?) & ? & Hi). split_and!; try lia. destruct Hi as [Hi|Hi].
    + destruct (instructions m); [done|]. by apply Z.ltb_ge in Hi.
    + apply Z.leb_gt in Hi. apply Hx in Hi. tauto.
Qed.

Lemma tables_reads (versioned : bool) n :
  reads (if versioned then and_then compact_u16 (λ k, repeated (Z.to_nat k) read_lookup n) else here n)
    (λ total l, ∃ ts, (if versioned then vec_bytes lookup_wire ts l else ts = [] ∧ l = []) ∧ total = foldl more_keys n ts).
Proof.
  destruct versioned.
  - eapply reads_iff; [|apply and_then_reads; [apply compact_u16_reads | intros; apply repeated_reads, read_lookup_reads]].
    intros total l _. split.
    + intros (k & lk & ? & -> & Hk & (ts & es & Hn & -> & Hw & ->)%(words_many more_keys lookup_wire)); [|done].
      exists ts. split; [|done]. exists lk, es. split_and!; [done | |done].
      rewrite Hn, Z2Nat.id; [done | apply length_bytes_range in Hk; lia].
    + intros (ts & (lk & es & -> & Hk & Hw) & ->). exists (Z.of_nat (length ts)), lk, (concat es). split_and!; [done..|].
      apply (words_many more_keys lookup_wire); [done|]. exists ts, es. by rewrite Nat2Z.id.
  - eapply reads_iff; [|apply here_reads]. intros total l _. split.
    + intros [-> ->]. by exists [].
    + by intros (ts & [-> ->] & ->).
Qed.
Lemma instructions_reads n : 0 ≤ n →
  reads (repeated (Z.to_nat n) read_instruction 0)
    (λ m l, ∃ ins es, Z.of_nat (length ins) = n ∧ l = concat es ∧ Forall2 instruction_wire ins es ∧ m = foldl max_index 0 ins).
Proof.
  intros Hn. eapply reads_iff; [|apply repeated_reads, read_instruction_reads]. intros m l _.
  rewrite (words_many max_index instruction_wire) by done.
  split; intros (ins & es & Hi & -> & Hw & ->); exists ins, es; (split_and!; [lia | done..]).
Qed.

(** The message after its header, with the checks on it. *)
Definition rest_wire (versioned : bool) (nr rs ru nk : Z) (l : list Z) : Prop :=
  (nr =? 0) || (nk <? nr) || (nr <=? rs) || (nk - nr <? ru) = false ∧
  ∃ k bh ni es t ins ts, l = k ++ bh ++ ni ++ concat es ++ t ∧ Z.of_nat (length k) = nk * 32 ∧ Z.of_nat (length bh) = 32 ∧
    length_bytes (Z.of_nat (length ins)) ni ∧ Forall2 instruction_wire ins es ∧
    (if versioned then vec_bytes lookup_wire ts t else ts = [] ∧ t = []) ∧
    (0 <? Z.of_nat (length ins)) && (foldl more_keys nk ts <=? foldl max_index 0 ins) = false.

Lemma checked_reads (b : bool) : reads (if b then refuse else here tt) (λ _ l, b = false ∧ l = []).
Proof.
  destruct b; (eapply reads_iff; [|apply refuse_reads || apply here_reads]); intros [] l _; [by split; [|intros []] | tauto].
Qed.
Lemma rest_reads (versioned : bool) nr rs ru nk : 0 ≤ nk →
  reads (if (nr =? 0) || (nk <? nr) || (nr <=? rs) || (nk - nr <? ru) then refuse else
    let% _ := skip (nk * 32) in
    let% _ := skip 32 in
    let% num_instructions := compact_u16 in
    let% max_index_used := repeated (Z.to_nat num_instructions) read_instruction 0 in
    let% total_keys := (if versioned then let% num_lookups := compact_u16 in
                          repeated (Z.to_nat num_lookups) read_lookup nk else here nk) in
    if (0 <? num_instructions) && (total_keys <=? max_index_used) then refuse else here tt)
    (λ _, rest_wire versioned nr rs ru nk).
Proof.
  intros Hnk. unfold rest_wire. destruct (_ || _ || _ || _).
  { eapply reads_iff; [|apply refuse_reads]. intros ? l _. split; [done | by intros [? _]]. }
  eapply reads_iff; [|apply and_then_reads; [apply skip_reads; lia|]; intros ? l1 _;
    apply and_then_reads; [by apply skip_reads|]; intros ? l2 _;
    apply and_then_reads; [apply compact_u16_reads|]; intros ni l3 Hni;
    apply and_then_reads; [apply instructions_reads, (length_bytes_range _ _ Hni)|]; intros mx l4 _;
    apply and_then_reads; [apply tables_reads | intros; apply checked_reads]].
  intros [] l _. split.
  - intros ([] & k & ? & -> & Hk & [] & bh & ? & -> & Hbh & ni & lni & ? & -> & Hni & mx & ? & ? & -> &
      (ins & es & Hins & -> & Hes & ->) & tot & t & ? & -> & (ts & Ht & ->) & Hc & ->).
    split; [done|]. exists k, bh, lni, es, t, ins, ts. subst ni. rewrite app_nil_r. done.
  - intros [_ (k & bh & ni & es & t & ins & ts & -> & Hk & Hbh & Hni & Hes & Ht & Hc)].
    exists tt, k, (bh ++ ni ++ concat es ++ t). split_and!; [done..|].
    exists tt, bh, (ni ++ concat es ++ t). split_and!; [done..|].
    exists (Z.of_nat (length ins)), ni, (concat es ++ t). split_and!; [done..|].
    exists (foldl max_index 0 ins), (concat es), t. split_and!; [done | by exists ins, es|].
    exists (foldl more_keys nk ts), t, []. rewrite app_nil_r. split_and!; [done | by exists ts | done..].
Qed.

Lemma body_of_rest versioned nr rs ru nk ln l : length_bytes nk ln → 0 ≤ nr → rest_wire versioned nr rs ru nk l →
  ∃ m, body_wire versioned m (nr :: rs :: ru :: ln ++ l) ∧ sanitized m.
Proof.
  intros Hn Hnr (Hc & k & bh & ni & es & t & ins & ts & -> & Hk & Hbh & Hni & Hes & Ht & Hx).
  pose proof (length_bytes_range _ _ Hn).
  destruct (keys_split (Z.to_nat nk) k) as (ks & -> & Hks & Hf); [lia|].
  exists (mkTxMessage (if versioned then Some 0 else None) nr rs ru ks bh ins ts).
  assert (Z.of_nat (length ks) = nk) as E by lia. split.
  - exists (ln ++ concat ks), (ni ++ concat es), t. cbn [num_required_signatures num_readonly_signed num_readonly_unsigned
      recent_blockhash account_keys instructions]. rewrite <-!app_assoc. split_and!; [done | | lia | | by destruct versioned].
    + exists ln, ks. by rewrite key_wires, E.
    + by exists ni, es.
  - apply sanitized_iff. cbv zeta. cbn. unfold keys_of. cbn. rewrite E, <-foldl_more_keys. done.
Qed.
Lemma rest_of_body versioned m l : body_wire versioned m l → sanitized m → ∃ nk ln rest,
  l = num_required_signatures m :: num_readonly_signed m :: num_readonly_unsigned m :: ln ++ rest ∧ length_bytes nk ln ∧
  rest_wire versioned (num_required_signatures m) (num_readonly_signed m) (num_readonly_unsigned m) nk rest.
Proof.
  intros (k & i & t & -> & (ln & ks & -> & Hn & [-> Hf]%key_wires) & Hbh & (ni & es & -> & Hni & Hes) & Ht) Hs.
  exists (Z.of_nat (length (account_keys m))), ln, (concat (account_keys m) ++ recent_blockhash m ++ (ni ++ concat es) ++ t).
  apply sanitized_iff in Hs as (Hc & _ & Hx). rewrite <-keys_of_from in Hx. split_and!; [by rewrite <-app_assoc | done |]. split; [done|].
  exists (concat (account_keys m)), (recent_blockhash m), ni, es, t, (instructions m), (lookups m).
  rewrite <-!app_assoc, concat_keys by done. split_and!; [done | lia | lia | done..].
Qed.
Lemma parse_message_body_reads versioned :
  reads (parse_message_body versioned) (λ _ l, ∃ m, body_wire versioned m l ∧ sanitized m).
Proof.
  unfold parse_message_body. eapply reads_iff; [|apply and_then_reads; [apply u8_reads|]; intros nr l1 _;
    apply and_then_reads; [apply u8_reads|]; intros rs l2 _; apply and_then_reads; [apply u8_reads|]; intros ru l3 _;
    apply and_then_reads; [apply compact_u16_reads|]; intros nk l4 Hnk; apply rest_reads, (length_bytes_range _ _ Hnk)].
  intros [] l Hl. split.
  - intros (nr & ? & ? & -> & [-> [? _]] & rs & ? & ? & -> & [-> _] & ru & ? & ? & -> & [-> _] & nk & ln & ? & -> & Hn & Hr).
    exact (body_of_rest _ _ _ _ _ _ _ Hn H Hr).
  - intros (m & Hb & Hs). destruct (rest_of_body _ _ _ Hb Hs) as (nk & ln & rest & -> & Hn & Hr). decompose_Forall.
    do 3 (eexists _, [_], _; split; [by cbn|]; split; [by auto|]). by exists nk, ln, rest.
Qed.

Lemma wire_body m l : message_wire m l ↔
  match version m with
  | Some n => ∃ b, l = (n + 128) :: b ∧ 0 ≤ n < 128 ∧ body_wire true m b
  | None => num_required_signatures m < 128 ∧ body_wire false m l
  end.
Proof.
  unfold message_wire, body_wire. destruct (version m) as [n|]; split.
  - intros (v & k & i & t & -> & Hk & Hbh & Hi & -> & Hn & Ht). eexists. split; [done|]. split; [done|]. by exists k, i, t.
  - intros (b & -> & Hn & k & i & t & -> & Hk & Hbh & Hi & Ht). by exists [n + 128], k, i, t.
  - intros (v & k & i & t & -> & Hk & Hbh & Hi & -> & Hn & Hl & ->). split; [done|]. by exists k, i, [].
  - intros (Hn & k & i & t & -> & Hk & Hbh & Hi & Ht). by exists [], k, i, t.
Qed.
Lemma body_version versioned m v l : body_wire versioned m l →
  body_wire versioned (mkTxMessage v (num_required_signatures m) (num_readonly_signed m) (num_readonly_unsigned m)
    (account_keys m) (recent_blockhash m) (instructions m) (lookups m)) l.
Proof. done. Qed.
Lemma whole_read {A} (p : Cursor A) L buf pos a : reads p L → Forall is_byte buf → (pos ≤ length buf)%nat →
  p buf pos = Some (a, length buf) ↔ L a (drop pos buf).
Proof.
  intros Hp Hb Hpos. rewrite (Hp buf pos a _ Hb Hpos). split.
  - intros (l & rest & Hd & Hlen & HL). apply (f_equal length) in Hd as Hd'. rewrite length_drop, length_app in Hd'.
    destruct rest; [|cbn in Hd'; lia]. rewrite app_nil_r in Hd. by rewrite Hd.
  - intros HL. exists (drop pos buf), []. rewrite app_nil_r, length_drop. split_and!; [done | lia | done].
Qed.

Lemma first_body versioned m b : body_wire versioned m b → ∃ rest, b = num_required_signatures m :: rest.
Proof. intros (k & i & t & -> & _). by eexists. Qed.
Lemma parses_body bytes first rest : bytes = first :: rest → Forall is_byte bytes → Z.of_nat (length bytes) ≤ MAX_TX_MESSAGE_LEN →
  parses_as_transaction_message bytes = true ↔
  ∃ m, (if first <? 128 then body_wire false m bytes else body_wire true m rest) ∧ sanitized m.
Proof.
  intros E Hb Hlen. unfold parses_as_transaction_message. rewrite E at 1.
  destruct (Z.ltb_spec MAX_TX_MESSAGE_LEN (Z.of_nat (length bytes))); [lia|]. cbv zeta.
  assert (is_byte first) as Hf by (rewrite E in Hb; by inversion Hb). rewrite high_bit by done.
  set (versioned := negb (first <? 128)). set (pos := if versioned then 1%nat else 0%nat).
  assert ((pos ≤ length bytes)%nat) as Hpos by (rewrite E; cbn; unfold pos; destruct versioned; lia).
  assert ((∃ m, (if first <? 128 then body_wire false m bytes else body_wire true m rest) ∧ sanitized m) ↔
    ∃ m, body_wire versioned m (drop pos bytes) ∧ sanitized m) as ->.
  { unfold pos, versioned. rewrite E. by destruct (first <? 128). }
  pose proof (whole_read _ _ bytes pos tt (parse_message_body_reads versioned) Hb Hpos) as Hw. rewrite <-Hw.
  destruct (parse_message_body versioned bytes pos) as [[[] p]|]; [|done].
  rewrite Nat.eqb_eq. split; [by intros -> | by intros [= ->]].
Qed.

(** The guard is exact.  Bytes are taken for a transaction message when, and only when,
    they fit a packet and are one: a legacy message or one of any version, its lengths in
    any encoding of at most three bytes, that a node's checks let through. *)
Theorem transaction_messages_recognised bytes : Forall is_byte bytes →
  parses_as_transaction_message bytes = true ↔
  Z.of_nat (length bytes) ≤ MAX_TX_MESSAGE_LEN ∧ ∃ m, message_wire m bytes ∧ sanitized m.
Proof.
  intros Hb. destruct bytes as [|first rest] eqn:E.
  { split; [done|]. intros (_ & m & Hw%wire_body & _). destruct (version m); [by destruct Hw as (? & ? & _)|].
    destruct Hw as [_ [r Hr]%first_body]. done. }
  rewrite <-E in *. destruct (Z.leb_spec (Z.of_nat (length bytes)) MAX_TX_MESSAGE_LEN) as [Hlen|Hlen].
  2:{ split; [|lia]. unfold parses_as_transaction_message. rewrite E at 1.
      by destruct (Z.ltb_spec MAX_TX_MESSAGE_LEN (Z.of_nat (length bytes))); [|lia]. }
  rewrite (parses_body _ _ _ E Hb Hlen). assert (is_byte first) as Hf by (rewrite E in Hb; by inversion Hb).
  split; [intros (m & Hw & Hs); split; [done|] | intros (_ & m & Hw%wire_body & Hs)].
  - exists (mkTxMessage (if first <? 128 then None else Some (first - 128)) (num_required_signatures m) (num_readonly_signed m)
      (num_readonly_unsigned m) (account_keys m) (recent_blockhash m) (instructions m) (lookups m)).
    split; [|done]. apply wire_body. cbn [version]. destruct (Z.ltb_spec first 128).
    + split; [|by apply body_version]. destruct (first_body _ _ _ Hw) as [r Hr]. rewrite E in Hr. by injection Hr as -> _.
    + exists rest. unfold is_byte in Hf. split_and!; [by rewrite E; f_equal; lia | lia | lia | by apply body_version].
  - exists m. split; [|done]. destruct (version m) as [n|].
    + destruct Hw as (b & Hbb & Hn & Hw). rewrite E in Hbb. injection Hbb as -> ->.
      by destruct (Z.ltb_spec (n + 128) 128); [lia|].
    + destruct Hw as [Hn Hw]. destruct (first_body _ _ _ Hw) as [r Hr]. rewrite E in Hr. injection Hr as -> ->.
      by destruct (Z.ltb_spec (num_required_signatures m) 128); [|lia].
Qed.
