(* ===== verification/WalletPolicy.v ===== *)
(** The keystore's judgement of a wallet's request (keystore-worker/src/api.rs and the
    request types of api_support.rs): the policy read from the chain, the stand-in for a
    wallet that has none, and the approvers' votes, counted by the keystore itself.

    The policy engine is the crate shared-tee-helpers, which is not in the repository: the
    operations and the parts of its types that api.rs names are a class, an operation's
    patterns are a view of it.  The chain's answers may change at every question: the
    client acts on a world, which also holds the clock and the source of randomness. *)

From S2P Require Export Access KeyNames Solana.

(** * shared-tee-helpers *)

(** Types api.rs passes on unopened.  [Extra] is whatever other fields a record has. *)
Class PolicyTypes := {
  Op : Type;
  Threshold : Type;
  VoteShape : Type;
  UsageState : Type;
  Extra : Type;
  no_extra : Extra;
}.

Section policy_types.
Context `{PolicyTypes}.

Record Approver := mkApprover { approver_account : option string; approver_pin : option string; approver_extra : Extra }.
Record Approval := mkApproval {
  approvers : option (list Approver);
  approval_threshold : option Threshold;
  approval_locked : option bool;
  approval_extra : Extra;
}.
Record Capability := mkCapability { cap_allowed : option bool; cap_extra : Extra }.
Record SignMessageCap := mkSignMessageCap { allowed_recipients : option (list string); smc_extra : Extra }.
Record Capabilities := mkCapabilities {
  cap_raw_sign : option Capability;
  cap_confidential : option Capability;
  cap_payment_check : option Capability;
  cap_swap : option Capability;
  cap_cross_chain_withdraw : option Capability;
  cap_limit_order : option Capability;
  cap_sign_message : option SignMessageCap;
  cap_evm_sign : option Extra;
  cap_solana_sign : option Extra;
  cap_intents_call : option Extra;
}.
Record Policy := mkPolicy {
  pol_frozen : bool;
  pol_approval : option Approval;
  pol_capabilities : option Capabilities;
  pol_webhook_url : option string;
  pol_extra : Extra;
}.
(** [Policy::default()]. *)
Definition default_policy : Policy := mkPolicy false None None None no_extra.
Definition with_frozen (frozen : bool) (p : Policy) : Policy :=
  mkPolicy frozen (pol_approval p) (pol_capabilities p) (pol_webhook_url p) (pol_extra p).
End policy_types.

Inductive Decision := Allow | FrozenWallet | Deny (reason : string) | RequiresApproval (threshold : Z).
Inductive BindMode := Built | HashPinned | Trusted | PolicyUpdateMode.
Inductive VoteVerb := Approve | Reject.

(** An operation as the patterns of api.rs take it apart. *)
Inductive OpView :=
| OpTransfer (to amount : string)
| OpCall (to method args_base64 gas deposit : string)
| OpDelete (beneficiary : string)
| OpWithdraw (to amount token : string)
| OpIntentsTransfer (to amount token : string)
| OpIntentsStorageDeposit (contract_id account_id amount : string)
| OpAuth (purpose seed : string) (vault_id : option string)
| OpRaw (chain payload_hash : string)
| OpSignMessage (message_hash recipient : string)
| OpPolicyUpdate (wallet_pubkey policy_hash : string) (version : Z) (locked : bool) (caller : string)
| OpOther.

Class PolicyCrate `{PolicyTypes} := {
  op_view : Op → OpView;
  policy_update : string → string → Z → bool → string → Op;   (* [Op::PolicyUpdate] *)
  request_hash : Op → string;
  evaluate : Policy → Op → option UsageState → Z → Decision;
  usage_of : Value → UsageState;                               (* [Usage::from_current_usage] *)
  bind_mode : Op → BindMode;
  signing_version_gate : string → option string → option Z → result unit string;
  (* [approver_standing(policy, id)] and its two questions *)
  admits_key : Policy → string → string → bool;
  admits_contract_vote : Policy → string → bool;
  vote_message : VoteVerb → string → string → string → string; (* approval id, wallet key, request hash *)
  AUTHORIZATION_MAX_BYTES : Z;
  required : Threshold → Z;
  lock_is_satisfiable : Policy → result unit string;
  policy_canonical_hash_hex : Value → string;
  is_intents_contract : string → bool;
  GATE_ONLY_INTENTS_METHODS : list string;
  intents_storage_deposit_amount : string → result Z string;
  build_auth_message : string → string → Z → option string → result string string;
  build_jwt_auth_message : string → string → string;
  build_jwt_versioned_nonce : string → Z → Z → string → string;
  evm_sign_decision : option Policy → bool → Z → Decision;
  solana_sign_decision : option Policy → bool → Z → Decision;
  is_evm_chain : string → bool;
  is_solana_chain : string → bool;
  is_valid_sub_path : string → bool;
  condition_bounds : Value → result unit string;
  (* serde's readers of a policy, from bytes and from a value *)
  policy_from_slice : string → option Policy;
  policy_from_value : Value → option Policy;
}.

(** * Other crates *)

Inductive NearKeyType := NkEd25519 | NkSecp256k1 | NkMlDsa65.
#[export] Instance near_key_type_eq : EqDecision NearKeyType.
Proof. solve_decision. Defined.

(** near-primitives: a transaction of version 0 with the actions the keystore builds. *)
Inductive TxAction :=
| TransferOf (deposit : Z)
| FunctionCallOf (method args : string) (gas deposit : Z)
| DeleteAccountTo (beneficiary : string).
Record Transaction := mkTransaction {
  tx_signer_id : string;
  tx_public_key : NearKeyType * string;
  tx_nonce : Z;
  tx_receiver_id : string;
  tx_block_hash : string;
  tx_actions : list TxAction;
}.

(** serde_json, hex, bs58, near-crypto and near-primitives. *)
Class SignCrates := {
  json_of_text : string → option Value;
  text_of_json : Value → string;
  condition_value : Condition → option Value;        (* [serde_json::to_value] *)
  condition_text : Condition → option string;        (* [serde_json::to_string] *)
  hex_parse : string → option string;
  bs58_text : string → string;
  near_key : string → option (NearKeyType * string);
  near_key_text : NearKeyType * string → string;
  near_signature : string → option (NearKeyType * string);
  signature_from_parts : NearKeyType → string → option (NearKeyType * string);
  near_verify : NearKeyType * string → string → NearKeyType * string → bool;  (* signature, data, key *)
  tx_borsh : Transaction → string;
  tx_get_hash : Transaction → string;
  signed_tx_borsh : NearKeyType * string → Transaction → string;
}.

(** * Requests *)

Record ApproverSig := mkApproverSig { as_approver_id : string; as_public_key : string; as_signature : string; as_nonce : string }.
Record ContractVote `{PolicyTypes} := mkContractVote { cv_approver_id : string; cv_shape : VoteShape; cv_authorization : string }.
Record ApprovalInfo `{PolicyTypes} := mkApprovalInfo {
  ai_approval_id : string;
  ai_recipient : string;
  ai_approvals : list ApproverSig;
  ai_rejections : list ApproverSig;
  ai_contract_approvals : list ContractVote;
  ai_contract_rejections : list ContractVote;
}.

(** * Refusals *)

Inductive Why :=
| WalletIdMalformed | HeaderNotText | HeaderNotAccount (s : string)
| NoClient | NotDerivedKey (e : CryptoError)
| NoApprovers (threshold : Z) | NoApprovals | TooManyVotes (approvals rejections : Z)
| TooManyContractVotes (approvals rejections : Z) | OtherRecipient (said ours : string)
| KeyUnverified (approver why : string) | VoteUnresolved (approver why : string)
| Vetoed (approver : string) | TooFew (counted threshold : Z)
| PolicyUnread (why : string) | SchemaMismatch (field : string) | NoEncryptedData | NotBase64 | NotDecrypted (e : CryptoError)
| PolicyNotParsed | UpdateElsewhere | IsFrozen | Said (reason : string) | ByLock (threshold : Z) (why : Why)
| BadAmount | BadTo | BadArgs | BadGas | BadDeposit | BadBeneficiary | GateOnly (to method : string)
| BadContract | BadAccount | ViewFailed (what why : string) | NoMinimum (contract : string) | WrongDeposit (min amount : Z)
| AlreadyRegistered (account : string) | SaltNotText | SaltNotHex | SaltLength (n : Z) | JwtWithVault
| BadImplicitAccount | BadPublicKey | BadSignature | NotSerialized | KeyQueryFailed (why : string)
| NoBytes | NotTheHash | EvmElsewhere (chain : string) | OtherChain (chain : string)
| IntentsRecipient (r : string) | RecipientNotListed (r : string) | NoArtifact | NoMessage | NoNonce | NoRecipient
| BadNonce | NonceLength (n : Z) | NotIntents (r : string) | WrongMode
| InlineDisabled | Missing (field : string) | BothTargets | NoTarget | NotSealedHere | ConditionRefused (why : string)
| ConditionNotSerialized | NotJson | NotPolicy | LockedWithoutPolicy | LockedWithoutThreshold
| NoApprovalHere | NotEvm (chain : string) | BadSubPath | SubPathNotEvm | BadTypedData | EvmFailed | UnsupportedChain (chain : string)
| NotSolana (chain : string) | IsTransaction | Empty | OddHex | NotHex | TooLong (n : Z) | BadEncoding (e : string).

Inductive SignError :=
| Bad (why : Why)
| NotReady
| Refused (why : Why)
| Underfunded (vault : string)
| NotLoaded (e : LoadError)
| ChainRefused (account : string)
| Internal (why : Why).

(** * The keystore and its surroundings *)

Inductive SignerKey := FullAccess | FunctionCallKey | Absent.
Record SignClient `{PolicyTypes} (W : Type) := mkSignClient {
  sc_contract_id : string;
  sc_vaults : W → NearClient;
  sc_wallet_policy : string → act W (option Value) string;
  sc_signer_key : string → string → act W SignerKey string;              (* [signer_key_by] *)
  sc_resolve_vote : string → VoteShape → string → string → string → act W (result unit string) string;
  sc_query_access_key : string → NearKeyType * string → act W (Z * string) string;
  sc_view : string → string → Value → act W Value string;
}.
Arguments mkSignClient {_ W}.
Arguments sc_contract_id {_ W}.
Arguments sc_vaults {_ W}.
Arguments sc_wallet_policy {_ W}.
Arguments sc_signer_key {_ W}.
Arguments sc_resolve_vote {_ W}.
Arguments sc_query_access_key {_ W}.
Arguments sc_view {_ W}.

Class SignHost (W : Type) := {
  clock_ms : W → Z;                                  (* since the epoch, [0] before it *)
  draw : nat → W → string * W;                       (* random bytes *)
  request_master : W → string → string → string → result string LoadError;
}.

Record SignState `{PolicyTypes} (W : Type) := mkSignState {
  ss_keystore : Keystore;
  ss_ready : bool;
  ss_mpc : bool;
  ss_client : option (SignClient W);
  ss_world : W;
}.
Arguments mkSignState {_ W}.
Arguments ss_keystore {_ W}.
Arguments ss_ready {_ W}.
Arguments ss_mpc {_ W}.
Arguments ss_client {_ W}.
Arguments ss_world {_ W}.

Section keystore.
Context `{Unicode} `{AccountIds} `{KeyCrates} `{Crates} `{PolicyCrate} `{SignCrates} {W : Type} `{SignHost W}.
Abbreviation State := (SignState W).
Abbreviation Handler A := (act State A SignError).

(** ** Steps of a handler *)

Definition set_keystore (ks : Keystore) (s : State) : State :=
  mkSignState ks (ss_ready s) (ss_mpc s) (ss_client s) (ss_world s).
Definition set_world (w : W) (s : State) : State :=
  mkSignState (ss_keystore s) (ss_ready s) (ss_mpc s) (ss_client s) w.
Definition on_world {A E} (f : E → SignError) (m : act W A E) : Handler A := λ s,
  let '(r, w) := m (ss_world s) in (map_err f r, set_world w s).
Definition on_keystore {A E} (f : E → SignError) (m : act Keystore A E) : Handler A := λ s,
  let '(r, ks) := m (ss_keystore s) in (map_err f r, set_keystore ks s).
Definition now_ms : Handler Z := λ s, (ROk (clock_ms (ss_world s)), s).
Definition now_secs : Handler Z := λ s, (ROk (clock_ms (ss_world s) / 1000), s).
Definition random (n : nat) : Handler string := λ s,
  let '(bytes, w) := draw n (ss_world s) in (ROk bytes, set_world w s).

Definition is_ready : Handler unit := λ s, (if ss_ready s then ROk tt else RErr NotReady, s).
Definition the_client : Handler (SignClient W) := λ s, (ok_or (ss_client s) (Internal NoClient), s).
Definition check_wallet_id (wallet_id : string) : Handler unit :=
  lift (if validate_wallet_id wallet_id then ROk tt else RErr (Bad WalletIdMalformed)).
(** [X-Customer-Vault]: absent, not text, or text. *)
Definition extract_customer_from_header (header : option (option string)) : result (option string) SignError :=
  match header with
  | None => ROk None
  | Some None => RErr (Bad HeaderNotText)
  | Some (Some raw) =>
    let s := str_trim raw in
    if str_is_empty s then ROk None else
    if account_ok s then ROk (Some s) else RErr (Bad (HeaderNotAccount s))
  end.
Definition from_customer_load (e : LoadError) : SignError :=
  match e with InsufficientVaultBalance vault => Underfunded vault | _ => NotLoaded e end.
Definition ensure_loaded (customer : option string) : Handler unit := λ s,
  on_keystore from_customer_load
    (ensure_customer_loaded (request_master (ss_world s)) (ss_mpc s) (option_map (λ c, sc_vaults c (ss_world s)) (ss_client s)) customer) s.
(** The customer of the request, its master loaded. *)
Definition customer_of (header : option (option string)) : Handler (option string) :=
  let^ customer := lift (extract_customer_from_header header) in
  let^ _ := ensure_loaded customer in
  give customer.

Definition near_seed (wallet_id : string) : string := wallet_seed is_evm_chain is_solana_chain wallet_id "near".
Definition derive_wallet_ed25519_pubkey (customer : option string) (wallet_id : string) : Handler string :=
  let^ vk := on_keystore (λ e, Internal (NotDerivedKey e)) (get_public_key_for_seed customer (near_seed wallet_id)) in
  give ("ed25519:" +:+ hex_of vk).

(** ** The policy on chain *)

Definition policy_seed (wallet_id : string) : string := "wallet-policy:" +:+ wallet_id.
Record PolicyMeta := mkMeta { meta_version : Z; meta_locked : bool }.

(** A field that is there and of another type is not a value. *)
Definition typed_field {A} (name : string) (read : Value → option A) (absent : A) (field : string) (view : Value) : result A SignError :=
  match value_get name view with
  | Some v => ok_or (read v) (Bad (SchemaMismatch field))
  | None => ROk absent
  end.
Definition open_policy (customer : option string) (wallet_id : string) (view : Value) : Handler Policy :=
  let^ data := lift (ok_or (v ← value_get "encrypted_data" view; value_str v) (Internal NoEncryptedData)) in
  let^ bytes := lift (ok_or (b64_decode data) (Internal NotBase64)) in
  let^ plain := on_keystore (λ e, Internal (NotDecrypted e)) (decrypt customer (policy_seed wallet_id) bytes) in
  lift (ok_or (policy_from_slice plain) (Internal PolicyNotParsed)).

Definition load_wallet_policy_for_update (wallet_id wallet_pubkey : string) (customer : option string)
    : Handler (option Policy * PolicyMeta) :=
  let^ c := the_client in
  let^ view := on_world (λ e, Internal (PolicyUnread e)) (sc_wallet_policy c wallet_pubkey) in
  match view with
  | None => give (None, mkMeta 0 false)
  | Some view =>
    let^ version := lift (typed_field "version" value_u64 0 "version" view) in
    let^ locked := lift (typed_field "locked" value_bool false "lock" view) in
    let^ frozen := lift (typed_field "frozen" value_bool false "freeze state" view) in
    let^ policy := open_policy customer wallet_id view in
    give (Some (with_frozen (pol_frozen policy || frozen) policy), mkMeta version locked)
  end.

Definition load_wallet_policy (wallet_id : string) (customer : option string) : Handler (option Policy) :=
  let^ c := the_client in
  let^ wallet_pubkey := derive_wallet_ed25519_pubkey customer wallet_id in
  let^ view := on_world (λ e, Internal (PolicyUnread e)) (sc_wallet_policy c wallet_pubkey) in
  match view with
  | None => give None
  | Some view =>
    let^ frozen := lift (typed_field "frozen" value_bool false "freeze state" view) in
    if (frozen : bool) then give (Some (with_frozen true default_policy)) else
    let^ policy := open_policy customer wallet_id view in
    give (Some (with_frozen (pol_frozen policy || frozen) policy))
  end.

(** The policy a request is judged by, given what the owner stated. *)
Definition policy_to_judge_by (stated : option Policy) : Policy :=
  match stated with
  | Some policy => policy
  | None =>
    let opened := Some (mkCapability (Some true) no_extra) in
    mkPolicy false None (Some (mkCapabilities opened opened opened opened opened opened None None None None)) None no_extra
  end.

(** ** Votes *)

Definition nep413_digest (message nonce recipient : string) : option (string * string) :=
  bytes ← b64_decode nonce; nonce ← sized 32 bytes;
  tagged ← nep413_bytes message nonce recipient;
  Some (sha2_256 tagged, tagged).
(** [false] is any of its errors. *)
Definition verify_near_signature (message signature public_key nonce recipient : string) : bool :=
  match near_key public_key with
  | None => false
  | Some pk =>
    if negb (bool_decide (pk.1 = NkEd25519) || bool_decide (pk.1 = NkMlDsa65)) then false else
    let sig := if has_byte ch_colon signature then near_signature signature
               else bytes ← b64_decode signature; signature_from_parts pk.1 bytes in
    match sig with
    | None => false
    | Some sig =>
      if negb (bool_decide (sig.1 = pk.1)) then false else
      match nep413_digest message nonce recipient with
      | None => false
      | Some (digest, tagged) => near_verify sig digest pk || (bool_decide (pk.1 = NkMlDsa65) && near_verify sig tagged pk)
      end
    end
  end.

(** An error, whichever, ends the request: the message names it. *)
Definition verify_access_key_owner (c : SignClient W) (account_id public_key : string) : act W unit string :=
  if negb (account_ok account_id) then stop "Invalid account ID" else
  match near_key public_key with
  | None => stop "Invalid public key"
  | Some _ =>
    let^ said := sc_signer_key c account_id public_key in
    match said with
    | FullAccess => give tt
    | FunctionCallKey => stop "may only call functions"
    | Absent => stop "does not belong to account"
    end
  end.
Definition key_owned (c : SignClient W) (v : ApproverSig) : Handler unit :=
  on_world (λ e, Internal (KeyUnverified (as_approver_id v) e)) (verify_access_key_owner c (as_approver_id v) (as_public_key v)).
Definition contract_vote_counts (c : SignClient W) (vote : ContractVote) (recipient expected : string) : Handler bool :=
  if AUTHORIZATION_MAX_BYTES <? str_len (cv_authorization vote) then give false else
  let^ verdict := on_world (λ e, Internal (VoteUnresolved (cv_approver_id vote) e))
    (sc_resolve_vote c (cv_approver_id vote) (cv_shape vote) recipient (cv_authorization vote) expected) in
  match verdict with ROk _ => give true | RErr _ => give false end.

Definition MAX_APPROVAL_VOTES : Z := 16.
Definition many {A} (l : list A) : bool := MAX_APPROVAL_VOTES <? Z.of_nat (length l).

Section ballot.
Context (c : SignClient W) (policy : Policy) (recipient : string).

Fixpoint count_approvals (message : string) (approved_by : gset string) (l : list ApproverSig) : Handler (gset string) :=
  match l with
  | [] => give approved_by
  | ap :: l =>
    if bool_decide (as_approver_id ap ∈ approved_by) then count_approvals message approved_by l else
    if negb (admits_key policy (as_approver_id ap) (as_public_key ap)) then count_approvals message approved_by l else
    if negb (verify_near_signature message (as_signature ap) (as_public_key ap) (as_nonce ap) recipient)
    then count_approvals message approved_by l else
    let^ _ := key_owned c ap in
    count_approvals message ({[as_approver_id ap]} ∪ approved_by) l
  end.
Fixpoint count_contract_approvals (message : string) (approved_by : gset string) (l : list ContractVote) : Handler (gset string) :=
  match l with
  | [] => give approved_by
  | cv :: l =>
    if bool_decide (cv_approver_id cv ∈ approved_by) then count_contract_approvals message approved_by l else
    if negb (admits_contract_vote policy (cv_approver_id cv)) then count_contract_approvals message approved_by l else
    let^ counts := contract_vote_counts c cv recipient message in
    count_contract_approvals message (if counts : bool then {[cv_approver_id cv]} ∪ approved_by else approved_by) l
  end.
Fixpoint check_rejections (message : string) (l : list ApproverSig) : Handler unit :=
  match l with
  | [] => give tt
  | rj :: l =>
    if negb (admits_key policy (as_approver_id rj) (as_public_key rj)) then check_rejections message l else
    if negb (verify_near_signature message (as_signature rj) (as_public_key rj) (as_nonce rj) recipient)
    then check_rejections message l else
    let^ _ := key_owned c rj in
    stop (Refused (Vetoed (as_approver_id rj)))
  end.
Fixpoint check_contract_rejections (message : string) (l : list ContractVote) : Handler unit :=
  match l with
  | [] => give tt
  | cv :: l =>
    if negb (admits_contract_vote policy (cv_approver_id cv)) then check_contract_rejections message l else
    let^ counts := contract_vote_counts c cv recipient message in
    if (counts : bool) then stop (Refused (Vetoed (cv_approver_id cv))) else check_contract_rejections message l
  end.
End ballot.

Definition named_approvers (policy : Policy) : list (string * option string) :=
  match a ← pol_approval policy; approvers a with
  | Some l => omap (λ ap, id ← approver_account ap; Some (id, approver_pin ap)) l
  | None => []
  end.
Definition verify_approvals (policy : Policy) (wallet_pubkey hash : string) (approval_info : option ApprovalInfo) (threshold : Z)
    : Handler unit :=
  let^ c := the_client in
  if bool_decide (named_approvers policy = []) then stop (Refused (NoApprovers threshold)) else
  let^ info := lift (ok_or approval_info (Refused NoApprovals)) in
  if many (ai_approvals info) || many (ai_rejections info)
  then stop (Bad (TooManyVotes (Z.of_nat (length (ai_approvals info))) (Z.of_nat (length (ai_rejections info))))) else
  if many (ai_contract_approvals info) || many (ai_contract_rejections info)
  then stop (Bad (TooManyContractVotes (Z.of_nat (length (ai_contract_approvals info)))
                                       (Z.of_nat (length (ai_contract_rejections info))))) else
  let recipient := sc_contract_id c in
  if negb (bool_decide (ai_recipient info = recipient)) then stop (Refused (OtherRecipient (ai_recipient info) recipient)) else
  let message := vote_message Approve (ai_approval_id info) wallet_pubkey hash in
  let^ approved_by := count_approvals c policy recipient message ∅ (ai_approvals info) in
  let^ approved_by := count_contract_approvals c policy recipient message approved_by (ai_contract_approvals info) in
  let reject_message := vote_message Reject (ai_approval_id info) wallet_pubkey hash in
  let^ _ := check_rejections c policy recipient reject_message (ai_rejections info) in
  let^ _ := check_contract_rejections c policy recipient reject_message (ai_contract_rejections info) in
  if Z.of_nat (size approved_by) <? threshold then stop (Refused (TooFew (Z.of_nat (size approved_by)) threshold)) else
  give tt.
End keystore.
