(* ===== verification/WalletSign.v ===== *)
(** What the keystore signs for a wallet (keystore-worker/src/api.rs): the handler of
    [/wallet/sign] and the three ways an operation becomes an artifact, the pre-flight
    check, the agents' secrets, the policy itself, and Solana.  Each handler is whole: its
    guards in order, every question to the chain and the signature at its end. *)

From S2P Require Export WalletPolicy.

Record SignArtifact := mkSignArtifact {
  sa_bytes_base64 : option string;
  sa_message : option string;
  sa_nonce_base64 : option string;
  sa_recipient : option string;
}.
Record WalletSignRequest `{PolicyTypes} := mkSignRequest {
  wr_wallet_id : string;
  wr_op : Op;
  wr_approval_info : option ApprovalInfo;
  wr_artifact : option SignArtifact;
  wr_usage : option Value;
  wr_binding_kind : option string;
  wr_decoder_version : option Z;
}.
(** [WalletSignResponse], by the group of its fields that is filled; the request's hash and
    the public key are in every one, as far as the code fills them. *)
Inductive SignedArtifact :=
| SignedTx (signed_tx_base64 tx_hash signer_id : string) (nonce : Z) (public_key : string)
| SignedMessage (signature_base58 public_key message nonce_base64 recipient : string)
| SignedRaw (signature_base64 : string)
| SignedAuth (auth_message : string) (auth_timestamp : Z) (auth_signature_base58 public_key : string).
Record WalletSignResponse := mkSignResponse { resp_request_hash : string; resp_artifact : SignedArtifact }.

(** * Texts *)

Definition unix_to_iso8601 (secs : Z) : string :=
  let '(days, rem) := (secs / 86400, secs mod 86400) in
  let '(hh, mm, ss) := (rem / 3600, rem mod 3600 / 60, rem mod 60) in
  let z := days + 719468 in
  let era := Z.quot (if 0 <=? z then z else z - 146096) 146097 in
  let doe := z - era * 146097 in
  let yoe := Z.quot (doe - Z.quot doe 1460 + Z.quot doe 36524 - Z.quot doe 146096) 365 in
  let y := yoe + era * 400 in
  let doy := doe - (365 * yoe + Z.quot yoe 4 - Z.quot yoe 100) in
  let mp := Z.quot (5 * doy + 2) 153 in
  let d := doy - Z.quot (153 * mp + 2) 5 + 1 in
  let month := if mp <? 10 then mp + 3 else mp - 9 in
  let year := if month <=? 2 then y + 1 else y in
  pad 4 year +:+ "-" +:+ pad 2 month +:+ "-" +:+ pad 2 d +:+ "T" +:+ pad 2 hh +:+ ":" +:+ pad 2 mm +:+ ":" +:+ pad 2 ss
    +:+ ".000Z".

Section texts.
Context `{Unicode} `{SignCrates}.

Definition intent_message (signer_id deadline : string) (intent : list (string * Value)) : string :=
  text_of_json (VObject [("signer_id", VString signer_id); ("deadline", VString deadline); ("intents", VArray [VObject intent])]).
Definition build_withdraw_intent_message (signer_id to amount token deadline : string) : string :=
  let t := to_lowercase (str_trim token) in
  if String.eqb t "near" || String.eqb t "native" || str_is_empty t then
    intent_message signer_id deadline
      [("intent", VString "native_withdraw"); ("receiver_id", VString to); ("amount", VString amount)]
  else
    let token_contract := match Statement.strip_prefix "nep141:" token with
                          | Some t => t
                          | None => default token (Statement.strip_prefix "nep245:" token)
                          end in
    intent_message signer_id deadline
      [("intent", VString "ft_withdraw"); ("token", VString token_contract); ("receiver_id", VString to); ("amount", VString amount)].
Definition build_transfer_intent_message (signer_id to amount token deadline : string) : string :=
  let t := str_trim token in
  let token_id := if starts_with t "nep141:" || starts_with t "nep245:" then t else "nep141:" +:+ t in
  intent_message signer_id deadline
    [("intent", VString "transfer"); ("receiver_id", VString to); ("tokens", VObject [(token_id, VString amount)])].
Definition build_storage_deposit_intent_message (signer_id contract_id account_id amount deadline : string) : string :=
  intent_message signer_id deadline
    [("intent", VString "storage_deposit"); ("contract_id", VString contract_id);
     ("deposit_for_account_id", VString account_id); ("amount", VString amount)].
End texts.

Definition is_trusted_recipient (recipient : string) : bool :=
  bool_decide (recipient = "intents.near") || bool_decide (recipient = "intents.far").

(** Only the words of an absent account or key. *)
Definition rpc_error_is_about_the_signer (cause : string) : bool :=
  existsb (str_contains cause) ["does not exist while viewing"; "UNKNOWN_ACCOUNT"; "UNKNOWN_ACCESS_KEY"] ||
  let lower := map_bytes lower_byte cause in
  (str_contains lower "does not exist" || str_contains lower "doesn't exist") &&
  (str_contains lower "account" || str_contains lower "access key").

Section keystore.
Context `{Unicode} `{AccountIds} `{KeyCrates} `{Crates} `{PolicyCrate} `{SignCrates} {W : Type} `{SignHost W}.
Abbreviation State := (SignState W).
Abbreviation Handler A := (act State A SignError).

(** * Signing *)

Definition storage_deposit_loses_nothing (contract_id account_id amount : string) (bounds balance : Value) : result unit SignError :=
  let? min := ok_or (m ← value_get "min" bounds; t ← value_str m; parse_u128 t) (Internal (NoMinimum contract_id)) in
  let? amount := map_err (λ e, Bad (Said e)) (intents_storage_deposit_amount amount) in
  if negb (amount =? min) then RErr (Bad (WrongDeposit min amount)) else
  match balance with VNull => ROk tt | _ => RErr (Bad (AlreadyRegistered account_id)) end.

Definition sign_message_recipient_allowed (policy : option Policy) (recipient : string) : bool :=
  match policy with
  | None => true
  | Some policy =>
    match caps ← pol_capabilities policy; sm ← cap_sign_message caps; allowed_recipients sm with
    | Some l => existsb (String.eqb recipient) l
    | None => false
    end
  end.

Definition wallet_keypair (customer : option string) (wallet_id : string) : Handler (string * string) :=
  on_keystore (λ e, Internal (NotDerivedKey e)) (derive_keypair customer (near_seed wallet_id)).
Definition wallet_implicit_account (customer : option string) (wallet_id : string) : Handler string :=
  let^ vk := on_keystore (λ e, Internal (NotDerivedKey e)) (get_public_key_for_seed customer (near_seed wallet_id)) in
  give (hex_of vk).

(** The signature and the public key, as texts. *)
Definition sign_nep413 (customer : option string) (wallet_id message nonce recipient : string) : Handler (string * string) :=
  let^ '(signing_key, verifying_key) := wallet_keypair customer wallet_id in
  let^ to_hash := lift (ok_or (nep413_bytes message nonce recipient) (Internal NotSerialized)) in
  let signature := ed25519_sign signing_key (sha2_256 to_hash) in
  give ("ed25519:" +:+ bs58_text signature, "ed25519:" +:+ bs58_text verifying_key).
(** [sign_nep413] and the response around it. *)
Definition message_response (customer : option string) (wallet_id hash message nonce recipient : string)
    : Handler WalletSignResponse :=
  let^ '(signature, public_key) := sign_nep413 customer wallet_id message nonce recipient in
  give (mkSignResponse hash (SignedMessage signature public_key message (b64_encode nonce) recipient)).

Definition sign_near_transaction (customer : option string) (wallet_id hash : string)
    (make_tx : string → result (string * list TxAction) SignError) : Handler WalletSignResponse :=
  let^ c := the_client in
  let^ '(signing_key, verifying_key) := wallet_keypair customer wallet_id in
  let signer_id := hex_of verifying_key in
  let^ _ := lift (if account_ok signer_id then ROk tt else RErr (Internal BadImplicitAccount)) in
  let^ public_key := lift (ok_or (near_key ("ed25519:" +:+ bs58_text verifying_key)) (Internal BadPublicKey)) in
  let^ '(receiver_id, actions) := lift (make_tx signer_id) in
  let^ '(rpc_nonce, block_hash) := on_world
    (λ e, if rpc_error_is_about_the_signer e then ChainRefused signer_id else Internal (KeyQueryFailed e))
    (sc_query_access_key c signer_id public_key) in
  let tx_nonce := (rpc_nonce + 1) mod 2 ^ 64 in
  let transaction := mkTransaction signer_id public_key tx_nonce receiver_id block_hash actions in
  let hash_bytes := tx_get_hash transaction in
  let sig := ed25519_sign signing_key hash_bytes in
  let^ signature := lift (ok_or (near_signature ("ed25519:" +:+ bs58_text sig)) (Internal BadSignature)) in
  give (mkSignResponse hash (SignedTx (b64_encode (signed_tx_borsh signature transaction)) (bs58_text hash_bytes) signer_id
    tx_nonce (near_key_text public_key))).

Definition account_from_str (s : string) (why : Why) : result string SignError :=
  if account_ok s then ROk s else RErr (Bad why).
Definition AUTH_DEADLINE_HORIZON_MS : Z := 7 * 86400 * 1000.
Definition INTENTS_NEAR : string := "intents.near".

(** An intent built here: a fresh deadline and a fresh nonce. *)
Definition built_intent (customer : option string) (wallet_id hash : string) (build : string → string → string)
    : Handler WalletSignResponse :=
  let^ signer_id := wallet_implicit_account customer wallet_id in
  let^ now := now_secs in
  let deadline := unix_to_iso8601 (now + 300) in
  let message := build signer_id deadline in
  let^ nonce := random 32 in
  message_response customer wallet_id hash message nonce INTENTS_NEAR.

Definition auth_jwt (customer : option string) (wallet_id hash : string) (vault_id : option string) : Handler WalletSignResponse :=
  if bool_decide (is_Some vault_id) then stop (Bad JwtWithVault) else
  let^ c := the_client in
  let^ signer_id := wallet_implicit_account customer wallet_id in
  let^ now_ms := now_ms in
  let deadline_ms := now_ms + AUTH_DEADLINE_HORIZON_MS in
  let issued_ns := saturating_mul 64 now_ms 1000000 in
  let deadline_ns := saturating_mul 64 deadline_ms 1000000 in
  let^ _ := lift (if account_ok INTENTS_NEAR then ROk tt else RErr (Internal BadAccount)) in
  let^ salt_val := on_world (λ e, Internal (ViewFailed "current_salt" e)) (sc_view c INTENTS_NEAR "current_salt" (VObject [])) in
  let^ salt_hex := lift (ok_or (value_str salt_val) (Internal SaltNotText)) in
  let^ salt_bytes := lift (ok_or (hex_parse salt_hex) (Internal SaltNotHex)) in
  let^ salt := lift (ok_or (sized 4 salt_bytes) (Internal (SaltLength (str_len salt_bytes)))) in
  let^ random := random 7 in
  let nonce := build_jwt_versioned_nonce salt deadline_ns issued_ns random in
  let deadline_iso := unix_to_iso8601 (deadline_ms / 1000) in
  let message := build_jwt_auth_message deadline_iso signer_id in
  message_response customer wallet_id hash message nonce INTENTS_NEAR.
Definition auth_raw (customer : option string) (wallet_id hash purpose seed : string) (vault_id : option string)
    : Handler WalletSignResponse :=
  let^ now := now_secs in
  let^ message := lift (map_err (λ e, Bad (Said e)) (build_auth_message purpose seed now vault_id)) in
  let^ '(signing_key, verifying_key) := wallet_keypair customer wallet_id in
  let sig := ed25519_sign signing_key message in
  give (mkSignResponse hash (SignedAuth message now (bs58_text sig) ("ed25519:" +:+ bs58_text verifying_key))).

Definition sign_built (customer : option string) (req : WalletSignRequest) (hash : string) : Handler WalletSignResponse :=
  let wallet_id := wr_wallet_id req in
  match op_view (wr_op req) with
  | OpTransfer to amount =>
    let^ deposit := lift (ok_or (parse_u128 amount) (Bad BadAmount)) in
    sign_near_transaction customer wallet_id hash (λ _,
      let? receiver := account_from_str to BadTo in ROk (receiver, [TransferOf deposit]))
  | OpCall to method args_base64 gas deposit =>
    if is_intents_contract to && existsb (String.eqb method) GATE_ONLY_INTENTS_METHODS
    then stop (Refused (GateOnly to method)) else
    let^ args := lift (ok_or (b64_decode args_base64) (Bad BadArgs)) in
    let^ gas := lift (ok_or (parse_u64 gas) (Bad BadGas)) in
    let^ deposit := lift (ok_or (parse_u128 deposit) (Bad BadDeposit)) in
    sign_near_transaction customer wallet_id hash (λ _,
      let? receiver := account_from_str to BadTo in ROk (receiver, [FunctionCallOf method args gas deposit]))
  | OpDelete beneficiary =>
    sign_near_transaction customer wallet_id hash (λ signer,
      let? beneficiary := account_from_str beneficiary BadBeneficiary in ROk (signer, [DeleteAccountTo beneficiary]))
  | OpWithdraw to amount token =>
    built_intent customer wallet_id hash (λ signer, build_withdraw_intent_message signer to amount token)
  | OpIntentsTransfer to amount token =>
    built_intent customer wallet_id hash (λ signer, build_transfer_intent_message signer to amount token)
  | OpIntentsStorageDeposit contract_id account_id amount =>
    let^ contract := lift (account_from_str contract_id BadContract) in
    let^ _ := lift (account_from_str account_id BadAccount) in
    let^ c := the_client in
    let^ bounds := on_world (λ e, Internal (ViewFailed "storage_balance_bounds" e))
                     (sc_view c contract "storage_balance_bounds" (VObject [])) in
    let^ balance := on_world (λ e, Internal (ViewFailed "storage_balance_of" e))
                      (sc_view c contract "storage_balance_of" (VObject [("account_id", VString account_id)])) in
    let^ _ := lift (storage_deposit_loses_nothing contract_id account_id amount bounds balance) in
    built_intent customer wallet_id hash (λ signer, build_storage_deposit_intent_message signer contract_id account_id amount)
  | OpAuth purpose seed vault_id =>
    if String.eqb purpose "jwt" then auth_jwt customer wallet_id hash vault_id
    else auth_raw customer wallet_id hash purpose seed vault_id
  | _ => stop (Internal WrongMode)
  end.

Definition sign_hash_pinned (customer : option string) (req : WalletSignRequest) (policy : option Policy) (hash : string)
    : Handler WalletSignResponse :=
  let wallet_id := wr_wallet_id req in
  match op_view (wr_op req) with
  | OpRaw chain payload_hash =>
    let^ bytes_b64 := lift (ok_or (a ← wr_artifact req; sa_bytes_base64 a) (Bad NoBytes)) in
    let^ bytes := lift (ok_or (b64_decode bytes_b64) (Bad NotBase64)) in
    if negb (eq_ignore_ascii_case (hex_of (sha2_256 bytes)) payload_hash) then stop (Refused NotTheHash) else
    let chain_l := to_lowercase chain in
    if is_evm_chain chain_l then stop (Bad (EvmElsewhere chain_l)) else
    if negb (String.eqb chain_l "near") && negb (is_solana_chain chain_l) then stop (Bad (OtherChain chain_l)) else
    let^ sig := on_keystore (λ e, Internal (NotDerivedKey e))
                  (sign customer (wallet_seed is_evm_chain is_solana_chain wallet_id chain_l) bytes) in
    give (mkSignResponse hash (SignedRaw (b64_encode sig)))
  | OpSignMessage message_hash recipient =>
    if is_trusted_recipient recipient then stop (Refused (IntentsRecipient recipient)) else
    if negb (sign_message_recipient_allowed policy recipient) then stop (Refused (RecipientNotListed recipient)) else
    let^ artifact := lift (ok_or (wr_artifact req) (Bad NoArtifact)) in
    let^ message := lift (ok_or (sa_message artifact) (Bad NoMessage)) in
    let^ nonce_b64 := lift (ok_or (sa_nonce_base64 artifact) (Bad NoNonce)) in
    if negb (eq_ignore_ascii_case (hex_of (sha2_256 message)) message_hash) then stop (Refused NotTheHash) else
    let^ nonce := lift (ok_or (b64_decode nonce_b64) (Bad BadNonce)) in
    if negb (str_len nonce =? 32) then stop (Bad (NonceLength (str_len nonce))) else
    let^ '(signature, public_key) := sign_nep413 customer wallet_id message nonce recipient in
    give (mkSignResponse hash (SignedMessage signature public_key message nonce_b64 recipient))
  | _ => stop (Internal WrongMode)
  end.

Definition sign_trusted (customer : option string) (req : WalletSignRequest) (hash : string) : Handler WalletSignResponse :=
  let^ artifact := lift (ok_or (wr_artifact req) (Bad NoArtifact)) in
  let^ message := lift (ok_or (sa_message artifact) (Bad NoMessage)) in
  let^ nonce_b64 := lift (ok_or (sa_nonce_base64 artifact) (Bad NoNonce)) in
  let^ recipient := lift (ok_or (sa_recipient artifact) (Bad NoRecipient)) in
  if negb (is_trusted_recipient recipient) then stop (Refused (NotIntents recipient)) else
  let^ nonce := lift (ok_or (b64_decode nonce_b64) (Bad BadNonce)) in
  if negb (str_len nonce =? 32) then stop (Bad (NonceLength (str_len nonce))) else
  let^ '(signature, public_key) := sign_nep413 customer (wr_wallet_id req) message nonce recipient in
  give (mkSignResponse hash (SignedMessage signature public_key message nonce_b64 recipient)).

(** * [/wallet/sign] and its pre-flight *)

Definition version_gate (op : Op) (binding_kind : option string) (decoder_version : option Z) : result unit string :=
  match op_view op with
  | OpCall _ method _ _ _ => signing_version_gate method binding_kind decoder_version
  | _ => ROk tt
  end.
Definition refuse_policy_update (op : Op) : result unit SignError :=
  match op_view op with OpPolicyUpdate _ _ _ _ _ => RErr (Bad UpdateElsewhere) | _ => ROk tt end.

(** What the decision asks for before the artifact is made. *)
Definition carry_out (decision : Decision) (effective : Policy) (customer : option string) (req : WalletSignRequest) (hash : string)
    : Handler unit :=
  match decision with
  | FrozenWallet => stop (Refused IsFrozen)
  | Deny reason => stop (Refused (Said reason))
  | RequiresApproval threshold =>
    let^ wallet_pubkey := derive_wallet_ed25519_pubkey customer (wr_wallet_id req) in
    verify_approvals effective wallet_pubkey hash (wr_approval_info req) (Z.max threshold 1)
  | Allow => give tt
  end.
Definition make_artifact (customer : option string) (req : WalletSignRequest) (policy : option Policy) (hash : string)
    : Handler WalletSignResponse :=
  match bind_mode (wr_op req) with
  | Built => sign_built customer req hash
  | HashPinned => sign_hash_pinned customer req policy hash
  | Trusted => sign_trusted customer req hash
  | PolicyUpdateMode => stop (Bad UpdateElsewhere)
  end.
Definition wallet_sign_handler (header : option (option string)) (req : WalletSignRequest) : Handler WalletSignResponse :=
  let^ _ := is_ready in
  let^ _ := check_wallet_id (wr_wallet_id req) in
  let^ _ := lift (refuse_policy_update (wr_op req)) in
  let^ customer := customer_of header in
  let hash := request_hash (wr_op req) in
  let^ _ := lift (map_err (λ reason, Refused (Said reason)) (version_gate (wr_op req) (wr_binding_kind req) (wr_decoder_version req))) in
  let^ policy := load_wallet_policy (wr_wallet_id req) customer in
  let effective := policy_to_judge_by policy in
  let^ now := now_secs in
  let decision := evaluate effective (wr_op req) (option_map usage_of (wr_usage req)) now in
  let^ _ := carry_out decision effective customer req hash in
  make_artifact customer req policy hash.

Record WalletCheckPolicyRequest := mkCheckRequest {
  cr_wallet_id : string;
  cr_op : Op;
  cr_usage : option Value;
  cr_encrypted_policy_data : option string;
  cr_binding_kind : option string;
  cr_decoder_version : option Z;
}.
Record WalletCheckPolicyResponse := mkCheckResponse {
  ck_allowed : bool;
  ck_frozen : bool;
  ck_requires_approval : option bool;
  ck_required_approvals : option Z;
  ck_reason : option string;
  ck_request_hash : option string;
  ck_webhook_url : option string;
}.
Definition as_i32 (n : Z) : Z := (n + 2 ^ 31) mod 2 ^ 32 - 2 ^ 31.
Definition inline_policy (customer : option string) (wallet_id data : string) : Handler Policy :=
  let^ bytes := lift (ok_or (b64_decode data) (Internal NotBase64)) in
  let^ plain := on_keystore (λ e, Internal (NotDecrypted e)) (decrypt customer (policy_seed wallet_id) bytes) in
  lift (ok_or (policy_from_slice plain) (Internal PolicyNotParsed)).
Definition decision_response (decision : Decision) (hash : string) (webhook_url : option string) : WalletCheckPolicyResponse :=
  match decision with
  | Allow => mkCheckResponse true false None None None (Some hash) webhook_url
  | FrozenWallet => mkCheckResponse false true None None (Some "Wallet is frozen") (Some hash) webhook_url
  | Deny reason => mkCheckResponse false false None None (Some reason) (Some hash) webhook_url
  | RequiresApproval threshold => mkCheckResponse true false (Some true) (Some (as_i32 threshold)) None (Some hash) webhook_url
  end.
(** [allow_inline]: the environment's [KEYSTORE_ALLOW_INLINE_POLICY]. *)
Definition wallet_check_policy_handler (allow_inline : bool) (header : option (option string)) (req : WalletCheckPolicyRequest)
    : Handler WalletCheckPolicyResponse :=
  let^ _ := is_ready in
  let^ _ := check_wallet_id (cr_wallet_id req) in
  let^ customer := customer_of header in
  let hash := request_hash (cr_op req) in
  if bool_decide (is_Some (cr_encrypted_policy_data req)) && negb allow_inline then stop (Refused InlineDisabled) else
  let^ policy := match cr_encrypted_policy_data req with
                 | Some data => let^ p := inline_policy customer (cr_wallet_id req) data in give (Some p)
                 | None => load_wallet_policy (cr_wallet_id req) customer
                 end in
  let policy := policy_to_judge_by policy in
  let^ now := now_secs in
  match version_gate (cr_op req) (cr_binding_kind req) (cr_decoder_version req) with
  | RErr reason => give (mkCheckResponse false false None None (Some reason) (Some hash) None)
  | ROk _ =>
    let decision := evaluate policy (cr_op req) (option_map usage_of (cr_usage req)) now in
    give (decision_response decision hash (pol_webhook_url policy))
  end.

(** ** The policy's text *)

Definition wallet_encrypt_policy_handler (header : option (option string)) (wallet_id policy_json : string) : Handler string :=
  let^ _ := is_ready in
  let^ _ := check_wallet_id wallet_id in
  let^ customer := customer_of header in
  let^ ephemeral := random 32 in
  let^ nonce := random 12 in
  let^ encrypted := on_keystore (λ e, Internal (NotDecrypted e))
    (λ ks, (encrypt ks ephemeral nonce customer (policy_seed wallet_id) policy_json, ks)) in
  give (b64_encode encrypted).
Definition wallet_decrypt_policy_handler (header : option (option string)) (wallet_id data : string) : Handler Value :=
  let^ _ := is_ready in
  let^ _ := check_wallet_id wallet_id in
  let^ customer := customer_of header in
  let^ bytes := lift (ok_or (b64_decode data) (Bad NotBase64)) in
  let^ plain := on_keystore (λ e, Internal (NotDecrypted e)) (decrypt customer (policy_seed wallet_id) bytes) in
  lift (ok_or (json_of_text plain) (Internal NotJson)).

(** * Agents' secrets *)

Inductive AgentSecretTarget := TargetProject (project_id : string) | TargetWasmHash (hash : string).
Definition given (field : option string) : option string :=
  s ← field; let s := str_trim s in if str_is_empty s then None else Some s.
Definition from_fields (project_id wasm_hash : option string) : result AgentSecretTarget SignError :=
  match given project_id, given wasm_hash with
  | Some _, Some _ => RErr (Bad BothTargets)
  | Some p, None => ROk (TargetProject p)
  | None, Some h => ROk (TargetWasmHash (to_lowercase h))
  | None, None => RErr (Bad NoTarget)
  end.
Definition target_seed (target : AgentSecretTarget) (agent_account : string) : string :=
  match target with
  | TargetProject project_id => "project:" +:+ project_id +:+ ":" +:+ agent_account
  | TargetWasmHash hash => "wasm_hash:" +:+ hash +:+ ":" +:+ agent_account
  end.
Definition target_binding (target : AgentSecretTarget) : string :=
  match target with TargetProject project_id => project_id | TargetWasmHash hash => "wasm:" +:+ hash end.

Definition secret_store_message (wallet_pubkey accessor_binding profile encrypted payer vault_id access_json : string) : string :=
  "store_secrets_for:v1:" +:+ wallet_pubkey +:+ ":" +:+ uint_to_string (str_len accessor_binding) +:+ ":" +:+ accessor_binding
  +:+ ":" +:+ profile +:+ ":" +:+ encrypted +:+ ":" +:+ payer +:+ ":" +:+ vault_id +:+ ":" +:+ access_json.
Definition secret_delete_message (wallet_pubkey accessor_binding profile payer : string) : string :=
  "delete_agent_secret:v1:" +:+ wallet_pubkey +:+ ":" +:+ uint_to_string (str_len accessor_binding) +:+ ":" +:+ accessor_binding
  +:+ ":" +:+ profile +:+ ":" +:+ payer.

Record SignSecretStoreRequest := mkStoreRequest {
  sr_wallet_id : string;
  sr_project_id : option string;
  sr_wasm_hash : option string;
  sr_encrypted : string;
  sr_payer : string;
  sr_access : Condition;
  sr_vault_id : option string;
}.
Record SignSecretDeleteRequest := mkDeleteRequest {
  dr_wallet_id : string;
  dr_project_id : option string;
  dr_wasm_hash : option string;
  dr_payer : string;
}.
(** Of a store and of a delete. *)
Record SignSecretResponse := mkSecretResponse { sg_signature_hex : string; sg_wallet_pubkey : string; sg_agent_account : string }.

Definition sign_hashed (customer : option string) (wallet_id message : string) : Handler string :=
  on_keystore (λ e, Internal (NotDerivedKey e)) (sign customer (near_seed wallet_id) (sha2_256 message)).

Definition wallet_sign_secret_store_handler (header : option (option string)) (req : SignSecretStoreRequest)
    : Handler SignSecretResponse :=
  let^ _ := is_ready in
  let^ _ := check_wallet_id (sr_wallet_id req) in
  let^ customer := customer_of header in
  if str_is_empty (sr_encrypted req) then stop (Bad (Missing "encrypted_secrets_base64")) else
  let^ target := lift (from_fields (sr_project_id req) (sr_wasm_hash req)) in
  if str_is_empty (str_trim (sr_payer req)) then stop (Bad (Missing "payer")) else
  let^ agent_account := wallet_implicit_account customer (sr_wallet_id req) in
  let wallet_pubkey := "ed25519:" +:+ agent_account in
  let^ bytes := lift (ok_or (b64_decode (sr_encrypted req)) (Bad NotBase64)) in
  let^ _ := on_keystore (λ _, Refused NotSealedHere) (decrypt customer (target_seed target agent_account) bytes) in
  let^ access_shape := lift (ok_or (condition_value (sr_access req)) (Internal ConditionNotSerialized)) in
  let^ _ := lift (map_err (λ why, Bad (ConditionRefused why)) (condition_bounds access_shape)) in
  let^ access_json := lift (ok_or (condition_text (sr_access req)) (Bad ConditionNotSerialized)) in
  let message := secret_store_message wallet_pubkey (target_binding target) agent_account (sr_encrypted req)
                   (str_trim (sr_payer req)) (default "" (sr_vault_id req)) access_json in
  let^ signature := sign_hashed customer (sr_wallet_id req) message in
  give (mkSecretResponse (hex_of signature) wallet_pubkey agent_account).

Definition wallet_sign_secret_delete_handler (header : option (option string)) (req : SignSecretDeleteRequest)
    : Handler SignSecretResponse :=
  let^ _ := is_ready in
  let^ _ := check_wallet_id (dr_wallet_id req) in
  let^ customer := customer_of header in
  let^ target := lift (from_fields (dr_project_id req) (dr_wasm_hash req)) in
  if str_is_empty (str_trim (dr_payer req)) then stop (Bad (Missing "payer")) else
  let^ agent_account := wallet_implicit_account customer (dr_wallet_id req) in
  let wallet_pubkey := "ed25519:" +:+ agent_account in
  let message := secret_delete_message wallet_pubkey (target_binding target) agent_account (str_trim (dr_payer req)) in
  let^ signature := sign_hashed customer (dr_wallet_id req) message in
  give (mkSecretResponse (hex_of signature) wallet_pubkey agent_account).

(** * The policy *)

Definition policy_store_message (wallet_pubkey : string) (version : Z) (locked : bool) (valid_until : Z)
    (encrypted_data caller : string) : string :=
  "store_wallet_policy:v2:" +:+ wallet_pubkey +:+ ":" +:+ uint_to_string version +:+ ":" +:+ (if locked then "1" else "0")
  +:+ ":" +:+ uint_to_string valid_until +:+ ":" +:+ uint_to_string (str_len encrypted_data) +:+ ":" +:+ encrypted_data
  +:+ ":" +:+ caller.
Definition POLICY_SIGNATURE_TTL_SECS : Z := 7 * 86400.

Record WalletSignPolicyRequest := mkPolicyRequest {
  pr_wallet_id : string;
  pr_encrypted_data : string;
  pr_caller : string;
  pr_approval_info : option ApprovalInfo;
}.
Record WalletSignPolicyResponse := mkPolicyResponse {
  sp_signature_hex : string;
  sp_public_key_hex : string;
  sp_version : Z;
  sp_locked : bool;
  sp_valid_until : Z;
  sp_policy_hash : string;
  sp_request_hash : option string;
}.

(** The new policy's value and the policy it reads as. *)
Definition sealed_policy (customer : option string) (wallet_id encrypted_data : string) : Handler (Value * Policy) :=
  let^ bytes := lift (ok_or (b64_decode encrypted_data) (Bad NotBase64)) in
  let^ plain := on_keystore (λ _, Refused NotSealedHere) (decrypt customer (policy_seed wallet_id) bytes) in
  let^ value := lift (ok_or (json_of_text plain) (Refused NotJson)) in
  let^ policy := lift (ok_or (policy_from_value value) (Refused NotPolicy)) in
  give (value, policy).
Definition under_lock {A} (threshold : Z) (m : Handler A) : Handler A := λ s,
  let '(r, s) := m s in
  (map_err (λ e, match e with Refused why => Refused (ByLock threshold why) | e => e end) r, s).
(** The votes a locked policy asks for, and the hash they were over. *)
Definition pass_lock (current : option Policy) (wallet_pubkey policy_hash : string) (version : Z) (locked_new : bool)
    (caller : string) (info : option ApprovalInfo) : Handler string :=
  let^ current := lift (ok_or current (Internal LockedWithoutPolicy)) in
  let^ threshold := lift (ok_or (a ← pol_approval current; t ← approval_threshold a; Some (required t))
                            (Refused LockedWithoutThreshold)) in
  let threshold := Z.max threshold 1 in
  let hash := request_hash (policy_update wallet_pubkey policy_hash version locked_new caller) in
  let^ _ := under_lock threshold (verify_approvals current wallet_pubkey hash info threshold) in
  give hash.

Definition wallet_sign_policy_handler (header : option (option string)) (req : WalletSignPolicyRequest)
    : Handler WalletSignPolicyResponse :=
  let^ _ := is_ready in
  let^ _ := check_wallet_id (pr_wallet_id req) in
  let^ customer := customer_of header in
  if str_is_empty (pr_encrypted_data req) then stop (Bad (Missing "encrypted_data")) else
  let caller := str_trim (pr_caller req) in
  if str_is_empty caller then stop (Bad (Missing "caller")) else
  let^ '(new_plain, new_policy) := sealed_policy customer (pr_wallet_id req) (pr_encrypted_data req) in
  let^ _ := lift (map_err (λ e, Bad (Said e)) (lock_is_satisfiable new_policy)) in
  let locked_new := default false (a ← pol_approval new_policy; approval_locked a) in
  let policy_hash := policy_canonical_hash_hex new_plain in
  let^ policy_pubkey := derive_wallet_ed25519_pubkey customer (pr_wallet_id req) in
  let^ '(current, meta) := load_wallet_policy_for_update (pr_wallet_id req) policy_pubkey customer in
  let version := (meta_version meta + 1) mod 2 ^ 64 in
  let^ hash := (if meta_locked meta then
                  let^ hash := pass_lock current policy_pubkey policy_hash version locked_new caller (pr_approval_info req) in
                  give (Some hash)
                else give None) in
  let^ now := now_secs in
  let valid_until := now + POLICY_SIGNATURE_TTL_SECS in
  let message := policy_store_message policy_pubkey version locked_new valid_until (pr_encrypted_data req) caller in
  let^ signature := sign_hashed customer (pr_wallet_id req) message in
  give (mkPolicyResponse (hex_of signature) (default policy_pubkey (Statement.strip_prefix "ed25519:" policy_pubkey))
          version locked_new valid_until policy_hash hash).

(** * Solana *)

Definition solana_sign_bytes (customer : option string) (wallet_id chain bytes : string) (want_raw_tx : bool) : Handler string :=
  let^ _ := check_wallet_id wallet_id in
  if negb (is_solana_chain chain) then stop (Bad (NotSolana chain)) else
  if negb want_raw_tx && parses_as_transaction_message (str_bytes bytes) then stop (Bad IsTransaction) else
  let^ policy := load_wallet_policy wallet_id customer in
  let^ now := now_secs in
  match solana_sign_decision policy want_raw_tx now with
  | Allow =>
    let^ sig := on_keystore (λ e, Internal (NotDerivedKey e))
                  (sign customer (wallet_seed is_evm_chain is_solana_chain wallet_id chain) bytes) in
    give (bs58_text sig)
  | FrozenWallet => stop (Refused IsFrozen)
  | Deny reason => stop (Refused (Said reason))
  | RequiresApproval _ => stop (Refused NoApprovalHere)
  end.

Definition without_0x (s : string) : string :=
  match Statement.strip_prefix "0x" s with
  | Some s => s
  | None => default s (Statement.strip_prefix "0X" s)
  end.
Definition message_bytes (encoding : option string) (message : string) : result string SignError :=
  let encoding := default "utf8" encoding in
  if String.eqb encoding "utf8" then ROk message else
  if String.eqb encoding "hex" then
    let body := without_0x message in
    if str_len body mod 2 =? 1 then RErr (Bad OddHex) else ok_or (hex_parse body) (Bad NotHex)
  else
  if String.eqb encoding "base64" then ok_or (b64_decode message) (Bad NotBase64) else RErr (Bad (BadEncoding encoding)).
Definition wallet_solana_sign_message_handler (header : option (option string)) (wallet_id chain message : string)
    (encoding : option string) : Handler string :=
  let^ _ := is_ready in
  let^ customer := customer_of header in
  let^ bytes := lift (message_bytes encoding message) in
  if str_is_empty bytes then stop (Bad Empty) else
  if MAX_MESSAGE_LEN <? str_len bytes then stop (Bad (TooLong MAX_MESSAGE_LEN)) else
  solana_sign_bytes customer wallet_id (to_lowercase chain) bytes false.
Definition wallet_solana_sign_transaction_handler (header : option (option string)) (wallet_id chain unsigned_tx : string)
    : Handler string :=
  let^ _ := is_ready in
  let^ customer := customer_of header in
  let^ bytes := lift (ok_or (b64_decode unsigned_tx) (Bad NotBase64)) in
  if str_is_empty bytes then stop (Bad Empty) else
  if MAX_TX_MESSAGE_LEN <? str_len bytes then stop (Bad (TooLong MAX_TX_MESSAGE_LEN)) else
  solana_sign_bytes customer wallet_id (to_lowercase chain) bytes true.
End keystore.
