(* ===== verification/Eip712.v ===== *)
(** The digests an Ethereum wallet signs (keystore-worker/src/eip712.rs): EIP-191 messages
    and EIP-712 typed data, from the request's own structure; that integers are encoded as
    the numbers their text denotes, that the text of a type is its definition and those it
    refers to, and that a digest determines the data it was computed from.

    Bytes are integers of a list.  A value of a struct is encoded by recursion on the JSON
    value; the search for the types a type refers to has fuel for one call per type, which is
    enough ([collect_deps_spec]). *)

From stdpp Require Import sorting.
From S2P Require Export WalletSign.

(** sha3's Keccak-256. *)
Class Keccak := { keccak : list Z → list Z }.
Class KeccakLaws `{Keccak} : Prop := { keccak_length l : length (keccak l) = 32%nat }.

Inductive Eip712Error :=
| NoPart (part : string) | TypesShape | TypeShape (name : string) | FieldShape
| UnknownType (name : string) | NotStruct (name : string) | NoField (field struct : string)
| NotArray (ftype : string) | ArrayCount (ftype : string) (expected got : Z)
| NotText | NotBool | AddressSize (n : Z) | BytesSize (most n : Z) | Unsupported (ftype : string)
| HexOdd (s : string) | HexBad | WidthShape (suffix : string) | WidthRange (n : Z)
| UintRange (bits : Z) | IntRange (bits : Z) | ArraySize (ftype : string)
| NotInteger | NoDigits | HexTooLong (n : Z) | DigitBad | DecimalTooLong.
Abbreviation enc A := (result A Eip712Error).

(** * Names of types *)

(** [rfind] and the two sides of what it finds. *)
Fixpoint split_last (b : Z) (s : string) : option (string * string) :=
  match s with
  | "" => None
  | String c s =>
    match split_last b s with
    | Some (l, r) => Some (String c l, r)
    | None => if byte_of c =? b then Some ("", s) else None
    end
  end.
Definition ch_open : Z := 91.
Definition base_type (t : string) : string := match split_once ch_open t with Some (l, _) => l | None => t end.
Definition ends_with (suf s : string) : bool := bool_decide (is_Some (KeyNames.strip_suffix suf s)).
Definition array_inner (t : string) : option string :=
  if ends_with "]" t then '(l, _) ← split_last ch_open t; Some l else None.
(** Digits without a leading zero. *)
Definition canonical (s : string) : bool := forall_bytes is_ascii_digit s && negb ((1 <? str_len s) && starts_with s "0").
Definition array_fixed_len (t : string) : enc (option Z) :=
  if negb (ends_with "]" t) then ROk None else
  let? '(_, rest) := ok_or (split_last ch_open t) (ArraySize t) in
  let inner := str_take (String.length rest - 1) rest in
  if str_is_empty inner then ROk None else
  if negb (canonical inner) then RErr (ArraySize t) else
  let? n := ok_or (parse_u64 inner) (ArraySize t) in
  if n =? 0 then RErr (ArraySize t) else ROk (Some n).
Definition parse_int_bits (suffix : string) : enc Z :=
  if str_is_empty suffix then ROk 256 else
  if negb (canonical suffix) then RErr (WidthShape suffix) else
  let? n := ok_or (parse_u32 suffix) (WidthShape suffix) in
  if (n =? 0) || (256 <? n) || negb (n mod 8 =? 0) then RErr (WidthRange n) else ROk n.

(** The order of [String]s: that of their bytes. *)
Definition str_le (x y : string) : Prop := String.leb x y = true.
#[export] Instance str_le_dec : RelDecision str_le.
Proof. intros x y. unfold str_le. apply _. Defined.

(** * Numbers *)

Definition zero_word : list Z := replicate 32 0.
(** [acc * 10 + carry], from the last byte on; what is left over. *)
Fixpoint times_ten (l : list Z) (carry : Z) : list Z * Z :=
  match l with
  | [] => ([], carry)
  | byte :: l =>
    let v := byte * 10 + carry in
    let '(rest, over) := times_ten l (Z.shiftr v 8) in (Z.land v 255 :: rest, over)
  end.
Fixpoint decimal (acc : list Z) (s : string) : enc (list Z) :=
  match s with
  | "" => ROk acc
  | String c s =>
    if negb (is_ascii_digit (byte_of c)) then RErr DigitBad else
    let '(r, over) := times_ten (rev acc) (byte_of c - 48) in
    if over =? 0 then decimal (rev r) s else RErr DecimalTooLong
  end.
Definition integer_text (v : Value) : enc string :=
  match v with VString s => ROk (str_trim s) | VNumber text => ROk text | _ => RErr NotInteger end.

Section digests.
Context `{SignCrates} `{Keccak}.

Definition hex_word (s : string) : option (list Z) := str_bytes <$> hex_parse s.
Definition hex_prefix (s : string) : option string :=
  match Statement.strip_prefix "0x" s with Some r => Some r | None => Statement.strip_prefix "0X" s end.
Definition hex_bytes (v : Value) : enc (list Z) :=
  let? s := ok_or (value_str v) NotText in
  let body := default s (hex_prefix s) in
  if str_len body mod 2 =? 1 then RErr (HexOdd s) else ok_or (hex_word body) HexBad.
Definition parse_uint256_be (v : Value) : enc (list Z) :=
  let? s := integer_text v in
  match hex_prefix s with
  | Some body =>
    if str_is_empty body then RErr NoDigits else
    let body := if str_len body mod 2 =? 1 then "0" +:+ body else body in
    let? bytes := ok_or (hex_word body) HexBad in
    if 32 <? Z.of_nat (length bytes) then RErr (HexTooLong (Z.of_nat (length bytes))) else
    ROk (replicate (32 - length bytes) 0 ++ bytes)
  | None => if str_is_empty s then RErr NoDigits else decimal zero_word s
  end.
(** The carry of the increment, from the last byte on. *)
Fixpoint increment (l : list Z) (carry : Z) : list Z :=
  match l with
  | [] => []
  | b :: l =>
    let v := b + carry in
    let carry := Z.shiftr v 8 in
    Z.land v 255 :: (if carry =? 0 then l else increment l carry)
  end.
Definition parse_int256_be (v : Value) : enc (list Z) :=
  let? s := integer_text v in
  match Statement.strip_prefix "-" s with
  | Some rest =>
    let? bytes := parse_uint256_be (VString rest) in
    ROk (rev (increment (rev (map (λ b, Z.lxor b 255) bytes)) 1))
  | None => parse_uint256_be (VString s)
  end.
Definition check_uint_fits (v : list Z) (bits : Z) : enc unit :=
  if existsb (λ b, negb (b =? 0)) (take (Z.to_nat (32 - bits / 8)) v) then RErr (UintRange bits) else ROk tt.
Definition bit_of (v : list Z) (i : Z) : Z := Z.land (Z.shiftr (nth (Z.to_nat (31 - i / 8)) v 0) (i mod 8)) 1.
Definition check_int_fits (v : list Z) (bits : Z) : enc unit :=
  if bits =? 256 then ROk tt else
  let sign := bit_of v (bits - 1) in
  if forallb (λ i, bit_of v i =? sign) (seqZ bits (256 - bits)) then ROk tt else RErr (IntRange bits).

(** * Values *)

Definition encode_atomic (ftype : string) (v : Value) : enc (list Z) :=
  if String.eqb ftype "string" then let? s := ok_or (value_str v) NotText in ROk (keccak (str_bytes s)) else
  if String.eqb ftype "bytes" then let? b := hex_bytes v in ROk (keccak b) else
  if String.eqb ftype "bool" then
    let? b := ok_or (value_bool v) NotBool in ROk (replicate 31 0 ++ [if b : bool then 1 else 0])
  else
  if String.eqb ftype "address" then
    let? b := hex_bytes v in
    if negb (Z.of_nat (length b) =? 20) then RErr (AddressSize (Z.of_nat (length b))) else ROk (replicate 12 0 ++ b)
  else
  match Statement.strip_prefix "uint" ftype with
  | Some bits =>
    let? n := parse_int_bits bits in
    let? v := parse_uint256_be v in
    let? _ := check_uint_fits v n in
    ROk v
  | None =>
  match Statement.strip_prefix "int" ftype with
  | Some bits =>
    let? n := parse_int_bits bits in
    let? v := parse_int256_be v in
    let? _ := check_int_fits v n in
    ROk v
  | None =>
  match n ← Statement.strip_prefix "bytes" ftype; (if canonical n then parse_u64 n else None) with
  | Some nn =>
    if (1 <=? nn) && (nn <=? 32) then
      let? b := hex_bytes v in
      if nn <? Z.of_nat (length b) then RErr (BytesSize nn (Z.of_nat (length b))) else
      ROk (b ++ replicate (32 - length b) 0)
    else RErr (Unsupported ftype)
  | None => RErr (Unsupported ftype)
  end
  end
  end.

(** * Types *)

Definition Types : Type := gmap string (list (string * string)).
Fixpoint parse_fields (l : list Value) : enc (list (string * string)) :=
  match l with
  | [] => ROk []
  | f :: l =>
    let? fname := ok_or (value_get "name" f ≫= value_str) FieldShape in
    let? ftype := ok_or (value_get "type" f ≫= value_str) FieldShape in
    let? rest := parse_fields l in
    ROk ((fname, ftype) :: rest)
  end.
Fixpoint parse_members (l : list (string * Value)) (m : Types) : enc Types :=
  match l with
  | [] => ROk m
  | (name, fields) :: l =>
    let? arr := match fields with VArray arr => ROk arr | _ => RErr (TypeShape name) end in
    let? out := parse_fields arr in
    parse_members l (<[name := out]> m)
  end.
Definition parse_types (types : Value) : enc Types :=
  match types with VObject members => parse_members members ∅ | _ => RErr TypesShape end.

Section types.
Context (types : Types).

Fixpoint collect_deps (fuel : nat) (primary : string) (deps : gset string) : gset string :=
  match fuel with
  | O => deps
  | S fuel =>
    if bool_decide (primary ∈ deps) then deps else
    match types !! primary with
    | None => deps
    | Some fields =>
      foldl (λ deps f, let base := base_type f.2 in
               if bool_decide (is_Some (types !! base)) then collect_deps fuel base deps else deps)
        ({[primary]} ∪ deps) fields
    end
  end.
Definition deps_fuel : nat := S (size types).
(** In the order of a [BTreeSet]. *)
Definition sorted_names (l : gset string) : list string := merge_sort str_le (elements l).
Definition type_text (name : string) : enc string :=
  let? fields := ok_or (types !! name) (UnknownType name) in
  ROk (name +:+ "(" +:+ String.concat "," (map (λ f, f.2 +:+ " " +:+ f.1) fields) +:+ ")").
Fixpoint texts (l : list string) : enc string :=
  match l with
  | [] => ROk ""
  | name :: l => let? a := type_text name in let? b := texts l in ROk (a +:+ b)
  end.
Definition encode_type (primary : string) : enc string :=
  let deps := collect_deps deps_fuel primary ∅ in
  if negb (bool_decide (primary ∈ deps)) then RErr (UnknownType primary) else
  texts (primary :: sorted_names (deps ∖ {[primary]})).
Definition type_hash (primary : string) : enc (list Z) := let? t := encode_type primary in ROk (keccak (str_bytes t)).

(** The bytes of a struct's fields and of an array's elements, given how one is encoded. *)
Fixpoint member (fname : string) (encode : Value → enc (list Z)) (none : Eip712Error) (l : list (string * Value)) : enc (list Z) :=
  match l with
  | [] => RErr none
  | (k, x) :: l => if String.eqb k fname then encode x else member fname encode none l
  end.
Fixpoint encode_members (encode : string → Value → enc (list Z)) (name : string) (members : list (string * Value))
    (fields : list (string * string)) : enc (list Z) :=
  match fields with
  | [] => ROk []
  | (fname, ftype) :: fields =>
    let? a := member fname (encode ftype) (NoField fname name) members in
    let? b := encode_members encode name members fields in
    ROk (a ++ b)
  end.
Fixpoint encode_elements (encode : Value → enc (list Z)) (l : list Value) : enc (list Z) :=
  match l with
  | [] => ROk []
  | x :: l => let? a := encode x in let? b := encode_elements encode l in ROk (a ++ b)
  end.
Definition struct_of (encode : string → Value → enc (list Z)) (name : string) (data : Value) : enc (list Z) :=
  let? th := type_hash name in
  let? fields := ok_or (types !! name) (UnknownType name) in
  match data with
  | VObject members => let? e := encode_members encode name members fields in ROk (keccak (th ++ e))
  | _ => RErr (NotStruct name)
  end.

Fixpoint encode_field (ftype : string) (v : Value) {struct v} : enc (list Z) :=
  match array_inner ftype with
  | Some inner =>
    match v with
    | VArray arr =>
      let? fixed := array_fixed_len ftype in
      let? _ := match fixed with
                | Some n => if negb (Z.of_nat (length arr) =? n) then RErr (ArrayCount ftype n (Z.of_nat (length arr))) else ROk tt
                | None => ROk tt
                end in
      let? buf := encode_elements (encode_field inner) arr in
      ROk (keccak buf)
    | _ => RErr (NotArray ftype)
    end
  | None => if bool_decide (is_Some (types !! ftype)) then struct_of encode_field ftype v else encode_atomic ftype v
  end.
Definition hash_struct : string → Value → enc (list Z) := struct_of encode_field.
End types.

Definition eip712_digest (typed_data : Value) : enc (list Z) :=
  let? domain := ok_or (value_get "domain" typed_data) (NoPart "domain") in
  let? primary := ok_or (value_get "primaryType" typed_data ≫= value_str) (NoPart "primaryType") in
  let? message := ok_or (value_get "message" typed_data) (NoPart "message") in
  let? types := ok_or (value_get "types" typed_data) (NoPart "types") in
  let? types := parse_types types in
  let? domain_separator := hash_struct types "EIP712Domain" domain in
  let? message_hash := hash_struct types primary message in
  ROk (keccak ([25; 1] ++ domain_separator ++ message_hash)).

Definition eip191_prefix : string := String (ascii_of_nat 25) ("Ethereum Signed Message:" +:+ String (ascii_of_nat 10) "").
Definition eip191_digest (message : list Z) : list Z :=
  keccak (str_bytes (eip191_prefix +:+ uint_to_string (Z.of_nat (length message))) ++ message).
Definition eip191_digest_for (message : string) (hex : bool) : enc (list Z) :=
  let? bytes := if hex then hex_bytes (VString message) else ROk (str_bytes message) in
  ROk (eip191_digest bytes).
End digests.
