(* ===== verification/Eip712Safety.v ===== *)
(** What the digests of eip712.rs come to: an integer field is the word of the number its
    text denotes, within the width of its type; the text of a type names its definition and
    those it refers to, each once; and a digest determines the data it was computed from,
    unless two inputs of Keccak with one image are at hand. *)

From stdpp Require Import sorting.
From S2P Require Export Eip712.

(** * Words *)

Fixpoint le_val (l : list Z) : Z := match l with [] => 0 | b :: l => b + 256 * le_val l end.
Definition be_val (l : list Z) : Z := le_val (rev l).
Fixpoint le_digits (k : nat) (n : Z) : list Z := match k with O => [] | S k => n mod 256 :: le_digits k (n / 256) end.
(** The 32 bytes of a number, the highest first. *)
Definition word (n : Z) : list Z := rev (le_digits 32 n).
Definition W256 : Z := 2 ^ 256.
Definition is_word (w : list Z) : Prop := Forall is_byte w ∧ length w = 32%nat.

Lemma le_val_range l : Forall is_byte l → 0 ≤ le_val l < 256 ^ Z.of_nat (length l).
Proof.
  unfold is_byte. induction 1 as [|b l Hb Hl IH]; [done|]. cbn [le_val length]. rewrite Nat2Z.inj_succ, Z.pow_succ_r by lia. lia.
Qed.
Lemma le_digits_ok k n : Forall is_byte (le_digits k n) ∧ length (le_digits k n) = k.
Proof.
  revert n. induction k as [|k IH]; intros n; [done|]. destruct (IH (n / 256)) as [? ?]. cbn. split; [|lia].
  constructor; [|done]. unfold is_byte. pose proof (Z.mod_pos_bound n 256). lia.
Qed.
Lemma le_val_digits k n : 0 ≤ n < 256 ^ Z.of_nat k → le_val (le_digits k n) = n.
Proof.
  revert n. induction k as [|k IH]; intros n Hn; [cbn in *; lia|]. cbn [le_digits le_val].
  rewrite Nat2Z.inj_succ, Z.pow_succ_r in Hn by lia. rewrite IH.
  - pose proof (Z.div_mod n 256). lia.
  - split; [apply Z.div_pos; lia | apply Z.div_lt_upper_bound; lia].
Qed.
Lemma le_digits_val l : Forall is_byte l → le_digits (length l) (le_val l) = l.
Proof.
  unfold is_byte. induction 1 as [|b l Hb Hl IH]; [done|]. cbn [length le_digits le_val].
  rewrite Z.mul_comm, Z.mod_add, Z.div_add by lia. rewrite Z.mod_small, Z.div_small, Z.add_0_l by lia. by rewrite IH.
Qed.
Lemma word_bytes n : is_word (word n).
Proof. destruct (le_digits_ok 32 n) as [? ?]. unfold word. split; [by apply Forall_rev | by rewrite length_rev]. Qed.
Lemma be_val_word n : 0 ≤ n < W256 → be_val (word n) = n.
Proof. intros Hn. unfold be_val, word. rewrite rev_involutive. by apply le_val_digits. Qed.
Lemma word_be_val w : is_word w → word (be_val w) = w.
Proof.
  intros [Hb Hl]. unfold word, be_val. rewrite <-(rev_involutive w) at 2. f_equal.
  replace 32%nat with (length (rev w)) by (by rewrite length_rev). apply le_digits_val. by apply Forall_rev.
Qed.
Lemma be_val_range w : is_word w → 0 ≤ be_val w < W256.
Proof.
  intros [Hb Hl]. unfold be_val. pose proof (le_val_range (rev w)) as Hr. rewrite length_rev, Hl in Hr. by apply Hr, Forall_rev.
Qed.
Lemma word_is w n : is_word w → (be_val w = n ↔ 0 ≤ n < W256 ∧ w = word n).
Proof.
  intros Hw. split.
  - intros <-. split; [by apply be_val_range | by rewrite word_be_val].
  - intros [Hn ->]. by apply be_val_word.
Qed.

(** * Decimal and hexadecimal *)

Definition low_byte (v : Z) : Z.land v 255 = v mod 256 := Z.land_ones v 8 ltac:(lia).
Lemma times_ten_spec l carry r over : Forall is_byte l → 0 ≤ carry → times_ten l carry = (r, over) →
  Forall is_byte r ∧ length r = length l ∧ le_val r + 256 ^ Z.of_nat (length l) * over = 10 * le_val l + carry ∧ 0 ≤ over.
Proof.
  intros Hl. revert carry r over. induction Hl as [|b l Hb Hl IH]; intros carry r over Hc; cbn [times_ten].
  - intros [= <- <-]. cbn. split_and!; [done | done | lia | lia].
  - unfold is_byte in Hb. destruct (times_ten l _) as [r' o] eqn:E. intros [= <- <-].
    rewrite Z.shiftr_div_pow2 in E by lia. change (2 ^ 8) with 256 in E.
    assert (0 ≤ (b * 10 + carry) / 256) as Hq by (apply Z.div_pos; lia). destruct (IH _ _ _ Hq E) as (Hr & Hlen & Hv & Ho).
    pose proof (Z.mod_pos_bound (b * 10 + carry) 256 ltac:(lia)). pose proof (Z.div_mod (b * 10 + carry) 256 ltac:(lia)).
    rewrite low_byte. split_and!; [|cbn; by rewrite Hlen| |done].
    + constructor; [unfold is_byte; lia | done].
    + cbn [le_val length]. rewrite Nat2Z.inj_succ, Z.pow_succ_r, <-Z.mul_assoc by lia. lia.
Qed.

(** What a text denotes, without a bound. *)
Fixpoint digits_from (base : Z) (digit : ascii → option Z) (acc : Z) (s : string) : option Z :=
  match s with "" => Some acc | String c s => d ← digit c; digits_from base digit (acc * base + d) s end.
Definition dec_digit (c : ascii) : option Z := if is_ascii_digit (byte_of c) then Some (byte_of c - 48) else None.
Lemma digits_grow base digit s : 1 ≤ base → (∀ c d, digit c = Some d → 0 ≤ d) → ∀ acc n, 0 ≤ acc →
  digits_from base digit acc s = Some n → acc ≤ n.
Proof.
  intros Hb Hd. induction s as [|c s IH]; intros acc n Ha; cbn; [intros [= ->]; lia|].
  intros (d & Hc & Hs)%bind_Some. specialize (Hd _ _ Hc). specialize (IH (acc * base + d) n ltac:(nia) Hs). nia.
Qed.
Lemma dec_digit_range c d : dec_digit c = Some d → 0 ≤ d < 10.
Proof. unfold dec_digit. destruct (is_ascii_digit _) eqn:E; [|done]. intros [= <-]. unfold is_ascii_digit, in_range in E. lia. Qed.

Lemma decimal_spec s : ∀ acc, is_word acc → ∀ w, decimal acc s = ROk w ↔
  ∃ n, digits_from 10 dec_digit (be_val acc) s = Some n ∧ n < W256 ∧ w = word n.
Proof.
  induction s as [|c s IH]; intros acc Ha w; cbn [decimal digits_from].
  - pose proof (be_val_range acc Ha). split.
    + intros [= <-]. exists (be_val acc). rewrite word_be_val by done. split_and!; [done | lia | done].
    + intros (n & [= <-] & _ & ->). by rewrite word_be_val.
  - assert (dec_digit c = if is_ascii_digit (byte_of c) then Some (byte_of c - 48) else None) as -> by done.
    destruct (is_ascii_digit (byte_of c)) eqn:Ed; cbn [negb mbind option_bind]; [|split; [done | by intros (n & Hn & _)]].
    destruct Ha as [Hb Hl]. destruct (times_ten (rev acc) (byte_of c - 48)) as [r over] eqn:Et.
    assert (0 ≤ byte_of c - 48 < 10) as Hd by (unfold is_ascii_digit, in_range in Ed; lia).
    destruct (times_ten_spec _ _ _ _ (Forall_rev Hb) (proj1 Hd) Et) as (Hr & Hlen & Hv & Ho).
    rewrite length_rev, Hl in *. change (256 ^ Z.of_nat 32) with W256 in Hv.
    pose proof (le_val_range r Hr) as Hrr. rewrite Hlen in Hrr. change (256 ^ Z.of_nat 32) with W256 in Hrr.
    assert (be_val (rev r) = le_val r) as Er by (unfold be_val; by rewrite rev_involutive).
    destruct (Z.eqb_spec over 0) as [->|Hne].
    + assert (be_val acc * 10 + (byte_of c - 48) = be_val (rev r)) as -> by (rewrite Er; unfold be_val; lia).
      apply IH. split; [by apply Forall_rev | by rewrite length_rev].
    + split; [done|]. intros (n & Hn & Hlt & _). exfalso.
      apply digits_grow in Hn; [|lia|intros ? ? ?%dec_digit_range; lia|unfold be_val; pose proof (le_val_range _ (Forall_rev Hb)); lia].
      unfold be_val in Hn. assert (W256 * 1 ≤ W256 * over) by (apply Z.mul_le_mono_nonneg_l; unfold W256; lia). lia.
Qed.

Lemma le_val_app l l' : le_val (l ++ l') = le_val l + 256 ^ Z.of_nat (length l) * le_val l'.
Proof.
  induction l as [|b l IH]; cbn [app le_val length]; [change (256 ^ Z.of_nat 0) with 1; lia|].
  rewrite Nat2Z.inj_succ, Z.pow_succ_r, <-Z.mul_assoc by lia. lia.
Qed.
Lemma be_val_app a b : be_val (a ++ b) = be_val a * 256 ^ Z.of_nat (length b) + be_val b.
Proof. unfold be_val. rewrite rev_app_distr, le_val_app, length_rev. lia. Qed.
Lemma be_val_zeros k : be_val (replicate k 0) = 0.
Proof.
  induction k as [|k IH]; [done|]. cbn [replicate]. change (0 :: replicate k 0) with ([0] ++ replicate k 0). rewrite be_val_app, IH.
  change (be_val [0]) with 0. lia.
Qed.
Lemma be_val_cons b l : be_val (b :: l) = b * 256 ^ Z.of_nat (length l) + be_val l.
Proof. change (b :: l) with ([b] ++ l). rewrite be_val_app. change (be_val [b]) with (b + 256 * 0). lia. Qed.

Lemma hex_value_range c d : hex_value c = Some d → 0 ≤ d < 16.
Proof.
  unfold hex_value. cbv zeta. unfold is_ascii_digit, in_range. repeat (case_match; [intros [= <-]; lia|]). done.
Qed.
Lemma string_pairs (P : string → Prop) : P "" → (∀ c, P (String c "")) → (∀ c d s, P s → P (String c (String d s))) → ∀ s, P s.
Proof.
  intros H0 H1 H2. fix go 1. intros s. destruct s as [|c s]; [exact H0|]. destruct s as [|d s]; [apply H1|]. apply H2, go.
Qed.
Lemma hex_decode_spec s : ∀ acc n, digits_from 16 hex_value acc s = Some n ∧ Z.even (str_len s) = true ↔
  ∃ b, sample_hex_decode s = Some b ∧ n = acc * 256 ^ str_len b + be_val (str_bytes b).
Proof.
  induction s as [|c|c d s IH] using string_pairs; intros acc n.
  - assert (acc * 256 ^ str_len "" + be_val (str_bytes "") = acc) as E by (change (str_len "") with 0; change (be_val (str_bytes "")) with 0; lia).
    split; [intros [[= <-] _]; by exists "" | intros (b & [= <-] & ->); split; [by rewrite E | done]].
  - split; [by intros [_ ?] | by intros (b & ? & _)].
  - cbn [digits_from sample_hex_decode]. destruct (hex_value c) as [h|] eqn:Ec; [|split; [by intros [? _] | by intros (b & ? & _)]].
    destruct (hex_value d) as [l|] eqn:Ed; [|split; [by intros [? _] | by intros (b & ? & _)]]. cbn [mbind option_bind].
    apply hex_value_range in Ec, Ed.
    assert (Z.even (str_len (String c (String d s))) = Z.even (str_len s)) as ->.
    { unfold str_len. cbn [String.length]. rewrite !Nat2Z.inj_succ, !Z.even_succ, Z.odd_succ. done. }
    rewrite IH. assert (∀ r, let b := String (ascii_of_N (Z.to_N (h * 16 + l))) r in
      acc * 256 ^ str_len b + be_val (str_bytes b) = ((acc * 16 + h) * 16 + l) * 256 ^ str_len r + be_val (str_bytes r)) as Hstep.
    { intros r. cbv zeta. unfold str_bytes at 1. cbn [String.list_ascii_of_string map]. fold (str_bytes r).
      rewrite be_val_cons, byte_of_ascii_of_N, str_bytes_length, Z2N.id by lia. unfold str_len. cbn [String.length].
      rewrite Nat2Z.inj_succ, Z.pow_succ_r by lia. lia. }
    split.
    + intros (b & -> & ->). eexists. split; [done|]. by rewrite Hstep.
    + intros (b & Hb & ->). destruct (sample_hex_decode s) as [r|]; [|done]. cbn in Hb. injection Hb as <-. exists r. split; [done|]. by rewrite Hstep.
Qed.

Section numbers.
Context `{SignCrates} `{Keccak}.
(** Documented of [hex::decode]: pairs of digits, in either case. *)
Context (Hhex : ∀ s, hex_parse s = sample_hex_decode s).

(** The number a text denotes: hexadecimal of at most 64 digits behind [0x], or decimal. *)
Definition uint_value (s : string) : option Z :=
  match hex_prefix s with
  | Some body => if str_is_empty body || (64 <? str_len body) then None else digits_from 16 hex_value 0 body
  | None => if str_is_empty s then None else digits_from 10 dec_digit 0 s
  end.
Definition int_value (s : string) : option Z :=
  match Statement.strip_prefix "-" s with Some rest => Z.opp <$> uint_value (str_trim rest) | None => uint_value (str_trim s) end.

Lemma zero_word_ok : is_word zero_word ∧ be_val zero_word = 0.
Proof. split; [split; [by apply Forall_replicate | done] | apply be_val_zeros]. Qed.
Lemma str_bytes_ok s : Forall is_byte (str_bytes s).
Proof. induction s as [|c s IH]; [done|]. constructor; [|done]. pose proof (byte_of_range c). unfold is_byte. lia. Qed.
Lemma hex_word_length s b : sample_hex_decode s = Some b → str_len s = 2 * str_len b.
Proof.
  unfold str_len. revert b. induction s as [|c|c d s IH] using string_pairs; intros b; cbn; [by intros [= <-] | done |].
  intros (h & _ & (l & _ & (r & Hr & E)%bind_Some)%bind_Some)%bind_Some. assert (b = String (ascii_of_N (Z.to_N (h * 16 + l))) r) as -> by congruence.
  specialize (IH _ Hr). cbn. lia.
Qed.
(** An even number of digits, after the padding. *)
Definition padded (s : string) : string := if str_len s mod 2 =? 1 then "0" +:+ s else s.
Lemma padded_spec s : Z.even (str_len (padded s)) = true ∧ digits_from 16 hex_value 0 (padded s) = digits_from 16 hex_value 0 s ∧
  (str_len (padded s) ≤ 64 ↔ str_len s ≤ 64).
Proof.
  unfold padded. rewrite Zmod_even. destruct (Z.even (str_len s)) eqn:E; [by split_and!|]. cbn [Z.eqb Pos.eqb].
  assert (str_len ("0" +:+ s) = Z.succ (str_len s)) as -> by (unfold str_len; cbn; lia). rewrite Z.even_succ, <-Z.negb_even, E.
  split_and!; [done..|]. assert (str_len s ≠ 64) by (by intros E'; rewrite E' in E). lia.
Qed.
Lemma pad_word b : str_len b ≤ 32 → let w := replicate (32 - String.length b) 0 ++ str_bytes b in
  is_word w ∧ be_val w = be_val (str_bytes b).
Proof.
  intros Hb. cbv zeta. rewrite be_val_app, be_val_zeros. split; [|lia].
  split; [apply Forall_app; split; [by apply Forall_replicate | apply str_bytes_ok]|].
  rewrite length_app, length_replicate, str_bytes_length. unfold str_len in *. lia.
Qed.
Lemma parse_uint256_be_spec v w : parse_uint256_be v = ROk w ↔
  ∃ s n, integer_text v = ROk s ∧ uint_value s = Some n ∧ n < W256 ∧ w = word n.
Proof.
  unfold parse_uint256_be, uint_value. destruct (integer_text v) as [s|e]; cbn [rbind]; [|split; [done | by intros (s & n & ? & _)]].
  transitivity (∃ n, match hex_prefix s with
    | Some body => if str_is_empty body || (64 <? str_len body) then None else digits_from 16 hex_value 0 body
    | None => if str_is_empty s then None else digits_from 10 dec_digit 0 s end = Some n ∧ n < W256 ∧ w = word n).
  2:{ split; [intros (n & Hn); by exists s, n | intros (s' & n & [= <-] & Hn); by exists n]. }
  destruct (hex_prefix s) as [body|].
  - destruct (str_is_empty body); cbn [orb]; [split; [done | by intros (n & ? & _)]|].
    fold (padded body). destruct (padded_spec body) as (Hev & Hd & Hle). rewrite <-Hd.
    destruct (Z.ltb_spec 64 (str_len body)) as [Hlong|Hshort].
    + split; [|by intros (n & ? & _)]. unfold hex_word. rewrite Hhex. destruct (sample_hex_decode (padded body)) as [b|] eqn:Eb; cbn; [|done].
      apply hex_word_length in Eb. rewrite str_bytes_length. fold (str_len b). destruct (Z.ltb_spec 32 (str_len b)); [done | lia].
    + unfold hex_word. rewrite Hhex. split.
      * destruct (sample_hex_decode (padded body)) as [b|] eqn:Eb; cbn [fmap option_fmap option_map ok_or rbind]; [|done].
        pose proof (hex_word_length _ _ Eb) as Hl. rewrite !str_bytes_length. fold (str_len b).
        destruct (Z.ltb_spec 32 (str_len b)); [lia|]. intros E. injection E as <-.
        destruct (proj2 (hex_decode_spec (padded body) 0 (be_val (str_bytes b)))) as [Hn _]; [by exists b; split; [|lia]|].
        exists (be_val (str_bytes b)). split; [done|].
        destruct (pad_word b) as [Hw Hv]; [done|].
        destruct (proj1 (word_is _ (be_val (str_bytes b)) Hw)) as [[_ ?] ?]; done.
      * intros (n & Hn & Hlt & ->). destruct (proj1 (hex_decode_spec (padded body) 0 n) (conj Hn Hev)) as (b & Eb & ->).
        rewrite Eb. cbn [fmap option_fmap option_map ok_or rbind]. pose proof (hex_word_length _ _ Eb) as Hl.
        rewrite !str_bytes_length. fold (str_len b). destruct (Z.ltb_spec 32 (str_len b)); [lia|]. f_equal. symmetry.
        destruct (pad_word b) as [Hw Hv]; [done|].
        rewrite <-(word_be_val _ Hw), Hv. f_equal.
  - destruct (str_is_empty s); [split; [done | by intros (n & ? & _)]|].
    destruct zero_word_ok as [Hz Hz0]. rewrite (decimal_spec _ _ Hz), Hz0. done.
Qed.

(** ** Negation *)

Lemma flip_byte b : is_byte b → Z.lxor b 255 = 255 - b.
Proof.
  unfold is_byte. intros Hb. assert (forallb (λ b, Z.lxor b 255 =? 255 - b) (seqZ 0 256) = true) as Hall by (vm_compute; reflexivity).
  rewrite forallb_forall in Hall. apply Z.eqb_eq, Hall, list_elem_of_In, elem_of_seqZ. lia.
Qed.
Lemma le_val_flip l : Forall is_byte l → Forall is_byte (map (λ b, Z.lxor b 255) l) ∧
  le_val (map (λ b, Z.lxor b 255) l) = 256 ^ Z.of_nat (length l) - 1 - le_val l.
Proof.
  induction 1 as [|b l Hb Hl [IH1 IH2]]; [done|]. cbn [map le_val length]. rewrite flip_byte, IH2 by done. unfold is_byte in *.
  rewrite Nat2Z.inj_succ, Z.pow_succ_r by lia. split; [|lia]. constructor; [unfold is_byte; lia | done].
Qed.
Lemma increment_spec l carry : Forall is_byte l → 0 ≤ carry ≤ 1 →
  Forall is_byte (increment l carry) ∧ length (increment l carry) = length l ∧
  le_val (increment l carry) = (le_val l + carry) mod 256 ^ Z.of_nat (length l).
Proof.
  intros Hl. revert carry. induction Hl as [|b l Hb Hl IH]; intros carry Hc; [by rewrite Zmod_1_r|]. cbn [increment le_val length].
  unfold is_byte in Hb. rewrite low_byte, Z.shiftr_div_pow2 by lia. change (2 ^ 8) with 256.
  pose proof (Z.mod_pos_bound (b + carry) 256 ltac:(lia)). pose proof (Z.div_mod (b + carry) 256 ltac:(lia)).
  pose proof (le_val_range l Hl) as Hr. assert (0 ≤ (b + carry) / 256 ≤ 1) as Hq.
  { split; [apply Z.div_pos; lia | apply Z.lt_succ_r, Z.div_lt_upper_bound; lia]. }
  rewrite Nat2Z.inj_succ, Z.pow_succ_r by lia.
  destruct (Z.eqb_spec ((b + carry) / 256) 0) as [E|E].
  - split_and!; [by constructor | done|]. rewrite (Z.mod_small (b + 256 * le_val l + carry)); nia.
  - destruct (IH ((b + carry) / 256) Hq) as (I1 & I2 & I3). split_and!; [by constructor | cbn; by rewrite I2|].
    rewrite I3. assert ((b + carry) / 256 = 1) as -> by lia. assert ((b + carry) mod 256 = b + carry - 256) as -> by lia.
    replace (b + 256 * le_val l + carry) with ((b + carry - 256) + 256 * (le_val l + 1)) by lia.
    set (P := 256 ^ Z.of_nat (length l)) in *. assert (0 < P) by (unfold P; lia).
    pose proof (Z.mod_pos_bound (le_val l + 1) P ltac:(lia)). pose proof (Z.div_mod (le_val l + 1) P ltac:(lia)).
    apply (Z.mod_unique_pos _ _ ((le_val l + 1) / P)); nia.
Qed.

Lemma negated_word n : 0 ≤ n < W256 →
  rev (increment (rev (map (λ b, Z.lxor b 255) (word n))) 1) = word ((- n) mod W256).
Proof.
  intros Hn. destruct (word_bytes n) as [Hb Hl]. destruct (le_val_flip _ (Forall_rev Hb)) as [Hf Hv].
  rewrite <-map_rev. destruct (increment_spec _ 1 Hf ltac:(lia)) as (Hi & Hil & Hiv).
  rewrite length_map, length_rev, Hl in *. change (256 ^ Z.of_nat 32) with W256 in *.
  assert (is_word (rev (increment (map (λ b, Z.lxor b 255) (rev (word n))) 1))) as Hw by (split; [by apply Forall_rev | by rewrite length_rev]).
  rewrite <-(word_be_val _ Hw). f_equal. unfold be_val. rewrite rev_involutive, Hiv, Hv. fold (be_val (word n)). rewrite be_val_word by done.
  replace (W256 - 1 - n + 1) with (- n + 1 * W256) by lia. by rewrite Z.mod_add by (unfold W256; lia).
Qed.
Lemma uint_value_pos t n : uint_value t = Some n → 0 ≤ n.
Proof.
  unfold uint_value. destruct (hex_prefix t); case_match; try done; intros Hn; apply digits_grow in Hn;
    try lia; intros ? ? Hd; [apply hex_value_range in Hd | apply dec_digit_range in Hd]; lia.
Qed.
Lemma parse_int256_be_spec v w : parse_int256_be v = ROk w ↔
  ∃ s n, integer_text v = ROk s ∧ int_value s = Some n ∧ - W256 < n < W256 ∧ w = word (n mod W256).
Proof.
  unfold parse_int256_be, int_value. destruct (integer_text v) as [s|e]; cbn [rbind]; [|split; [done | by intros (s & n & ? & _)]].
  pose proof uint_value_pos as Hpos.
  destruct (Statement.strip_prefix "-" s) as [rest|] eqn:Es; split.
  - intros E. destruct (parse_uint256_be (VString rest)) as [bytes|] eqn:Ep; [|done]. cbn in E. injection E as <-.
    apply parse_uint256_be_spec in Ep as (t & n & [= <-] & Hn & Hlt & ->). pose proof (Hpos _ _ Hn).
    exists s, (- n). rewrite Es, Hn. split_and!; [done | done | lia | lia |]. by apply negated_word.
  - intros (s' & n & [= <-] & Hn & Hr & ->). rewrite Es in Hn. apply fmap_Some in Hn as (m & Hm & ->). pose proof (Hpos _ _ Hm).
    assert (parse_uint256_be (VString rest) = ROk (word m)) as -> by (apply parse_uint256_be_spec; exists (str_trim rest), m; split_and!; [done..|lia|done]).
    cbn. f_equal. by apply negated_word; lia.
  - intros (t & n & [= <-] & Hn & Hlt & ->)%parse_uint256_be_spec. pose proof (Hpos _ _ Hn). exists s, n. rewrite Es, Z.mod_small by lia. split_and!; [done..|lia|done|done].
  - intros (s' & n & [= <-] & Hn & Hr & ->). rewrite Es in Hn. pose proof (Hpos _ _ Hn). rewrite Z.mod_small by lia. apply parse_uint256_be_spec. exists (str_trim s), n. split_and!; [done..|lia|done].
Qed.

(** ** Widths *)

Lemma parse_int_bits_range suffix bits : parse_int_bits suffix = ROk bits → 8 ≤ bits ≤ 256 ∧ bits mod 8 = 0.
Proof.
  unfold parse_int_bits. case_match; [by intros [= <-]|]. case_match; [done|].
  destruct (parse_u32 suffix) as [n|] eqn:En; cbn; [|done]. apply parse_uint_range in En; [|unfold U32_MAX; lia].
  destruct (_ || _) eqn:E; [done|]. intros [= <-]. apply orb_false_iff in E as [[E1 E2]%orb_false_iff E3].
  apply negb_false_iff in E3. Z.to_euclidean_division_equations. lia.
Qed.
Lemma all_zero l : Forall is_byte l → existsb (λ b, negb (b =? 0)) l = false ↔ be_val l = 0.
Proof.
  induction 1 as [|b l Hb Hl IH]; [done|]. cbn [existsb]. rewrite orb_false_iff, IH, be_val_cons, negb_false_iff, Z.eqb_eq. unfold is_byte in Hb.
  pose proof (le_val_range (rev l) (Forall_rev Hl)) as Hr. fold (be_val l) in Hr. assert (0 < 256 ^ Z.of_nat (length l)) by lia. nia.
Qed.
Lemma check_uint_fits_spec w bits : is_word w → 8 ≤ bits ≤ 256 → bits mod 8 = 0 →
  check_uint_fits w bits = ROk tt ↔ be_val w < 2 ^ bits.
Proof.
  intros [Hb Hl] Hbits Hm. unfold check_uint_fits. set (k := Z.to_nat (32 - bits / 8)).
  pose proof (Forall_take is_byte k w Hb) as Ht. pose proof (Forall_drop is_byte k w Hb) as Hd.
  transitivity (be_val (take k w) = 0).
  { rewrite <-(all_zero _ Ht). by destruct (existsb _ _). }
  rewrite <-(take_drop k w) at 2. rewrite be_val_app, length_drop, Hl.
  pose proof (le_val_range (rev (drop k w)) (Forall_rev Hd)) as Hr. fold (be_val (drop k w)) in Hr. rewrite length_rev, length_drop, Hl in Hr.
  pose proof (le_val_range (rev (take k w)) (Forall_rev Ht)) as Hr'. fold (be_val (take k w)) in Hr'.
  assert (256 ^ Z.of_nat (32 - k) = 2 ^ bits) as E.
  { change 256 with (2 ^ 8). rewrite <-Z.pow_mul_r by lia. f_equal. unfold k. Z.to_euclidean_division_equations. lia. }
  rewrite E in *. assert (0 < 2 ^ bits) by lia. nia.
Qed.

Lemma le_val_bit l i : Forall is_byte l → 0 ≤ i → Z.testbit (le_val l) i = Z.testbit (nth (Z.to_nat (i / 8)) l 0) (i mod 8).
Proof.
  intros Hl. revert i. induction Hl as [|b l Hb Hl IH]; intros i Hi; [destruct (Z.to_nat _); by rewrite !Z.testbit_0_l|].
  unfold is_byte in Hb. cbn [le_val]. destruct (Z.ltb_spec i 8).
  - rewrite Z.div_small, Z.mod_small by lia. cbn [Z.to_nat nth].
    replace (b + 256 * le_val l) with (b + le_val l * 2 ^ 8) by lia.
    rewrite <-(Z.mod_pow2_bits_low (b + le_val l * 2 ^ 8) 8) by lia. rewrite Z.mod_add, Z.mod_small by lia. done.
  - replace i with (i - 8 + 8) at 1 by lia. rewrite <-Z.div_pow2_bits by lia.
    replace (b + 256 * le_val l) with (b + le_val l * 2 ^ 8) by lia. rewrite Z.div_add, Z.div_small, Z.add_0_l by lia. rewrite IH by lia.
    replace ((i - 8) mod 8) with (i mod 8) by (Z.to_euclidean_division_equations; lia).
    replace (Z.to_nat (i / 8)) with (S (Z.to_nat ((i - 8) / 8))) by (Z.to_euclidean_division_equations; lia). done.
Qed.
Lemma bit_of_spec w i : is_word w → 0 ≤ i < 256 → bit_of w i = Z.b2z (Z.testbit (be_val w) i).
Proof.
  intros [Hb Hl] Hi. unfold bit_of, be_val. rewrite le_val_bit by (try lia; by apply Forall_rev).
  assert (0 ≤ i / 8 ≤ 31) as Hq by (Z.to_euclidean_division_equations; lia).
  rewrite rev_nth by lia. replace (length w - S (Z.to_nat (i / 8)))%nat with (Z.to_nat (31 - i / 8)) by lia.
  change 1 with (Z.ones 1). rewrite Z.land_ones, Z.shiftr_div_pow2 by (try lia; apply Z.mod_pos_bound; lia). symmetry. apply Z.testbit_spec', Z.mod_pos_bound. lia.
Qed.

Lemma high_bits_zero x k : 0 ≤ k → 0 ≤ x → (∀ i, k ≤ i → Z.testbit x i = false) → x < 2 ^ k.
Proof.
  intros Hk Hx Hb. destruct (Z.eq_dec x 0) as [->|Hne]; [apply Z.pow_pos_nonneg; lia|].
  apply Z.log2_lt_pow2; [lia|]. destruct (Z.lt_ge_cases (Z.log2 x) k) as [|Hge]; [done|]. specialize (Hb _ Hge). by rewrite Z.bit_log2 in Hb by lia.
Qed.
Lemma small_high_bits x k i : 0 ≤ x < 2 ^ k → k ≤ i → Z.testbit x i = false.
Proof.
  intros Hx Hi. destruct (Z.eq_dec x 0) as [->|Hne]; [apply Z.testbit_0_l|]. apply Z.bits_above_log2; [lia|].
  eapply Z.lt_le_trans; [|exact Hi]. apply Z.log2_lt_pow2; lia.
Qed.
Lemma flipped_bit x i : 0 ≤ i < 256 → Z.testbit (W256 - 1 - x) i = negb (Z.testbit x i).
Proof.
  intros Hi. replace (W256 - 1 - x) with (Z.lnot x + 1 * 2 ^ 256) by (unfold W256, Z.lnot; lia).
  rewrite <-(Z.mod_pow2_bits_low _ 256), Z.mod_add, Z.mod_pow2_bits_low by lia. apply Z.lnot_spec. lia.
Qed.
Lemma sign_extends x k : 0 ≤ x < W256 → 1 ≤ k ≤ 256 →
  (∀ i, k ≤ i < 256 → Z.testbit x i = Z.testbit x (k - 1)) ↔ x < 2 ^ (k - 1) ∨ W256 - 2 ^ (k - 1) ≤ x.
Proof.
  intros Hx Hk. assert (0 ≤ W256 - 1 - x < 2 ^ 256) as Hy by (unfold W256 in *; lia). split.
  - intros Hs. destruct (Z.testbit x (k - 1)) eqn:E.
    + right. assert (W256 - 1 - x < 2 ^ (k - 1)); [|lia]. apply high_bits_zero; [lia | lia|]. intros i Hi.
      destruct (Z.lt_ge_cases i 256); [|by apply (small_high_bits _ 256)]. rewrite flipped_bit by lia.
      destruct (Z.eq_dec i (k - 1)) as [->|]; [by rewrite E | by rewrite Hs by lia].
    + left. apply high_bits_zero; [lia | lia|]. intros i Hi. destruct (Z.lt_ge_cases i 256); [|by apply (small_high_bits _ 256)].
      destruct (Z.eq_dec i (k - 1)) as [->|]; [done | by rewrite Hs by lia].
  - intros [Hl|Hl] i Hi.
    + by rewrite !(small_high_bits x (k - 1)) by lia.
    + assert (0 ≤ W256 - 1 - x < 2 ^ (k - 1)) as Hy' by lia.
      assert (∀ j, k - 1 ≤ j < 256 → Z.testbit x j = true) as Ht; [|by rewrite !Ht by lia].
      intros j Hj. pose proof (flipped_bit x j ltac:(lia)) as Hf. rewrite (small_high_bits _ _ _ Hy') in Hf by lia. by destruct (Z.testbit x j).
Qed.
Lemma check_int_fits_spec w bits : is_word w → 8 ≤ bits ≤ 256 →
  check_int_fits w bits = ROk tt ↔ be_val w < 2 ^ (bits - 1) ∨ W256 - 2 ^ (bits - 1) ≤ be_val w.
Proof.
  intros Hw Hbits. pose proof (be_val_range w Hw) as Hr. unfold check_int_fits. destruct (Z.eqb_spec bits 256) as [->|Hne].
  { split; [intros _|done]. change (2 ^ (256 - 1)) with (2 ^ 255). unfold W256 in *. lia. }
  rewrite <-(sign_extends (be_val w) bits) by lia.
  transitivity (∀ i, bits ≤ i < 256 → bit_of w i = bit_of w (bits - 1)).
  - destruct (forallb _ _) eqn:E; split; try done; intros HH.
    + intros i Hi. rewrite forallb_forall in E. apply Z.eqb_eq, E, list_elem_of_In, elem_of_seqZ. lia.
    + exfalso. assert (forallb (λ i, bit_of w i =? bit_of w (bits - 1)) (seqZ bits (256 - bits)) = true); [|congruence].
      apply forallb_forall. intros i Hi%list_elem_of_In%elem_of_seqZ. apply Z.eqb_eq, HH. lia.
  - split; intros HH i Hi; specialize (HH i Hi); rewrite !bit_of_spec in * by (done || lia); [by apply Z.b2z_inj | by rewrite HH].
Qed.

End numbers.

(** * The text of a type *)

Section closure.
Context (types : Types).

(** The definition of [x] names the type [y]. *)
Definition names_type (x y : string) : Prop :=
  ∃ fields f, types !! x = Some fields ∧ f ∈ fields ∧ base_type f.2 = y ∧ is_Some (types !! y).
(** What is found, started at [p] with [deps] found before. *)
Record found (p : string → Prop) (deps r : gset string) : Prop := {
  fo_kept : deps ⊆ r;
  fo_start x : p x → is_Some (types !! x) → x ∈ r;
  fo_named x : x ∈ r → x ∈ deps ∨ is_Some (types !! x) ∧ ∃ y, p y ∧ rtc names_type y x;
  fo_closed x y : x ∈ r → x ∉ deps → names_type x y → y ∈ r;
}.
Definition left_over (deps : gset string) : nat := size (dom types ∖ deps).
Lemma left_over_mono d d' : d ⊆ d' → (left_over d' ≤ left_over d)%nat.
Proof. intros Hd. unfold left_over. apply subseteq_size. set_solver. Qed.
Lemma collect_fields fuel (fields : list (string * string)) deps :
  (∀ p d, (left_over d < fuel)%nat → found (p =.) d (collect_deps types fuel p d)) → (left_over deps < fuel)%nat →
  found (λ y, ∃ f, f ∈ fields ∧ base_type f.2 = y) deps
    (foldl (λ deps f, if bool_decide (is_Some (types !! base_type f.2)) then collect_deps types fuel (base_type f.2) deps else deps) deps fields).
Proof.
  intros IH. revert deps. induction fields as [|f fields IHf]; intros deps Hd; cbn [foldl].
  { split; [done | set_solver | by left | set_solver]. }
  case_bool_decide as Hb.
  - pose proof (IH (base_type f.2) deps Hd) as [K S N C]. set (d := collect_deps types fuel (base_type f.2) deps) in *.
    destruct (IHf d) as [K' S' N' C']; [pose proof (left_over_mono _ _ K); lia|]. split.
    + set_solver.
    + intros x (g & [->|Hg]%elem_of_cons & <-) Hx; [apply K'; by apply S | apply S'; [by exists g | done]].
    + intros x [Hx|(? & y & (g & Hg & <-) & ?)]%N'.
      * destruct (N x Hx) as [?|(? & y & <- & ?)]; [by left | right]. split; [done|]. exists (base_type f.2). split; [|done]. exists f. split; [by left | done].
      * right. split; [done|]. exists (base_type g.2). split; [|done]. exists g. split; [by right | done].
    + intros x y Hx Hn Hxy. destruct (decide (x ∈ d)) as [Hxd|Hxd]; [apply K'; by apply (C x) | by apply (C' x)].
  - destruct (IHf deps Hd) as [K' S' N' C']. split; [done| | |done].
    + intros x (g & [->|Hg]%elem_of_cons & <-) Hx; [done | apply S'; [by exists g | done]].
    + intros x [Hx|(? & y & (g & Hg & <-) & ?)]%N'; [by left | right]. split; [done|]. exists (base_type g.2). split; [|done]. exists g. split; [by right | done].
Qed.
(** The search ends: with fuel for the types not yet found, it finds the rest. *)
Lemma collect_deps_spec fuel p deps : (left_over deps < fuel)%nat → found (p =.) deps (collect_deps types fuel p deps).
Proof.
  revert p deps. induction fuel as [|fuel IH]; intros p deps Hd; [lia|]. cbn [collect_deps].
  case_bool_decide as Hp; [split; [done | by intros x <- | by left | set_solver]|].
  destruct (types !! p) as [fields|] eqn:Ep; [|split; [done | intros x <-; rewrite Ep; by intros [] | by left | set_solver]].
  assert (left_over ({[p]} ∪ deps) < fuel)%nat as Hl.
  { assert (left_over ({[p]} ∪ deps) < left_over deps)%nat; [|lia]. unfold left_over. apply subset_size. assert (p ∈ dom types) by (by apply elem_of_dom). set_solver. }
  destruct (collect_fields fuel fields ({[p]} ∪ deps) IH Hl) as [K S N C]. split.
  - set_solver.
  - intros x <- _. set_solver.
  - intros x [[->%elem_of_singleton|?]%elem_of_union|(? & y & (f & Hf & <-) & Hr)]%N; [right | by left | right].
    + split; [by rewrite Ep|]. exists p. split; [done | apply rtc_refl].
    + split; [done|]. exists p. split; [done|]. eapply rtc_l; [|exact Hr]. exists fields, f. split_and!; try done.
      destruct (rtc_inv _ _ Hr) as [->|(z & (fs & g & Hfs & _) & _)]; [done | by rewrite Hfs].
  - intros x y Hx Hn Hxy. destruct (decide (x = p)) as [->|Hne]; [|apply (C x); set_solver].
    destruct Hxy as (fs & f & Hfs & Hf & <- & Hy). assert (fs = fields) as -> by congruence. apply S; [by exists f | done].
Qed.

Lemma found_closure p : is_Some (types !! p) → ∀ x, x ∈ collect_deps types (deps_fuel types) p ∅ ↔ rtc names_type p x.
Proof.
  intros Hp. destruct (collect_deps_spec (deps_fuel types) p ∅) as [_ S N C].
  { unfold left_over, deps_fuel. rewrite difference_empty_L. pose proof (size_dom (D := gset string) types) as E. unfold Types in *. by rewrite E; apply Nat.lt_succ_diag_r. }
  intros x. split; [intros [?|(_ & y & <- & ?)]%N; [set_solver | done]|].
  revert x. apply rtc_ind_r; [by apply S|]. intros y z _ Hyz Hy. apply (C y); [done | set_solver | done].
Qed.
Lemma closure_defined p x : is_Some (types !! p) → rtc names_type p x → is_Some (types !! x).
Proof. intros Hp. revert x. apply rtc_ind_r; [done|]. by intros y z _ (? & ? & _ & _ & _ & ?). Qed.

(** A definition as it is written. *)
Definition definition_text (name : string) : string :=
  name +:+ "(" +:+ String.concat "," (map (λ f : string * string, f.2 +:+ " " +:+ f.1) (default [] (types !! name))) +:+ ")".
Lemma texts_defined l : Forall (λ x, is_Some (types !! x)) l → texts types l = ROk (foldr (λ x t, definition_text x +:+ t) "" l).
Proof.
  induction 1 as [|x l [fields Hx] Hl IH]; [done|]. cbn [texts foldr]. unfold type_text, definition_text. rewrite Hx. cbn. by rewrite IH.
Qed.

#[local] Instance str_le_total : Total str_le.
Proof. intros x y. apply String.leb_total. Qed.
(** The text of a type is its definition and, in order and each once, the definitions of
    the other types it refers to, directly or through others; a type without a definition
    has none. *)
Theorem type_text_is_closure primary :
  match encode_type types primary with
  | ROk text => ∃ others, (∀ x, x ∈ others ↔ x ≠ primary ∧ rtc names_type primary x) ∧ NoDup others ∧ Sorted str_le others ∧
      text = foldr (λ x t, definition_text x +:+ t) "" (primary :: others)
  | RErr e => e = UnknownType primary ∧ types !! primary = None
  end.
Proof.
  unfold encode_type. destruct (types !! primary) as [fields|] eqn:Ep.
  - assert (is_Some (types !! primary)) as Hp by (by rewrite Ep). pose proof (found_closure primary Hp) as Hf.
    rewrite bool_decide_true by (apply Hf, rtc_refl). cbn [negb]. set (others := sorted_names _).
    assert (∀ x, x ∈ others ↔ x ≠ primary ∧ rtc names_type primary x) as Ho.
    { intros x. unfold others, sorted_names. rewrite merge_sort_Permutation, elem_of_elements, elem_of_difference, elem_of_singleton, Hf. tauto. }
    rewrite texts_defined.
    + exists others. split_and!; [done | | |done].
      * unfold others, sorted_names. rewrite merge_sort_Permutation. apply NoDup_elements.
      * apply Sorted_merge_sort, _.
    + constructor; [done|]. apply Forall_forall. intros x [_ Hx]%Ho. by eapply closure_defined.
  - unfold deps_fuel. cbn [collect_deps]. rewrite Ep, bool_decide_false by set_solver. rewrite bool_decide_false by set_solver. done.
Qed.
End closure.

(** * What a digest determines *)

Lemma value_rect (P : Value → Prop) :
  (∀ v, match v with VArray l => Forall P l | VObject m => Forall (λ kx, P kx.2) m | _ => True end → P v) → ∀ v, P v.
Proof.
  intros Hstep. fix go 1. intros v. apply Hstep. destruct v as [| | | |l|m]; try exact I.
  - induction l as [|x l IH]; constructor; [apply go | exact IH].
  - induction m as [|[k x] m IH]; constructor; [apply go | exact IH].
Qed.

Section binding.
Context `{SignCrates} `{KeccakLaws}.

(** Two inputs of Keccak with one image. *)
Definition collision : Prop := ∃ a b, a ≠ b ∧ keccak a = keccak b.
Lemma keccak_same a b : keccak a = keccak b → a = b ∨ collision.
Proof. intros E. destruct (decide (a = b)); [by left | right]. by exists a, b. Qed.

Lemma times_ten_length l c : length (times_ten l c).1 = length l.
Proof. revert c. induction l as [|b l IH]; intros c; [done|]. cbn. specialize (IH (Z.shiftr (b * 10 + c) 8)). destruct (times_ten l _). cbn in *. by rewrite IH. Qed.
Lemma decimal_length s : ∀ acc w, decimal acc s = ROk w → length w = length acc.
Proof.
  induction s as [|c s IH]; intros acc w; cbn [decimal]; [by intros [= <-]|]. case_match; [done|].
  pose proof (times_ten_length (rev acc) (byte_of c - 48)) as Hl. destruct (times_ten _ _) as [r o]. case_match; [|done].
  intros Hw%IH. cbn in Hl. by rewrite Hw, length_rev, Hl, length_rev.
Qed.
Lemma increment_length l c : length (increment l c) = length l.
Proof. revert c. induction l as [|b l IH]; intros c; [done|]. cbn. case_match; [done | by rewrite IH]. Qed.
Lemma uint_length v w : parse_uint256_be v = ROk w → length w = 32%nat.
Proof.
  unfold parse_uint256_be. destruct (integer_text v); cbn [rbind]; [|done]. case_match; [|case_match; [done | apply decimal_length]].
  case_match; [done|]. destruct (hex_word _) as [b|]; cbn [ok_or rbind]; [|done].
  destruct (Z.ltb_spec 32 (Z.of_nat (length b))); [done|]. intros [= <-]. rewrite length_app, length_replicate. lia.
Qed.
Lemma int_length v w : parse_int256_be v = ROk w → length w = 32%nat.
Proof.
  unfold parse_int256_be. destruct (integer_text v); cbn [rbind]; [|done]. case_match; [|apply uint_length].
  destruct (parse_uint256_be _) as [b|] eqn:E; cbn [rbind]; [|done]. intros [= <-].
  rewrite length_rev, increment_length, length_rev, length_map. by eapply uint_length.
Qed.
Lemma atomic_length ftype v w : encode_atomic ftype v = ROk w → length w = 32%nat.
Proof.
  unfold encode_atomic. case_match; [intros (s & _ & E)%rbind_ok; injection E as <-; apply keccak_length|].
  case_match; [intros (s & _ & E)%rbind_ok; injection E as <-; apply keccak_length|].
  case_match; [intros (s & _ & E)%rbind_ok; by injection E as <-|].
  case_match.
  { intros (s & _ & E)%rbind_ok. destruct (Z.eqb_spec (Z.of_nat (length s)) 20); cbn [negb] in E; [|done]. assert (w = replicate 12 0 ++ s) as -> by congruence. rewrite length_app, length_replicate. lia. }
  case_match; [intros (n & _ & (x & Hx%uint_length & (u & _ & E)%rbind_ok)%rbind_ok)%rbind_ok; by injection E as <-|].
  case_match; [intros (n & _ & (x & Hx%int_length & (u & _ & E)%rbind_ok)%rbind_ok)%rbind_ok; by injection E as <-|].
  case_match; [|done]. destruct (_ && _) eqn:E1; [|done]. intros (x & _ & E)%rbind_ok.
  destruct (Z.ltb_spec z (Z.of_nat (length x))); [done|]. assert (w = x ++ replicate (32 - length x) 0) as -> by congruence. rewrite length_app, length_replicate.
  apply andb_true_iff in E1 as [? ?]. lia.
Qed.

Context (types : Types).
(** Two values of a type that read the same: texts and bytes are equal, other atoms have one
    word, arrays and structs agree element by element and field by field. *)
Definition same_atom (ftype : string) (v v' : Value) : Prop :=
  if String.eqb ftype "string" then ∃ s, v = VString s ∧ v' = VString s else
  if String.eqb ftype "bytes" then ∃ b, hex_bytes v = ROk b ∧ hex_bytes v' = ROk b else
  ∃ w, encode_atomic ftype v = ROk w ∧ encode_atomic ftype v' = ROk w.
Inductive same_data : string → Value → Value → Prop :=
| same_array ftype inner l l' : array_inner ftype = Some inner → Forall2 (same_data inner) l l' →
    same_data ftype (VArray l) (VArray l')
| same_object ftype v v' : array_inner ftype = None → same_struct ftype v v' → same_data ftype v v'
| same_value ftype v v' : array_inner ftype = None → types !! ftype = None → same_atom ftype v v' → same_data ftype v v'
with same_struct : string → Value → Value → Prop :=
| same_fields name fields m m' : types !! name = Some fields → 
    (∀ f, f ∈ fields → ∃ x x', value_get f.1 (VObject m) = Some x ∧ value_get f.1 (VObject m') = Some x' ∧ same_data f.2 x x') →
    same_struct name (VObject m) (VObject m').

Lemma type_hash_length name w : type_hash types name = ROk w → length w = 32%nat.
Proof. unfold type_hash. intros (t & _ & E)%rbind_ok. injection E as <-. apply keccak_length. Qed.
Lemma struct_length encode name v w : struct_of types encode name v = ROk w → length w = 32%nat.
Proof.
  unfold struct_of. intros (th & _ & (fs & _ & E)%rbind_ok)%rbind_ok. destruct v; try done.
  apply rbind_ok in E as (e & _ & E). injection E as <-. apply keccak_length.
Qed.
Lemma field_length ftype v w : encode_field types ftype v = ROk w → length w = 32%nat.
Proof.
  destruct v; cbn [encode_field]; destruct (array_inner ftype); try done;
    try (case_bool_decide; [apply struct_length | apply atomic_length]).
  intros (fx & _ & (u & _ & (buf & _ & E)%rbind_ok)%rbind_ok)%rbind_ok. injection E as <-. apply keccak_length.
Qed.

Lemma member_get fname encode none m a : member fname encode none m = ROk a →
  ∃ x, value_get fname (VObject m) = Some x ∧ (fname, x) ∈ m ∧ encode x = ROk a.
Proof.
  induction m as [|[k x] m IH]; cbn [member]; [done|]. unfold value_get. rewrite filter_cons.
  destruct (String.eqb_spec k fname) as [->|Hne].
  - intros E. exists x. rewrite decide_True by done. cbn. split_and!; [done | by left | done].
  - intros (y & Hy & Hin & E)%IH. exists y. rewrite decide_False by done. split_and!; [done | by right | done].
Qed.

(** What one value of [v] determines. *)
Definition determined (v : Value) : Prop := ∀ ftype v' w, encode_field types ftype v = ROk w → encode_field types ftype v' = ROk w →
  same_data ftype v v' ∨ collision.
Lemma elements_bind inner l : Forall determined l → ∀ l' b, encode_elements (encode_field types inner) l = ROk b →
  encode_elements (encode_field types inner) l' = ROk b → Forall2 (same_data inner) l l' ∨ collision.
Proof.
  induction 1 as [|x l Hx Hl IH]; intros [|x' l'] b; cbn [encode_elements].
  - intros _ _. left. constructor.
  - intros [= <-] (a & Ha%field_length & (c & _ & E)%rbind_ok)%rbind_ok. injection E as E%(f_equal length). rewrite length_app, Ha in E. done.
  - intros (a & Ha%field_length & (c & _ & E)%rbind_ok)%rbind_ok E'. injection E' as <-. injection E as E%(f_equal length). rewrite length_app, Ha in E. done.
  - intros (a & Ha & (c & Hc & E)%rbind_ok)%rbind_ok (a' & Ha' & (c' & Hc' & E')%rbind_ok)%rbind_ok.
    assert (a = a' ∧ c = c') as [-> ->].
    { apply app_inj_1; [by rewrite (field_length _ _ _ Ha), (field_length _ _ _ Ha') | congruence]. }
    destruct (Hx _ _ _ Ha Ha') as [Hs|]; [|by right]. destruct (IH _ _ Hc Hc') as [|]; [left; by constructor | by right].
Qed.
Lemma members_bind name m m' fields : Forall (λ kx, determined kx.2) m → ∀ e,
  encode_members (encode_field types) name m fields = ROk e → encode_members (encode_field types) name m' fields = ROk e →
  (∀ f, f ∈ fields → ∃ x x', value_get f.1 (VObject m) = Some x ∧ value_get f.1 (VObject m') = Some x' ∧ same_data f.2 x x') ∨ collision.
Proof.
  intros Hm. induction fields as [|[fname ftype] fields IH]; intros e; cbn [encode_members]; [left; by intros f Hf%elem_of_nil|].
  intros (a & (x & Hx & Hin & Ha)%member_get & (c & Hc & E)%rbind_ok)%rbind_ok (a' & (x' & Hx' & _ & Ha')%member_get & (c' & Hc' & E')%rbind_ok)%rbind_ok.
  assert (a = a' ∧ c = c') as [-> ->].
    { apply app_inj_1; [by rewrite (field_length _ _ _ Ha), (field_length _ _ _ Ha') | congruence]. }
  rewrite Forall_forall in Hm. destruct (Hm _ Hin _ _ _ Ha Ha') as [Hs|]; [|by right]. destruct (IH _ Hc Hc') as [Hf|]; [left | by right].
  intros f [->|?]%elem_of_cons; [by exists x, x' | by apply Hf].
Qed.
Lemma struct_binds name v v' w :
  match v with VArray l => Forall determined l | VObject m => Forall (λ kx, determined kx.2) m | _ => True end →
  struct_of types (encode_field types) name v = ROk w → struct_of types (encode_field types) name v' = ROk w →
  same_struct name v v' ∨ collision.
Proof.
  intros Hv. unfold struct_of. intros (th & Ht & (fs & Hf & E)%rbind_ok)%rbind_ok. rewrite Ht, Hf. cbn [rbind].
  destruct v as [| | | | |m]; try done. destruct v' as [| | | | |m']; try done.
  apply rbind_ok in E as (e & He & E). intros (e' & He' & E')%rbind_ok.
  assert (keccak (th ++ e) = keccak (th ++ e')) as [<-%app_inv_head|]%keccak_same by congruence; [|by right].
  apply ok_or_ok in Hf. destruct (members_bind _ _ _ _ Hv _ He He') as [|]; [left | by right]. by econstructor.
Qed.
Lemma atom_binds ftype v v' w : encode_atomic ftype v = ROk w → encode_atomic ftype v' = ROk w → same_atom ftype v v' ∨ collision.
Proof.
  intros E E'. unfold same_atom. destruct (String.eqb_spec ftype "string") as [->|].
  { cbn in E, E'. destruct v; try done. destruct v'; try done. cbn in E, E'.
    assert (keccak (str_bytes s) = keccak (str_bytes s0)) as [Hb|]%keccak_same by congruence; [left | by right].
    exists s. split; [done|]. f_equal. by apply (inj str_bytes). }
  destruct (String.eqb_spec ftype "bytes") as [->|]; [|left; by exists w].
  change ((let? b := hex_bytes v in ROk (keccak b)) = ROk w) in E. change ((let? b := hex_bytes v' in ROk (keccak b)) = ROk w) in E'.
  apply rbind_ok in E as (b & Hb & E). apply rbind_ok in E' as (b' & Hb' & E').
  assert (keccak b = keccak b') as [<-|]%keccak_same by congruence; [left; by exists b | by right].
Qed.
Lemma field_binds v : determined v.
Proof.
  induction v as [v Hv] using value_rect. intros ftype v' w E E'.
  destruct (array_inner ftype) as [inner|] eqn:Ea.
  - destruct v as [| | | |l|]; cbn [encode_field] in E; rewrite Ea in E; try done.
    destruct v' as [| | | |l'|]; cbn [encode_field] in E'; rewrite Ea in E'; try done.
    apply rbind_ok in E as (fx & _ & (u & _ & (b & Hb & E)%rbind_ok)%rbind_ok). apply rbind_ok in E' as (fx' & _ & (u' & _ & (b' & Hb' & E')%rbind_ok)%rbind_ok).
    assert (keccak b = keccak b') as [<-|]%keccak_same by congruence; [|by right].
    destruct (elements_bind _ _ Hv _ _ Hb Hb') as [|]; [left | by right]. by econstructor.
  - assert (∀ x, encode_field types ftype x = if bool_decide (is_Some (types !! ftype)) then struct_of types (encode_field types) ftype x
      else encode_atomic ftype x) as Hx by (intros x; destruct x; cbn [encode_field]; by rewrite Ea).
    rewrite Hx in E, E'. case_bool_decide as Ht.
    + destruct (struct_binds _ _ _ _ Hv E E') as [|]; [left | by right]. by apply same_object.
    + destruct (atom_binds _ _ _ _ E E') as [|]; [left | by right]. apply same_value; [done | | done]. by destruct (types !! ftype) eqn:Et; [destruct Ht; eauto|].
Qed.
Lemma hash_struct_binds name v v' w : hash_struct types name v = ROk w → hash_struct types name v' = ROk w →
  same_struct name v v' ∨ collision.
Proof.
  apply struct_binds. destruct v as [| | | |l|m]; try done; apply Forall_forall; intros x _; apply field_binds.
Qed.
End binding.

Section digest.
Context `{SignCrates} `{KeccakLaws}.

(** The parts of an [eth_signTypedData_v4] object. *)
Definition typed_parts (td : Value) (types : Types) (primary : string) (domain message : Value) : Prop :=
  value_get "domain" td = Some domain ∧ (value_get "primaryType" td ≫= value_str) = Some primary ∧
  value_get "message" td = Some message ∧ ∃ ts, value_get "types" td = Some ts ∧ parse_types ts = ROk types.
Lemma digest_parts td d : eip712_digest td = ROk d ↔ ∃ types primary domain message ds mh,
  typed_parts td types primary domain message ∧ hash_struct types "EIP712Domain" domain = ROk ds ∧
  hash_struct types primary message = ROk mh ∧ d = keccak ([25; 1] ++ ds ++ mh).
Proof.
  unfold eip712_digest. split.
  - intros (domain & Hd%ok_or_ok & (primary & Hp%ok_or_ok & (message & Hm%ok_or_ok & (ts & Hts%ok_or_ok &
      (types & Ht & (ds & Hds & (mh & Hmh & E)%rbind_ok)%rbind_ok)%rbind_ok)%rbind_ok)%rbind_ok)%rbind_ok)%rbind_ok.
    exists types, primary, domain, message, ds, mh. split_and!; [split_and!; try done; by exists ts | done | done | congruence].
  - intros (types & primary & domain & message & ds & mh & (Hd & Hp & Hm & ts & Hts & Ht) & Hds & Hmh & ->).
    rewrite Hd, Hp, Hm, Hts. cbn [ok_or rbind]. rewrite Ht. cbn [rbind]. rewrite Hds. cbn [rbind]. by rewrite Hmh.
Qed.

(** C24: A signature over typed data covers one message.  If two requests with the same types and
    primary type have one digest, their domains and their messages agree field by field, or
    two inputs of Keccak with one image are at hand.  And no message signed as EIP-191 has
    the digest of typed data, with the same exception. *)
Theorem digest_binds_data td td' types primary domain domain' message message' d :
  typed_parts td types primary domain message → typed_parts td' types primary domain' message' →
  eip712_digest td = ROk d →
  (eip712_digest td' = ROk d →
     (same_struct types "EIP712Domain" domain domain' ∧ same_struct types primary message message') ∨ collision) ∧
  (∀ text hex, eip191_digest_for text hex = ROk d → collision).
Proof.
  intros Hp Hp' (ts & pr & dm & ms & ds & mh & (Hd & Hpr & Hm & t1 & Ht1 & Ht) & Hds & Hmh & ->)%digest_parts.
  destruct Hp as (Hd0 & Hpr0 & Hm0 & t0 & Ht0 & Htt). assert (dm = domain ∧ pr = primary ∧ ms = message ∧ t1 = t0) as (-> & -> & -> & ->) by (split_and!; congruence).
  assert (ts = types) as -> by congruence. split.
  - intros (ts' & pr' & dm' & ms' & ds' & mh' & (Hd1 & Hpr1 & Hm1 & t2 & Ht2 & Ht') & Hds' & Hmh' & E)%digest_parts.
    destruct Hp' as (Hd2 & Hpr2 & Hm2 & t3 & Ht3 & Htt').
    assert (dm' = domain' ∧ pr' = primary ∧ ms' = message' ∧ t2 = t3) as (-> & -> & -> & ->) by (split_and!; congruence).
    assert (ts' = types) as -> by congruence. apply keccak_same in E as [E|]; [|by right]. apply app_inv_head in E.
    apply app_inj_1 in E as [-> ->]; [|by rewrite (struct_length _ _ _ _ _ Hds), (struct_length _ _ _ _ _ Hds')].
    destruct (hash_struct_binds _ _ _ _ _ Hds Hds') as [|]; [|by right]. destruct (hash_struct_binds _ _ _ _ _ Hmh Hmh') as [|]; [by left | by right].
  - intros text hex (bytes & _ & E)%rbind_ok. assert (eip191_digest bytes = keccak ([25; 1] ++ ds ++ mh)) as E' by congruence. clear E.
    unfold eip191_digest in E'. apply keccak_same in E' as [E'|]; [|done]. exfalso. apply (f_equal (λ l, nth 1 l 0)) in E'. revert E'.
    vm_compute. discriminate.
Qed.
End digest.
