(* ===== verification/WalletSafety.v ===== *)
(** What the keystore's signatures for a wallet guarantee: the policy on chain allowed the
    request, or its approvers did, whose votes were read in the course of it; the check
    before signing answers as signing does; a locked policy is replaced by its approvers. *)

From S2P Require Export WalletSign.

(** * The course of a request *)

Section course.
Context `{Unicode} `{AccountIds} `{KeyCrates} `{Crates} `{PolicyCrate} `{SignCrates} {W : Type} `{SignHost W}.
Context (c : SignClient W).

(** One question to the chain, or one draw. *)
Inductive asked : W → W → Prop :=
| asked_policy key w r w' : sc_wallet_policy c key w = (r, w') → asked w w'
| asked_signer account key w r w' : sc_signer_key c account key w = (r, w') → asked w w'
| asked_vote a sh rc auth x w r w' : sc_resolve_vote c a sh rc auth x w = (r, w') → asked w w'
| asked_access account key w r w' : sc_query_access_key c account key w = (r, w') → asked w w'
| asked_view account method args w r w' : sc_view c account method args w = (r, w') → asked w w'
| drawn n w b w' : draw n w = (b, w') → asked w w'.
Definition later : relation W := rtc asked.

(** Every pair of the cache is a pair of the crate's. *)
Definition pairs_derived (ks : Keystore) : Prop := ∀ k kp, keypair_cache ks !! k = Some kp → ∃ secret, kp = ed25519_pair secret.
Definition cached (s : SignState W) (k : option string * string) (kp : string * string) : Prop :=
  keypair_cache (ss_keystore s) !! k = Some kp.

(** What the steps of a request after its customer is loaded keep. *)
Record onward (s s' : SignState W) : Prop := {
  ow_client : ss_client s' = ss_client s;
  ow_later : later (ss_world s) (ss_world s');
  ow_cached : ∀ k kp, cached s k kp → cached s' k kp;
  ow_masters : ∀ customer, master_for (ss_keystore s') customer = master_for (ss_keystore s) customer;
  ow_derived : pairs_derived (ss_keystore s) → pairs_derived (ss_keystore s');
}.
(** Of a keystore: no pair of the cache and no master changes, and what is added is derived. *)
Definition adds_only (ks ks' : Keystore) : Prop :=
  (∀ k kp, keypair_cache ks !! k = Some kp → keypair_cache ks' !! k = Some kp) ∧
  (∀ customer, master_for ks' customer = master_for ks customer) ∧ (pairs_derived ks → pairs_derived ks').
#[export] Instance onward_preorder : PreOrder onward.
Proof.
  split.
  - intros s. split; [done | apply rtc_refl | done..].
  - intros s1 s2 s3 [? ? ? Hm ?] [? ? ? Hm' ?]. split; [congruence | by etrans | auto| |auto]. intros cu. by rewrite Hm', Hm.
Qed.

Definition goes_on {A E} (m : act (SignState W) A E) : Prop := ∀ s, ss_client s = Some c → onward s (m s).2.

Lemma goes_run {A E} (m : act (SignState W) A E) s r s' : goes_on m → ss_client s = Some c → m s = (r, s') →
  onward s s' ∧ ss_client s' = Some c.
Proof. intros Hm Hs E'. specialize (Hm s Hs). rewrite E' in Hm. cbn in Hm. split; [done|]. by rewrite (ow_client _ _ Hm). Qed.
Lemma goes_give {A E} (a : A) : goes_on (give (E := E) a).
Proof. intros s _. reflexivity. Qed.
Lemma goes_stop {A E} (e : E) : goes_on (stop (A := A) e).
Proof. intros s _. reflexivity. Qed.
Lemma goes_lift {A E} (r : result A E) : goes_on (lift r).
Proof. intros s _. reflexivity. Qed.
Lemma goes_now : goes_on now_secs.
Proof. intros s _. reflexivity. Qed.
Lemma goes_now_ms : goes_on now_ms.
Proof. intros s _. reflexivity. Qed.
Lemma goes_after {A B E} (m : act (SignState W) A E) (k : A → act (SignState W) B E) :
  goes_on m → (∀ a, goes_on (k a)) → goes_on (after m k).
Proof.
  intros Hm Hk s Hs. specialize (Hm s Hs). unfold after. destruct (m s) as [[a|e] s1]; cbn in *; [|done].
  etrans; [exact Hm|]. apply Hk. by rewrite (ow_client _ _ Hm).
Qed.
Lemma goes_client {A} (k : SignClient W → act (SignState W) A SignError) : goes_on (k c) → goes_on (after the_client k).
Proof. intros Hk s Hs. unfold after, the_client. rewrite Hs. cbn. by apply Hk. Qed.
Lemma goes_random n : goes_on (random n).
Proof.
  intros s _. unfold random. destruct (draw n (ss_world s)) as [b w] eqn:E. split; [done | | done..].
  apply rtc_once. by eapply drawn.
Qed.
Lemma goes_world {A E} (f : E → SignError) (m : act W A E) : (∀ w, later w (m w).2) → goes_on (on_world f m).
Proof. intros Hm s _. specialize (Hm (ss_world s)). unfold on_world. destruct (m (ss_world s)). by split. Qed.
Lemma goes_keystore {A E} (f : E → SignError) (m : act Keystore A E) :
  (∀ ks, adds_only ks (m ks).2) → goes_on (on_keystore f m).
Proof.
  intros Hm s _. destruct (Hm (ss_keystore s)) as (Hc & Hk & Hd). unfold on_keystore.
  destruct (m (ss_keystore s)) as [r ks]. by split; [|apply rtc_refl|..].
Qed.

Lemma derive_adds customer seed ks : adds_only ks (derive_keypair customer seed ks).2.
Proof.
  unfold derive_keypair. destruct (keypair_cache ks !! (customer, seed)) eqn:E; [done|].
  destruct (master_for ks customer); [|done]. split_and!; [|done|].
  - intros k kp Hk. cbn. rewrite lookup_insert_ne; [done | congruence].
  - intros Hd k kp. cbn. rewrite lookup_insert_Some. intros [[_ <-]|[_ Hk]]; [eauto | by eapply Hd].
Qed.
Lemma public_adds customer seed ks : adds_only ks (get_public_key_for_seed customer seed ks).2.
Proof.
  pose proof (derive_adds customer seed ks) as Ha. unfold get_public_key_for_seed, after.
  destruct (derive_keypair customer seed ks) as [[[]|] ks']; exact Ha.
Qed.
Lemma sign_adds customer seed message ks : adds_only ks (sign customer seed message ks).2.
Proof.
  pose proof (derive_adds customer seed ks) as Ha. unfold sign, after.
  destruct (derive_keypair customer seed ks) as [[[]|] ks']; exact Ha.
Qed.
Lemma decrypt_adds customer seed data ks : adds_only ks (decrypt customer seed data ks).2.
Proof.
  unfold decrypt. destruct (MAX_ENCRYPTED_SIZE <? str_len data); [done|].
  destruct (str_len data <? 28); [done|]. cbv zeta. case_match; [done|].
  pose proof (derive_adds customer seed ks) as Ha. unfold decrypt_legacy, after.
  destruct (derive_keypair customer seed ks) as [[[]|] ks']; exact Ha.
Qed.

Lemma owner_asked account key w : later w (verify_access_key_owner c account key w).2.
Proof.
  unfold verify_access_key_owner. destruct (account_ok account); [|apply rtc_refl]. cbn.
  destruct (near_key key); [|apply rtc_refl]. unfold after.
  destruct (sc_signer_key c account key w) as [[[]|] w'] eqn:E; cbn; apply rtc_once; by eapply asked_signer.
Qed.
Lemma policy_asked key w : later w (sc_wallet_policy c key w).2.
Proof. destruct (sc_wallet_policy c key w) eqn:E. apply rtc_once. by eapply asked_policy. Qed.
Lemma vote_asked a sh rc auth x w : later w (sc_resolve_vote c a sh rc auth x w).2.
Proof. destruct (sc_resolve_vote c a sh rc auth x w) eqn:E. apply rtc_once. by eapply asked_vote. Qed.
Lemma access_asked a k w : later w (sc_query_access_key c a k w).2.
Proof. destruct (sc_query_access_key c a k w) eqn:E. apply rtc_once. by eapply asked_access. Qed.
Lemma view_asked a m args w : later w (sc_view c a m args w).2.
Proof. destruct (sc_view c a m args w) eqn:E. apply rtc_once. by eapply asked_view. Qed.
End course.

Create HintDb course.
#[export] Hint Resolve goes_give goes_stop goes_lift goes_now goes_now_ms goes_random derive_adds public_adds sign_adds
  decrypt_adds owner_asked policy_asked vote_asked access_asked view_asked : course.
Ltac goes_step :=
  lazymatch goal with
  | |- goes_on _ (after the_client _) => apply goes_client
  | |- goes_on _ (after _ _) => apply goes_after; [|intros ?]
  | |- goes_on _ (on_world _ _) => apply goes_world; intros ?; solve [auto with course]
  | |- goes_on _ (on_keystore _ _) => apply goes_keystore; intros ?; solve [auto with course]
  | |- goes_on _ (match ?x with _ => _ end) => destruct x
  | |- goes_on _ _ => solve [auto with course]
  end.
Ltac solve_goes := cbv zeta; repeat (goes_step; cbv zeta beta).

(** * Votes *)

Section votes.
Context `{Unicode} `{AccountIds} `{KeyCrates} `{Crates} `{PolicyCrate} `{SignCrates} {W : Type} `{SignHost W}.
Context (c : SignClient W) (policy : Policy) (recipient : string).
Implicit Types s : SignState W.

(** A vote by signature: the policy admits the key, the key signed the message for this
    keystore's contract, and the chain, asked between [w0] and [w1], gave it full access. *)
Record key_vote (message : string) (w0 w1 : W) (v : ApproverSig) : Prop := {
  kv_admitted : admits_key policy (as_approver_id v) (as_public_key v) = true;
  kv_signed : verify_near_signature message (as_signature v) (as_public_key v) (as_nonce v) recipient = true;
  kv_owned : ∃ w w', later c w0 w ∧ later c w' w1 ∧
    sc_signer_key c (as_approver_id v) (as_public_key v) w = (ROk FullAccess, w');
}.
(** A vote of a contract wallet: its own contract, asked between [w0] and [w1], resolved it
    to the message. *)
Record contract_vote (message : string) (w0 w1 : W) (v : ContractVote) : Prop := {
  cvt_admitted : admits_contract_vote policy (cv_approver_id v) = true;
  cvt_length : str_len (cv_authorization v) ≤ AUTHORIZATION_MAX_BYTES;
  cvt_resolved : ∃ w w', later c w0 w ∧ later c w' w1 ∧
    sc_resolve_vote c (cv_approver_id v) (cv_shape v) recipient (cv_authorization v) message w = (ROk (ROk tt), w');
}.
(** A refusal that does not count: not admitted, not signed; or not resolved when asked. *)
Definition idle_rejection (message : string) (v : ApproverSig) : Prop :=
  admits_key policy (as_approver_id v) (as_public_key v) = false ∨
  verify_near_signature message (as_signature v) (as_public_key v) (as_nonce v) recipient = false.
Definition idle_contract_rejection (message : string) (w0 w1 : W) (v : ContractVote) : Prop :=
  admits_contract_vote policy (cv_approver_id v) = false ∨ AUTHORIZATION_MAX_BYTES < str_len (cv_authorization v) ∨
  ∃ w w' why, later c w0 w ∧ later c w' w1 ∧
    sc_resolve_vote c (cv_approver_id v) (cv_shape v) recipient (cv_authorization v) message w = (ROk (RErr why), w').

Lemma key_vote_widen message w0 w0' w1 w1' v :
  later c w0' w0 → later c w1 w1' → key_vote message w0 w1 v → key_vote message w0' w1' v.
Proof. intros ?? [? ? (w & w' & ? & ? & ?)]. split; [done..|]. exists w, w'. split_and!; [by etrans..|done]. Qed.
Lemma contract_vote_widen message w0 w0' w1 w1' v :
  later c w0' w0 → later c w1 w1' → contract_vote message w0 w1 v → contract_vote message w0' w1' v.
Proof. intros ?? [? ? (w & w' & ? & ? & ?)]. split; [done..|]. exists w, w'. split_and!; [by etrans..|done]. Qed.
Lemma idle_widen message w0 w0' w1 w1' v :
  later c w0' w0 → later c w1 w1' → idle_contract_rejection message w0 w1 v → idle_contract_rejection message w0' w1' v.
Proof.
  intros ?? [?|[?|(w & w' & why & ? & ? & ?)]]; [by left | by right; left | right; right].
  exists w, w', why. split_and!; [by etrans..|done].
Qed.

Lemma goes_key_owned v : goes_on c (key_owned c v).
Proof. unfold key_owned. solve_goes. Qed.
Lemma goes_contract_vote v rc x : goes_on c (contract_vote_counts c v rc x).
Proof. unfold contract_vote_counts. solve_goes. Qed.
Hint Resolve goes_key_owned goes_contract_vote : course.
Lemma goes_approvals message l seen : goes_on c (count_approvals c policy recipient message seen l).
Proof. revert seen. induction l as [|v l IH]; intros seen; cbn; solve_goes; apply IH. Qed.
Lemma goes_contract_approvals message l seen : goes_on c (count_contract_approvals c policy recipient message seen l).
Proof. revert seen. induction l as [|v l IH]; intros seen; cbn; solve_goes; apply IH. Qed.
Lemma goes_rejections message l : goes_on c (check_rejections c policy recipient message l).
Proof. induction l as [|v l IH]; cbn; solve_goes; apply IH. Qed.
Lemma goes_contract_rejections message l : goes_on c (check_contract_rejections c policy recipient message l).
Proof. induction l as [|v l IH]; cbn; solve_goes; apply IH. Qed.

Lemma key_owned_ok v s u s' : key_owned c v s = (ROk u, s') →
  sc_signer_key c (as_approver_id v) (as_public_key v) (ss_world s) = (ROk FullAccess, ss_world s').
Proof.
  unfold key_owned, on_world, verify_access_key_owner. destruct (account_ok _); cbn; [|done].
  destruct (near_key _); cbn; [|done]. unfold after.
  by destruct (sc_signer_key c _ _ (ss_world s)) as [[[]|] w']; cbn; try done; intros [= <- <-].
Qed.
Lemma contract_vote_ok v rc x s b s' : contract_vote_counts c v rc x s = (ROk b, s') →
  (AUTHORIZATION_MAX_BYTES < str_len (cv_authorization v) ∧ b = false ∧ s' = s) ∨
  (str_len (cv_authorization v) ≤ AUTHORIZATION_MAX_BYTES ∧ ∃ verdict,
    sc_resolve_vote c (cv_approver_id v) (cv_shape v) rc (cv_authorization v) x (ss_world s) = (ROk verdict, ss_world s') ∧
    b = match verdict with ROk _ => true | RErr _ => false end).
Proof.
  unfold contract_vote_counts. destruct (Z.ltb_spec AUTHORIZATION_MAX_BYTES (str_len (cv_authorization v))).
  - intros [= <- <-]. by left.
  - intros (verdict & s1 & Hm & Hn)%after_ok. right. split; [done|]. exists verdict. unfold on_world in Hm.
    destruct (sc_resolve_vote _ _ _ _ _ _ _) as [[r|] w'] eqn:E; cbn in Hm; [|done]. injection Hm as <- <-.
    by destruct r; injection Hn as <- <-.
Qed.

(** Everyone counted had voted, or was counted before. *)
Lemma count_approvals_ok message l seen s voters s' : ss_client s = Some c →
  count_approvals c policy recipient message seen l s = (ROk voters, s') →
  ∀ id, id ∈ voters → id ∈ seen ∨ ∃ v, v ∈ l ∧ as_approver_id v = id ∧ key_vote message (ss_world s) (ss_world s') v.
Proof.
  revert seen s. induction l as [|v l IH]; intros seen s Hs; cbn; [by intros [= <- <-]; auto|].
  assert (∀ seen', count_approvals c policy recipient message seen' l s = (ROk voters, s') → ∀ id, id ∈ voters →
    id ∈ seen' ∨ ∃ v', v' ∈ v :: l ∧ as_approver_id v' = id ∧ key_vote message (ss_world s) (ss_world s') v') as Hskip.
  { intros seen' Hr id Hid. destruct (IH _ _ Hs Hr id Hid) as [?|(v' & ? & ? & ?)]; [by left | right].
    exists v'. split_and!; [by right | done..]. }
  case_bool_decide; [apply Hskip|].
  destruct (admits_key policy _ _) eqn:Ha; cbn; [|apply Hskip].
  destruct (verify_near_signature _ _ _ _ _) eqn:Hv; cbn; [|apply Hskip]. clear Hskip.
  intros (u & s1 & Hm & Hr)%after_ok id Hid.
  destruct (goes_run _ _ _ _ _ (goes_key_owned v) Hs Hm) as [G Hs1]. pose proof (key_owned_ok _ _ _ _ Hm) as Hk.
  destruct (goes_run _ _ _ _ _ (goes_approvals _ _ _) Hs1 Hr) as [G1 _].
  destruct (IH _ _ Hs1 Hr id Hid) as [Hin|(v' & ? & ? & ?)].
  - apply elem_of_union in Hin as [->%elem_of_singleton|?]; [|by left]. right. exists v. split_and!; [by left | done|].
    split; [done..|]. exists (ss_world s), (ss_world s1). split_and!; [apply rtc_refl | apply G1 | done].
  - right. exists v'. split_and!; [by right | done|]. eapply key_vote_widen; [apply G | apply rtc_refl | done].
Qed.
Lemma count_contract_approvals_ok message l seen s voters s' : ss_client s = Some c →
  count_contract_approvals c policy recipient message seen l s = (ROk voters, s') →
  ∀ id, id ∈ voters → id ∈ seen ∨ ∃ v, v ∈ l ∧ cv_approver_id v = id ∧ contract_vote message (ss_world s) (ss_world s') v.
Proof.
  revert seen s. induction l as [|v l IH]; intros seen s Hs; cbn; [by intros [= <- <-]; auto|].
  assert (∀ seen', count_contract_approvals c policy recipient message seen' l s = (ROk voters, s') → ∀ id, id ∈ voters →
    id ∈ seen' ∨ ∃ v', v' ∈ v :: l ∧ cv_approver_id v' = id ∧ contract_vote message (ss_world s) (ss_world s') v') as Hskip.
  { intros seen' Hr id Hid. destruct (IH _ _ Hs Hr id Hid) as [?|(v' & ? & ? & ?)]; [by left | right].
    exists v'. split_and!; [by right | done..]. }
  case_bool_decide; [apply Hskip|].
  destruct (admits_contract_vote policy _) eqn:Ha; cbn; [|apply Hskip]. clear Hskip.
  intros (b & s1 & Hm & Hr)%after_ok id Hid.
  destruct (goes_run _ _ _ _ _ (goes_contract_vote _ _ _) Hs Hm) as [G Hs1].
  destruct (goes_run _ _ _ _ _ (goes_contract_approvals _ _ _) Hs1 Hr) as [G1 _].
  destruct (IH _ _ Hs1 Hr id Hid) as [Hin|(v' & ? & ? & ?)].
  - destruct b; [|by left]. apply elem_of_union in Hin as [->%elem_of_singleton|?]; [|by left]. right.
    exists v. split_and!; [by left | done|].
    apply contract_vote_ok in Hm as [(_ & [=] & _)|(Hl & [[]|] & Hk & [=])].
    split; [done..|]. exists (ss_world s), (ss_world s1). split_and!; [apply rtc_refl | apply G1 | done].
  - right. exists v'. split_and!; [by right | done|]. eapply contract_vote_widen; [apply G | apply rtc_refl | done].
Qed.
Lemma check_rejections_ok message l s u s' : check_rejections c policy recipient message l s = (ROk u, s') →
  s' = s ∧ Forall (idle_rejection message) l.
Proof.
  revert s. induction l as [|v l IH]; intros s; cbn; [by intros [= <- <-]|].
  destruct (admits_key policy _ _) eqn:Ha; cbn; [|intros [-> ?]%IH; by split; [|constructor; [left|]]].
  destruct (verify_near_signature _ _ _ _ _) eqn:Hv; cbn; [|intros [-> ?]%IH; by split; [|constructor; [right|]]].
  by intros (? & s1 & _ & Hn)%after_ok.
Qed.
Lemma check_contract_rejections_ok message l s u s' : ss_client s = Some c →
  check_contract_rejections c policy recipient message l s = (ROk u, s') →
  Forall (idle_contract_rejection message (ss_world s) (ss_world s')) l.
Proof.
  revert s. induction l as [|v l IH]; intros s Hs; cbn; [done|].
  destruct (admits_contract_vote policy _) eqn:Ha; cbn; [|intros Hr; constructor; [by left | by apply IH]].
  intros (b & s1 & Hm & Hr)%after_ok.
  destruct (goes_run _ _ _ _ _ (goes_contract_vote _ _ _) Hs Hm) as [G Hs1]. destruct b; [done|].
  destruct (goes_run _ _ _ _ _ (goes_contract_rejections _ _) Hs1 Hr) as [G1 _]. constructor.
  - apply contract_vote_ok in Hm as [(? & _)|(Hl & [|why] & Hk & [=])]; right; [by left | right].
    exists (ss_world s), (ss_world s1), why. split_and!; [apply rtc_refl | apply G1 | done].
  - eapply Forall_impl; [by apply IH|]. intros v' Hv'. eapply idle_widen; [apply G | apply rtc_refl | done].
Qed.
End votes.

(** * A quorum *)

Section quorum.
Context `{Unicode} `{AccountIds} `{KeyCrates} `{Crates} `{PolicyCrate} `{SignCrates} {W : Type} `{SignHost W}.
Context (c : SignClient W).
Implicit Types s : SignState W.

Definition yes_message (info : ApprovalInfo) (wallet_pubkey hash : string) : string :=
  vote_message Approve (ai_approval_id info) wallet_pubkey hash.
Definition no_message (info : ApprovalInfo) (wallet_pubkey hash : string) : string :=
  vote_message Reject (ai_approval_id info) wallet_pubkey hash.
(** [n] approvers of the policy voted for this request of this wallet, and none against it. *)
Record quorum (policy : Policy) (wallet_pubkey hash : string) (info : ApprovalInfo) (n : Z) (w0 w1 : W) : Prop := {
  q_recipient : ai_recipient info = sc_contract_id c;
  q_voters : ∃ voters : gset string, n ≤ Z.of_nat (size voters) ∧
    ∀ id, id ∈ voters →
      (∃ v, v ∈ ai_approvals info ∧ as_approver_id v = id ∧
         key_vote c policy (sc_contract_id c) (yes_message info wallet_pubkey hash) w0 w1 v) ∨
      (∃ v, v ∈ ai_contract_approvals info ∧ cv_approver_id v = id ∧
         contract_vote c policy (sc_contract_id c) (yes_message info wallet_pubkey hash) w0 w1 v);
  q_no_veto : Forall (idle_rejection policy (sc_contract_id c) (no_message info wallet_pubkey hash)) (ai_rejections info) ∧
    Forall (idle_contract_rejection c policy (sc_contract_id c) (no_message info wallet_pubkey hash) w0 w1)
      (ai_contract_rejections info);
}.
Lemma quorum_widen policy pk hash info n w0 w0' w1 w1' : later c w0' w0 → later c w1 w1' →
  quorum policy pk hash info n w0 w1 → quorum policy pk hash info n w0' w1'.
Proof.
  intros Hw0 Hw1 [Hr (voters & Hn & Hv) [Hj Hcj]]. split; [done| |split; [done|]].
  - exists voters. split; [done|]. intros id Hid. destruct (Hv id Hid) as [(v & ? & ? & ?)|(v & ? & ? & ?)]; [left|right];
      exists v; (split_and!; [done..|]); [by eapply key_vote_widen | by eapply contract_vote_widen].
  - eapply Forall_impl; [exact Hcj|]. intros v. by apply idle_widen.
Qed.

Lemma goes_verify_approvals policy pk hash info n : goes_on c (verify_approvals policy pk hash info n).
Proof.
  unfold verify_approvals. solve_goes; [apply goes_approvals | apply goes_contract_approvals | apply goes_rejections |
    apply goes_contract_rejections].
Qed.
Lemma the_client_ok s c' s' : the_client s = (ROk c', s') → ss_client s = Some c' ∧ s' = s.
Proof. unfold the_client. destruct (ss_client s); cbn; [by intros [= -> ->] | done]. Qed.
Lemma lift_result {A} (r : result A SignError) s a s' : (lift r : act (SignState W) A SignError) s = (ROk a, s') → r = ROk a ∧ s' = s.
Proof. unfold lift. by intros [= -> ->]. Qed.
Lemma is_ready_ok s u s' : is_ready s = (ROk u, s') → ss_ready s = true ∧ s' = s.
Proof. unfold is_ready. destruct (ss_ready s); [by intros [= _ ->] | done]. Qed.
Lemma lift_some {A} (o : option A) e s a s' : (lift (ok_or o e) : act (SignState W) A SignError) s = (ROk a, s') → o = Some a ∧ s' = s.
Proof. unfold lift. destruct o; cbn; [by intros [= -> ->] | done]. Qed.

Lemma verify_approvals_ok policy pk hash info n s u s' : ss_client s = Some c →
  verify_approvals policy pk hash info n s = (ROk u, s') →
  named_approvers policy ≠ [] ∧ ∃ i, info = Some i ∧ quorum policy pk hash i n (ss_world s) (ss_world s').
Proof.
  intros Hs. unfold verify_approvals. intros (c' & s0 & [Hc ->]%the_client_ok & Hr)%after_ok.
  assert (c' = c) as -> by congruence. case_bool_decide; [done|]. split; [done|].
  apply after_ok in Hr as (i & s0 & [-> ->]%lift_some & Hr). exists i. split; [done|].
  destruct (many _ || many _); [done|]. destruct (many _ || many _); [done|]. case_bool_decide as Hrc; cbn in Hr; [|done].
  apply after_ok in Hr as (seen & s1 & Ha & Hr).
  destruct (goes_run _ _ _ _ _ (goes_approvals _ _ _ _ _ _) Hs Ha) as [G1 Hs1].
  apply after_ok in Hr as (voters & s2 & Hb & Hr).
  destruct (goes_run _ _ _ _ _ (goes_contract_approvals _ _ _ _ _ _) Hs1 Hb) as [G2 Hs2].
  apply after_ok in Hr as (? & s3 & [-> Hj]%check_rejections_ok & Hr).
  apply after_ok in Hr as (? & s4 & Hd & Hr).
  destruct (goes_run _ _ _ _ _ (goes_contract_rejections _ _ _ _ _) Hs2 Hd) as [G3 _]. destruct (Z.ltb_spec (Z.of_nat (size voters)) n); [done|]. injection Hr as <- <-.
  assert (later c (ss_world s) (ss_world s1) ∧ later c (ss_world s1) (ss_world s2) ∧ later c (ss_world s2) (ss_world s4)) as (L1 & L2 & L3)
    by (split_and!; [apply G1 | apply G2 | apply G3]).
  split; [done| |split; [done|]].
  - exists voters. split; [done|]. intros id Hid.
    destruct (count_contract_approvals_ok _ _ _ _ _ _ _ _ _ Hs1 Hb id Hid) as [Hin|(v & ? & ? & Hv)].
    + destruct (count_approvals_ok _ _ _ _ _ _ _ _ _ Hs Ha id Hin) as [?|(v & ? & ? & Hv)]; [set_solver|].
      left. exists v. split_and!; [done..|]. eapply key_vote_widen; [| |exact Hv]; [apply rtc_refl | by etrans].
    + right. exists v. split_and!; [done..|]. by eapply contract_vote_widen; [| |exact Hv].
  - eapply Forall_impl; [by eapply check_contract_rejections_ok|]. intros v. apply idle_widen; [by etrans | apply rtc_refl].
Qed.
End quorum.

(** * The policy a request is judged by *)

Section policies.
Context `{Unicode} `{AccountIds} `{KeyCrates} `{Crates} `{PolicyCrate} `{SignCrates} {W : Type} `{SignHost W}.
Context (c : SignClient W).
Implicit Types s : SignState W.

(** [key] is the key of the wallet's NEAR account under the customer's master. *)
Definition wallet_key (s : SignState W) (customer : option string) (wallet_id key : string) : Prop :=
  ∃ signing verifying, cached s (customer, near_seed wallet_id) (signing, verifying) ∧ key = "ed25519:" +:+ hex_of verifying.
(** The blob of [view] opens to the policy [p] under the master of [s]. *)
Definition opens_to (s : SignState W) (customer : option string) (wallet_id : string) (view : Value) (p : Policy) : Prop :=
  ∃ data bytes ks ks' plain, value_get "encrypted_data" view = Some (VString data) ∧ b64_decode data = Some bytes ∧
    master_for ks customer = master_for (ss_keystore s) customer ∧
    decrypt customer (policy_seed wallet_id) bytes ks = (ROk plain, ks') ∧ policy_from_slice plain = Some p.
(** The chain's word on the freeze, [None] when it is there and not a truth value. *)
Definition said_frozen (view : Value) : option bool :=
  match value_get "frozen" view with Some v => value_bool v | None => Some false end.
(** What [load_wallet_policy] makes of the chain's answer. *)
Definition reads_as (s : SignState W) (customer : option string) (wallet_id : string) (view : option Value) (policy : option Policy)
    : Prop :=
  match view with
  | None => policy = None
  | Some view =>
    (said_frozen view = Some true ∧ policy = Some (with_frozen true default_policy)) ∨
    (said_frozen view = Some false ∧ ∃ p, policy = Some p ∧ opens_to s customer wallet_id view p)
  end.

(** Only the master matters. *)
Lemma opens_to_masters s s' customer wallet_id view p : master_for (ss_keystore s') customer = master_for (ss_keystore s) customer →
  opens_to s customer wallet_id view p → opens_to s' customer wallet_id view p.
Proof. intros Hm (data & bytes & ks & ks' & plain & ? & ? & Hk & ? & ?). exists data, bytes, ks, ks', plain. split_and!; [done..|congruence|done|done]. Qed.
Lemma reads_as_masters s s' customer wallet_id view policy : master_for (ss_keystore s') customer = master_for (ss_keystore s) customer →
  reads_as s customer wallet_id view policy → reads_as s' customer wallet_id view policy.
Proof.
  intros Hm. destruct view as [view|]; [|done]. intros [?|(? & p & ? & ?)]; [by left | right]. split; [done|]. exists p. split; [done|].
  by eapply opens_to_masters.
Qed.

Lemma goes_pubkey customer wallet_id : goes_on c (derive_wallet_ed25519_pubkey customer wallet_id).
Proof. unfold derive_wallet_ed25519_pubkey. solve_goes. Qed.
Lemma goes_open_policy customer wallet_id view : goes_on c (open_policy customer wallet_id view).
Proof. unfold open_policy. solve_goes. Qed.
Hint Resolve goes_pubkey goes_open_policy : course.
Lemma goes_load wallet_id customer : goes_on c (load_wallet_policy wallet_id customer).
Proof. unfold load_wallet_policy. solve_goes. Qed.
Lemma goes_load_for_update wallet_id pk customer : goes_on c (load_wallet_policy_for_update wallet_id pk customer).
Proof. unfold load_wallet_policy_for_update. solve_goes. Qed.

Lemma on_world_ok {A E} (f : E → SignError) (m : act W A E) s a s' : on_world f m s = (ROk a, s') →
  ∃ w', m (ss_world s) = (ROk a, w') ∧ s' = set_world w' s.
Proof. unfold on_world. destruct (m (ss_world s)) as [[x|] w']; cbn; [|done]. intros [= <- <-]. eauto. Qed.
Lemma on_keystore_ok {A E} (f : E → SignError) (m : act Keystore A E) s a s' : on_keystore f m s = (ROk a, s') →
  ∃ ks', m (ss_keystore s) = (ROk a, ks') ∧ s' = set_keystore ks' s.
Proof. unfold on_keystore. destruct (m (ss_keystore s)) as [[x|] ks']; cbn; [|done]. intros [= <- <-]. eauto. Qed.
Lemma derive_keypair_ok customer seed ks kp ks' : derive_keypair customer seed ks = (ROk kp, ks') →
  keypair_cache ks' !! (customer, seed) = Some kp.
Proof.
  unfold derive_keypair. destruct (keypair_cache ks !! (customer, seed)) eqn:E; [by intros [= <- <-]|].
  destruct (master_for ks customer); [|done]. intros [= <- <-]. cbn. apply lookup_insert_eq.
Qed.
Lemma public_key_ok customer seed ks vk ks' : get_public_key_for_seed customer seed ks = (ROk vk, ks') →
  ∃ sk, keypair_cache ks' !! (customer, seed) = Some (sk, vk).
Proof.
  unfold get_public_key_for_seed. intros ([sk vk'] & ks1 & Hd & Hg)%after_ok. injection Hg as <- <-.
  exists sk. by apply derive_keypair_ok in Hd.
Qed.
Lemma pubkey_ok customer wallet_id s pk s' : derive_wallet_ed25519_pubkey customer wallet_id s = (ROk pk, s') →
  wallet_key s' customer wallet_id pk ∧ ss_world s' = ss_world s.
Proof.
  unfold derive_wallet_ed25519_pubkey. intros (vk & s1 & (ks' & Hk & ->)%on_keystore_ok & Hg)%after_ok.
  injection Hg as <- <-. apply public_key_ok in Hk as [sk Hk]. split; [|done]. by exists sk, vk.
Qed.
Lemma wallet_key_onward s s' customer wallet_id key : onward c s s' → wallet_key s customer wallet_id key →
  wallet_key s' customer wallet_id key.
Proof. intros G (sk & vk & Hk & ->). exists sk, vk. split; [|done]. by apply (ow_cached _ _ _ G). Qed.
Lemma wallet_key_unique s customer wallet_id k k' : wallet_key s customer wallet_id k → wallet_key s customer wallet_id k' → k = k'.
Proof. intros (sk & vk & Hk & ->) (sk' & vk' & Hk' & ->). unfold cached in *. congruence. Qed.

Lemma with_frozen_id (p : Policy) : with_frozen (pol_frozen p) p = p.
Proof. by destruct p. Qed.
Lemma open_policy_ok customer wallet_id view s p s' : ss_client s = Some c →
  open_policy customer wallet_id view s = (ROk p, s') → opens_to s customer wallet_id view p.
Proof.
  unfold open_policy. intros Hs (data & s0 & [Hd ->]%lift_some & (bytes & s1 & [Hb ->]%lift_some &
    (plain & s2 & (ks' & Hp & ->)%on_keystore_ok & [Hq ->]%lift_some)%after_ok)%after_ok)%after_ok.
  apply bind_Some in Hd as ([] & Hd & [= ->]). by eexists data, bytes, _, _, plain.
Qed.
Lemma load_ok wallet_id customer s policy s' : ss_client s = Some c →
  load_wallet_policy wallet_id customer s = (ROk policy, s') →
  ∃ key view w w', wallet_key s' customer wallet_id key ∧ later c (ss_world s) w ∧ later c w' (ss_world s') ∧
    sc_wallet_policy c key w = (ROk view, w') ∧ reads_as s customer wallet_id view policy.
Proof.
  intros Hs Hl. destruct (goes_run _ _ _ _ _ (goes_load wallet_id customer) Hs Hl) as [G _]. revert Hl.
  unfold load_wallet_policy. intros (c' & s0 & [Hc ->]%the_client_ok & Hr)%after_ok. assert (c' = c) as -> by congruence.
  apply after_ok in Hr as (key & s1 & Hk & Hr). destruct (goes_run _ _ _ _ _ (goes_pubkey _ _) Hs Hk) as [G1 Hs1].
  apply pubkey_ok in Hk as [Hk Hw]. apply after_ok in Hr as (view & s2 & (w' & Hv & ->)%on_world_ok & Hr).
  exists key, view, (ss_world s), w'. rewrite Hw in Hv.
  assert (goes_on c (match view with None => give None | Some view =>
    let^ frozen := lift (typed_field "frozen" value_bool false "freeze state" view) in
    if (frozen : bool) then give (Some (with_frozen true default_policy)) else
    let^ policy := open_policy customer wallet_id view in
    give (Some (with_frozen (pol_frozen policy || frozen) policy)) end)) as Gr by solve_goes.
  destruct (goes_run c _ (set_world w' s1) _ _ Gr Hs1 Hr) as [G2 _].
  split_and!; [| apply rtc_refl | apply G2 | done |].
  { eapply wallet_key_onward; [exact G2|]. by destruct Hk as (sk & vk & ? & ->); exists sk, vk. }
  destruct view as [view|]; [|by injection Hr as <- _]. cbn.
  apply after_ok in Hr as (fr & s3 & Hf & Hr). unfold lift in Hf. injection Hf as Hf <-.
  assert (said_frozen view = Some fr) as Hfr.
  { unfold said_frozen. unfold typed_field in Hf. destruct (value_get "frozen" view); [|by injection Hf as <-].
    by apply ok_or_ok in Hf. }
  rewrite Hfr. destruct fr; [left; by injection Hr as <- _ | right].
  apply after_ok in Hr as (p & s4 & Hp & Hr). injection Hr as <- <-. split; [done|].
  exists p. rewrite orb_false_r, with_frozen_id. split; [done|].
  apply open_policy_ok in Hp as (data & bytes & ks & ks' & plain & ? & ? & Hm & ? & ?); [|done].
  exists data, bytes, ks, ks', plain. split_and!; [done..| |done|done]. rewrite Hm. cbn. apply (ow_masters _ _ _ G1).
Qed.

Lemma customer_derived header s : pairs_derived (ss_keystore s) → pairs_derived (ss_keystore (customer_of header s).2).
Proof.
  intros Hd. unfold customer_of, after at 1, lift. destruct (extract_customer_from_header header) as [cu|]; [|done].
  unfold after, ensure_loaded, on_keystore. destruct (ensure_customer_loaded _ _ _ cu (ss_keystore s)) as [r ks] eqn:E.
  assert (pairs_derived ks) as Hks; [|by destruct r].
  assert (∀ v, pairs_derived (evict_customer v (ss_keystore s))) as Hev.
  { intros v k kp. cbn. rewrite map_lookup_filter_Some. intros [Hk _]. by eapply Hd. }
  revert E. unfold ensure_customer_loaded. destruct cu as [v|]; [|by intros [= <- <-]].
  destruct (ss_mpc s); cbn; [|by intros [= <- <-]]. destruct (ss_client s) as [c0|]; cbn; [|by intros [= <- <-]].
  unfold after at 1. destruct (assert_serving_allowed _ v (ss_keystore s)) as [r1 ks1] eqn:Ea.
  assert (pairs_derived ks1) as Hk1.
  { revert Ea. unfold assert_serving_allowed. repeat case_match; intros [= <- <-]; first [done | apply Hev]. }
  clear Ea Hev. destruct r1 as [u|]; [|by intros [= <- <-]].
  destruct (has_customer v ks1) eqn:Eh; [by intros [= <- <-]|]. unfold load_customer. rewrite Eh. unfold after at 1, read_err at 1.
  pose proof (derive_adds None (vault_tee_keypair_seed v) ks1) as (_ & _ & Ha). unfold derive_vault_tee_keypair.
  destruct (derive_keypair None (vault_tee_keypair_seed v) ks1) as [[[sk vk]|] ks2]; cbn in *; [|by intros [= <- <-]; auto].
  unfold after, derive_secret_string. cbn [rbind master_for master_from_loaded map_err]. unfold lift.
  destruct (request_master _ _ _ _); [|by intros [= <- <-]; auto]. intros [= <- <-]. intros k kp. cbn.
  rewrite map_lookup_filter_Some. intros [Hk _]. by eapply Ha.
Qed.
Lemma customer_of_ok header s customer s' : customer_of header s = (ROk customer, s') →
  extract_customer_from_header header = ROk customer ∧ ss_client s' = ss_client s ∧ ss_world s' = ss_world s.
Proof.
  unfold customer_of. intros (cu & s0 & Hx & (u & s1 & Hl & Hg)%after_ok)%after_ok. unfold lift in Hx. injection Hx as Hx <-.
  injection Hg as <- <-. split; [done|]. unfold ensure_loaded in Hl. by apply on_keystore_ok in Hl as (ks' & _ & ->).
Qed.
End policies.

(** * Claims *)

Section sign.
Context `{Unicode} `{AccountIds} `{KeyCrates} `{Crates} `{PolicyCrate} `{SignCrates} {W : Type} `{SignHost W}.
Implicit Types s : SignState W.

Section goes.
Context (c : SignClient W).
Lemma goes_account customer wallet_id : goes_on c (wallet_implicit_account customer wallet_id).
Proof. unfold wallet_implicit_account. solve_goes. Qed.
Lemma goes_keypair customer wallet_id : goes_on c (wallet_keypair customer wallet_id).
Proof. unfold wallet_keypair. solve_goes. Qed.
Hint Resolve goes_account goes_keypair : course.
Lemma goes_nep413 customer wallet_id m n r : goes_on c (sign_nep413 customer wallet_id m n r).
Proof. unfold sign_nep413. solve_goes. Qed.
Hint Resolve goes_nep413 : course.
Lemma goes_response customer wallet_id h m n r : goes_on c (message_response customer wallet_id h m n r).
Proof. unfold message_response. solve_goes. Qed.
Lemma goes_transaction customer wallet_id h f : goes_on c (sign_near_transaction customer wallet_id h f).
Proof. unfold sign_near_transaction. solve_goes. Qed.
Hint Resolve goes_response goes_transaction : course.
Lemma goes_intent customer wallet_id h f : goes_on c (built_intent customer wallet_id h f).
Proof. unfold built_intent. solve_goes. Qed.
Lemma goes_jwt customer wallet_id h v : goes_on c (auth_jwt customer wallet_id h v).
Proof. unfold auth_jwt. solve_goes. Qed.
Lemma goes_auth customer wallet_id h p sd v : goes_on c (auth_raw customer wallet_id h p sd v).
Proof. unfold auth_raw. solve_goes. Qed.
Hint Resolve goes_intent goes_jwt goes_auth : course.
Lemma goes_built customer req h : goes_on c (sign_built customer req h).
Proof. unfold sign_built. solve_goes. Qed.
Lemma goes_pinned customer req p h : goes_on c (sign_hash_pinned customer req p h).
Proof. unfold sign_hash_pinned. solve_goes. Qed.
Lemma goes_trusted customer req h : goes_on c (sign_trusted customer req h).
Proof. unfold sign_trusted. solve_goes. Qed.
Hint Resolve goes_built goes_pinned goes_trusted : course.
Lemma goes_artifact customer req p h : goes_on c (make_artifact customer req p h).
Proof. unfold make_artifact. solve_goes. Qed.
Lemma goes_carry_out d p customer req h : goes_on c (carry_out d p customer req h).
Proof. unfold carry_out. solve_goes; [apply goes_pubkey | apply goes_verify_approvals]. Qed.
End goes.

(** A request that was signed, taken apart at the decision. *)
Lemma sign_steps header req s resp s' : wallet_sign_handler header req s = (ROk resp, s') →
  ∃ customer policy s0 s1 s2, ss_ready s = true ∧ validate_wallet_id (wr_wallet_id req) = true ∧
    refuse_policy_update (wr_op req) = ROk tt ∧ extract_customer_from_header header = ROk customer ∧
    version_gate (wr_op req) (wr_binding_kind req) (wr_decoder_version req) = ROk tt ∧
    ss_client s0 = ss_client s ∧ ss_world s0 = ss_world s ∧
    load_wallet_policy (wr_wallet_id req) customer s0 = (ROk policy, s1) ∧
    carry_out (evaluate (policy_to_judge_by policy) (wr_op req) (option_map usage_of (wr_usage req)) (clock_ms (ss_world s1) / 1000))
      (policy_to_judge_by policy) customer req (request_hash (wr_op req)) s1 = (ROk tt, s2) ∧
    make_artifact customer req policy (request_hash (wr_op req)) s2 = (ROk resp, s').
Proof.
  unfold wallet_sign_handler. intros Hr.
  apply after_ok in Hr as (u & t0 & [Er ->]%is_ready_ok & Hr).
  apply after_ok in Hr as (u1 & t1 & Hx & Hr). unfold check_wallet_id, lift in Hx. destruct (validate_wallet_id _); [|done]. injection Hx as _ <-.
  apply after_ok in Hr as (u2 & t2 & Hx & Hr). unfold lift in Hx. injection Hx as Hx2 <-. destruct u2.
  apply after_ok in Hr as (customer & s0 & Hx & Hr). apply customer_of_ok in Hx as (Hcu & Hc & Hw).
  apply after_ok in Hr as (u3 & t3 & Hx & Hr). unfold lift in Hx. injection Hx as Hx3 <-.
  apply after_ok in Hr as (policy & s1 & Hl & Hr). apply after_ok in Hr as (now & t4 & Hx & Hr). injection Hx as <- <-.
  apply after_ok in Hr as ([] & s2 & Hd & Hr).
  exists customer, policy, s0, s1, s2. split_and!; try done. by destruct (version_gate _ _ _) as [[]|].
Qed.
Lemma load_client wallet_id customer s policy s' : load_wallet_policy wallet_id customer s = (ROk policy, s') → ∃ c, ss_client s = Some c.
Proof. unfold load_wallet_policy. intros (c & s0 & [Hc ->]%the_client_ok & _)%after_ok. eauto. Qed.

(** C17: A signature needs the policy's word.  When [/wallet/sign] answers, the contract was
    asked, in the course of the request, for the policy of this wallet's own key; the engine
    judged the operation by what the chain answered, opened with the customer's master, or
    by the stand-in when the chain holds none; and either the engine allowed it, or as many
    approvers as it asked for, each once, voted for exactly this operation of this wallet,
    with votes checked in the course of the request, while no vote against it counted. *)
Theorem signed_only_as_allowed header req s resp s' :
  wallet_sign_handler header req s = (ROk resp, s') →
  ∃ c customer key view policy w w1 w2, ss_client s = Some c ∧ extract_customer_from_header header = ROk customer ∧
    wallet_key s' customer (wr_wallet_id req) key ∧
    later c (ss_world s) w ∧ sc_wallet_policy c key w = (ROk view, w1) ∧ later c w1 w2 ∧ later c w2 (ss_world s') ∧
    reads_as s' customer (wr_wallet_id req) view policy ∧
    let judge := policy_to_judge_by policy in
    let decision := evaluate judge (wr_op req) (option_map usage_of (wr_usage req)) (clock_ms w2 / 1000) in
    decision = Allow ∨
    ∃ t info, decision = RequiresApproval t ∧ wr_approval_info req = Some info ∧ named_approvers judge ≠ [] ∧
      quorum c judge key (request_hash (wr_op req)) info (Z.max t 1) w2 (ss_world s').
Proof.
  intros (customer & policy & s0 & s1 & s2 & _ & _ & _ & Hcu & _ & Hc0 & Hw0 & Hl & Hd & Ha)%sign_steps.
  destruct (load_client _ _ _ _ _ Hl) as [c Hc]. destruct (goes_run _ _ _ _ _ (goes_load c _ _) Hc Hl) as [G1 Hc1].
  destruct (load_ok c _ _ _ _ _ Hc Hl) as (key & view & w & w1 & Hkey & Hlw & Hlw1 & Hv & Hp).
  destruct (goes_run _ _ _ _ _ (goes_carry_out c _ _ _ _ _) Hc1 Hd) as [G2 Hc2]. destruct (goes_run _ _ _ _ _ (goes_artifact c _ _ _ _) Hc2 Ha) as [G3 _].
  assert (onward c s1 s') as G13 by (by etrans). exists c, customer, key, view, policy, w, w1, (ss_world s1).
  split_and!; [congruence | done | by eapply wallet_key_onward | by rewrite <-Hw0 | done | done | apply G13 | |].
  { eapply reads_as_masters; [|exact Hp]. by rewrite (ow_masters _ _ _ G13), (ow_masters _ _ _ G1). }
  cbv zeta. unfold carry_out in Hd. destruct (evaluate _ _ _ _) as [|?|?|t] eqn:Ed; [by left | done | done | right].
  apply after_ok in Hd as (key' & t1 & Hk & Hd). destruct (goes_run _ _ _ _ _ (goes_pubkey c _ _) Hc1 Hk) as [G4 Hct].
  apply pubkey_ok in Hk as [Hk Hwt].
  assert (key' = key) as -> by (eapply wallet_key_unique; [done | by eapply wallet_key_onward]).
  apply (verify_approvals_ok c) in Hd as (Hn & info & Hi & Hq); [|done]. exists t, info. split_and!; [done..|].
  rewrite Hwt in Hq. eapply quorum_widen; [apply rtc_refl | apply G3 | done].
Qed.
End sign.

(** * The count *)

Section count.
Context `{Unicode} `{AccountIds} `{KeyCrates} `{Crates} `{PolicyCrate} `{SignCrates} {W : Type} `{SignHost W}.
Context (c : SignClient W) (policy : Policy).
Implicit Types s : SignState W.

(** A chain whose answers on keys and votes do not change, and which answers. *)
Context (owns : string → string → bool) (resolves : ContractVote → string → bool).
Record answering : Prop := {
  an_signer account key w : ∃ w', sc_signer_key c account key w = (ROk (if owns account key then FullAccess else Absent), w');
  an_vote v message w : ∃ w' why, sc_resolve_vote c (cv_approver_id v) (cv_shape v) (sc_contract_id c) (cv_authorization v) message w =
    (ROk (if resolves v message then ROk tt else RErr why), w');
}.

(** Which votes count. *)
Definition key_counts (message : string) (v : ApproverSig) : bool :=
  admits_key policy (as_approver_id v) (as_public_key v) &&
  verify_near_signature message (as_signature v) (as_public_key v) (as_nonce v) (sc_contract_id c).
Definition contract_counts (message : string) (v : ContractVote) : bool :=
  admits_contract_vote policy (cv_approver_id v) && (str_len (cv_authorization v) <=? AUTHORIZATION_MAX_BYTES) && resolves v message.
(** The approvers who said yes, each once. *)
Definition voters (info : ApprovalInfo) (message : string) : gset string :=
  list_to_set (as_approver_id <$> filter (λ v, key_counts message v = true) (ai_approvals info)) ∪
  list_to_set (cv_approver_id <$> filter (λ v, contract_counts message v = true) (ai_contract_approvals info)).
Definition few_votes (i : ApprovalInfo) : Prop :=
  Z.of_nat (length (ai_approvals i)) ≤ MAX_APPROVAL_VOTES ∧ Z.of_nat (length (ai_rejections i)) ≤ MAX_APPROVAL_VOTES ∧
  Z.of_nat (length (ai_contract_approvals i)) ≤ MAX_APPROVAL_VOTES ∧ Z.of_nat (length (ai_contract_rejections i)) ≤ MAX_APPROVAL_VOTES.
(** The key of a vote that counts is its approver's. *)
Definition honest_keys (message : string) (l : list ApproverSig) : Prop :=
  Forall (λ v, key_counts message v = true → account_ok (as_approver_id v) = true ∧ owns (as_approver_id v) (as_public_key v) = true) l.

Context (Han : answering).

Lemma key_owned_answered message v s : key_counts message v = true → account_ok (as_approver_id v) = true →
  owns (as_approver_id v) (as_public_key v) = true → ∃ s', key_owned c v s = (ROk tt, s').
Proof.
  intros [_ Hv]%andb_true_iff Ha Ho. unfold key_owned, on_world, verify_access_key_owner. rewrite Ha. cbn.
  unfold verify_near_signature in Hv. destruct (near_key (as_public_key v)) as [k|]; [|done].
  destruct (an_signer Han (as_approver_id v) (as_public_key v) (ss_world s)) as [w' Hw]. unfold after. rewrite Hw, Ho. eauto.
Qed.
Lemma contract_vote_answered message v s : admits_contract_vote policy (cv_approver_id v) = true →
  ∃ s', contract_vote_counts c v (sc_contract_id c) message s = (ROk (contract_counts message v), s').
Proof.
  intros Ha. unfold contract_vote_counts, contract_counts. rewrite Ha, Z.leb_antisym. cbn.
  destruct (AUTHORIZATION_MAX_BYTES <? str_len (cv_authorization v)); cbn; [eauto|].
  destruct (an_vote Han v message (ss_world s)) as (w' & why & Hw). unfold after, on_world. rewrite Hw.
  destruct (resolves v message); cbn; eauto.
Qed.
Lemma count_approvals_answered message l seen s : honest_keys message l →
  ∃ s', count_approvals c policy (sc_contract_id c) message seen l s =
    (ROk (seen ∪ list_to_set (as_approver_id <$> filter (λ v, key_counts message v = true) l)), s').
Proof.
  intros Hl. revert seen s. induction Hl as [|v l Hv Hl IH]; intros seen s; [exists s; cbn; by rewrite union_empty_r_L|].
  cbn [count_approvals]. assert (∀ seen', key_counts message v = false ∨ as_approver_id v ∈ seen' → seen' = seen →
    ∃ s', count_approvals c policy (sc_contract_id c) message seen l s =
    (ROk (seen ∪ list_to_set (as_approver_id <$> filter (λ v, key_counts message v = true) (v :: l))), s')) as Hskip.
  { intros ? Hc ->. destruct (IH seen s) as [s' Hs']. exists s'. rewrite Hs'. do 2 f_equal. rewrite filter_cons.
    destruct (decide (key_counts message v = true)) as [E|]; [|done]. destruct Hc as [Hc|Hc]; [congruence|]. cbn. set_solver. }
  case_bool_decide; [by apply (Hskip seen); [right|]|]. unfold key_counts in Hskip at 1.
  destruct (admits_key policy _ _) eqn:Ea; cbn; [|by apply (Hskip seen); [left|]].
  destruct (verify_near_signature _ _ _ _ _) eqn:Ev; cbn; [|by apply (Hskip seen); [left|]].
  assert (key_counts message v = true) as Ek by (unfold key_counts; by rewrite Ea, Ev).
  destruct (Hv Ek) as [Hacc Ho]. destruct (key_owned_answered message v s Ek Hacc Ho) as [s1 Hs1].
  destruct (IH ({[as_approver_id v]} ∪ seen) s1) as [s' Hs']. exists s'. unfold after. rewrite Hs1, Hs'. do 2 f_equal.
  case_decide; [|done]. cbn. set_solver.
Qed.
Lemma count_contract_answered message l seen s :
  ∃ s', count_contract_approvals c policy (sc_contract_id c) message seen l s =
    (ROk (seen ∪ list_to_set (cv_approver_id <$> filter (λ v, contract_counts message v = true) l)), s').
Proof.
  revert seen s. induction l as [|v l IH]; intros seen s; [exists s; cbn; by rewrite union_empty_r_L|].
  cbn [count_contract_approvals]. rewrite filter_cons. case_bool_decide as Hin.
  { destruct (IH seen s) as [s' Hs']. exists s'. rewrite Hs'. do 2 f_equal. destruct (decide _); [cbn; set_solver | done]. }
  destruct (admits_contract_vote policy _) eqn:Ea; cbn.
  2:{ destruct (IH seen s) as [s' Hs']. exists s'. rewrite Hs', decide_False; [done|]. unfold contract_counts. by rewrite Ea. }
  destruct (contract_vote_answered message v s Ea) as [s1 Hs1]. unfold after. rewrite Hs1.
  destruct (contract_counts message v); [rewrite decide_True by done | rewrite decide_False by done].
  - destruct (IH ({[cv_approver_id v]} ∪ seen) s1) as [s' Hs']. exists s'. rewrite Hs'. do 2 f_equal. cbn. set_solver.
  - apply IH.
Qed.
Lemma rejections_answered message l s : honest_keys message l →
  ∃ s', check_rejections c policy (sc_contract_id c) message l s =
    (match filter (λ v, key_counts message v = true) l with [] => ROk tt | v :: _ => RErr (Refused (Vetoed (as_approver_id v))) end, s').
Proof.
  intros Hl. revert s. induction Hl as [|v l Hv Hl IH]; intros s; [by exists s|]. cbn [check_rejections]. rewrite filter_cons.
  destruct (key_counts message v) eqn:Ek; unfold key_counts in Ek.
  - apply andb_true_iff in Ek as [Ea Ev]. rewrite Ea, Ev. cbn.
    assert (key_counts message v = true) as Ek by (unfold key_counts; by rewrite Ea, Ev). destruct (Hv eq_refl) as [Hacc Ho].
    destruct (key_owned_answered message v s Ek Hacc Ho) as [s1 Hs1]. unfold after. rewrite Hs1. by exists s1.
  - apply andb_false_iff in Ek as [-> | ->]; cbn; [apply IH|]. destruct (negb _); apply IH.
Qed.
Lemma contract_rejections_answered message l s :
  ∃ s', check_contract_rejections c policy (sc_contract_id c) message l s =
    (match filter (λ v, contract_counts message v = true) l with [] => ROk tt | v :: _ => RErr (Refused (Vetoed (cv_approver_id v))) end, s').
Proof.
  revert s. induction l as [|v l IH]; intros s; [by exists s|]. cbn [check_contract_rejections]. rewrite filter_cons.
  destruct (admits_contract_vote policy _) eqn:Ea; cbn.
  2:{ rewrite decide_False; [apply IH|]. unfold contract_counts. by rewrite Ea. }
  destruct (contract_vote_answered message v s Ea) as [s1 Hs1]. unfold after. rewrite Hs1.
  destruct (contract_counts message v); [by exists s1 | apply IH].
Qed.

Lemma ex_some {A} (a : A) (P : A → Prop) : (∃ b, Some a = Some b ∧ P b) ↔ P a.
Proof. naive_solver. Qed.

(** C20: The count is exact.  On a chain that answers, and when the keys of the votes that
    count are their approvers', the request passes when, and only when, the policy names
    approvers, the votes are there, not too many and for this keystore's contract, nobody's
    vote against it counts, and the approvers whose vote for it counts, by signature or by
    contract, each counted once, are as many as asked for. *)
Theorem ballot_counted_exactly wallet_pubkey hash info n s : ss_client s = Some c →
  (∀ i, info = Some i → honest_keys (yes_message i wallet_pubkey hash) (ai_approvals i) ∧
     honest_keys (no_message i wallet_pubkey hash) (ai_rejections i)) →
  (verify_approvals policy wallet_pubkey hash info n s).1 = ROk tt ↔
  named_approvers policy ≠ [] ∧ ∃ i, info = Some i ∧
    few_votes i ∧
    ai_recipient i = sc_contract_id c ∧
    filter (λ v, key_counts (no_message i wallet_pubkey hash) v = true) (ai_rejections i) = [] ∧
    filter (λ v, contract_counts (no_message i wallet_pubkey hash) v = true) (ai_contract_rejections i) = [] ∧
    n ≤ Z.of_nat (size (voters i (yes_message i wallet_pubkey hash))).
Proof.
  intros Hs Hk. unfold verify_approvals, after at 1, the_client. rewrite Hs. cbn [ok_or].
  case_bool_decide as Hn; [naive_solver|]. destruct info as [i|]; [|naive_solver].
  destruct (Hk i eq_refl) as [Hy Hno]. clear Hk. unfold after at 1, lift. cbn [ok_or]. rewrite ex_some.
  unfold few_votes, many.
  destruct (Z.ltb_spec MAX_APPROVAL_VOTES (Z.of_nat (length (ai_approvals i)))); cbn [orb]; [naive_solver lia|].
  destruct (Z.ltb_spec MAX_APPROVAL_VOTES (Z.of_nat (length (ai_rejections i)))); [naive_solver lia|].
  destruct (Z.ltb_spec MAX_APPROVAL_VOTES (Z.of_nat (length (ai_contract_approvals i)))); cbn [orb]; [naive_solver lia|].
  destruct (Z.ltb_spec MAX_APPROVAL_VOTES (Z.of_nat (length (ai_contract_rejections i)))); [naive_solver lia|].
  case_bool_decide as Hr; cbn [negb]; [|naive_solver].
  change (vote_message Approve (ai_approval_id i) wallet_pubkey hash) with (yes_message i wallet_pubkey hash).
  change (vote_message Reject (ai_approval_id i) wallet_pubkey hash) with (no_message i wallet_pubkey hash).
  destruct (count_approvals_answered _ _ ∅ s Hy) as [s1 E1]. unfold after at 1. rewrite E1.
  edestruct count_contract_answered as [s2 E2]. unfold after at 1. rewrite E2. clear E1 E2.
  destruct (rejections_answered _ _ s2 Hno) as [s3 E3]. unfold after at 1. rewrite E3.
  destruct (filter _ (ai_rejections i)); [|naive_solver].
  edestruct contract_rejections_answered as [s4 E4]. unfold after at 1. rewrite E4.
  destruct (filter _ (ai_contract_rejections i)); [|naive_solver].
  rewrite union_empty_l_L. fold (voters i (yes_message i wallet_pubkey hash)).
  destruct (Z.ltb_spec (Z.of_nat (size (voters i (yes_message i wallet_pubkey hash)))) n); cbn; naive_solver lia.
Qed.
End count.

(** * The pre-flight check *)

Section preflight.
Context `{Unicode} `{AccountIds} `{KeyCrates} `{Crates} `{PolicyCrate} `{SignCrates} {W : Type} `{SignHost W}.
Implicit Types s : SignState W.

(** The check that goes with a request. *)
Definition check_of (req : WalletSignRequest) : WalletCheckPolicyRequest :=
  mkCheckRequest (wr_wallet_id req) (wr_op req) (wr_usage req) None (wr_binding_kind req) (wr_decoder_version req).

Lemma after_run {A B E} (m : act (SignState W) A E) (k : A → act (SignState W) B E) s a s1 :
  m s = (ROk a, s1) → after m k s = k a s1.
Proof. intros Em. unfold after. by rewrite Em. Qed.
Lemma after_fail {A B E} (m : act (SignState W) A E) (k : A → act (SignState W) B E) s e s1 :
  m s = (RErr e, s1) → after m k s = (RErr e, s1).
Proof. intros Em. unfold after. by rewrite Em. Qed.

(** The check answers as signing does.  What it says of a request it says under the hash
    the request is signed under; when it says the request is not allowed, signing refuses
    it; when it says it is allowed, signing from the same state goes on to the artifact from
    the state the check left; and when it says approvals are needed, signing counts the
    votes it has against the policy's number and goes on if they suffice. *)
Theorem check_foretells_sign allow_inline header req s resp s1 :
  refuse_policy_update (wr_op req) = ROk tt →
  wallet_check_policy_handler allow_inline header (check_of req) s = (ROk resp, s1) →
  ck_request_hash resp = Some (request_hash (wr_op req)) ∧
  (ck_allowed resp = false → ∃ why s2, wallet_sign_handler header req s = (RErr (Refused why), s2)) ∧
  (ck_allowed resp = true → ∃ customer policy, match ck_requires_approval resp with
   | None => wallet_sign_handler header req s = make_artifact customer req policy (request_hash (wr_op req)) s1
   | Some _ => ∃ n, ck_required_approvals resp = Some (as_i32 n) ∧
       wallet_sign_handler header req s =
         (let^ key := derive_wallet_ed25519_pubkey customer (wr_wallet_id req) in
          let^ _ := verify_approvals (policy_to_judge_by policy) key (request_hash (wr_op req)) (wr_approval_info req) (Z.max n 1) in
          make_artifact customer req policy (request_hash (wr_op req))) s1
   end).
Proof.
  intros Hu. unfold wallet_check_policy_handler, check_of.
  cbn [cr_wallet_id cr_op cr_usage cr_encrypted_policy_data cr_binding_kind cr_decoder_version bool_decide decide is_Some_dec andb].
  intros (u & t0 & Er & (u1 & t1 & Ew & (customer & t2 & Ec & Hr)%after_ok)%after_ok)%after_ok.
  apply after_ok in Hr as (policy & t3 & El & Hr). apply after_ok in Hr as (now & t4 & En & Hr). injection En as <- <-.
  unfold wallet_sign_handler. rewrite (after_run _ _ _ _ _ Er), (after_run _ _ _ _ _ Ew).
  rewrite (after_run _ _ _ tt t1) by (unfold lift; by rewrite Hu). rewrite (after_run _ _ _ _ _ Ec). cbv zeta.
  destruct (version_gate (wr_op req) (wr_binding_kind req) (wr_decoder_version req)) as [[]|reason] eqn:Eg.
  2:{ injection Hr as <- <-. cbn. split; [done|]. split; [|done]. intros _. by eexists _, _. }
  injection Hr as <- <-. rewrite (after_run _ _ _ tt t2) by done. rewrite (after_run _ _ _ _ _ El).
  rewrite (after_run now_secs _ _ (clock_ms (ss_world t3) / 1000) t3) by done.
  destruct (evaluate _ _ _ _) as [|?|reason|n]; cbn.
  - split; [done|]. split; [done|]. intros _. by exists customer, policy.
  - split; [done|]. split; [|done]. intros _. by eexists _, _.
  - split; [done|]. split; [|done]. intros _. by eexists _, _.
  - split; [done|]. split; [done|]. intros _. exists customer, policy, n. split; [done|].
    unfold after. by destruct (derive_wallet_ed25519_pubkey _ _ _) as [[key|] t5]; [destruct (verify_approvals _ _ _ _ _ _) as [[]]|].
Qed.
End preflight.
