(* ===== verification/WalletEvm.v ===== *)
(** The Ethereum side of a wallet (keystore-worker/src/api.rs and crypto.rs): its address,
    and signatures over typed data, messages and transactions.  A signature recovers to the
    address the keystore answers with, over the digest of what the request describes. *)

From S2P Require Export Eip712Safety WalletSafety.

(** k256. *)
Class EvmCrates := {
  k256_scalar : string → bool;                          (* [SigningKey::from_slice] takes it *)
  k256_point : string → string;                         (* the public key, [x ‖ y] *)
  k256_compressed : string → string;
  sign_prehash_recoverable : string → list Z → option (string * Z);
}.
(** Documented of k256 and of [ecrecover]: the recovery id gives the key back. *)
Class EvmLaws `{EvmCrates} := {
  eth_recover : list Z → string → Z → option string;      (* digest, [r ‖ s], [v] *)
  recovers scalar digest rs id : sign_prehash_recoverable scalar digest = Some (rs, id) → 0 ≤ id < 2 →
    eth_recover digest rs (27 + id) = Some (k256_point scalar);
  signed_shape scalar digest rs id : sign_prehash_recoverable scalar digest = Some (rs, id) → str_len rs = 64 ∧ 0 ≤ id;
}.

Section evm.
Context `{Unicode} `{AccountIds} `{KeyCrates} `{Crates} `{PolicyCrate} `{SignCrates} {W : Type} `{SignHost W}.
Context `{Keccak} `{EvmCrates}.
Abbreviation State := (SignState W).
Abbreviation Handler A := (act State A SignError).

(** * Keys *)

(** [None] is any of its errors. *)
Definition derive_secp256k1_keypair (ks : Keystore) (customer : option string) (seed : string) : option string :=
  match master_for ks customer with
  | RErr _ => None
  | ROk master => let secret := mac master seed in if k256_scalar secret then Some secret else None
  end.
Definition eth_address (point : string) : string := "0x" +:+ hex_of (str_of_bytes (drop 12 (keccak (str_bytes point)))).
Definition derive_eth_address (ks : Keystore) (customer : option string) (seed : string) : option (string * string) :=
  secret ← derive_secp256k1_keypair ks customer seed;
  Some (eth_address (k256_point secret), hex_of (k256_compressed secret)).
Definition sign_secp256k1_prehash (ks : Keystore) (customer : option string) (seed : string) (digest : list Z) : option string :=
  secret ← derive_secp256k1_keypair ks customer seed;
  '(signature, recovery_id) ← sign_prehash_recoverable secret digest;
  if 2 <=? recovery_id then None else Some (signature +:+ str_of_bytes [27 + recovery_id]).

(** * Handlers *)

Definition chain_seed (wallet_id chain : string) (sub_path : option string) : string :=
  match sub_path with Some p => subkey_seed wallet_id p | None => wallet_seed is_evm_chain is_solana_chain wallet_id chain end.
Definition from_keystore_read {A} (f : Keystore → option A) : Handler A :=
  on_keystore (λ e, e) (λ ks, (ok_or (f ks) (Internal EvmFailed), ks)).
Definition sub_path_of (raw : option string) : Handler (option string) :=
  lift (ok_or (validate_sub_path is_valid_sub_path raw) (Bad BadSubPath)).

Definition wallet_derive_address_handler (header : option (option string)) (wallet_id chain : string) (sub_path : option string)
    : Handler (string * string) :=
  let^ _ := is_ready in
  let^ customer := customer_of header in
  let^ _ := check_wallet_id wallet_id in
  let chain := to_lowercase chain in
  let^ sub_path := sub_path_of sub_path in
  if bool_decide (is_Some sub_path) && negb (is_evm_chain chain) then stop (Bad SubPathNotEvm) else
  let seed := chain_seed wallet_id chain sub_path in
  if String.eqb chain "near" then
    let^ '(_, verifying_key) := on_keystore (λ e, Internal (NotDerivedKey e)) (derive_keypair customer seed) in
    let pubkey_hex := hex_of verifying_key in
    give (pubkey_hex, "ed25519:" +:+ pubkey_hex)
  else if is_solana_chain chain then
    let^ '(_, verifying_key) := on_keystore (λ e, Internal (NotDerivedKey e)) (derive_keypair customer seed) in
    let address := bs58_text verifying_key in
    give (address, address)
  else if is_evm_chain chain then
    let^ '(address, pubkey_hex) := from_keystore_read (λ ks, derive_eth_address ks customer seed) in
    give (address, "secp256k1:" +:+ pubkey_hex)
  else stop (Bad (UnsupportedChain chain)).

Definition evm_sign_digest (customer : option string) (wallet_id chain : string) (sub_path : option string) (digest : list Z)
    (want_raw_tx : bool) : Handler string :=
  let^ _ := check_wallet_id wallet_id in
  if negb (is_evm_chain chain) then stop (Bad (NotEvm chain)) else
  let^ policy := load_wallet_policy wallet_id customer in
  let^ now := now_secs in
  match evm_sign_decision policy want_raw_tx now with
  | Allow =>
    let seed := chain_seed wallet_id chain sub_path in
    let^ sig := from_keystore_read (λ ks, sign_secp256k1_prehash ks customer seed digest) in
    give ("0x" +:+ hex_of sig)
  | FrozenWallet => stop (Refused IsFrozen)
  | Deny reason => stop (Refused (Said reason))
  | RequiresApproval _ => stop (Refused NoApprovalHere)
  end.
Definition wallet_evm_sign_typed_data_handler (header : option (option string)) (wallet_id chain : string) (typed_data : Value)
    (sub_path : option string) : Handler string :=
  let^ _ := is_ready in
  let^ customer := customer_of header in
  let^ sub_path := sub_path_of sub_path in
  let^ digest := lift (map_err (λ _, Bad BadTypedData) (eip712_digest typed_data)) in
  evm_sign_digest customer wallet_id (to_lowercase chain) sub_path digest false.
Definition message_encoding (encoding : option string) : result bool SignError :=
  let encoding := default "utf8" encoding in
  if String.eqb encoding "utf8" then ROk false else if String.eqb encoding "hex" then ROk true else RErr (Bad (BadEncoding encoding)).
Definition wallet_evm_sign_message_handler (header : option (option string)) (wallet_id chain message : string)
    (encoding sub_path : option string) : Handler string :=
  let^ _ := is_ready in
  let^ customer := customer_of header in
  let^ hex := lift (message_encoding encoding) in
  let^ sub_path := sub_path_of sub_path in
  let^ digest := lift (map_err (λ _, Bad BadTypedData) (eip191_digest_for message hex)) in
  evm_sign_digest customer wallet_id (to_lowercase chain) sub_path digest false.
Definition wallet_evm_sign_transaction_handler (header : option (option string)) (wallet_id chain unsigned_tx : string)
    (sub_path : option string) : Handler string :=
  let^ _ := is_ready in
  let^ customer := customer_of header in
  let^ tx_bytes := lift (ok_or (hex_word (without_0x unsigned_tx)) (Bad NotHex)) in
  if bool_decide (tx_bytes = []) then stop (Bad Empty) else
  let digest := keccak tx_bytes in
  let^ sub_path := sub_path_of sub_path in
  evm_sign_digest customer wallet_id (to_lowercase chain) sub_path digest true.

(** * What a signature is over *)

Inductive EvmRequest :=
| TypedData (typed_data : Value)
| PersonalMessage (message : string) (encoding : option string)
| RawTransaction (unsigned_tx : string).
Definition evm_handler (header : option (option string)) (wallet_id chain : string) (sub_path : option string) (req : EvmRequest) : Handler string :=
  match req with
  | TypedData td => wallet_evm_sign_typed_data_handler header wallet_id chain td sub_path
  | PersonalMessage message encoding => wallet_evm_sign_message_handler header wallet_id chain message encoding sub_path
  | RawTransaction tx => wallet_evm_sign_transaction_handler header wallet_id chain tx sub_path
  end.
(** The digest a request describes, and whether it needs the word for raw transactions. *)
Definition described (req : EvmRequest) : option (list Z * bool) :=
  match req with
  | TypedData td => match eip712_digest td with ROk d => Some (d, false) | RErr _ => None end
  | PersonalMessage message encoding =>
    match message_encoding encoding with
    | ROk hex => match eip191_digest_for message hex with ROk d => Some (d, false) | RErr _ => None end
    | RErr _ => None
    end
  | RawTransaction tx => bytes ← hex_word (without_0x tx); Some (keccak bytes, true)
  end.

Implicit Types s : State.
Lemma read_ok {A} (f : Keystore → option A) s a s' : from_keystore_read f s = (ROk a, s') → f (ss_keystore s) = Some a ∧ s' = s.
Proof.
  unfold from_keystore_read, on_keystore. destruct (f (ss_keystore s)); cbn; [|done]. intros [= -> <-]. split; [done|]. by destruct s.
Qed.
Lemma map_err_ok {A E F} (f : E → F) (r : result A E) a : map_err f r = ROk a → r = ROk a.
Proof. destruct r; cbn; [congruence | done]. Qed.

Lemma handler_steps header wallet_id chain sub_path req s sig s' : evm_handler header wallet_id chain sub_path req s = (ROk sig, s') →
  ∃ customer path digest raw s0, extract_customer_from_header header = ROk customer ∧ ss_client s0 = ss_client s ∧ ss_world s0 = ss_world s ∧
    validate_sub_path is_valid_sub_path sub_path = Some path ∧ described req = Some (digest, raw) ∧
    evm_sign_digest customer wallet_id (to_lowercase chain) path digest raw s0 = (ROk sig, s').
Proof.
  destruct req as [td|message encoding|tx]; cbn [evm_handler described].
  - intros (u & ? & [_ ->]%is_ready_ok & (customer & s0 & (Hcu & Hc & Hw)%customer_of_ok & (path & ? & [Hp%ok_or_ok ->]%lift_result &
      (digest & ? & [Hd%map_err_ok ->]%lift_result & Hr)%after_ok)%after_ok)%after_ok)%after_ok.
    exists customer, path, digest, false, s0. rewrite Hd. split_and!; done.
  - intros (u & ? & [_ ->]%is_ready_ok & (customer & s0 & (Hcu & Hc & Hw)%customer_of_ok & (hex & ? & [He ->]%lift_result & (path & ? & [Hp%ok_or_ok ->]%lift_result &
      (digest & ? & [Hd%map_err_ok ->]%lift_result & Hr)%after_ok)%after_ok)%after_ok)%after_ok)%after_ok.
    exists customer, path, digest, false, s0. rewrite He, Hd. split_and!; done.
  - intros (u & ? & [_ ->]%is_ready_ok & (customer & s0 & (Hcu & Hc & Hw)%customer_of_ok & (bytes & ? & [Hb%ok_or_ok ->]%lift_result & Hr)%after_ok)%after_ok)%after_ok.
    case_bool_decide; [done|]. apply after_ok in Hr as (path & ? & [Hp%ok_or_ok ->]%lift_result & Hr).
    exists customer, path, (keccak bytes), true, s0. rewrite Hb. split_and!; done.
Qed.

(** The policy on chain, asked for in the course of the request, allowed EVM signing. *)
Definition evm_allowed s0 s1 (customer : option string) (wallet_id : string) (raw : bool) : Prop :=
  ∃ c key view policy w w1 w2, ss_client s0 = Some c ∧ wallet_key s1 customer wallet_id key ∧ later c (ss_world s0) w ∧
    sc_wallet_policy c key w = (ROk view, w1) ∧ later c w1 w2 ∧ reads_as s1 customer wallet_id view policy ∧
    evm_sign_decision policy raw (clock_ms w2 / 1000) = Allow.
Lemma sign_digest_ok customer wallet_id chain path digest raw s sig s' :
  evm_sign_digest customer wallet_id chain path digest raw s = (ROk sig, s') →
  is_evm_chain chain = true ∧ evm_allowed s s' customer wallet_id raw ∧
  ∃ scalar rs id, derive_secp256k1_keypair (ss_keystore s') customer (chain_seed wallet_id chain path) = Some scalar ∧
    sign_prehash_recoverable scalar digest = Some (rs, id) ∧ id < 2 ∧ sig = "0x" +:+ hex_of (rs +:+ str_of_bytes [27 + id]).
Proof.
  unfold evm_sign_digest. intros (u & ? & [_ ->]%lift_result & Hr)%after_ok. destruct (is_evm_chain chain); [|done]. cbn [negb] in Hr.
  apply after_ok in Hr as (policy & s1 & Hl & Hr). destruct (load_client _ _ _ _ _ Hl) as [c Hc].
  destruct (goes_run _ _ _ _ _ (goes_load c _ _) Hc Hl) as [G _].
  destruct (load_ok c _ _ _ _ _ Hc Hl) as (key & view & w & w1 & Hkey & Hlw & Hlw1 & Hv & Hp).
  apply after_ok in Hr as (now & ? & Hn & Hr). injection Hn as <- <-. destruct (evm_sign_decision _ _ _) eqn:Ed; try done.
  apply after_ok in Hr as (sg & ? & [Hs ->]%read_ok & Hg). injection Hg as <- <-. split; [done|]. split.
  - exists c, key, view, policy, w, w1, (ss_world s1). split_and!; try done. eapply reads_as_masters; [|exact Hp]. apply (ow_masters _ _ _ G).
  - apply bind_Some in Hs as (scalar & Hsc & Hs). apply bind_Some in Hs as ([rs id] & Hrs & Hs). destruct (Z.leb_spec 2 id); [done|].
    injection Hs as <-. by exists scalar, rs, id.
Qed.

(** Documented of shared-tee-helpers: an EVM chain is neither NEAR nor Solana. *)
Context (Hchains : ∀ chain, is_evm_chain chain = true → chain ≠ "near" ∧ is_solana_chain chain = false).
Lemma address_ok header wallet_id chain sub_path path customer s address pk s' :
  is_evm_chain (to_lowercase chain) = true → validate_sub_path is_valid_sub_path sub_path = Some path →
  extract_customer_from_header header = ROk customer →
  wallet_derive_address_handler header wallet_id chain sub_path s = (ROk (address, pk), s') →
  ∃ scalar, derive_secp256k1_keypair (ss_keystore s') customer (chain_seed wallet_id (to_lowercase chain) path) = Some scalar ∧
    address = eth_address (k256_point scalar).
Proof.
  intros He Hp Hcu. destruct (Hchains _ He) as [Hn Hsol]. unfold wallet_derive_address_handler.
  intros (u & ? & [_ ->]%is_ready_ok & (customer' & s0 & (Hcu' & _)%customer_of_ok & (u1 & ? & [_ ->]%lift_result & (path' & ? & [Hp'%ok_or_ok ->]%lift_result & Hr)%after_ok)%after_ok)%after_ok)%after_ok.
  assert (customer' = customer ∧ path' = path) as [-> ->] by (split; congruence). rewrite He, andb_false_r in Hr.
  destruct (String.eqb_spec (to_lowercase chain) "near"); [done|]. rewrite Hsol in Hr.
  apply after_ok in Hr as ([a h] & ? & [Hd ->]%read_ok & Hg). injection Hg as -> _ ->.
  apply bind_Some in Hd as (scalar & Hs & E). exists scalar. split; [done|]. congruence.
Qed.
(** Under the default master the answer changes nothing. *)
Lemma default_address_reads header wallet_id chain sub_path s a s' : extract_customer_from_header header = ROk None →
  is_evm_chain (to_lowercase chain) = true →
  wallet_derive_address_handler header wallet_id chain sub_path s = (ROk a, s') → s' = s.
Proof.
  intros Hcu He. destruct (Hchains _ He) as [Hn Hsol]. unfold wallet_derive_address_handler, customer_of.
  intros (u & ? & [_ ->]%is_ready_ok & (cu & s0 & (cu' & s1 & [Hcu' ->]%lift_result & (u2 & s2 & Hl & Hg)%after_ok)%after_ok & Hr)%after_ok)%after_ok.
  assert (cu' = None) as -> by congruence. injection Hg as <- <-. unfold ensure_loaded, on_keystore in Hl. cbn in Hl. injection Hl as _ <-.
  apply after_ok in Hr as (u1 & ? & [_ ->]%lift_result & (path & ? & [_ ->]%lift_result & Hr)%after_ok).
  rewrite He, andb_false_r in Hr. destruct (String.eqb_spec (to_lowercase chain) "near"); [done|]. rewrite Hsol in Hr.
  apply after_ok in Hr as ([x h] & ? & [_ ->]%read_ok & Hg). injection Hg as _ <-. by destruct s.
Qed.
End evm.

Section recovery.
Context `{Unicode} `{AccountIds} `{KeyCrates} `{Crates} `{PolicyCrate} `{SignCrates} {W : Type} `{SignHost W}.
Context `{Keccak} `{EvmLaws}.

(** C23: An EVM signature is the wallet's, over what the request describes.  What the keystore
    answers to a request for typed data, a message or a transaction is 65 bytes, [r ‖ s ‖ v]
    with [v] 27 or 28, from which [ecrecover], over the digest the keystore computed from the
    request itself, gives the key of the address the keystore answers with for the same
    wallet, chain and path; and the policy on chain allowed it, for a transaction its word on
    raw transactions included. *)
Theorem evm_signature_recovers {header wallet_id chain sub_path req} {s : SignState W} {sig s' address pk s2} :
  (∀ chain, is_evm_chain chain = true → chain ≠ "near" ∧ is_solana_chain chain = false) →
  evm_handler header wallet_id chain sub_path req s = (ROk sig, s') →
  wallet_derive_address_handler header wallet_id chain sub_path s' = (ROk (address, pk), s2) →
  (∀ customer, master_for (ss_keystore s2) customer = master_for (ss_keystore s') customer) →
  ∃ customer digest raw rs v point, extract_customer_from_header header = ROk customer ∧ described req = Some (digest, raw) ∧
    sig = "0x" +:+ hex_of (rs +:+ str_of_bytes [v]) ∧ str_len rs = 64 ∧ (v = 27 ∨ v = 28) ∧
    eth_recover digest rs v = Some point ∧ address = eth_address point ∧
    evm_allowed s s' customer wallet_id raw.
Proof.
  intros Hch (customer & path & digest & raw & s0 & Hcu & Hc0 & Hw0 & Hp & Hd & (He & Ha & scalar & rs & id & Hsc & Hrs & Hid & ->)%sign_digest_ok)%handler_steps Haddr Hm.
  destruct (address_ok Hch _ _ _ _ _ _ _ _ _ _ He Hp Hcu Haddr) as (scalar' & Hsc' & ->).
  assert (scalar' = scalar) as -> by (unfold derive_secp256k1_keypair in *; rewrite Hm in Hsc'; congruence).
  destruct (signed_shape _ _ _ _ Hrs) as [Hlen Hpos]. exists customer, digest, raw, rs, (27 + id), (k256_point scalar).
  split_and!; try done; [lia | by eapply recovers|].
  destruct Ha as (c & key & view & policy & w & w1 & w2 & Hc & Hx). exists c, key, view, policy, w, w1, w2. rewrite <-Hc0, <-Hw0. done.
Qed.
End recovery.
