(* ===== verification/WalletArtifacts.v ===== *)
(** What the wallet's key signs: an artifact is the operation it was asked for, and no two
    purposes share the bytes that are hashed and signed. *)

From S2P Require Export WalletSafety.

(** * Artifacts *)

Section artifacts.
Context `{Unicode} `{AccountIds} `{KeyCrates} `{Crates} `{PolicyCrate} `{SignCrates} {W : Type} `{SignHost W}.
Implicit Types s : SignState W.

(** The receiver and the actions of an operation that is a transaction of [signer]. *)
Definition op_transaction (v : OpView) (signer : string) : option (string * list TxAction) :=
  match v with
  | OpTransfer to amount => d ← parse_u128 amount; Some (to, [TransferOf d])
  | OpCall to method args gas deposit =>
    if is_intents_contract to && existsb (String.eqb method) GATE_ONLY_INTENTS_METHODS then None else
    a ← b64_decode args; g ← parse_u64 gas; d ← parse_u128 deposit; Some (to, [FunctionCallOf method a g d])
  | OpDelete beneficiary => Some (signer, [DeleteAccountTo beneficiary])
  | _ => None
  end.
(** The intent of an operation, by [deadline]. *)
Definition op_intent (v : OpView) (signer deadline : string) : option string :=
  match v with
  | OpWithdraw to amount token => Some (build_withdraw_intent_message signer to amount token deadline)
  | OpIntentsTransfer to amount token => Some (build_transfer_intent_message signer to amount token deadline)
  | OpIntentsStorageDeposit contract account amount =>
    Some (build_storage_deposit_intent_message signer contract account amount deadline)
  | _ => None
  end.

(** The transaction [tx] signed with [signing]. *)
Definition signed_transaction (signing : string) (tx : Transaction) (base64 hash : string) : Prop :=
  ∃ sig, near_signature ("ed25519:" +:+ bs58_text (ed25519_sign signing (tx_get_hash tx))) = Some sig ∧
    base64 = b64_encode (signed_tx_borsh sig tx) ∧ hash = bs58_text (tx_get_hash tx).
(** The NEP-413 message signed with [signing]. *)
Definition signed_message (signing message recipient signature : string) : Prop :=
  ∃ nonce tagged, nep413_bytes message nonce recipient = Some tagged ∧
    signature = "ed25519:" +:+ bs58_text (ed25519_sign signing (sha2_256 tagged)).

(** The artifact is the operation's, made with the wallet's pair. *)
Definition artifact_of (s : SignState W) (customer : option string) (wallet_id : string) (op : Op) (policy : option Policy)
    (signing verifying : string) (a : SignedArtifact) : Prop :=
  match a with
  | SignedTx base64 hash signer nonce _ =>
    signer = hex_of verifying ∧ ∃ key receiver block actions, op_transaction (op_view op) signer = Some (receiver, actions) ∧
      signed_transaction signing (mkTransaction signer key nonce receiver block actions) base64 hash
  | SignedMessage signature public_key message _ recipient =>
    signed_message signing message recipient signature ∧ public_key = "ed25519:" +:+ bs58_text verifying ∧
    match bind_mode op with
    | Built => recipient = INTENTS_NEAR ∧ ∃ deadline,
        op_intent (op_view op) (hex_of verifying) deadline = Some message ∨
        (message = build_jwt_auth_message deadline (hex_of verifying) ∧ ∃ seed, op_view op = OpAuth "jwt" seed None)
    | HashPinned => is_trusted_recipient recipient = false ∧ sign_message_recipient_allowed policy recipient = true ∧
        ∃ hash, op_view op = OpSignMessage hash recipient ∧ eq_ignore_ascii_case (hex_of (sha2_256 message)) hash = true
    | Trusted => is_trusted_recipient recipient = true
    | PolicyUpdateMode => False
    end
  | SignedRaw signature => ∃ chain hash bytes signing' verifying', op_view op = OpRaw chain hash ∧
      eq_ignore_ascii_case (hex_of (sha2_256 bytes)) hash = true ∧
      (to_lowercase chain = "near" ∨ is_solana_chain (to_lowercase chain) = true) ∧
      cached s (customer, wallet_seed is_evm_chain is_solana_chain wallet_id (to_lowercase chain)) (signing', verifying') ∧
      signature = b64_encode (ed25519_sign signing' bytes)
  | SignedAuth message at_ signature public_key => ∃ purpose seed vault, op_view op = OpAuth purpose seed vault ∧ purpose ≠ "jwt" ∧
      build_auth_message purpose seed at_ vault = ROk message ∧ signature = bs58_text (ed25519_sign signing message) ∧
      public_key = "ed25519:" +:+ bs58_text verifying
  end.

Lemma keypair_ok customer wallet_id s kp s' : wallet_keypair customer wallet_id s = (ROk kp, s') →
  cached s' (customer, near_seed wallet_id) kp.
Proof. unfold wallet_keypair. intros (ks' & Hk & ->)%on_keystore_ok. by apply derive_keypair_ok in Hk. Qed.
Lemma account_ok_key customer wallet_id s a s' : wallet_implicit_account customer wallet_id s = (ROk a, s') →
  ∃ sk vk, cached s' (customer, near_seed wallet_id) (sk, vk) ∧ a = hex_of vk.
Proof.
  unfold wallet_implicit_account. intros (vk & s1 & (ks' & Hk & ->)%on_keystore_ok & Hg)%after_ok. injection Hg as <- <-.
  apply public_key_ok in Hk as [sk Hk]. by exists sk, vk.
Qed.
Lemma nep413_ok customer wallet_id m n r s sg pk s' : sign_nep413 customer wallet_id m n r s = (ROk (sg, pk), s') →
  ∃ sk vk, cached s' (customer, near_seed wallet_id) (sk, vk) ∧ signed_message sk m r sg ∧ pk = "ed25519:" +:+ bs58_text vk.
Proof.
  unfold sign_nep413. intros ([sk vk] & s1 & Hk%keypair_ok & (tagged & s2 & [Ht ->]%lift_some & Hg)%after_ok)%after_ok.
  injection Hg as <- <- <-. exists sk, vk. split_and!; [done | by exists n, tagged | done].
Qed.
Lemma response_ok customer wallet_id h m n r s resp s' : message_response customer wallet_id h m n r s = (ROk resp, s') →
  ∃ sk vk sg, cached s' (customer, near_seed wallet_id) (sk, vk) ∧ signed_message sk m r sg ∧
    resp = mkSignResponse h (SignedMessage sg ("ed25519:" +:+ bs58_text vk) m (b64_encode n) r).
Proof.
  unfold message_response. intros ([sg pk] & s1 & (sk & vk & Hk & Hm & ->)%nep413_ok & Hg)%after_ok. injection Hg as <- <-.
  by exists sk, vk, sg.
Qed.
Lemma transaction_ok customer wallet_id h f s resp s' : sign_near_transaction customer wallet_id h f s = (ROk resp, s') →
  ∃ sk vk key receiver block actions nonce base64 hash pk, cached s' (customer, near_seed wallet_id) (sk, vk) ∧
    f (hex_of vk) = ROk (receiver, actions) ∧
    signed_transaction sk (mkTransaction (hex_of vk) key nonce receiver block actions) base64 hash ∧
    resp = mkSignResponse h (SignedTx base64 hash (hex_of vk) nonce pk).
Proof.
  unfold sign_near_transaction. intros (c & s0 & [Hc ->]%the_client_ok & Hr)%after_ok.
  apply after_ok in Hr as ([sk vk] & s1 & Hk%keypair_ok & Hr). apply after_ok in Hr as (u & s2 & [_ ->]%lift_result & Hr).
  apply after_ok in Hr as (key & s3 & [_ ->]%lift_some & Hr). apply after_ok in Hr as ([receiver actions] & s4 & [Hf ->]%lift_result & Hr).
  apply after_ok in Hr as ([n block] & s5 & (w' & _ & ->)%on_world_ok & Hr).
  apply after_ok in Hr as (sig & s6 & [Hs ->]%lift_some & Hg). injection Hg as <- <-.
  eexists sk, vk, key, receiver, block, actions, _, _, _, _. split_and!; [done | done | | done]. by exists sig.
Qed.
Lemma intent_ok c customer wallet_id h build s resp s' : ss_client s = Some c →
  built_intent customer wallet_id h build s = (ROk resp, s') →
  ∃ sk vk sg deadline n, cached s' (customer, near_seed wallet_id) (sk, vk) ∧ signed_message sk (build (hex_of vk) deadline) INTENTS_NEAR sg ∧
    resp = mkSignResponse h (SignedMessage sg ("ed25519:" +:+ bs58_text vk) (build (hex_of vk) deadline) (b64_encode n) INTENTS_NEAR).
Proof.
  intros Hs. unfold built_intent. intros (a & s1 & Ha & Hr)%after_ok.
  destruct (goes_run _ _ _ _ _ (goes_account c _ _) Hs Ha) as [_ Hs1]. apply account_ok_key in Ha as (sk & vk & Hk & ->).
  apply after_ok in Hr as (now & s2 & Hn & Hr). injection Hn as <- <-. apply after_ok in Hr as (n & s3 & Hd & Hr).
  destruct (goes_run _ _ _ _ _ (goes_random c 32) Hs1 Hd) as [G Hs3].
  destruct (goes_run _ _ _ _ _ (goes_response c _ _ _ _ _ _) Hs3 Hr) as [G' _].
  apply response_ok in Hr as (sk' & vk' & sg & Hk' & Hm & ->).
  assert ((sk', vk') = (sk, vk)) as [= -> ->].
  { pose proof (ow_cached _ _ _ G' _ _ (ow_cached _ _ _ G _ _ Hk)) as Hk1. unfold cached in *. congruence. }
  by exists sk, vk, sg, (unix_to_iso8601 (clock_ms (ss_world s1) / 1000 + 300)), n.
Qed.
Lemma jwt_ok c customer wallet_id h v s resp s' : ss_client s = Some c → auth_jwt customer wallet_id h v s = (ROk resp, s') →
  v = None ∧ ∃ sk vk sg deadline n, let m := build_jwt_auth_message deadline (hex_of vk) in
    cached s' (customer, near_seed wallet_id) (sk, vk) ∧ signed_message sk m INTENTS_NEAR sg ∧
    resp = mkSignResponse h (SignedMessage sg ("ed25519:" +:+ bs58_text vk) m (b64_encode n) INTENTS_NEAR).
Proof.
  intros Hs. unfold auth_jwt. case_bool_decide as Hv; [done|]. intros Hr. split; [by destruct v; [destruct Hv|]|].
  apply after_ok in Hr as (c' & s0 & [Hc ->]%the_client_ok & Hr). assert (c' = c) as -> by congruence.
  apply after_ok in Hr as (a & s1 & Ha & Hr). destruct (goes_run _ _ _ _ _ (goes_account c _ _) Hs Ha) as [_ Hs1].
  apply account_ok_key in Ha as (sk & vk & Hk & ->). apply after_ok in Hr as (now & s2 & Hn & Hr). injection Hn as <- <-.
  apply after_ok in Hr as (u & s2 & [_ ->]%lift_result & Hr).
  apply after_ok in Hr as (salt & s3 & Hw & Hr).
  apply on_world_ok in Hw as (w' & Hw & ->). assert (ss_client (set_world w' s1) = Some c) as Hs3 by done.
  apply after_ok in Hr as (hx & s4 & [_ ->]%lift_some & Hr). apply after_ok in Hr as (sb & s5 & [_ ->]%lift_some & Hr).
  apply after_ok in Hr as (st & s6 & [_ ->]%lift_some & Hr). apply after_ok in Hr as (rnd & s7 & Hd & Hr).
  destruct (goes_run _ _ _ _ _ (goes_random c 7) Hs3 Hd) as [G Hs7].
  destruct (goes_run _ _ _ _ _ (goes_response c _ _ _ _ _ _) Hs7 Hr) as [G' _].
  apply response_ok in Hr as (sk' & vk' & sg & Hk' & Hm & ->).
  assert ((sk', vk') = (sk, vk)) as [= -> ->].
  { pose proof (ow_cached _ _ _ G' _ _ (ow_cached _ _ _ G _ _ Hk)) as Hk1. unfold cached in *. congruence. }
  by eexists sk, vk, sg, _, _.
Qed.

Lemma account_from_str_ok a why b : account_from_str a why = ROk b → b = a.
Proof. unfold account_from_str. destruct (account_ok a); [by intros [= ->] | done]. Qed.

(** One operation at a time: what is built. *)
Lemma built_is_op c customer req h policy s resp s' : ss_client s = Some c → bind_mode (wr_op req) = Built →
  sign_built customer req h s = (ROk resp, s') →
  resp_request_hash resp = h ∧ ∃ sk vk, cached s' (customer, near_seed (wr_wallet_id req)) (sk, vk) ∧
    artifact_of s' customer (wr_wallet_id req) (wr_op req) policy sk vk (resp_artifact resp).
Proof.
  intros Hs Hb. unfold sign_built. destruct (op_view (wr_op req)) as [to amount|to method args gas dep|ben|to amount tok|to amount tok|ct acc am|pu sd v|?|?|?|] eqn:Ev;
    cbv zeta; try done.
  - intros (d & ? & [Hd ->]%lift_some & Hr)%after_ok.
    apply transaction_ok in Hr as (sk & vk & key & rc & blk & acts & n & b64 & hs & pk & Hk & Hf & Ht & ->). split; [done|].
    exists sk, vk. split; [done|]. cbn. split; [done|]. exists key, rc, blk, acts. rewrite Ev. cbn. rewrite Hd.
    apply rbind_ok in Hf as (a & ->%account_from_str_ok & [= <- <-]). done.
  - destruct (_ && _) eqn:Eg; [done|]. intros (a & ? & [Ha ->]%lift_some & (g & ? & [Hg ->]%lift_some & (d & ? & [Hd ->]%lift_some & Hr)%after_ok)%after_ok)%after_ok.
    apply transaction_ok in Hr as (sk & vk & key & rc & blk & acts & n & b64 & hs & pk & Hk & Hf & Ht & ->). split; [done|].
    exists sk, vk. split; [done|]. cbn. split; [done|]. exists key, rc, blk, acts. rewrite Ev. cbn. rewrite Eg, Ha. cbn. rewrite Hg. cbn. rewrite Hd.
    apply rbind_ok in Hf as (x & ->%account_from_str_ok & [= <- <-]). done.
  - intros (sk & vk & key & rc & blk & acts & n & b64 & hs & pk & Hk & Hf & Ht & ->)%transaction_ok. split; [done|].
    exists sk, vk. split; [done|]. cbn. split; [done|]. exists key, rc, blk, acts. rewrite Ev. cbn.
    apply rbind_ok in Hf as (x & ->%account_from_str_ok & [= <- <-]). done.
  - intros (sk & vk & sg & dl & n & Hk & Hm & ->)%(intent_ok c); [|done]. split; [done|]. exists sk, vk. split; [done|]. cbn. rewrite Hb, Ev.
    split_and!; [done..|]. exists dl. by left.
  - intros (sk & vk & sg & dl & n & Hk & Hm & ->)%(intent_ok c); [|done]. split; [done|]. exists sk, vk. split; [done|]. cbn. rewrite Hb, Ev.
    split_and!; [done..|]. exists dl. by left.
  - intros Hr. apply after_ok in Hr as (ct' & ? & [_ ->]%lift_result & Hr). apply after_ok in Hr as (acc' & ? & [_ ->]%lift_result & Hr).
    apply after_ok in Hr as (c' & ? & [_ ->]%the_client_ok & Hr). apply after_ok in Hr as (bo & ? & (w1 & _ & ->)%on_world_ok & Hr).
    apply after_ok in Hr as (ba & ? & (w2 & _ & ->)%on_world_ok & Hr). apply after_ok in Hr as (u & ? & [_ ->]%lift_result & Hr).
    apply (intent_ok c) in Hr as (sk & vk & sg & dl & n & Hk & Hm & ->); [|done]. split; [done|]. exists sk, vk. split; [done|]. cbn. rewrite Hb, Ev.
    split_and!; [done..|]. exists dl. by left.
  - destruct (String.eqb_spec pu "jwt") as [->|Hne].
    + intros [-> (sk & vk & sg & dl & n & Hk & Hm & ->)]%(jwt_ok c); [|done]. split; [done|]. exists sk, vk. split; [done|]. cbn. rewrite Hb, Ev.
      split_and!; [done..|]. exists dl. right. split; [done|]. by exists sd.
    + unfold auth_raw. intros (now & s1 & Hn & (m & s2 & [Hm ->]%lift_result & ([sk vk] & s3 & Hk%keypair_ok & Hg)%after_ok)%after_ok)%after_ok.
      injection Hg as <- <-. split; [done|]. exists sk, vk. split; [done|]. cbn. exists pu, sd, v.
      split_and!; [done..| |done|done]. by destruct (build_auth_message pu sd now v); [injection Hm as ->|].
Qed.
Lemma pinned_is_op c customer req h policy s resp s' sk vk : ss_client s = Some c → bind_mode (wr_op req) = HashPinned →
  cached s (customer, near_seed (wr_wallet_id req)) (sk, vk) →
  sign_hash_pinned customer req policy h s = (ROk resp, s') →
  resp_request_hash resp = h ∧ artifact_of s' customer (wr_wallet_id req) (wr_op req) policy sk vk (resp_artifact resp).
Proof.
  intros Hs Hb Hk. unfold sign_hash_pinned. destruct (op_view (wr_op req)) as [| | | | | | |chain ph|mh rc| |] eqn:Ev; cbv zeta; try done.
  - intros (b64 & ? & [_ ->]%lift_some & (bytes & ? & [_ ->]%lift_some & Hr)%after_ok)%after_ok.
    destruct (eq_ignore_ascii_case _ _) eqn:Eh; cbn in Hr; [|done]. destruct (is_evm_chain _); [done|].
    destruct (negb _ && negb _) eqn:Ec; [done|]. apply after_ok in Hr as (sg & s2 & (ks' & Hsg & ->)%on_keystore_ok & Hg). injection Hg as <- <-.
    split; [done|]. apply after_ok in Hsg as ([sk' vk'] & ks1 & Hd%derive_keypair_ok & Hg). injection Hg as <- <-.
    exists chain, ph, bytes, sk', vk'. split_and!; [done..| |done|done].
    apply andb_false_iff in Ec as [Ec|Ec]; apply negb_false_iff in Ec; [left; by apply String.eqb_eq in Ec | by right].
  - destruct (is_trusted_recipient rc) eqn:Et; [done|]. destruct (sign_message_recipient_allowed policy rc) eqn:Ea; cbn [negb]; [|done].
    intros (art & ? & [_ ->]%lift_some & (m & ? & [_ ->]%lift_some & (n64 & ? & [_ ->]%lift_some & Hr)%after_ok)%after_ok)%after_ok.
    destruct (eq_ignore_ascii_case _ _) eqn:Eh; cbn [negb] in Hr; [|done]. apply after_ok in Hr as (nonce & ? & [_ ->]%lift_some & Hr).
    destruct (negb _); [done|]. apply after_ok in Hr as ([sg pk] & s1 & Hn & Hg). injection Hg as <- <-. split; [done|].
    destruct (goes_run _ _ _ _ _ (goes_nep413 c _ _ _ _ _) Hs Hn) as [G _]. apply nep413_ok in Hn as (sk' & vk' & Hk' & Hm & ->).
    pose proof (ow_cached _ _ _ G _ _ Hk) as Hk1. assert ((sk', vk') = (sk, vk)) as [= -> ->] by (unfold cached in *; congruence).
    cbn. rewrite Hb. split_and!; [done..|]. by exists mh.
Qed.
Lemma trusted_is_op c customer req h policy s resp s' sk vk : ss_client s = Some c → bind_mode (wr_op req) = Trusted →
  cached s (customer, near_seed (wr_wallet_id req)) (sk, vk) →
  sign_trusted customer req h s = (ROk resp, s') →
  resp_request_hash resp = h ∧ artifact_of s' customer (wr_wallet_id req) (wr_op req) policy sk vk (resp_artifact resp).
Proof.
  intros Hs Hb Hk. unfold sign_trusted. intros (art & ? & [_ ->]%lift_some & (m & ? & [_ ->]%lift_some &
    (n64 & ? & [_ ->]%lift_some & (rc & ? & [_ ->]%lift_some & Hr)%after_ok)%after_ok)%after_ok)%after_ok.
  destruct (is_trusted_recipient rc) eqn:Et; cbn [negb] in Hr; [|done]. apply after_ok in Hr as (nonce & ? & [_ ->]%lift_some & Hr).
  destruct (negb _); [done|]. apply after_ok in Hr as ([sg pk] & s1 & Hn & Hg). injection Hg as <- <-. split; [done|].
  destruct (goes_run _ _ _ _ _ (goes_nep413 c _ _ _ _ _) Hs Hn) as [G _]. apply nep413_ok in Hn as (sk' & vk' & Hk' & Hm & ->).
  pose proof (ow_cached _ _ _ G _ _ Hk) as Hk1. assert ((sk', vk') = (sk, vk)) as [= -> ->] by (unfold cached in *; congruence).
  cbn. by rewrite Hb.
Qed.

End artifacts.
