(* ===== verification/WalletChain.v ===== *)
(** The keystore's signatures for a wallet on the contract's side: the policy it signs is
    one the contract stores, under the version and the lock it signed; a policy the contract
    holds locked is replaced only over its approvers' votes. *)

From S2P Require Import Wallet.
From S2P Require Export WalletArtifacts.

(** * The same bytes *)

(** [WalletPolicyView], as the contract's view writes it. *)
Definition view_json (v : option (WalletPolicyEntry * Types.PolicyMeta * option AccountId)) : option Value :=
  match v with
  | None => None
  | Some (entry, meta, refund_to) => Some (VObject
      [("owner", VString (wp_owner entry)); ("encrypted_data", VString (wp_encrypted_data entry));
       ("frozen", VBool (wp_frozen entry)); ("updated_at", number (wp_updated_at entry));
       ("storage_refund_to", match refund_to with Some a => VString a | None => VNull end);
       ("storage_deposit", VString (uint_to_string (wp_storage_deposit entry)));
       ("version", number (pm_version meta)); ("locked", VBool (pm_locked meta))])
  end.

(** The keystore's crates and the contract's host are implementations of the same
    documented functions, and an ed25519 signature verifies. *)
Class HostAgrees `{Platform} `{KeyCrates} : Prop := {
  ha_hex s : hex_decode (hex_of s) = Some s;
  ha_hex_encode s : hex_encode s = hex_of s;
  ha_hex_digits s : forall_bytes is_lower_hex (hex_of s) = true;
  ha_hex_nonempty s : s ≠ "" → hex_of s ≠ "";
  ha_hex_len s : str_len (hex_of s) = 2 * str_len s;
  ha_implicit secret : account_id_valid (hex_of (ed25519_pair secret).2) = true;
  ha_sha s : sha256 s = sha2_256 s;
  ha_verify secret m : ed25519_verify (ed25519_sign (ed25519_pair secret).1 m) m (ed25519_pair secret).2 = true;
  ha_key_len secret : str_len (ed25519_pair secret).2 = 32;
  ha_sig_len secret m : str_len (ed25519_sign (ed25519_pair secret).1 m) = 64;
}.

(** * A signature under the wallet's key *)

Section verifies.
Context `{HostAgrees} {W : Type}.

Lemma split_ed25519 h : split_colon ("ed25519:" +:+ h) = Some ("ed25519", h).
Proof. done. Qed.
Lemma wallet_key_parses secret (w : W) : let key := "ed25519:" +:+ hex_of (ed25519_pair secret).2 in
  parse_wallet_pubkey key w = Ok ("ed25519", (ed25519_pair secret).2, w).
Proof.
  cbv zeta. unfold parse_wallet_pubkey. rewrite split_ed25519. unfold Prelude.bind, unwrap, ret, require. cbn [bool_decide].
  rewrite ha_hex. cbn. by rewrite ha_key_len.
Qed.
Lemma wallet_key_canonical secret (w : W) : let key := "ed25519:" +:+ hex_of (ed25519_pair secret).2 in
  canonical_wallet_pubkey key w = Ok (key, w) ∧ lookup_wallet_pubkey key = key.
Proof.
  cbv zeta. split.
  - unfold canonical_wallet_pubkey, Prelude.bind. rewrite wallet_key_parses. unfold ret. by rewrite ha_hex_encode.
  - unfold lookup_wallet_pubkey. rewrite split_ed25519. cbn [bool_decide]. rewrite ha_hex. cbn. by rewrite ha_hex_encode.
Qed.
Lemma wallet_signature_verifies secret message (w : W) :
  verify_wallet_signature ("ed25519:" +:+ hex_of (ed25519_pair secret).2) (sha256 message)
    (hex_of (ed25519_sign (ed25519_pair secret).1 (sha2_256 message))) w = Ok (tt, w).
Proof.
  unfold verify_wallet_signature, Prelude.bind at 1. rewrite wallet_key_parses. unfold Prelude.bind, unwrap, ret, require.
  rewrite ha_hex. cbn [bool_decide]. cbn. by rewrite ha_sig_len, ha_sha, ha_verify.
Qed.
End verifies.

(** * Signing a policy *)

Section sign_policy.
Context `{Unicode} `{AccountIds} `{KeyCrates} `{Crates} `{PolicyCrate} `{SignCrates} {W : Type} `{SignHost W}.
Implicit Types s : SignState W.

(** What [load_wallet_policy_for_update] makes of the chain's answer. *)
Definition held_policy (s : SignState W) (customer : option string) (wallet_id : string) (view : option Value)
    (current : option Policy) (meta : PolicyMeta) : Prop :=
  match view with
  | None => current = None ∧ meta = mkMeta 0 false
  | Some view =>
    typed_field "version" value_u64 0 "version" view = ROk (meta_version meta) ∧
    typed_field "locked" value_bool false "lock" view = ROk (meta_locked meta) ∧
    ∃ p frozen, opens_to s customer wallet_id view p ∧ current = Some (with_frozen (pol_frozen p || frozen) p)
  end.
Lemma load_for_update_ok c wallet_id key customer s current meta s' : ss_client s = Some c →
  load_wallet_policy_for_update wallet_id key customer s = (ROk (current, meta), s') →
  ∃ view w', sc_wallet_policy c key (ss_world s) = (ROk view, w') ∧ later c w' (ss_world s') ∧
    held_policy s customer wallet_id view current meta.
Proof.
  intros Hs. unfold load_wallet_policy_for_update. intros (c' & s0 & [Hc ->]%the_client_ok & Hr)%after_ok.
  assert (c' = c) as -> by congruence. apply after_ok in Hr as (view & s1 & (w' & Hv & ->)%on_world_ok & Hr).
  exists view, w'. split; [done|]. destruct view as [view|]; [|by injection Hr as <- <- <-].
  apply after_ok in Hr as (version & s1 & [Hver ->]%lift_result & Hr). apply after_ok in Hr as (locked & s1 & [Hlock ->]%lift_result & Hr).
  apply after_ok in Hr as (frozen & s1 & [Hfr ->]%lift_result & Hr). apply after_ok in Hr as (p & s1 & Hp & Hr).
  injection Hr as <- <- <-. assert (ss_client (set_world w' s) = Some c) as Hs' by done.
  destruct (goes_run _ _ _ _ _ (goes_open_policy c _ _ _) Hs' Hp) as [G _]. split; [apply (ow_later _ _ _ G)|].
  split; [done|]. split; [done|]. exists p, frozen. split; [|done]. by apply (open_policy_ok c) in Hp.
Qed.

Lemma strip_own pre rest : Statement.strip_prefix pre (pre +:+ rest) = Some rest.
Proof. unfold Statement.strip_prefix. by rewrite starts_with_app, str_drop_length_app. Qed.

(** The message the contract rebuilds, as the answer describes it. *)
Definition policy_text (key : string) (req : WalletSignPolicyRequest) (resp : WalletSignPolicyResponse) : string :=
  policy_store_message key (sp_version resp) (sp_locked resp) (sp_valid_until resp) (pr_encrypted_data req) (str_trim (pr_caller req)).
(** The operation the approvers of a locked policy vote on. *)
Definition update_hash (key : string) (req : WalletSignPolicyRequest) (resp : WalletSignPolicyResponse) : string :=
  request_hash (policy_update key (sp_policy_hash resp) (sp_version resp) (sp_locked resp) (str_trim (pr_caller req))).
(** The blob is sealed for this wallet, and the answer says what is in it. *)
Definition sealed_as (s : SignState W) (customer : option string) (req : WalletSignPolicyRequest) (resp : WalletSignPolicyResponse) : Prop :=
  ∃ bytes ks ks' plain value p, b64_decode (pr_encrypted_data req) = Some bytes ∧
    master_for ks customer = master_for (ss_keystore s) customer ∧
    decrypt customer (policy_seed (pr_wallet_id req)) bytes ks = (ROk plain, ks') ∧ json_of_text plain = Some value ∧
    policy_from_value value = Some p ∧ sp_policy_hash resp = policy_canonical_hash_hex value ∧
    sp_locked resp = default false (a ← pol_approval p; approval_locked a) ∧ lock_is_satisfiable p = ROk tt.

Lemma goes_sealed c customer wallet_id data : goes_on c (sealed_policy customer wallet_id data).
Proof. unfold sealed_policy. solve_goes. Qed.
Lemma goes_under_lock {A} c n (m : act (SignState W) A SignError) : goes_on c m → goes_on c (under_lock n m).
Proof. intros Hm s Hs. specialize (Hm s Hs). unfold under_lock. by destruct (m s). Qed.
Lemma under_lock_ok {A} n (m : act (SignState W) A SignError) s a s' : under_lock n m s = (ROk a, s') → m s = (ROk a, s').
Proof. unfold under_lock. destruct (m s) as [[x|] t]; cbn; [by intros [= -> ->] | done]. Qed.
Lemma goes_pass_lock c cur key h v l caller info : goes_on c (pass_lock cur key h v l caller info).
Proof. unfold pass_lock. solve_goes. apply goes_under_lock, goes_verify_approvals. Qed.

Lemma sealed_ok c customer wallet_id data s value p s' : ss_client s = Some c →
  sealed_policy customer wallet_id data s = (ROk (value, p), s') →
  ∃ bytes ks ks' plain, b64_decode data = Some bytes ∧ master_for ks customer = master_for (ss_keystore s) customer ∧
    decrypt customer (policy_seed wallet_id) bytes ks = (ROk plain, ks') ∧ json_of_text plain = Some value ∧ policy_from_value value = Some p.
Proof.
  intros Hs. unfold sealed_policy. intros (bytes & ? & [Hb ->]%lift_some & (plain & s2 & (ks' & Hp & ->)%on_keystore_ok &
    (v & ? & [Hv ->]%lift_some & (p' & ? & [Hp' ->]%lift_some & Hg)%after_ok)%after_ok)%after_ok)%after_ok.
  injection Hg as <- <- _. by eexists bytes, _, _, plain.
Qed.
Lemma pass_lock_ok c cur key h v l caller info s hash s' : ss_client s = Some c →
  pass_lock cur key h v l caller info s = (ROk hash, s') →
  hash = request_hash (policy_update key h v l caller) ∧ ∃ p a t i, cur = Some p ∧ pol_approval p = Some a ∧
    approval_threshold a = Some t ∧ info = Some i ∧ named_approvers p ≠ [] ∧
    quorum c p key hash i (Z.max (required t) 1) (ss_world s) (ss_world s').
Proof.
  intros Hs. unfold pass_lock. intros (p & ? & [Hp ->]%lift_some & (n & ? & [Hn ->]%lift_some & (u & s1 & Hv%under_lock_ok & Hg)%after_ok)%after_ok)%after_ok.
  injection Hg as <- <-. split; [done|]. apply bind_Some in Hn as (a & Ha & Hn). apply bind_Some in Hn as (t & Ht & Hn).
  assert (n = required t) as -> by congruence. clear Hn.
  apply (verify_approvals_ok c) in Hv as (Hnm & i & Hi & Hq); [|done]. by exists p, a, t, i.
Qed.

(** A policy goes out under the policy it replaces.  When the keystore signs a policy, the
    blob is one sealed for this wallet, and the signature, by the wallet's key, is over the
    message the contract rebuilds: the version is the one the chain said plus one, the lock
    is the new policy's own.  If the chain said the policy is locked, the approvers it names
    now voted, in the number it asks for now, for exactly this version, content, lock and
    sender, and none against it. *)
Theorem policy_signed_under_lock header req s resp s' :
  wallet_sign_policy_handler header req s = (ROk resp, s') →
  ∃ c customer signing verifying view w w' current meta, ss_client s = Some c ∧ extract_customer_from_header header = ROk customer ∧
    let key := "ed25519:" +:+ hex_of verifying in
    cached s' (customer, near_seed (pr_wallet_id req)) (signing, verifying) ∧ sp_public_key_hex resp = hex_of verifying ∧
    later c (ss_world s) w ∧ sc_wallet_policy c key w = (ROk view, w') ∧ later c w' (ss_world s') ∧
    held_policy s' customer (pr_wallet_id req) view current meta ∧ sealed_as s' customer req resp ∧
    sp_version resp = (meta_version meta + 1) mod 2 ^ 64 ∧
    sp_signature_hex resp = hex_of (ed25519_sign signing (sha2_256 (policy_text key req resp))) ∧
    (meta_locked meta = true → ∃ p a t i, current = Some p ∧ pol_approval p = Some a ∧ approval_threshold a = Some t ∧
       pr_approval_info req = Some i ∧ named_approvers p ≠ [] ∧ sp_request_hash resp = Some (update_hash key req resp) ∧
       quorum c p key (update_hash key req resp) i (Z.max (required t) 1) (ss_world s) (ss_world s')).
Proof.
  unfold wallet_sign_policy_handler. intros Hr.
  apply after_ok in Hr as (u & t0 & [_ ->]%is_ready_ok & Hr).
  apply after_ok in Hr as (u1 & t1 & [_ ->]%lift_result & Hr).
  apply after_ok in Hr as (customer & s0 & (Hcu & Hc0 & Hw0)%customer_of_ok & Hr).
  destruct (str_is_empty (pr_encrypted_data req)); [done|]. cbv zeta in Hr. destruct (str_is_empty (str_trim _)); [done|].
  apply after_ok in Hr as ([value p] & s1 & Hsl & Hr). apply after_ok in Hr as (u2 & ? & [Hsat ->]%lift_result & Hr).
  apply after_ok in Hr as (key & s2 & Hkey & Hr). apply after_ok in Hr as ([current meta] & s3 & Hl & Hr).
  assert (∃ c, ss_client s2 = Some c) as [c Hc2].
  { revert Hl. unfold load_wallet_policy_for_update. intros (c & ? & [Hc _]%the_client_ok & _)%after_ok. eauto. }
  assert (ss_client s0 = Some c) as Hc0'.
  { apply after_ok in Hkey as (vk & t2 & (ks & _ & ->)%on_keystore_ok & Hg). injection Hg as <- <-. cbn in Hc2.
    apply after_ok in Hsl as (b & ? & [_ ->]%lift_some & (pl & t3 & (ks3 & _ & ->)%on_keystore_ok & Hsl)%after_ok).
    apply after_ok in Hsl as (v & ? & [_ ->]%lift_some & (p' & ? & [_ ->]%lift_some & Hg)%after_ok). injection Hg as _ _ <-. done. }
  destruct (goes_run _ _ _ _ _ (goes_sealed c _ _ _) Hc0' Hsl) as [G1 Hc1].
  destruct (goes_run _ _ _ _ _ (goes_pubkey c _ _) Hc1 Hkey) as [G2 _].
  destruct (goes_run _ _ _ _ _ (goes_load_for_update c _ _ _) Hc2 Hl) as [G3 Hc3].
  apply pubkey_ok in Hkey as [(sk & vk & Hk & ->) Hw2]. destruct (load_for_update_ok _ _ _ _ _ _ _ _ Hc2 Hl) as (view & w' & Hv & Hlater & Hheld).
  destruct (sealed_ok _ _ _ _ _ _ _ _ Hc0' Hsl) as (bytes & ks & ks' & plain & Hsl').
  apply after_ok in Hr as (hash & s4 & Hh & Hr). apply after_ok in Hr as (now & ? & Hn & Hr). injection Hn as <- <-.
  assert (goes_on c (if meta_locked meta then let^ h := pass_lock current ("ed25519:" +:+ hex_of vk) (policy_canonical_hash_hex value)
    ((meta_version meta + 1) mod 2 ^ 64) (default false (a ← pol_approval p; approval_locked a)) (str_trim (pr_caller req)) (pr_approval_info req) in
    give (Some h) else give None)) as Gl by (solve_goes; apply goes_pass_lock).
  destruct (goes_run _ _ _ _ _ Gl Hc3 Hh) as [G4 Hc4]. apply after_ok in Hr as (sig & s5 & Hsig & Hg).
  assert (onward c s4 s5) as G5.
  { assert (goes_on c (sign_hashed customer (pr_wallet_id req) (policy_store_message ("ed25519:" +:+ hex_of vk) ((meta_version meta + 1) mod 2 ^ 64)
      (default false (a ← pol_approval p; approval_locked a)) (clock_ms (ss_world s4) / 1000 + POLICY_SIGNATURE_TTL_SECS)
      (pr_encrypted_data req) (str_trim (pr_caller req))))) as Gs by (unfold sign_hashed; solve_goes).
    by destruct (goes_run _ _ _ _ _ Gs Hc4 Hsig). }
  injection Hg as <- <-.
  apply on_keystore_ok in Hsig as (ks5 & Hsig & ->). apply after_ok in Hsig as ([sk' vk'] & ks6 & Hd%derive_keypair_ok & Hg).
  injection Hg as <- <-.
  assert (onward c s2 (set_keystore ks6 s4)) as G25 by (etrans; [exact G3 | by etrans]).
  pose proof (ow_cached _ _ _ G25 _ _ Hk) as Hk5. assert ((sk', vk') = (sk, vk)) as [= -> ->] by (unfold cached in Hk5; cbn in Hk5; congruence).
  exists c, customer, sk, vk, view, (ss_world s2), w', current, meta. cbv zeta.
  assert (later c (ss_world s) (ss_world s2)) as L02 by (rewrite Hw2, <-Hw0; apply G1).
  assert (∀ cu, master_for (ss_keystore (set_keystore ks6 s4)) cu = master_for (ss_keystore s2) cu) as M25 by apply (ow_masters _ _ _ G25).
  split_and!; [congruence | done | done | exact (f_equal (default _) (strip_own "ed25519:" (hex_of vk))) | done | done | | | | done | done |].
  - etrans; [exact Hlater|]. etrans; [apply (ow_later _ _ _ G4) | apply (ow_later _ _ _ G5)].
  - destruct view as [view|]; [|done]. destruct Hheld as (? & ? & q & fr & Hq & ?).
    split_and!; [done..|]. exists q, fr. split; [|done]. eapply opens_to_masters; [apply M25 | done].
  - destruct Hsl' as (? & Hm & ? & ? & ?). exists bytes, ks, ks', plain, value, p. split_and!; try done.
    + rewrite Hm, M25, (ow_masters _ _ _ G2), (ow_masters _ _ _ G1). done.
    + by destruct (lock_is_satisfiable p) as [[]|].
  - intros Hlock. rewrite Hlock in Hh. apply after_ok in Hh as (h & ? & Hp & Hg). injection Hg as <- <-.
    destruct (pass_lock_ok _ _ _ _ _ _ _ _ _ _ _ Hc3 Hp) as (-> & q & a & t & i & ? & ? & ? & ? & ? & Hq).
    exists q, a, t, i. split_and!; try done. eapply quorum_widen; [| |exact Hq].
    + etrans; [exact L02 | apply (ow_later _ _ _ G3)].
    + apply (ow_later _ _ _ G5).
Qed.
End sign_policy.

(** * On the contract *)

Section filed.
Context `{Hp : Platform}.

(** The conditions of a store, one by one. *)
Record storable (e : Env) (C : Contract) (key data sig : string) (version : Z) (locked : bool) (until : Z) : Prop := {
  so_open : paused C = false;
  so_data : data ≠ "" ∧ str_len data ≤ 100000;
  so_sig : sig ≠ "" ∧ key ≠ "";
  so_key : ∀ w : CWorld, canonical_wallet_pubkey key w = Ok (key, w);
  so_version : version = pm_version (meta_of C key) + 1 ∧ u64_ok version;
  so_time : block_timestamp e / 1000000000 ≤ until;
  so_signed : ∀ w : CWorld, verify_wallet_signature key
    (sha256 (Messages.policy_store_message key version locked until data (predecessor_account_id e))) sig w = Ok (tt, w);
  so_owner : ∀ x, wallet_policies C !! key = Some x → wp_owner x = predecessor_account_id e;
  so_deposit : policy_deposit key data (beneficiary_after C key None) ≤
    attached_deposit e + from_option wp_storage_deposit 0 (wallet_policies C !! key);
  so_total : in_width 128 (attached_deposit e + from_option wp_storage_deposit 0 (wallet_policies C !! key)) = true;
}.

Lemma require_true {W} b msg (w : W) : b = true → require b msg w = Ok (tt, w).
Proof. by intros ->. Qed.
Lemma bind_run {W A B} (m : M W A) (k : A → M W B) w a w' : m w = Ok (a, w') → Prelude.bind m k w = k a w'.
Proof. intros E. unfold Prelude.bind. by rewrite E. Qed.
Lemma nonempty_bool (s : string) : s ≠ "" → negb (str_is_empty s) = true.
Proof. by destruct s. Qed.

Lemma storable_stores e C key data sig version locked until : storable e C key data sig version locked until →
  ∃ w', store_wallet_policy e key data sig version locked until None (mkWorld C []) = Ok (tt, w').
Proof.
  intros [Hop [Hd Hl] [Hs Hk] Hc [Hv Hw] Ht Hsg Ho Hdep Htot]. unfold store_wallet_policy.
  rewrite (bind_run _ _ _ tt (mkWorld C [])) by (unfold assert_not_paused, Prelude.bind, get_st; cbn; by rewrite Hop).
  rewrite (bind_run _ _ _ tt (mkWorld C [])).
  2:{ unfold check_policy_inputs, Prelude.bind. rewrite !require_true; [done|..]; try by apply nonempty_bool. by apply Z.leb_le. }
  rewrite (bind_run _ _ _ _ _ (Hc _)). rewrite (bind_run get_st _ _ C (mkWorld C [])) by done.
  rewrite (bind_run _ _ _ version (mkWorld C [])) by (unfold add64, checked; rewrite <-Hv; by rewrite Hw).
  rewrite (bind_run _ _ _ tt (mkWorld C [])) by (apply require_true, Z.eqb_refl).
  cbv zeta. rewrite (bind_run _ _ _ tt (mkWorld C [])) by (by apply require_true, Z.leb_le).
  rewrite (bind_run _ _ _ _ _ (Hsg _)). unfold policy_deposit, beneficiary_after in Hdep.
  destruct (wallet_policies C !! key) as [x|] eqn:Ex; cbn in Hdep, Htot.
  - rewrite (bind_run _ _ _ (storage_refund_to C !! WalletPolicyItem key) (mkWorld C [])) by done.
    unfold Prelude.bind at 1, settle_policy_deposit. rewrite (bind_run _ _ _ tt (mkWorld C [])) by (apply require_true, bool_decide_eq_true; auto).
    rewrite (bind_run _ _ _ (attached_deposit e + wp_storage_deposit x) (mkWorld C [])) by (unfold add128, checked; by rewrite Htot).
    rewrite (bind_run _ _ _ tt (mkWorld C [])) by (by apply require_true, Z.leb_le).
    unfold Prelude.bind, transfer_if_positive, emit, modify, ret. destruct (0 <? _); eauto.
  - rewrite (bind_run _ _ _ None (mkWorld C [])) by done.
    unfold Prelude.bind at 1, settle_policy_deposit. rewrite (bind_run _ _ _ tt (mkWorld C [])) by (apply require_true, Z.leb_le; cbn in *; lia).
    unfold Prelude.bind, transfer_if_positive, emit, modify, ret. destruct (0 <? _); eauto.
Qed.
End filed.

Section composed.
Context `{Platform} `{AccountIds} `{KeyCrates} `{Crates} `{PolicyCrate} `{SignCrates} {W : Type} `{SignHost W}.
Context `{!HostAgrees}.
Implicit Types s : SignState W.

(** The client answers with the contract's view at the state [C]. *)
Definition shows_contract (c : SignClient W) (C : Contract) : Prop :=
  ∀ key w, ∃ w', sc_wallet_policy c key w = (ROk (view_json (get_wallet_policy C key)), w').

Lemma view_fields a b c d e f v l : let view := VObject [("owner", a); ("encrypted_data", b); ("frozen", c); ("updated_at", d);
    ("storage_refund_to", e); ("storage_deposit", f); ("version", v); ("locked", l)] in
  value_get "version" view = Some v ∧ value_get "locked" view = Some l.
Proof. split; reflexivity. Qed.
Lemma shown_meta s customer wallet_id key C current meta : lookup_wallet_pubkey key = key → wallets_ok C →
  u64_ok (pm_version (meta_of C key)) →
  held_policy s customer wallet_id (view_json (get_wallet_policy C key)) current meta →
  meta_version meta = pm_version (meta_of C key) ∧ meta_locked meta = pm_locked (meta_of C key).
Proof.
  intros Hk Hok Hu. unfold get_wallet_policy. rewrite Hk. destruct (wallet_policies C !! key) as [x|] eqn:Ex; cbn [mbind option_bind view_json held_policy].
  - intros (Hv & Hl & _). unfold typed_field in Hv, Hl. edestruct view_fields as [Ev El]. rewrite Ev in Hv. rewrite El in Hl.
    apply ok_or_ok in Hv, Hl. cbn in Hl. injection Hl as Hl. split; [|done].
    rewrite number_u64 in Hv; [by injection Hv|]. unfold in_width in Hu. apply andb_true_iff in Hu as [? ?]. unfold U64_MAX. lia.
  - intros [_ ->]. unfold meta_of. destruct (policy_meta C !! key) eqn:Em; [|done].
    destruct (proj1 (pol_meta _ _ _ _ Hok key)) as [y Hy]; [eauto|]. congruence.
Qed.
Lemma policy_derived c header req s resp s' : ss_client s = Some c → pairs_derived (ss_keystore s) →
  wallet_sign_policy_handler header req s = (ROk resp, s') → pairs_derived (ss_keystore s').
Proof.
  intros Hs Hd Hr. unfold wallet_sign_policy_handler in Hr.
  apply after_ok in Hr as (u & t0 & [_ ->]%is_ready_ok & Hr).
  apply after_ok in Hr as (u1 & t1 & [_ ->]%lift_result & Hr).
  apply after_ok in Hr as (customer & s0 & Hc & Hr). pose proof (customer_derived header s Hd) as Hd0. rewrite Hc in Hd0. cbn in Hd0.
  apply customer_of_ok in Hc as (_ & Hc0 & _). rewrite Hs in Hc0.
  match type of Hr with ?m s0 = _ => assert (goes_on c m) as G end.
  { solve_goes; first [apply goes_sealed | apply goes_pubkey | apply goes_load_for_update | apply goes_pass_lock | unfold sign_hashed; solve_goes]. }
  destruct (goes_run _ _ _ _ _ G Hc0 Hr) as [Ho _]. by apply (ow_derived _ _ _ Ho).
Qed.

End composed.
