(* ===== verification/WalletSecrets.v ===== *)
(** The secrets of an agent, signed by the keystore and stored by the contract; and the
    bytes a Solana wallet signs as a message. *)

From S2P Require Import Secrets.
From S2P Require Export WalletChain.

(** * An agent's secret *)

Section agent_secrets.
Context `{Platform} `{AccountIds} `{KeyCrates} `{Crates} `{PolicyCrate} `{SignCrates} {W : Type} `{SignHost W}.
Context `{!HostAgrees}.
Implicit Types s : SignState W.

(** The contract's name for the target of a request. *)
Definition accessor_of (target : AgentSecretTarget) : SecretAccessor :=
  match target with TargetProject project_id => AccProject project_id | TargetWasmHash hash => AccWasmHash hash end.
Lemma binding_agrees target : accessor_binding (accessor_of target) = target_binding target.
Proof. by destruct target. Qed.

Lemma lower_hex_char b : is_lower_hex b = true → b < 128 ∧ is_ascii_alphanumeric b = true ∧ b ≠ ch_colon.
Proof. unfold is_lower_hex, is_ascii_alphanumeric, is_ascii_lower, is_ascii_upper, is_ascii_digit, in_range, ch_colon. lia. Qed.
Lemma hex_chars (x : string) : forall_bytes is_lower_hex x = true → str_chars x = str_bytes x ∧ has_byte ch_colon x = false ∧
  forallb (λ c, char_is_alphanumeric c || (c =? ch_dash) || (c =? ch_underscore)) (str_bytes x) = true.
Proof.
  induction x as [|a x IH]; [done|]. cbn [forall_bytes]. intros [Ha%lower_hex_char Hs]%andb_true_iff.
  destruct (IH Hs) as (Hc & Hn & Hf). destruct Ha as (Hlt & Hal & Hne). unfold str_chars, str_bytes in *. cbn. split_and!.
  - destruct (Z.ltb_spec (byte_of a) 128); [|lia]. by rewrite Hc.
  - rewrite Hn. by destruct (Z.eqb_spec (byte_of a) ch_colon).
  - rewrite Hf. unfold char_is_alphanumeric. destruct (Z.ltb_spec (byte_of a) 128); [|lia]. by rewrite Hal.
Qed.
(** The account of a wallet is a name the contract takes for a profile. *)
Lemma agent_profile {V} secret (w : V) : let agent := hex_of (ed25519_pair secret).2 in
  assert_profile_shape agent w = Ok (tt, w) ∧ has_byte ch_colon agent = false.
Proof.
  cbv zeta. destruct (hex_chars _ (ha_hex_digits (ed25519_pair secret).2)) as (Hc & Hn & Hf). split; [|done].
  unfold assert_profile_shape, profile_shape_error. rewrite ha_hex_len, ha_key_len. cbn. by rewrite Hc, Hf.
Qed.

Lemma account_step customer wallet_id s a s' : wallet_implicit_account customer wallet_id s = (ROk a, s') →
  ∃ vk, get_public_key_for_seed customer (near_seed wallet_id) (ss_keystore s) = (ROk vk, ss_keystore s').
Proof. unfold wallet_implicit_account. intros (vk & s1 & (ks' & Hk & ->)%on_keystore_ok & Hg)%after_ok. injection Hg as _ <-. eauto. Qed.
Lemma adds_run {A E} (m : act Keystore A E) ks r ks' : (∀ ks, adds_only ks (m ks).2) → m ks = (r, ks') → adds_only ks ks'.
Proof. intros Hm E'. specialize (Hm ks). by rewrite E' in Hm. Qed.
(** What the keystore signed, and with which pair. *)
Lemma secret_store_ok header req s resp s' : pairs_derived (ss_keystore s) →
  wallet_sign_secret_store_handler header req s = (ROk resp, s') →
  ∃ customer target secret bytes ks ks' plain text, extract_customer_from_header header = ROk customer ∧
    from_fields (sr_project_id req) (sr_wasm_hash req) = ROk target ∧
    sg_agent_account resp = hex_of (ed25519_pair secret).2 ∧ sg_wallet_pubkey resp = "ed25519:" +:+ sg_agent_account resp ∧
    b64_decode (sr_encrypted req) = Some bytes ∧ master_for ks customer = master_for (ss_keystore s') customer ∧
    decrypt customer (target_seed target (sg_agent_account resp)) bytes ks = (ROk plain, ks') ∧
    condition_text (sr_access req) = Some text ∧
    sg_signature_hex resp = hex_of (ed25519_sign (ed25519_pair secret).1 (sha2_256
      (secret_store_message (sg_wallet_pubkey resp) (target_binding target) (sg_agent_account resp) (sr_encrypted req)
         (str_trim (sr_payer req)) (default "" (sr_vault_id req)) text))).
Proof.
  intros Hd Hr. unfold wallet_sign_secret_store_handler in Hr.
  apply after_ok in Hr as (u & t0 & [_ ->]%is_ready_ok & Hr).
  apply after_ok in Hr as (u1 & t1 & [_ ->]%lift_result & Hr).
  apply after_ok in Hr as (customer & s0 & Hc & Hr). pose proof (customer_derived header s Hd) as Hd0. rewrite Hc in Hd0. cbn in Hd0.
  apply customer_of_ok in Hc as (Hcu & _). destruct (str_is_empty _); [done|].
  apply after_ok in Hr as (target & ? & [Ht ->]%lift_result & Hr). destruct (str_is_empty _); [done|].
  apply after_ok in Hr as (agent & s1 & Ha & Hr). destruct (account_step _ _ _ _ _ Ha) as [vk0 [_ A1]%(adds_run _ _ _ _ (public_adds _ _))].
  apply account_ok_key in Ha as (sk & vk & Hk & ->). apply after_ok in Hr as (bytes & ? & [Hb ->]%lift_some & Hr).
  apply after_ok in Hr as (plain & s2 & (ks2 & Hp & ->)%on_keystore_ok & Hr). apply after_ok in Hr as (shape & ? & [_ ->]%lift_some & Hr).
  apply after_ok in Hr as (u3 & ? & [_ ->]%lift_result & Hr). apply after_ok in Hr as (text & ? & [Htx ->]%lift_some & Hr).
  apply after_ok in Hr as (sig & s3 & (ks3 & Hs & ->)%on_keystore_ok & Hg). injection Hg as <- <-.
  pose proof (adds_run _ _ _ _ (decrypt_adds _ _ _) Hp) as (A2c & A2m & A2d). pose proof (adds_run _ _ _ _ (sign_adds _ _ _) Hs) as (A3c & A3m & A3d).
  apply after_ok in Hs as ([sk' vk'] & ks4 & Hk4%derive_keypair_ok & Hg). injection Hg as <- <-.
  destruct A1 as [A1m A1d]. destruct (A1d Hd0 _ _ Hk) as [secret Es]. pose proof (A3c _ _ (A2c _ _ Hk)) as Hk'.
  assert ((sk', vk') = (sk, vk)) as [= -> ->] by congruence.
  exists customer, target, secret, bytes, (ss_keystore s1), ks2, plain, text. cbn. rewrite <-Es. cbn.
  split_and!; try done. by rewrite A3m, A2m.
Qed.

(** C21: A secret signed for an agent passes the contract's gate and opens.  Sent by the payer it
    names, with its accessor and condition, [store_agent_secret] takes the keystore's answer
    for the agent's word and does what storing in the agent's name does: the row is the
    agent's own, under the target that was signed.  And the ciphertext opens with the seed of
    that target and agent, under the master of the customer the request was made for. *)
Theorem agent_secret_admitted {header req s resp s'} target access accessor e w :
  pairs_derived (ss_keystore s) → wallet_sign_secret_store_handler header req s = (ROk resp, s') →
  from_fields (sr_project_id req) (sr_wasm_hash req) = ROk target → canonical_accessor accessor = accessor_of target →
  condition_text (sr_access req) = Some (json_of_access access) → predecessor_account_id e = str_trim (sr_payer req) →
  let agent := sg_agent_account resp in
  store_agent_secret e (sg_wallet_pubkey resp) accessor agent (sr_encrypted req) access (sr_vault_id req) (sg_signature_hex resp) w =
    store_secrets_internal e agent (predecessor_account_id e) (accessor_of target) agent (sr_encrypted req) access (sr_vault_id req) w ∧
  ∃ customer bytes ks ks' plain, extract_customer_from_header header = ROk customer ∧
    b64_decode (sr_encrypted req) = Some bytes ∧ master_for ks customer = master_for (ss_keystore s') customer ∧
    decrypt customer (target_seed target agent) bytes ks = (ROk plain, ks').
Proof.
  intros Hd Hr Ht Hacc Htx He. cbv zeta.
  destruct (secret_store_ok _ _ _ _ _ Hd Hr) as (customer & target' & secret & bytes & ks & ks' & plain & text & Hc & Ht' & Ha & Hk & Hb & Hm & Hdec & Htx' & Hs).
  assert (target' = target) as -> by congruence. assert (text = json_of_access access) as -> by congruence.
  split; [|by exists customer, bytes, ks, ks', plain].
  assert (canonical_profile (accessor_of target) (sg_agent_account resp) = sg_agent_account resp) as Hp by (by destruct target).
  unfold store_agent_secret. cbv zeta. rewrite Hacc, Hp, Hs, Hk, He, Ha. destruct (agent_profile secret w) as [Hsh Hno].
  rewrite (bind_run _ _ _ (hex_of (ed25519_pair secret).2) w).
  2:{ unfold implicit_account_of. rewrite (bind_run _ _ _ _ _ (wallet_key_parses secret w)). unfold Prelude.bind. cbn.
      rewrite !ha_hex_encode. unfold require. rewrite ha_implicit. done. }
  rewrite (bind_run _ _ _ _ _ Hsh). rewrite (bind_run _ _ _ tt w) by (apply require_true; by rewrite Hno).
  rewrite (bind_run _ _ _ tt w) by (apply require_true; by destruct target).
  rewrite (bind_run _ _ _ tt w) by (apply require_true; by destruct target).
  rewrite (bind_run _ _ _ tt w); [done|]. unfold Messages.secret_store_message. rewrite binding_agrees. apply wallet_signature_verifies.
Qed.
End agent_secrets.

(** * Solana *)

Section solana.
Context `{Unicode} `{AccountIds} `{KeyCrates} `{Crates} `{PolicyCrate} `{SignCrates} {W : Type} `{SignHost W}.
Implicit Types s : SignState W.

(** Bytes a node would run as a transaction. *)
Definition is_transaction (bytes : string) : Prop :=
  str_len bytes ≤ MAX_TX_MESSAGE_LEN ∧ ∃ m, message_wire m (str_bytes bytes) ∧ sanitized m.
Lemma str_bytes_are_bytes (x : string) : Forall is_byte (str_bytes x).
Proof.
  induction x as [|a x IH]; [constructor|]. unfold str_bytes. cbn. constructor; [|done]. unfold is_byte, byte_of.
  pose proof (N_ascii_bounded a). lia.
Qed.
Lemma recognised_iff bytes : parses_as_transaction_message (str_bytes bytes) = true ↔ is_transaction bytes.
Proof.
  rewrite transaction_messages_recognised by apply str_bytes_are_bytes. unfold is_transaction, str_len. by rewrite str_bytes_length.
Qed.

(** Steps that do not say a message is a transaction. *)
Definition other_word {A} (m : act (SignState W) A SignError) : Prop := ∀ s, (m s).1 ≠ RErr (Bad IsTransaction).
Lemma other_after {A B} (m : act (SignState W) A SignError) (k : A → act (SignState W) B SignError) :
  other_word m → (∀ a, other_word (k a)) → other_word (after m k).
Proof. intros Hm Hk s. specialize (Hm s). unfold after. destruct (m s) as [[a|e] s1]; cbn in *; [apply Hk | congruence]. Qed.
Lemma other_keystore {A E} (f : E → SignError) (m : act Keystore A E) : (∀ e, f e ≠ Bad IsTransaction) → other_word (on_keystore f m).
Proof. intros Hf s. unfold on_keystore. destruct (m (ss_keystore s)) as [[a|e] ks]; cbn; [done|]. specialize (Hf e). congruence. Qed.
Lemma other_world {A E} (f : E → SignError) (m : act W A E) : (∀ e, f e ≠ Bad IsTransaction) → other_word (on_world f m).
Proof. intros Hf s. unfold on_world. destruct (m (ss_world s)) as [[a|e] w]; cbn; [done|]. specialize (Hf e). congruence. Qed.
Lemma other_lift {A} (r : result A SignError) : r ≠ RErr (Bad IsTransaction) → other_word (lift r : act (SignState W) A SignError).
Proof. intros Hr s. exact Hr. Qed.
Lemma other_ok_or {A} (o : option A) e : e ≠ Bad IsTransaction → ok_or o e ≠ RErr (Bad IsTransaction).
Proof. destruct o; cbn; congruence. Qed.
Lemma other_client : other_word the_client.
Proof. intros s. unfold the_client. by destruct (ss_client s). Qed.
Lemma other_typed {A} name (read : Value → option A) absent field view : typed_field name read absent field view ≠ RErr (Bad IsTransaction).
Proof. unfold typed_field. destruct (value_get name view); [by apply other_ok_or | done]. Qed.

Ltac other_step :=
  lazymatch goal with
  | |- other_word (after _ _) => apply other_after; [|intros ?]
  | |- other_word (on_world _ _) => apply other_world; intros ?
  | |- other_word (on_keystore _ _) => apply other_keystore; intros ?
  | |- other_word the_client => apply other_client
  | |- other_word (lift _) => apply other_lift
  | |- other_word (match ?x with _ => _ end) => destruct x
  | |- typed_field _ _ _ _ _ ≠ _ => apply other_typed
  | |- ok_or _ _ ≠ _ => apply other_ok_or
  | |- other_word _ => by intros ?
  | |- _ => done
  end.
Lemma other_load wallet_id customer : other_word (load_wallet_policy wallet_id customer).
Proof. unfold load_wallet_policy, derive_wallet_ed25519_pubkey, open_policy. repeat (other_step; cbv beta zeta). Qed.
Lemma other_customer header : other_word (customer_of header).
Proof.
  unfold customer_of. apply other_after; [|intros customer; apply other_after; [|by intros ? s]].
  - apply other_lift. unfold extract_customer_from_header. by repeat case_match.
  - intros s. unfold ensure_loaded. apply other_keystore. by intros [].
Qed.
Lemma other_message_bytes encoding message : message_bytes encoding message ≠ RErr (Bad IsTransaction).
Proof. unfold message_bytes. cbv zeta. repeat (case_match; [try done; by apply other_ok_or|]). all: repeat case_match; try done; by apply other_ok_or. Qed.

Lemma after_fails {A B} (m : act (SignState W) A SignError) (k : A → act (SignState W) B SignError) s s' : other_word m →
  after m k s = (RErr (Bad IsTransaction), s') → ∃ a s1, m s = (ROk a, s1) ∧ k a s1 = (RErr (Bad IsTransaction), s').
Proof. intros Hm. specialize (Hm s). unfold after. destruct (m s) as [[a|e] s1]; cbn in Hm; [eauto | congruence]. Qed.
Lemma sign_bytes_said customer wallet_id chain bytes s s' :
  solana_sign_bytes customer wallet_id chain bytes false s = (RErr (Bad IsTransaction), s') → is_transaction bytes.
Proof.
  unfold solana_sign_bytes, check_wallet_id. intros (u & s1 & _ & Hr)%after_fails; [|by apply other_lift; destruct (validate_wallet_id _)].
  destruct (negb _); [done|]. cbn [negb andb] in Hr.
  destruct (parses_as_transaction_message _) eqn:Ep; [by apply recognised_iff|].
  match type of Hr with ?m s1 = _ => assert (other_word m) as Ho end.
  { apply other_after; [apply other_load|intros policy]. repeat (other_step; cbv beta zeta). }
  specialize (Ho s1). by rewrite Hr in Ho.
Qed.
Lemma said_transaction header wallet_id chain message encoding s s' :
  wallet_solana_sign_message_handler header wallet_id chain message encoding s = (RErr (Bad IsTransaction), s') →
  ∃ bytes, message_bytes encoding message = ROk bytes ∧ is_transaction bytes.
Proof.
  unfold wallet_solana_sign_message_handler. intros (u & s0 & _ & Hr)%after_fails; [|intros t; unfold is_ready; by destruct (ss_ready t)].
  apply after_fails in Hr as (customer & s1 & _ & Hr); [|apply other_customer].
  apply after_fails in Hr as (bytes & s2 & [Hb ->]%lift_result & Hr); [|apply other_lift, other_message_bytes].
  destruct (str_is_empty bytes); [done|]. destruct (MAX_MESSAGE_LEN <? str_len bytes); [done|].
  exists bytes. split; [done|]. by eapply sign_bytes_said.
Qed.

(** C22: A Solana wallet's message is no transaction.  When the keystore signs a message for a
    Solana wallet, the bytes it signs, with the pair of that chain's seed, are nothing a node
    would run as a transaction, and the policy on chain, read in the course of the request,
    allowed signing messages; and it says that bytes are a transaction only of those that
    are. *)
Theorem solana_message_is_no_transaction header wallet_id chain message encoding s :
  match wallet_solana_sign_message_handler header wallet_id chain message encoding s with
  | (ROk sig, s') => ∃ c customer bytes signing verifying key view policy w w1 w2,
      message_bytes encoding message = ROk bytes ∧ ¬ is_transaction bytes ∧
      extract_customer_from_header header = ROk customer ∧ ss_client s = Some c ∧
      cached s' (customer, wallet_seed is_evm_chain is_solana_chain wallet_id (to_lowercase chain)) (signing, verifying) ∧
      sig = bs58_text (ed25519_sign signing bytes) ∧
      wallet_key s' customer wallet_id key ∧ later c (ss_world s) w ∧ sc_wallet_policy c key w = (ROk view, w1) ∧ later c w1 w2 ∧
      reads_as s' customer wallet_id view policy ∧ solana_sign_decision policy false (clock_ms w2 / 1000) = Allow
  | (RErr (Bad IsTransaction), _) => ∃ bytes, message_bytes encoding message = ROk bytes ∧ is_transaction bytes
  | _ => True
  end.
Proof.
  destruct (wallet_solana_sign_message_handler _ _ _ _ _ _) as [r s'] eqn:Hr. unfold wallet_solana_sign_message_handler in Hr.
  destruct r as [sig|e].
  - apply after_ok in Hr as (u & t0 & [_ ->]%is_ready_ok & Hr).
    apply after_ok in Hr as (customer & s0 & (Hcu & Hc0 & Hw0)%customer_of_ok & Hr).
    apply after_ok in Hr as (bytes & ? & [Hb ->]%lift_result & Hr). destruct (str_is_empty bytes); [done|].
    destruct (MAX_MESSAGE_LEN <? str_len bytes); [done|]. unfold solana_sign_bytes in Hr.
    apply after_ok in Hr as (u1 & ? & [_ ->]%lift_result & Hr). destruct (negb _); [done|].
    destruct (parses_as_transaction_message (str_bytes bytes)) eqn:Ep; cbn [negb andb] in Hr; [done|].
    apply after_ok in Hr as (policy & s1 & Hl & Hr). destruct (load_client _ _ _ _ _ Hl) as [c Hc].
    destruct (goes_run _ _ _ _ _ (goes_load c _ _) Hc Hl) as [G1 Hc1].
    destruct (load_ok c _ _ _ _ _ Hc Hl) as (key & view & w & w1 & Hkey & Hlw & Hlw1 & Hv & Hp).
    apply after_ok in Hr as (now & ? & Hn & Hr). injection Hn as <- <-.
    destruct (solana_sign_decision _ _ _) eqn:Ed; try done. apply after_ok in Hr as (sg & s2 & (ks & Hs & ->)%on_keystore_ok & Hg).
    injection Hg as <- <-. pose proof (adds_run _ _ _ _ (sign_adds _ _ _) Hs) as (Ac & Am & _).
    apply after_ok in Hs as ([sk vk] & ks1 & Hk%derive_keypair_ok & Hg). injection Hg as <- <-.
    exists c, customer, bytes, sk, vk, key, view, policy, w, w1, (ss_world s1).
    split_and!; [done | by rewrite <-recognised_iff, Ep | done | congruence | done | done | | by rewrite <-Hw0 | done | done | | done].
    + destruct Hkey as (sk' & vk' & Hk' & ->). exists sk', vk'. split; [|done]. by apply Ac.
    + eapply reads_as_masters; [|exact Hp]. cbn. by rewrite Am, (ow_masters _ _ _ G1).
  - destruct e as [[]| | | | | |]; try done. exact (said_transaction _ _ _ _ _ _ _ Hr).
Qed.
End solana.
