(* ===== verification/WalletSamples.v ===== *)
(** Concrete crates, a policy engine, a chain and two wallets' requests the theorems on
    wallets apply to.  The contract of the sample holds the policy that the keystore itself
    signed for it in a first request, locked; a second request replaces it by a vote. *)

From S2P Require Import Wallet Secrets Samples.
From S2P Require Import KeySamples.
From S2P Require Export WalletSecrets WalletEvm.

(** * Crates *)

(** Pairs of 32 bytes; a signature is the key and what it signs, cut to 64 bytes. *)
Definition wallet_key_crates : KeyCrates := {|
  mac := λ key text, fix_len 32 (str_drop 8 text +:+ key);
  hex_of := sample_hex_encode;
  ed25519_pair := λ s, (fix_len 32 s, fix_len 32 s);
  ed25519_sign := λ k m, fix_len 64 (k +:+ m);
  x25519_public := λ _, zeros 32;
  x25519_shared := λ _ _, "";
  hkdf_expand := λ s i, s +:+ i;
  chacha_seal := λ _ _, plain_seal;
  chacha_open := λ _ _, plain_open;
  sha2_256 := fix_len 32;
  sha3_256 := fix_len 32;
|}.
(** The contract's host, with the same functions. *)
Definition wallet_platform : Platform := {|
  platform_unicode := sample_unicode;
  json := string;
  json_from_str := sample_json_from_str;
  json_to_string := λ v, v;
  json_get_str := λ v k, if decide (k = "operation") then Some v else None;
  json_null := "null";
  json_quote := λ s, "'" +:+ s +:+ "'";
  json_of_access := λ c, match c with AllowAll => "AllowAll" | _ => "other" end;
  json_ft_action := sample_ft_action;
  base64_encode := sample_hex_encode;
  hex_encode := sample_hex_encode;
  Contract.hex_decode := sample_hex_decode;
  sha256 := fix_len 32;
  ed25519_verify := λ sig m pk, String.eqb sig (fix_len 64 (pk +:+ m));
  ecrecover := λ _ _ _, None;
  account_id_valid := λ s, negb (has_byte ch_colon s) && (2 <=? str_len s);
|}.
#[local] Existing Instances wallet_key_crates wallet_platform plain_accounts plain_crates.

Lemma hex_length s : str_len (sample_hex_encode s) = 2 * str_len s.
Proof. unfold str_len. induction s as [|c s IH]; [done|]. cbn in *. lia. Qed.
Lemma sample_agrees : HostAgrees.
Proof.
  split.
  - exact sample_hex_roundtrip.
  - done.
  - exact sample_hex_digits.
  - intros s Hs E. apply (f_equal str_len) in E. change (hex_of s) with (sample_hex_encode s) in E. rewrite hex_length in E.
    destruct s; [done|]. unfold str_len in E. cbn in E. lia.
  - exact hex_length.
  - intros secret. change (negb (has_byte ch_colon (sample_hex_encode (fix_len 32 secret))) && (2 <=? str_len (sample_hex_encode (fix_len 32 secret))) = true).
    rewrite hex_length. unfold str_len. rewrite fix_len_length.
    by destruct (hex_chars _ (sample_hex_digits (fix_len 32 secret))) as (_ & -> & _).
  - done.
  - intros secret m. apply String.eqb_refl.
  - intros secret. unfold str_len. cbn [ed25519_pair wallet_key_crates snd]. by rewrite fix_len_length.
  - intros secret m. unfold str_len. cbn [ed25519_sign wallet_key_crates]. by rewrite fix_len_length.
Qed.
#[local] Existing Instance sample_agrees.

(** * A policy engine *)

Definition wallet_types : PolicyTypes := {|
  Op := OpView; Threshold := Z; VoteShape := unit; UsageState := unit; Extra := unit; no_extra := tt |}.
#[local] Existing Instance wallet_types.

(** Two texts are policies: one that asks for [carol.near]'s vote and locks itself, and an
    empty one. *)
Definition carol_policy : Policy :=
  mkPolicy false (Some (mkApproval (Some [mkApprover (Some "carol.near") None tt]) (Some 1) (Some true) tt)) None None tt.
Definition read_policy (text : string) : option Policy :=
  if String.eqb text "carol" then Some carol_policy else if String.eqb text "open" then Some default_policy else None.
Definition names_id (p : Policy) (id : string) : bool := existsb (λ x : string * option string, String.eqb id x.1) (named_approvers p).
Definition sample_judge (p : Policy) : Decision :=
  if pol_frozen p then FrozenWallet else
  match a ← pol_approval p; approval_threshold a with Some t => RequiresApproval t | None => Allow end.
Definition wallet_engine : PolicyCrate := {|
  op_view := λ op, op;
  policy_update := OpPolicyUpdate;
  request_hash := λ op, match op with
    | OpTransfer to amount => "transfer " +:+ amount +:+ " to " +:+ to
    | OpPolicyUpdate _ h v _ caller => "policy " +:+ h +:+ " " +:+ uint_to_string v +:+ " by " +:+ caller
    | _ => "other" end;
  evaluate := λ p _ _ _, sample_judge p;
  usage_of := λ _, tt;
  bind_mode := λ op, match op with OpRaw _ _ | OpSignMessage _ _ => HashPinned | OpPolicyUpdate _ _ _ _ _ => PolicyUpdateMode | OpOther => Trusted | _ => Built end;
  signing_version_gate := λ _ _ _, ROk tt;
  admits_key := λ p id _, names_id p id;
  admits_contract_vote := names_id;
  vote_message := λ verb id key hash, (match verb with Approve => "approve" | Reject => "reject" end) +:+ " " +:+ id +:+ " " +:+ key +:+ " " +:+ hash;
  AUTHORIZATION_MAX_BYTES := 1024;
  required := λ t, t;
  lock_is_satisfiable := λ _, ROk tt;
  policy_canonical_hash_hex := λ v, match v with VString s => "hash of " +:+ s | _ => "hash" end;
  is_intents_contract := String.eqb "intents.near";
  GATE_ONLY_INTENTS_METHODS := [];
  intents_storage_deposit_amount := λ s, ok_or (parse_u128 s) "no amount";
  build_auth_message := λ purpose seed now _, ROk (purpose +:+ ":" +:+ seed +:+ ":" +:+ uint_to_string now);
  build_jwt_auth_message := λ deadline signer, deadline +:+ signer;
  build_jwt_versioned_nonce := λ salt _ _ random, fix_len 32 (salt +:+ random);
  evm_sign_decision := λ p _ _, match p with Some p => sample_judge p | None => Allow end;
  solana_sign_decision := λ p _ _, match p with Some p => sample_judge p | None => Allow end;
  is_evm_chain := String.eqb "ethereum";
  is_solana_chain := String.eqb "solana";
  is_valid_sub_path := λ p, negb (has_byte ch_colon p);
  condition_bounds := λ _, ROk tt;
  policy_from_slice := read_policy;
  policy_from_value := λ v, match v with VString s => read_policy s | _ => None end;
|}.
#[local] Existing Instance wallet_engine.

(** Keys and signatures as text after a name; a signature is its key's when they are equal. *)
Definition named_key (s : string) : option (NearKeyType * string) := (λ k, (NkEd25519, k)) <$> Statement.strip_prefix "ed25519:" s.
Definition wallet_crates : SignCrates := {|
  json_of_text := λ s, Some (VString s);
  text_of_json := λ v, match v with VString s => s | _ => "json" end;
  condition_value := λ _, Some VNull;
  condition_text := λ c, Some (match c with CAllowAll => "AllowAll" | _ => "other" end);
  hex_parse := sample_hex_decode;
  bs58_text := sample_hex_encode;
  near_key := named_key;
  near_key_text := λ k, "ed25519:" +:+ k.2;
  near_signature := named_key;
  signature_from_parts := λ t b, Some (t, b);
  near_verify := λ sig _ key, String.eqb sig.2 key.2;
  tx_borsh := λ tx, tx_signer_id tx +:+ tx_receiver_id tx;
  tx_get_hash := λ tx, fix_len 32 (tx_signer_id tx +:+ tx_receiver_id tx);
  signed_tx_borsh := λ sig tx, sig.2 +:+ tx_receiver_id tx;
|}.
#[local] Existing Instance wallet_crates.

(** * The chain *)

(** Time passes with every question. *)
Definition sample_host : SignHost nat := {|
  clock_ms := λ w, 1700000000000 + Z.of_nat w;
  draw := λ n w, (zeros n, S w);
  request_master := λ _ _ _ _, RErr (CkdFailed "" "no answer");
|}.
#[local] Existing Instance sample_host.
(** The contract's view at [C]; [carol.near] has one key, with full access. *)
Definition wallet_client (C : Contract) : SignClient nat := mkSignClient "outlayer.near" (λ _, sample_chain)
  (λ key w, (ROk (view_json (get_wallet_policy C key)), S w))
  (λ account key w, (ROk (if String.eqb account "carol.near" && String.eqb key "ed25519:ca0001" then FullAccess else Absent), S w))
  (λ _ _ _ _ _ w, (ROk (RErr "no such contract"), S w))
  (λ _ _ w, (ROk (7, "block"), S w))
  (λ _ _ _ w, (RErr "no view", S w)).
Definition wallet_state (C : Contract) : SignState nat := mkSignState sample_keystore true true (Some (wallet_client C)) 0%nat.
Lemma sample_shows C : shows_contract (wallet_client C) C.
Proof. intros key w. by eexists. Qed.
Lemma sample_derived : pairs_derived sample_keystore.
Proof. intros k kp E. discriminate. Qed.

(** * A policy is filed, and replaced by a vote *)

Definition sealed (seed text : string) : string :=
  match encrypt sample_keystore (zeros 32) (zeros 12) None seed text with ROk b => b64_encode b | RErr _ => "" end.
Definition carols_vote : ApproverSig :=
  mkApproverSig "carol.near" "ed25519:ca0001" "ed25519:ca0001" (sample_hex_encode (zeros 32)).
Definition carols_word : ApprovalInfo := mkApprovalInfo _ "a1" "outlayer.near" [carols_vote; carols_vote] [] [] [].
Definition policy_request (text : string) (info : option ApprovalInfo) : WalletSignPolicyRequest :=
  mkPolicyRequest "w1" (sealed (policy_seed "w1") text) " alice.near" info.
Definition policy_answer (C : Contract) (text : string) (info : option ApprovalInfo) : result WalletSignPolicyResponse SignError * SignState nat :=
  wallet_sign_policy_handler None (policy_request text info) (wallet_state C).
Definition alice : Env := sample_env "alice.near" ONE_NEAR 1700000000000000000.
Definition file_policy (C : Contract) (text : string) (info : option ApprovalInfo) : option Contract :=
  match policy_answer C text info with
  | (ROk r, _) =>
    match store_wallet_policy alice ("ed25519:" +:+ sp_public_key_hex r) (sealed (policy_seed "w1") text) (sp_signature_hex r)
            (sp_version r) (sp_locked r) (sp_valid_until r) None (start C) with
    | Ok (_, w) => Some (st w)
    | Panic _ => None
    end
  | _ => None
  end.
Definition locked_contract : Contract := default sample_contract (file_policy sample_contract "carol" None).
Definition wallet_text : string := "ed25519:" +:+ sample_hex_encode (fix_len 32 (mac "default" (near_seed "w1"))).

Lemma first_filed : file_policy sample_contract "carol" None = Some locked_contract.
Proof. vm_compute. reflexivity. Qed.
Lemma now_locked : meta_of locked_contract wallet_text = mkPolicyMeta 1 true.
Proof. vm_compute. reflexivity. Qed.
(** Without the vote the policy is not replaced. *)
Lemma lock_holds : (policy_answer locked_contract "open" None).1 = RErr (Refused (ByLock 1 NoApprovals)).
Proof. vm_compute. reflexivity. Qed.
Lemma vote_passes : KeySamples.is_ok (policy_answer locked_contract "open" (Some carols_word)) = true.
Proof. vm_compute. reflexivity. Qed.

Lemma locked_wallets : wallets_ok locked_contract.
Proof.
  pose proof first_filed as E. unfold file_policy in E. destruct (policy_answer _ _ _) as [[r|] ?]; [|done].
  destruct (store_wallet_policy _ _ _ _ _ _ _ _ _) as [[[] w]|] eqn:Es; [|done].
  assert (st w = locked_contract) as <- by congruence. by apply store_wallet_policy_inv in Es; [|exact sample_wallets_ok].
Qed.

(** * A transfer, by a vote *)

Definition transfer_request : WalletSignRequest :=
  mkSignRequest _ "w1" (OpTransfer "bob.near" "5") (Some carols_word) None None None None.
Definition transfer : result WalletSignResponse SignError * SignState nat :=
  wallet_sign_handler None transfer_request (wallet_state locked_contract).
Lemma transfer_signed : KeySamples.is_ok transfer = true.
Proof. vm_compute. reflexivity. Qed.

Lemma signed_only_as_allowed_witness : ∃ resp s' key view policy w w1, transfer = (ROk resp, s') ∧
  wallet_key s' None "w1" key ∧ sc_wallet_policy (wallet_client locked_contract) key w = (ROk view, w1) ∧
  reads_as s' None "w1" view policy.
Proof.
  destruct (is_ok_eq _ transfer_signed) as (resp & s' & E).
  destruct (signed_only_as_allowed None transfer_request (wallet_state locked_contract) resp s' E)
    as (c & customer & key & view & policy & w & w1 & w2 & Hc & Hcu & Hk & _ & Hv & _ & _ & Hr & _).
  injection Hc as <-. injection Hcu as <-. exists resp, s', key, view, policy, w, w1. split; [exact E|]. split; [exact Hk|]. split; [exact Hv | exact Hr].
Defined.
Definition transfer_check : result WalletCheckPolicyResponse SignError * SignState nat :=
  wallet_check_policy_handler false None (check_of transfer_request) (wallet_state locked_contract).
Lemma check_foretells_sign_witness : ∃ resp s1, transfer_check = (ROk resp, s1) ∧ ck_requires_approval resp = Some true ∧
  ∃ n, ck_required_approvals resp = Some (as_i32 n).
Proof.
  assert (match transfer_check with (ROk r, _) => (ck_allowed r, ck_requires_approval r) | _ => (false, None) end = (true, Some true)) as Hv by (vm_compute; reflexivity).
  destruct transfer_check as [[resp|] s1] eqn:E; [|discriminate]. injection Hv as Ha Hn.
  assert (refuse_policy_update (wr_op transfer_request) = ROk tt) as Hu by reflexivity.
  destruct (check_foretells_sign false None transfer_request (wallet_state locked_contract) resp s1 Hu E) as (_ & _ & Ht).
  exists resp, s1. split; [reflexivity|]. split; [exact Hn|]. destruct (Ht Ha) as (customer & policy & Hx). rewrite Hn in Hx.
  destruct Hx as (n & Hx & _). exists n. exact Hx.
Defined.

(** * A ballot *)

Definition carol_owns (account key : string) : bool := String.eqb account "carol.near" && String.eqb key "ed25519:ca0001".
Lemma sample_answering : answering (wallet_client locked_contract) carol_owns (λ _ _, false).
Proof.
  split.
  - intros account key w. by exists (S w).
  - intros v message w. by exists (S w), "no such contract".
Qed.
Lemma ballot_counted_exactly_witness : (verify_approvals carol_policy wallet_text "h" (Some carols_word) 1 (wallet_state locked_contract)).1 = ROk tt ∧
  1 ≤ Z.of_nat (size (voters (wallet_client locked_contract) carol_policy (λ _ _, false) carols_word (yes_message carols_word wallet_text "h"))).
Proof.
  assert (Hr : (verify_approvals carol_policy wallet_text "h" (Some carols_word) 1 (wallet_state locked_contract)).1 = ROk tt) by (vm_compute; reflexivity).
  split; [exact Hr|].
  apply (ballot_counted_exactly (wallet_client locked_contract) carol_policy carol_owns (λ _ _, false) sample_answering wallet_text "h" (Some carols_word) 1
    (wallet_state locked_contract) eq_refl) in Hr as (_ & i & Hi & _ & _ & _ & _ & Hn).
  - injection Hi as <-. exact Hn.
  - intros i Hi. injection Hi as <-. split; [|constructor]. constructor; [|constructor; [|constructor]]; intros _; split; reflexivity.
Defined.

(** * An agent's secret *)

Definition agent_account : string := sample_hex_encode (fix_len 32 (mac "default" (near_seed "w1"))).
Definition secret_request : SignSecretStoreRequest :=
  mkStoreRequest "w1" (Some "alice.near/app") None (sealed ("project:alice.near/app:" +:+ agent_account) "secret") "alice.near" CAllowAll None.
Definition secret_answer : result SignSecretResponse SignError * SignState nat :=
  wallet_sign_secret_store_handler None secret_request (wallet_state sample_contract).
Lemma secret_signed : KeySamples.is_ok secret_answer = true.
Proof. vm_compute. reflexivity. Qed.
Lemma agent_secret_admitted_witness : ∃ resp s', secret_answer = (ROk resp, s') ∧ ∀ w,
  store_agent_secret alice (sg_wallet_pubkey resp) (AccProject "alice.near/app") (sg_agent_account resp) (sr_encrypted secret_request)
    AllowAll None (sg_signature_hex resp) w =
  store_secrets_internal alice (sg_agent_account resp) "alice.near" (AccProject "alice.near/app") (sg_agent_account resp)
    (sr_encrypted secret_request) AllowAll None w.
Proof.
  destruct (is_ok_eq _ secret_signed) as (resp & s' & E). exists resp, s'. split; [exact E|]. intros w.
  destruct (agent_secret_admitted (s := wallet_state sample_contract) (TargetProject "alice.near/app") AllowAll (AccProject "alice.near/app") alice w sample_derived E) as [Hw _].
  - vm_compute. reflexivity.
  - reflexivity.
  - reflexivity.
  - vm_compute. reflexivity.
  - exact Hw.
Defined.

(** * A Solana message *)

Definition solana_answer (message : string) : result string SignError * SignState nat :=
  wallet_solana_sign_message_handler None "w1" "Solana" message None (wallet_state sample_contract).
(** A legacy message of one key and no instructions. *)
Definition solana_transaction : string :=
  str_of_bytes ([1; 0; 0; 1] ++ replicate 32 7 ++ replicate 32 9 ++ [0]).
Lemma solana_samples : KeySamples.is_ok (solana_answer "sign in") = true ∧
  (solana_answer solana_transaction).1 = RErr (Bad IsTransaction).
Proof. vm_compute. split; reflexivity. Qed.

(** * Ethereum *)

Definition sample_keccak : Keccak := {| keccak := λ l, take 32 (l ++ replicate 32 0) |}.
#[local] Existing Instance sample_keccak.
Lemma sample_keccak_laws : KeccakLaws.
Proof. split. intros l. cbn [keccak sample_keccak]. rewrite length_take, length_app, length_replicate. lia. Qed.
#[local] Existing Instance sample_keccak_laws.
(** A signature is the key twice; it recovers to the key. *)
Definition sample_evm : EvmCrates := {|
  k256_scalar := λ _, true;
  k256_point := fix_len 64;
  k256_compressed := fix_len 33;
  sign_prehash_recoverable := λ k _, Some (fix_len 64 k, 1);
|}.
#[local] Existing Instance sample_evm.
Definition sample_evm_laws : EvmLaws.
Proof.
  refine {| eth_recover := λ _ rs _, Some rs |}.
  - intros scalar digest rs id E _. assert (rs = fix_len 64 scalar) as -> by (change (Some (fix_len 64 scalar, 1) = Some (rs, id)) in E; congruence). reflexivity.
  - intros scalar digest rs id E. change (Some (fix_len 64 scalar, 1) = Some (rs, id)) in E. assert (rs = fix_len 64 scalar ∧ id = 1) as [-> ->] by (split; congruence).
    split; [|done]. unfold str_len. by rewrite fix_len_length.
Defined.
#[local] Existing Instance sample_evm_laws.

Lemma sample_hex_law s : hex_parse s = sample_hex_decode s.
Proof. reflexivity. Qed.
(** A negative number far out of the range of [int8] is taken for one, and a large positive
    one of [int256] for minus one. *)
Lemma signed_value_wraps :
  encode_atomic "int8" (VString "-115792089237316195423570985008687907853269984665640564039457584007913129639935") = ROk (word 1) ∧
  encode_atomic "int256" (VString "115792089237316195423570985008687907853269984665640564039457584007913129639935") =
    encode_atomic "int256" (VString "-1").
Proof. vm_compute. split; reflexivity. Qed.

Definition field_of (name ftype : string) : Value := VObject [("name", VString name); ("type", VString ftype)].
Definition mail (contents : string) : Value := VObject
  [("domain", VObject [("chainId", VNumber "1")]); ("primaryType", VString "Mail");
   ("types", VObject [("EIP712Domain", VArray [field_of "chainId" "uint256"]);
      ("Mail", VArray [field_of "to" "Person[]"; field_of "contents" "string"]); ("Person", VArray [field_of "name" "string"])]);
   ("message", VObject [("to", VArray [VObject [("name", VString "bob")]]); ("contents", VString contents)])].
Definition mail_types : Types := {[ "EIP712Domain" := [("chainId", "uint256")]; "Mail" := [("to", "Person[]"); ("contents", "string")];
  "Person" := [("name", "string")] ]}.
Lemma mail_text : encode_type mail_types "Mail" = ROk "Mail(Person[] to,string contents)Person(string name)".
Proof. vm_compute. reflexivity. Qed.
Lemma mail_parts contents : typed_parts (mail contents) mail_types "Mail" (VObject [("chainId", VNumber "1")])
  (VObject [("to", VArray [VObject [("name", VString "bob")]]); ("contents", VString contents)]).
Proof. split_and!; [reflexivity..|]. eexists. split; [reflexivity | vm_compute; reflexivity]. Qed.
Definition mail_digest : list Z := match eip712_digest (mail "hi") with ROk d => d | RErr _ => [] end.
Lemma mail_digest_ok : eip712_digest (mail "hi") = ROk mail_digest.
Proof. vm_compute. reflexivity. Qed.
Lemma digest_binds_data_witness : eip712_digest (mail "hi") = ROk mail_digest ∧
  let message := VObject [("to", VArray [VObject [("name", VString "bob")]]); ("contents", VString "hi")] in
  (same_struct mail_types "EIP712Domain" (VObject [("chainId", VNumber "1")]) (VObject [("chainId", VNumber "1")]) ∧
     same_struct mail_types "Mail" message message) ∨ collision.
Proof.
  split; [exact mail_digest_ok|]. cbv zeta.
  exact (proj1 (digest_binds_data _ _ _ _ _ _ _ _ _ (mail_parts "hi") (mail_parts "hi") mail_digest_ok) mail_digest_ok).
Defined.

Lemma sample_chains chain : is_evm_chain chain = true → chain ≠ "near" ∧ is_solana_chain chain = false.
Proof. intros E. change (String.eqb "ethereum" chain = true) in E. apply String.eqb_eq in E as <-. by split. Qed.
Definition mail_answer : result string SignError * SignState nat :=
  evm_handler None "w1" "Ethereum" (Some "a") (TypedData (mail "hi")) (wallet_state sample_contract).
Lemma mail_signed : KeySamples.is_ok mail_answer = true.
Proof. vm_compute. reflexivity. Qed.
Lemma evm_signature_recovers_witness : ∃ sig s' address rs v point, mail_answer = (ROk sig, s') ∧
  (v = 27 ∨ v = 28) ∧ eth_recover mail_digest rs v = Some point ∧ address = eth_address point.
Proof.
  destruct (is_ok_eq _ mail_signed) as (sig & s' & E).
  assert (match mail_answer with (ROk _, s1) => KeySamples.is_ok (wallet_derive_address_handler None "w1" "Ethereum" (Some "a") s1) | _ => false end = true) as Ha
    by (vm_compute; reflexivity).
  rewrite E in Ha. destruct (is_ok_eq _ Ha) as ([address pk] & s2 & Ea).
  destruct (evm_signature_recovers sample_chains E Ea) as (customer & digest & raw & rs & v & point & _ & Hd & _ & _ & Hv & Hr & Hadd & _).
  - intros cu. apply (default_address_reads sample_chains) in Ea as ->; reflexivity.
  - exists sig, s', address, rs, v, point. split; [exact E|]. split; [exact Hv|]. split; [|exact Hadd].
    assert (described (TypedData (mail "hi")) = Some (mail_digest, false)) as Hm by (unfold described; rewrite mail_digest_ok; reflexivity).
    rewrite Hm in Hd. apply (f_equal (λ o : option (list Z * bool), match o with Some x => x.1 | None => [] end)) in Hd.
    change (mail_digest = digest) in Hd. rewrite Hd. exact Hr.
Defined.
